(* ===== verification/_CoqProject ===== *)
-Q . S2P
Prelude.v
GoLib.v
GoText.v
IO.v
ThirdParty.v
Reference.v
ApiTypes.v
ApiEquality.v
KubeApi.v
FakeServer.v
KubePods.v
PrivKey.v
DerivedNames.v
Upgrades.v
CosmosignerSpec.v
SignerResolve.v
Getters.v
Exporter.v
SpecValidation.v
UniqueSecrets.v
DerivedServices.v
SignerWebhook.v
SigningNames.v
SigningPaths.v
ResourceCleanup.v
GenesisFingerprint.v
NodeSetWebhook.v
ChainNodeWebhook.v
Labels.v
Migration.v
MigrationControllers.v
Deploy.v
Teardown.v
NodeFinalize.v
SetFinalize.v
Startup.v
Pdb.v
Reservation.v
ReservationNode.v
ReservationSet.v
SignerRender.v
SignerJobs.v
TmKms.v
NodeSignerKeys.v
NodeSigner.v
NodeSigning.v
SetSignerKeys.v
SetSigner.v
SetRollout.v
SetSigning.v
SetChildren.v
SetNodes.v
SetValidators.v
SetHandover.v
SetGenesis.v
SnapshotApi.v
SnapshotJobs.v
SnapshotProviders.v
SnapshotExports.v
Snapshots.v
SnapshotLife.v
ReservationProtocol.v
ReservationSequential.v
Vpa.v
