(* ===== verification/Prelude.v ===== *)
(** * Cosmopilot: a verification library

    Cosmopilot is a Kubernetes operator for Cosmos SDK chains.  Its custom
    resources are [ChainNode] (one node), [ChainNodeSet] (groups of nodes, their
    validators and signers) and [ConsensusKeyReservation] (who may sign with a
    consensus key).  Controllers reconcile them; a sidecar, node-utils, runs next
    to each node.  This library models the part of the Go code whose mistakes
    are not repairable: the code that decides which workload may sign with which
    key, in which order signers are replaced and their raft state is deleted,
    which version a node runs and which resources it gets.

    ** How the code is read

    - Pure Go functions are Gallina functions of the same name.  Where two types
      have a method of one name, the less central one carries a prefix
      ([chainnode_], [nodeset_], [set_], [vpam_]).
    - A routine that talks to the API server is a tree of requests ([kube A],
      file IO): one node per client call, with a branch for every answer,
      errors included.  [x ←? m; k] is Go's
      [x, err := m; if err != nil { return err }; k].  What such a routine
      promises is stated with [spec P h m Q]: after the history [h] it issues
      only requests allowed by [P], which sees all answers so far, and when it
      returns, [Q] holds of the history and the result - whatever the server
      answers.  [sys_run] interleaves any number of routines against one server.
    - The API server is not code of the repository: it is a relation ([ApiServer]
      in KubeApi) constrained by documented behaviour ([ApiServerLaws]: unique
      UIDs, immutable specs, linearizable direct reads, preconditioned deletes).
      FakeServer is an executable server satisfying the laws; witnesses and the
      termination theorem run on it.  Cached reads are unconstrained.
    - Code of other libraries is a class of operations with a class of laws
      (ThirdParty): object metadata, quantities, durations, JSON.  Reference
      holds instances the laws hold of.
    - Errors are values ([result], Prelude): messages are kept as format string
      and arguments, unrendered.  Logging and events are left out.
    - Go integers are [Z]; where overflow is possible it is written out ([wrap]).
      [float64] is the standard library's executable IEEE-754 ([SpecFloat]).
    - A Go pointer is an [option]; a pointer into a slice is the position of the
      entry ([update_entry]); maps shared between structs are references
      ([MapRef], Vpa).

    ** The files

    Foundations.
    - Prelude: errors, machine integers, Go's [strings], shared lemmas and the
      tactic [to_prop].  GoLib: [strconv], [sort], base64, SHA-256
      ([pkg/utils/hash.go]).  IO: request trees, the trace logic, interleaving.
    - ThirdParty, Reference: interfaces of libraries and instances of them.
    - ApiTypes: the custom resources ([api/v1/*_types.go]); ApiEquality: their
      decidable equality; Getters: their accessors with defaults.
    - KubeApi, FakeServer: objects, requests, server laws and a server.
      KubePods: pod helpers and waits ([internal/k8s/pod.go]).

    Signers, as specified and stored.
    - CosmosignerSpec ([api/v1/cosmosigner_helper.go]): a signer block: defaults,
      validation, signing identities, import fingerprints and the import
      protocol of Cloud KMS.
    - SignerResolve ([api/v1/cosmosigner_resolve.go], parts of
      [chainnode_helper.go], [chainnodeset_helper.go], [cosmosigner_helper.go]):
      the signers of a set, their digests, status entries, what is recorded when
      a chain is established, and the adoption of renamed signers.
    - PrivKey ([internal/cometbft/privkey.go]): validator key files.

    Signers, as deployed ([internal/cosmosigner], [internal/tmkms]).
    - SigningNames, SigningPaths: which workloads can sign for a root, and
      removing them: retain claims, scale to zero, wait, delete by UID, confirm
      absence.
    - SignerRender: configuration and objects of a signer, its lifecycle digest
      and the key read back from a live one.  SignerJobs: the one-shot pods that
      import and read keys.  TmKms: the sidecar that signs for one validator.
    - Deploy, Teardown: applying a signer with its raft state, and removing it.
    - Migration: the persisted phases of replacing a signer's key.
    - Reservation: acquiring, recovering and releasing a key.
      ReservationProtocol: the same with any number of concurrent controllers.
      ReservationSequential: the same alone on a server.
    - ResourceCleanup ([internal/resourcecleanup]): durable resources by owner.

    Admission ([api/v1/chainnode_webhook.go], [chainnodeset_webhook.go]).
    - DerivedNames, SpecValidation, UniqueSecrets, DerivedServices,
      SignerWebhook, GenesisFingerprint: the checks; NodeSetWebhook,
      ChainNodeWebhook: their composition.

    The reconcile of a node ([internal/controllers/chainnode]).
    - Labels, Upgrades, Vpa: inherited labels, upgrades, vertical autoscaling.
    - NodeSignerKeys, NodeSigner: keys, reservation, deployment and removal of
      a node's signer; NodeSigning: what a signing pass promises.
    - ReservationNode, NodeFinalize: giving keys back; a deleted node.

    The reconcile of a set ([internal/controllers/chainnodeset]).
    - MigrationControllers: migrations of nodes and sets.
    - SetSignerKeys, SetSigner, SetRollout: keys, checks and reservation, and
      deployment of all signers of a set; SetSigning: what the pass promises.
    - SetChildren: the nodes a set derives for its groups and validators
      ([utils.go], specs of [nodes.go], [validator.go]).  SetNodes, SetValidators:
      creating, updating and deleting them, what the status records of them, and
      the retargeting of nodes to a changed signer.  SetHandover, SetGenesis: what
      a pass over the nodes may do, and what it keeps of the genesis.
    - ReservationSet, SetFinalize: giving keys back; a deleted set.
    - Pdb: disruption budgets.  Startup: what the manager does beforehand.

    The files follow the code's call graph.  A reconcile reserves keys
    (NodeSigner, SetSigner over Reservation) before a signer is rendered and
    deployed (SignerRender, Deploy), follows Migration when it changes and uses
    SigningPaths and Teardown when a root or a stale claim is cleaned up; all of
    them name workloads with SigningNames and signers with SignerResolve, which
    reads the blocks of CosmosignerSpec that admission let through.

    ** What is shown

    - Reservations: in any interleaving one key has one holder and one claim has
      one key ([one_holder_per_key], [one_key_per_claim]), for owners that stay
      alive and do not release; the loop terminates within two rounds when alone
      ([Ensure_terminates]); release and recovery delete only what they have
      seen to be theirs or stale.
    - Signing passes: a node deploys its signer, and a set prepares and deploys
      each of its signers, only with a key reserved in the same pass
      ([reconcileSigningConfigs_reserves], [reconcile_set_signers_reserves],
      [prepareCosmosignerRollouts_reserved]).
    - Nodes of a set: a pass touches only children of the set and lets a signer
      find a further instance only after the first has handed its key over
      ([children_pass_spec]); a node a signer can find holds no key of its own
      ([found_validator_signs_remotely]); instances of an admitted group derive
      the genesis their leader creates ([genesis_validators_match]); who
      initialized the genesis is never forgotten or invented
      ([genesis_entries_kept]).
    - Deployment: objects are applied only over raft state that was found safe
      ([signer_applied_only_with_state], [preflight_sound]); one replica
      bootstraps a cluster ([one_replica_bootstraps]); the key of a live signer
      is the one it was rendered with ([recovery_roundtrip]); an import is
      reported done only when its pod succeeded ([ImportKey_spec]).
    - Signing paths: a workload is deleted only by the UID of an object seen to be
      controlled by the owner, after its claims were retained and it was seen
      scaled to zero, and a path is reported gone only after it was seen absent
      ([CleanupManagedSigningPath_spec], [FinalizeConsensusKeySigningPaths_spec]).
    - Migrations: every reconcile follows the phases on evidence, raft state is
      deleted only while resetting for a new key, and both reconcilers refine
      one state machine ([signer_update]).
    - Deletion: a root gives its keys and resources back only after nothing of it
      can sign ([reconcile_deleted_spec], [set_reconcile_deleted_spec],
      [finalizeResources_spec], [set_finalizeResources_spec],
      [FinalizeOwner_spec], [QuiesceOwnerForNamespaceTermination_spec],
      [FinalizeClass_spec]); roots are protected before they are reconciled
      ([ProtectExistingRoots_spec]).
    - Admission: what an accepted set satisfies ([admitted_set],
      [one_signer_per_group], [admitted_signer_has_key],
      [accepted_keys_distinct], [derived_names_decided]) and what an update
      cannot change ([genesis_preserved], [update_keeps_signers],
      [refresh_keeps_configuration]).
    - Identities and imports: equal identities are equal keys
      ([signing_identity_inj]); a completed import stays completed
      ([gcp_import_durable]); validation accepts exactly the well-formed blocks.
    - Upgrades and resources: the schedule is a map ordered by height that never
      loses a completed upgrade; autoscaling stays within its bounds.
    Several theorems record behaviour that the code's comments do not intend:
    [superseding_rollout_resets_its_key], [missing_image_is_scheduled],
    [sidecar_controller_disagree], [vpa_writes_into_spec], [on_trace_spec],
    [evaluateMemoryRule_bounds], [GetVersion_spec], [child_migration_rejected]
    and [wanted_budget_dropped_iff].

    ** Bounds

    Two loops of the code have no bound of their own.  The retry of
    [EnsureConsensusKeyReservationWithResult] takes fuel: safety is shown
    for any fuel (an exhausted run returns nothing and has made only permitted
    requests); two rounds suffice without interference.  With interference no
    bound exists: another controller may recreate the object for ever.  A poll
    that ends by its context's deadline takes the number of its rounds, which
    statements quantify over; it answers the deadline when they are used up.
    Waits on watched objects are single requests whose answer is what the watch
    would deliver.

    ** What is not modelled

    Pods, volumes, snapshots, genesis and configuration of a node; rendering of services, routes, Cosmoguard and Cosmoseed; chain
    clients; the HTTP server, proxies and statistics of node-utils; the transfer
    of exported archives; logs and events. *)

From stdpp Require Export base gmap strings list sorting pretty.
From Stdlib Require Export ZArith Lia Ascii.

Declare Scope go_scope.
Delimit Scope go_scope with go.
#[global] Open Scope go_scope.

(** Go's comparison operators as booleans. *)
Notation "a == b" := (bool_decide (a = b)) (at level 70, no associativity) : go_scope.
Notation "a != b" := (negb (bool_decide (a = b))) (at level 70, no associativity) : go_scope.

(** ** Go errors *)

(** Why the API server refused a request ([apierrors.IsNotFound] and so on
    inspect this reason).  [ReasonOther] is every other failure. *)
Inductive api_reason :=
  | ReasonNotFound
  | ReasonAlreadyExists
  | ReasonConflict
  | ReasonOther (message : string).

(** Arguments of a [fmt.Errorf] call: the format string of the source is kept
    verbatim and rendering is left abstract. *)
Inductive fmt_arg :=
  | AStr (s : string)
  | AInt (z : Z)
  | ABool (b : bool).

(** A Go [error] value.  [Wrapf] is [fmt.Errorf] with a [%w] verb; [Joined]
    is an error type with its own multi-error [Unwrap]. *)
Inductive error :=
  | Sentinel (name : string)
  | ApiError (reason : api_reason)
  | Errorf (format : string) (args : list fmt_arg)
  | Wrapf (wrapped : error) (format : string) (args : list fmt_arg)
  | Joined (first second : error) (format : string) (args : list fmt_arg).

#[export] Instance api_reason_eq_dec : EqDecision api_reason.
Proof. solve_decision. Defined.
#[export] Instance fmt_arg_eq_dec : EqDecision fmt_arg.
Proof. solve_decision. Defined.
#[export] Instance error_eq_dec : EqDecision error.
Proof. solve_decision. Defined.

(** A dereferenced nil pointer panics; controller-runtime turns the panic of a
    reconciler or a webhook into its error. *)
Definition nil_dereference : error := Sentinel "invalid memory address or nil pointer dereference".

(** The first object a check objects to. *)
Fixpoint find_map {A B} (f : A → option B) (l : list A) : option (A * B) :=
  match l with
  | [] => None
  | x :: l => match f x with Some b => Some (x, b) | None => find_map f l end
  end.

(** [errors.Is(err, target)] for sentinel targets. *)
Fixpoint errors_is (e : error) (target : string) : bool :=
  match e with
  | Sentinel n => n == target
  | ApiError _ | Errorf _ _ => false
  | Wrapf w _ _ => errors_is w target
  | Joined a b _ _ => errors_is a target || errors_is b target
  end.

(** [apierrors.IsNotFound] and [apierrors.IsAlreadyExists]. *)
Definition IsNotFound (e : error) : bool := e == ApiError ReasonNotFound.
Definition IsAlreadyExists (e : error) : bool := e == ApiError ReasonAlreadyExists.
Definition IsConflict (e : error) : bool := e == ApiError ReasonConflict.

(** ** The error monad: a Go function returning [(T, error)] where the value
    is meaningless when the error is set. *)

Inductive result (A : Type) :=
  | Ok (a : A)
  | Err (e : error).
Arguments Ok {A} _.
Arguments Err {A} _.

#[export] Instance result_ret : MRet result := @Ok.
#[export] Instance result_bind : MBind result := λ A B f m,
  match m with Ok a => f a | Err e => Err e end.
#[export] Instance result_fmap : FMap result := λ A B f m,
  match m with Ok a => Ok (f a) | Err e => Err e end.

(** [if b { return fmt.Errorf(...) }]. *)
Definition guard_err (b : bool) (e : error) : result () :=
  if b then Err e else Ok ().

Notation "'return_if' b 'err' e ; k" :=
  (if b then Err e else k)
  (at level 20, b at level 200, e at level 200, k at level 200, only parsing) : go_scope.

(** [p != nil] *)
Definition is_some {A} (o : option A) : bool := match o with Some _ => true | None => false end.

Definition is_ok {A} (r : result A) : bool :=
  match r with Ok _ => true | Err _ => false end.

Lemma bind_Ok {A B} (m : result A) (f : A → result B) b :
  m ≫= f = Ok b ↔ ∃ a, m = Ok a ∧ f a = Ok b.
Proof.
  destruct m; simpl; (split; [intros H; eauto|]).
  - by intros (? & [= ->] & ?).
  - done.
  - by intros (? & ? & ?).
Qed.

Lemma guard_err_Ok b e u : guard_err b e = Ok u ↔ b = false.
Proof. by destruct b, u. Qed.

(** [for _, x := range l { if err := f(x); err != nil { return err } }]. *)
Fixpoint for_each {A} (f : A → result ()) (l : list A) : result () :=
  match l with
  | [] => Ok ()
  | x :: l => f x ≫= λ _, for_each f l
  end.

Lemma for_each_Ok {A} (f : A → result ()) l :
  for_each f l = Ok () ↔ Forall (λ x, f x = Ok ()) l.
Proof.
  induction l as [|x l IH]; simpl.
  - split; [constructor | done].
  - rewrite Forall_cons, <- IH, bind_Ok. split.
    + intros ([] & ? & ?); done.
    + intros [? ?]; by exists ().
Qed.

(** The same with the index of the element ([for i, x := range l]). *)
Fixpoint for_each_from {A} (i : nat) (f : nat → A → result ()) (l : list A) : result () :=
  match l with
  | [] => Ok ()
  | x :: l => f i x ≫= λ _, for_each_from (S i) f l
  end.
Abbreviation for_each_i := (for_each_from 0).

Lemma for_each_from_Ok {A} (f : nat → A → result ()) l i :
  for_each_from i f l = Ok () ↔
  ∀ j x, l !! j = Some x → f (i + j)%nat x = Ok ().
Proof.
  revert i. induction l as [|y l IH]; intros i; simpl.
  - split; [intros _ j x Hj; by rewrite lookup_nil in Hj | done].
  - rewrite bind_Ok. split.
    + intros ([] & Hy & Hl) [|j] x Hx; simpl in Hx.
      * rewrite Nat.add_0_r. by simplify_eq.
      * rewrite IH in Hl. replace (i + S j)%nat with (S i + j)%nat by lia. eauto.
    + intros H. exists (). split.
      * specialize (H 0%nat y eq_refl). by rewrite Nat.add_0_r in H.
      * apply IH. intros j x Hx. replace (S i + j)%nat with (i + S j)%nat by lia.
        by apply H.
Qed.

(** Acceptance of a check, as a boolean, through the error monad. *)
Lemma is_ok_seq {A} (m : result A) (k : result ()) : is_ok (m ≫= λ _, k) = is_ok m && is_ok k.
Proof. by destruct m. Qed.

Lemma is_ok_guard b e : is_ok (guard_err b e) = negb b.
Proof. by destruct b. Qed.

Lemma is_ok_bind {A B} (m : result A) (f : A → result B) :
  is_ok (m ≫= f) = true ↔ ∃ a, m = Ok a ∧ is_ok (f a) = true.
Proof. destruct m; simpl; naive_solver. Qed.

Lemma is_ok_for_each {A} (f : A → result ()) l :
  is_ok (for_each f l) = true ↔ ∀ x, x ∈ l → is_ok (f x) = true.
Proof.
  induction l as [|x l IH]; simpl; [split; [|done]; by intros _ ? ?%elem_of_nil|].
  rewrite is_ok_seq, andb_true_iff, IH. setoid_rewrite elem_of_cons. naive_solver.
Qed.

Lemma is_ok_for_each_from {A} (f : nat → A → result ()) l i :
  is_ok (for_each_from i f l) = true ↔ ∀ j x, l !! j = Some x → is_ok (f (i + j) x) = true.
Proof.
  revert i. induction l as [|y l IH]; intros i; simpl; [by split|].
  rewrite is_ok_seq, andb_true_iff, IH. split.
  - intros [Hy Hl] [|j] x Hx; simpl in Hx; [simplify_eq; by rewrite Nat.add_0_r|].
    rewrite Nat.add_succ_r. by apply (Hl j).
  - intros Hl. split; [rewrite <- (Nat.add_0_r i); by apply (Hl 0)|].
    intros j x Hx. specialize (Hl (S j) x Hx). by rewrite Nat.add_succ_r in Hl.
Qed.

(** ** Machine integers: Go's [int] is 64 bits wide on the operator's
    platforms, [int32] and [int64] as their names say; overflow wraps. *)

Definition wrap (w x : Z) : Z := (x + 2 ^ (w - 1)) mod 2 ^ w - 2 ^ (w - 1).
Abbreviation int64 := (wrap 64).
Abbreviation int32 := (wrap 32).

Lemma wrap_small w x :
  (0 < w)%Z → (- 2 ^ (w - 1) ≤ x < 2 ^ (w - 1))%Z → wrap w x = x.
Proof.
  intros Hw Hx. unfold wrap.
  assert (2 ^ w = 2 * 2 ^ (w - 1))%Z as ->.
  { rewrite <- Z.pow_succ_r by lia. f_equal. lia. }
  rewrite Z.mod_small; lia.
Qed.

Lemma wrap_range w x :
  (0 < w)%Z → (- 2 ^ (w - 1) ≤ wrap w x < 2 ^ (w - 1))%Z.
Proof.
  intros Hw. unfold wrap.
  assert (2 ^ w = 2 * 2 ^ (w - 1))%Z as E.
  { rewrite <- Z.pow_succ_r by lia. f_equal. lia. }
  pose proof (Z.mod_pos_bound (x + 2 ^ (w - 1)) (2 ^ w)). lia.
Qed.


(** ** Go's [strings] package on byte strings *)

Definition has_prefix (s p : string) : bool := String.prefix p s.

Definition has_suffix (s p : string) : bool :=
  (String.length p <=? String.length s)%nat &&
  (String.substring (String.length s - String.length p) (String.length p) s == p).

(** [s[i:]] and [s[:i]] for an index within the string. *)
Definition slice_from (i : nat) (s : string) : string :=
  String.substring i (String.length s - i) s.
Definition slice_to (i : nat) (s : string) : string := String.substring 0 i s.

Definition TrimPrefix (s p : string) : string :=
  if has_prefix s p then slice_from (String.length p) s else s.
Definition TrimSuffix (s p : string) : string :=
  if has_suffix s p then slice_to (String.length s - String.length p) s else s.
Definition CutPrefix (s p : string) : option string :=
  if has_prefix s p then Some (slice_from (String.length p) s) else None.

(** [strings.LastIndex]: the largest index at which [p] occurs; [None] is -1. *)
Fixpoint last_index_below (n : nat) (s p : string) : option nat :=
  if has_prefix (slice_from n s) p then Some n else
  match n with
  | O => None
  | S n => last_index_below n s p
  end.
Definition LastIndex (s p : string) : option nat :=
  last_index_below (String.length s) s p.

Fixpoint string_forallb (f : Ascii.ascii → bool) (s : string) : bool :=
  match s with
  | EmptyString => true
  | String c s => f c && string_forallb f s
  end.

Definition is_digit (c : Ascii.ascii) : bool :=
  let n := Ascii.nat_of_ascii c in (48 <=? n)%nat && (n <=? 57)%nat.

Lemma append_nil_l b : "" +:+ b = b.
Proof. done. Qed.
Lemma append_cons c a b : String c a +:+ b = String c (a +:+ b).
Proof. done. Qed.

Lemma string_app_assoc (a b c : string) : ((a +:+ b) +:+ c = a +:+ (b +:+ c))%string.
Proof. induction a as [|x a IH]; [done|]. rewrite !append_cons; simpl. f_equal. apply IH. Qed.

Lemma string_length_app (a b : string) :
  String.length (a +:+ b) = (String.length a + String.length b)%nat.
Proof. induction a as [|x a IH]; [done|]. rewrite !append_cons; simpl. f_equal. apply IH. Qed.

Lemma string_app_nil_r (a : string) : a +:+ "" = a.
Proof. induction a as [|x a IH]; [done|]. rewrite !append_cons; simpl. f_equal. apply IH. Qed.

Lemma substring_full (s : string) : String.substring 0 (String.length s) s = s.
Proof. induction s as [|x s IH]; simpl; [done|]. by rewrite IH. Qed.

Lemma substring_app_r (a b : string) n :
  String.substring (String.length a) n (a +:+ b) = String.substring 0 n b.
Proof. induction a as [|x a IH]; [by destruct b, n|]. rewrite append_cons. apply IH. Qed.

Lemma substring_app_l (a b : string) :
  String.substring 0 (String.length a) (a +:+ b) = a.
Proof. induction a as [|x a IH]; [by destruct b|]. rewrite append_cons; simpl. by f_equal. Qed.

Lemma substring_split (s : string) n :
  (n ≤ String.length s)%nat →
  s = slice_to n s +:+ slice_from n s.
Proof.
  unfold slice_to, slice_from. revert s.
  induction n as [|n IH]; intros [|c s] Hn; simpl in *; try lia; try done.
  - rewrite append_nil_l. f_equal. symmetry. apply substring_full.
  - rewrite append_cons. f_equal. apply IH. lia.
Qed.

Lemma length_slice_to n (s : string) :
  (n ≤ String.length s)%nat → String.length (slice_to n s) = n.
Proof.
  unfold slice_to. revert s. induction n as [|n IH]; intros [|c s] Hn; simpl in *; try lia.
  rewrite IH; lia.
Qed.

Lemma has_prefix_spec s p : has_prefix s p = true ↔ ∃ t, s = p +:+ t.
Proof.
  unfold has_prefix. revert s. induction p as [|c p IH]; intros s; simpl.
  - split; [by exists s | by intros _; destruct s].
  - destruct s as [|d s]; simpl.
    + split; [done | by intros [t Ht]].
    + destruct (Ascii.ascii_dec c d) as [->|Hne].
      * rewrite IH. split; intros [t Ht]; exists t.
        -- by rewrite Ht.
        -- rewrite append_cons in Ht. by inversion Ht.
      * split; [done|]. intros [t Ht]. rewrite append_cons in Ht. by inversion Ht.
Qed.

Lemma has_suffix_spec s p : has_suffix s p = true ↔ ∃ t, s = t +:+ p.
Proof.
  unfold has_suffix. rewrite andb_true_iff, Nat.leb_le, bool_decide_eq_true. split.
  - intros [Hl Hs]. exists (slice_to (String.length s - String.length p) s).
    rewrite <- Hs at 2.
    rewrite (substring_split s (String.length s - String.length p)) at 1 by lia.
    f_equal. unfold slice_from. f_equal. lia.
  - intros [t ->]. rewrite string_length_app. split; [lia|].
    replace (String.length t + String.length p - String.length p)%nat with (String.length t) by lia.
    by rewrite substring_app_r, substring_full.
Qed.

Lemma has_prefix_app p t : has_prefix (p +:+ t) p = true.
Proof. apply has_prefix_spec. by exists t. Qed.
Lemma has_suffix_app t p : has_suffix (t +:+ p) p = true.
Proof. apply has_suffix_spec. by exists t. Qed.

Lemma slice_from_app (a b : string) : slice_from (String.length a) (a +:+ b) = b.
Proof.
  unfold slice_from. rewrite substring_app_r, string_length_app.
  replace (String.length a + String.length b - String.length a)%nat with (String.length b) by lia.
  apply substring_full.
Qed.

Lemma CutPrefix_spec s p t : CutPrefix s p = Some t ↔ s = p +:+ t.
Proof.
  unfold CutPrefix. split.
  - destruct (has_prefix s p) eqn:E; [|done]. apply has_prefix_spec in E as [u ->].
    intros [= <-]. by rewrite slice_from_app.
  - intros ->. rewrite has_prefix_app. by rewrite slice_from_app.
Qed.

Lemma string_app_inj_l (a b c : string) : a +:+ b = a +:+ c → b = c.
Proof. induction a as [|x a IH]; [done|]. rewrite !append_cons. intros [= H]. by apply IH. Qed.

Lemma string_app_inj_r (a b c : string) : a +:+ c = b +:+ c → a = b.
Proof.
  intros H. assert (String.length a = String.length b) as Hl.
  { apply (f_equal String.length) in H. rewrite !string_length_app in H. lia. }
  rewrite <- (substring_app_l a c), <- (substring_app_l b c). by rewrite H, Hl.
Qed.

(** ** Tactics *)

(** Case split on every boolean or option a Go-style conditional inspects. *)
Ltac go_case :=
  repeat (simpl in *; first
    [ progress simplify_eq
    | case_bool_decide
    | match goal with
      | H : context [match ?x with _ => _ end] |- _ => destruct x eqn:?
      | |- context [match ?x with _ => _ end] => destruct x eqn:?
      end ]).

(** Turn boolean hypotheses into propositions. *)
Ltac to_prop :=
  repeat match goal with
  | H : _ && _ = true |- _ => apply andb_true_iff in H as [? ?]
  | H : _ && _ = false |- _ => apply andb_false_iff in H
  | H : _ || _ = false |- _ => apply orb_false_iff in H as [? ?]
  | H : _ || _ = true |- _ => apply orb_true_iff in H
  | H : negb _ = true |- _ => apply negb_true_iff in H
  | H : negb _ = false |- _ => apply negb_false_iff in H
  | H : bool_decide _ = true |- _ => apply bool_decide_eq_true in H
  | H : bool_decide _ = false |- _ => apply bool_decide_eq_false in H
  | H : (_ <? _)%Z = true |- _ => apply Z.ltb_lt in H
  | H : (_ <? _)%Z = false |- _ => apply Z.ltb_ge in H
  | H : (_ <=? _)%Z = true |- _ => apply Z.leb_le in H
  | H : (_ <=? _)%Z = false |- _ => apply Z.leb_gt in H
  | H : (_ =? _)%Z = true |- _ => apply Z.eqb_eq in H
  | H : (_ =? _)%Z = false |- _ => apply Z.eqb_neq in H
  end.

Create HintDb go discriminated.
Create Rewrite HintDb go.
#[export] Hint Resolve has_prefix_app has_suffix_app : go.
#[export] Hint Rewrite @is_ok_seq is_ok_guard : go.
#[export] Hint Rewrite string_length_app string_app_assoc string_app_nil_r
  slice_from_app : go.
