(* ===== verification/GoLib.v ===== *)
(** * The parts of Go's standard library the program computes with

    [strconv], [sort.Strings], [encoding/base64] (the standard padded alphabet)
    and [crypto/sha256] with hexadecimal output. *)

From Stdlib Require Import DecimalString DecimalZ.
From S2P Require Import Prelude.

(** ** [strconv] *)

(** [strconv.FormatInt(n, 10)] and the [%d] verb. *)
Definition FormatInt (z : Z) : string := NilZero.string_of_int (Z.to_int z).

(** [strconv.ParseInt(s, 10, bits)]: an optional sign and at least one digit,
    within the signed range of [bits]. *)
Definition ParseInt (bits : Z) (s : string) : result Z :=
  let digits :=
    match s with
    | String c rest =>
        if c == "+"%char then option_map Decimal.Pos (NilZero.uint_of_string rest)
        else NilZero.int_of_string s
    | EmptyString => None
    end in
  match digits with
  | Some d =>
      let z := Z.of_int d in
      if (- 2 ^ (bits - 1) <=? z)%Z && (z <? 2 ^ (bits - 1))%Z then Ok z
      else Err (Errorf "value out of range" [AStr s])
  | None => Err (Errorf "invalid syntax" [AStr s])
  end.
Abbreviation Atoi := (ParseInt 64).

Lemma to_int_not_nil z : Z.to_int z ≠ Decimal.Pos Decimal.Nil ∧ Z.to_int z ≠ Decimal.Neg Decimal.Nil.
Proof.
  split; intros E; destruct z as [|p|p]; simpl in E; try done; injection E as E;
    by pose proof (DecimalPos.Unsigned.to_uint_nonnil p).
Qed.

(** Printing then parsing is the identity on the values that fit. *)
Lemma ParseInt_FormatInt bits z :
  (- 2 ^ (bits - 1) ≤ z < 2 ^ (bits - 1))%Z → ParseInt bits (FormatInt z) = Ok z.
Proof.
  intros Hz. unfold ParseInt, FormatInt.
  destruct (to_int_not_nil z) as [N1 N2].
  pose proof (NilZero.isi _ N1 N2) as Hi.
  destruct (NilZero.string_of_int (Z.to_int z)) as [|c s] eqn:E; [done|].
  rewrite bool_decide_eq_false_2.
  - rewrite Hi, of_to.
    assert ((- 2 ^ (bits - 1) <=? z)%Z && (z <? 2 ^ (bits - 1))%Z = true) as ->; [|done].
    rewrite andb_true_iff, Z.leb_le, Z.ltb_lt. lia.
  - intros ->. destruct (Z.to_int z) as [d|d]; [|done]; destruct d; simpl in E; done.
Qed.

Lemma ParseInt_range bits s z :
  ParseInt bits s = Ok z → (- 2 ^ (bits - 1) ≤ z < 2 ^ (bits - 1))%Z.
Proof.
  unfold ParseInt. intros H. case_match; [|done].
  destruct (_ && _) eqn:E in H; [|done]. simplify_eq. to_prop. lia.
Qed.

Lemma FormatInt_inj a b : FormatInt a = FormatInt b → a = b.
Proof.
  unfold FormatInt. intros H.
  destruct (to_int_not_nil a) as [A1 A2], (to_int_not_nil b) as [B1 B2].
  apply to_int_inj. apply (f_equal NilZero.int_of_string) in H.
  rewrite !NilZero.isi in H by done. congruence.
Qed.

(** ** More of [strings]

    Strings are byte strings in UTF-8. *)

(** [strings.Split(s, sep)] for a one-character separator. *)
Fixpoint split_char (sep : Ascii.ascii) (s : string) : list string :=
  match s with
  | EmptyString => [""]
  | String c s =>
      if c == sep then "" :: split_char sep s
      else match split_char sep s with
           | part :: parts => String c part :: parts
           | [] => [String c ""]
           end
  end.

Definition strings_Contains (s sub : string) : bool := is_some (String.index 0 sub s).

(** [strings.Cut]: around the first occurrence of a non-empty separator. *)
Definition strings_Cut (s sep : string) : option (string * string) :=
  match String.index 0 sep s with
  | Some i => Some (slice_to i s, slice_from (i + String.length sep) s)
  | None => None
  end.

(** [strings.Join]. *)
Fixpoint strings_Join (l : list string) (sep : string) : string :=
  match l with
  | [] => ""
  | [x] => x
  | x :: l => x +:+ sep +:+ strings_Join l sep
  end.

Definition utf8 (l : list nat) : string := foldr (λ n s, String (Ascii.ascii_of_nat n) s) "" l.

(** [strings.ToLower] up to runes that stay outside ASCII: U+0130 and U+212A are
    the runes beyond ASCII with a lower case in it. *)
Definition lower_ascii (c : Ascii.ascii) : Ascii.ascii :=
  let n := Ascii.nat_of_ascii c in
  if (65 <=? n)%nat && (n <=? 90)%nat then Ascii.ascii_of_nat (n + 32) else c.
Fixpoint ToLower_from (fuel : nat) (s : string) : string :=
  match fuel, s with
  | O, _ | _, EmptyString => ""
  | S fuel, String c rest =>
      if has_prefix s (utf8 [196; 176]) then "i" +:+ ToLower_from fuel (slice_from 2 s)
      else if has_prefix s (utf8 [226; 132; 170]) then "k" +:+ ToLower_from fuel (slice_from 3 s)
      else String (lower_ascii c) (ToLower_from fuel rest)
  end.
Definition ToLower (s : string) : string := ToLower_from (String.length s) s.

(** The encodings of the runes [unicode.IsSpace] accepts. *)
Definition space_runes : list string :=
  map utf8 ([[9]; [10]; [11]; [12]; [13]; [32]; [194; 133]; [194; 160]; [225; 154; 128]] ++
            map (λ n, [226; 128; n]) (seq 128 11 ++ [168; 169; 175]) ++ [[226; 129; 159]; [227; 128; 128]])%nat.
Fixpoint trim_left (fuel : nat) (s : string) : string :=
  match fuel, find (has_prefix s) space_runes with
  | S fuel, Some r => trim_left fuel (TrimPrefix s r)
  | _, _ => s
  end.
Fixpoint trim_right (fuel : nat) (s : string) : string :=
  match fuel, find (has_suffix s) space_runes with
  | S fuel, Some r => trim_right fuel (TrimSuffix s r)
  | _, _ => s
  end.
Definition TrimSpace (s : string) : string :=
  trim_right (String.length s) (trim_left (String.length s) s).

(** ** [sort.Strings] and [sort.Slice]: insertion into the sorted position;
    equal elements keep their order. *)

Section sort.
Context {A : Type} (less : A → A → bool).

Fixpoint sort_insert (x : A) (l : list A) : list A :=
  match l with
  | [] => [x]
  | y :: l' => if less y x then y :: sort_insert x l' else x :: l
  end.

Definition sort_slice (l : list A) : list A := foldr sort_insert [] l.

Lemma sort_insert_perm x l : sort_insert x l ≡ₚ x :: l.
Proof.
  induction l as [|y l IH]; simpl; [done|].
  destruct (less y x); [|done]. rewrite IH. apply Permutation_swap.
Qed.

Lemma sort_slice_perm l : sort_slice l ≡ₚ l.
Proof. induction l as [|x l IH]; simpl; [done|]. by rewrite sort_insert_perm, IH. Qed.

(** [less] is read as a strict order: [x] may precede [y] unless [y] is
    smaller. *)
Definition not_after (x y : A) : Prop := less y x = false.

Lemma sort_slice_sorted l :
  (∀ x y, less x y = true → less y x = false) →
  Sorted not_after (sort_slice l).
Proof.
  intros Has. induction l as [|x l IH]; simpl; [constructor|].
  assert (∀ l, Sorted not_after l → Sorted not_after (sort_insert x l)) as Hins; [|auto].
  clear l IH. intros l. induction l as [|y l IHl]; simpl; intros Hs.
  - repeat constructor.
  - destruct (less y x) eqn:E.
    + inversion Hs as [|? ? Hs' Hh]; subst. constructor; [by apply IHl|].
      destruct l as [|z l]; simpl; [by constructor; apply Has|].
      destruct (less z x) eqn:Ez; constructor; [by inversion Hh | by apply Has].
    + constructor; [done|]. by constructor.
Qed.
End sort.

Definition sort_Strings : list string → list string := sort_slice String.ltb.

(** ** [encoding/base64.StdEncoding] *)

Definition byte_of (c : Ascii.ascii) : Z := Z.of_N (Ascii.N_of_ascii c).
Definition ascii_of_byte (z : Z) : Ascii.ascii := Ascii.ascii_of_N (Z.to_N z).

Definition b64_alphabet : string :=
  "ABCDEFGHIJKLMNOPQRSTUVWXYZabcdefghijklmnopqrstuvwxyz0123456789+/".
Definition b64_char (z : Z) : Ascii.ascii :=
  default "A"%char (String.get (Z.to_nat z) b64_alphabet).
Definition b64_pad : Ascii.ascii := "="%char.

Fixpoint index_of (c : Ascii.ascii) (s : string) : option nat :=
  match s with
  | EmptyString => None
  | String d s => if d == c then Some 0%nat else S <$> index_of c s
  end.
Definition b64_val (c : Ascii.ascii) : option Z := Z.of_nat <$> index_of c b64_alphabet.

Fixpoint b64_encode (s : string) : string :=
  match s with
  | EmptyString => ""
  | String a EmptyString =>
      let a := byte_of a in
      String (b64_char (a / 4)) (String (b64_char (a mod 4 * 16))
        (String b64_pad (String b64_pad "")))
  | String a (String b EmptyString) =>
      let a := byte_of a in let b := byte_of b in
      String (b64_char (a / 4)) (String (b64_char (a mod 4 * 16 + b / 16))
        (String (b64_char (b mod 16 * 4)) (String b64_pad "")))
  | String a (String b (String c s')) =>
      let a := byte_of a in let b := byte_of b in let c := byte_of c in
      String (b64_char (a / 4)) (String (b64_char (a mod 4 * 16 + b / 16))
        (String (b64_char (b mod 16 * 4 + c / 64)) (String (b64_char (c mod 64))
          (b64_encode s'))))
  end%Z.

(** The decoder skips carriage returns and newlines. *)
Fixpoint strip_newlines (s : string) : string :=
  match s with
  | EmptyString => ""
  | String c s' =>
      let n := Ascii.nat_of_ascii c in
      if (n =? 10)%nat || (n =? 13)%nat then strip_newlines s'
      else String c (strip_newlines s')
  end.

Fixpoint b64_decode_groups (s : string) : option string :=
  match s with
  | EmptyString => Some ""
  | String a (String b (String c (String d s'))) =>
      x ← b64_val a; y ← b64_val b;
      let A := ascii_of_byte (x * 4 + y / 16) in
      if c == b64_pad then
        if (d == b64_pad) && (s' == "") then Some (String A "") else None
      else
        z ← b64_val c;
        let B := ascii_of_byte (y mod 16 * 16 + z / 4) in
        if d == b64_pad then if s' == "" then Some (String A (String B "")) else None
        else
          w ← b64_val d;
          rest ← b64_decode_groups s';
          Some (String A (String B (String (ascii_of_byte (z mod 4 * 64 + w)) rest)))
  | _ => None
  end%Z.
Definition b64_decode (s : string) : option string := b64_decode_groups (strip_newlines s).

#[local] Ltac Zify.zify_post_hook ::= Z.to_euclidean_division_equations.

Lemma byte_of_range c : (0 ≤ byte_of c < 256)%Z.
Proof. unfold byte_of. pose proof (Ascii.N_ascii_bounded c). lia. Qed.

Lemma ascii_of_byte_of c : ascii_of_byte (byte_of c) = c.
Proof. unfold ascii_of_byte, byte_of. by rewrite N2Z.id, Ascii.ascii_N_embedding. Qed.

Lemma ascii_of_byte_eq x c : x = byte_of c → ascii_of_byte x = c.
Proof. intros ->. apply ascii_of_byte_of. Qed.

Definition b64_digit_ok (z : Z) : bool :=
  (b64_val (b64_char z) == Some z) && (b64_char z != b64_pad) &&
  (strip_newlines (String (b64_char z) "") == String (b64_char z) "").

Lemma b64_digits_ok : forallb (λ n, b64_digit_ok (Z.of_nat n)) (seq 0 64) = true.
Proof. by vm_compute. Qed.

Lemma b64_digit z : (0 ≤ z < 64)%Z → b64_digit_ok z = true.
Proof.
  intros Hz. pose proof b64_digits_ok as H. rewrite forallb_forall in H.
  rewrite <- (Z2Nat.id z) by lia. apply H, in_seq. lia.
Qed.

Lemma b64_val_char z : (0 ≤ z < 64)%Z → b64_val (b64_char z) = Some z.
Proof. intros Hz. pose proof (b64_digit z Hz) as H. unfold b64_digit_ok in H. by to_prop. Qed.

Lemma b64_char_not_pad z : (0 ≤ z < 64)%Z → b64_char z ≠ b64_pad.
Proof. intros Hz. pose proof (b64_digit z Hz) as H. unfold b64_digit_ok in H. by to_prop. Qed.

Lemma strip_b64_char z s :
  (0 ≤ z < 64)%Z → strip_newlines (String (b64_char z) s) = String (b64_char z) (strip_newlines s).
Proof.
  intros Hz. pose proof (b64_digit z Hz) as H. unfold b64_digit_ok in H. to_prop.
  simpl in *. by destruct ((_ =? 10)%nat || (_ =? 13)%nat).
Qed.

Lemma string_ind3 (P : string → Prop) :
  P "" → (∀ a, P (String a "")) → (∀ a b, P (String a (String b ""))) →
  (∀ a b c s, P s → P (String a (String b (String c s)))) → ∀ s, P s.
Proof.
  intros H0 H1 H2 H3.
  assert (∀ n s, (String.length s ≤ n)%nat → P s) as H; [|intros s; by eapply H].
  induction n as [|n IH]; intros [|a [|b [|c s]]] Hl; simpl in *; auto; try lia.
  apply H3, IH. lia.
Qed.

Ltac b64_digits :=
  repeat match goal with
  | |- context [strip_newlines (String (b64_char ?z) ?s)] => rewrite (strip_b64_char z s) by lia
  | |- context [b64_val (b64_char ?z)] => rewrite (b64_val_char z) by lia
  end.

(** Decoding what was encoded gives the bytes back. *)
Lemma b64_decode_encode s : b64_decode (b64_encode s) = Some s.
Proof.
  unfold b64_decode. induction s as [|a|a b|a b c s IH] using string_ind3; [done|..];
    cbn [b64_encode]; cbv zeta;
    pose proof (byte_of_range a); try pose proof (byte_of_range b);
    try pose proof (byte_of_range c); b64_digits.
  - change (strip_newlines (String b64_pad (String b64_pad "")))
      with (String b64_pad (String b64_pad "")).
    cbn [b64_decode_groups]. b64_digits. cbn [mbind option_bind].
    rewrite !bool_decide_eq_true_2 by done. simpl.
    repeat f_equal; apply ascii_of_byte_eq; lia.
  - change (strip_newlines (String b64_pad "")) with (String b64_pad "").
    cbn [b64_decode_groups]. b64_digits. cbn [mbind option_bind].
    rewrite bool_decide_eq_false_2 by (apply b64_char_not_pad; lia).
    rewrite !bool_decide_eq_true_2 by done.
    repeat f_equal; apply ascii_of_byte_eq; lia.
  - cbn [b64_decode_groups]. b64_digits. cbn [mbind option_bind].
    rewrite !bool_decide_eq_false_2 by (apply b64_char_not_pad; lia).
    rewrite IH. cbn [mbind option_bind].
    repeat f_equal; apply ascii_of_byte_eq; lia.
Qed.

(** ** [crypto/sha256] and [hex.EncodeToString] *)

Definition w32 (x : Z) : Z := (x mod 2 ^ 32)%Z.
Definition rotr (n x : Z) : Z := Z.lor (Z.shiftr x n) (w32 (Z.shiftl x (32 - n))).

Definition sha_K : list Z :=
  [1116352408; 1899447441; 3049323471; 3921009573; 961987163; 1508970993;
   2453635748; 2870763221; 3624381080; 310598401; 607225278; 1426881987;
   1925078388; 2162078206; 2614888103; 3248222580; 3835390401; 4022224774;
   264347078; 604807628; 770255983; 1249150122; 1555081692; 1996064986;
   2554220882; 2821834349; 2952996808; 3210313671; 3336571891; 3584528711;
   113926993; 338241895; 666307205; 773529912; 1294757372; 1396182291;
   1695183700; 1986661051; 2177026350; 2456956037; 2730485921; 2820302411;
   3259730800; 3345764771; 3516065817; 3600352804; 4094571909; 275423344;
   430227734; 506948616; 659060556; 883997877; 958139571; 1322822218;
   1537002063; 1747873779; 1955562222; 2024104815; 2227730452; 2361852424;
   2428436474; 2756734187; 3204031479; 3329325298]%Z.
Definition sha_H0 : list Z :=
  [1779033703; 3144134277; 1013904242; 2773480762; 1359893119; 2600822924;
   528734635; 1541459225]%Z.

Definition be_bytes (n : nat) (x : Z) : list Z :=
  reverse (map (λ i, Z.shiftr x (8 * Z.of_nat i) mod 256)%Z (seq 0 n)).
Definition be_word (l : list Z) : Z := foldl (λ acc b, acc * 256 + b)%Z 0%Z l.

Definition sha_pad (m : list Z) : list Z :=
  let l := Z.of_nat (length m) in
  m ++ 128%Z :: replicate (Z.to_nat ((55 - l) mod 64)) 0%Z ++ be_bytes 8 (8 * l).

Fixpoint chunks (n fuel : nat) (l : list Z) : list (list Z) :=
  match fuel, l with
  | O, _ | _, [] => []
  | S fuel, _ => take n l :: chunks n fuel (drop n l)
  end.

(** The message schedule, most recent word first. *)
Fixpoint sha_schedule (n : nat) (w : list Z) : list Z :=
  match n with
  | O => w
  | S n =>
      let g i := nth i w 0%Z in
      let s0 := Z.lxor (Z.lxor (rotr 7 (g 14%nat)) (rotr 18 (g 14%nat))) (Z.shiftr (g 14%nat) 3) in
      let s1 := Z.lxor (Z.lxor (rotr 17 (g 1%nat)) (rotr 19 (g 1%nat))) (Z.shiftr (g 1%nat) 10) in
      sha_schedule n (w32 (g 15%nat + s0 + g 6%nat + s1) :: w)
  end.

Definition sha_round (st : list Z) (kw : Z * Z) : list Z :=
  match st with
  | [a; b; c; d; e; f; g; h] =>
      let S1 := Z.lxor (Z.lxor (rotr 6 e) (rotr 11 e)) (rotr 25 e) in
      let ch := Z.lxor (Z.land e f) (Z.land (2 ^ 32 - 1 - e) g) in
      let t1 := (h + S1 + ch + fst kw + snd kw)%Z in
      let S0 := Z.lxor (Z.lxor (rotr 2 a) (rotr 13 a)) (rotr 22 a) in
      let maj := Z.lxor (Z.lxor (Z.land a b) (Z.land a c)) (Z.land b c) in
      [w32 (t1 + S0 + maj); a; b; c; w32 (d + t1); e; f; g]
  | _ => st
  end%Z.

Definition sha_block (st : list Z) (block : list Z) : list Z :=
  let w := reverse (sha_schedule 48 (reverse (map be_word (chunks 4 16 block)))) in
  zip_with (λ x y, w32 (x + y)) st (foldl sha_round st (zip sha_K w)).

Fixpoint bytes_of (s : string) : list Z :=
  match s with EmptyString => [] | String c s => byte_of c :: bytes_of s end.

Definition hex_digit (z : Z) : Ascii.ascii :=
  default "0"%char (String.get (Z.to_nat z) "0123456789abcdef").

(** [utils.Sha256] (pkg/utils/hash.go). *)
Definition Sha256 (content : string) : string :=
  let m := sha_pad (bytes_of content) in
  let st := foldl sha_block sha_H0 (chunks 64 (length m) m) in
  foldr (λ b s, String (hex_digit (b / 16)) (String (hex_digit (b mod 16)) s))%Z
    "" (concat (map (be_bytes 4) st)).
#[global] Arguments Sha256 : simpl never.

Example Sha256_hello :
  Sha256 "hello" = "2cf24dba5fb0a30e26e83b2ac5b9e29e1b161e5c1fa7425e73043362938b9824".
Proof. by vm_compute. Qed.
Example Sha256_empty :
  Sha256 "" = "e3b0c44298fc1c149afbf4c8996fb92427ae41e4649b934ca495991b7852b855".
Proof. by vm_compute. Qed.

(** ** Dates *)

Definition zero_padded (width : nat) (z : Z) : string :=
  let d := FormatInt z in String.string_of_list_ascii (repeat "0"%char (width - String.length d)) +:+ d.
(** Year, month and day of a number of days since 1970-01-01: 400 years are 146097 days, and a year starts in March. *)
Definition civil_from_days (days : Z) : Z * Z * Z :=
  let z := (days + 719468)%Z in
  let era := (z / 146097)%Z in
  let doe := (z mod 146097)%Z in
  let yoe := ((doe - doe / 1460 + doe / 36524 - doe / 146096) / 365)%Z in
  let doy := (doe - (365 * yoe + yoe / 4 - yoe / 100))%Z in
  let mp := ((5 * doy + 2) / 153)%Z in
  let month := if (mp <? 10)%Z then (mp + 3)%Z else (mp - 9)%Z in
  ((yoe + era * 400 + (if (month <=? 2)%Z then 1 else 0))%Z, month, (doy - (153 * mp + 2) / 5 + 1)%Z).
