(* ===== verification/GoText.v ===== *)
(** * Rendered text

    What [fmt.Sprintf], [err.Error()], [time.Format] and [time.Parse] make of their
    arguments, where the program keeps the text. *)

From S2P Require Import Prelude GoLib.

(** ** [fmt.Sprintf]

    The verbs the program uses: [%s], [%d], [%t], [%q] on strings in UTF-8 whose runes
    beyond ASCII are printable, and [%w] and [%v] for the text of an error. *)

Definition quote_byte (c : Ascii.ascii) : string :=
  let n := Ascii.nat_of_ascii c in
  let backslash (s : string) := String (Ascii.ascii_of_nat 92) s in
  if (n =? 34)%nat || (n =? 92)%nat then backslash (String c "")
  else if (n =? 7)%nat then backslash "a" else if (n =? 8)%nat then backslash "b" else if (n =? 12)%nat then backslash "f"
  else if (n =? 10)%nat then backslash "n" else if (n =? 13)%nat then backslash "r" else if (n =? 9)%nat then backslash "t"
  else if (n =? 11)%nat then backslash "v"
  else if (n <? 32)%nat || (n =? 127)%nat then
    backslash ("x" +:+ String (hex_digit (Z.of_nat n / 16)) (String (hex_digit (Z.of_nat n mod 16)) ""))
  else String c "".
Definition double_quote : string := String (Ascii.ascii_of_nat 34) "".
Definition Quote (s : string) : string :=
  double_quote +:+ foldr (λ c t, quote_byte c +:+ t) "" (String.list_ascii_of_string s) +:+ double_quote.
Definition render_arg (verb : Ascii.ascii) (a : fmt_arg) : string :=
  match a with
  | AStr s => if Ascii.eqb verb "q"%char then Quote s else s
  | AInt z => FormatInt z
  | ABool b => if b then "true" else "false"
  end.
Fixpoint render (format : string) (args : list fmt_arg) (errs : list string) : string :=
  match format with
  | EmptyString => ""
  | String c rest =>
      if Ascii.eqb c "%"%char then
        match rest with
        | EmptyString => "%!(NOVERB)"
        | String v rest =>
            if Ascii.eqb v "w"%char || (Ascii.eqb v "v"%char && negb (length errs =? 0)%nat)
            then default "" (head errs) +:+ render rest args (tail errs)
            else match args with
                 | a :: args => render_arg v a +:+ render rest args errs
                 | [] => "%!" +:+ String v "(MISSING)" +:+ render rest [] errs
                 end
        end
      else String c (render rest args errs)
  end.
Definition Sprintf (format : string) (args : list fmt_arg) : string := render format args [].
(** [err.Error()], given the text of the server's refusals. *)
Fixpoint ErrorText (reason : api_reason → string) (e : error) : string :=
  match e with
  | Sentinel name => name
  | ApiError r => reason r
  | Errorf format args => render format args []
  | Wrapf w format args => render format args [ErrorText reason w]
  | Joined a b format args => render format args [ErrorText reason a; ErrorText reason b]
  end.
Example Sprintf_example : Sprintf "snapshot export %q cannot start deletion from phase %q after %d" [AStr "a"; AStr "b"; AInt 3] =
  "snapshot export " +:+ Quote "a" +:+ " cannot start deletion from phase " +:+ Quote "b" +:+ " after 3".
Proof. reflexivity. Qed.

(** The layouts [20060102150405] and [time.RFC3339], for a time in UTC. *)
Definition clock (t : Z) : Z * Z * Z := let secs := (t / 1000000000 mod 86400)%Z in ((secs / 3600)%Z, (secs / 60 mod 60)%Z, (secs mod 60)%Z).
Definition FormatCompact (t : Z) : string :=
  let '(year, month, day) := civil_from_days (t / 86400000000000)%Z in
  let '(h, m, s) := clock t in
  zero_padded 4 year +:+ zero_padded 2 month +:+ zero_padded 2 day +:+ zero_padded 2 h +:+ zero_padded 2 m +:+ zero_padded 2 s.
Definition FormatRFC3339 (t : Z) : string :=
  let '(year, month, day) := civil_from_days (t / 86400000000000)%Z in
  let '(h, m, s) := clock t in
  zero_padded 4 year +:+ "-" +:+ zero_padded 2 month +:+ "-" +:+ zero_padded 2 day +:+ "T" +:+ zero_padded 2 h +:+ ":" +:+
  zero_padded 2 m +:+ ":" +:+ zero_padded 2 s +:+ "Z".
Example FormatCompact_leap_day : FormatCompact 1709210096120000000 = "20240229123456".
Proof. reflexivity. Qed.

(** ** [time.Parse("20060102150405", s)]

    Two digits per field, the year of four, and fractional seconds, which the parser
    takes although the layout has none.  The result is in nanoseconds. *)
Definition digits (s : string) : option Z :=
  if (0 <? String.length s)%nat && forallb is_digit (String.list_ascii_of_string s)
  then Some (foldl (λ z c, 10 * z + (Z.of_nat (Ascii.nat_of_ascii c) - 48))%Z 0%Z (String.list_ascii_of_string s)) else None.
Definition is_leap (y : Z) : bool := (y mod 4 =? 0)%Z && (negb (y mod 100 =? 0)%Z || (y mod 400 =? 0)%Z).
Definition days_in (y m : Z) : Z :=
  if (m =? 2)%Z then if is_leap y then 29 else 28
  else if (m =? 4)%Z || (m =? 6)%Z || (m =? 9)%Z || (m =? 11)%Z then 30 else 31.
(** The inverse of [civil_from_days]. *)
Definition days_from_civil (year month day : Z) : Z :=
  let y := if (month <=? 2)%Z then (year - 1)%Z else year in
  let era := (y / 400)%Z in
  let yoe := (y mod 400)%Z in
  let doy := ((153 * (if (2 <? month)%Z then month - 3 else month + 9) + 2) / 5 + day - 1)%Z in
  (era * 146097 + (yoe * 365 + yoe / 4 - yoe / 100 + doy) - 719468)%Z.
Definition fraction (s : string) : option Z :=
  match s with
  | EmptyString => Some 0%Z
  | String c rest =>
      if Ascii.eqb c "."%char || Ascii.eqb c ","%char then
        if digits rest is Some _ then digits (slice_to 9 (rest +:+ "000000000")) else None
      else None
  end.
Definition ParseCompact (s : string) : option Z :=
  let field i n := digits (slice_to n (slice_from i s)) in
  if (String.length s <? 14)%nat then None else
  match field 0 4, field 4 2, field 6 2, field 8 2, field 10 2, field 12 2, fraction (slice_from 14 s) with
  | Some y, Some mo, Some d, Some h, Some mi, Some sec, Some f =>
      if ((1 <=? mo) && (mo <=? 12) && (1 <=? d) && (d <=? days_in y mo) && (h <? 24) && (mi <? 60) && (sec <? 60))%Z
      then Some ((days_from_civil y mo d * 86400 + h * 3600 + mi * 60 + sec) * 1000000000 + f)%Z else None
  | _, _, _, _, _, _, _ => None
  end.
Example ParseCompact_leap_day : ParseCompact "20240229123456" = Some 1709210096000000000%Z.
Proof. reflexivity. Qed.
Example ParseCompact_no_leap_day : ParseCompact "20230229123456" = None.
Proof. reflexivity. Qed.
