(* ===== verification/IO.v ===== *)
(** * Programs that talk to a server, and what they do to it

    A controller routine is a tree of requests ([io]): every node is one call
    of the API client and branches over all the answers the server may give.
    [spec] is a trace logic on such trees: it constrains the requests a routine
    may issue, and relates its result to the history of requests and answers it
    observed, whatever the server answers.  [sys_step] runs many routines
    concurrently against one server, one request at a time. *)

From S2P Require Import Prelude.

Section io.
Context {R : Type} {resp : R → Type}.

Inductive io (A : Type) : Type :=
  | Ret (a : A)
  | Call (r : R) (k : resp r → io A).
Arguments Ret {A} _.
Arguments Call {A} _ _.

Fixpoint io_bind {A B} (m : io A) (f : A → io B) : io B :=
  match m with
  | Ret a => f a
  | Call r k => Call r (λ x, io_bind (k x) f)
  end.

(** One request and the answer it got. *)
Inductive event := Ev (r : R) (x : resp r).

(** Histories are kept newest first. *)
Abbreviation history := (list event).

(** [spec P h m Q]: started after history [h], the routine only issues
    requests allowed by [P] (which sees the history so far), and whenever it
    returns [a] after history [h'], [Q h' a] holds. *)
Fixpoint spec {A} (P : history → R → Prop) (h : history) (m : io A)
    (Q : history → A → Prop) : Prop :=
  match m with
  | Ret a => Q h a
  | Call r k => P h r ∧ ∀ x, spec P (Ev r x :: h) (k x) Q
  end.

Lemma spec_mono {A} (P P' : history → R → Prop) h (m : io A) (Q Q' : history → A → Prop) :
  spec P h m Q →
  (∀ h' r, h `suffix_of` h' → P h' r → P' h' r) →
  (∀ h' a, h `suffix_of` h' → Q h' a → Q' h' a) →
  spec P' h m Q'.
Proof.
  revert h. induction m as [a|r k IH]; simpl; intros h.
  - intros HQ _ HQQ. by apply HQQ.
  - intros [HP Hk] HPP HQQ. split; [by apply HPP|]. intros x. apply IH; [done|..].
    + intros h' r' Hs. apply HPP. etrans; [exists [Ev r x]; reflexivity|done].
    + intros h' a Hs. apply HQQ. etrans; [exists [Ev r x]; reflexivity|done].
Qed.

Lemma spec_conseq {A} P h (m : io A) (Q Q' : history → A → Prop) :
  spec P h m Q → (∀ h' a, h `suffix_of` h' → Q h' a → Q' h' a) → spec P h m Q'.
Proof. intros Hm HQ. by eapply spec_mono. Qed.

Lemma spec_bind {A B} P h (m : io A) (f : A → io B) Q :
  spec P h (io_bind m f) Q ↔ spec P h m (λ h' a, spec P h' (f a) Q).
Proof.
  revert h. induction m as [a|r k IH]; simpl; intros h; [done|].
  split; (intros [HP Hk]; split; [done|]; intros x; by apply IH).
Qed.

Lemma spec_conj {A} P h (m : io A) Q1 Q2 :
  spec P h m Q1 → spec P h m Q2 → spec P h m (λ h' a, Q1 h' a ∧ Q2 h' a).
Proof.
  revert h. induction m as [a|r k IH]; simpl; intros h; [done|].
  intros [HP H1] [_ H2]. split; [done|]. intros x. by apply IH.
Qed.

(** Two promises about the requests of one routine hold together. *)
Lemma spec_both {A} P1 P2 h (m : io A) Q1 Q2 :
  spec P1 h m Q1 → spec P2 h m Q2 → spec (λ h r, P1 h r ∧ P2 h r) h m (λ h' a, Q1 h' a ∧ Q2 h' a).
Proof.
  revert h. induction m as [a|r k IH]; simpl; intros h; [done|].
  intros [HP1 H1] [HP2 H2]. split; [done|]. intros x. by apply IH.
Qed.

(** The history only grows, so what was observed stays observed. *)
Lemma spec_suffix {A} P h (m : io A) Q :
  spec P h m Q → spec P h m (λ h' a, h `suffix_of` h' ∧ Q h' a).
Proof. intros Hm. eapply spec_conseq; [done|]. auto. Qed.

(** [only G m]: every request of the routine satisfies [G], whatever was observed. *)
Fixpoint only {A} (G : R → Prop) (m : io A) : Prop :=
  match m with
  | Ret a => True
  | Call r k => G r ∧ ∀ x, only G (k x)
  end.

Lemma only_spec {A} (G : R → Prop) (P : history → R → Prop) h (m : io A) :
  (∀ h r, G r → P h r) → only G m → spec P h m (λ _ _, True).
Proof. intros HP. revert h. induction m as [a|r k IH]; simpl; intros h; [done|]. intros [HG Hk]. auto. Qed.
Lemma spec_only {A} (G : R → Prop) P h (m : io A) Q : (∀ h r, P h r → G r) → spec P h m Q → only G m.
Proof. intros HG. revert h. induction m as [a|r k IH]; simpl; intros h; [done|]. intros [HP Hk]. eauto. Qed.
Lemma only_mono {A} (G G' : R → Prop) (m : io A) : (∀ r, G r → G' r) → only G m → only G' m.
Proof. intros HG. induction m as [a|r k IH]; simpl; [done|]. intros [? Hk]. auto. Qed.
Lemma only_bind {A B} (G : R → Prop) (m : io A) (f : A → io B) :
  only G m → (∀ a, only G (f a)) → only G (io_bind m f).
Proof. induction m as [a|r k IH]; simpl; [by intros _|]. intros [? Hk] Hf. auto. Qed.

(** Observations made in a given order; the list is newest first, like the
    history. *)
Fixpoint in_order (ps : list (event → Prop)) (h : list event) : Prop :=
  match ps with
  | [] => True
  | p :: ps => ∃ h1 e h2, h = h1 ++ e :: h2 ∧ p e ∧ in_order ps h2
  end.

#[global] Arguments in_order : simpl never.

Lemma in_order_suffix ps h h' : h `suffix_of` h' → in_order ps h → in_order ps h'.
Proof.
  intros [k ->]. destruct ps as [|p ps]; [done|]. intros (h1 & e & h2 & -> & Hp & Hps).
  exists (k ++ h1), e, h2. by rewrite <- app_assoc.
Qed.

Lemma in_order_skip ps e h : in_order ps h → in_order ps (e :: h).
Proof. apply in_order_suffix. by exists [e]. Qed.

Lemma in_order_here (p : event → Prop) ps e h : p e → in_order ps h → in_order (p :: ps) (e :: h).
Proof. intros Hp Hps. by exists [], e, h. Qed.

Lemma in_order_one (p : event → Prop) h : in_order [p] h ↔ ∃ e, e ∈ h ∧ p e.
Proof.
  split.
  - intros (h1 & e & h2 & -> & Hp & _). exists e. split; [set_solver|done].
  - intros (e & (h1 & h2 & ->)%list_elem_of_split & Hp). by exists h1, e, h2.
Qed.

(** ** Running one routine *)

(** [m] turns into [m'] by observing the history [h] (newest first). *)
Inductive observes {A} (m : io A) : history → io A → Prop :=
  | observes_nil : observes m [] m
  | observes_cons h r k x :
      observes m h (Call r k) → observes m (Ev r x :: h) (k x).

Lemma spec_observes {A} P (m m' : io A) h Q :
  spec P [] m Q → observes m h m' → spec P h m' Q.
Proof.
  intros Hm Ho. induction Ho as [|h r k x Ho IH]; [done|].
  simpl in IH. by apply IH.
Qed.

(** The result against a server that answers every request in one way. *)
Fixpoint run_with {A} (ans : ∀ r, resp r) (m : io A) : A :=
  match m with
  | Ret a => a
  | Call r k => run_with ans (k (ans r))
  end.

Lemma run_with_bind {A B} ans (m : io A) (f : A → io B) :
  run_with ans (io_bind m f) = run_with ans (f (run_with ans m)).
Proof. induction m as [a|r k IH]; simpl; [done|]. apply IH. Qed.

(** ** Many routines and one server *)
Section sys.
Context {W A : Type}.
(** What the server may do with one request, and what anybody else (users,
    other controllers, the garbage collector) may do to the world. *)
Context (server : W → ∀ r, resp r → W → Prop) (env : W → W → Prop).

Record sys := Sys { world : W; threads : nat → io A }.

Inductive sys_step : sys → option (nat * event) → sys → Prop :=
  | sys_call w w' ts t r k x :
      ts t = Call r k →
      server w r x w' →
      sys_step (Sys w ts) (Some (t, Ev r x))
               (Sys w' (λ u, if decide (u = t) then k x else ts u))
  | sys_env w w' ts :
      env w w' → sys_step (Sys w ts) None (Sys w' ts).

(** A run lists its steps, oldest first, each with the state it leads to. *)
Abbreviation label := (option (nat * event)).

Inductive sys_run : sys → list (label * sys) → sys → Prop :=
  | run_nil s : sys_run s [] s
  | run_cons s e s' l s'' :
      sys_step s e s' → sys_run s' l s'' → sys_run s ((e, s') :: l) s''.

(** What thread [t] observed during a run, newest first. *)
Definition observed_by (t : nat) (l : list (label * sys)) : history :=
  reverse (omap (λ p, '(u, e) ← p.1; if decide (u = t) then Some e else None) l).

Lemma observed_by_cons t o s l :
  observed_by t ((o, s) :: l) =
  observed_by t l ++ match o with
                     | Some (u, e) => if decide (u = t) then [e] else []
                     | None => []
                     end.
Proof.
  unfold observed_by. destruct o as [[u e]|]; simpl.
  - destruct (decide (u = t)); simpl; [by rewrite reverse_cons | by rewrite app_nil_r].
  - by rewrite app_nil_r.
Qed.

Lemma observed_by_app t l1 l2 : observed_by t (l1 ++ l2) = observed_by t l2 ++ observed_by t l1.
Proof. unfold observed_by. by rewrite omap_app, reverse_app. Qed.

Lemma observes_front (m : io A) r k x h m' :
  m = Call r k → observes (k x) h m' → observes m (h ++ [Ev r x]) m'.
Proof.
  intros -> Ho. induction Ho as [|h r' k' x' Ho IH]; simpl.
  - apply (observes_cons (Call r k) [] r k x). constructor.
  - by constructor.
Qed.

(** A routine that returned was observed from its first request to its last. *)
Lemma spec_observed {B} P h (m : io B) Q :
  spec P h m Q → spec P h m (λ h' a, Q h' a ∧ ∃ h1, h' = h1 ++ h ∧ observes m h1 (Ret a)).
Proof.
  revert h. induction m as [a|r k IH]; simpl; intros h.
  - intros HQ. split; [done|]. exists []. split; [done|constructor].
  - intros [HP Hk]. split; [done|]. intros x. eapply spec_conseq; [apply IH, Hk|].
    intros h' a _ [HQ (h1 & -> & Ho)]. split; [done|]. exists (h1 ++ [Ev r x]).
    split; [by rewrite <- app_assoc|]. clear -Ho.
    remember (k x) as m0 eqn:Em. revert Em. induction Ho as [|h1 r' k' x' Ho IH]; intros ->.
    + apply (observes_cons (Call r k) [] r k x). constructor.
    + rewrite <- app_comm_cons. constructor. by apply IH.
Qed.

(** Every thread of a run has observed exactly its own events. *)
Lemma run_observes s l s' t :
  sys_run s l s' → observes (threads s t) (observed_by t l) (threads s' t).
Proof.
  induction 1 as [s|s e s' l s'' Hs Hr IH]; [constructor|].
  rewrite observed_by_cons.
  destruct Hs as [w w' ts u r k x Hu Hsrv|w w' ts Henv]; simpl in *.
  - destruct (decide (u = t)) as [->|Hne].
    + eapply observes_front; [done|]. by rewrite decide_True in IH.
    + rewrite decide_False in IH by done. by rewrite app_nil_r.
  - by rewrite app_nil_r.
Qed.

Lemma run_app s l1 s1 l2 s2 :
  sys_run s l1 s1 → sys_run s1 l2 s2 → sys_run s (l1 ++ l2) s2.
Proof. induction 1; simpl; [done|]. intros. econstructor; eauto. Qed.

Lemma run_app_inv s l1 l2 s' : sys_run s (l1 ++ l2) s' → ∃ sm, sys_run s l1 sm ∧ sys_run sm l2 s'.
Proof.
  revert s. induction l1 as [|[o so] l1 IH]; intros s; simpl; [exists s; split; [constructor|done]|].
  inversion_clear 1 as [|? ? ? ? ? Hs Hr]. destruct (IH _ Hr) as (sm & ? & ?).
  exists sm. split; [by econstructor|done].
Qed.

(** The steps determine the states. *)
Lemma run_det s l s1 s2 : sys_run s l s1 → sys_run s l s2 → s1 = s2.
Proof.
  induction 1 as [s|s e s' l s'' Hs Hr IH]; intros H; [by inversion H|].
  inversion H; subst. auto.
Qed.

(** The server's answer to an event. *)
Definition served (w : W) (e : event) (w' : W) : Prop :=
  match e with Ev r x => server w r x w' end.

(** Splitting a run at one of a thread's observations. *)
Lemma observed_split t l h1 e h2 :
  observed_by t l = h1 ++ e :: h2 →
  ∃ l1 s l2, l = l1 ++ (Some (t, e), s) :: l2 ∧ observed_by t l1 = h2 ∧ observed_by t l2 = h1.
Proof.
  revert h1. induction l as [|[o so] l IH] using rev_ind; intros h1; [by destruct h1|].
  rewrite observed_by_app.
  assert ((∃ e0, o = Some (t, e0) ∧ observed_by t [(o, so)] = [e0]) ∨ observed_by t [(o, so)] = []) as
    [(e0 & -> & ->)|Ho].
  { destruct o as [[u e0]|]; [|by right]. rewrite observed_by_cons.
    destruct (decide (u = t)) as [->|]; [left; by exists e0|by right]. }
  - destruct h1 as [|e1 h1]; simpl; intros [= -> E]; [by exists l, so, []|].
    destruct (IH _ E) as (l1 & s & l2 & -> & ? & <-). exists l1, s, (l2 ++ [(Some (t, e1), so)]).
    split_and!; [by rewrite <- app_assoc|done|]. rewrite observed_by_app, observed_by_cons.
    by rewrite decide_True.
  - rewrite Ho. simpl. intros E. destruct (IH _ E) as (l1 & s & l2 & -> & ? & <-).
    exists l1, s, (l2 ++ [(o, so)]). split_and!; [by rewrite <- app_assoc|done|]. by rewrite observed_by_app, Ho.
Qed.

Lemma run_split s l s' t h1 e h2 :
  sys_run s l s' → observed_by t l = h1 ++ e :: h2 →
  ∃ l1 s1 s2 l2, l = l1 ++ (Some (t, e), s2) :: l2 ∧ sys_run s l1 s1 ∧
    sys_step s1 (Some (t, e)) s2 ∧ served (world s1) e (world s2) ∧ sys_run s2 l2 s' ∧ observed_by t l2 = h1.
Proof.
  intros Hr (l1 & s2 & l2 & -> & <- & <-)%observed_split. apply run_app_inv in Hr as (s1 & H1 & H2).
  inversion_clear H2 as [|? ? ? ? ? Hs Hr2]. exists l1, s1, s2, l2. split_and!; [done|done|done| |done|done].
  by inversion_clear Hs.
Qed.
End sys.
End io.

Arguments io {R} resp A.
Arguments Ret {R resp A} _.
Arguments Call {R resp A} _ _.
Arguments event {R} resp.
Arguments Ev {R resp} _ _.
Arguments sys {R} resp W A.

#[export] Instance io_ret {R} {resp : R → Type} : MRet (io resp) := @Ret R resp.
#[export] Instance io_mbind {R} {resp : R → Type} : MBind (io resp) :=
  λ A B f m, io_bind m f.

(** [x, err := f(); if err != nil { return err }] *)
Definition io_try {R} {resp : R → Type} {A B}
    (m : io resp (result A)) (f : A → io resp (result B)) : io resp (result B) :=
  io_bind m (λ r, match r with Ok a => f a | Err e => Ret (Err e) end).

Notation "x ←? m ; k" := (io_try m (λ x, k))
  (at level 20, m at level 100, k at level 200, only parsing) : go_scope.
Notation "' pat ←? m ; k" := (io_try m (λ x, match x with pat => k end))
  (at level 20, pat pattern, m at level 100, k at level 200, only parsing) : go_scope.
Notation "m ;? k" := (io_try m (λ _, k))
  (at level 100, k at level 200, right associativity, only parsing) : go_scope.

Lemma spec_mbind {R} {resp : R → Type} {A B} P h (m : io resp A) (f : A → io resp B) Q :
  spec P h (m ≫= f) Q ↔ spec P h m (λ h' a, spec P h' (f a) Q).
Proof. apply spec_bind. Qed.

Lemma spec_try {R} {resp : R → Type} {A B} P h (m : io resp (result A))
    (f : A → io resp (result B)) Q :
  spec P h (io_try m f) Q ↔
  spec P h m (λ h' r, match r with Ok a => spec P h' (f a) Q | Err e => Q h' (Err e) end).
Proof.
  unfold io_try. rewrite spec_bind.
  split; intros H; (eapply spec_conseq; [exact H|]); by intros h' [a|e].
Qed.


Lemma only_mbind {R} {resp : R → Type} {A B} G (m : io resp A) (f : A → io resp B) :
  only G m → (∀ a, only G (f a)) → only G (m ≫= f).
Proof. apply only_bind. Qed.
Lemma only_try {R} {resp : R → Type} {A B} G (m : io resp (result A)) (f : A → io resp (result B)) :
  only G m → (∀ a, only G (f a)) → only G (io_try m f).
Proof. intros Hm Hf. apply only_bind; [done|]. by intros [a|e]. Qed.

Lemma run_with_mbind {R} {resp : R → Type} {A B} ans (m : io resp A) (f : A → io resp B) :
  run_with ans (m ≫= f) = run_with ans (f (run_with ans m)).
Proof. apply run_with_bind. Qed.

Lemma run_with_try {R} {resp : R → Type} {A B} ans (m : io resp (result A)) (f : A → io resp (result B)) :
  run_with ans (io_try m f) = run_with ans m ≫= λ a, run_with ans (f a).
Proof. unfold io_try. rewrite run_with_bind. by destruct (run_with ans m). Qed.

(** ** Facts that stay true

    What was observed stays observed: a property of histories is stable when it
    survives every extension of the history. *)
Class Stable {R} {resp : R → Type} (G : list (event resp) → Prop) :=
  stable h h' : h `suffix_of` h' → G h → G h'.

Section stable.
Context {R : Type} {resp : R → Type}.
Implicit Types G : list (event resp) → Prop.

#[export] Instance stable_const (P : Prop) : Stable (resp := resp) (λ _, P) | 20.
Proof. by intros h h' _. Qed.
#[export] Instance stable_seen e : Stable (resp := resp) (λ h, e ∈ h) | 1.
Proof. intros h h' [k ->] He. apply elem_of_app. by right. Qed.
#[export] Instance stable_elem_of e : Stable (resp := resp) (elem_of e) | 1.
Proof. intros h h'. apply stable_seen. Qed.
#[export] Instance stable_and G1 G2 : Stable G1 → Stable G2 → Stable (λ h, G1 h ∧ G2 h) | 2.
Proof. intros S1 S2 h h' Hs [H1 H2]. split; [by eapply S1|by eapply S2]. Qed.
#[export] Instance stable_or G1 G2 : Stable G1 → Stable G2 → Stable (λ h, G1 h ∨ G2 h) | 2.
Proof. intros S1 S2 h h' Hs [H1|H2]; [left; by eapply S1|right; by eapply S2]. Qed.
#[export] Instance stable_ex {A} (G : A → list (event resp) → Prop) :
  (∀ x, Stable (G x)) → Stable (λ h, ∃ x, G x h) | 2.
Proof. intros S h h' Hs [x Hx]. exists x. by eapply S. Qed.
#[export] Instance stable_all {A} (G : A → list (event resp) → Prop) :
  (∀ x, Stable (G x)) → Stable (λ h, ∀ x, G x h) | 3.
Proof. intros S h h' Hs Hx x. eapply S; [exact Hs|apply Hx]. Qed.
#[export] Instance stable_in_order ps : Stable (in_order (resp := resp) ps) | 1.
Proof. intros h h'. apply in_order_suffix. Qed.

(** What held at an earlier point. *)
Definition earlier G (h : list (event resp)) : Prop := ∃ h0, h0 `suffix_of` h ∧ G h0.
#[export] Instance stable_earlier G : Stable (earlier G) | 1.
Proof. intros h h' Hs (h0 & H0 & HG). exists h0. split; [by etrans|done]. Qed.
Lemma earlier_now G h : G h → earlier G h.
Proof. by exists h. Qed.

(** A routine that starts with a stable fact keeps it. *)
Lemma spec_keep {A} P h (m : io resp A) Q G :
  Stable G → G h → spec P h m Q → spec P h m (λ h' a, G h' ∧ Q h' a).
Proof.
  intros S HG Hm. eapply spec_conseq; [apply spec_suffix, Hm|]. intros h' a _ [Hs HQ]. split; [by eapply S|done].
Qed.

(** Whatever a routine does, what held before still holds. *)
Lemma spec_still {A} h (m : io resp A) G : Stable G → G h → spec (λ _ _, True) h m (λ h' _, G h').
Proof.
  intros S. revert h. induction m as [a|r k IH]; simpl; intros h HG; [done|]. split; [done|]. intros x. apply IH.
  eapply S; [by eexists [_]|done].
Qed.

(** One step of a routine that returns on an error or an answer of [false]. *)
Lemma spec_when_done {B} P h (m : io resp (result bool)) (k : io resp (result B)) (stop : B) G Q :
  spec P h m (λ h' r, r = Ok true → G h') →
  (∀ h', h `suffix_of` h' → G h' → spec P h' k Q) →
  (∀ h' e, Q h' (Err e)) → (∀ h', Q h' (Ok stop)) →
  spec P h (io_try m (λ b, if negb b then Ret (Ok stop) else k)) Q.
Proof.
  intros Hm Hk He Hf. rewrite spec_try. eapply spec_conseq; [apply spec_suffix, Hm|].
  intros h' [[]|e] _ [Hs HG]; simpl; [|apply Hf|apply He]. apply Hk; [done|by apply HG].
Qed.
(** A step whose requests are allowed as long as a stable fact holds. *)
Lemma spec_stage {A} (P P' : list (event resp) → R → Prop) (G : list (event resp) → Prop) h (m : io resp A) Q :
  Stable G → G h → spec P' h m Q → (∀ h' r, G h' → P' h' r → P h' r) → spec P h m (λ h' a, G h' ∧ Q h' a).
Proof.
  intros HS HG Hm HP. eapply spec_mono; [exact (spec_keep _ _ _ _ G HS HG Hm)| |done].
  intros h' r Hs. apply HP. by eapply HS.
Qed.

(** A stage that ends the routine unless it reports that it is done. *)
Lemma spec_stage_done {B} (P P' : list (event resp) → R → Prop) (G G' : list (event resp) → Prop) h
    (m : io resp (result bool)) (k : io resp (result B)) (stop : B) Q :
  Stable G → G h → spec P' h m (λ h' r, r = Ok true → G' h') → (∀ h' r, G h' → P' h' r → P h' r) →
  (∀ h', h `suffix_of` h' → G h' → G' h' → spec P h' k Q) →
  (∀ h' e, Q h' (Err e)) → (∀ h', Q h' (Ok stop)) →
  spec P h (io_try m (λ b, if negb b then Ret (Ok stop) else k)) Q.
Proof.
  intros HS HG Hm HP Hk He Hf. eapply (spec_when_done _ _ _ _ _ (λ h, G h ∧ G' h)); [|by intros h' Hs []; auto|done|done].
  eapply spec_conseq; [by eapply spec_stage|]. intros h' r _ [? Hr] Hok. auto.
Qed.
End stable.
