(* ===== verification/ThirdParty.v ===== *)
(** * What the program uses of code outside this repository

    Interfaces of the Kubernetes libraries the controllers link against.  Each
    is a class of operations, with its documented behaviour in a second class
    of laws; theorems name the laws they use.  [Reference] holds small concrete
    instances under which the laws hold. *)

From S2P Require Import Prelude.

(** ** [k8s.io/apimachinery/pkg/apis/meta/v1]: object metadata *)

Record OwnerReference := mkOwnerReference {
  or_APIVersion : string;
  or_Kind : string;
  or_Name : string;
  or_UID : string;
  or_Controller : option bool;
}.

(** The metadata fields the controllers read.  [meta_DeletionTimestamp] is
    [None] for a zero timestamp. *)
Record ObjectMeta := mkMeta {
  meta_Name : string;
  meta_Namespace : string;
  meta_UID : string;
  meta_Labels : gmap string string;
  meta_Annotations : option (gmap string string);
  meta_OwnerReferences : list OwnerReference;
  meta_Finalizers : list string;
  meta_DeletionTimestamp : option Z;
  meta_CreationTimestamp : Z;
  meta_ResourceVersion : string;
}.

(** A map read with Go's [m[k]]: the zero value when absent. *)
Definition get_label (m : gmap string string) (k : string) : string := default "" (m !! k).

(** A fresh object built by the controllers only sets a name and a namespace. *)
Definition meta_of_name (ns name : string) : ObjectMeta :=
  mkMeta name ns "" ∅ None [] [] None 0 "".

(** [m.Annotations[k]] *)
Definition annotation (m : ObjectMeta) (k : string) : string := default "" (meta_Annotations m ≫= λ a, a !! k).

(** [if m == nil { m = map[string]string{} }; m[k] = v] *)
Definition set_annotation (m : ObjectMeta) (k v : string) : ObjectMeta :=
  mkMeta (meta_Name m) (meta_Namespace m) (meta_UID m) (meta_Labels m)
    (Some (<[k := v]> (default ∅ (meta_Annotations m)))) (meta_OwnerReferences m) (meta_Finalizers m)
    (meta_DeletionTimestamp m) (meta_CreationTimestamp m) (meta_ResourceVersion m).

Lemma annotation_set m k v : annotation (set_annotation m k v) k = v.
Proof. unfold annotation. simpl. by rewrite lookup_insert_eq. Qed.

Lemma annotation_set_ne m k k' v : k ≠ k' → annotation (set_annotation m k v) k' = annotation m k'.
Proof. intros Hk. unfold annotation. simpl. rewrite lookup_insert_ne by done. by destruct (meta_Annotations m). Qed.

Class MetaApi := {
  (** [metav1.GetControllerOf]: the controlling owner reference, if any. *)
  GetControllerOf : ObjectMeta → option OwnerReference;
  (** [metav1.IsControlledBy(obj, owner)]. *)
  IsControlledBy : ObjectMeta → ObjectMeta → bool;
  (** [controllerutil.ContainsFinalizer], [AddFinalizer] and [RemoveFinalizer]. *)
  ContainsFinalizer : ObjectMeta → string → bool;
  AddFinalizer : ObjectMeta → string → ObjectMeta;
  RemoveFinalizer : ObjectMeta → string → ObjectMeta;
}.

(** Documented: an object is controlled by the owner whose UID its controller
    reference carries; adding a finalizer makes it present and leaves the
    identity of the object alone. *)
Class MetaLaws `{MetaApi} := {
  IsControlledBy_spec obj owner :
    IsControlledBy obj owner = true ↔
    ∃ r, GetControllerOf obj = Some r ∧ or_UID r = meta_UID owner;
  ContainsFinalizer_add m f : ContainsFinalizer (AddFinalizer m f) f = true;
  AddFinalizer_UID m f : meta_UID (AddFinalizer m f) = meta_UID m;
  ContainsFinalizer_remove m f : ContainsFinalizer (RemoveFinalizer m f) f = false;
  RemoveFinalizer_UID m f : meta_UID (RemoveFinalizer m f) = meta_UID m;
  AddFinalizer_name m f : meta_Name (AddFinalizer m f) = meta_Name m ∧ meta_Namespace (AddFinalizer m f) = meta_Namespace m;
  AddFinalizer_labels m f : meta_Labels (AddFinalizer m f) = meta_Labels m;
}.

(** ** [k8s.io/apimachinery/pkg/api/resource]: quantities

    A [Quantity] is carried by its serialised form; every operation on it is a
    parameter. *)
Record Quantity := mkQuantity { q_string : string }.
#[export] Instance Quantity_eq_dec : EqDecision Quantity.
Proof. solve_decision. Defined.

Class QuantityApi := {
  ParseQuantity : string → result Quantity;
  QuantityCmp : Quantity → Quantity → Z;
  MilliValue : Quantity → Z;
  Value : Quantity → Z;
  QuantityIsZero : Quantity → bool;
  (** Panics on malformed input; only used on constants. *)
  MustParse : string → Quantity;
  NewMilliQuantity : Z → Quantity;
  NewQuantity : Z → Quantity;
}.

Class QuantityLaws `{QuantityApi} := {
  MilliValue_new n : (- 2 ^ 63 ≤ n < 2 ^ 63)%Z → MilliValue (NewMilliQuantity n) = n;
  Value_new n : (- 2 ^ 63 ≤ n < 2 ^ 63)%Z → Value (NewQuantity n) = n;
  MustParse_parse s q : ParseQuantity s = Ok q → MustParse s = q;
}.

(** ** [github.com/go-openapi/strfmt]: durations, in nanoseconds *)
Class DurationApi := { ParseDuration : string → result Z }.

(** ** [encoding/json] *)
Class JsonApi := {
  (** The [key] member an SDK public-key document unmarshals to; [None] when
      [json.Unmarshal] fails. *)
  json_key_member : string → option string;
  (** [json.Marshal] of the value a document unmarshals to; [None] when either
      step fails. *)
  json_canonical : string → option string;
}.

(** Documents of objects as the documents of their members. *)
Class JsonObjectApi := {
  (** [json.Unmarshal] into a [map[string]interface{}]; [None] is the map a [null] leaves nil. *)
  json_Unmarshal_object : string → result (option (gmap string string));
  json_Marshal_object : gmap string string → result string;
  (** The document of a string, and the string a document is of. *)
  json_of_string : string → string;
  json_to_string : string → option string;
}.

(** ** [k8s.io/apimachinery/pkg/util/validation]: the errors of a name *)
Class DnsApi := {
  IsDNS1123Label : string → list string;
  IsDNS1123Subdomain : string → list string;
  IsWildcardDNS1123Subdomain : string → list string;
}.

(** ** [net/url]: scheme and host of [ParseRequestURI] *)
Class UrlApi := { ParseRequestURI : string → result (string * string) }.

(** ** [github.com/c2h5oh/datasize]: a [ByteSize] is a [uint64] *)
Class DatasizeApi := { datasize_ParseString : string → result Z }.
