(* ===== verification/Reference.v ===== *)
(** * Concrete instances of the third-party interfaces

    Small implementations under which the laws of [ThirdParty] hold.  They are
    not models of the libraries: witnesses evaluate the definitions on them. *)

From S2P Require Import Prelude GoLib ThirdParty.

Definition reference_meta : MetaApi := {|
  GetControllerOf m :=
    list_find (λ r, or_Controller r = Some true) (meta_OwnerReferences m) ≫= λ p, Some p.2;
  IsControlledBy m o :=
    match list_find (λ r, or_Controller r = Some true) (meta_OwnerReferences m) with
    | Some (_, r) => or_UID r == meta_UID o
    | None => false
    end;
  ContainsFinalizer m f := bool_decide (f ∈ meta_Finalizers m);
  AddFinalizer m f :=
    mkMeta (meta_Name m) (meta_Namespace m) (meta_UID m) (meta_Labels m)
      (meta_Annotations m) (meta_OwnerReferences m) (f :: meta_Finalizers m)
      (meta_DeletionTimestamp m) (meta_CreationTimestamp m) (meta_ResourceVersion m);
  RemoveFinalizer m f :=
    mkMeta (meta_Name m) (meta_Namespace m) (meta_UID m) (meta_Labels m)
      (meta_Annotations m) (meta_OwnerReferences m) (filter (λ g, g ≠ f) (meta_Finalizers m))
      (meta_DeletionTimestamp m) (meta_CreationTimestamp m) (meta_ResourceVersion m);
|}.

Lemma reference_meta_laws : @MetaLaws reference_meta.
Proof.
  split; simpl.
  - intros obj owner. destruct (list_find _ _) as [[i r]|]; simpl.
    + rewrite bool_decide_eq_true. split; [eauto|]. by intros (? & [= ->] & ?).
    + split; [done|]. by intros (? & ? & ?).
  - intros m f. apply bool_decide_eq_true. by left.
  - done.
  - intros m f. apply bool_decide_eq_false. by intros [? _]%list_elem_of_filter.
  - done.
  - done.
  - done.
Qed.

(** Quantities as a decimal number of thousandths followed by [m]; the suffixes
    [Mi] and [Gi] are also parsed. *)
Definition quantity_of_milli (z : Z) : Quantity := mkQuantity (FormatInt z +:+ "m").
Definition milli_of_quantity (q : Quantity) : Z :=
  match ParseInt 256 (TrimSuffix (q_string q) "m") with Ok z => z | Err _ => 0%Z end.
Definition parse_scaled (s suffix : string) (scale : Z) : result Quantity :=
  z ← ParseInt 64 (TrimSuffix s suffix); Ok (quantity_of_milli (z * scale)).

Definition parse_quantity (s : string) : result Quantity :=
  if has_suffix s "Gi" then parse_scaled s "Gi" (1000 * 2 ^ 30)
  else if has_suffix s "Mi" then parse_scaled s "Mi" (1000 * 2 ^ 20)
  else if has_suffix s "m" then parse_scaled s "m" 1
  else parse_scaled s "" 1000.

Definition reference_quantity : QuantityApi := {|
  ParseQuantity := parse_quantity;
  QuantityCmp a b :=
    match (milli_of_quantity a ?= milli_of_quantity b)%Z with Lt => -1 | Eq => 0 | Gt => 1 end%Z;
  MilliValue := milli_of_quantity;
  Value q := ((milli_of_quantity q + 999) / 1000)%Z;
  QuantityIsZero q := (milli_of_quantity q =? 0)%Z;
  MustParse s := match parse_quantity s with Ok q => q | Err _ => mkQuantity "" end;
  NewMilliQuantity := quantity_of_milli;
  NewQuantity n := quantity_of_milli (1000 * n);
|}.

Lemma TrimSuffix_app s t : TrimSuffix (s +:+ t) t = s.
Proof.
  unfold TrimSuffix. rewrite has_suffix_app, string_length_app. unfold slice_to.
  replace (String.length s + String.length t - String.length t)%nat with (String.length s) by lia.
  apply substring_app_l.
Qed.

Lemma milli_of_quantity_of z :
  (- 2 ^ 255 ≤ z < 2 ^ 255)%Z → milli_of_quantity (quantity_of_milli z) = z.
Proof.
  intros Hz. unfold milli_of_quantity, quantity_of_milli. simpl q_string.
  by rewrite TrimSuffix_app, ParseInt_FormatInt.
Qed.

Lemma reference_quantity_laws : @QuantityLaws reference_quantity.
Proof.
  split; [intros n Hn..|intros s q Hq].
  - apply milli_of_quantity_of. lia.
  - change ((milli_of_quantity (quantity_of_milli (1000 * n)) + 999) / 1000 = n)%Z.
    rewrite milli_of_quantity_of by lia. symmetry.
    apply (Z.div_unique_pos _ _ _ 999); lia.
  - simpl in *. by rewrite Hq.
Qed.

(** Durations written as a whole number of seconds, [<n>s]. *)
Definition reference_duration : DurationApi := {|
  ParseDuration s :=
    if has_suffix s "s" then z ← ParseInt 32 (TrimSuffix s "s"); Ok (z * 10 ^ 9)%Z
    else Err (Errorf "unknown duration" [AStr s]);
|}.

(** Documents of the exact form [{"key":"<value>"}]; every other text is
    malformed. *)
Definition dquote : string := String (Ascii.ascii_of_nat 34) "".
Definition json_prefix : string := "{" +:+ dquote +:+ "key" +:+ dquote +:+ ":" +:+ dquote.
Definition json_suffix : string := dquote +:+ "}".
Definition reference_json : JsonApi := {|
  json_key_member s :=
    rest ← CutPrefix s json_prefix;
    if has_suffix rest json_suffix then Some (TrimSuffix rest json_suffix) else None;
  json_canonical s := if has_prefix s "{" then Some s else None;
|}.
