(* ===== verification/ApiTypes.v ===== *)
(** * The custom resources ([api/v1])

    Records for the API types, with the constructor fields named after the Go
    fields and prefixed by the type.  A Go pointer is an option, an omitted
    [omitempty] string is the empty string.  Fields whose type belongs to
    another module and which the modelled code never inspects (affinities, pod
    environments, security contexts) are left out; where only their presence
    counts they are [opaque]. *)

From S2P Require Import Prelude ThirdParty.

(** ** Constants *)

Definition ReservedValidatorGroupName : string := "validator".

Inductive ChainNodePhase :=
  | PhaseChainNodeNone
  | PhaseChainNodeInitData
  | PhaseChainNodeInitGenesis
  | PhaseChainNodeStarting
  | PhaseChainNodeRunning
  | PhaseChainNodeSyncing
  | PhaseChainNodeStateSyncing
  | PhaseChainNodeRestarting
  | PhaseChainNodeStopped
  | PhaseChainNodeError
  | PhaseChainNodeSnapshotting
  | PhaseChainNodeUpgrading.
#[export] Instance ChainNodePhase_eq_dec : EqDecision ChainNodePhase.
Proof. solve_decision. Defined.

Inductive UpgradePhase :=
  | UpgradeImageMissing
  | UpgradeScheduled
  | UpgradeOnGoing
  | UpgradeCompleted
  | UpgradeSkipped.
#[export] Instance UpgradePhase_eq_dec : EqDecision UpgradePhase.
Proof. solve_decision. Defined.

Inductive UpgradeSource := OnChainUpgrade | ManualUpgrade.
#[export] Instance UpgradeSource_eq_dec : EqDecision UpgradeSource.
Proof. solve_decision. Defined.

(** ** Kubernetes value types used by the API *)

(** A value of another module's type that is copied, serialized or tested for
    presence and never inspected: its serialization. *)
Definition opaque : Type := string.

(** [corev1.SecretKeySelector]. *)
Record SecretKeySelector := mkSecretKeySelector { sel_Name : string; sel_Key : string }.

(** [corev1.ResourceRequirements]: nil maps and empty maps differ. *)
Record ResourceRequirements := mkResourceRequirements {
  rr_Limits : option (gmap string Quantity);
  rr_Requests : option (gmap string Quantity);
  rr_Claims : list opaque;
}.
Definition no_resources : ResourceRequirements := mkResourceRequirements None None [].

(** ** Upgrades *)

Record UpgradeSpec := mkUpgradeSpec {
  us_Height : Z;
  us_Image : string;
  us_ForceOnChain : option bool;
}.

Record Upgrade := mkUpgrade {
  up_Height : Z;
  up_Image : string;
  up_Status : UpgradePhase;
  up_Source : UpgradeSource;
}.
#[export] Instance Upgrade_eq_dec : EqDecision Upgrade.
Proof. solve_decision. Defined.

Inductive SdkVersion := V0_53 | V0_50 | V0_47 | V0_45 | SdkVersionOther (v : string).

Record SdkOptions := mkSdkOptions { so_GenesisSubcommand : option bool }.

Record AppSpec := mkAppSpec {
  app_Image : string;
  app_Version : option string;
  app_ImagePullPolicy : string;
  app_App : string;
  app_SdkVersion : option SdkVersion;
  app_CheckGovUpgrades : option bool;
  app_Upgrades : list UpgradeSpec;
  app_SdkOptions : option SdkOptions;
}.
Definition newAppSpec (image : string) (version : option string) (app : string) (upgrades : list UpgradeSpec) : AppSpec :=
  mkAppSpec image version "" app None None upgrades None.
Definition app_with_Upgrades (r : AppSpec) (v : list UpgradeSpec) : AppSpec :=
  mkAppSpec (app_Image r) (app_Version r) (app_ImagePullPolicy r) (app_App r) (app_SdkVersion r) (app_CheckGovUpgrades r)
    v (app_SdkOptions r).

(** ** Vertical autoscaling *)

Inductive LimitUpdateStrategy :=
  LimitRetain | LimitEqual | LimitVpaMax | LimitPercentageOf | LimitUnset.
#[export] Instance LimitUpdateStrategy_eq_dec : EqDecision LimitUpdateStrategy.
Proof. solve_decision. Defined.

Inductive ScalingDirection := ScaleUp | ScaleDown.
#[export] Instance ScalingDirection_eq_dec : EqDecision ScalingDirection.
Proof. solve_decision. Defined.

Record VerticalAutoscalingRule := mkVpaRule {
  vr_Direction : ScalingDirection;
  vr_UsagePercent : Z;
  vr_Duration : option string;
  vr_StepPercent : Z;
  vr_Cooldown : option string;
}.

Record VerticalAutoscalingMetricConfig := mkVpaMetric {
  vm_Min : Quantity;
  vm_Max : Quantity;
  vm_Rules : list VerticalAutoscalingRule;
  vm_Cooldown : option string;
  vm_LimitStrategy : option LimitUpdateStrategy;
  vm_LimitPercentage : option Z;
  vm_SafetyMarginPercent : option Z;
  vm_HysteresisPercent : option Z;
  vm_EmergencyScaleUpPercent : option Z;
  vm_MaxOOMRecoveries : option Z;
  vm_OOMRecoveryWindow : option string;
}.

Record VerticalAutoscalingConfig := mkVpa {
  vpa_Enabled : bool;
  vpa_ResetVpaAfterNodeUpgrade : bool;
  vpa_CPU : option VerticalAutoscalingMetricConfig;
  vpa_Memory : option VerticalAutoscalingMetricConfig;
}.

(** ** Signers *)

Record CosmosignerSoftwareBackend := mkSoftware { sw_PrivateKeySecret : option string }.

Record CosmosignerVaultBackend := mkVault {
  va_Address : string;
  va_KeyName : string;
  va_KeyVersion : option Z;
  va_Mount : option string;
  va_TokenSecret : option SecretKeySelector;
  va_CertificateSecret : option SecretKeySelector;
  va_Namespace : option string;
  va_UploadGenerated : bool;
}.

Record CosmosignerGcpKmsImport := mkGcpImport {
  gi_Project : string;
  gi_Location : option string;
  gi_KeyRing : string;
  gi_Key : string;
  gi_ImportJob : option string;
  gi_ProtectionLevel : option string;
}.

Record CosmosignerGcpKmsBackend := mkGcp {
  gk_KeyVersion : string;
  gk_Import : option CosmosignerGcpKmsImport;
  gk_CredentialsSecret : option SecretKeySelector;
}.

Record CosmosignerBackend := mkBackend {
  be_Software : option CosmosignerSoftwareBackend;
  be_Vault : option CosmosignerVaultBackend;
  be_GcpKMS : option CosmosignerGcpKmsBackend;
}.

Record Cosmosigner := mkCosmosigner {
  cs_NodeGroups : list string;
  cs_Replicas : option Z;
  cs_Image : option string;
  cs_Backend : CosmosignerBackend;
  cs_StateStorageSize : option string;
  cs_StorageClassName : option string;
  cs_Resources : option ResourceRequirements;
  cs_RaftTLSSecret : option string;
  cs_UnsafeAllowInsecureRaft : bool;
  cs_LogLevel : option string;
  cs_ServiceAccountName : option string;
}.

Inductive CosmosignerMigrationPhase :=
  | CosmosignerMigrationQuiescing
  | CosmosignerMigrationDeleting
  | CosmosignerMigrationResettingState
  | CosmosignerMigrationRetargeting
  | CosmosignerMigrationRecreating
  | CosmosignerMigrationRollingOut
  | CosmosignerMigrationUnknown (phase : string).
#[export] Instance CosmosignerMigrationPhase_eq_dec : EqDecision CosmosignerMigrationPhase.
Proof. solve_decision. Defined.

Record CosmosignerMigrationStatus := mkMigration {
  mg_DesiredDigest : string;
  mg_DesiredPublicKey : string;
  mg_Phase : CosmosignerMigrationPhase;
  mg_ResetState : bool;
  mg_RolloutObservedAt : option Z;
}.

Record CosmosignerStatus := mkCosmosignerStatus {
  st_Name : string;
  st_ResourceName : string;
  st_AppliedDigest : string;
  st_PublicKey : string;
  st_TargetGroups : list string;
  st_Migration : option CosmosignerMigrationStatus;
  st_Replicas : option Z;
  st_StateStorageSize : string;
  st_StateStorageClassName : option string;
  st_SigningDigest : string;
  st_AtEstablishment : option string;
  st_ServingIdentity : string;
  st_ServingGroup : string;
  st_LocalKeyEverServed : option bool;
  st_KeyImported : string;
  st_ImportedKeyVersion : string;
}.

(** [CosmosignerStatus{Name: name}] *)
Definition newCosmosignerStatus (name : string) : CosmosignerStatus :=
  mkCosmosignerStatus name "" "" "" [] None None "" None "" None "" "" None "" "".

(** ** tmKMS *)

Record TmKmsHashicorpProvider := mkHashicorp {
  hc_Address : string;
  hc_Key : string;
  hc_CertificateSecret : option SecretKeySelector;
  hc_TokenSecret : option SecretKeySelector;
  hc_UploadGenerated : bool;
  hc_AutoRenewToken : bool;
  hc_SkipCertificateVerify : bool;
}.

Record TmKmsKeyFormat := mkKeyFormat {
  kf_Type : string;
  kf_AccountKeyPrefix : string;
  kf_ConsensusKeyPrefix : string;
}.

(** [tk_Hashicorp] is the only field of the [Provider]. *)
Record TmKMS := mkTmKMS {
  tk_Hashicorp : option TmKmsHashicorpProvider;
  tk_KeyFormat : option TmKmsKeyFormat;
  tk_ValidatorProtocol : option string;
  tk_PersistState : option bool;
  tk_Resources : option ResourceRequirements;
}.

(** ** Genesis and validators *)

Record ValidatorInfo := mkValidatorInfo {
  vi_Moniker : option string;
  vi_Details : option string;
  vi_Website : option string;
  vi_Identity : option string;
}.

Record AccountAssets := mkAccountAssets { aa_Address : string; aa_Assets : list string }.
Record ChainNodeAssets := mkChainNodeAssets { ca_ChainNode : string; ca_Assets : list string }.

Record GenesisValidator := mkGenesisValidator {
  gv_PrivKeySecret : string;
  gv_AccountMnemonicSecret : string;
  gv_Moniker : string;
  gv_Assets : list string;
  gv_StakeAmount : string;
}.

Record InitCommand := mkInitCommand {
  ic_Image : option string;
  ic_Command : list string;
  ic_Args : list string;
  ic_Resources : ResourceRequirements;
  ic_Env : list opaque;
}.

Record GenesisInitConfig := mkGenesisInit {
  gn_ChainID : string;
  gn_AccountMnemonicSecret : option string;
  gn_AccountHDPath : option string;
  gn_AccountPrefix : option string;
  gn_ValPrefix : option string;
  gn_CommissionMaxChangeRate : option string;
  gn_CommissionMaxRate : option string;
  gn_CommissionRate : option string;
  gn_MinSelfDelegation : option string;
  gn_Assets : list string;
  gn_StakeAmount : string;
  gn_Accounts : list AccountAssets;
  gn_ChainNodeAccounts : list ChainNodeAssets;
  gn_UnbondingTime : option string;
  gn_VotingPeriod : option string;
  gn_ExpeditedVotingPeriod : option string;
  gn_AdditionalInitCommands : list InitCommand;
  gn_GenesisValidators : list GenesisValidator;
}.

Record CreateValidatorConfig := mkCreateValidator {
  cv_AccountMnemonicSecret : option string;
  cv_AccountHDPath : option string;
  cv_AccountPrefix : option string;
  cv_ValPrefix : option string;
  cv_CommissionMaxChangeRate : option string;
  cv_CommissionMaxRate : option string;
  cv_CommissionRate : option string;
  cv_MinSelfDelegation : option string;
  cv_StakeAmount : string;
  cv_GasPrices : string;
}.

Record FromNodeRPCConfig := mkFromNodeRPC {
  fr_Secure : bool;
  fr_Hostname : string;
  fr_Port : option Z;
}.

Record GenesisConfig := mkGenesisConfig {
  gc_Url : option string;
  gc_FromNodeRPC : option FromNodeRPCConfig;
  gc_GenesisSHA : option string;
  gc_ConfigMap : option string;
  gc_UseDataVolume : option bool;
  gc_ChainID : option string;
}.

Record ValidatorConfig := mkValidatorConfig {
  vc_PrivateKeySecret : option string;
  vc_Info : option ValidatorInfo;
  vc_Init : option GenesisInitConfig;
  vc_TmKMS : option TmKMS;
  vc_CreateValidator : option CreateValidatorConfig;
  vc_AccountHDPath : option string;
  vc_AccountPrefix : option string;
  vc_ValPrefix : option string;
}.

(** ** Persistence and snapshots *)

Record GcsExportConfig := mkGcsExport {
  ge_Bucket : string;
  ge_CredentialsSecret : option SecretKeySelector;
  ge_ServiceAccountName : option string;
  ge_SizeLimit : option string;
  ge_PartSize : option string;
  ge_ChunkSize : option string;
  ge_BufferSize : option string;
  ge_ConcurrentJobs : option Z;
}.

(** [s3_CredentialsSecret] is the name of the [corev1.LocalObjectReference]. *)
Record S3ExportConfig := mkS3Export {
  s3_Bucket : string;
  s3_Region : string;
  s3_Endpoint : option string;
  s3_ForcePathStyle : option bool;
  s3_CredentialsSecret : option string;
  s3_ServiceAccountName : option string;
  s3_SizeLimit : option string;
  s3_PartSize : option string;
  s3_ChunkSize : option string;
  s3_BufferSize : option string;
  s3_ConcurrentJobs : option Z;
}.

Record ExportTarballConfig := mkExportTarball {
  et_Suffix : option string;
  et_DeleteOnExpire : option bool;
  et_Compression : option string;
  et_GCS : option GcsExportConfig;
  et_S3 : option S3ExportConfig;
}.

Record VolumeSnapshotsConfig := mkSnapshots {
  vs_Frequency : string;
  vs_Retention : option string;
  vs_Retain : option Z;
  vs_PreserveLastSnapshot : option bool;
  vs_SnapshotClassName : option string;
  vs_StopNode : option bool;
  vs_ExportTarball : option ExportTarballConfig;
  vs_Verify : option bool;
  vs_DisableWhileSyncing : option bool;
  vs_DisableWhileUnhealthy : option bool;
  vs_Resources : ResourceRequirements;
  vs_NodeSelector : gmap string string;
  vs_Affinity : option opaque;
}.

Inductive SnapshotExportProvider :=
  | SnapshotExportProviderS3
  | SnapshotExportProviderGCS
  | SnapshotExportProviderUnknown
  | SnapshotExportProviderOther (p : string).
#[export] Instance SnapshotExportProvider_eq_dec : EqDecision SnapshotExportProvider.
Proof. solve_decision. Defined.

Inductive SnapshotExportPhase :=
  | SnapshotExportPhaseUploading
  | SnapshotExportPhaseUploaded
  | SnapshotExportPhaseDeleting
  | SnapshotExportPhaseCleanupRequired
  | SnapshotExportPhaseDeleted
  | SnapshotExportPhaseAcknowledged
  | SnapshotExportPhaseOther (p : string).
#[export] Instance SnapshotExportPhase_eq_dec : EqDecision SnapshotExportPhase.
Proof. solve_decision. Defined.

(** [SnapshotExportSecretReference] is a [SecretKeySelector]. *)
Record SnapshotExportDestination := mkDestination {
  sd_Provider : SnapshotExportProvider;
  sd_Bucket : string;
  sd_Region : string;
  sd_Endpoint : string;
  sd_ForcePathStyle : bool;
  sd_CredentialsSecret : option SecretKeySelector;
  sd_ServiceAccountName : string;
}.

Record SnapshotExportStatus := mkExportStatus {
  se_ID : string;
  se_SnapshotName : string;
  se_SnapshotUID : string;
  se_ObjectName : string;
  se_Destination : SnapshotExportDestination;
  se_Phase : SnapshotExportPhase;
  se_Message : string;
  se_Compression : string;
  se_SizeLimit : string;
  se_PartSize : string;
  se_ChunkSize : string;
  se_BufferSize : string;
  se_ConcurrentJobs : Z;
  se_DeleteOnExpire : bool;
  se_DeleteAttempts : Z;
  se_DeleteExhausted : bool;
  se_LastDeleteError : string;
  se_NextDeleteRetryAt : option Z;
}.

Record VolumeSpec := mkVolumeSpec {
  vl_Name : string;
  vl_Size : string;
  vl_Path : string;
  vl_StorageClassName : option string;
  vl_DeleteWithNode : option bool;
}.

(** [pe_RestoreFromSnapshot] is the snapshot name of the [PvcSnapshot]. *)
Record Persistence := mkPersistence {
  pe_Size : option string;
  pe_StorageClassName : option string;
  pe_AutoResize : option bool;
  pe_AutoResizeThreshold : option Z;
  pe_AutoResizeIncrement : option string;
  pe_AutoResizeMaxSize : option string;
  pe_AdditionalInitCommands : list InitCommand;
  pe_Snapshots : option VolumeSnapshotsConfig;
  pe_RestoreFromSnapshot : option string;
  pe_InitTimeout : option string;
  pe_AdditionalVolumes : list VolumeSpec;
}.

Record DeletionPolicy := mkDeletionPolicy {
  dp_DataVolumes : option string;
  dp_GeneratedKeys : option string;
  dp_CosmosignerState : option string;
}.

Record PdbConfig := mkPdb { pdb_Enabled : bool; pdb_MinAvailable : option Z }.

(** ** Configuration of a node *)

Record GatewayRef := mkGatewayRef {
  gr_Name : string;
  gr_Namespace : option string;
  gr_SectionName : option string;
}.

Record CosmoGuardAutoscalingConfig := mkGuardAutoscaling {
  gas_Enable : bool;
  gas_MinReplicas : option Z;
  gas_MaxReplicas : Z;
  gas_TargetCPUUtilizationPercentage : option Z;
  gas_TargetMemoryUtilizationPercentage : option Z;
}.

Record CosmoGuardDashboardAuth := mkDashboardAuth {
  da_Username : SecretKeySelector;
  da_Password : SecretKeySelector;
}.
Record CosmoGuardDashboardIngress := mkDashboardIngress {
  di_Host : string;
  di_IngressClassName : option string;
  di_Annotations : gmap string string;
  di_TLSSecretName : option string;
}.
Record CosmoGuardDashboardGateway := mkDashboardGateway {
  dg_Host : string;
  dg_Gateway : GatewayRef;
  dg_HTTPRedirect : option GatewayRef;
}.
Record CosmoGuardDashboardConfig := mkDashboard {
  db_Enable : bool;
  db_Port : option Z;
  db_BasicAuth : option CosmoGuardDashboardAuth;
  db_Ingress : option CosmoGuardDashboardIngress;
  db_Gateway : option CosmoGuardDashboardGateway;
}.

(** [cg_Config] is a [corev1.ConfigMapKeySelector]. *)
Record CosmoGuardConfig := mkCosmoGuard {
  cg_Enable : bool;
  cg_Config : option SecretKeySelector;
  cg_Image : option string;
  cg_Replicas : option Z;
  cg_Autoscaling : option CosmoGuardAutoscalingConfig;
  cg_Dashboard : option CosmoGuardDashboardConfig;
  cg_Resources : option ResourceRequirements;
  cg_RestartPodOnFailure : option bool;
}.

Record StateSyncConfig := mkStateSync {
  sy_SnapshotInterval : Z;
  sy_SnapshotKeepRecent : option Z;
}.

Record SidecarSpec := mkSidecar {
  sc_Name : string;
  sc_Image : option string;
  sc_ImagePullPolicy : string;
  sc_MountDataVolume : option string;
  sc_MountConfig : option string;
  sc_Command : list string;
  sc_Args : list string;
  sc_Env : list opaque;
  sc_SecurityContext : option opaque;
  sc_Resources : ResourceRequirements;
  sc_RestartPodOnFailure : option bool;
  sc_RunBeforeNode : option bool;
  sc_DeferUntilHealthy : option bool;
}.

(** [cf_Override] maps a file name to raw JSON. *)
Record Config := mkConfig {
  cf_Override : option (gmap string string);
  cf_Sidecars : list SidecarSpec;
  cf_ImagePullSecrets : list string;
  cf_BlockThreshold : option string;
  cf_ReconcilePeriod : option string;
  cf_StateSync : option StateSyncConfig;
  cf_SeedMode : option bool;
  cf_Env : list opaque;
  cf_PodAnnotations : gmap string string;
  cf_SafeToEvict : option bool;
  cf_CosmoGuard : option CosmoGuardConfig;
  cf_NodeUtilsLogLevel : option string;
  cf_StartupTime : option string;
  cf_IgnoreSyncing : option bool;
  cf_NodeUtilsResources : option ResourceRequirements;
  cf_CosmosignerDiscoveryResources : option ResourceRequirements;
  cf_NodeUtilsEnv : list opaque;
  cf_PersistAddressBook : option bool;
  cf_TerminationGracePeriodSeconds : option Z;
  cf_EvmEnabled : option bool;
  cf_RunFlags : list string;
  cf_DashedConfigToml : option bool;
  cf_HaltHeight : option Z;
  cf_SecurityContext : option opaque;
  cf_PodSecurityContext : option opaque;
  cf_ServiceAccountName : option string;
}.

Record Peer := mkPeer {
  peer_ID : string;
  peer_Address : string;
  peer_Port : option Z;
  peer_Unconditional : option bool;
  peer_Private : option bool;
  peer_Seed : option bool;
}.

(** ** Exposure *)

(** [eg_Ref] is the embedded [GatewayRef]. *)
Record ExposeGatewayConfig := mkExposeGateway { eg_Ref : GatewayRef; eg_Port : option Z }.
Record ExposeConfig := mkExpose {
  ex_P2P : option bool;
  ex_P2pServiceType : option string;
  ex_Annotations : option (gmap string string);
  ex_Gateway : option ExposeGatewayConfig;
}.

Record SubdomainsConfig := mkSubdomains {
  sub_RPC : option string;
  sub_GRPC : option string;
  sub_LCD : option string;
  sub_EvmRPC : option string;
  sub_EvmRpcWs : option string;
}.

(** The five [Enable*] fields of the ingress and gateway configurations. *)
Record EnabledEndpoints := mkEndpoints {
  en_RPC : bool;
  en_GRPC : bool;
  en_LCD : bool;
  en_EvmRPC : bool;
  en_EvmRpcWs : bool;
}.

Record IngressConfig := mkIngress {
  in_Enable : EnabledEndpoints;
  in_Host : string;
  in_Subdomains : option SubdomainsConfig;
  in_Annotations : gmap string string;
  in_DisableTLS : bool;
  in_TlsSecretName : option string;
  in_GrpcAnnotations : option (gmap string string);
  in_IngressClass : option string;
  in_UseInternalServices : option bool;
}.
Record GatewayConfig := mkGateway {
  gw_Gateway : GatewayRef;
  gw_Host : string;
  gw_Subdomains : option SubdomainsConfig;
  gw_Enable : EnabledEndpoints;
  gw_UseInternalServices : option bool;
}.

(** ** ChainNode *)

Record ChainNodeSpec := mkChainNodeSpec {
  ns_Genesis : option GenesisConfig;
  ns_App : AppSpec;
  ns_Config : option Config;
  ns_Persistence : option Persistence;
  ns_DeletionPolicy : option DeletionPolicy;
  ns_Validator : option ValidatorConfig;
  ns_Cosmosigner : option Cosmosigner;
  ns_RemoteSignerTarget : bool;
  ns_AutoDiscoverPeers : option bool;
  ns_StateSyncRestore : option bool;
  ns_StateSyncResources : ResourceRequirements;
  ns_Peers : list Peer;
  ns_Expose : option ExposeConfig;
  ns_Resources : ResourceRequirements;
  ns_NodeSelector : gmap string string;
  ns_Affinity : option opaque;
  ns_IgnoreGroupOnDisruptionChecks : option bool;
  ns_VPA : option VerticalAutoscalingConfig;
  ns_OverrideVersion : option string;
  ns_Ingress : option IngressConfig;
  ns_Gateway : option GatewayConfig;
}.
Definition newChainNodeSpec (app : AppSpec) : ChainNodeSpec :=
  mkChainNodeSpec None app None None None None None false None None no_resources [] None no_resources ∅ None None None
    None None None.
Definition ns_with_Resources (r : ChainNodeSpec) (v : ResourceRequirements) : ChainNodeSpec :=
  mkChainNodeSpec (ns_Genesis r) (ns_App r) (ns_Config r) (ns_Persistence r) (ns_DeletionPolicy r)
    (ns_Validator r) (ns_Cosmosigner r) (ns_RemoteSignerTarget r) (ns_AutoDiscoverPeers r)
    (ns_StateSyncRestore r) (ns_StateSyncResources r) (ns_Peers r) (ns_Expose r) v (ns_NodeSelector r)
    (ns_Affinity r) (ns_IgnoreGroupOnDisruptionChecks r) (ns_VPA r) (ns_OverrideVersion r) (ns_Ingress r)
    (ns_Gateway r).
Definition ns_with_StateSyncResources (r : ChainNodeSpec) (v : ResourceRequirements) : ChainNodeSpec :=
  mkChainNodeSpec (ns_Genesis r) (ns_App r) (ns_Config r) (ns_Persistence r) (ns_DeletionPolicy r)
    (ns_Validator r) (ns_Cosmosigner r) (ns_RemoteSignerTarget r) (ns_AutoDiscoverPeers r)
    (ns_StateSyncRestore r) v (ns_Peers r) (ns_Expose r) (ns_Resources r) (ns_NodeSelector r) (ns_Affinity
    r) (ns_IgnoreGroupOnDisruptionChecks r) (ns_VPA r) (ns_OverrideVersion r) (ns_Ingress r) (ns_Gateway r).
Definition ns_with_Validator (r : ChainNodeSpec) (v : option ValidatorConfig) : ChainNodeSpec :=
  mkChainNodeSpec (ns_Genesis r) (ns_App r) (ns_Config r) (ns_Persistence r) (ns_DeletionPolicy r) v
    (ns_Cosmosigner r) (ns_RemoteSignerTarget r) (ns_AutoDiscoverPeers r) (ns_StateSyncRestore r)
    (ns_StateSyncResources r) (ns_Peers r) (ns_Expose r) (ns_Resources r) (ns_NodeSelector r) (ns_Affinity
    r) (ns_IgnoreGroupOnDisruptionChecks r) (ns_VPA r) (ns_OverrideVersion r) (ns_Ingress r) (ns_Gateway r).
Definition ns_with_VPA (r : ChainNodeSpec) (v : option VerticalAutoscalingConfig) : ChainNodeSpec :=
  mkChainNodeSpec (ns_Genesis r) (ns_App r) (ns_Config r) (ns_Persistence r) (ns_DeletionPolicy r)
    (ns_Validator r) (ns_Cosmosigner r) (ns_RemoteSignerTarget r) (ns_AutoDiscoverPeers r)
    (ns_StateSyncRestore r) (ns_StateSyncResources r) (ns_Peers r) (ns_Expose r) (ns_Resources r)
    (ns_NodeSelector r) (ns_Affinity r) (ns_IgnoreGroupOnDisruptionChecks r) v (ns_OverrideVersion r)
    (ns_Ingress r) (ns_Gateway r).

(** The [Cosmosigner*] fields of the status. *)
Record ChainNodeSignerStatus := mkSignerStatus {
  css_SigningDigest : string;
  css_AppliedDigest : string;
  css_PublicKey : string;
  css_Migration : option CosmosignerMigrationStatus;
  css_KeyImported : string;
  css_ImportedKeyVersion : string;
  css_Replicas : option Z;
  css_ValidatorTargeted : option bool;
  css_StateStorageSize : string;
  css_StateStorageClassName : option string;
  css_AtEstablishment : option string;
  css_ServingIdentity : string;
}.

Record ChainNodeStatus := mkChainNodeStatus {
  nst_Phase : ChainNodePhase;
  nst_NodeID : string;
  nst_IP : string;
  nst_PublicAddress : string;
  nst_ChainID : string;
  nst_PvcSize : string;
  nst_DataUsage : string;
  nst_Validator : bool;
  nst_AccountAddress : string;
  nst_ValidatorAddress : string;
  nst_Jailed : bool;
  nst_GenesisSigningDigest : string;
  nst_AppVersion : string;
  nst_LatestHeight : Z;
  nst_SeedMode : bool;
  nst_Upgrades : list Upgrade;
  nst_PubKey : string;
  nst_TmKMSReservationIdentity : string;
  nst_ValidatorStatus : string;
  nst_Cosmosigner : ChainNodeSignerStatus;
  nst_SnapshotExports : list SnapshotExportStatus;
}.
Definition newChainNodeStatus (phase : ChainNodePhase) (chainID : string) (height : Z) (upgrades : list Upgrade)
    (cs : ChainNodeSignerStatus) : ChainNodeStatus :=
  mkChainNodeStatus phase "" "" "" chainID "" "" false "" "" false "" "" height false upgrades "" "" "" cs [].
Definition nst_with_ChainID (r : ChainNodeStatus) (v : string) : ChainNodeStatus :=
  mkChainNodeStatus (nst_Phase r) (nst_NodeID r) (nst_IP r) (nst_PublicAddress r) v (nst_PvcSize r)
    (nst_DataUsage r) (nst_Validator r) (nst_AccountAddress r) (nst_ValidatorAddress r) (nst_Jailed r)
    (nst_GenesisSigningDigest r) (nst_AppVersion r) (nst_LatestHeight r) (nst_SeedMode r) (nst_Upgrades r)
    (nst_PubKey r) (nst_TmKMSReservationIdentity r) (nst_ValidatorStatus r) (nst_Cosmosigner r)
    (nst_SnapshotExports r).
Definition nst_with_Cosmosigner (r : ChainNodeStatus) (v : ChainNodeSignerStatus) : ChainNodeStatus :=
  mkChainNodeStatus (nst_Phase r) (nst_NodeID r) (nst_IP r) (nst_PublicAddress r) (nst_ChainID r)
    (nst_PvcSize r) (nst_DataUsage r) (nst_Validator r) (nst_AccountAddress r) (nst_ValidatorAddress r)
    (nst_Jailed r) (nst_GenesisSigningDigest r) (nst_AppVersion r) (nst_LatestHeight r) (nst_SeedMode r)
    (nst_Upgrades r) (nst_PubKey r) (nst_TmKMSReservationIdentity r) (nst_ValidatorStatus r) v
    (nst_SnapshotExports r).
Definition nst_with_SnapshotExports (r : ChainNodeStatus) (v : list SnapshotExportStatus) : ChainNodeStatus :=
  mkChainNodeStatus (nst_Phase r) (nst_NodeID r) (nst_IP r) (nst_PublicAddress r) (nst_ChainID r)
    (nst_PvcSize r) (nst_DataUsage r) (nst_Validator r) (nst_AccountAddress r) (nst_ValidatorAddress r)
    (nst_Jailed r) (nst_GenesisSigningDigest r) (nst_AppVersion r) (nst_LatestHeight r) (nst_SeedMode r)
    (nst_Upgrades r) (nst_PubKey r) (nst_TmKMSReservationIdentity r) (nst_ValidatorStatus r)
    (nst_Cosmosigner r) v.
Definition nst_with_DataUsage (r : ChainNodeStatus) (v : string) : ChainNodeStatus :=
  mkChainNodeStatus (nst_Phase r) (nst_NodeID r) (nst_IP r) (nst_PublicAddress r) (nst_ChainID r)
    (nst_PvcSize r) v (nst_Validator r) (nst_AccountAddress r) (nst_ValidatorAddress r) (nst_Jailed r)
    (nst_GenesisSigningDigest r) (nst_AppVersion r) (nst_LatestHeight r) (nst_SeedMode r) (nst_Upgrades r)
    (nst_PubKey r) (nst_TmKMSReservationIdentity r) (nst_ValidatorStatus r) (nst_Cosmosigner r)
    (nst_SnapshotExports r).
Definition nst_with_PvcSize (r : ChainNodeStatus) (v : string) : ChainNodeStatus :=
  mkChainNodeStatus (nst_Phase r) (nst_NodeID r) (nst_IP r) (nst_PublicAddress r) (nst_ChainID r) v
    (nst_DataUsage r) (nst_Validator r) (nst_AccountAddress r) (nst_ValidatorAddress r) (nst_Jailed r)
    (nst_GenesisSigningDigest r) (nst_AppVersion r) (nst_LatestHeight r) (nst_SeedMode r) (nst_Upgrades r)
    (nst_PubKey r) (nst_TmKMSReservationIdentity r) (nst_ValidatorStatus r) (nst_Cosmosigner r)
    (nst_SnapshotExports r).
Definition nst_with_TmKMSReservationIdentity (r : ChainNodeStatus) (v : string) : ChainNodeStatus :=
  mkChainNodeStatus (nst_Phase r) (nst_NodeID r) (nst_IP r) (nst_PublicAddress r) (nst_ChainID r)
    (nst_PvcSize r) (nst_DataUsage r) (nst_Validator r) (nst_AccountAddress r) (nst_ValidatorAddress r)
    (nst_Jailed r) (nst_GenesisSigningDigest r) (nst_AppVersion r) (nst_LatestHeight r) (nst_SeedMode r)
    (nst_Upgrades r) (nst_PubKey r) v (nst_ValidatorStatus r) (nst_Cosmosigner r) (nst_SnapshotExports r).
Definition nst_CosmosignerPublicKey (st : ChainNodeStatus) : string := css_PublicKey (nst_Cosmosigner st).
Definition nst_CosmosignerAtEstablishment (st : ChainNodeStatus) : option string :=
  css_AtEstablishment (nst_Cosmosigner st).
Definition no_signer_status : ChainNodeSignerStatus := mkSignerStatus "" "" "" None "" "" None None "" None None "".

Record ChainNode := mkChainNode {
  cn_meta : ObjectMeta;
  cn_Spec : ChainNodeSpec;
  cn_Status : ChainNodeStatus;
}.
Definition cn_Signer (n : ChainNode) : ChainNodeSignerStatus := nst_Cosmosigner (cn_Status n).
Definition with_signer_status (n : ChainNode) (cs : ChainNodeSignerStatus) : ChainNode :=
  mkChainNode (cn_meta n) (cn_Spec n) (nst_with_Cosmosigner (cn_Status n) cs).
Definition cn_Name (n : ChainNode) : string := meta_Name (cn_meta n).
Definition cn_Namespace (n : ChainNode) : string := meta_Namespace (cn_meta n).
Definition cn_UID (n : ChainNode) : string := meta_UID (cn_meta n).

(** ** ChainNodeSet *)

Record NodeSetValidatorConfig := mkNodeSetValidator {
  nv_PrivateKeySecret : option string;
  nv_Info : option ValidatorInfo;
  nv_Init : option GenesisInitConfig;
  nv_Config : option Config;
  nv_Persistence : option Persistence;
  nv_Resources : ResourceRequirements;
  nv_NodeSelector : gmap string string;
  nv_Affinity : option opaque;
  nv_TmKMS : option TmKMS;
  nv_StateSyncRestore : option bool;
  nv_StateSyncResources : ResourceRequirements;
  nv_CreateValidator : option CreateValidatorConfig;
  nv_VPA : option VerticalAutoscalingConfig;
  nv_PDB : option PdbConfig;
  nv_OverrideVersion : option string;
  nv_AccountHDPath : option string;
  nv_AccountPrefix : option string;
  nv_ValPrefix : option string;
}.
Definition newNodeSetValidator : NodeSetValidatorConfig :=
  mkNodeSetValidator None None None None None no_resources ∅ None None None no_resources None None None None None None
    None.
Definition nv_with_PrivateKeySecret (r : NodeSetValidatorConfig) (v : option string) : NodeSetValidatorConfig :=
  mkNodeSetValidator v (nv_Info r) (nv_Init r) (nv_Config r) (nv_Persistence r) (nv_Resources r)
    (nv_NodeSelector r) (nv_Affinity r) (nv_TmKMS r) (nv_StateSyncRestore r) (nv_StateSyncResources r)
    (nv_CreateValidator r) (nv_VPA r) (nv_PDB r) (nv_OverrideVersion r) (nv_AccountHDPath r)
    (nv_AccountPrefix r) (nv_ValPrefix r).
Definition nv_with_Init (r : NodeSetValidatorConfig) (v : option GenesisInitConfig) : NodeSetValidatorConfig :=
  mkNodeSetValidator (nv_PrivateKeySecret r) (nv_Info r) v (nv_Config r) (nv_Persistence r) (nv_Resources r)
    (nv_NodeSelector r) (nv_Affinity r) (nv_TmKMS r) (nv_StateSyncRestore r) (nv_StateSyncResources r)
    (nv_CreateValidator r) (nv_VPA r) (nv_PDB r) (nv_OverrideVersion r) (nv_AccountHDPath r)
    (nv_AccountPrefix r) (nv_ValPrefix r).

Record NodeGroupSpec := mkNodeGroup {
  ng_Name : string;
  ng_Instances : option Z;
  ng_Config : option Config;
  ng_Validator : option NodeSetValidatorConfig;
  ng_Cosmosigner : option Cosmosigner;
  ng_Persistence : option Persistence;
  ng_Peers : list Peer;
  ng_Expose : option ExposeConfig;
  ng_IndividualIngresses : option IngressConfig;
  ng_IndividualGatewayRoutes : option GatewayConfig;
  ng_Resources : ResourceRequirements;
  ng_NodeSelector : gmap string string;
  ng_Affinity : option opaque;
  ng_StateSyncRestore : option bool;
  ng_StateSyncResources : ResourceRequirements;
  ng_InheritValidatorGasPrice : option bool;
  ng_IgnoreGroupOnDisruptionChecks : option bool;
  ng_VPA : option VerticalAutoscalingConfig;
  ng_PDB : option PdbConfig;
  ng_SnapshotNodeIndex : option Z;
  ng_OverrideVersion : option string;
}.
Definition newNodeGroup (name : string) : NodeGroupSpec :=
  mkNodeGroup name None None None None None [] None None None no_resources ∅ None None no_resources None None None None
    None None.
Definition ng_with_Instances (r : NodeGroupSpec) (v : option Z) : NodeGroupSpec :=
  mkNodeGroup (ng_Name r) v (ng_Config r) (ng_Validator r) (ng_Cosmosigner r) (ng_Persistence r) (ng_Peers
    r) (ng_Expose r) (ng_IndividualIngresses r) (ng_IndividualGatewayRoutes r) (ng_Resources r)
    (ng_NodeSelector r) (ng_Affinity r) (ng_StateSyncRestore r) (ng_StateSyncResources r)
    (ng_InheritValidatorGasPrice r) (ng_IgnoreGroupOnDisruptionChecks r) (ng_VPA r) (ng_PDB r)
    (ng_SnapshotNodeIndex r) (ng_OverrideVersion r).
Definition ng_with_Validator (r : NodeGroupSpec) (v : option NodeSetValidatorConfig) : NodeGroupSpec :=
  mkNodeGroup (ng_Name r) (ng_Instances r) (ng_Config r) v (ng_Cosmosigner r) (ng_Persistence r) (ng_Peers
    r) (ng_Expose r) (ng_IndividualIngresses r) (ng_IndividualGatewayRoutes r) (ng_Resources r)
    (ng_NodeSelector r) (ng_Affinity r) (ng_StateSyncRestore r) (ng_StateSyncResources r)
    (ng_InheritValidatorGasPrice r) (ng_IgnoreGroupOnDisruptionChecks r) (ng_VPA r) (ng_PDB r)
    (ng_SnapshotNodeIndex r) (ng_OverrideVersion r).
Definition ng_with_Cosmosigner (r : NodeGroupSpec) (v : option Cosmosigner) : NodeGroupSpec :=
  mkNodeGroup (ng_Name r) (ng_Instances r) (ng_Config r) (ng_Validator r) v (ng_Persistence r) (ng_Peers r)
    (ng_Expose r) (ng_IndividualIngresses r) (ng_IndividualGatewayRoutes r) (ng_Resources r)
    (ng_NodeSelector r) (ng_Affinity r) (ng_StateSyncRestore r) (ng_StateSyncResources r)
    (ng_InheritValidatorGasPrice r) (ng_IgnoreGroupOnDisruptionChecks r) (ng_VPA r) (ng_PDB r)
    (ng_SnapshotNodeIndex r) (ng_OverrideVersion r).

Record GlobalIngressConfig := mkGlobalIngress {
  gin_Name : string;
  gin_Groups : list string;
  gin_Enable : EnabledEndpoints;
  gin_Host : string;
  gin_Subdomains : option SubdomainsConfig;
  gin_Annotations : gmap string string;
  gin_DisableTLS : bool;
  gin_TlsSecretName : option string;
  gin_GrpcAnnotations : option (gmap string string);
  gin_IngressClass : option string;
  gin_UseInternalServices : option bool;
  gin_ServicesOnly : option bool;
}.
Record GlobalGatewayConfig := mkGlobalGateway {
  gg_Name : string;
  gg_Groups : list string;
  gg_Gateway : GatewayRef;
  gg_Host : string;
  gg_Subdomains : option SubdomainsConfig;
  gg_Enable : EnabledEndpoints;
  gg_UseInternalServices : option bool;
  gg_ServicesOnly : option bool;
}.

Record CosmoseedIngressConfig := mkSeedIngress {
  si_Host : string;
  si_Annotations : gmap string string;
  si_DisableTLS : bool;
  si_TlsSecretName : option string;
  si_IngressClass : option string;
}.
Record CosmoseedConfig := mkCosmoseed {
  cm_Enabled : option bool;
  cm_Instances : option Z;
  cm_Expose : option ExposeConfig;
  cm_Resources : ResourceRequirements;
  cm_AllowNonRoutable : option bool;
  cm_MaxInboundPeers : option Z;
  cm_MaxOutboundPeers : option Z;
  cm_PeerQueueSize : option Z;
  cm_DialWorkers : option Z;
  cm_MaxPacketMsgPayloadSize : option Z;
  cm_AdditionalSeeds : option string;
  cm_LogLevel : option string;
  cm_Ingress : option CosmoseedIngressConfig;
  cm_Gateway : option (GatewayRef * string);
}.

Record ChainNodeSetSpec := mkChainNodeSetSpec {
  ss_App : AppSpec;
  ss_Genesis : option GenesisConfig;
  ss_DeletionPolicy : option DeletionPolicy;
  ss_Validator : option NodeSetValidatorConfig;
  ss_Nodes : list NodeGroupSpec;
  ss_Ingresses : list GlobalIngressConfig;
  ss_GatewayRoutes : list GlobalGatewayConfig;
  ss_Cosmoseed : option CosmoseedConfig;
  ss_Cosmosigner : option Cosmosigner;
}.
Definition newChainNodeSetSpec (app : AppSpec) (validator : option NodeSetValidatorConfig) (nodes : list NodeGroupSpec)
    (signer : option Cosmosigner) : ChainNodeSetSpec :=
  mkChainNodeSetSpec app None None validator nodes [] [] None signer.

Record ChainNodeSetNodeStatus := mkNodeStatus {
  nn_Name : string;
  nn_UID : string;
  nn_Public : bool;
  nn_Seed : bool;
  nn_ID : string;
  nn_Address : string;
  nn_PublicAddress : string;
  nn_PublicPort : Z;
  nn_Port : Z;
  nn_Group : string;
}.

Record ChainNodeSetValidatorStatus := mkValidatorStatus {
  vst_Name : string;
  vst_UID : string;
  vst_Group : string;
  vst_Address : string;
  vst_Status : string;
  vst_PubKey : string;
  vst_Init : bool;
  vst_SigningKeyDigest : string;
}.

Inductive ChainNodeSetPhase := PhaseChainNodeSetNone | PhaseChainNodeSetRunning | PhaseChainNodeSetInitializing.
#[export] Instance ChainNodeSetPhase_eq_dec : EqDecision ChainNodeSetPhase.
Proof. solve_decision. Defined.

Record SeedStatus := mkSeedStatus { sds_Name : string; sds_ID : string; sds_PublicAddress : string }.

(** [sst_GenesisInitGenerated] is a [*bool]; the [Legacy*] fields are names with
    the flag that they were recorded. *)
Record ChainNodeSetStatus := mkChainNodeSetStatus {
  sst_ChainID : string;
  sst_GenesisInitGenerated : option bool;
  sst_Nodes : list ChainNodeSetNodeStatus;
  sst_Validators : list ChainNodeSetValidatorStatus;
  sst_ValidatorAddress : string;
  sst_ValidatorStatus : string;
  sst_PubKey : string;
  sst_Upgrades : list Upgrade;
  sst_LatestHeight : Z;
  sst_Cosmosigners : list CosmosignerStatus;
  sst_LegacySignerServiceNames : list string;
  sst_LegacySignerServiceNamesInitialized : bool;
  sst_LegacyReservedChildGroupNames : list string;
  sst_LegacyReservedChildGroupNamesInitialized : bool;
  sst_LegacyServiceNameCollisions : list string;
  sst_LegacyServiceNameCollisionsInitialized : bool;
  sst_LegacyIngressNameCollisions : list string;
  sst_LegacyIngressNameCollisionsInitialized : bool;
  sst_Phase : ChainNodeSetPhase;
  sst_Instances : Z;
  sst_ReadyInstances : Z;
  sst_AppVersion : string;
  sst_Seeds : list SeedStatus;
}.
Definition newChainNodeSetStatus (chainID : string) (upgrades : list Upgrade) (height : Z)
    (signers : list CosmosignerStatus) : ChainNodeSetStatus :=
  mkChainNodeSetStatus chainID None [] [] "" "" "" upgrades height signers [] false [] false [] false [] false
    PhaseChainNodeSetNone 0 0 "" [].
Definition sst_with_ChainID (r : ChainNodeSetStatus) (v : string) : ChainNodeSetStatus :=
  mkChainNodeSetStatus v (sst_GenesisInitGenerated r) (sst_Nodes r) (sst_Validators r) (sst_ValidatorAddress r)
    (sst_ValidatorStatus r) (sst_PubKey r) (sst_Upgrades r) (sst_LatestHeight r) (sst_Cosmosigners r)
    (sst_LegacySignerServiceNames r) (sst_LegacySignerServiceNamesInitialized r)
    (sst_LegacyReservedChildGroupNames r) (sst_LegacyReservedChildGroupNamesInitialized r)
    (sst_LegacyServiceNameCollisions r) (sst_LegacyServiceNameCollisionsInitialized r)
    (sst_LegacyIngressNameCollisions r) (sst_LegacyIngressNameCollisionsInitialized r) (sst_Phase r)
    (sst_Instances r) (sst_ReadyInstances r) (sst_AppVersion r) (sst_Seeds r).
Definition sst_with_GenesisInitGenerated (r : ChainNodeSetStatus) (v : option bool) : ChainNodeSetStatus :=
  mkChainNodeSetStatus (sst_ChainID r) v (sst_Nodes r) (sst_Validators r) (sst_ValidatorAddress r)
    (sst_ValidatorStatus r) (sst_PubKey r) (sst_Upgrades r) (sst_LatestHeight r) (sst_Cosmosigners r)
    (sst_LegacySignerServiceNames r) (sst_LegacySignerServiceNamesInitialized r)
    (sst_LegacyReservedChildGroupNames r) (sst_LegacyReservedChildGroupNamesInitialized r)
    (sst_LegacyServiceNameCollisions r) (sst_LegacyServiceNameCollisionsInitialized r)
    (sst_LegacyIngressNameCollisions r) (sst_LegacyIngressNameCollisionsInitialized r) (sst_Phase r)
    (sst_Instances r) (sst_ReadyInstances r) (sst_AppVersion r) (sst_Seeds r).
Definition sst_with_Nodes (r : ChainNodeSetStatus) (v : list ChainNodeSetNodeStatus) : ChainNodeSetStatus :=
  mkChainNodeSetStatus (sst_ChainID r) (sst_GenesisInitGenerated r) v (sst_Validators r)
    (sst_ValidatorAddress r) (sst_ValidatorStatus r) (sst_PubKey r) (sst_Upgrades r) (sst_LatestHeight r)
    (sst_Cosmosigners r) (sst_LegacySignerServiceNames r) (sst_LegacySignerServiceNamesInitialized r)
    (sst_LegacyReservedChildGroupNames r) (sst_LegacyReservedChildGroupNamesInitialized r)
    (sst_LegacyServiceNameCollisions r) (sst_LegacyServiceNameCollisionsInitialized r)
    (sst_LegacyIngressNameCollisions r) (sst_LegacyIngressNameCollisionsInitialized r) (sst_Phase r)
    (sst_Instances r) (sst_ReadyInstances r) (sst_AppVersion r) (sst_Seeds r).
Definition sst_with_Validators (r : ChainNodeSetStatus) (v : list ChainNodeSetValidatorStatus) : ChainNodeSetStatus :=
  mkChainNodeSetStatus (sst_ChainID r) (sst_GenesisInitGenerated r) (sst_Nodes r) v (sst_ValidatorAddress r)
    (sst_ValidatorStatus r) (sst_PubKey r) (sst_Upgrades r) (sst_LatestHeight r) (sst_Cosmosigners r)
    (sst_LegacySignerServiceNames r) (sst_LegacySignerServiceNamesInitialized r)
    (sst_LegacyReservedChildGroupNames r) (sst_LegacyReservedChildGroupNamesInitialized r)
    (sst_LegacyServiceNameCollisions r) (sst_LegacyServiceNameCollisionsInitialized r)
    (sst_LegacyIngressNameCollisions r) (sst_LegacyIngressNameCollisionsInitialized r) (sst_Phase r)
    (sst_Instances r) (sst_ReadyInstances r) (sst_AppVersion r) (sst_Seeds r).
Definition sst_with_Cosmosigners (r : ChainNodeSetStatus) (v : list CosmosignerStatus) : ChainNodeSetStatus :=
  mkChainNodeSetStatus (sst_ChainID r) (sst_GenesisInitGenerated r) (sst_Nodes r) (sst_Validators r)
    (sst_ValidatorAddress r) (sst_ValidatorStatus r) (sst_PubKey r) (sst_Upgrades r) (sst_LatestHeight r) v
    (sst_LegacySignerServiceNames r) (sst_LegacySignerServiceNamesInitialized r)
    (sst_LegacyReservedChildGroupNames r) (sst_LegacyReservedChildGroupNamesInitialized r)
    (sst_LegacyServiceNameCollisions r) (sst_LegacyServiceNameCollisionsInitialized r)
    (sst_LegacyIngressNameCollisions r) (sst_LegacyIngressNameCollisionsInitialized r) (sst_Phase r)
    (sst_Instances r) (sst_ReadyInstances r) (sst_AppVersion r) (sst_Seeds r).
Definition sst_with_Upgrades (r : ChainNodeSetStatus) (v : list Upgrade) : ChainNodeSetStatus :=
  mkChainNodeSetStatus (sst_ChainID r) (sst_GenesisInitGenerated r) (sst_Nodes r) (sst_Validators r)
    (sst_ValidatorAddress r) (sst_ValidatorStatus r) (sst_PubKey r) v (sst_LatestHeight r) (sst_Cosmosigners r)
    (sst_LegacySignerServiceNames r) (sst_LegacySignerServiceNamesInitialized r)
    (sst_LegacyReservedChildGroupNames r) (sst_LegacyReservedChildGroupNamesInitialized r)
    (sst_LegacyServiceNameCollisions r) (sst_LegacyServiceNameCollisionsInitialized r)
    (sst_LegacyIngressNameCollisions r) (sst_LegacyIngressNameCollisionsInitialized r) (sst_Phase r)
    (sst_Instances r) (sst_ReadyInstances r) (sst_AppVersion r) (sst_Seeds r).
Definition sst_with_LatestHeight (r : ChainNodeSetStatus) (v : Z) : ChainNodeSetStatus :=
  mkChainNodeSetStatus (sst_ChainID r) (sst_GenesisInitGenerated r) (sst_Nodes r) (sst_Validators r)
    (sst_ValidatorAddress r) (sst_ValidatorStatus r) (sst_PubKey r) (sst_Upgrades r) v (sst_Cosmosigners r)
    (sst_LegacySignerServiceNames r) (sst_LegacySignerServiceNamesInitialized r)
    (sst_LegacyReservedChildGroupNames r) (sst_LegacyReservedChildGroupNamesInitialized r)
    (sst_LegacyServiceNameCollisions r) (sst_LegacyServiceNameCollisionsInitialized r)
    (sst_LegacyIngressNameCollisions r) (sst_LegacyIngressNameCollisionsInitialized r) (sst_Phase r)
    (sst_Instances r) (sst_ReadyInstances r) (sst_AppVersion r) (sst_Seeds r).
Definition sst_with_Phase (r : ChainNodeSetStatus) (v : ChainNodeSetPhase) : ChainNodeSetStatus :=
  mkChainNodeSetStatus (sst_ChainID r) (sst_GenesisInitGenerated r) (sst_Nodes r) (sst_Validators r)
    (sst_ValidatorAddress r) (sst_ValidatorStatus r) (sst_PubKey r) (sst_Upgrades r) (sst_LatestHeight r)
    (sst_Cosmosigners r) (sst_LegacySignerServiceNames r) (sst_LegacySignerServiceNamesInitialized r)
    (sst_LegacyReservedChildGroupNames r) (sst_LegacyReservedChildGroupNamesInitialized r)
    (sst_LegacyServiceNameCollisions r) (sst_LegacyServiceNameCollisionsInitialized r)
    (sst_LegacyIngressNameCollisions r) (sst_LegacyIngressNameCollisionsInitialized r) v (sst_Instances r)
    (sst_ReadyInstances r) (sst_AppVersion r) (sst_Seeds r).
Definition sst_with_Instances (r : ChainNodeSetStatus) (v : Z) : ChainNodeSetStatus :=
  mkChainNodeSetStatus (sst_ChainID r) (sst_GenesisInitGenerated r) (sst_Nodes r) (sst_Validators r)
    (sst_ValidatorAddress r) (sst_ValidatorStatus r) (sst_PubKey r) (sst_Upgrades r) (sst_LatestHeight r)
    (sst_Cosmosigners r) (sst_LegacySignerServiceNames r) (sst_LegacySignerServiceNamesInitialized r)
    (sst_LegacyReservedChildGroupNames r) (sst_LegacyReservedChildGroupNamesInitialized r)
    (sst_LegacyServiceNameCollisions r) (sst_LegacyServiceNameCollisionsInitialized r)
    (sst_LegacyIngressNameCollisions r) (sst_LegacyIngressNameCollisionsInitialized r) (sst_Phase r) v
    (sst_ReadyInstances r) (sst_AppVersion r) (sst_Seeds r).
Definition sst_with_ReadyInstances (r : ChainNodeSetStatus) (v : Z) : ChainNodeSetStatus :=
  mkChainNodeSetStatus (sst_ChainID r) (sst_GenesisInitGenerated r) (sst_Nodes r) (sst_Validators r)
    (sst_ValidatorAddress r) (sst_ValidatorStatus r) (sst_PubKey r) (sst_Upgrades r) (sst_LatestHeight r)
    (sst_Cosmosigners r) (sst_LegacySignerServiceNames r) (sst_LegacySignerServiceNamesInitialized r)
    (sst_LegacyReservedChildGroupNames r) (sst_LegacyReservedChildGroupNamesInitialized r)
    (sst_LegacyServiceNameCollisions r) (sst_LegacyServiceNameCollisionsInitialized r)
    (sst_LegacyIngressNameCollisions r) (sst_LegacyIngressNameCollisionsInitialized r) (sst_Phase r)
    (sst_Instances r) v (sst_AppVersion r) (sst_Seeds r).
Definition sst_with_AppVersion (r : ChainNodeSetStatus) (v : string) : ChainNodeSetStatus :=
  mkChainNodeSetStatus (sst_ChainID r) (sst_GenesisInitGenerated r) (sst_Nodes r) (sst_Validators r)
    (sst_ValidatorAddress r) (sst_ValidatorStatus r) (sst_PubKey r) (sst_Upgrades r) (sst_LatestHeight r)
    (sst_Cosmosigners r) (sst_LegacySignerServiceNames r) (sst_LegacySignerServiceNamesInitialized r)
    (sst_LegacyReservedChildGroupNames r) (sst_LegacyReservedChildGroupNamesInitialized r)
    (sst_LegacyServiceNameCollisions r) (sst_LegacyServiceNameCollisionsInitialized r)
    (sst_LegacyIngressNameCollisions r) (sst_LegacyIngressNameCollisionsInitialized r) (sst_Phase r)
    (sst_Instances r) (sst_ReadyInstances r) v (sst_Seeds r).
Definition sst_with_Seeds (r : ChainNodeSetStatus) (v : list SeedStatus) : ChainNodeSetStatus :=
  mkChainNodeSetStatus (sst_ChainID r) (sst_GenesisInitGenerated r) (sst_Nodes r) (sst_Validators r)
    (sst_ValidatorAddress r) (sst_ValidatorStatus r) (sst_PubKey r) (sst_Upgrades r) (sst_LatestHeight r)
    (sst_Cosmosigners r) (sst_LegacySignerServiceNames r) (sst_LegacySignerServiceNamesInitialized r)
    (sst_LegacyReservedChildGroupNames r) (sst_LegacyReservedChildGroupNamesInitialized r)
    (sst_LegacyServiceNameCollisions r) (sst_LegacyServiceNameCollisionsInitialized r)
    (sst_LegacyIngressNameCollisions r) (sst_LegacyIngressNameCollisionsInitialized r) (sst_Phase r)
    (sst_Instances r) (sst_ReadyInstances r) (sst_AppVersion r) v.
(** The fields that alias the first validator. *)
Definition sst_with_alias (r : ChainNodeSetStatus) (address status pubKey : string) : ChainNodeSetStatus :=
  mkChainNodeSetStatus (sst_ChainID r) (sst_GenesisInitGenerated r) (sst_Nodes r) (sst_Validators r) address
    status pubKey (sst_Upgrades r) (sst_LatestHeight r) (sst_Cosmosigners r) (sst_LegacySignerServiceNames r)
    (sst_LegacySignerServiceNamesInitialized r) (sst_LegacyReservedChildGroupNames r)
    (sst_LegacyReservedChildGroupNamesInitialized r) (sst_LegacyServiceNameCollisions r)
    (sst_LegacyServiceNameCollisionsInitialized r) (sst_LegacyIngressNameCollisions r)
    (sst_LegacyIngressNameCollisionsInitialized r) (sst_Phase r) (sst_Instances r) (sst_ReadyInstances r)
    (sst_AppVersion r) (sst_Seeds r).

Record ChainNodeSet := mkChainNodeSet {
  cns_meta : ObjectMeta;
  cns_Spec : ChainNodeSetSpec;
  cns_Status : ChainNodeSetStatus;
}.
Definition cns_Name (s : ChainNodeSet) : string := meta_Name (cns_meta s).
Definition cns_Namespace (s : ChainNodeSet) : string := meta_Namespace (cns_meta s).
Definition cns_UID (s : ChainNodeSet) : string := meta_UID (cns_meta s).

(** ** Consensus-key reservations *)

Record ConsensusKeyReservationSpec := mkReservationSpec {
  rs_ChainID : string;
  rs_PublicKey : string;
  rs_OwnerUID : string;
  rs_OwnerKind : string;
  rs_Namespace : string;
  rs_OwnerName : string;
  rs_Claim : string;
}.

Record ConsensusKeyReservation := mkReservation {
  ckr_meta : ObjectMeta;
  ckr_Spec : ConsensusKeyReservationSpec;
}.
Definition ckr_Name (r : ConsensusKeyReservation) : string := meta_Name (ckr_meta r).
Definition ckr_UID (r : ConsensusKeyReservation) : string := meta_UID (ckr_meta r).
