(* ===== verification/ApiEquality.v ===== *)
(** * Equality of specifications and statuses

    [reflect.DeepEqual] on the API types, where the program compares objects to
    find out whether they need an update.  A quantity is compared by its
    serialised form, and an omitted slice is the empty one. *)

From S2P Require Import Prelude ThirdParty ApiTypes.

#[export] Instance SdkVersion_eq_dec : EqDecision SdkVersion.
Proof. solve_decision. Defined.
#[export] Instance SdkOptions_eq_dec : EqDecision SdkOptions.
Proof. solve_decision. Defined.
#[export] Instance UpgradeSpec_eq_dec : EqDecision UpgradeSpec.
Proof. solve_decision. Defined.
#[export] Instance AppSpec_eq_dec : EqDecision AppSpec.
Proof. solve_decision. Defined.
#[export] Instance VerticalAutoscalingRule_eq_dec : EqDecision VerticalAutoscalingRule.
Proof. solve_decision. Defined.
#[export] Instance VerticalAutoscalingMetricConfig_eq_dec : EqDecision VerticalAutoscalingMetricConfig.
Proof. solve_decision. Defined.
#[export] Instance VerticalAutoscalingConfig_eq_dec : EqDecision VerticalAutoscalingConfig.
Proof. solve_decision. Defined.
#[export] Instance SecretKeySelector_eq_dec : EqDecision SecretKeySelector.
Proof. solve_decision. Defined.
#[export] Instance ResourceRequirements_eq_dec : EqDecision ResourceRequirements.
Proof. solve_decision. Defined.
#[export] Instance CosmosignerSoftwareBackend_eq_dec : EqDecision CosmosignerSoftwareBackend.
Proof. solve_decision. Defined.
#[export] Instance CosmosignerVaultBackend_eq_dec : EqDecision CosmosignerVaultBackend.
Proof. solve_decision. Defined.
#[export] Instance CosmosignerGcpKmsImport_eq_dec : EqDecision CosmosignerGcpKmsImport.
Proof. solve_decision. Defined.
#[export] Instance CosmosignerGcpKmsBackend_eq_dec : EqDecision CosmosignerGcpKmsBackend.
Proof. solve_decision. Defined.
#[export] Instance CosmosignerBackend_eq_dec : EqDecision CosmosignerBackend.
Proof. solve_decision. Defined.
#[export] Instance Cosmosigner_eq_dec : EqDecision Cosmosigner.
Proof. solve_decision. Defined.
#[export] Instance CosmosignerMigrationStatus_eq_dec : EqDecision CosmosignerMigrationStatus.
Proof. solve_decision. Defined.
#[export] Instance CosmosignerStatus_eq_dec : EqDecision CosmosignerStatus.
Proof. solve_decision. Defined.
#[export] Instance TmKmsHashicorpProvider_eq_dec : EqDecision TmKmsHashicorpProvider.
Proof. solve_decision. Defined.
#[export] Instance TmKmsKeyFormat_eq_dec : EqDecision TmKmsKeyFormat.
Proof. solve_decision. Defined.
#[export] Instance TmKMS_eq_dec : EqDecision TmKMS.
Proof. solve_decision. Defined.
#[export] Instance ValidatorInfo_eq_dec : EqDecision ValidatorInfo.
Proof. solve_decision. Defined.
#[export] Instance AccountAssets_eq_dec : EqDecision AccountAssets.
Proof. solve_decision. Defined.
#[export] Instance ChainNodeAssets_eq_dec : EqDecision ChainNodeAssets.
Proof. solve_decision. Defined.
#[export] Instance GenesisValidator_eq_dec : EqDecision GenesisValidator.
Proof. solve_decision. Defined.
#[export] Instance InitCommand_eq_dec : EqDecision InitCommand.
Proof. solve_decision. Defined.
#[export] Instance GenesisInitConfig_eq_dec : EqDecision GenesisInitConfig.
Proof. solve_decision. Defined.
#[export] Instance CreateValidatorConfig_eq_dec : EqDecision CreateValidatorConfig.
Proof. solve_decision. Defined.
#[export] Instance FromNodeRPCConfig_eq_dec : EqDecision FromNodeRPCConfig.
Proof. solve_decision. Defined.
#[export] Instance GenesisConfig_eq_dec : EqDecision GenesisConfig.
Proof. solve_decision. Defined.
#[export] Instance ValidatorConfig_eq_dec : EqDecision ValidatorConfig.
Proof. solve_decision. Defined.
#[export] Instance GcsExportConfig_eq_dec : EqDecision GcsExportConfig.
Proof. solve_decision. Defined.
#[export] Instance S3ExportConfig_eq_dec : EqDecision S3ExportConfig.
Proof. solve_decision. Defined.
#[export] Instance ExportTarballConfig_eq_dec : EqDecision ExportTarballConfig.
Proof. solve_decision. Defined.
#[export] Instance VolumeSnapshotsConfig_eq_dec : EqDecision VolumeSnapshotsConfig.
Proof. solve_decision. Defined.
#[export] Instance VolumeSpec_eq_dec : EqDecision VolumeSpec.
Proof. solve_decision. Defined.
#[export] Instance Persistence_eq_dec : EqDecision Persistence.
Proof. solve_decision. Defined.
#[export] Instance DeletionPolicy_eq_dec : EqDecision DeletionPolicy.
Proof. solve_decision. Defined.
#[export] Instance GatewayRef_eq_dec : EqDecision GatewayRef.
Proof. solve_decision. Defined.
#[export] Instance CosmoGuardAutoscalingConfig_eq_dec : EqDecision CosmoGuardAutoscalingConfig.
Proof. solve_decision. Defined.
#[export] Instance CosmoGuardDashboardAuth_eq_dec : EqDecision CosmoGuardDashboardAuth.
Proof. solve_decision. Defined.
#[export] Instance CosmoGuardDashboardIngress_eq_dec : EqDecision CosmoGuardDashboardIngress.
Proof. solve_decision. Defined.
#[export] Instance CosmoGuardDashboardGateway_eq_dec : EqDecision CosmoGuardDashboardGateway.
Proof. solve_decision. Defined.
#[export] Instance CosmoGuardDashboardConfig_eq_dec : EqDecision CosmoGuardDashboardConfig.
Proof. solve_decision. Defined.
#[export] Instance CosmoGuardConfig_eq_dec : EqDecision CosmoGuardConfig.
Proof. solve_decision. Defined.
#[export] Instance StateSyncConfig_eq_dec : EqDecision StateSyncConfig.
Proof. solve_decision. Defined.
#[export] Instance SidecarSpec_eq_dec : EqDecision SidecarSpec.
Proof. solve_decision. Defined.
#[export] Instance Config_eq_dec : EqDecision Config.
Proof. solve_decision. Defined.
#[export] Instance Peer_eq_dec : EqDecision Peer.
Proof. solve_decision. Defined.
#[export] Instance ExposeGatewayConfig_eq_dec : EqDecision ExposeGatewayConfig.
Proof. solve_decision. Defined.
#[export] Instance ExposeConfig_eq_dec : EqDecision ExposeConfig.
Proof. solve_decision. Defined.
#[export] Instance SubdomainsConfig_eq_dec : EqDecision SubdomainsConfig.
Proof. solve_decision. Defined.
#[export] Instance EnabledEndpoints_eq_dec : EqDecision EnabledEndpoints.
Proof. solve_decision. Defined.
#[export] Instance IngressConfig_eq_dec : EqDecision IngressConfig.
Proof. solve_decision. Defined.
#[export] Instance GatewayConfig_eq_dec : EqDecision GatewayConfig.
Proof. solve_decision. Defined.
#[export] Instance ChainNodeSpec_eq_dec : EqDecision ChainNodeSpec.
Proof. solve_decision. Defined.
#[export] Instance SeedStatus_eq_dec : EqDecision SeedStatus.
Proof. solve_decision. Defined.
#[export] Instance ChainNodeSetNodeStatus_eq_dec : EqDecision ChainNodeSetNodeStatus.
Proof. solve_decision. Defined.
#[export] Instance ChainNodeSetValidatorStatus_eq_dec : EqDecision ChainNodeSetValidatorStatus.
Proof. solve_decision. Defined.
#[export] Instance ChainNodeSetStatus_eq_dec : EqDecision ChainNodeSetStatus.
Proof. solve_decision. Defined.
