(* ===== verification/KubeApi.v ===== *)
(** * The Kubernetes objects and API requests of the signer controllers

    The workloads a controller inspects, the requests it sends through
    controller-runtime's client and the answers it may get.  What the API
    server does with them is not code of this repository: it is the abstract
    [server] relation of [IO], constrained by the laws of [ApiServer]. *)

From S2P Require Import Prelude IO ThirdParty ApiTypes.

Record PersistentVolumeClaim := mkPVC {
  pvc_meta : ObjectMeta;
  pvc_StorageClassName : option string;
  pvc_StorageRequest : option Quantity;
  pvc_VolumeName : string;
  pvc_Phase : string;
}.

(** [rp_WhenDeleted] and [rp_WhenScaled] hold the policy type name. *)
Record PVCRetentionPolicy := mkRetention { rp_WhenDeleted : string; rp_WhenScaled : string }.

(** *** Pod specifications, as far as the program renders or reads them *)

Record PodSecurityContext := mkPodSecurity {
  psc_RunAsNonRoot : option bool;
  psc_RunAsUser : option Z;
  psc_RunAsGroup : option Z;
  psc_FSGroup : option Z;
  psc_SeccompProfile : option string;
}.
Record SecurityContext := mkSecurity {
  sc_AllowPrivilegeEscalation : option bool;
  sc_RunAsNonRoot : option bool;
  sc_RunAsUser : option Z;
  sc_RunAsGroup : option Z;
  sc_SeccompProfile : option string;
  sc_DropCapabilities : list string;
}.

(** A projected key of a secret and the path it is mounted at. *)
Record KeyToPath := mkKeyToPath { kp_Key : string; kp_Path : string }.
Inductive VolumeSource :=
  | ConfigMapSource (name : string)
  | SecretSource (name : string) (items : list KeyToPath)
  | ClaimSource (claim : string)
  | EmptyDirSource
  | OtherSource.
Record Volume := mkVolume { vol_Name : string; vol_Source : VolumeSource }.
Record VolumeMount := mkVolumeMount {
  vm_Name : string;
  vm_ReadOnly : bool;
  vm_MountPath : string;
  vm_SubPath : string;
  vm_SubPathExpr : string;
}.
Inductive EnvSource := EnvValue (v : string) | EnvFieldRef (path : string).
Record EnvVar := mkEnvVar { env_Name : string; env_Source : EnvSource }.
(** The field [Value], empty when the variable comes from elsewhere. *)
Definition env_Value (e : EnvVar) : string := match env_Source e with EnvValue v => v | EnvFieldRef _ => "" end.

(** A probe connects to a TCP port or requests a path. *)
Inductive ProbeHandler := TcpSocket (port : Z) | HttpGet (path : string) (port : Z) (scheme : string).
Record Probe := mkProbe {
  prb_Handler : ProbeHandler;
  prb_FailureThreshold : Z;
  prb_PeriodSeconds : Z;
  prb_TimeoutSeconds : Z;
}.
Record ContainerPort := mkContainerPort { ctp_Name : string; ctp_Port : Z; ctp_Protocol : string }.

Record Container := mkContainer {
  ct_Name : string;
  ct_Image : string;
  ct_ImagePullPolicy : string;
  ct_Security : option SecurityContext;
  ct_Command : list string;
  ct_Args : list string;
  ct_Env : list EnvVar;
  ct_Ports : list ContainerPort;
  ct_Mounts : list VolumeMount;
  ct_Resources : ResourceRequirements;
  ct_StartupProbe : option Probe;
  ct_LivenessProbe : option Probe;
}.

Record PodSpec := mkPodSpec {
  psp_RestartPolicy : string;
  psp_ActiveDeadlineSeconds : option Z;
  psp_Security : option PodSecurityContext;
  psp_ServiceAccountName : string;
  psp_ImagePullSecrets : list string;
  psp_InitContainers : list Container;
  psp_Containers : list Container;
  psp_Volumes : list Volume;
}.
Definition empty_pod_spec : PodSpec := mkPodSpec "" None None "" [] [] [] [].

(** [sts_Selector] holds the match labels. *)
Record StatefulSet := mkStatefulSet {
  sts_meta : ObjectMeta;
  sts_Generation : Z;
  sts_Replicas : option Z;
  sts_Selector : gmap string string;
  sts_ServiceName : string;
  sts_PodManagementPolicy : string;
  sts_UpdateStrategy : string;
  sts_PodSpec : PodSpec;
  sts_TemplateLabels : gmap string string;
  sts_VolumeClaimTemplates : list PersistentVolumeClaim;
  sts_Retention : option PVCRetentionPolicy;
  sts_StatusObservedGeneration : Z;
  sts_StatusReplicas : Z;
  sts_StatusUpdatedReplicas : Z;
  sts_StatusReadyReplicas : Z;
}.
Definition sts_Name (s : StatefulSet) : string := meta_Name (sts_meta s).

Record Job := mkJob { job_meta : ObjectMeta }.
Definition job_Name (j : Job) : string := meta_Name (job_meta j).

(** [cst_Running] says whether [State.Running] is set, [cst_ExitCode] is that of
    [State.Terminated] and [cst_LastTerminated] the reason of
    [LastTerminationState.Terminated]. *)
Record ContainerStatus := mkContainerStatus {
  cst_Name : string;
  cst_Ready : bool;
  cst_Started : option bool;
  cst_Running : bool;
  cst_ExitCode : option Z;
  cst_LastTerminated : option string;
}.

(** A pod condition is its type and its status. *)
Record PodStatus := mkPodStatus {
  ps_Phase : string;
  ps_Conditions : list (string * string);
  ps_ContainerStatuses : list ContainerStatus;
  ps_InitContainerStatuses : list ContainerStatus;
}.

Record Pod := mkPod { pod_meta : ObjectMeta; pod_Status : PodStatus; pod_Spec : PodSpec }.
(** Its volumes: the name of the claim, or [None] when the volume has another source. *)
Definition pod_Volumes (p : Pod) : list (option string) :=
  map (λ v, match vol_Source v with ClaimSource c => Some c | _ => None end) (psp_Volumes (pod_Spec p)).
Definition pod_Name (p : Pod) : string := meta_Name (pod_meta p).
Definition pod_label (p : Pod) (k : string) : string := get_label (meta_Labels (pod_meta p)) k.

(** What a config map, a service, a network policy or another object carries besides
    its metadata. *)
Record ServicePort := mkServicePort { svp_Name : string; svp_Protocol : string; svp_Port : Z; svp_TargetPort : Z }.
Inductive Content :=
  | NoContent
  | ConfigData (data : gmap string string)
  | ServiceContent (publishNotReady : bool) (selector : gmap string string) (ports : list ServicePort)
  (** Ingress to the pods with the first labels, from those with the second, to a port. *)
  | PolicyContent (pods from : gmap string string) (port : Z) (protocol : string).

(** A config map, service, network policy, service account or endpoints object.
    [ob_ClusterIP] is set for services. *)
Record KubeObject := mkObject {
  ob_Kind : string;
  ob_meta : ObjectMeta;
  ob_ClusterIP : string;
  ob_Content : Content;
}.

(** An [intstr.IntOrString]. *)
Inductive IntOrString := IntVal (z : Z) | StrVal (s : string).
#[export] Instance IntOrString_eq_dec : EqDecision IntOrString.
Proof. solve_decision. Defined.

(** The selector of a budget: its match labels and its expressions. *)
Record LabelSelector := mkSelector { ls_MatchLabels : gmap string string; ls_MatchExpressions : list string }.
#[export] Instance LabelSelector_eq_dec : EqDecision LabelSelector.
Proof. solve_decision. Defined.

Record PodDisruptionBudget := mkPDB {
  pb_meta : ObjectMeta;
  pb_MinAvailable : option IntOrString;
  pb_MaxUnavailable : option IntOrString;
  pb_Selector : option LabelSelector;
}.
Definition pb_Name (p : PodDisruptionBudget) : string := meta_Name (pb_meta p).

Record Secret := mkSecret { secret_meta : ObjectMeta; secret_Immutable : option bool; secret_Data : gmap string string }.

(** What a watch of one pod, started with an initial listing, delivers before its
    context ends: the synced store unless the listing never came through, the events in
    order and the error of the end. *)
Inductive WatchEvent := WatchAdded (p : Pod) | WatchModified (p : Pod) | WatchDeleted (p : Pod) | WatchFailed.
Record Watched := mkWatched { w_Synced : option (list Pod); w_Events : list WatchEvent; w_End : error }.

(** What an informer of nodes delivers to its handlers until the caller stops it, in
    order.  [NodeUndecodable] is an object of another type or one that does not convert. *)
Inductive NodeEvent := NodeObserved (n : ChainNode) | NodeRemoved (n : ChainNode) | NodeUndecodable.

(** ** Requests

    Reads go through the uncached reader ([Direct]) or through the manager's
    cache ([Cached]), which may lag behind the server. *)
Inductive source := Direct | Cached.

Inductive request :=
  | GetReservation (via : source) (name : string)
  | ListReservations (via : source)
  | CreateReservation (r : ConsensusKeyReservation)
  | DeleteReservation (name uid : string)
  | GetNamespace (via : source) (name : string)
  | GetChainNode (via : source) (namespace name : string)
  | GetChainNodeSet (via : source) (namespace name : string)
  | ListChainNodes (via : source) (namespace : option string)
  | ListChainNodeSets (via : source) (namespace : option string)
  | PatchChainNode (n : ChainNode)
  | PatchChainNodeSet (s : ChainNodeSet)
  | GetStatefulSet (via : source) (namespace name : string)
  | ListStatefulSets (via : source) (namespace : string)
  | UpdateStatefulSet (s : StatefulSet)
  | DeleteStatefulSetReq (namespace name uid : string)
  | GetJob (via : source) (namespace name : string)
  | ListJobs (via : source) (namespace : string)
  | DeleteJobForeground (namespace name uid : string)
  | GetPod (via : source) (namespace name : string)
  | ListPods (via : source) (namespace : string)
  | DeletePod (namespace name uid : string)
  | ListPVCs (via : source) (namespace : string)
  | UpdatePVC (pvc : PersistentVolumeClaim)
  | DeletePVC (namespace name uid : string)
  | UpdateChainNode (n : ChainNode)
  | UpdateChainNodeSet (s : ChainNodeSet)
  | DeleteChainNode (namespace name uid : string)
  | DeleteChainNodeForeground (namespace name uid : string)
  | GetPVC (via : source) (namespace name : string)
  | GetSecret (via : source) (namespace name : string)
  | ListSecrets (via : source) (namespace : string)
  | UpdateSecret (s : Secret)
  | DeleteSecret (namespace name uid : string)
  | CreateStatefulSet (s : StatefulSet)
  | GetObject (via : source) (kind namespace name : string)
  | CreateObject (o : KubeObject)
  | UpdateObject (o : KubeObject)
  | DeleteObject (kind namespace name : string)
  | ListEndpointSlices (via : source) (namespace service : string)
  | UpdateStatusChainNode (n : ChainNode)
  | UpdateStatusChainNodeSet (s : ChainNodeSet)
  | GetPDB (namespace name : string)
  | ListPDBs (namespace : string)
  | CreatePDB (p : PodDisruptionBudget)
  | UpdatePDB (p : PodDisruptionBudget)
  | DeletePDB (namespace name uid : string)
  | CreatePod (p : Pod)
  | GetPodLogs (namespace name container : string)
  | WatchPod (namespace name : string)
  | CreateSecret (s : Secret)
  | CreatePVC (p : PersistentVolumeClaim)
  | CreateChainNode (n : ChainNode)
  | WatchChainNodes.

(** Every delete carries the UID precondition the source sets; [DeleteObject] is
    the delete without one.  [GetPodLogs] is the whole stream of the log endpoint. *)
Definition response (r : request) : Type :=
  match r with
  | GetReservation _ _ => result ConsensusKeyReservation
  | ListReservations _ => result (list ConsensusKeyReservation)
  | CreateReservation _ | DeleteReservation _ _ => result ()
  | GetNamespace _ _ => result ObjectMeta
  | GetChainNode _ _ _ => result ChainNode
  | GetChainNodeSet _ _ _ => result ChainNodeSet
  | ListChainNodes _ _ => result (list ChainNode)
  | ListChainNodeSets _ _ => result (list ChainNodeSet)
  | PatchChainNode _ | PatchChainNodeSet _ => result ()
  | GetStatefulSet _ _ _ => result StatefulSet
  | ListStatefulSets _ _ => result (list StatefulSet)
  | UpdateStatefulSet _ | DeleteStatefulSetReq _ _ _ => result ()
  | GetJob _ _ _ => result Job
  | ListJobs _ _ => result (list Job)
  | DeleteJobForeground _ _ _ => result ()
  | GetPod _ _ _ => result Pod
  | ListPods _ _ => result (list Pod)
  | DeletePod _ _ _ => result ()
  | ListPVCs _ _ => result (list PersistentVolumeClaim)
  | UpdatePVC _ => result PersistentVolumeClaim
  | DeletePVC _ _ _ => result ()
  | UpdateChainNode _ => result ChainNode
  | UpdateChainNodeSet _ | DeleteChainNode _ _ _ | DeleteChainNodeForeground _ _ _ => result ()
  | GetPVC _ _ _ => result PersistentVolumeClaim
  | GetSecret _ _ _ => result Secret
  | ListSecrets _ _ => result (list Secret)
  | UpdateSecret _ | DeleteSecret _ _ _ | CreateStatefulSet _ => result ()
  | GetObject _ _ _ _ => result KubeObject
  | CreateObject _ | UpdateObject _ | DeleteObject _ _ _ => result ()
  | ListEndpointSlices _ _ _ => result (list ObjectMeta)
  | UpdateStatusChainNode _ | UpdateStatusChainNodeSet _ => result ()
  | GetPDB _ _ => result PodDisruptionBudget
  | ListPDBs _ => result (list PodDisruptionBudget)
  | CreatePDB _ | UpdatePDB _ | DeletePDB _ _ _ => result ()
  | CreatePod _ => result Pod
  | GetPodLogs _ _ _ => result string
  | WatchPod _ _ => Watched
  | CreateSecret _ | CreatePVC _ => result ()
  | CreateChainNode _ => result ChainNode
  | WatchChainNodes => list NodeEvent
  end.

(** A controller routine. *)
Abbreviation kube := (io response).
Abbreviation kevent := (event response).

(** One call of the client. *)
Definition call (r : request) : kube (response r) := Call r (λ x, Ret x).
(** Returning without an error, or with one. *)
Definition return_result {A} (a : A) : kube (result A) := Ret (Ok a).
Definition return_error {A} (e : error) : kube (result A) := Ret (Err e).

Lemma only_call G r : G r → only G (call r).
Proof. by split. Qed.
(** Walks through the branches of a routine; the routines it calls are left to the database. *)
Create HintDb only discriminated.
Ltac only_walk :=
  cbv beta zeta;
  lazymatch goal with
  | |- only _ (Ret _) => exact I
  | |- only _ (return_result _) => exact I
  | |- only _ (return_error _) => exact I
  | |- only _ (call _) => apply only_call; first [done | idtac]
  | |- only _ (io_try _ _) => apply only_try; [only_walk | intros; only_walk]
  | |- only _ (mbind _ _) => apply only_mbind; [only_walk | intros; only_walk]
  | |- only _ (match ?x with _ => _ end) => destruct x; only_walk
  | |- _ => try solve [eauto with only]
  end.

(** [retry.RetryOnConflict(retry.DefaultRetry, fn)] of client-go.  Documented: the
    function is run, again after a conflict, and the result is that of its last run. *)
Class RetryApi := { RetryOnConflict : ∀ {A}, kube (result A) → kube (result A) }.
Class RetryLaws `{RetryApi} := {
  retry_spec A P h (fn : kube (result A)) Q :
    (∀ h', h `suffix_of` h' → spec P h' fn Q) → spec P h (RetryOnConflict fn) Q;
}.
(** The default allows five runs. *)
Fixpoint retry_conflicts {A} (n : nat) (fn : kube (result A)) : kube (result A) :=
  match n with
  | O => fn
  | S n => r ← fn; match r with
                 | Err e => if e == ApiError ReasonConflict then retry_conflicts n fn else return_error e
                 | Ok a => return_result a
                 end
  end.
Definition reference_retry : RetryApi := {| RetryOnConflict _ := retry_conflicts 4 |}.
Lemma retry_conflicts_spec {A} n P h (fn : kube (result A)) Q :
  (∀ h', h `suffix_of` h' → spec P h' fn Q) → spec P h (retry_conflicts n fn) Q.
Proof.
  intros Hfn. assert (∀ h', h `suffix_of` h' → spec P h' (retry_conflicts n fn) Q) as Hr; [|by apply Hr].
  induction n as [|n IH]; intros h' Hs; cbn [retry_conflicts]; [by apply Hfn|]. rewrite spec_mbind.
  eapply spec_conseq; [apply spec_suffix, Hfn, Hs|]. intros h2 [a|e] _ [Hs2 HQ]; [exact HQ|].
  destruct (bool_decide _); [|exact HQ]. apply IH. by etrans.
Qed.
Lemma reference_retry_laws : @RetryLaws reference_retry.
Proof. split. intros A P h fn Q. apply (retry_conflicts_spec 4). Qed.

(** *** Reading an event's answer *)

(** The claim an event answers for. *)
Definition pvc_answer (e : kevent) : option (string * result PersistentVolumeClaim) :=
  match e with
  | Ev r x => match r return response r → option (string * result PersistentVolumeClaim) with
              | GetPVC _ _ claimName => λ x, Some (claimName, x)
              | _ => λ _, None
              end x
  end.

(** The StatefulSet an event answers with. *)
Definition sts_answer (e : kevent) : option StatefulSet :=
  match e with
  | Ev r x => match r return response r → option StatefulSet with
              | GetStatefulSet _ _ _ => λ x, match x with Ok s => Some s | Err _ => None end
              | _ => λ _, None
              end x
  end.

(** The listing of claims an event answers with. *)
Definition pvcs_answer (e : kevent) : option (list PersistentVolumeClaim) :=
  match e with
  | Ev r x => match r return response r → option (list PersistentVolumeClaim) with
              | ListPVCs _ _ => λ x, match x with Ok l => Some l | Err _ => None end
              | _ => λ _, None
              end x
  end.

(** The listing of secrets an event answers with. *)
Definition secrets_answer (e : kevent) : option (list Secret) :=
  match e with
  | Ev r x => match r return response r → option (list Secret) with
              | ListSecrets _ _ => λ x, match x with Ok l => Some l | Err _ => None end
              | _ => λ _, None
              end x
  end.

(** A Kubernetes object that can own signers: the dynamic type of a
    [client.Object] the controllers switch on. *)
Inductive Owner :=
  | OwnerChainNode (n : ChainNode)
  | OwnerChainNodeSet (s : ChainNodeSet)
  | OwnerOther (m : ObjectMeta).

Definition owner_meta (o : Owner) : ObjectMeta :=
  match o with
  | OwnerChainNode n => cn_meta n
  | OwnerChainNodeSet s => cns_meta s
  | OwnerOther m => m
  end.
Definition owner_Name (o : Owner) : string := meta_Name (owner_meta o).
Definition owner_Namespace (o : Owner) : string := meta_Namespace (owner_meta o).
Definition owner_UID (o : Owner) : string := meta_UID (owner_meta o).

(** ** What the API server is documented to do

    [rsv w] is the server's reservation collection, keyed by the cluster-scoped
    name.  Reservations have no update request: their spec is declared
    immutable to the server.  Any request may also fail with some other
    error; a failed write may nevertheless have been applied (a lost answer). *)
Class ApiServer (W : Type) := {
  server : W → ∀ r, response r → W → Prop;
  rsv : W → gmap string ConsensusKeyReservation;
  (** Every reservation ever stored: the name and spec each UID was given to. *)
  issued : W → gmap string (string * ConsensusKeyReservationSpec);
  (** The UID of the live owner of the given kind, namespace and name. *)
  owner_uid : W → string → string → string → option string;
}.

Definition is_write (r : request) : bool :=
  match r with
  | CreateReservation _ | DeleteReservation _ _ => true
  | _ => false
  end.

(** The stored form of a created reservation: the server only assigns
    metadata. *)
Definition stored_as (r s : ConsensusKeyReservation) : Prop :=
  ckr_Spec s = ckr_Spec r ∧ ckr_Name s = ckr_Name r ∧ ckr_UID s ≠ "".

Class ApiServerLaws (W : Type) `{ApiServer W} := {
  (** UIDs are never reused and reservation specs are immutable. *)
  server_issued w r x w' : server w r x w' → issued w ⊆ issued w';
  stored_issued w name r :
    rsv w !! name = Some r → ckr_Name r = name ∧ issued w !! ckr_UID r = Some (name, ckr_Spec r);
  (** Only the two reservation writes change the collection. *)
  server_frame w r x w' : server w r x w' → is_write r = false → rsv w' = rsv w;
  (** Direct reads of a reservation are linearizable. *)
  server_get w name r w' :
    server w (GetReservation Direct name) (Ok r) w' → rsv w !! name = Some r;
  server_get_missing w name w' :
    server w (GetReservation Direct name) (Err (ApiError ReasonNotFound)) w' →
    rsv w !! name = None;
  server_list w l w' :
    server w (ListReservations Direct) (Ok l) w' →
    ∀ r, r ∈ l ↔ rsv w !! ckr_Name r = Some r;
  (** A create succeeds only on a free name. *)
  server_create w r w' :
    server w (CreateReservation r) (Ok ()) w' →
    rsv w !! ckr_Name r = None ∧
    ∃ s, stored_as r s ∧ rsv w' = <[ckr_Name r := s]> (rsv w);
  server_create_failed w r e w' :
    server w (CreateReservation r) (Err e) w' →
    rsv w' = rsv w ∨
    (rsv w !! ckr_Name r = None ∧
     ∃ s, stored_as r s ∧ rsv w' = <[ckr_Name r := s]> (rsv w));
  (** A preconditioned delete removes at most the object with that UID. *)
  server_delete w name uid x w' :
    server w (DeleteReservation name uid) x w' →
    rsv w' = rsv w ∨
    (∃ r, rsv w !! name = Some r ∧ ckr_UID r = uid ∧ rsv w' = delete name (rsv w));
  server_delete_ok w name uid w' :
    server w (DeleteReservation name uid) (Ok ()) w' → rsv w' = delete name (rsv w);
  (** Direct reads of an owner. *)
  server_get_node w ns name n w' :
    server w (GetChainNode Direct ns name) (Ok n) w' →
    owner_uid w "ChainNode" ns name = Some (cn_UID n);
  server_get_node_missing w ns name w' :
    server w (GetChainNode Direct ns name) (Err (ApiError ReasonNotFound)) w' →
    owner_uid w "ChainNode" ns name = None;
  server_get_set w ns name s w' :
    server w (GetChainNodeSet Direct ns name) (Ok s) w' →
    owner_uid w "ChainNodeSet" ns name = Some (cns_UID s);
  server_get_set_missing w ns name w' :
    server w (GetChainNodeSet Direct ns name) (Err (ApiError ReasonNotFound)) w' →
    owner_uid w "ChainNodeSet" ns name = None;
}.
