(* ===== verification/FakeServer.v ===== *)
(** * An in-memory API server

    A deterministic server with no failures of its own, like the fake client the
    repository's tests run against.  It satisfies [ApiServerLaws], so witnesses
    and termination statements run the routines on it ([exec]). *)

From S2P Require Import Prelude GoLib IO ThirdParty ApiTypes KubeApi.

(** Reservations are entries of an append-only log: [fk_names] maps the live names
    to their position in it, and the position is the UID. *)
Record fake := mkFake {
  fk_log : list (string * ConsensusKeyReservationSpec);
  fk_names : gmap string nat;
  fk_namespaces : list string;
  fk_nodes : list ChainNode;
  fk_sets : list ChainNodeSet;
  fk_statefulsets : list StatefulSet;
  fk_jobs : list Job;
  fk_pods : list Pod;
  fk_pvcs : list PersistentVolumeClaim;
  fk_secrets : list Secret;
  fk_objects : list KubeObject;
  fk_slices : list (string * ObjectMeta);
  fk_pdbs : list PodDisruptionBudget;
}.

Definition uid_of (i : nat) : string := "reservation-" +:+ FormatInt (Z.of_nat i).

Definition stored (name : string) (i : nat) (s : ConsensusKeyReservationSpec) : ConsensusKeyReservation :=
  mkReservation (mkMeta name "" (uid_of i) ∅ None [] [] None 0 "") s.

Definition fake_lookup (log : list (string * ConsensusKeyReservationSpec)) (name : string) (i : nat) :
    option ConsensusKeyReservation :=
  match log !! i with
  | Some (n, s) => if decide (n = name) then Some (stored name i s) else None
  | None => None
  end.

Definition fake_rsv (w : fake) : gmap string ConsensusKeyReservation :=
  map_imap (fake_lookup (fk_log w)) (fk_names w).

Definition fake_issued (w : fake) : gmap string (string * ConsensusKeyReservationSpec) :=
  list_to_map (imap (λ i e, (uid_of i, e)) (fk_log w)).

Definition not_found : error := ApiError ReasonNotFound.
Definition found {A} (o : option A) : result A := match o with Some a => Ok a | None => Err not_found end.

Definition find_meta {A} (m : A → ObjectMeta) (ns name : string) (l : list A) : option A :=
  find (λ x, (meta_Namespace (m x) == ns) && (meta_Name (m x) == name)) l.
Definition in_namespace {A} (m : A → ObjectMeta) (ns : string) (l : list A) : list A :=
  filter (λ x, meta_Namespace (m x) = ns) l.
Definition without {A} (m : A → ObjectMeta) (ns name uid : string) (l : list A) : list A :=
  filter (λ x, ¬ (meta_Namespace (m x) = ns ∧ meta_Name (m x) = name ∧ meta_UID (m x) = uid)) l.
Definition replaced {A} (m : A → ObjectMeta) (y : A) (l : list A) : list A :=
  map (λ x, if decide (meta_Namespace (m x) = meta_Namespace (m y) ∧ meta_Name (m x) = meta_Name (m y) ∧
                       meta_UID (m x) = meta_UID (m y)) then y else x) l.

Definition with_reservations (w : fake) (log : list (string * ConsensusKeyReservationSpec)) (names : gmap string nat) : fake :=
  mkFake log names (fk_namespaces w) (fk_nodes w) (fk_sets w) (fk_statefulsets w) (fk_jobs w) (fk_pods w) (fk_pvcs w)
    (fk_secrets w) (fk_objects w) (fk_slices w) (fk_pdbs w).
Definition with_owners (w : fake) (nodes : list ChainNode) (sets : list ChainNodeSet) : fake :=
  mkFake (fk_log w) (fk_names w) (fk_namespaces w) nodes sets (fk_statefulsets w) (fk_jobs w) (fk_pods w) (fk_pvcs w)
    (fk_secrets w) (fk_objects w) (fk_slices w) (fk_pdbs w).
Definition with_workloads (w : fake) (sets : list StatefulSet) (jobs : list Job) (pods : list Pod) : fake :=
  mkFake (fk_log w) (fk_names w) (fk_namespaces w) (fk_nodes w) (fk_sets w) sets jobs pods (fk_pvcs w)
    (fk_secrets w) (fk_objects w) (fk_slices w) (fk_pdbs w).
Definition with_storage (w : fake) (pvcs : list PersistentVolumeClaim) (secrets : list Secret) (objects : list KubeObject) : fake :=
  mkFake (fk_log w) (fk_names w) (fk_namespaces w) (fk_nodes w) (fk_sets w) (fk_statefulsets w) (fk_jobs w) (fk_pods w)
    pvcs secrets objects (fk_slices w) (fk_pdbs w).

Definition with_pdbs (w : fake) (pdbs : list PodDisruptionBudget) : fake :=
  mkFake (fk_log w) (fk_names w) (fk_namespaces w) (fk_nodes w) (fk_sets w) (fk_statefulsets w) (fk_jobs w) (fk_pods w)
    (fk_pvcs w) (fk_secrets w) (fk_objects w) (fk_slices w) pdbs.

(** The server gives a created object a UID. *)
Definition with_uid (m : ObjectMeta) (uid : string) : ObjectMeta :=
  mkMeta (meta_Name m) (meta_Namespace m) uid (meta_Labels m) (meta_Annotations m) (meta_OwnerReferences m)
    (meta_Finalizers m) (meta_DeletionTimestamp m) (meta_CreationTimestamp m) (meta_ResourceVersion m).
Definition created_sts (s : StatefulSet) : StatefulSet :=
  mkStatefulSet (with_uid (sts_meta s) ("created-" +:+ sts_Name s)) 1 (sts_Replicas s) (sts_Selector s) (sts_ServiceName s)
    (sts_PodManagementPolicy s) (sts_UpdateStrategy s) (sts_PodSpec s) (sts_TemplateLabels s) (sts_VolumeClaimTemplates s) (sts_Retention s) 0 0 0 0.
Definition created_object (o : KubeObject) : KubeObject :=
  mkObject (ob_Kind o) (with_uid (ob_meta o) ("created-" +:+ meta_Name (ob_meta o))) (ob_ClusterIP o) (ob_Content o).
Definition created_pod (p : Pod) : Pod :=
  mkPod (with_uid (pod_meta p) ("created-" +:+ pod_Name p)) (mkPodStatus "Pending" [] [] []) (pod_Spec p).
(** The status of a created node is dropped. *)
Definition created_node (n : ChainNode) : ChainNode :=
  mkChainNode (with_uid (cn_meta n) ("created-" +:+ cn_Name n)) (cn_Spec n)
    (newChainNodeStatus PhaseChainNodeNone "" 0 [] no_signer_status).
Definition created_pdb (p : PodDisruptionBudget) : PodDisruptionBudget :=
  mkPDB (with_uid (pb_meta p) ("created-" +:+ pb_Name p)) (pb_MinAvailable p) (pb_MaxUnavailable p) (pb_Selector p).
Definition of_kind (kind : string) (l : list KubeObject) : list KubeObject := filter (λ o, ob_Kind o = kind) l.
Definition named_in {A} (m : A → ObjectMeta) (ns name : string) (x : A) : Prop :=
  meta_Namespace (m x) = ns ∧ meta_Name (m x) = name.
#[export] Instance named_in_dec {A} (m : A → ObjectMeta) ns name x : Decision (named_in m ns name x).
Proof. unfold named_in. apply _. Defined.

(** Owners carry finalizers, so deleting one only marks it. *)
Definition terminating (ns name uid : string) (n : ChainNode) : ChainNode :=
  let m := cn_meta n in
  if decide (named_in cn_meta ns name n ∧ meta_UID m = uid) then
    mkChainNode (mkMeta (meta_Name m) (meta_Namespace m) (meta_UID m) (meta_Labels m) (meta_Annotations m)
      (meta_OwnerReferences m) (meta_Finalizers m) (Some 1%Z) (meta_CreationTimestamp m) (meta_ResourceVersion m))
      (cn_Spec n) (cn_Status n)
  else n.

(** A status update changes nothing else of the object it names. *)
Definition status_of (n m : ChainNode) : ChainNode :=
  if decide (cn_UID m = cn_UID n) then mkChainNode (cn_meta m) (cn_Spec m) (cn_Status n) else m.
Definition set_status_of (s m : ChainNodeSet) : ChainNodeSet :=
  if decide (cns_UID m = cns_UID s) then mkChainNodeSet (cns_meta m) (cns_Spec m) (cns_Status s) else m.

Definition serve (w : fake) (r : request) : response r * fake :=
  match r return response r * fake with
  | GetReservation _ name => (found (fake_rsv w !! name), w)
  | ListReservations _ => (Ok (map snd (map_to_list (fake_rsv w))), w)
  | CreateReservation r =>
      match fake_rsv w !! ckr_Name r with
      | Some _ => (Err (ApiError ReasonAlreadyExists), w)
      | None => (Ok (), with_reservations w (fk_log w ++ [(ckr_Name r, ckr_Spec r)])
                          (<[ckr_Name r := length (fk_log w)]> (fk_names w)))
      end
  | DeleteReservation name uid =>
      match fake_rsv w !! name with
      | None => (Err not_found, w)
      | Some r => if decide (ckr_UID r = uid) then (Ok (), with_reservations w (fk_log w) (delete name (fk_names w)))
                  else (Err (ApiError ReasonConflict), w)
      end
  | GetNamespace _ name => (found (if decide (name ∈ fk_namespaces w) then Some (meta_of_name "" name) else None), w)
  | GetChainNode _ ns name => (found (find_meta cn_meta ns name (fk_nodes w)), w)
  | GetChainNodeSet _ ns name => (found (find_meta cns_meta ns name (fk_sets w)), w)
  | ListChainNodes _ ns => (Ok (match ns with Some ns => in_namespace cn_meta ns (fk_nodes w) | None => fk_nodes w end), w)
  | ListChainNodeSets _ ns => (Ok (match ns with Some ns => in_namespace cns_meta ns (fk_sets w) | None => fk_sets w end), w)
  | PatchChainNode n => (Ok (), with_owners w (replaced cn_meta n (fk_nodes w)) (fk_sets w))
  | PatchChainNodeSet s => (Ok (), with_owners w (fk_nodes w) (replaced cns_meta s (fk_sets w)))
  | GetStatefulSet _ ns name => (found (find_meta sts_meta ns name (fk_statefulsets w)), w)
  | ListStatefulSets _ ns => (Ok (in_namespace sts_meta ns (fk_statefulsets w)), w)
  | UpdateStatefulSet s => (Ok (), with_workloads w (replaced sts_meta s (fk_statefulsets w)) (fk_jobs w) (fk_pods w))
  | DeleteStatefulSetReq ns name uid =>
      (Ok (), with_workloads w (without sts_meta ns name uid (fk_statefulsets w)) (fk_jobs w) (fk_pods w))
  | GetJob _ ns name => (found (find_meta job_meta ns name (fk_jobs w)), w)
  | ListJobs _ ns => (Ok (in_namespace job_meta ns (fk_jobs w)), w)
  | DeleteJobForeground ns name uid =>
      (Ok (), with_workloads w (fk_statefulsets w) (without job_meta ns name uid (fk_jobs w)) (fk_pods w))
  | GetPod _ ns name => (found (find_meta pod_meta ns name (fk_pods w)), w)
  | ListPods _ ns => (Ok (in_namespace pod_meta ns (fk_pods w)), w)
  | DeletePod ns name uid =>
      (Ok (), with_workloads w (fk_statefulsets w) (fk_jobs w) (without pod_meta ns name uid (fk_pods w)))
  | ListPVCs _ ns => (Ok (in_namespace pvc_meta ns (fk_pvcs w)), w)
  | UpdatePVC pvc => (Ok pvc, with_storage w (replaced pvc_meta pvc (fk_pvcs w)) (fk_secrets w) (fk_objects w))
  | DeletePVC ns name uid => (Ok (), with_storage w (without pvc_meta ns name uid (fk_pvcs w)) (fk_secrets w) (fk_objects w))
  | UpdateChainNode n => (Ok n, with_owners w (replaced cn_meta n (fk_nodes w)) (fk_sets w))
  | UpdateChainNodeSet s => (Ok (), with_owners w (fk_nodes w) (replaced cns_meta s (fk_sets w)))
  | DeleteChainNode ns name uid | DeleteChainNodeForeground ns name uid => (Ok (), with_owners w (map (terminating ns name uid) (fk_nodes w)) (fk_sets w))
  | GetPVC _ ns name => (found (find_meta pvc_meta ns name (fk_pvcs w)), w)
  | GetSecret _ ns name => (found (find_meta secret_meta ns name (fk_secrets w)), w)
  | ListSecrets _ ns => (Ok (in_namespace secret_meta ns (fk_secrets w)), w)
  | UpdateSecret s => (Ok (), with_storage w (fk_pvcs w) (replaced secret_meta s (fk_secrets w)) (fk_objects w))
  | DeleteSecret ns name uid =>
      (Ok (), with_storage w (fk_pvcs w) (without secret_meta ns name uid (fk_secrets w)) (fk_objects w))
  | CreateStatefulSet s =>
      match find_meta sts_meta (meta_Namespace (sts_meta s)) (sts_Name s) (fk_statefulsets w) with
      | Some _ => (Err (ApiError ReasonAlreadyExists), w)
      | None => (Ok (), with_workloads w (created_sts s :: fk_statefulsets w) (fk_jobs w) (fk_pods w))
      end
  | GetObject _ kind ns name => (found (find_meta ob_meta ns name (of_kind kind (fk_objects w))), w)
  | CreateObject o =>
      match find_meta ob_meta (meta_Namespace (ob_meta o)) (meta_Name (ob_meta o)) (of_kind (ob_Kind o) (fk_objects w)) with
      | Some _ => (Err (ApiError ReasonAlreadyExists), w)
      | None => (Ok (), with_storage w (fk_pvcs w) (fk_secrets w) (created_object o :: fk_objects w))
      end
  | UpdateObject o =>
      (Ok (), with_storage w (fk_pvcs w) (fk_secrets w)
         (map (λ x, if decide (ob_Kind x = ob_Kind o ∧ meta_Namespace (ob_meta x) = meta_Namespace (ob_meta o) ∧
                               meta_Name (ob_meta x) = meta_Name (ob_meta o)) then o else x) (fk_objects w)))
  | DeleteObject kind ns name =>
      if decide (kind = "Pod") then
        (Ok (), with_workloads w (fk_statefulsets w) (fk_jobs w) (filter (λ p, ¬ named_in pod_meta ns name p) (fk_pods w)))
      else if decide (kind = "Secret") then
        (Ok (), with_storage w (fk_pvcs w) (filter (λ s, ¬ named_in secret_meta ns name s) (fk_secrets w)) (fk_objects w))
      else (Ok (), with_storage w (fk_pvcs w) (fk_secrets w)
                     (filter (λ o, ¬ (ob_Kind o = kind ∧ named_in ob_meta ns name o)) (fk_objects w)))
  | ListEndpointSlices _ ns service =>
      (Ok (map snd (filter (λ p, p.1 = service ∧ meta_Namespace p.2 = ns) (fk_slices w))), w)
  | UpdateStatusChainNode n => (Ok (), with_owners w (map (status_of n) (fk_nodes w)) (fk_sets w))
  | UpdateStatusChainNodeSet s => (Ok (), with_owners w (fk_nodes w) (map (set_status_of s) (fk_sets w)))
  | GetPDB ns name => (found (find_meta pb_meta ns name (fk_pdbs w)), w)
  | ListPDBs ns => (Ok (in_namespace pb_meta ns (fk_pdbs w)), w)
  | CreatePDB p =>
      match find_meta pb_meta (meta_Namespace (pb_meta p)) (pb_Name p) (fk_pdbs w) with
      | Some _ => (Err (ApiError ReasonAlreadyExists), w)
      | None => (Ok (), with_pdbs w (fk_pdbs w ++ [created_pdb p]))
      end
  | UpdatePDB p => (Ok (), with_pdbs w (replaced pb_meta p (fk_pdbs w)))
  | DeletePDB ns name uid => (Ok (), with_pdbs w (without pb_meta ns name uid (fk_pdbs w)))
  | CreatePod p =>
      match find_meta pod_meta (meta_Namespace (pod_meta p)) (pod_Name p) (fk_pods w) with
      | Some _ => (Err (ApiError ReasonAlreadyExists), w)
      | None => (Ok (created_pod p), with_workloads w (fk_statefulsets w) (fk_jobs w) (created_pod p :: fk_pods w))
      end
  | GetPodLogs ns name _ => (Err not_found, w)
  | WatchPod ns name =>
      let l := filter (λ p, pod_Name p = name) (in_namespace pod_meta ns (fk_pods w)) in
      (mkWatched (Some l) (map WatchAdded l) (Sentinel "timed out waiting for the condition"), w)
  | CreateSecret s =>
      match find_meta secret_meta (meta_Namespace (secret_meta s)) (meta_Name (secret_meta s)) (fk_secrets w) with
      | Some _ => (Err (ApiError ReasonAlreadyExists), w)
      | None => (Ok (), with_storage w (fk_pvcs w) (s :: fk_secrets w) (fk_objects w))
      end
  | CreatePVC p =>
      match find_meta pvc_meta (meta_Namespace (pvc_meta p)) (meta_Name (pvc_meta p)) (fk_pvcs w) with
      | Some _ => (Err (ApiError ReasonAlreadyExists), w)
      | None => (Ok (), with_storage w (p :: fk_pvcs w) (fk_secrets w) (fk_objects w))
      end
  | CreateChainNode n =>
      match find_meta cn_meta (cn_Namespace n) (cn_Name n) (fk_nodes w) with
      | Some _ => (Err (ApiError ReasonAlreadyExists), w)
      | None => (Ok (created_node n), with_owners w (created_node n :: fk_nodes w) (fk_sets w))
      end
  | WatchChainNodes => (map NodeObserved (fk_nodes w), w)
  end.

Definition fake_owner_uid (w : fake) (kind ns name : string) : option string :=
  if decide (kind = "ChainNode") then cn_UID <$> find_meta cn_meta ns name (fk_nodes w)
  else if decide (kind = "ChainNodeSet") then cns_UID <$> find_meta cns_meta ns name (fk_sets w)
  else None.

#[export] Instance fake_server : ApiServer fake := {|
  server w r x w' := serve w r = (x, w');
  rsv := fake_rsv;
  issued := fake_issued;
  owner_uid := fake_owner_uid;
|}.

(** Running one routine alone. *)
Fixpoint exec {A} (w : fake) (m : kube A) : A * fake :=
  match m with
  | Ret a => (a, w)
  | Call r k => let '(x, w') := serve w r in exec w' (k x)
  end.

(** ** The laws *)

Lemma uid_of_inj i j : uid_of i = uid_of j → i = j.
Proof. unfold uid_of. intros H%string_app_inj_l%FormatInt_inj. lia. Qed.

Lemma issued_lookup log i e :
  (list_to_map (imap (λ i e, (uid_of i, e)) log) : gmap string (string * ConsensusKeyReservationSpec)) !! uid_of i = Some e ↔
  log !! i = Some e.
Proof.
  rewrite <- elem_of_list_to_map.
  - rewrite elem_of_lookup_imap. split.
    + intros (j & e' & E & Hj). pose proof (f_equal snd E) as Es. pose proof (f_equal fst E) as Eu.
      simpl in *. apply uid_of_inj in Eu. by subst.
    + intros Hi. by exists i, e.
  - rewrite fmap_imap. apply NoDup_alt. intros j k u. rewrite !list_lookup_imap.
    destruct (log !! j), (log !! k); simpl; try done. intros Ej Ek.
    apply uid_of_inj. congruence.
Qed.

Lemma rsv_lookup w name r :
  fake_rsv w !! name = Some r ↔
  ∃ i s, fk_names w !! name = Some i ∧ fk_log w !! i = Some (name, s) ∧ r = stored name i s.
Proof.
  unfold fake_rsv, fake_lookup. rewrite map_lookup_imap. destruct (fk_names w !! name) as [i|]; simpl.
  - destruct (fk_log w !! i) as [[n s]|] eqn:E; [destruct (decide (n = name)) as [->|Hn]|].
    + split; [intros [= <-]; by exists i, s|by intros (? & ? & [= <-] & ? & ->); simplify_eq].
    + split; [done|]. intros (? & ? & [= <-] & ? & ->). congruence.
    + split; [done|]. intros (? & ? & [= <-] & ? & ->). congruence.
  - split; [done|]. by intros (? & ? & ? & _).
Qed.

Lemma serve_issued w r : fake_issued w ⊆ fake_issued (serve w r).2.
Proof.
  destruct r; simpl; repeat case_match; try reflexivity. unfold fake_issued. simpl.
  apply map_subseteq_spec. intros u e Hu. pose proof Hu as Hin.
  apply elem_of_list_to_map_2, elem_of_lookup_imap in Hin as (i & e' & E & Hi).
  pose proof (f_equal fst E) as Eu. pose proof (f_equal snd E) as Es. simpl in Eu, Es. subst.
  apply issued_lookup. by apply lookup_app_l_Some.
Qed.

Lemma create_rsv w name s :
  fake_rsv w !! name = None →
  fake_rsv (with_reservations w (fk_log w ++ [(name, s)]) (<[name := length (fk_log w)]> (fk_names w))) =
  <[name := stored name (length (fk_log w)) s]> (fake_rsv w).
Proof.
  intros Hn. apply map_eq. intros n. apply option_eq. intros r. rewrite rsv_lookup. simpl.
  destruct (decide (n = name)) as [->|Hne].
  - rewrite !lookup_insert_eq. split.
    + intros (i & s' & [= <-] & Hi & ->). rewrite lookup_app_r, Nat.sub_diag in Hi by done. simpl in Hi. congruence.
    + intros [= <-]. exists (length (fk_log w)), s. split_and!; [done| |done]. by rewrite lookup_app_r, Nat.sub_diag.
  - rewrite !lookup_insert_ne by done. rewrite rsv_lookup. f_equiv; intros i. f_equiv; intros s'. f_equiv.
    f_equiv. split; intros Hi; [|by apply lookup_app_l_Some].
    apply lookup_app_Some in Hi as [?|[_ Hi]]; [done|]. apply list_lookup_singleton_Some in Hi as [_ [= <- _]]. done.
Qed.

Lemma delete_rsv w name :
  fake_rsv (with_reservations w (fk_log w) (delete name (fk_names w))) = delete name (fake_rsv w).
Proof.
  apply map_eq. intros n. apply option_eq. intros r. rewrite rsv_lookup, lookup_delete_Some, rsv_lookup. simpl.
  setoid_rewrite lookup_delete_Some. split.
  - intros (i & s & [? ?] & ? & ?). split; [done|]. by exists i, s.
  - intros [? (i & s & ? & ? & ?)]. by exists i, s.
Qed.

Lemma found_Ok {A} (o : option A) a : found o = Ok a → o = Some a.
Proof. destruct o; simpl; congruence. Qed.
Lemma found_missing {A} (o : option A) : found o = Err (ApiError ReasonNotFound) → o = None.
Proof. by destruct o. Qed.

#[export] Instance fake_laws : ApiServerLaws fake.
Proof.
  split; simpl; unfold fake_owner_uid; intros w.
  - intros r x w' E. pose proof (f_equal snd E) as E2. simpl in E2. subst. apply serve_issued.
  - intros name r (i & s & _ & Hi & ->)%rsv_lookup. split; [done|]. by apply issued_lookup.
  - intros r x w' E Hw. destruct r; simpl in *; try done; repeat case_match; by simplify_eq.
  - intros name r w' [= E _]. by apply found_Ok.
  - intros name w' [= E _]. by apply found_missing.
  - intros l w' [= <- _] r. rewrite list_elem_of_In, in_map_iff. setoid_rewrite <- list_elem_of_In.
    split.
    + intros ([n r'] & <- & Hr). apply elem_of_map_to_list in Hr. pose proof Hr as (i & s & _ & _ & ->)%rsv_lookup. done.
    + intros Hr. exists (ckr_Name r, r). split; [done|]. by apply elem_of_map_to_list.
  - intros r w' E. destruct (fake_rsv w !! ckr_Name r) eqn:Er; [done|]. injection E as <-. split; [done|].
    exists (stored (ckr_Name r) (length (fk_log w)) (ckr_Spec r)). split; [by repeat split|]. by apply create_rsv.
  - intros r e w' E. destruct (fake_rsv w !! ckr_Name r) eqn:Er; [|done]. injection E as _ <-. by left.
  - intros name uid x w' E. destruct (fake_rsv w !! name) as [r|] eqn:Er; [case_decide|]; injection E as _ <-.
    + right. exists r. split_and!; [done|done|]. apply delete_rsv.
    + by left.
    + by left.
  - intros name uid w' E. destruct (fake_rsv w !! name) as [r|] eqn:Er; [case_decide|]; try done.
    injection E as <-. apply delete_rsv.
  - intros ns name n w' [= E%found_Ok _]. by rewrite E.
  - intros ns name w' [= E%found_missing _]. by rewrite E.
  - intros ns name n w' [= E%found_Ok _]. by rewrite E.
  - intros ns name w' [= E%found_missing _]. by rewrite E.
Qed.

(** ** Running routines on it *)

Lemma exec_bind {A B} w (m : kube A) (f : A → kube B) :
  exec w (m ≫= f) = let '(a, w') := exec w m in exec w' (f a).
Proof.
  revert w. induction m as [a|r k IH]; intros w; [done|]. simpl. destruct (serve w r) as [x w']. apply IH.
Qed.

Lemma exec_try {A B} w (m : kube (result A)) (f : A → kube (result B)) :
  exec w (io_try m f) =
  let '(r, w') := exec w m in match r with Ok a => exec w' (f a) | Err e => (Err e, w') end.
Proof.
  transitivity (exec w (m ≫= λ r, match r with Ok a => f a | Err e => Ret (Err e) end)); [done|].
  rewrite exec_bind. by destruct (exec w m) as [[a|e] w'].
Qed.

(** A thread that runs alone reaches the state [exec] computes. *)
Lemma exec_run {A} (env : fake → fake → Prop) w (ts : nat → kube A) t a w' :
  exec w (ts t) = (a, w') →
  ∃ l ts', sys_run server env (Sys w ts) l (Sys w' ts') ∧ ts' t = Ret a ∧ ∀ u, u ≠ t → ts' u = ts u.
Proof.
  intros E. remember (ts t) as m eqn:Em. revert w ts E Em.
  induction m as [b|r k IH]; intros w ts E Em; simpl in E.
  - injection E as -> ->. exists [], ts. split_and!; [constructor|done|done].
  - destruct (serve w r) as [x w1] eqn:Es.
    destruct (IH x w1 (λ u, if decide (u = t) then k x else ts u) E) as (l & ts' & Hr & Ht & Hu);
      [by rewrite decide_True|].
    eexists (_ :: l), ts'. split_and!.
    + econstructor; [|exact Hr]. by apply sys_call with (r := r).
    + done.
    + intros u Hne. rewrite Hu by done. by rewrite decide_False.
Qed.

Lemma replaced_find {A} (m : A → ObjectMeta) y ns name l :
  meta_UID ∘ m <$> find_meta m ns name (replaced m y l) = meta_UID ∘ m <$> find_meta m ns name l.
Proof.
  unfold find_meta, replaced. induction l as [|x l IH]; simpl; [done|].
  destruct (decide (_ ∧ _ ∧ _)) as [(E1 & E2 & E3)|]; [rewrite E1, E2|];
    (destruct (_ && _); simpl; [|exact IH]); congruence.
Qed.

Lemma status_find {A} (m : A → ObjectMeta) f ns name (l : list A) :
  (∀ x, meta_Namespace (m (f x)) = meta_Namespace (m x) ∧ meta_Name (m (f x)) = meta_Name (m x) ∧
        meta_UID (m (f x)) = meta_UID (m x)) → meta_UID ∘ m <$> find_meta m ns name (map f l) = meta_UID ∘ m <$> find_meta m ns name l.
Proof.
  intros Hf. unfold find_meta. induction l as [|x l IH]; simpl; [done|]. destruct (Hf x) as (-> & -> & E).
  destruct (_ && _); simpl; [by rewrite E|exact IH].
Qed.

Definition created_owner (r : request) : option ChainNode := match r with CreateChainNode n => Some n | _ => None end.
Lemma created_owner_Some r n : created_owner r = Some n → r = CreateChainNode n.
Proof. destruct r; simpl; congruence. Qed.

Lemma serve_owner_kept w r kind ns name :
  created_owner r = None → fake_owner_uid (serve w r).2 kind ns name = fake_owner_uid w kind ns name.
Proof.
  intros Hr. destruct r; try done; simpl; repeat case_match; try done; unfold fake_owner_uid; simpl; repeat case_decide; try done.
  all: first [apply replaced_find|apply status_find; intros x].
  all: first [unfold terminating; by case_decide|unfold status_of; by case_decide|unfold set_status_of; by case_decide].
Qed.

(** Nothing a controller sends changes who an owner is. *)
Lemma serve_owner_uid w r kind ns name u :
  fake_owner_uid w kind ns name = Some u → fake_owner_uid (serve w r).2 kind ns name = Some u.
Proof.
  intros Hu. destruct (created_owner r) as [n|] eqn:Hn; [|by rewrite serve_owner_kept].
  apply created_owner_Some in Hn as ->.
  simpl. destruct (find_meta cn_meta (cn_Namespace n) _ _) eqn:En; [done|]. revert Hu. unfold fake_owner_uid. simpl.
  destruct (decide (kind = _)); [|done]. intros Hu.
  destruct (bool_decide (meta_Namespace _ = ns)) eqn:E1, (bool_decide (meta_Name _ = name)) eqn:E2; try done. simpl.
  apply bool_decide_eq_true in E1, E2. unfold cn_Namespace, cn_Name in En. rewrite E1, E2 in En. by rewrite En in Hu.
Qed.

Lemma run_owner_uid {A} (s s' : sys response fake A) l kind ns name u :
  sys_run server (λ _ _, False) s l s' →
  fake_owner_uid (world s) kind ns name = Some u → fake_owner_uid (world s') kind ns name = Some u.
Proof.
  induction 1 as [|s e s' l s'' Hs _ IH]; [done|]. intros Hu. apply IH.
  destruct Hs as [w w' ts t r k x _ Hs|]; [|done]. simpl in *.
  pose proof (serve_owner_uid w r kind ns name u Hu) as E. by rewrite Hs in E.
Qed.
