(* ===== verification/KubePods.v ===== *)
(** * Pod helpers ([internal/k8s/pod.go])

    Creating, deleting and reading the logs of a pod and the waits on it.  A
    helper owns a pod and overwrites it with every watched object, so a wait
    returns the pod it leaves behind with its result.

    [watch.UntilWithSync] of client-go lists and watches one pod and calls a
    condition on every event until it holds, fails, or the context ends: the
    answer to [WatchPod] is what it would deliver. *)

From S2P Require Import Prelude GoLib IO ThirdParty ApiTypes KubeApi.

(** ** Requests of the helper *)

Definition helper_Create (p : Pod) : kube (result Pod) := call (CreatePod p).
Definition helper_Delete (p : Pod) : kube (result ()) :=
  call (DeleteObject "Pod" (meta_Namespace (pod_meta p)) (pod_Name p)).

Definition GetLogs (p : Pod) (container : string) : kube (result string) :=
  logs ←? call (GetPodLogs (meta_Namespace (pod_meta p)) (pod_Name p) container);
  return_result (TrimSpace logs).

(** The logs of the first container that ended badly and whose logs can be read. *)
Definition failed_container (c : ContainerStatus) : bool :=
  negb (cst_Ready c) && match cst_ExitCode c with Some code => negb (code =? 0)%Z | None => false end.
Fixpoint failure_logs (p : Pod) (l : list ContainerStatus) : kube string :=
  match l with
  | [] => Ret "could not retrieve failure reason"
  | c :: l =>
      if failed_container c then
        r ← GetLogs p (cst_Name c);
        match r with
        | Ok logs => Ret logs
        | Err _ => failure_logs p l
        end
      else failure_logs p l
  end.
Definition getFailureReason (p : Pod) : kube string :=
  failure_logs p (ps_ContainerStatuses (pod_Status p) ++ ps_InitContainerStatuses (pod_Status p)).

(** ** Waiting *)

(** The condition is called on every event, with the pod the helper holds. *)
Section watch.
Context {S : Type} (condition : S → WatchEvent → kube (S * result bool)).
Fixpoint watch_events (s : S) (events : list WatchEvent) (end_ : error) : kube (S * result ()) :=
  match events with
  | [] => Ret (s, Err end_)
  | ev :: events =>
      got ← condition s ev;
      match got with
      | (s, Ok true) => Ret (s, Ok ())
      | (s, Ok false) => watch_events s events end_
      | (s, Err e) => Ret (s, Err e)
      end
  end.
End watch.

Definition watch_error : error := Sentinel "error watching pod".
Definition pod_args (p : Pod) : list fmt_arg := [AStr (meta_Namespace (pod_meta p)); AStr (pod_Name p)].

(** [WaitForPodDeleted]: the pod is gone when a read says so, when the first listing is
    empty, or when a deletion is watched. *)
Definition deleted_condition (u : ()) (ev : WatchEvent) : kube (() * result bool) :=
  Ret (u, match ev with
          | WatchFailed => Err watch_error
          | WatchDeleted _ => Ok true
          | WatchAdded _ | WatchModified _ => Ok false
          end).
Definition WaitForPodDeleted (p : Pod) : kube (result ()) :=
  let ns := meta_Namespace (pod_meta p) in
  got ← call (GetPod Direct ns (pod_Name p));
  if match got with Err e => IsNotFound e | Ok _ => false end then return_result () else
  w ← call (WatchPod ns (pod_Name p));
  match w_Synced w with
  | None => return_error (w_End w)
  | Some [] => return_result ()
  | Some _ => r ← watch_events deleted_condition () (w_Events w) (w_End w); Ret (snd r)
  end.

(** The waits for a state of the pod differ in what they look for in it. *)
Definition pod_condition (test : Pod → kube (result bool)) (p : Pod) (ev : WatchEvent) : kube (Pod * result bool) :=
  match ev with
  | WatchFailed => Ret (p, Err watch_error)
  | WatchDeleted _ => Ret (p, Err (Errorf "pod %s/%s was deleted" (pod_args p)))
  | WatchAdded q | WatchModified q => r ← test q; Ret (q, r)
  end.
Definition wait_for_pod (test : Pod → kube (result bool)) (p : Pod) : kube (Pod * result ()) :=
  w ← call (WatchPod (meta_Namespace (pod_meta p)) (pod_Name p));
  watch_events (pod_condition test) p (w_Events w) (w_End w).

Definition phase_test (phase : string) (p : Pod) : kube (result bool) :=
  if ps_Phase (pod_Status p) == "Failed" then
    reason ← getFailureReason p; return_error (Errorf "pod failed: %s" [AStr reason])
  else return_result (ps_Phase (pod_Status p) == phase).
Definition WaitForPodPhase (p : Pod) (phase : string) : kube (Pod * result ()) := wait_for_pod (phase_test phase) p.
Definition WaitForPodRunning (p : Pod) : kube (Pod * result ()) := WaitForPodPhase p "Running".
Definition WaitForPodSucceeded (p : Pod) : kube (Pod * result ()) := WaitForPodPhase p "Succeeded".

Definition pod_failed : error := Sentinel "pod failed".
Definition named_container (name : string) : list ContainerStatus → option ContainerStatus :=
  find (λ c, cst_Name c == name).

Definition init_running_test (container : string) (p : Pod) : kube (result bool) :=
  if ps_Phase (pod_Status p) == "Failed" then return_error pod_failed else
  return_result match named_container container (ps_InitContainerStatuses (pod_Status p)) with
                | Some c => cst_Running c
                | None => false
                end.
Definition WaitForInitContainerRunning (p : Pod) (container : string) : kube (Pod * result ()) :=
  wait_for_pod (init_running_test container) p.

Definition ready_test (container : string) (p : Pod) : kube (result bool) :=
  if ps_Phase (pod_Status p) == "Failed" then return_error pod_failed
  else if ps_Phase (pod_Status p) != "Running" then return_result false else
  return_result match named_container container (ps_ContainerStatuses (pod_Status p)) with
                | Some c => cst_Ready c
                | None => false
                end.
Definition WaitForContainerReady (p : Pod) (container : string) : kube (Pod * result ()) :=
  wait_for_pod (ready_test container) p.

(** Goes on to the next status of the name when a container neither started nor ended badly. *)
Fixpoint started_among (p : Pod) (container : string) (l : list ContainerStatus) : kube (result bool) :=
  match l with
  | [] => return_result false
  | c :: l =>
      if cst_Name c != container then started_among p container l
      else if bool_decide (cst_Started c = Some true) then return_result true
      else if match cst_ExitCode c with Some code => negb (code =? 0)%Z | None => false end then
        reason ← getFailureReason p; return_error (Errorf "container failed: %v" [AStr reason])
      else started_among p container l
  end.
Definition started_test (container : string) (p : Pod) : kube (result bool) :=
  if ps_Phase (pod_Status p) == "Failed" then return_error pod_failed
  else started_among p container (ps_ContainerStatuses (pod_Status p)).
Definition WaitForContainerStarted (p : Pod) (container : string) : kube (Pod * result ()) :=
  wait_for_pod (started_test container) p.

(** ** What the waits promise *)

Definition pod_read (r : request) : Prop :=
  match r with GetPod _ _ _ | GetPodLogs _ _ _ | WatchPod _ _ => True | _ => False end.
(** The events of a watch show a pod. *)
Definition shows (w : Watched) (p : Pod) : Prop := WatchAdded p ∈ w_Events w ∨ WatchModified p ∈ w_Events w.
(** The answer of a watch of that name. *)
Definition watched (ns name : string) (w : Watched) (h : list kevent) : Prop := Ev (WatchPod ns name) w ∈ h.

#[local] Abbreviation reads := (λ (_ : list kevent) (r : request), pod_read r).

Lemma GetLogs_spec h p c : spec reads h (GetLogs p c) (λ h' r,
  match r with
  | Ok logs => ∃ l, logs = TrimSpace l ∧ Ev (GetPodLogs (meta_Namespace (pod_meta p)) (pod_Name p) c) (Ok l) ∈ h'
  | Err e => Ev (GetPodLogs (meta_Namespace (pod_meta p)) (pod_Name p) c) (Err e) ∈ h'
  end).
Proof.
  unfold GetLogs. rewrite spec_try. split; [done|]. intros [l|e]; cbn -[TrimSpace]; [exists l; split; [done|]|]; by left.
Qed.

Lemma failure_logs_spec h p l : spec reads h (failure_logs p l) (λ _ _, True).
Proof.
  revert h. induction l as [|c l IH]; intros h; [done|]. cbn [failure_logs].
  destruct (failed_container c); [|apply IH]. rewrite spec_mbind. eapply spec_conseq; [apply GetLogs_spec|].
  intros h' [x|e] _ _; [done|apply IH].
Qed.

Section wait.
Context (test : Pod → kube (result bool)) (T : Pod → Prop).
Hypothesis Htest : ∀ h q, spec reads h (test q) (λ _ r, r = Ok true → T q).

Lemma watch_pod_events h p l end_ (Inv : Pod → Prop) :
  Inv p → (∀ q, WatchAdded q ∈ l ∨ WatchModified q ∈ l → Inv q) →
  spec reads h (watch_events (pod_condition test) p l end_)
    (λ _ x, Inv x.1 ∧ (x.2 = Ok () → T x.1 ∧ (WatchAdded x.1 ∈ l ∨ WatchModified x.1 ∈ l))).
Proof.
  revert h p. induction l as [|ev l IH]; intros h p Hp Hl; [by split|].
  assert (∀ q, WatchAdded q ∈ l ∨ WatchModified q ∈ l → Inv q) as Hl' by (intros q Hq; apply Hl; set_solver).
  cbn [watch_events]. rewrite spec_mbind.
  destruct ev as [q|q|q|]; cbn [pod_condition]; [| |by split..]; rewrite spec_mbind; (eapply spec_conseq; [apply Htest|]);
    intros h' [[]|e] _ HT; simpl.
  1, 4: split; [apply Hl; set_solver|intros _; split; [by apply HT|set_solver]].
  2, 4: split; [apply Hl; set_solver|done].
  all: eapply spec_conseq; [apply IH; [apply Hl; set_solver|exact Hl']|]; intros h2 x _ [Hx Hok];
    (split; [done|]); intros E; destruct (Hok E); set_solver.
Qed.

Lemma wait_for_pod_spec h p :
  spec reads h (wait_for_pod test p) (λ h' x,
    (x.1 = p ∨ ∃ w, watched (meta_Namespace (pod_meta p)) (pod_Name p) w h' ∧ shows w x.1) ∧
    (x.2 = Ok () → T x.1 ∧ ∃ w, watched (meta_Namespace (pod_meta p)) (pod_Name p) w h' ∧ shows w x.1)).
Proof.
  unfold wait_for_pod. rewrite spec_mbind. split; [done|]. intros w. cbn [spec call].
  eapply spec_conseq; [apply spec_suffix, (watch_pod_events _ p _ _ (λ q, q = p ∨ shows w q)); [by left|by right]|].
  intros h' x _ (Hs & HI & Hok). assert (watched (meta_Namespace (pod_meta p)) (pod_Name p) w h') as Hw
    by (destruct Hs as [k ->]; apply elem_of_app; right; left).
  split; [destruct HI; [by left|right; by exists w]|]. intros Hx. destruct (Hok Hx) as [HT Hin].
  split; [done|]. by exists w.
Qed.
End wait.

Lemma WaitForPodPhase_spec h p phase :
  spec reads h (WaitForPodPhase p phase) (λ h' x,
    (x.1 = p ∨ ∃ w, watched (meta_Namespace (pod_meta p)) (pod_Name p) w h' ∧ shows w x.1) ∧
    (x.2 = Ok () → ps_Phase (pod_Status x.1) = phase ∧
       ∃ w, watched (meta_Namespace (pod_meta p)) (pod_Name p) w h' ∧ shows w x.1)).
Proof.
  apply (wait_for_pod_spec _ (λ q, ps_Phase (pod_Status q) = phase)). clear. intros h q. unfold phase_test.
  case_bool_decide; [|intros [= ?%bool_decide_eq_true]; done]. rewrite spec_mbind.
  eapply spec_conseq; [apply failure_logs_spec|]. by intros.
Qed.

(** A pod whose absence was waited for was seen to be absent. *)
Definition absence_seen (ns name : string) (h : list kevent) : Prop :=
  Ev (GetPod Direct ns name) (Err (ApiError ReasonNotFound)) ∈ h ∨
  ∃ w, watched ns name w h ∧ (w_Synced w = Some [] ∨ ∃ p, WatchDeleted p ∈ w_Events w).
#[export] Instance stable_absence_seen ns name : Stable (absence_seen ns name).
Proof. apply _. Qed.

Lemma deleted_events h l end_ :
  spec reads h (watch_events deleted_condition () l end_) (λ _ x, x.2 = Ok () → ∃ p, WatchDeleted p ∈ l).
Proof.
  revert h. induction l as [|ev l IH]; intros h; [done|]. cbn [watch_events]. rewrite spec_mbind.
  destruct ev as [q|q|q|]; simpl; [| |intros _; exists q; left|done];
    (eapply spec_conseq; [apply IH|]; intros h' x _ Hx ?; destruct (Hx ltac:(done)) as [p ?]; exists p; by right).
Qed.

Lemma WaitForPodDeleted_spec h p :
  spec reads h (WaitForPodDeleted p)
    (λ h' r, r = Ok () → absence_seen (meta_Namespace (pod_meta p)) (pod_Name p) h').
Proof.
  unfold WaitForPodDeleted. rewrite spec_mbind. split; [done|]. intros got. cbn [spec call].
  destruct (match got with Err e => IsNotFound e | Ok _ => false end) eqn:Eg.
  { destruct got as [q|e]; [done|]. apply bool_decide_eq_true in Eg as ->. intros _. left. left. }
  rewrite spec_mbind. split; [done|]. intros w. cbn [spec call].
  destruct (w_Synced w) as [[|q store]|] eqn:Es; [intros _; right; exists w; split; [left|by left]| |done].
  rewrite spec_mbind. eapply spec_conseq; [apply spec_suffix, deleted_events|].
  intros h' x _ ([k ->] & Hx) Hok. right. exists w. split; [apply elem_of_app; right; left|right; auto].
Qed.
