(* ===== verification/PrivKey.v ===== *)
(** * Validator keys ([internal/cometbft/privkey.go], [GeneratePrivKey] and the SDK encodings left out)

    A [priv_validator_key.json] is accepted when it holds a private key with its
    own public key and address that can sign. *)

From S2P Require Import Prelude GoLib IO ThirdParty ApiTypes KubeApi.

(** What a library call does besides returning: panic. *)
Inductive attempt (A : Type) := Returned (a : A) | Panicked (v : string).
Arguments Returned {A} _.
Arguments Panicked {A} _.
#[export] Instance attempt_ret : MRet attempt := @Returned.
#[export] Instance attempt_bind : MBind attempt :=
  λ A B f m, match m with Returned a => f a | Panicked v => Panicked v end.

(** [privval.FilePVKey] with its interfaces, which may be nil, and the same document read
    field by field. *)
Record FilePVKey (priv pub : Type) := mkFilePVKey {
  fpv_Address : string;
  fpv_PubKey : option pub;
  fpv_PrivKey : option priv;
}.
Arguments mkFilePVKey {priv pub} _ _ _.
Arguments fpv_Address {priv pub} _.
Arguments fpv_PubKey {priv pub} _.
Arguments fpv_PrivKey {priv pub} _.
Record TypedValue := mkTypedValue { tv_Type : string; tv_Value : string }.
Record PrivKey := mkPrivKey { pk_Address : string; pk_PubKey : TypedValue; pk_PrivKey : TypedValue }.

(** The libraries of CometBFT: the keys, the JSON codec and the signature scheme. *)
Class PrivvalApi := {
  PV : Type;
  PB : Type;
  UnmarshalFilePVKey : string → attempt (result (FilePVKey PV PB));
  UnmarshalPrivKey : string → result PrivKey;
  PubKeyOf : PV → attempt PB;
  pub_Equals : PB → PB → attempt bool;
  AddressOf : PB → attempt string;
  Sign : PV → string → attempt (result string);
  VerifySignature : PB → string → string → attempt bool;
}.

Section privkey.
Context `{PrivvalApi}.

Definition invalid_key (e : error) (detail : string) : error :=
  Wrapf e "invalid CometBFT private validator key: %w" [AStr detail].
Definition invalid_key_because (reason : string) : error :=
  Errorf ("invalid CometBFT private validator key: " +:+ reason) [].
Definition validation_message : string := "cosmopilot validator key validation".

(** The checks of a key that was read, in the order of the code. *)
Definition check_signature (priv : PV) (pub : PB) : attempt (result ()) :=
  signed ← Sign priv validation_message;
  match signed with
  | Err e => Returned (Err (invalid_key e "sign validation message"))
  | Ok signature =>
      ok ← VerifySignature pub validation_message signature;
      Returned (guard_err (negb ok) (invalid_key_because "private and public key material is inconsistent"))
  end.
Definition check_key (priv : PV) (pub : PB) (address : string) : attempt (result ()) :=
  derived ← PubKeyOf priv;
  same ← pub_Equals derived pub;
  if negb same then Returned (Err (invalid_key_because "public key does not match private key")) else
  derivedAddress ← AddressOf derived;
  if derivedAddress != address then Returned (Err (invalid_key_because "address does not match private key"))
  else check_signature priv derived.

Definition validatePrivValidatorKey (b : string) : result () :=
  match (key ← UnmarshalFilePVKey b;
         match key with
         | Err e => Returned (Err (invalid_key e ""))
         | Ok key =>
             match fpv_PrivKey key, fpv_PubKey key with
             | Some priv, Some pub => check_key priv pub (fpv_Address key)
             | _, _ => Returned (Err (invalid_key_because "private and public keys are required"))
             end
         end) with
  | Returned r => r
  | Panicked v => Err (invalid_key_because v)
  end.

Definition LoadPrivKey (b : string) : result PrivKey :=
  validatePrivValidatorKey b ;;
  UnmarshalPrivKey b.

(** What a loaded key is known to be: the key of the address in it, with a public key that is
    its own and verifies its signatures. *)
Definition sound_key (key : FilePVKey PV PB) : Prop :=
  ∃ priv pub derived signature,
    fpv_PrivKey key = Some priv ∧ fpv_PubKey key = Some pub ∧
    PubKeyOf priv = Returned derived ∧ pub_Equals derived pub = Returned true ∧
    AddressOf derived = Returned (fpv_Address key) ∧
    Sign priv validation_message = Returned (Ok signature) ∧
    VerifySignature derived validation_message signature = Returned true.

Lemma attempt_bind_Returned {A B} (m : attempt A) (f : A → attempt B) b :
  m ≫= f = Returned b ↔ ∃ a, m = Returned a ∧ f a = Returned b.
Proof. destruct m as [a|v]; simpl; [|naive_solver]. split; [by exists a|by intros (? & [= <-] & ?)]. Qed.

Lemma check_key_Ok priv pub address :
  check_key priv pub address = Returned (Ok ()) ↔
  ∃ derived signature, PubKeyOf priv = Returned derived ∧ pub_Equals derived pub = Returned true ∧
    AddressOf derived = Returned address ∧ Sign priv validation_message = Returned (Ok signature) ∧
    VerifySignature derived validation_message signature = Returned true.
Proof.
  unfold check_key, check_signature. rewrite attempt_bind_Returned. split.
  - intros (derived & Hd & (same & Hs & Hk)%attempt_bind_Returned). destruct same; [|done]. simpl in Hk.
    apply attempt_bind_Returned in Hk as (a & Ha & Hk). case_bool_decide; [|done]. simpl in Hk. subst a.
    apply attempt_bind_Returned in Hk as ([signature|e] & Hsig & Hk); [|done].
    apply attempt_bind_Returned in Hk as ([] & Hv & Hk); [|done]. by exists derived, signature.
  - intros (derived & signature & Hd & Hs & Ha & Hsig & Hv). exists derived. split; [done|].
    rewrite Hs. simpl. rewrite Ha. simpl. rewrite bool_decide_eq_true_2 by done. simpl.
    rewrite Hsig. simpl. by rewrite Hv.
Qed.

Lemma validatePrivValidatorKey_Ok b :
  validatePrivValidatorKey b = Ok () ↔ ∃ key, UnmarshalFilePVKey b = Returned (Ok key) ∧ sound_key key.
Proof.
  unfold validatePrivValidatorKey, sound_key.
  destruct (UnmarshalFilePVKey b) as [[key|e]|v]; simpl; [|naive_solver..].
  destruct (fpv_PrivKey key) as [priv|] eqn:E1; [destruct (fpv_PubKey key) as [pub|] eqn:E2|]; [|naive_solver..].
  transitivity (check_key priv pub (fpv_Address key) = Returned (Ok ())).
  { destruct (check_key _ _ _) as [[[]|]|]; naive_solver. }
  rewrite check_key_Ok. naive_solver.
Qed.
End privkey.
