(* ===== verification/DerivedNames.v ===== *)
(** * Names the operator derives from a resource's name ([api/v1/derived_names.go])

    Length limits of the derived DNS labels, and the names a custom resource
    may not take because another resource derives them. *)

From S2P Require Import Prelude GoLib.

Record nameFeatures := mkNameFeatures {
  nf_cosmosigner : bool;
  nf_cosmoguardNode : bool;
  nf_cosmoguardGroup : bool;
}.

(** The rows of the table the validation loops over: whether the name is
    created, its suffix, and what it names. *)
Definition derivedNames (f : nameFeatures) : list (bool * string * string) :=
  [(true, "-internal", "internal Service");
   (nf_cosmosigner f, "-signer-privval", "cosmosigner discovery Service");
   (nf_cosmoguardNode f, "-cg-peer", "CosmoGuard peer Service");
   (nf_cosmoguardGroup f, "-cg-upstream", "CosmoGuard upstream Service")].

Definition validateDerivedNameLengths (base subject : string) (f : nameFeatures) : result () :=
  for_each (λ '(on, suffix, desc),
    if negb on then Ok () else
    (let n := base +:+ suffix in
     return_if (63 <? String.length n)%nat err
       Errorf "the %s name %q (%d chars) exceeds the 63-character limit: shorten the %s"
         [AStr desc; AStr n; AInt (Z.of_nat (String.length n)); AStr subject];
     Ok ())) (derivedNames f).

Definition reservedNameSuffixes : list string :=
  ["-internal"; "-p2p"; "-grpc";
   "-tls"; "-priv-key"; "-account";
   "-upgrades"; "-init-data"; "-config-generator"; "-genesis-init"; "-create-validator";
   "-tmkms"; "-tmkms-generate-identity"; "-tmkms-vault-upload";
   "-cg"; "-cg-peer"; "-cg-cluster"; "-cg-dashboard"; "-cg-upstream";
   "-signer"; "-signer-privval"; "-signer-import"; "-signer-pubkey";
   "-seed"; "-seed-headless"; "-cosmoseed";
   "-validator"].

Definition ValidateReservedResourceName (name : string) (isCreate : bool) : result () :=
  if negb isCreate then Ok () else
  for_each (λ suffix,
    return_if has_suffix name suffix err
      Errorf "metadata.name %q is reserved: the %q suffix collides with a resource name cosmopilot derives from another resource; choose a different name"
        [AStr name; AStr suffix];
    Ok ()) reservedNameSuffixes.

Definition ValidateReservedStatefulChildName (name : string) (isCreate : bool) : result () :=
  if negb isCreate then Ok () else
  match LastIndex name "-" with
  | None => Ok ()
  | Some lastDash =>
      let base := slice_to lastDash name in
      if negb (has_suffix base "-signer") && negb (has_suffix base "-cg") &&
         negb (has_suffix base "-seed") then Ok ()
      else
        let ordinal := slice_from (lastDash + 1) name in
        match ParseInt 32 ordinal with
        | Err _ => Ok ()
        | Ok n =>
            if (n <? 0)%Z || (FormatInt n != ordinal) then Ok ()
            else Err (Errorf "metadata.name %q is reserved: it collides with a StatefulSet pod or PVC name cosmopilot derives (cosmosigner %q / CosmoGuard %q / cosmoseed %q); choose a different name"
                        [AStr name; AStr "-signer-<n>"; AStr "-cg-<n>"; AStr "-seed-<n>"])
        end
  end.

Definition ValidateReservedResourceNameNoWebhook (name : string) (isEstablished : bool) : result () :=
  if isEstablished then Ok () else ValidateReservedResourceName name true.

(** ** Decimal ordinals and the last dash of a name *)

Lemma uint_digits d : string_forallb is_digit (DecimalString.NilEmpty.string_of_uint d) = true.
Proof. induction d; simpl; auto. Qed.

Lemma FormatInt_digits n : (0 ≤ n)%Z → string_forallb is_digit (FormatInt n) = true.
Proof.
  intros Hn. unfold FormatInt. destruct n as [|p|p]; [done| |lia].
  unfold Z.to_int, DecimalString.NilZero.string_of_int, DecimalString.NilZero.string_of_uint.
  destruct (Pos.to_uint p) eqn:E; [done|rewrite <- E; apply uint_digits..].
Qed.

Lemma string_forallb_app f a b :
  string_forallb f (a +:+ b) = string_forallb f a && string_forallb f b.
Proof.
  induction a as [|c a IH]; [done|]. rewrite append_cons. simpl.
  by rewrite IH, andb_assoc.
Qed.

Lemma slice_from_add a b k : slice_from (String.length a + k) (a +:+ b) = slice_from k b.
Proof.
  unfold slice_from. rewrite string_length_app.
  replace (String.length a + String.length b - (String.length a + k))%nat
    with (String.length b - k)%nat by lia.
  induction a as [|c a IH]; [done|]. rewrite append_cons. simpl. apply IH.
Qed.

Lemma slice_from_forallb f k s :
  string_forallb f s = true → string_forallb f (slice_from k s) = true.
Proof.
  destruct (le_lt_dec k (String.length s)) as [Hk|Hk].
  - intros Hs. rewrite (substring_split s k Hk), string_forallb_app in Hs. by to_prop.
  - intros _. unfold slice_from. replace (String.length s - k)%nat with 0%nat by lia.
    clear Hk. revert k. induction s as [|c s IH]; intros [|k]; simpl; auto.
Qed.

(** The last dash of [a-b] is the one shown when [b] has none. *)
Lemma LastIndex_dash a b :
  string_forallb (λ c, negb (bool_decide (c = "-"%char))) b = true →
  LastIndex (a +:+ "-" +:+ b) "-" = Some (String.length a).
Proof.
  intros Hb. unfold LastIndex.
  assert (∀ k, last_index_below (String.length a + k) (a +:+ "-" +:+ b) "-" = Some (String.length a))
    as H; [|rewrite !string_length_app; apply H].
  intros k. induction k as [|k IH].
  - rewrite Nat.add_0_r. destruct (String.length a) as [|n] eqn:E; cbn [last_index_below].
    + destruct a; [|done]. rewrite append_nil_l.
      assert (has_prefix (slice_from 0 ("-" +:+ b)) "-" = true) as ->; [|done].
      change 0%nat with (String.length ""). rewrite <- (append_nil_l ("-" +:+ b)), slice_from_app.
      apply has_prefix_app.
    + rewrite <- E, slice_from_app, has_prefix_app. done.
  - rewrite Nat.add_succ_r. cbn [last_index_below]. rewrite <- Nat.add_succ_r, slice_from_add.
    assert (has_prefix (slice_from (S k) ("-" +:+ b)) "-" = false) as ->; [|done].
    apply not_true_is_false. intros [t Ht]%has_prefix_spec.
    change (S k) with (String.length "-" + k)%nat in Ht. rewrite slice_from_add in Ht.
    pose proof (slice_from_forallb _ k b Hb) as Hs. by rewrite Ht, append_cons in Hs.
Qed.

Lemma split_at_dash s n t :
  (n ≤ String.length s)%nat → slice_from n s = "-" +:+ t →
  s = slice_to n s +:+ "-" +:+ slice_from (n + 1) s.
Proof.
  intros Hn E. pose proof (substring_split s n Hn) as Hs. rewrite E in Hs.
  pose proof (length_slice_to n s Hn) as Hl. set (a := slice_to n s) in *.
  assert (slice_from (n + 1) s = t) as ->; [|done].
  rewrite Hs, <- Hl, slice_from_add. change 1%nat with (String.length "-"). apply slice_from_app.
Qed.

Lemma last_index_below_dash n s i :
  last_index_below n s "-" = Some i → (n ≤ String.length s)%nat →
  s = slice_to i s +:+ "-" +:+ slice_from (i + 1) s.
Proof.
  induction n as [|n IH]; cbn [last_index_below]; intros H Hn;
    destruct (has_prefix _ _) eqn:E; simplify_eq;
    try (apply has_prefix_spec in E as [t E]; by eapply split_at_dash).
  apply IH; [done|lia].
Qed.

Lemma LastIndex_dash_split s i :
  LastIndex s "-" = Some i → s = slice_to i s +:+ "-" +:+ slice_from (i + 1) s.
Proof. intros H. by eapply last_index_below_dash. Qed.

Lemma digits_no_dash s :
  string_forallb is_digit s = true →
  string_forallb (λ c, negb (bool_decide (c = "-"%char))) s = true.
Proof.
  induction s as [|c s IH]; simpl; [done|]. rewrite !andb_true_iff. intros [Hc Hs].
  split; [|auto]. by case_bool_decide; subst.
Qed.

(** ** What the checks accept *)

(** The length check accepts a base name exactly when every DNS label the
    enabled subsystems derive from it fits in 63 characters. *)
Theorem validateDerivedNameLengths_spec base subject f :
  validateDerivedNameLengths base subject f = Ok () ↔
  (∀ suffix desc, (true, suffix, desc) ∈ derivedNames f → (String.length (base +:+ suffix) ≤ 63)%nat).
Proof.
  unfold validateDerivedNameLengths. etrans; [apply for_each_Ok|]. rewrite Forall_forall. split.
  - intros H suffix desc Hin. specialize (H _ Hin). simpl in H.
    destruct (63 <? _)%nat eqn:E; [done|]. by apply Nat.ltb_ge in E.
  - intros H [[on suffix] desc] Hin. destruct on; [|done]. simpl.
    assert ((63 <? String.length (base +:+ suffix))%nat = false) as ->; [|done].
    apply Nat.ltb_ge. eauto.
Qed.

(** On creation, a name is refused by the reserved-suffix rule exactly when
    it ends in a suffix the operator derives; the no-webhook rule is the same
    until the object has been reconciled once. *)
Theorem ValidateReservedResourceName_spec name isEstablished :
  (ValidateReservedResourceName name true = Ok () ↔
     (∀ suffix, suffix ∈ reservedNameSuffixes → ¬ (∃ x, name = x +:+ suffix))) ∧
  (ValidateReservedResourceNameNoWebhook name isEstablished = Ok () ↔
     isEstablished = true ∨ ValidateReservedResourceName name true = Ok ()).
Proof.
  split.
  - unfold ValidateReservedResourceName. simpl negb. cbn [negb].
    etrans; [apply for_each_Ok|]. rewrite Forall_forall.
    split; intros H suffix Hin; specialize (H suffix Hin); rewrite <- has_suffix_spec in *;
      by destruct (has_suffix name suffix).
  - unfold ValidateReservedResourceNameNoWebhook. destruct isEstablished.
    + split; [by left|done].
    + split; [by right|by intros [|]].
Qed.

(** On creation, a name is refused as a stateful child name exactly when it
    is the name of a replica of some signer, CosmoGuard or cosmoseed
    StatefulSet: [<x>-signer-<n>], [<x>-cg-<n>] or [<x>-seed-<n>] with a canonical
    decimal ordinal of at most 31 bits. *)
Theorem ValidateReservedStatefulChildName_spec name :
  ValidateReservedStatefulChildName name true ≠ Ok () ↔
  ∃ x suffix n, suffix ∈ ["-signer"; "-cg"; "-seed"] ∧ (0 ≤ n < 2 ^ 31)%Z ∧
    name = (x +:+ suffix) +:+ "-" +:+ FormatInt n.
Proof.
  unfold ValidateReservedStatefulChildName. simpl negb. split.
  - destruct (LastIndex name "-") as [i|] eqn:Ei; [|done].
    apply LastIndex_dash_split in Ei.
    destruct (negb _ && negb _ && negb _) eqn:Es; [done|].
    destruct (ParseInt 32 _) as [n|] eqn:Ep; [|done].
    destruct ((n <? 0)%Z || _) eqn:En; [done|]. intros _. to_prop.
    assert (∃ x suffix, suffix ∈ ["-signer"; "-cg"; "-seed"] ∧ slice_to i name = x +:+ suffix)
      as (x & suffix & Hin & Hx).
    { rewrite !andb_false_iff, !negb_false_iff in Es.
      destruct Es as [[Es|Es]|Es]; apply has_suffix_spec in Es as [x Hx];
        exists x; eexists; (split; [|exact Hx]); repeat constructor. }
    exists x, suffix, n. split_and!; [done|lia| |].
    + apply ParseInt_range in Ep. lia.
    + rewrite <- Hx, H0. exact Ei.
  - intros (x & suffix & n & Hin & Hn & ->).
    rewrite LastIndex_dash by (apply digits_no_dash, FormatInt_digits; lia).
    assert (slice_to (String.length (x +:+ suffix)) ((x +:+ suffix) +:+ "-" +:+ FormatInt n) = x +:+ suffix)
      as -> by apply substring_app_l.
    rewrite slice_from_add. change 1%nat with (String.length "-"). rewrite slice_from_app.
    rewrite ParseInt_FormatInt by lia.
    assert (negb (has_suffix (x +:+ suffix) "-signer") && negb (has_suffix (x +:+ suffix) "-cg") &&
            negb (has_suffix (x +:+ suffix) "-seed") = false) as ->.
    { rewrite !andb_false_iff, !negb_false_iff.
      rewrite !elem_of_cons, elem_of_nil in Hin.
      destruct Hin as [->|[->|[->|[]]]]; rewrite has_suffix_app; auto. }
    assert ((n <? 0)%Z = false) as -> by (apply Z.ltb_ge; lia).
    by rewrite bool_decide_eq_true_2.
Qed.
