(* ===== verification/Upgrades.v ===== *)
(** * Upgrades

    The upgrade schedule a node keeps in its status
    ([internal/controllers/chainnode/upgrades.go]), its aggregation over a node
    set ([internal/controllers/chainnodeset/upgrades.go]), the version it implies
    ([api/v1/chainnode_helper.go], [chainnodeset_helper.go]) and the side of it
    that runs next to the application ([pkg/nodeutils/upgrades.go], [node.go]). *)

From S2P Require Import Prelude GoLib ThirdParty ApiTypes.

(** ** Images and versions ([api/v1/common_helper.go]) *)

Definition DefaultImageVersion : string := "latest".

Definition GetVersion (u : Upgrade) : string :=
  match split_char ":" (up_Image u) with
  | [_; version] => version
  | _ => DefaultImageVersion
  end.

Definition GetImageVersion (app : AppSpec) : string := default DefaultImageVersion (app_Version app).
Definition ShouldQueryGovUpgrades (app : AppSpec) : bool := default true (app_CheckGovUpgrades app).
Definition ForceGovUpgrade (u : UpgradeSpec) : bool := default false (us_ForceOnChain u).

(** ** The schedule of a node *)

Definition set_upgrade (u : Upgrade) (image : string) (status : UpgradePhase) (source : UpgradeSource) : Upgrade :=
  mkUpgrade (up_Height u) image status source.

(** The body of the loop for the entry of the same height. *)
Definition update_upgrade (currentHeight : Z) (upgrade u : Upgrade) : Upgrade :=
  let u1 :=
    if (up_Status u == UpgradeImageMissing) && (up_Image upgrade != "")
    then set_upgrade u (up_Image upgrade) UpgradeScheduled (up_Source upgrade) else u in
  let u2 :=
    if (up_Status u != UpgradeCompleted) && (up_Height u <? currentHeight)%Z
    then set_upgrade u1 (up_Image u1) UpgradeSkipped (up_Source u1) else u1 in
  set_upgrade u2 (up_Image u2) (up_Status u2) (up_Source upgrade).

(** The first entry of a height, updated in place, or the upgrade appended. *)
Fixpoint upsert (update : Upgrade → Upgrade) (upgrade : Upgrade) (l : list Upgrade) : list Upgrade :=
  match l with
  | [] => [upgrade]
  | u :: l => if (up_Height u =? up_Height upgrade)%Z then update u :: l else u :: upsert update upgrade l
  end.

Definition AddOrUpdateUpgrade (upgrades : list Upgrade) (upgrade : Upgrade) (currentHeight : Z) : list Upgrade :=
  upsert (update_upgrade currentHeight upgrade) upgrade upgrades.

(** [plan] is the height of the plan the chain announces, with the docker image
    its info document names, if any. *)
Definition getGovUpgrades (plan : option (Z * string)) : list Upgrade :=
  match plan with
  | None => []
  | Some (height, docker) =>
      [mkUpgrade height docker (if docker != "" then UpgradeScheduled else UpgradeImageMissing) OnChainUpgrade]
  end.

Definition upgrade_of_spec (latestHeight : Z) (s : UpgradeSpec) : Upgrade :=
  mkUpgrade (us_Height s) (us_Image s)
    (if (us_Height s <? latestHeight)%Z then UpgradeSkipped else UpgradeScheduled)
    (if ForceGovUpgrade s then OnChainUpgrade else ManualUpgrade).

Definition by_height (a b : Upgrade) : bool := (up_Height a <? up_Height b)%Z.

(** [.status.upgrades] after [ensureUpgrades].  [plan] is the answer of the
    chain, an error of which is only logged. *)
Definition ensureUpgrades (n : ChainNode) (nodePodRunning : bool) (plan : result (option (Z * string))) : list Upgrade :=
  let height := nst_LatestHeight (cn_Status n) in
  let add l u := AddOrUpdateUpgrade l u height in
  let gov :=
    if (nst_Phase (cn_Status n) == PhaseChainNodeRunning) && nodePodRunning &&
       ShouldQueryGovUpgrades (ns_App (cn_Spec n))
    then match plan with Ok plan => getGovUpgrades plan | Err _ => [] end else [] in
  sort_slice by_height
    (foldl add (foldl add (nst_Upgrades (cn_Status n)) gov)
       (map (upgrade_of_spec height) (app_Upgrades (ns_App (cn_Spec n))))).

(** [getUpgrade]: the scheduled upgrade of exactly that height. *)
Definition getUpgrade (upgrades : list Upgrade) (height : Z) : option Upgrade :=
  find (λ u, (up_Height u =? height)%Z && (up_Status u == UpgradeScheduled)) upgrades.

Fixpoint set_status (height : Z) (status : UpgradePhase) (l : list Upgrade) : option (list Upgrade) :=
  match l with
  | [] => None
  | u :: l =>
      if (up_Height u =? height)%Z then Some (set_upgrade u (up_Image u) status (up_Source u) :: l)
      else cons u <$> set_status height status l
  end.

Definition setUpgradeStatus (upgrades : list Upgrade) (upgrade : Upgrade) (status : UpgradePhase) : result (list Upgrade) :=
  match set_status (up_Height upgrade) status upgrades with
  | Some l => Ok l
  | None => Err (Errorf "cant update upgrade phase: upgrade not found" [])
  end.

(** ** The version a schedule implies *)

(** The loop that keeps the version of the highest eligible upgrade so far. *)
Definition version_loop (eligible : Upgrade → bool) (version : string) (l : list Upgrade) : Z * string :=
  foldl (λ '(h, version) u,
    if eligible u && (h <? up_Height u)%Z then (up_Height u, GetVersion u) else (h, version)) (0%Z, version) l.

Definition applied_by (latest : Z) (u : Upgrade) : bool :=
  ((up_Status u == UpgradeCompleted) || (up_Status u == UpgradeSkipped) || (up_Status u == UpgradeOnGoing)) &&
  (up_Height u <=? latest)%Z.

Definition GetAppVersion (n : ChainNode) : string :=
  match ns_OverrideVersion (cn_Spec n) with
  | Some v => v
  | None =>
      (version_loop (applied_by (nst_LatestHeight (cn_Status n))) (GetImageVersion (ns_App (cn_Spec n)))
         (nst_Upgrades (cn_Status n))).2
  end.

Definition GetLatestVersion (n : ChainNode) : string :=
  match ns_OverrideVersion (cn_Spec n) with
  | Some v => v
  | None =>
      (version_loop (λ u, (up_Status u == UpgradeCompleted) || (up_Status u == UpgradeSkipped))
         (GetImageVersion (ns_App (cn_Spec n))) (nst_Upgrades (cn_Status n))).2
  end.

Definition GetAppImageWithVersion (n : ChainNode) (version : string) : string :=
  app_Image (ns_App (cn_Spec n)) +:+ ":" +:+ version.
Definition GetAppImage (n : ChainNode) : string := GetAppImageWithVersion n (GetAppVersion n).
Definition GetLatestAppImage (n : ChainNode) : string := GetAppImageWithVersion n (GetLatestVersion n).

(** ** The schedule of a node set *)

Definition update_set_upgrade (upgrade u : Upgrade) : Upgrade :=
  if (up_Status u == UpgradeSkipped) ||
     ((up_Status upgrade == UpgradeCompleted) || (up_Status upgrade == UpgradeSkipped))
  then set_upgrade u (up_Image u) UpgradeCompleted (up_Source u) else u.

Definition set_AddOrUpdateUpgrade (upgrades : list Upgrade) (upgrade : Upgrade) : list Upgrade :=
  upsert (update_set_upgrade upgrade) upgrade upgrades.

(** The schedule and latest height after the nodes the label selector matched. *)
Definition set_ensureUpgrades (s : ChainNodeSet) (nodes : list ChainNode) : list Upgrade * Z :=
  let '(l, h) :=
    foldl (λ '(l, h) n,
      (foldl set_AddOrUpdateUpgrade l (nst_Upgrades (cn_Status n)),
       if (h <? nst_LatestHeight (cn_Status n))%Z then nst_LatestHeight (cn_Status n) else h))
      (sst_Upgrades (cns_Status s), sst_LatestHeight (cns_Status s)) nodes in
  (sort_slice by_height l, h).

Definition GetLastUpgradeVersion (s : ChainNodeSet) : string :=
  (version_loop (λ u, ((up_Status u == UpgradeCompleted) || (up_Status u == UpgradeSkipped)) &&
                      (up_Height u <=? sst_LatestHeight (cns_Status s))%Z)
     (GetImageVersion (ss_App (cns_Spec s))) (sst_Upgrades (cns_Status s))).2.

Definition spec_of_upgrade (u : Upgrade) : UpgradeSpec :=
  mkUpgradeSpec (up_Height u) (up_Image u) (if up_Source u == OnChainUpgrade then Some true else None).

Definition add_spec (l : list UpgradeSpec) (u : Upgrade) : list UpgradeSpec :=
  if existsb (λ a, (us_Height a =? up_Height u)%Z) l then l else l ++ [spec_of_upgrade u].

(** The application spec a set gives to its nodes. *)
Definition GetAppSpecWithUpgrades (s : ChainNodeSet) : AppSpec :=
  let app := ss_App (cns_Spec s) in
  app_with_Upgrades app
    (sort_slice (λ a b, (us_Height a <? us_Height b)%Z)
       (foldl add_spec (app_Upgrades app) (sst_Upgrades (cns_Status s)))).

(** ** The sidecar *)

(** [GetUpgrade] of the checker: the first scheduled entry at or below a height. *)
Definition checker_GetUpgrade (upgrades : list Upgrade) (height : Z) : option Upgrade :=
  find (λ u, (up_Height u <=? height)%Z && (up_Status u == UpgradeScheduled)) upgrades.
Definition ShouldUpgrade (upgrades : list Upgrade) (height : Z) : bool :=
  match checker_GetUpgrade upgrades height with Some _ => true | None => false end.

Record NodeUtils := mkNodeUtils {
  nu_latestBlockHeight : Z;
  nu_requiresUpgrade : bool;
  nu_stopped : bool;
}.

(** [CompareAndSwap(old, new)]: whether the value was [old], and the value after. *)
Definition CompareAndSwap (value old new : Z) : bool * Z :=
  if (value =? old)%Z then (true, new) else (false, value).

(** One trace with metadata; the loop ends once the node is stopped.  [stop] is
    whether [StopNode] succeeds. *)
Definition on_trace (upgrades : list Upgrade) (s : NodeUtils) (blockHeight : Z) (stop : bool) : NodeUtils :=
  let '(heightUpdated, height) := CompareAndSwap (nu_latestBlockHeight s) (nu_latestBlockHeight s) blockHeight in
  match checker_GetUpgrade upgrades height with
  | None => mkNodeUtils height (nu_requiresUpgrade s) false
  | Some upgrade =>
      if up_Source upgrade == OnChainUpgrade then mkNodeUtils height true false
      else if heightUpdated then mkNodeUtils height true stop
      else mkNodeUtils height (nu_requiresUpgrade s) false
  end.

(** ** Schedules as maps from heights *)

Abbreviation heights l := (map up_Height l).
Definition at_height (h : Z) (l : list Upgrade) : option Upgrade := find (λ u, (up_Height u =? h)%Z) l.

Lemma at_height_Some h l u : NoDup (heights l) → at_height h l = Some u ↔ u ∈ l ∧ up_Height u = h.
Proof.
  unfold at_height. induction l as [|x l IH]; simpl; intros Hd; [set_solver|].
  apply NoDup_cons in Hd as [Hx Hd]. destruct (Z.eqb_spec (up_Height x) h) as [E|E].
  - split; [intros [= <-]; split; [left|]; done|]. intros [[->|Hu]%elem_of_cons Eu]; [done|].
    destruct Hx. rewrite E, <- Eu. by apply list_elem_of_fmap_2.
  - rewrite IH by done. split; [intros [? ?]; split; [by right|done]|].
    intros [[->|Hu]%elem_of_cons Eu]; done.
Qed.

Lemma at_height_None h l : at_height h l = None ↔ h ∉ heights l.
Proof.
  unfold at_height. induction l as [|x l IH]; simpl; [set_solver|]. destruct (Z.eqb_spec (up_Height x) h) as [E|E].
  - split; [done|]. set_solver.
  - rewrite IH. set_solver.
Qed.

Lemma at_height_perm h l l' : NoDup (heights l) → l ≡ₚ l' → at_height h l = at_height h l'.
Proof.
  intros Hd Hp. apply option_eq. intros u. rewrite !at_height_Some; [by rewrite Hp|by rewrite <- Hp|done].
Qed.

Section upsert.
Variables (f : Upgrade → Upgrade) (x : Upgrade).
Hypothesis f_height : ∀ u, up_Height (f u) = up_Height u.

Lemma at_height_upsert h l :
  at_height h (upsert f x l) =
  if decide (h = up_Height x) then Some (match at_height h l with Some u => f u | None => x end) else at_height h l.
Proof using f_height.
  unfold at_height. induction l as [|u l IH]; simpl.
  - rewrite Z.eqb_sym. destruct (Z.eqb_spec h (up_Height x)); by case_decide.
  - destruct (Z.eqb_spec (up_Height u) (up_Height x)) as [E|E]; simpl.
    + rewrite f_height. destruct (Z.eqb_spec (up_Height u) h); case_decide; try congruence.
    + rewrite IH. destruct (Z.eqb_spec (up_Height u) h); case_decide; congruence.
Qed.

Lemma upsert_heights l :
  heights (upsert f x l) = if decide (up_Height x ∈ heights l) then heights l else heights l ++ [up_Height x].
Proof using f_height.
  induction l as [|u l IH]; simpl; [done|]. destruct (Z.eqb_spec (up_Height u) (up_Height x)) as [E|E]; simpl.
  - rewrite f_height, decide_True by (rewrite E; left). done.
  - rewrite IH. case_decide; case_decide; try done; set_solver.
Qed.

Lemma upsert_NoDup l : NoDup (heights l) → NoDup (heights (upsert f x l)).
Proof using f_height.
  intros Hd. rewrite upsert_heights. case_decide; [done|]. apply NoDup_app. split_and!; [done| |apply NoDup_singleton].
  set_solver.
Qed.
End upsert.

Lemma update_upgrade_height c x u : up_Height (update_upgrade c x u) = up_Height u.
Proof. unfold update_upgrade. simpl. by repeat case_match. Qed.
Lemma update_set_upgrade_height x u : up_Height (update_set_upgrade x u) = up_Height u.
Proof. unfold update_set_upgrade. by destruct (_ || _). Qed.

(** What adding keeps of an entry: its height, and a completed upgrade. *)
Definition kept (u u' : Upgrade) : Prop :=
  up_Status u = UpgradeCompleted → up_Status u' = UpgradeCompleted ∧ up_Image u' = up_Image u.

Lemma kept_refl u : kept u u.
Proof. done. Qed.
Lemma kept_trans u v w : kept u v → kept v w → kept u w.
Proof. intros H1 H2 Hu. destruct (H1 Hu) as [Hv Ev]. destruct (H2 Hv) as [Hw Ew]. split; congruence. Qed.

Lemma update_upgrade_kept c x u : kept u (update_upgrade c x u).
Proof. intros Hu. unfold update_upgrade. by rewrite Hu. Qed.

(** A past upgrade that is added is not left to be performed. *)
Lemma update_upgrade_past c x u :
  (up_Height u < c)%Z → up_Status (update_upgrade c x u) = UpgradeCompleted ∨ up_Status (update_upgrade c x u) = UpgradeSkipped.
Proof.
  intros Hc. unfold update_upgrade. rewrite (proj2 (Z.ltb_lt _ _)) by done.
  destruct (bool_decide (up_Status u = UpgradeCompleted)) eqn:E; simpl; [|by right].
  to_prop. left. by rewrite E.
Qed.

Lemma adds_lookup c l xs h u :
  at_height h l = Some u → ∃ u', at_height h (foldl (λ l x, AddOrUpdateUpgrade l x c) l xs) = Some u' ∧ kept u u'.
Proof.
  revert l u. induction xs as [|x xs IH]; intros l u Hu; simpl; [by exists u|].
  assert (∃ v, at_height h (AddOrUpdateUpgrade l x c) = Some v ∧ kept u v) as (v & Hv & Hk).
  { unfold AddOrUpdateUpgrade. rewrite at_height_upsert by apply update_upgrade_height. case_decide; [|by exists u].
    rewrite Hu. eexists. split; [done|]. apply update_upgrade_kept. }
  destruct (IH _ _ Hv) as (w & Hw & Hk'). exists w. split; [done|]. by eapply kept_trans.
Qed.

Lemma adds_NoDup c l xs : NoDup (heights l) → NoDup (heights (foldl (λ l x, AddOrUpdateUpgrade l x c) l xs)).
Proof. revert l. induction xs as [|x xs IH]; intros l Hd; simpl; [done|]. apply IH, upsert_NoDup; [apply update_upgrade_height|done]. Qed.

Lemma adds_heights c l xs h :
  h ∈ heights (foldl (λ l x, AddOrUpdateUpgrade l x c) l xs) ↔ h ∈ heights l ∨ h ∈ heights xs.
Proof.
  revert l. induction xs as [|x xs IH]; intros l; simpl; [set_solver|].
  rewrite IH. unfold AddOrUpdateUpgrade. rewrite upsert_heights by apply update_upgrade_height. case_decide; set_solver.
Qed.

Definition settled (u : Upgrade) : Prop := up_Status u = UpgradeCompleted ∨ up_Status u = UpgradeSkipped.

(** Once settled, a past entry stays settled. *)
Lemma adds_settled c l xs h :
  (h < c)%Z → (∃ u, at_height h l = Some u ∧ settled u) ∨
              (∃ x, x ∈ xs ∧ up_Height x = h) ∧ (∀ x, x ∈ xs → up_Height x = h → settled x) →
  ∃ u, at_height h (foldl (λ l x, AddOrUpdateUpgrade l x c) l xs) = Some u ∧ settled u.
Proof.
  intros Hc. revert l. induction xs as [|x xs IH]; intros l; simpl; [intros [?|[(? & ?%elem_of_nil & _) _]]; done|].
  intros Hor. apply IH. unfold AddOrUpdateUpgrade. rewrite at_height_upsert by apply update_upgrade_height.
  destruct (decide (h = up_Height x)) as [E|E].
  - left. destruct (at_height h l) as [u|] eqn:Eu.
    + eexists. split; [done|]. apply update_upgrade_past. apply find_some in Eu as [_ Eu%Z.eqb_eq]. lia.
    + eexists. split; [done|]. destruct Hor as [(u & ? & _)|[_ Hs]]; [done|]. by apply Hs; [left|].
  - destruct Hor as [?|[(y & Hy & Ey) Hs]]; [by left|]. apply elem_of_cons in Hy as [->|Hy]; [done|].
    right. split; [by exists y|]. intros z Hz. apply Hs. by right.
Qed.

Lemma by_height_sorted l : NoDup (heights l) → StronglySorted Z.lt (heights (sort_slice by_height l)).
Proof.
  intros Hd. assert (NoDup (heights (sort_slice by_height l))) as Hd'.
  { by rewrite sort_slice_perm. }
  assert (Sorted (not_after by_height) (sort_slice by_height l)) as Hs.
  { apply sort_slice_sorted. intros x y. unfold by_height. rewrite Z.ltb_lt, Z.ltb_ge. lia. }
  apply Sorted_StronglySorted; [intros x y z; lia|].
  induction Hs as [|x l' Hs IH Hh]; simpl; [constructor|]. simpl in Hd'. apply NoDup_cons in Hd' as [Hx Hd''].
  constructor; [by apply IH|]. destruct Hh as [|y l'' Hxy]; simpl; constructor.
  unfold not_after, by_height in Hxy. apply Z.ltb_ge in Hxy. assert (up_Height x ≠ up_Height y); [|lia]. set_solver.
Qed.

(** ** Versions *)

Lemma version_loop_spec e v l :
  let '(h, v') := version_loop e v l in
  (0 ≤ h)%Z ∧ (∀ u, u ∈ l → e u = true → (up_Height u ≤ h)%Z) ∧
  (h = 0%Z ∧ v' = v ∨ ∃ u, u ∈ l ∧ e u = true ∧ up_Height u = h ∧ (0 < h)%Z ∧ v' = GetVersion u).
Proof.
  unfold version_loop. induction l as [|u l IH] using rev_ind; simpl.
  { split_and!; [done|set_solver|by left]. }
  rewrite foldl_app. simpl. destruct (foldl _ _ l) as [h v']. destruct IH as (H0 & Hmax & Hv).
  destruct (e u) eqn:Eu; simpl.
  - destruct (Z.ltb_spec h (up_Height u)) as [Hlt|Hge].
    + split_and!; [lia| |].
      * intros w [Hw| ->%list_elem_of_singleton]%elem_of_app Ew; [|lia]. specialize (Hmax w Hw Ew). lia.
      * right. exists u. split_and!; [set_solver|done|done|lia|done].
    + split_and!; [done| |].
      * intros w [Hw| ->%list_elem_of_singleton]%elem_of_app Ew; [auto|lia].
      * destruct Hv as [?|(w & ? & ?)]; [by left|right]. exists w. set_solver.
  - split_and!; [done| |].
    + intros w [Hw| ->%list_elem_of_singleton]%elem_of_app Ew; [auto|congruence].
    + destruct Hv as [?|(w & ? & ?)]; [by left|right]. exists w. set_solver.
Qed.

(** Whether an upgrade has replaced the image of the node by its latest height. *)
Definition applied (latest : Z) (u : Upgrade) : Prop :=
  up_Status u ∈ [UpgradeCompleted; UpgradeSkipped; UpgradeOnGoing] ∧ (0 < up_Height u ≤ latest)%Z.

(** The version a node runs is the override if there is one, and otherwise that
    of the highest upgrade applied by its latest height, or the version of the
    application spec when there is none. *)
Theorem GetAppVersion_spec n :
  let latest := nst_LatestHeight (cn_Status n) in
  let l := nst_Upgrades (cn_Status n) in
  match ns_OverrideVersion (cn_Spec n) with
  | Some v => GetAppVersion n = v
  | None =>
      (∃ u, u ∈ l ∧ applied latest u ∧ (∀ w, w ∈ l → applied latest w → (up_Height w ≤ up_Height u)%Z) ∧
            GetAppVersion n = GetVersion u) ∨
      (∀ u, u ∈ l → ¬ applied latest u) ∧ GetAppVersion n = GetImageVersion (ns_App (cn_Spec n))
  end.
Proof.
  cbv zeta. unfold GetAppVersion. destruct (ns_OverrideVersion _) as [v|]; [done|].
  set (l := nst_Upgrades _). set (latest := nst_LatestHeight _).
  pose proof (version_loop_spec (applied_by latest) (GetImageVersion (ns_App (cn_Spec n))) l) as Hl.
  destruct (version_loop _ _ _) as [h v]. destruct Hl as (_ & Hmax & Hv). simpl.
  assert (∀ u, applied latest u ↔ applied_by latest u = true ∧ (0 < up_Height u)%Z) as He.
  { intros u. unfold applied, applied_by. rewrite andb_true_iff, !orb_true_iff, !bool_decide_eq_true, Z.leb_le. set_solver by lia. }
  destruct Hv as [[-> ->]|(u & Hu & Eu & <- & Hp & ->)].
  - right. split; [|done]. intros u Hu Ha. apply He in Ha as [Eu Hp]. specialize (Hmax u Hu Eu). lia.
  - left. exists u. split_and!; [done|by apply He| |done]. intros w Hw [Ew _]%He. auto.
Qed.

(** ** Properties of the schedule *)

Lemma schedule_heights n running plan (Hd : NoDup (heights (nst_Upgrades (cn_Status n)))) :
  let l := ensureUpgrades n running plan in
  let spec_upgrades := app_Upgrades (ns_App (cn_Spec n)) in
  StronglySorted Z.lt (heights l) ∧
  (∀ u, u ∈ nst_Upgrades (cn_Status n) → ∃ u', u' ∈ l ∧ up_Height u' = up_Height u ∧ kept u u') ∧
  (∀ s, s ∈ spec_upgrades → ∃ u, u ∈ l ∧ up_Height u = us_Height s ∧
          ((us_Height s < nst_LatestHeight (cn_Status n))%Z → settled u)) ∧
  (∀ h, h ∈ heights l → h ∈ heights (nst_Upgrades (cn_Status n)) ∨ h ∈ map us_Height spec_upgrades ∨
          ∃ docker, plan = Ok (Some (h, docker))).
Proof.
  cbv zeta. unfold ensureUpgrades. set (c := nst_LatestHeight _). set (gov := if _ && _ && _ then _ else _).
  set (specs := map (upgrade_of_spec c) _). set (l0 := foldl _ (nst_Upgrades _) gov). set (l1 := foldl _ l0 specs).
  assert (NoDup (heights l0)) as D0 by by apply adds_NoDup.
  assert (NoDup (heights l1)) as D1 by by apply adds_NoDup.
  assert (∀ u, u ∈ sort_slice by_height l1 ↔ at_height (up_Height u) l1 = Some u) as Hin.
  { intros u. rewrite at_height_Some by done. rewrite (sort_slice_perm by_height l1). naive_solver. }
  split_and!.
  - by apply by_height_sorted.
  - intros u Hu. destruct (adds_lookup c (nst_Upgrades (cn_Status n)) gov (up_Height u) u) as (v & Hv & K1);
      [by apply at_height_Some|].
    destruct (adds_lookup c l0 specs (up_Height u) v Hv) as (w & Hw & K2).
    pose proof (proj1 (at_height_Some _ _ _ D1) Hw) as [_ Ew].
    exists w. split_and!; [|done|by eapply kept_trans]. apply Hin. by rewrite Ew.
  - intros s Hs. assert (us_Height s ∈ heights l1) as Hh.
    { apply adds_heights. right. unfold specs. rewrite map_map. by apply (list_elem_of_fmap_2 us_Height). }
    destruct (at_height (us_Height s) l1) as [u|] eqn:Eu; [|by apply at_height_None in Eu].
    pose proof (proj1 (at_height_Some _ _ _ D1) Eu) as [_ Ew].
    exists u. split_and!; [apply Hin; by rewrite Ew|done|]. intros Hc.
    destruct (adds_settled c l0 specs (us_Height s) Hc) as (u' & Hu' & Hset).
    + right. split.
      * exists (upgrade_of_spec c s). split; [by apply list_elem_of_fmap_2|done].
      * intros x (s' & -> & _)%list_elem_of_fmap Ex. simpl in Ex. right. simpl. by rewrite Ex, (proj2 (Z.ltb_lt _ _)).
    + fold l1 in Hu'. rewrite Eu in Hu'. by injection Hu' as ->.
  - intros h Hh. rewrite sort_slice_perm in Hh. apply adds_heights in Hh as [Hh|Hh].
    + apply adds_heights in Hh as [Hh|Hh]; [by left|]. right; right. unfold gov in Hh.
      destruct (_ && _ && _); [|set_solver]. destruct plan as [[[ph docker]|]|e]; simpl in Hh; [|set_solver..].
      exists docker. apply list_elem_of_singleton in Hh as ->. done.
    + right; left. unfold specs in Hh. by rewrite map_map in Hh.
Qed.

(** *** What is announced, and what becomes of it

    Stated for one height at a time, apart from how the schedule is computed. *)

(** What the chain announces, when it is asked: a running node whose pod runs and whose application
    allows it. *)
Definition plan_announced (n : ChainNode) (nodePodRunning : bool) (plan : result (option (Z * string))) : list Upgrade :=
  match plan with
  | Ok (Some (height, docker)) =>
      if decide (nst_Phase (cn_Status n) = PhaseChainNodeRunning ∧ nodePodRunning = true ∧
                 app_CheckGovUpgrades (ns_App (cn_Spec n)) ≠ Some false)
      then [mkUpgrade height docker (if decide (docker = "") then UpgradeImageMissing else UpgradeScheduled) OnChainUpgrade]
      else []
  | _ => []
  end.

(** What the spec announces: skipped when the node is past it, on chain when it is forced there. *)
Definition spec_announced (latest : Z) (s : UpgradeSpec) : Upgrade :=
  mkUpgrade (us_Height s) (us_Image s) (if decide (us_Height s < latest)%Z then UpgradeSkipped else UpgradeScheduled)
    (if decide (us_ForceOnChain s = Some true) then OnChainUpgrade else ManualUpgrade).

(** The announcements of one height, that of the chain first. *)
Definition announced (n : ChainNode) (nodePodRunning : bool) (plan : result (option (Z * string))) (h : Z) : list Upgrade :=
  filter (λ u, up_Height u = h) (plan_announced n nodePodRunning plan ++
    map (spec_announced (nst_LatestHeight (cn_Status n))) (app_Upgrades (ns_App (cn_Spec n)))).

(** The first image among announcements, empty when none names one. *)
Definition first_image (l : list Upgrade) : string :=
  default "" (head (filter (λ image, image ≠ "") (map up_Image l))).

(** An entry that is announced again.  A completed one changes nothing but its source.  One that the
    node is past is skipped, and takes an image it misses only from the first announcement; any other
    keeps its status and image, but becomes scheduled with the first image announced when it had
    none.  The source is the one announced last. *)
Definition announce_again (latest : Z) (u : Upgrade) (l : list Upgrade) : Upgrade :=
  let source := default (up_Source u) (up_Source <$> last l) in
  let image := if decide (up_Height u < latest)%Z then first_image (take 1 l) else first_image l in
  let kept_image := if decide (up_Status u = UpgradeImageMissing ∧ image ≠ "") then image else up_Image u in
  match up_Status u with
  | UpgradeCompleted => mkUpgrade (up_Height u) (up_Image u) UpgradeCompleted source
  | status =>
      if decide (up_Height u < latest)%Z then mkUpgrade (up_Height u) kept_image UpgradeSkipped source
      else mkUpgrade (up_Height u) kept_image
             (if decide (status = UpgradeImageMissing ∧ image ≠ "") then UpgradeScheduled else status) source
  end.

(** The entry of a height after its announcements: a new one is the first announcement. *)
Definition entry_after (latest : Z) (prior : option Upgrade) (l : list Upgrade) : option Upgrade :=
  match prior, l with
  | None, [] => None
  | None, [x] => Some x
  | Some u, [] => Some u
  | None, x :: l => Some (announce_again latest x l)
  | Some u, l => Some (announce_again latest u l)
  end.

Lemma first_image_cons x l : first_image (x :: l) = if decide (up_Image x = "") then first_image l else up_Image x.
Proof.
  unfold first_image. simpl. rewrite filter_cons. destruct (decide (up_Image x = "")) as [E|E]; [rewrite decide_False|rewrite decide_True]; try done.
  by intros [].
Qed.

Ltac upgrade_cases :=
  repeat case_decide; simpl in *; rewrite ?bool_decide_eq_true_2, ?bool_decide_eq_false_2 by done; simpl;
  repeat case_decide; simpl in *; try done; try lia; try naive_solver.

Lemma announced_once c u x : update_upgrade c x u = announce_again c u [x].
Proof.
  unfold update_upgrade, announce_again, set_upgrade. cbn [take last fmap option_fmap option_map default]. rewrite first_image_cons.
  destruct u as [h i st so], x as [h' i' st' so']. simpl. change (first_image []) with "".
  destruct (Z.ltb_spec h c), st; upgrade_cases.
Qed.

Lemma announced_step c u x y l :
  announce_again c (announce_again c u [x]) (y :: l) = announce_again c u (x :: y :: l).
Proof.
  unfold announce_again. rewrite last_cons_cons. destruct (last (y :: l)) as [z|] eqn:El; [|by apply last_None in El].
  cbn [take last fmap option_fmap option_map default]. rewrite !first_image_cons. change (first_image []) with "".
  destruct u as [h i st so]. simpl. destruct st; upgrade_cases.
Qed.

Lemma announced_all c u x l : foldl (λ u x, update_upgrade c x u) u (x :: l) = announce_again c u (x :: l).
Proof.
  revert u x. induction l as [|y l IH]; intros u x; [apply announced_once|].
  change (foldl (λ u x, update_upgrade c x u) (update_upgrade c x u) (y :: l) = announce_again c u (x :: y :: l)).
  by rewrite IH, announced_once, announced_step.
Qed.

Lemma adds_entry c l xs h :
  at_height h (foldl (λ l x, AddOrUpdateUpgrade l x c) l xs) =
  entry_after c (at_height h l) (filter (λ u, up_Height u = h) xs).
Proof.
  assert (∀ xs u, foldl (λ o x, Some match o with Some u => update_upgrade c x u | None => x end) (Some u) xs =
                  Some (foldl (λ u x, update_upgrade c x u) u xs)) as Hf.
  { intros ys. induction ys as [|y ys IH]; intros u; simpl; [done|]. apply IH. }
  transitivity (foldl (λ o x, Some match o with Some u => update_upgrade c x u | None => x end)
    (at_height h l) (filter (λ u, up_Height u = h) xs)).
  - revert l. induction xs as [|x xs IH]; intros l; simpl; [done|]. rewrite IH, filter_cons. unfold AddOrUpdateUpgrade.
    rewrite at_height_upsert by apply update_upgrade_height. repeat case_decide; by subst.
  - destruct (at_height h l) as [u|], (filter _ xs) as [|x ys]; try done.
    + by rewrite Hf, announced_all.
    + cbn [foldl]. rewrite Hf. destruct ys as [|y ys]; [done|]. by rewrite announced_all.
Qed.

Lemma announcements_meant n running plan h :
  filter (λ u, up_Height u = h)
    ((if (nst_Phase (cn_Status n) == PhaseChainNodeRunning) && running && ShouldQueryGovUpgrades (ns_App (cn_Spec n))
      then match plan with Ok plan => getGovUpgrades plan | Err _ => [] end else []) ++
     map (upgrade_of_spec (nst_LatestHeight (cn_Status n))) (app_Upgrades (ns_App (cn_Spec n)))) =
  announced n running plan h.
Proof.
  unfold announced. f_equal. f_equal.
  - unfold plan_announced, ShouldQueryGovUpgrades, getGovUpgrades.
    destruct plan as [[[ph docker]|]|e]; [|by destruct (_ && _)..].
    assert (default true (app_CheckGovUpgrades (ns_App (cn_Spec n))) = true ↔ app_CheckGovUpgrades (ns_App (cn_Spec n)) ≠ Some false) as Hg
      by (destruct (app_CheckGovUpgrades _) as [[]|]; naive_solver).
    match goal with |- context [decide (?P ∧ ?Q)] => destruct (decide (P ∧ Q)) as [Ed|Ed] end;
      destruct ((_ == _) && _ && _) eqn:E.
    + destruct (decide (docker = "")) as [->|Hk]; [done|]. by rewrite bool_decide_eq_false_2 by done.
    + destruct Ed as (E1 & -> & E3%Hg). rewrite E1, E3, bool_decide_eq_true_2 in E by done. done.
    + destruct Ed. to_prop. split_and!; [done..|by apply Hg].
    + done.
  - apply map_ext. intros a. unfold upgrade_of_spec, spec_announced, ForceGovUpgrade. f_equal.
    + destruct (Z.ltb_spec (us_Height a) (nst_LatestHeight (cn_Status n))); case_decide; done || lia.
    + destruct (us_ForceOnChain a) as [[]|]; repeat case_decide; done.
Qed.

(** C38: reconciling a schedule keeps one entry per height in increasing order, and at each height
    the entry is exactly the recorded one, updated by what was announced for that height: the plan of
    the chain (only asked of a running node, with the image its info names, and without one marked as
    missing it) and then the upgrades of the spec (skipped when the node is past them).  Nothing is
    recorded that was not recorded or announced, and no entry is forgotten or changed without an
    announcement.  In particular a completed one keeps its status and image, and what the spec lists
    below the node's height is never left to be performed. *)
Theorem ensureUpgrades_spec n running plan (Hd : NoDup (heights (nst_Upgrades (cn_Status n)))) :
  let l := ensureUpgrades n running plan in
  let latest := nst_LatestHeight (cn_Status n) in
  StronglySorted Z.lt (heights l) ∧
  (∀ h, at_height h l = entry_after latest (at_height h (nst_Upgrades (cn_Status n))) (announced n running plan h)) ∧
  (∀ u, u ∈ nst_Upgrades (cn_Status n) → ∃ u', u' ∈ l ∧ up_Height u' = up_Height u ∧ kept u u') ∧
  (∀ s, s ∈ app_Upgrades (ns_App (cn_Spec n)) → ∃ u, u ∈ l ∧ up_Height u = us_Height s ∧
          ((us_Height s < latest)%Z → settled u)) ∧
  (∀ h, h ∈ heights l → h ∈ heights (nst_Upgrades (cn_Status n)) ∨ h ∈ map us_Height (app_Upgrades (ns_App (cn_Spec n))) ∨
          ∃ docker, plan = Ok (Some (h, docker))).
Proof.
  cbv zeta. destruct (schedule_heights n running plan Hd) as (H1 & H2 & H3 & H4).
  split_and!; [done| |done..]. intros h. unfold ensureUpgrades. rewrite <- announcements_meant.
  set (c := nst_LatestHeight _). set (gov := if _ && _ && _ then _ else _). rewrite <- foldl_app, <- adds_entry.
  symmetry. apply at_height_perm; [by apply adds_NoDup|]. symmetry. apply sort_slice_perm.
Qed.

(** ** Images *)

Fixpoint occurs (sep : Ascii.ascii) (s : string) : nat :=
  match s with
  | EmptyString => 0
  | String c s => (if c == sep then 1 else 0) + occurs sep s
  end.

Lemma split_char_length sep s : length (split_char sep s) = S (occurs sep s).
Proof.
  induction s as [|c s IH]; simpl; [done|]. destruct (bool_decide _); simpl; [by rewrite IH|].
  destruct (split_char sep s); simpl in *; [lia|done].
Qed.

Lemma split_char_one sep s x : split_char sep s = [x] → s = x.
Proof.
  revert x. induction s as [|c s IH]; intros x; simpl; [congruence|].
  destruct (bool_decide _).
  - pose proof (split_char_length sep s). destruct (split_char sep s); simpl in *; [lia|done].
  - destruct (split_char sep s) as [|p [|? ?]] eqn:E; intros [= <-].
    + pose proof (split_char_length sep s). rewrite E in *. simpl in *. lia.
    + by rewrite (IH p).
Qed.

Lemma split_char_two sep s x y : split_char sep s = [x; y] → s = x +:+ String sep y.
Proof.
  revert x. induction s as [|c s IH]; intros x; simpl; [done|].
  destruct (bool_decide (c = sep)) eqn:E; to_prop.
  - intros [= <- Hy]. subst. by rewrite (split_char_one sep s y).
  - destruct (split_char sep s) as [|p ps] eqn:Es; [done|]. intros [= <- ->]. rewrite append_cons.
    f_equal. by apply IH.
Qed.

(** An image names its version only when it has exactly one colon, and then it
    is what follows the colon; any other image, a registry with a port included,
    stands for the default version. *)
Theorem GetVersion_spec u :
  if decide (occurs ":" (up_Image u) = 1) then ∃ repository, up_Image u = repository +:+ ":" +:+ GetVersion u
  else GetVersion u = DefaultImageVersion.
Proof.
  unfold GetVersion. pose proof (split_char_length ":" (up_Image u)) as Hl.
  case_decide as Hc; rewrite ?Hc in Hl; destruct (split_char ":" (up_Image u)) as [|x [|y [|z l]]] eqn:E;
    simpl in Hl; try lia; try done.
  exists x. by apply split_char_two in E.
Qed.

(** ** Missing images across a set *)

(** The entry of a node that has not heard of an upgrade the set knows without an
    image. *)
Lemma spec_contains s u :
  u ∈ sst_Upgrades (cns_Status s) → ¬ (∃ a, a ∈ app_Upgrades (ss_App (cns_Spec s)) ∧ us_Height a = up_Height u) →
  NoDup (heights (sst_Upgrades (cns_Status s))) →
  spec_of_upgrade u ∈ app_Upgrades (GetAppSpecWithUpgrades s) ∧
  ∀ a, a ∈ app_Upgrades (GetAppSpecWithUpgrades s) → us_Height a = up_Height u → a = spec_of_upgrade u.
Proof.
  intros Hu Hno Hd. simpl.
  assert (∀ l x, x ∈ foldl add_spec (app_Upgrades (ss_App (cns_Spec s))) l →
    x ∈ app_Upgrades (ss_App (cns_Spec s)) ∨ ∃ v, v ∈ l ∧ x = spec_of_upgrade v) as Hfrom.
  { intros l. induction l as [|v l IH] using rev_ind; intros x; simpl; [auto|].
    rewrite foldl_app. simpl. unfold add_spec at 1. destruct (existsb _ _).
    - intros [?|(w & ? & ?)]%IH; [by left|right]. exists w. set_solver.
    - intros [[?|(w & ? & ?)]%IH| ->%list_elem_of_singleton]%elem_of_app; [by left|right; exists w; set_solver|].
      right. exists v. set_solver. }
  assert (∀ l, u ∈ l → ∃ a, a ∈ foldl add_spec (app_Upgrades (ss_App (cns_Spec s))) l ∧ us_Height a = up_Height u) as Hto.
  { intros l. induction l as [|v l IH] using rev_ind; simpl; [set_solver|]. rewrite foldl_app. simpl.
    unfold add_spec at 1. intros [Hv| ->%list_elem_of_singleton]%elem_of_app.
    - destruct (IH Hv) as (a & Ha & Ea). exists a. split; [|done]. destruct (existsb _ _); set_solver.
    - destruct (existsb _ _) eqn:E.
      + apply existsb_exists in E as (a & Ha & Ea%Z.eqb_eq). exists a. by rewrite list_elem_of_In.
      + exists (spec_of_upgrade v). set_solver. }
  assert (∀ a, a ∈ foldl add_spec (app_Upgrades (ss_App (cns_Spec s))) (sst_Upgrades (cns_Status s)) →
    us_Height a = up_Height u → a = spec_of_upgrade u) as Honly.
  { intros a [Ha|(v & Hv & ->)]%Hfrom Ea; [destruct Hno; eauto|]. simpl in Ea. f_equal.
    assert (at_height (up_Height u) (sst_Upgrades (cns_Status s)) = Some u) as H1 by by apply at_height_Some.
    assert (at_height (up_Height u) (sst_Upgrades (cns_Status s)) = Some v) as H2 by by apply at_height_Some.
    congruence. }
  split.
  - rewrite sort_slice_perm. destruct (Hto _ Hu) as (a & Ha & Ea). by rewrite <- (Honly a Ha Ea).
  - intros a Ha. rewrite sort_slice_perm in Ha. auto.
Qed.

(** An entry that will be performed with no image. *)
Definition imageless (u : Upgrade) : Prop := up_Image u = "" ∧ up_Status u = UpgradeScheduled.

Lemma adds_imageless c l xs h :
  (c ≤ h)%Z → (∀ x, x ∈ xs → up_Height x = h → imageless x) →
  (∃ v, at_height h l = Some v ∧ imageless v) ∨ at_height h l = None ∧ h ∈ heights xs →
  ∃ v, at_height h (foldl (λ l x, AddOrUpdateUpgrade l x c) l xs) = Some v ∧ imageless v.
Proof.
  intros Hc. revert l. induction xs as [|x xs IH]; intros l Hxs Hor; simpl; [set_solver|].
  apply IH; [intros y Hy; apply Hxs; by right|]. unfold AddOrUpdateUpgrade.
  rewrite at_height_upsert by apply update_upgrade_height. destruct (decide (h = up_Height x)) as [E|E].
  - left. destruct Hor as [(v & Ev & Hv)|[-> _]]; [|eexists; split; [done|by apply Hxs; [left|]]].
    rewrite Ev. eexists. split; [done|]. apply find_some in Ev as [_ Eh%Z.eqb_eq].
    destruct Hv as [Hi Hs]. unfold imageless, update_upgrade. rewrite Hs. simpl.
    by rewrite (proj2 (Z.ltb_ge _ _)) by lia.
  - destruct Hor as [?|[Hn Hh]]; [by left|right]. split; [done|]. set_solver.
Qed.

(** a node that has not heard of an upgrade its set records without an image
    schedules it with an empty image, and its controller finds it ready to be
    performed. *)
Theorem missing_image_is_scheduled s u n plan
    (Hu : u ∈ sst_Upgrades (cns_Status s)) (Himage : up_Image u = "")
    (Hspec : ¬ ∃ a, a ∈ app_Upgrades (ss_App (cns_Spec s)) ∧ us_Height a = up_Height u)
    (Hset : NoDup (heights (sst_Upgrades (cns_Status s)))) (Hnode : NoDup (heights (nst_Upgrades (cn_Status n))))
    (Happ : ns_App (cn_Spec n) = GetAppSpecWithUpgrades s)
    (Hnew : up_Height u ∉ heights (nst_Upgrades (cn_Status n)))
    (Hahead : (nst_LatestHeight (cn_Status n) ≤ up_Height u)%Z) :
  ∃ v, getUpgrade (ensureUpgrades n false plan) (up_Height u) = Some v ∧ imageless v.
Proof.
  destruct (spec_contains s u Hu Hspec Hset) as [Hin Honly].
  unfold ensureUpgrades. rewrite andb_false_r, andb_false_l. cbn [foldl]. rewrite Happ.
  set (c := nst_LatestHeight _) in *. set (specs := map (upgrade_of_spec c) _). set (l := foldl _ _ specs).
  assert (NoDup (heights l)) as Dl by by apply adds_NoDup.
  destruct (adds_imageless c (nst_Upgrades (cn_Status n)) specs (up_Height u) Hahead) as (v & Hv & Hi & Hs).
  - intros x (a & -> & Ha)%list_elem_of_fmap Ex. simpl in Ex. apply Honly in Ha; [|done]. subst a.
    split; simpl; [done|]. by rewrite (proj2 (Z.ltb_ge _ _)).
  - right. split; [by apply at_height_None|]. unfold specs. rewrite map_map.
    apply list_elem_of_fmap. by exists (spec_of_upgrade u).
  - fold l in Hv. apply at_height_Some in Hv as [Hin' Eh]; [|done].
    assert (NoDup (heights (sort_slice by_height l))) as Ds by by rewrite sort_slice_perm.
    assert (at_height (up_Height u) (sort_slice by_height l) = Some v) as Hat.
    { apply at_height_Some; [done|]. split; [by rewrite sort_slice_perm|done]. }
    exists v. split; [|done]. unfold getUpgrade.
    destruct (find _ (sort_slice by_height l)) as [w|] eqn:Ew.
    + apply find_some in Ew as [Hw [Ew%Z.eqb_eq _]%andb_prop]. rewrite <- list_elem_of_In in Hw.
      rewrite (proj2 (at_height_Some _ _ w Ds)) in Hat by done. done.
    + apply find_none with (x := v) in Ew; [|by apply list_elem_of_In; rewrite sort_slice_perm].
      rewrite Eh, Z.eqb_refl, Hs in Ew. done.
Qed.

(** ** The sidecar and the controller *)

(** The sidecar stops a node for an upgrade that the controller then fails to
    find exactly when a scheduled upgrade lies below the height reached and none
    is scheduled at that height. *)
Theorem sidecar_controller_disagree l height :
  ShouldUpgrade l height = true ∧ getUpgrade l height = None ↔
  (∃ u, u ∈ l ∧ up_Status u = UpgradeScheduled ∧ (up_Height u < height)%Z) ∧
  (∀ u, u ∈ l → up_Status u = UpgradeScheduled → up_Height u ≠ height).
Proof.
  unfold ShouldUpgrade, checker_GetUpgrade, getUpgrade.
  assert (∀ f : Upgrade → bool, find f l = None ↔ ∀ u, u ∈ l → f u = false) as Hnone.
  { intros f. split; [intros Hn u Hu; eapply find_none; [done|by apply list_elem_of_In]|].
    intros Hf. destruct (find f l) as [u|] eqn:E; [|done]. apply find_some in E as [Hu Ef].
    rewrite Hf in Ef; [done|by apply list_elem_of_In]. }
  split.
  - intros [Hs Hg]. rewrite Hnone in Hg. assert (∀ u, u ∈ l → up_Status u = UpgradeScheduled → up_Height u ≠ height) as Hne.
    { intros u Hu Es Eh. specialize (Hg u Hu). rewrite Eh, Z.eqb_refl, Es in Hg. done. }
    split; [|done]. destruct (find _ l) as [u|] eqn:E; [|done].
    apply find_some in E as [Hu%list_elem_of_In [Hh%Z.leb_le Es]%andb_prop]. to_prop.
    exists u. split_and!; [done|done|]. specialize (Hne u Hu Es). lia.
  - intros [(u & Hu & Es & Hh) Hne]. split.
    + destruct (find _ l) eqn:E; [done|]. rewrite Hnone in E. specialize (E u Hu).
      by rewrite (proj2 (Z.leb_le _ _)), Es in E by lia.
    + apply Hnone. intros w Hw. apply andb_false_iff. rewrite Z.eqb_neq.
      destruct (decide (up_Status w = UpgradeScheduled)) as [E|E]; [left; auto|right]. by apply bool_decide_eq_false_2.
Qed.

(** Every trace requires an upgrade as soon as one is scheduled at or below its
    height, whether or not the height has changed since the previous trace: the
    compare-and-swap with the value just read always succeeds. *)
Theorem on_trace_spec upgrades s blockHeight stop :
  on_trace upgrades s blockHeight stop =
  mkNodeUtils blockHeight (nu_requiresUpgrade s || ShouldUpgrade upgrades blockHeight)
    (match checker_GetUpgrade upgrades blockHeight with
     | Some u => if up_Source u == OnChainUpgrade then false else stop
     | None => false
     end).
Proof.
  unfold on_trace, CompareAndSwap, ShouldUpgrade. rewrite Z.eqb_refl.
  destruct (checker_GetUpgrade upgrades blockHeight) as [u|]; [|by rewrite orb_false_r].
  rewrite orb_true_r. by destruct (bool_decide _).
Qed.

(** ** Examples *)

Definition example_app : AppSpec :=
  newAppSpec "img" (Some "v1") "appd" [mkUpgradeSpec 50 "img:v2" None; mkUpgradeSpec 100 "img:v3" (Some true)].
Definition upgrading_node (app : AppSpec) (upgrades : list Upgrade) : ChainNode :=
  mkChainNode (mkMeta "val" "default" "uid-1" ∅ None [] [] None 0 "")
    (newChainNodeSpec app) (newChainNodeStatus PhaseChainNodeRunning "chain-1" 60 upgrades no_signer_status).
Definition completed_50 : Upgrade := mkUpgrade 50 "img:v2" UpgradeCompleted ManualUpgrade.

Lemma ensureUpgrades_witness :
  ensureUpgrades (upgrading_node example_app [completed_50]) true (Ok (Some (200%Z, ""))) =
    [completed_50; mkUpgrade 100 "img:v3" UpgradeScheduled OnChainUpgrade;
     mkUpgrade 200 "" UpgradeImageMissing OnChainUpgrade] ∧
  StronglySorted Z.lt (heights (ensureUpgrades (upgrading_node example_app [completed_50]) true (Ok (Some (200%Z, ""))))).
Proof.
  split; [vm_compute; reflexivity|].
  apply (ensureUpgrades_spec (upgrading_node example_app [completed_50]) true (Ok (Some (200%Z, "")))).
  simpl. apply NoDup_singleton.
Defined.

Definition imageless_200 : Upgrade := mkUpgrade 200 "" UpgradeImageMissing OnChainUpgrade.
Definition upgrading_set : ChainNodeSet :=
  mkChainNodeSet (mkMeta "net" "default" "uid-2" ∅ None [] [] None 0 "")
    (newChainNodeSetSpec (newAppSpec "img" (Some "v1") "appd" []) None [] None)
    (newChainNodeSetStatus "chain-1" [imageless_200] 60 []).

Lemma missing_image_witness :
  ∃ v, getUpgrade (ensureUpgrades (upgrading_node (GetAppSpecWithUpgrades upgrading_set) []) false (Ok None)) 200 = Some v ∧
       imageless v.
Proof.
  apply (missing_image_is_scheduled upgrading_set imageless_200
           (upgrading_node (GetAppSpecWithUpgrades upgrading_set) []) (Ok None)); try done.
  - by left.
  - intros (a & Ha & _). by apply elem_of_nil in Ha.
  - simpl. apply NoDup_singleton.
  - constructor.
  - simpl. set_solver.
Defined.
