(* ===== verification/CosmosignerSpec.v ===== *)
(** * A signer block and its import protocol ([api/v1/cosmosigner_helper.go])

    Defaults, validation, signing identities and the import records that prove
    which consensus key an external backend holds. *)

From S2P Require Import Prelude GoLib ThirdParty Reference ApiTypes.

(** The byte [\x00] the fingerprints separate their fields with. *)
Definition nul : string := String (Ascii.ascii_of_nat 0) "".

Definition DefaultCosmosignerImage : string := "ghcr.io/voluzi/cosmosigner:0.2.1".
Definition DefaultCosmosignerReplicas : Z := 1.
Definition DefaultCosmosignerStateStorageSize : string := "1Gi".
Definition DefaultCosmosignerVaultMount : string := "transit".
Definition DefaultCosmosignerGcpLocation : string := "global".
Definition CosmosignerGcpProtectionSoftware : string := "software".
Definition CosmosignerGcpProtectionHSM : string := "hsm".

(** A non-nil pointer to a non-empty string. *)
Definition non_empty (p : option string) : option string :=
  match p with Some s => if s == "" then None else Some s | None => None end.

(** ** Defaults *)

Definition GetReplicas (c : option Cosmosigner) : Z :=
  match c with
  | Some c => default DefaultCosmosignerReplicas (cs_Replicas c)
  | None => DefaultCosmosignerReplicas
  end.

Definition GetImage (c : option Cosmosigner) (operatorDefault : string) : string :=
  match c ≫= λ c, non_empty (cs_Image c) with
  | Some image => image
  | None => if operatorDefault != "" then operatorDefault else DefaultCosmosignerImage
  end.

Definition GetStateStorageSize (c : option Cosmosigner) : string :=
  default DefaultCosmosignerStateStorageSize (c ≫= cs_StateStorageSize).

Definition UsesSoftwareBackend (c : option Cosmosigner) : bool :=
  match c with Some c => bool_decide (is_Some (be_Software (cs_Backend c))) | None => false end.
Definition UsesVaultBackend (c : option Cosmosigner) : bool :=
  match c with Some c => bool_decide (is_Some (be_Vault (cs_Backend c))) | None => false end.
Definition UsesGcpKmsBackend (c : option Cosmosigner) : bool :=
  match c with Some c => bool_decide (is_Some (be_GcpKMS (cs_Backend c))) | None => false end.

Definition VaultUploadsGenerated (c : option Cosmosigner) (initTarget : bool) : bool :=
  match c ≫= λ c, be_Vault (cs_Backend c) with
  | Some v => va_UploadGenerated v || initTarget
  | None => false
  end.

Definition GcpImportsKey (c : option Cosmosigner) : bool :=
  match c ≫= λ c, be_GcpKMS (cs_Backend c) with
  | Some g => bool_decide (is_Some (gk_Import g))
  | None => false
  end.

Definition ImportsGeneratedKey (c : option Cosmosigner) (initTarget : bool) : bool :=
  VaultUploadsGenerated c initTarget || GcpImportsKey c.

Definition UsesPubkeyPod (c : option Cosmosigner) (initTarget : bool) : bool :=
  bool_decide (is_Some c) && negb (UsesSoftwareBackend c) && negb (VaultUploadsGenerated c initTarget).

Definition RequiresLocalPrivKey (c : option Cosmosigner) : bool :=
  match c with
  | None => false
  | Some cs =>
      if UsesSoftwareBackend c then true
      else match be_Vault (cs_Backend cs) with
           | Some v => va_UploadGenerated v
           | None => false
           end
  end.

Definition GetVaultMount (b : CosmosignerVaultBackend) : string :=
  default DefaultCosmosignerVaultMount (non_empty (va_Mount b)).
Definition GetKeyVersion (b : CosmosignerVaultBackend) : Z := default 1%Z (va_KeyVersion b).

(** ** Cloud KMS import destinations *)

Definition GetLocation (i : CosmosignerGcpKmsImport) : string :=
  default DefaultCosmosignerGcpLocation (non_empty (gi_Location i)).
Definition GetImportJob (i : CosmosignerGcpKmsImport) : string :=
  default (gi_Key i +:+ "-import") (non_empty (gi_ImportJob i)).
Definition GetProtectionLevel (i : CosmosignerGcpKmsImport) : string :=
  default CosmosignerGcpProtectionSoftware (non_empty (gi_ProtectionLevel i)).

Definition CryptoKeyName (i : option CosmosignerGcpKmsImport) : string :=
  match i with
  | None => ""
  | Some i =>
      "projects/" +:+ gi_Project i +:+ "/locations/" +:+ GetLocation i +:+
      "/keyRings/" +:+ gi_KeyRing i +:+ "/cryptoKeys/" +:+ gi_Key i
  end.

(** [strings.Trim(version, "0123456789") == ""] holds when every byte is a
    digit: trimming stops at the first byte outside the cutset. *)
Definition OwnsKeyVersion (i : option CosmosignerGcpKmsImport) (keyVersion : string) : bool :=
  let name := CryptoKeyName i in
  if name == "" then false else
  match CutPrefix keyVersion (name +:+ "/cryptoKeyVersions/") with
  | Some version => (version != "") && string_forallb is_digit version
  | None => false
  end.

Definition ResolvedKeyVersion (b : option CosmosignerGcpKmsBackend) (recorded : string) : string :=
  match b with
  | None => ""
  | Some b =>
      match gk_Import b with
      | None => gk_KeyVersion b
      | Some _ => if OwnsKeyVersion (gk_Import b) recorded then recorded else ""
      end
  end.

(** ** Import fingerprints and records *)

Section import.
Context `{JsonApi}.

(** JSON documents are hashed in canonical form, anything else as it is. *)
Definition importKeyMaterialHash (keyMaterial : string) : string :=
  Sha256 (default keyMaterial (json_canonical keyMaterial)).

Definition VaultImportTargetFingerprint (b : CosmosignerVaultBackend) (sourceSecret : string) : string :=
  Sha256 (va_Address b +:+ nul +:+ default "" (va_Namespace b) +:+ nul +:+ GetVaultMount b +:+ nul +:+
          va_KeyName b +:+ nul +:+ FormatInt (GetKeyVersion b) +:+ nul +:+ sourceSecret).

Definition VaultLegacyImportTargetFingerprint (b : CosmosignerVaultBackend) (sourceSecret : string) : string :=
  Sha256 (va_Address b +:+ nul +:+ default "" (va_Namespace b) +:+ nul +:+ GetVaultMount b +:+ nul +:+
          va_KeyName b +:+ nul +:+ sourceSecret).

Definition VaultImportFingerprint (b : CosmosignerVaultBackend) (sourceSecret keyMaterial : string) : string :=
  VaultImportTargetFingerprint b sourceSecret +:+ "." +:+ importKeyMaterialHash keyMaterial.

Definition VaultLegacyImportFingerprint (b : CosmosignerVaultBackend) (sourceSecret keyMaterial : string) : string :=
  VaultLegacyImportTargetFingerprint b sourceSecret +:+ "." +:+ Sha256 keyMaterial.

Definition gcpImportIdentity (i : option CosmosignerGcpKmsImport) : string :=
  match i with
  | None => ""
  | Some i => gi_Project i +:+ nul +:+ GetLocation i +:+ nul +:+ gi_KeyRing i +:+ nul +:+ gi_Key i
  end.

Definition GcpImportTargetFingerprint (b : option CosmosignerGcpKmsBackend) (sourceSecret : string) : string :=
  match b ≫= gk_Import with
  | None => ""
  | Some i => Sha256 ("gcpkms" +:+ nul +:+ gcpImportIdentity (Some i) +:+ nul +:+ sourceSecret)
  end.

Definition GcpImportFingerprint (b : option CosmosignerGcpKmsBackend) (sourceSecret keyMaterial : string) : string :=
  let target := GcpImportTargetFingerprint b sourceSecret in
  if target == "" then "" else target +:+ "." +:+ importKeyMaterialHash keyMaterial.

Definition ImportRecordMatchesTarget (record targetFingerprint : string) : bool :=
  has_prefix record (targetFingerprint +:+ ".").

Definition GcpImportRecordMatchesTarget (b : option CosmosignerGcpKmsBackend) (record sourceSecret : string) : bool :=
  let target := GcpImportTargetFingerprint b sourceSecret in
  (target != "") && ImportRecordMatchesTarget record target.

Definition GcpImportRecordMatches (b : option CosmosignerGcpKmsBackend) (record sourceSecret keyMaterial : string) : bool :=
  let want := GcpImportFingerprint b sourceSecret keyMaterial in
  if (want != "") && (record == want) then true else
  let target := GcpImportTargetFingerprint b sourceSecret in
  (target != "") && (record == target +:+ "." +:+ Sha256 keyMaterial).

Definition VaultImportRecordMatchesTarget (b : CosmosignerVaultBackend) (record sourceSecret : string) : bool :=
  if ImportRecordMatchesTarget record (VaultImportTargetFingerprint b sourceSecret) then true
  else (GetKeyVersion b =? 1)%Z &&
       ImportRecordMatchesTarget record (VaultLegacyImportTargetFingerprint b sourceSecret).

Definition VaultImportRecordMatches (b : CosmosignerVaultBackend) (record sourceSecret keyMaterial : string) : bool :=
  if record == VaultImportFingerprint b sourceSecret keyMaterial then true
  else if record == VaultImportTargetFingerprint b sourceSecret +:+ "." +:+ Sha256 keyMaterial then true
  else (GetKeyVersion b =? 1)%Z && (record == VaultLegacyImportFingerprint b sourceSecret keyMaterial).

(** ** The managed import state machine *)

Inductive GcpImportStep :=
  GcpImportRun | GcpImportVerify | GcpImportComplete | GcpImportMismatch | GcpImportSourceMissing.

Definition NextGcpImportStep (b : option CosmosignerGcpKmsBackend)
    (record keyVersion sourceSecret keyMaterial : string) : GcpImportStep :=
  match b ≫= gk_Import with
  | None => GcpImportComplete
  | Some i =>
      if keyMaterial == "" then
        if GcpImportRecordMatchesTarget b record sourceSecret && OwnsKeyVersion (Some i) keyVersion
        then GcpImportComplete else GcpImportSourceMissing
      else if GcpImportRecordMatches b record sourceSecret keyMaterial then
        if OwnsKeyVersion (Some i) keyVersion then GcpImportComplete else GcpImportRun
      else if GcpImportRecordMatchesTarget b record sourceSecret then GcpImportMismatch
      else if OwnsKeyVersion (Some i) keyVersion then GcpImportVerify
      else GcpImportRun
  end.
End import.

#[export] Instance GcpImportStep_eq_dec : EqDecision GcpImportStep.
Proof. solve_decision. Defined.

(** ** Signing identities *)

Definition normalizedVaultIdentity (address namespace mount key : string) (version : Z) : string :=
  "vault" +:+ nul +:+ address +:+ nul +:+ namespace +:+ nul +:+ mount +:+ nul +:+ key +:+ nul +:+
  FormatInt version.

Definition tmkmsNormalizedVaultKey (t : option TmKMS) : option string :=
  match t ≫= tk_Hashicorp with
  | None => None
  | Some h =>
      if (hc_Address h == "") || (hc_Key h == "") then None
      else Some (normalizedVaultIdentity (hc_Address h) "" DefaultCosmosignerVaultMount (hc_Key h) 1)
  end.

Definition tmKMSSigningKeyIdentity (t : option TmKMS) : option string :=
  match t ≫= tk_Hashicorp with
  | None => None
  | Some h =>
      if (hc_Address h == "") || (hc_Key h == "") then None
      else Some ("hashicorp" +:+ nul +:+ hc_Address h +:+ nul +:+ hc_Key h)
  end.

Definition localKeySigningIdentity (secret : string) : string := "software" +:+ nul +:+ secret.

Definition effectiveSigningIdentity (c : option Cosmosigner) (softwareKeySecret : string) : string :=
  match c with
  | None => ""
  | Some cs =>
      match be_Vault (cs_Backend cs), be_GcpKMS (cs_Backend cs), be_Software (cs_Backend cs) with
      | Some v, _, _ =>
          normalizedVaultIdentity (va_Address v) (default "" (va_Namespace v)) (GetVaultMount v)
            (va_KeyName v) (GetKeyVersion v)
      | None, Some g, _ =>
          match gk_Import g with
          | Some i => "gcpkms-import" +:+ nul +:+ gcpImportIdentity (Some i)
          | None => "gcpkms" +:+ nul +:+ gk_KeyVersion g
          end
      | None, None, Some _ => localKeySigningIdentity softwareKeySecret
      | None, None, None => ""
      end
  end.

(** ** Validation of a signer block *)

(** A selector that is set must name both a secret and a key. *)
Definition incomplete (cs : option SecretKeySelector) : bool :=
  match cs with Some s => (sel_Name s == "") || (sel_Key s == "") | None => false end.

Definition empty_when_set (s : option string) : bool := s == Some "".

Section validate.
Context `{QuantityApi}.

Definition validateVaultBackend (path : string) (v : CosmosignerVaultBackend) : result () :=
  return_if va_Address v == "" err Errorf "%s.backend.vault.address is required" [AStr path];
  return_if va_KeyName v == "" err Errorf "%s.backend.vault.keyName is required" [AStr path];
  return_if (GetKeyVersion v <? 1)%Z err
    Errorf "%s.backend.vault.keyVersion must be at least 1" [AStr path];
  return_if va_UploadGenerated v && negb (GetKeyVersion v =? 1)%Z err
    Errorf "%s.backend.vault.uploadGenerated requires keyVersion 1 because Vault imports create the initial key version" [AStr path];
  return_if match va_TokenSecret v with None => true | Some _ => incomplete (va_TokenSecret v) end err
    Errorf "%s.backend.vault.tokenSecret.name and .key are required" [AStr path];
  return_if incomplete (va_CertificateSecret v) err
    Errorf "%s.backend.vault.certificateSecret.name and .key are required when set" [AStr path];
  Ok ().

Definition validateGcpImport (path : string) (i : CosmosignerGcpKmsImport) : result () :=
  return_if gi_Project i == "" err Errorf "%s.backend.gcpKms.import.project is required" [AStr path];
  return_if gi_KeyRing i == "" err Errorf "%s.backend.gcpKms.import.keyRing is required" [AStr path];
  return_if gi_Key i == "" err Errorf "%s.backend.gcpKms.import.key is required" [AStr path];
  return_if empty_when_set (gi_Location i) err
    Errorf "%s.backend.gcpKms.import.location must not be empty when set" [AStr path];
  return_if empty_when_set (gi_ImportJob i) err
    Errorf "%s.backend.gcpKms.import.importJob must not be empty when set" [AStr path];
  return_if (GetProtectionLevel i != CosmosignerGcpProtectionSoftware) &&
            (GetProtectionLevel i != CosmosignerGcpProtectionHSM) err
    Errorf "%s.backend.gcpKms.import.protectionLevel must be %q or %q"
      [AStr path; AStr CosmosignerGcpProtectionSoftware; AStr CosmosignerGcpProtectionHSM];
  Ok ().

Definition validateGcpBackend (path : string) (g : CosmosignerGcpKmsBackend) : result () :=
  return_if (gk_KeyVersion g == "") && bool_decide (gk_Import g = None) err
    Errorf "%s.backend.gcpKms requires exactly one of keyVersion (a pre-provisioned key version) or import (a managed key import)" [AStr path];
  return_if (gk_KeyVersion g != "") && negb (bool_decide (gk_Import g = None)) err
    Errorf "%s.backend.gcpKms.keyVersion and .import are mutually exclusive: a managed import creates the key version" [AStr path];
  match gk_Import g with Some i => validateGcpImport path i | None => Ok () end ;;
  return_if incomplete (gk_CredentialsSecret g) err
    Errorf "%s.backend.gcpKms.credentialsSecret.name and .key are required when set" [AStr path];
  Ok ().

Definition count_backends (b : CosmosignerBackend) : Z :=
  (match be_Software b with Some _ => 1 | None => 0 end +
   match be_Vault b with Some _ => 1 | None => 0 end +
   match be_GcpKMS b with Some _ => 1 | None => 0 end)%Z.

Definition Validate (c : option Cosmosigner) (path : string) (allowNodeGroups : bool) : result () :=
  match c with
  | None => Ok ()
  | Some cs =>
      let backends := count_backends (cs_Backend cs) in
      let replicas := GetReplicas c in
      return_if (backends =? 0)%Z err
        Errorf "%s.backend must configure exactly one of software, vault or gcpKms" [AStr path];
      return_if (1 <? backends)%Z err
        Errorf "%s.backend must configure exactly one of software, vault or gcpKms, not multiple" [AStr path];
      return_if (replicas <? 1)%Z err Errorf "%s.replicas must be at least 1" [AStr path];
      return_if (Z.rem replicas 2 =? 0)%Z err
        Errorf "%s.replicas must be an odd number (1, 3, 5, ...) so the raft cluster can form a quorum" [AStr path];
      return_if match cs_StateStorageSize cs with
                | Some size => negb (is_ok (ParseQuantity size))
                | None => false
                end err
        Errorf "bad format for %s.stateStorageSize: %v" [AStr path];
      match be_Vault (cs_Backend cs), be_GcpKMS (cs_Backend cs) with
      | Some v, _ => validateVaultBackend path v
      | None, Some g => validateGcpBackend path g
      | None, None => Ok ()
      end ;;
      return_if negb allowNodeGroups && negb (bool_decide (cs_NodeGroups cs = [])) err
        Errorf "%s.nodeGroups is not valid here (the target is fixed): only the top-level .spec.cosmosigner selects node groups" [AStr path];
      return_if empty_when_set (cs_RaftTLSSecret cs) err
        Errorf "%s.raftTLSSecret must not be empty when set" [AStr path];
      return_if (1 <? replicas)%Z && bool_decide (cs_RaftTLSSecret cs = None) &&
                negb (cs_UnsafeAllowInsecureRaft cs) err
        Errorf "%s.raftTLSSecret is required when replicas is greater than 1; set unsafeAllowInsecureRaft only for an isolated test network" [AStr path];
      return_if negb (bool_decide (cs_RaftTLSSecret cs = None)) && cs_UnsafeAllowInsecureRaft cs err
        Errorf "%s.raftTLSSecret and unsafeAllowInsecureRaft are mutually exclusive" [AStr path];
      Ok ()
  end.

(** ** Immutable fields *)

Definition CosmosignerStateStorageEqual (sizeA : string) (classA : option string)
    (sizeB : string) (classB : option string) : bool :=
  if negb (bool_decide (classA = classB)) then false else
  match ParseQuantity sizeA, ParseQuantity sizeB with
  | Ok qa, Ok qb => (QuantityCmp qa qb =? 0)%Z
  | _, _ => sizeA == sizeB
  end.

Definition validateCosmosignerStateStorageImmutable (path : string) (oldC newC : option Cosmosigner) : result () :=
  match oldC, newC with
  | Some o, Some n =>
      return_if negb (CosmosignerStateStorageEqual (GetStateStorageSize oldC) (cs_StorageClassName o)
                        (GetStateStorageSize newC) (cs_StorageClassName n)) err
        Errorf "%s.stateStorageSize and %s.storageClassName are immutable after creation: a StatefulSet's volumeClaimTemplates cannot be updated — remove the cosmosigner and re-add it to change its state storage" [AStr path; AStr path];
      Ok ()
  | _, _ => Ok ()
  end.

Definition validateCosmosignerReplicasImmutable (oldC newC : option Cosmosigner) : result () :=
  match oldC, newC with
  | Some _, Some _ =>
      return_if negb (GetReplicas oldC =? GetReplicas newC)%Z err
        Errorf ".spec.cosmosigner.replicas is immutable after creation: changing it does not migrate the raft membership in the signer's state and can break quorum" [];
      validateCosmosignerStateStorageImmutable ".spec.cosmosigner" oldC newC
  | _, _ => Ok ()
  end.
End validate.

(** ** The signer block contract *)

(** Strings that do not contain the separator byte. *)
Definition no_nul (s : string) : Prop :=
  string_forallb (λ c, negb (bool_decide (c = Ascii.ascii_of_nat 0))) s = true.

Lemma nul_sep_inj a b x y :
  no_nul a → no_nul b → a +:+ nul +:+ x = b +:+ nul +:+ y → a = b ∧ x = y.
Proof.
  unfold no_nul. revert b. induction a as [|c a IH]; intros [|d b] Ha Hb H;
    rewrite ?append_nil_l, ?append_cons in H; simpl in *; to_prop.
  - split; [done|]. by apply string_app_inj_l in H.
  - unfold nul in H. rewrite append_cons in H. by injection H as <- _.
  - unfold nul in H. rewrite append_cons in H. by injection H as -> _.
  - injection H as -> H. destruct (IH b) as [-> ->]; auto.
Qed.

(** What a Vault, respectively Cloud KMS, backend must provide. *)
Definition VaultBackendOk (v : CosmosignerVaultBackend) : Prop :=
  va_Address v ≠ "" ∧ va_KeyName v ≠ "" ∧
  (1 ≤ GetKeyVersion v)%Z ∧ (va_UploadGenerated v = true → GetKeyVersion v = 1%Z) ∧
  (∃ t, va_TokenSecret v = Some t ∧ sel_Name t ≠ "" ∧ sel_Key t ≠ "") ∧
  (∀ t, va_CertificateSecret v = Some t → sel_Name t ≠ "" ∧ sel_Key t ≠ "").

Definition GcpImportOk (i : CosmosignerGcpKmsImport) : Prop :=
  gi_Project i ≠ "" ∧ gi_KeyRing i ≠ "" ∧ gi_Key i ≠ "" ∧
  gi_Location i ≠ Some "" ∧ gi_ImportJob i ≠ Some "" ∧
  (GetProtectionLevel i = "software" ∨ GetProtectionLevel i = "hsm").

Definition GcpBackendOk (g : CosmosignerGcpKmsBackend) : Prop :=
  ((gk_KeyVersion g ≠ "" ∧ gk_Import g = None) ∨
   (gk_KeyVersion g = "" ∧ ∃ i, gk_Import g = Some i ∧ GcpImportOk i)) ∧
  (∀ t, gk_CredentialsSecret g = Some t → sel_Name t ≠ "" ∧ sel_Key t ≠ "").

(** Exactly one backend, correctly configured. *)
Inductive BackendOk : CosmosignerBackend → Prop :=
  | BackendSoftware sw : BackendOk (mkBackend (Some sw) None None)
  | BackendVault v : VaultBackendOk v → BackendOk (mkBackend None (Some v) None)
  | BackendGcp g : GcpBackendOk g → BackendOk (mkBackend None None (Some g)).

(** The transport of the raft cluster: certificates or an explicit opt-out, not
    both, and one of them as soon as there is a peer to talk to. *)
Definition RaftTransportOk (c : Cosmosigner) : Prop :=
  cs_RaftTLSSecret c ≠ Some "" ∧
  ((1 < GetReplicas (Some c))%Z → is_Some (cs_RaftTLSSecret c) ∨ cs_UnsafeAllowInsecureRaft c = true) ∧
  ¬ (is_Some (cs_RaftTLSSecret c) ∧ cs_UnsafeAllowInsecureRaft c = true).

Record SignerOk `{QuantityApi} (c : Cosmosigner) (allowNodeGroups : bool) : Prop := {
  so_backend : BackendOk (cs_Backend c);
  so_quorum : ∃ k, (0 ≤ k)%Z ∧ GetReplicas (Some c) = (2 * k + 1)%Z;
  so_size : ∀ s, cs_StateStorageSize c = Some s → ∃ q, ParseQuantity s = Ok q;
  so_groups : allowNodeGroups = false → cs_NodeGroups c = [];
  so_transport : RaftTransportOk c;
}.

Lemma incomplete_spec s :
  incomplete s = false ↔ ∀ t, s = Some t → sel_Name t ≠ "" ∧ sel_Key t ≠ "".
Proof.
  destruct s as [t|]; simpl; [|done].
  rewrite orb_false_iff, !bool_decide_eq_false. split; [by intros ? ? [= <-] | by auto].
Qed.

(** One step of a validator: the guard is false and the rest succeeds. *)
Lemma guard_Ok (b : bool) e (k : result ()) :
  (if b then Err e else k) = Ok () ↔ b = false ∧ k = Ok ().
Proof. destruct b; split; try done; by intros [? ?]. Qed.

Lemma then_Ok (m k : result ()) : (m ;; k) = Ok () ↔ m = Ok () ∧ k = Ok ().
Proof. destruct m as [[]|]; simpl; split; try done; by intros [? ?]. Qed.

Ltac guards := repeat first [rewrite guard_Ok | rewrite then_Ok].

Lemma validateVaultBackend_spec path v :
  validateVaultBackend path v = Ok () ↔ VaultBackendOk v.
Proof.
  unfold validateVaultBackend, VaultBackendOk. guards.
  rewrite !bool_decide_eq_false, Z.ltb_ge, (incomplete_spec (va_CertificateSecret v)).
  assert ((match va_TokenSecret v with None => true | Some _ => incomplete (va_TokenSecret v) end) = false
          ↔ ∃ t, va_TokenSecret v = Some t ∧ sel_Name t ≠ "" ∧ sel_Key t ≠ "") as ->.
  { destruct (va_TokenSecret v) as [t|]; simpl.
    - rewrite orb_false_iff, !bool_decide_eq_false. split; [eauto|]. by intros (? & [= <-] & ?).
    - split; [done|]. by intros (? & ? & ?). }
  assert (va_UploadGenerated v && negb (GetKeyVersion v =? 1)%Z = false ↔
          (va_UploadGenerated v = true → GetKeyVersion v = 1%Z)) as ->.
  { destruct (va_UploadGenerated v); simpl.
    - rewrite negb_false_iff, Z.eqb_eq. by split; [auto|]; intros H; apply H.
    - done. }
  intuition.
Qed.

Lemma validateGcpImport_spec path i : validateGcpImport path i = Ok () ↔ GcpImportOk i.
Proof.
  unfold validateGcpImport, GcpImportOk, empty_when_set. guards.
  rewrite !bool_decide_eq_false, andb_false_iff, !negb_false_iff, !bool_decide_eq_true.
  unfold CosmosignerGcpProtectionSoftware, CosmosignerGcpProtectionHSM. intuition.
Qed.

Lemma validateGcpBackend_spec path g : validateGcpBackend path g = Ok () ↔ GcpBackendOk g.
Proof.
  unfold validateGcpBackend, GcpBackendOk. guards.
  rewrite incomplete_spec, !andb_false_iff, !negb_false_iff, !bool_decide_eq_false, !bool_decide_eq_true.
  destruct (gk_Import g) as [i|] eqn:Ei.
  - rewrite validateGcpImport_spec. split.
    + intros (_ & H1 & Hi & Hc & _). split; [|done]. right. destruct H1; [eauto|done].
    + intros [[[_ ?]|(? & j & [= <-] & Hj)] Hc]; [done|].
      split_and!; first [done | by right | by left].
  - split.
    + intros (H0 & _ & _ & Hc & _). split; [|done]. left. destruct H0; done.
    + intros [[[? _]|(_ & j & ? & _)] Hc]; [|done].
      split_and!; first [done | by left | by right].
Qed.

Lemma odd_rem r : (1 ≤ r)%Z → (Z.rem r 2 =? 0)%Z = false ↔ ∃ k, (0 ≤ k)%Z ∧ r = (2 * k + 1)%Z.
Proof.
  intros Hr. rewrite Z.eqb_neq, Z.rem_mod_nonneg by lia. split.
  - intros Hm. exists (r / 2)%Z. pose proof (Z.div_mod r 2). pose proof (Z.mod_pos_bound r 2). lia.
  - intros (k & Hk & ->). rewrite Z.add_comm, Z.mul_comm, Z.mod_add by lia. done.
Qed.

Lemma raft_guards c :
  empty_when_set (cs_RaftTLSSecret c) = false ∧
  (1 <? GetReplicas (Some c))%Z && bool_decide (cs_RaftTLSSecret c = None) &&
    negb (cs_UnsafeAllowInsecureRaft c) = false ∧
  negb (bool_decide (cs_RaftTLSSecret c = None)) && cs_UnsafeAllowInsecureRaft c = false ↔
  RaftTransportOk c.
Proof.
  unfold RaftTransportOk, empty_when_set. rewrite bool_decide_eq_false.
  generalize (GetReplicas (Some c)); intros R.
  destruct (cs_RaftTLSSecret c) as [t|], (cs_UnsafeAllowInsecureRaft c);
    destruct (Z.ltb_spec 1 R); simpl;
    (split; intros (H1 & H2 & H3); split_and!); try done; try lia;
    try (intros; by eauto); try (by intros [[? ?] ?]); try (by exfalso; eauto).
  by destruct (H2 H) as [[? ?]|?].
Qed.

(** [Cosmosigner.Validate] accepts a signer block exactly when it
    configures a single complete backend, an odd positive replica count (a raft
    quorum), a parseable state size, no node groups where they are not allowed,
    and a raft transport that is either secured or explicitly opted out of. *)
Theorem Validate_spec `{QuantityApi} c path allowNodeGroups :
  Validate (Some c) path allowNodeGroups = Ok () ↔ SignerOk c allowNodeGroups.
Proof.
  unfold Validate. guards.
  split.
  - intros (Hb0 & Hb1 & Hr1 & Hr2 & Hs & Hbe & Hg & Ht1 & Ht2 & Ht3 & _).
    rewrite Z.ltb_ge in Hr1. split; [..|by rewrite <- raft_guards].
    + destruct (cs_Backend c) as [[sw|] [v|] [g|]]; simpl in *; try done; constructor.
      * by apply validateVaultBackend_spec in Hbe.
      * by apply validateGcpBackend_spec in Hbe.
    + by apply odd_rem.
    + intros s E. rewrite E in Hs. destruct (ParseQuantity s); [eauto|done].
    + intros ->. simpl in Hg. by to_prop.
  - intros [Hbe Hq Hs Hg Ht]. rewrite <- raft_guards in Ht.
    destruct Hq as (k & Hk & Hr).
    split_and!; try tauto.
    + by inversion Hbe.
    + by inversion Hbe.
    + rewrite Hr. apply Z.ltb_ge. lia.
    + apply odd_rem; [lia|]. eauto.
    + destruct (cs_StateStorageSize c) as [s|]; [|done]. by destruct (Hs s eq_refl) as [q ->].
    + inversion Hbe as [sw E|v Hv E|g Hg' E]; simpl; [done|..].
      * by apply validateVaultBackend_spec.
      * by apply validateGcpBackend_spec.
    + destruct allowNodeGroups; [done|]. by rewrite Hg.
Qed.

(** ** Imported key versions *)

(** A recorded Cloud KMS key version belongs to an import destination
    exactly when it is the destination's resource name followed by
    [/cryptoKeyVersions/] and a non-empty decimal number; in particular aliases
    and versions of other keys are never accepted. *)
Theorem OwnsKeyVersion_spec i keyVersion :
  OwnsKeyVersion (Some i) keyVersion = true ↔
  ∃ version, keyVersion = CryptoKeyName (Some i) +:+ "/cryptoKeyVersions/" +:+ version ∧
             version ≠ "" ∧ string_forallb is_digit version = true.
Proof.
  unfold OwnsKeyVersion.
  rewrite bool_decide_eq_false_2 by (intros E; by apply (f_equal String.length) in E).
  destruct (CutPrefix _ _) as [v|] eqn:E.
  - apply CutPrefix_spec in E as ->. rewrite andb_true_iff, negb_true_iff, bool_decide_eq_false.
    rewrite string_app_assoc. split.
    + intros [? ?]. by exists v.
    + intros (w & Hw & ? & ?). by apply string_app_inj_l, string_app_inj_l in Hw as ->.
  - split; [done|]. intros (w & -> & _).
    rewrite <- string_app_assoc in E. by rewrite (proj2 (CutPrefix_spec _ _ w)) in E.
Qed.

Section import_step.
Context `{JsonApi}.
Implicit Types (b : CosmosignerGcpKmsBackend) (i : CosmosignerGcpKmsImport).

Lemma Sha256_not_empty s : Sha256 s ≠ "".
Proof.
  unfold Sha256. destruct (concat _) eqn:E; [|done]. exfalso.
  apply (f_equal length) in E. revert E. generalize (chunks 64 (length (sha_pad (bytes_of s))) (sha_pad (bytes_of s))).
  intros bs. assert (∀ l st, length st = 8%nat → length (foldl sha_block st l) = 8%nat) as Hl.
  { induction l as [|blk l IH]; intros st Hst; simpl; [done|]. apply IH.
    unfold sha_block. rewrite length_zip_with, Hst.
    assert (∀ kws st, length st = 8%nat → length (foldl sha_round st kws) = 8%nat) as Hr.
    { induction kws as [|kw kws IHk]; intros st' Hst'; simpl; [done|]. apply IHk.
      by destruct st' as [|? [|? [|? [|? [|? [|? [|? [|? [|? ?]]]]]]]]]. }
    by rewrite Hr. }
  specialize (Hl bs sha_H0 eq_refl). destruct (foldl sha_block sha_H0 bs); [done|].
  cbn [map concat]. rewrite length_app. unfold be_bytes. by rewrite length_reverse.
Qed.

Lemma GcpTarget_managed b i s :
  gk_Import b = Some i → GcpImportTargetFingerprint (Some b) s ≠ "".
Proof. intros E. unfold GcpImportTargetFingerprint. simpl. rewrite E. apply Sha256_not_empty. Qed.

Lemma GcpFingerprint_managed b i s km :
  gk_Import b = Some i →
  GcpImportFingerprint (Some b) s km =
    GcpImportTargetFingerprint (Some b) s +:+ "." +:+ importKeyMaterialHash km.
Proof.
  intros E. unfold GcpImportFingerprint.
  by rewrite bool_decide_eq_false_2 by (by eapply GcpTarget_managed).
Qed.

(** A record proves an import when it is the current fingerprint or the one
    written before key documents were canonicalised. *)
Lemma GcpImportRecordMatches_spec b i record s km :
  gk_Import b = Some i →
  GcpImportRecordMatches (Some b) record s km = true ↔
  record = GcpImportTargetFingerprint (Some b) s +:+ "." +:+ importKeyMaterialHash km ∨
  record = GcpImportTargetFingerprint (Some b) s +:+ "." +:+ Sha256 km.
Proof.
  intros E. unfold GcpImportRecordMatches. rewrite (GcpFingerprint_managed b i) by done.
  pose proof (GcpTarget_managed b i s E) as Ht.
  set (t := GcpImportTargetFingerprint (Some b) s) in *.
  assert (∀ x, t +:+ x ≠ "") as Hx.
  { intros x Hx. apply (f_equal String.length) in Hx. rewrite string_length_app in Hx.
    destruct t; simpl in *; [done | lia]. }
  rewrite !(bool_decide_eq_false_2 _ (Hx _)), (bool_decide_eq_false_2 _ Ht). simpl.
  destruct (record == t +:+ "." +:+ importKeyMaterialHash km) eqn:Er; to_prop.
  - tauto.
  - rewrite bool_decide_eq_true. tauto.
Qed.

Lemma GcpMatches_target b i record s km :
  gk_Import b = Some i →
  GcpImportRecordMatches (Some b) record s km = true →
  GcpImportRecordMatchesTarget (Some b) record s = true.
Proof.
  intros E Hm. apply (GcpImportRecordMatches_spec b i) in Hm; [|done].
  unfold GcpImportRecordMatchesTarget, ImportRecordMatchesTarget.
  rewrite bool_decide_eq_false_2 by (by eapply GcpTarget_managed). simpl.
  destruct Hm as [-> | ->]; rewrite <- string_app_assoc; auto with go.
Qed.
End import_step.

(** The import state machine of a managed Cloud KMS key.  The key is
    reported imported only when the recorded version is a numbered version of
    the configured destination and the record proves an import into that
    destination - of exactly the source bytes while the source can be read.  A
    recorded version alone only leads to verification, and a destination that
    is recorded to hold other bytes is never imported over. *)
Theorem NextGcpImportStep_spec `{JsonApi} b i record keyVersion source keyMaterial :
  gk_Import b = Some i →
  let step := NextGcpImportStep (Some b) record keyVersion source keyMaterial in
  let owned := OwnsKeyVersion (Some i) keyVersion = true in
  let target := GcpImportRecordMatchesTarget (Some b) record source = true in
  let exact := GcpImportRecordMatches (Some b) record source keyMaterial = true in
  (step = GcpImportComplete ↔ owned ∧ target ∧ (keyMaterial ≠ "" → exact)) ∧
  (step = GcpImportVerify ↔ keyMaterial ≠ "" ∧ owned ∧ ¬ target) ∧
  (step = GcpImportMismatch ↔ keyMaterial ≠ "" ∧ target ∧ ¬ exact) ∧
  (step = GcpImportRun ↔ keyMaterial ≠ "" ∧ ¬ owned ∧ (exact ∨ ¬ target)) ∧
  (step = GcpImportSourceMissing ↔ keyMaterial = "" ∧ ¬ (owned ∧ target)).
Proof.
  intros E step owned target exact. subst step.
  assert (exact → target) as Hsub by apply (GcpMatches_target b i _ _ _ E).
  unfold NextGcpImportStep. simpl. rewrite E. unfold owned, target, exact in *.
  destruct (decide (keyMaterial = "")) as [Hkm|Hkm];
    [rewrite (bool_decide_eq_true_2 _ Hkm) | rewrite (bool_decide_eq_false_2 _ Hkm)];
    destruct (OwnsKeyVersion _ _), (GcpImportRecordMatchesTarget _ _ _),
      (GcpImportRecordMatches _ _ _ _); simpl; intuition congruence.
Qed.

(** A completed import stays complete when its source secret disappears, and
    replacing the source by other bytes is reported as a mismatch instead of
    being imported (unless the two documents have the same digest). *)
Theorem gcp_import_durable `{JsonApi} b i keyVersion source km km' :
  gk_Import b = Some i → OwnsKeyVersion (Some i) keyVersion = true → km ≠ "" → km' ≠ "" →
  let record := GcpImportFingerprint (Some b) source km in
  NextGcpImportStep (Some b) record keyVersion source km = GcpImportComplete ∧
  NextGcpImportStep (Some b) record keyVersion source "" = GcpImportComplete ∧
  (importKeyMaterialHash km ≠ importKeyMaterialHash km' →
   importKeyMaterialHash km ≠ Sha256 km' →
   NextGcpImportStep (Some b) record keyVersion source km' = GcpImportMismatch).
Proof.
  intros E Ho Hkm Hkm' record.
  assert (∀ m, GcpImportRecordMatches (Some b) record source m = true ↔
               importKeyMaterialHash km = importKeyMaterialHash m ∨
               importKeyMaterialHash km = Sha256 m) as Hex.
  { intros m. rewrite (GcpImportRecordMatches_spec b i) by done. unfold record.
    rewrite (GcpFingerprint_managed b i) by done.
    split; (intros [Hx|Hx]; [left|right]);
      first [by apply string_app_inj_l, string_app_inj_l in Hx | by rewrite Hx]. }
  assert (GcpImportRecordMatches (Some b) record source km = true) as Hm by (rewrite Hex; by left).
  pose proof (GcpMatches_target b i _ _ _ E Hm) as Ht.
  split_and!.
  - by apply (NextGcpImportStep_spec b i).
  - by apply (NextGcpImportStep_spec b i).
  - intros H1 H2. apply (NextGcpImportStep_spec b i); [done|].
    split_and!; [done|done|]. rewrite Hex. by intros [?|?].
Qed.

(** ** Which key a signer signs with *)

(** The consensus keys the three backends can name. *)
Inductive SigningKey :=
  | VaultKey (address namespace mount key : string) (version : Z)
  | GcpImportedKey (project location keyRing key : string)
  | GcpKeyVersion (version : string)
  | LocalKey (secret : string).

Definition signing_key (c : Cosmosigner) (secret : string) : option SigningKey :=
  let be := cs_Backend c in
  match be_Vault be, be_GcpKMS be, be_Software be with
  | Some v, _, _ =>
      Some (VaultKey (va_Address v) (default "" (va_Namespace v)) (GetVaultMount v) (va_KeyName v)
              (GetKeyVersion v))
  | None, Some g, _ =>
      match gk_Import g with
      | Some i => Some (GcpImportedKey (gi_Project i) (GetLocation i) (gi_KeyRing i) (gi_Key i))
      | None => Some (GcpKeyVersion (gk_KeyVersion g))
      end
  | None, None, Some _ => Some (LocalKey secret)
  | None, None, None => None
  end.

(** Keys whose coordinates contain no separator byte. *)
Definition key_no_nul (k : SigningKey) : Prop :=
  match k with
  | VaultKey a n m key _ => no_nul a ∧ no_nul n ∧ no_nul m ∧ no_nul key
  | GcpImportedKey p l r key => no_nul p ∧ no_nul l ∧ no_nul r
  | GcpKeyVersion _ | LocalKey _ => True
  end.

Definition render_key (k : SigningKey) : string :=
  match k with
  | VaultKey a n m key v =>
      "vault" +:+ nul +:+ a +:+ nul +:+ n +:+ nul +:+ m +:+ nul +:+ key +:+ nul +:+ FormatInt v
  | GcpImportedKey p l r key =>
      "gcpkms-import" +:+ nul +:+ p +:+ nul +:+ l +:+ nul +:+ r +:+ nul +:+ key
  | GcpKeyVersion v => "gcpkms" +:+ nul +:+ v
  | LocalKey s => "software" +:+ nul +:+ s
  end.

Lemma effectiveSigningIdentity_render c secret :
  effectiveSigningIdentity (Some c) secret =
  match signing_key c secret with Some k => render_key k | None => "" end.
Proof.
  unfold effectiveSigningIdentity, signing_key.
  destruct (cs_Backend c) as [[?|] [?|] [g|]]; simpl; try done;
    by destruct (gk_Import g).
Qed.

Lemma render_key_inj k1 k2 :
  key_no_nul k1 → key_no_nul k2 → render_key k1 = render_key k2 → k1 = k2.
Proof.
  intros H1 H2 E.
  destruct k1, k2; simpl in *; destruct_and?;
    repeat match goal with
    | E : _ +:+ nul +:+ _ = _ +:+ nul +:+ _ |- _ =>
        apply nul_sep_inj in E as [? E]; [|done..]; simplify_eq
    end; try done.
  by apply FormatInt_inj in E as ->.
Qed.

(** signing identities are faithful names of consensus keys: two configured
    signers have the same effective signing identity exactly when they sign with
    the same key of the same backend (coordinates without the separator byte).
    In particular keys of different backends never share an identity. *)
Theorem signing_identity_inj c1 s1 k1 c2 s2 k2 :
  signing_key c1 s1 = Some k1 → signing_key c2 s2 = Some k2 →
  key_no_nul k1 → key_no_nul k2 →
  effectiveSigningIdentity (Some c1) s1 = effectiveSigningIdentity (Some c2) s2 ↔ k1 = k2.
Proof.
  intros E1 E2 H1 H2. rewrite !effectiveSigningIdentity_render, E1, E2.
  split; [by apply render_key_inj | by intros ->].
Qed.

(** A tmKMS key in Vault is identified as the same Transit key a signer would
    reach with default mount and version. *)
Lemma tmkmsNormalizedVaultKey_render t id :
  tmkmsNormalizedVaultKey t = Some id →
  ∃ h, t ≫= tk_Hashicorp = Some h ∧ hc_Address h ≠ "" ∧ hc_Key h ≠ "" ∧
       id = render_key (VaultKey (hc_Address h) "" "transit" (hc_Key h) 1).
Proof.
  unfold tmkmsNormalizedVaultKey. destruct (t ≫= tk_Hashicorp) as [h|]; [|done].
  destruct ((hc_Address h == "") || (hc_Key h == "")) eqn:E; [done|].
  intros [= <-]. to_prop. by exists h.
Qed.

(** ** Evaluated examples *)

Definition example_import : CosmosignerGcpKmsImport :=
  mkGcpImport "proj" None "ring" "val" None None.
Definition example_gcp : CosmosignerGcpKmsBackend := mkGcp "" (Some example_import) None.
Definition example_version : string :=
  "projects/proj/locations/global/keyRings/ring/cryptoKeys/val/cryptoKeyVersions/3".
Definition example_signer (be : CosmosignerBackend) : Cosmosigner :=
  mkCosmosigner [] None None be None None None None false None None.
Definition example_vault : CosmosignerVaultBackend :=
  mkVault "https://vault" "key" None None (Some (mkSecretKeySelector "tok" "t")) None None false.

Lemma NextGcpImportStep_witness :
  NextGcpImportStep (H := reference_json) (Some example_gcp) "" example_version "src" "{1}"
  = GcpImportVerify.
Proof.
  apply (NextGcpImportStep_spec (H := reference_json) example_gcp example_import);
    [reflexivity|]. split_and!; [done|by vm_compute|by vm_compute].
Defined.

Lemma gcp_import_durable_witness :
  NextGcpImportStep (H := reference_json) (Some example_gcp)
    (GcpImportFingerprint (H := reference_json) (Some example_gcp) "src" "{1}")
    example_version "src" "{2}" = GcpImportMismatch.
Proof.
  apply (gcp_import_durable (H := reference_json) example_gcp example_import);
    [reflexivity | by vm_compute | done | done | by vm_compute | by vm_compute].
Defined.

Lemma signing_identity_inj_witness :
  effectiveSigningIdentity (Some (example_signer (mkBackend None (Some example_vault) None))) "" ≠
  effectiveSigningIdentity (Some (example_signer (mkBackend None None (Some example_gcp)))) "".
Proof.
  intros E.
  refine (_ (proj1 (signing_identity_inj _ "" (VaultKey "https://vault" "" "transit" "key" 1)
    _ "" (GcpImportedKey "proj" "global" "ring" "val") _ _ _ _) E));
    [done | reflexivity | reflexivity | by vm_compute | by vm_compute].
Defined.
