(* ===== verification/SignerResolve.v ===== *)
(** * Which signers a resource runs ([api/v1/cosmosigner_resolve.go])

    The enumeration of a ChainNodeSet's managed signers, the identity each one
    signs with, its status entry, and the records written once when a chain is
    established ([api/v1/cosmosigner_helper.go]). *)

From S2P Require Import Prelude GoLib ThirdParty ApiTypes CosmosignerSpec.

(** ** Node groups and validators ([chainnodeset_helper.go], [chainnode_helper.go]) *)

Definition DefaultGroupInstances : Z := 1.
Definition GetInstances (g : NodeGroupSpec) : Z := default DefaultGroupInstances (ng_Instances g).

Definition GeneratedValidatorNodeName (nodeSet : ChainNodeSet) (group : string) (index : Z) : string :=
  if group == ReservedValidatorGroupName then cns_Name nodeSet +:+ "-validator"
  else cns_Name nodeSet +:+ "-" +:+ group +:+ "-" +:+ FormatInt index.


(** The first group of that name. *)
Definition find_group (f : NodeGroupSpec → bool) (nodeSet : ChainNodeSet) : option NodeGroupSpec :=
  find f (ss_Nodes (cns_Spec nodeSet)).

Definition HasValidator (nodeSet : ChainNodeSet) : bool :=
  is_some (ss_Validator (cns_Spec nodeSet)) ||
  existsb (λ g, is_some (ng_Validator g) && (0 <? GetInstances g)%Z) (ss_Nodes (cns_Spec nodeSet)).

Definition nodeset_ShouldInitGenesis (nodeSet : ChainNodeSet) : bool :=
  match ss_Validator (cns_Spec nodeSet) with
  | Some v => is_some (nv_Init v)
  | None => false
  end ||
  existsb (λ g, match ng_Validator g with
                | Some v => is_some (nv_Init v) && (0 <? GetInstances g)%Z
                | None => false
                end) (ss_Nodes (cns_Spec nodeSet)).

Definition IsValidator (n : ChainNode) : bool := is_some (ns_Validator (cn_Spec n)).
Definition UsesTmKms (n : ChainNode) : bool :=
  match ns_Validator (cn_Spec n) with Some v => is_some (vc_TmKMS v) | None => false end.
Definition UsesCosmosigner (n : ChainNode) : bool := is_some (ns_Cosmosigner (cn_Spec n)).
Definition IsSignerTarget (n : ChainNode) : bool :=
  UsesCosmosigner n || ns_RemoteSignerTarget (cn_Spec n).
Definition UsesRemoteSigner (n : ChainNode) : bool := UsesTmKms n || IsSignerTarget n.
Definition GetPrivKeySecretName (val : option ValidatorConfig) (obj : ObjectMeta) : string :=
  match val ≫= vc_PrivateKeySecret with
  | Some s => s
  | None => meta_Name obj +:+ "-priv-key"
  end.

(** ** A standalone node's signer *)

Definition chainnode_CosmosignerSigningIdentity (n : ChainNode) : string :=
  match ns_Cosmosigner (cn_Spec n) with
  | None => ""
  | Some c =>
      let softwareKey :=
        match be_Software (cs_Backend c) with
        | None => ""
        | Some sw =>
            if is_some (ns_Validator (cn_Spec n))
            then GetPrivKeySecretName (ns_Validator (cn_Spec n)) (cn_meta n)
            else match non_empty (sw_PrivateKeySecret sw) with
                 | Some s => s
                 | None => cn_Name n +:+ "-priv-key"
                 end
        end in
      effectiveSigningIdentity (Some c) softwareKey
  end.

Definition CosmosignerValidatorTargetedIdentity (n : ChainNode) : string :=
  if negb (is_some (ns_Cosmosigner (cn_Spec n))) || negb (IsValidator n) then ""
  else chainnode_CosmosignerSigningIdentity n.

Definition CosmosignerSigningDigest (n : ChainNode) : string :=
  match ns_Cosmosigner (cn_Spec n) with
  | None => ""
  | Some c =>
      Sha256 (chainnode_CosmosignerSigningIdentity n +:+ nul +:+ FormatInt (GetReplicas (Some c)) +:+ nul
              +:+ (if IsValidator n then "true" else "false"))
  end.

Definition tmkms_unconfigured : string := "tmkms" +:+ nul +:+ "unconfigured".

Definition EffectiveSigningIdentity (n : ChainNode) : string :=
  if is_some (ns_Cosmosigner (cn_Spec n)) then chainnode_CosmosignerSigningIdentity n
  else if UsesTmKms n then
    match tmkmsNormalizedVaultKey (ns_Validator (cn_Spec n) ≫= vc_TmKMS) with
    | Some id => id
    | None => tmkms_unconfigured
    end
  else if IsValidator n then
    localKeySigningIdentity (GetPrivKeySecretName (ns_Validator (cn_Spec n)) (cn_meta n))
  else "".

Definition ValidatorResolvesSigningIdentity (n : ChainNode) (identity : string) : bool :=
  if (identity == "") || negb (is_some (ns_Validator (cn_Spec n))) then false else
  match tmkmsNormalizedVaultKey (ns_Validator (cn_Spec n) ≫= vc_TmKMS) with
  | Some id => id == identity
  | None =>
      if UsesTmKms n then identity == tmkms_unconfigured
      else localKeySigningIdentity (GetPrivKeySecretName (ns_Validator (cn_Spec n)) (cn_meta n)) == identity
  end.

(** [SetEstablishedChainID] of a ChainNode. *)
Definition chainnode_SetEstablishedChainID (n : ChainNode) (chainID : string) : ChainNode :=
  if chainID == "" then n else
  let st := cn_Status n in
  let cs := nst_Cosmosigner st in
  mkChainNode (cn_meta n) (cn_Spec n)
    (nst_with_Cosmosigner (nst_with_ChainID st chainID)
       (mkSignerStatus (css_SigningDigest cs) (css_AppliedDigest cs) (css_PublicKey cs) (css_Migration cs)
          (css_KeyImported cs) (css_ImportedKeyVersion cs) (css_Replicas cs) (css_ValidatorTargeted cs)
          (css_StateStorageSize cs) (css_StateStorageClassName cs)
          (match css_AtEstablishment cs with
           | Some marker => Some marker
           | None => Some (CosmosignerValidatorTargetedIdentity n)
           end)
          (css_ServingIdentity cs))).

(** ** The signers of a ChainNodeSet *)

(** Where a signer block sits in the spec: the identity of the [Spec] pointer. *)
Inductive spec_pointer := AtTopLevel | AtGroup (i : nat).
#[export] Instance spec_pointer_eq_dec : EqDecision spec_pointer.
Proof. solve_decision. Defined.

Record ResolvedSigner := mkResolvedSigner {
  sg_Name : string;
  sg_Spec : option Cosmosigner;
  sg_At : spec_pointer;
  sg_TargetGroups : list string;
  sg_ValidatorGroup : string;
  sg_SoftwareKeySecret : string;
}.

Definition validatorKeySecret (nodeSet : ChainNodeSet) (group : string) : string :=
  if group == ReservedValidatorGroupName then
    match ss_Validator (cns_Spec nodeSet) ≫= λ v, non_empty (nv_PrivateKeySecret v) with
    | Some s => s
    | None => cns_Name nodeSet +:+ "-validator-priv-key"
    end
  else
    match find_group (λ g, (ng_Name g == group) && is_some (ng_Validator g)) nodeSet with
    | Some g =>
        match ng_Validator g ≫= λ v, non_empty (nv_PrivateKeySecret v) with
        | Some s => s
        | None => cns_Name nodeSet +:+ "-" +:+ group +:+ "-0-priv-key"
        end
    | None => ""
    end.

Definition resolveSignerKeySecret (nodeSet : ChainNodeSet) (c : Cosmosigner) (validatorGroup : string) : string :=
  if validatorGroup != "" then validatorKeySecret nodeSet validatorGroup else
  match be_Software (cs_Backend c) with
  | Some sw => default "" (sw_PrivateKeySecret sw)
  | None => ""
  end.

Definition topLevelValidatorGroup (nodeSet : ChainNodeSet) (groups : list string) : string :=
  foldl (λ vg name,
    if (name == ReservedValidatorGroupName) && is_some (ss_Validator (cns_Spec nodeSet))
    then ReservedValidatorGroupName
    else if existsb (λ g, (ng_Name g == name) && is_some (ng_Validator g)) (ss_Nodes (cns_Spec nodeSet))
    then name else vg) "" groups.

Definition resolveTopLevelSigner (nodeSet : ChainNodeSet) (c : Cosmosigner) : ResolvedSigner :=
  let '(targets, vg) :=
    match cs_NodeGroups c with
    | [] => if is_some (ss_Validator (cns_Spec nodeSet))
            then ([ReservedValidatorGroupName], ReservedValidatorGroupName) else ([], "")
    | groups => (groups, topLevelValidatorGroup nodeSet groups)
    end in
  mkResolvedSigner (cns_Name nodeSet +:+ "-signer") (Some c) AtTopLevel targets vg
    (resolveSignerKeySecret nodeSet c vg).

Definition resolveGroupSigners (nodeSet : ChainNodeSet) (i : nat) (g : NodeGroupSpec) (c : Cosmosigner) :
    list ResolvedSigner :=
  let name := cns_Name nodeSet +:+ "-" +:+ ng_Name g +:+ "-signer" in
  match ng_Validator g with
  | None =>
      [mkResolvedSigner name (Some c) (AtGroup i) [ng_Name g] "" (resolveSignerKeySecret nodeSet c "")]
  | Some _ =>
      [mkResolvedSigner name (Some c) (AtGroup i) [ng_Name g] (ng_Name g)
         (resolveSignerKeySecret nodeSet c (ng_Name g))]
  end.

Definition ResolveCosmosigners (nodeSet : ChainNodeSet) : list ResolvedSigner :=
  match ss_Cosmosigner (cns_Spec nodeSet) with
  | Some c => [resolveTopLevelSigner nodeSet c]
  | None => []
  end ++
  concat (imap (λ i g, match ng_Cosmosigner g with
                       | Some c => resolveGroupSigners nodeSet i g c
                       | None => []
                       end) (ss_Nodes (cns_Spec nodeSet))).

Definition Identity (s : ResolvedSigner) : string :=
  effectiveSigningIdentity (sg_Spec s) (sg_SoftwareKeySecret s).
Definition ValidatorTargetedIdentity (s : ResolvedSigner) : string :=
  if sg_ValidatorGroup s == "" then "" else Identity s.
Definition TargetsValidator (s : ResolvedSigner) : bool := sg_ValidatorGroup s != "".

Definition SignerUsesLocalValidatorKey (nodeSet : ChainNodeSet) (s : ResolvedSigner) : bool :=
  if negb (TargetsValidator s) || negb (is_some (sg_Spec s)) then false
  else if UsesSoftwareBackend (sg_Spec s) then true
  else if GcpImportsKey (sg_Spec s) then true
  else if negb (UsesVaultBackend (sg_Spec s)) then false
  else
    let initializesGenesis :=
      if sg_ValidatorGroup s == ReservedValidatorGroupName then
        match ss_Validator (cns_Spec nodeSet) with Some v => is_some (nv_Init v) | None => false end
      else
        match find_group (λ g, (ng_Name g == sg_ValidatorGroup s) && is_some (ng_Validator g)) nodeSet with
        | Some g => is_some (ng_Validator g ≫= nv_Init)
        | None => false
        end in
    VaultUploadsGenerated (sg_Spec s) initializesGenesis.

Definition digest_preimage (s : ResolvedSigner) : string :=
  let groups := sort_Strings (sg_TargetGroups s) in
  Identity s +:+ nul +:+ FormatInt (GetReplicas (sg_Spec s)) +:+ nul +:+
  FormatInt (Z.of_nat (length groups)) +:+ nul +:+ strings_Join groups nul +:+ nul +:+ sg_ValidatorGroup s.

Definition Digest (s : ResolvedSigner) : string := Sha256 (digest_preimage s).

Definition signerFieldPath (nodeSet : ChainNodeSet) (s : ResolvedSigner) : string :=
  if sg_At s == AtTopLevel then ".spec.cosmosigner" else
  match sg_TargetGroups s with
  | t :: _ =>
      match list_find (λ g, ng_Name g = t) (ss_Nodes (cns_Spec nodeSet)) with
      | Some (i, _) => ".spec.nodes[" +:+ FormatInt (Z.of_nat i) +:+ "].cosmosigner"
      | None => ".spec.cosmosigner"
      end
  | [] => ".spec.cosmosigner"
  end.

(** ** Status entries *)

Definition statuses (nodeSet : ChainNodeSet) : list CosmosignerStatus :=
  sst_Cosmosigners (cns_Status nodeSet).

Definition set_statuses (nodeSet : ChainNodeSet) (l : list CosmosignerStatus) : ChainNodeSet :=
  mkChainNodeSet (cns_meta nodeSet) (cns_Spec nodeSet) (sst_with_Cosmosigners (cns_Status nodeSet) l).

Definition GetCosmosignerStatus (nodeSet : ChainNodeSet) (name : string) : option CosmosignerStatus :=
  find (λ st, st_Name st == name) (statuses nodeSet).

(** The pointer a lookup returns is the position of the first entry of that
    name; writing through it updates that entry. *)
Fixpoint update_entry (name : string) (f : CosmosignerStatus → CosmosignerStatus)
    (l : list CosmosignerStatus) : list CosmosignerStatus :=
  match l with
  | [] => []
  | st :: l => if st_Name st == name then f st :: l else st :: update_entry name f l
  end.

Definition EnsureCosmosignerStatus (nodeSet : ChainNodeSet) (name : string) : ChainNodeSet :=
  match GetCosmosignerStatus nodeSet name with
  | Some _ => nodeSet
  | None => set_statuses nodeSet (statuses nodeSet ++ [newCosmosignerStatus name])
  end.

Definition RemoveCosmosignerStatus (nodeSet : ChainNodeSet) (name : string) : ChainNodeSet :=
  set_statuses nodeSet (filter (λ st, st_Name st ≠ name) (statuses nodeSet)).

Definition CosmosignerStatusResourceName (st : option CosmosignerStatus) : string :=
  match st with
  | Some st => if st_ResourceName st != "" then st_ResourceName st else st_Name st
  | None => ""
  end.

Definition CosmosignerResourceName (nodeSet : ChainNodeSet) (s : ResolvedSigner) : string :=
  match GetCosmosignerStatus nodeSet (sg_Name s) with
  | Some st => if st_ResourceName st != "" then st_ResourceName st else sg_Name s
  | None => sg_Name s
  end.

Definition HasLegacyPerInstanceCosmosignerStatus (nodeSet : ChainNodeSet) (group : string) : bool :=
  let prefix := cns_Name nodeSet +:+ "-" +:+ group +:+ "-" in
  let suffix := "-signer" in
  let modernSentries :=
    map sg_Name (filter (λ signer,
      negb (TargetsValidator signer) &&
      match GetCosmosignerStatus nodeSet (sg_Name signer) with
      | Some st => (st_ServingGroup st == "") && is_some (st_AtEstablishment st)
      | None => false
      end = true) (ResolveCosmosigners nodeSet)) in
  existsb (λ st,
    if (st_ServingGroup st != "") && (st_ServingGroup st != group) then false
    else if (st_ServingGroup st == "") && (st_AtEstablishment st == Some "") then false
    else if bool_decide (st_Name st ∈ modernSentries) then false
    else if negb (has_prefix (st_Name st) prefix) || negb (has_suffix (st_Name st) suffix) then false
    else match Atoi (TrimSuffix (TrimPrefix (st_Name st) prefix) suffix) with
         | Ok index => (0 <=? index)%Z
         | Err _ => false
         end) (statuses nodeSet).

(** ** Establishment *)

Definition genesisValidatorPrivKeySecrets (nodeSet : ChainNodeSet) : gset string :=
  let add (init : option GenesisInitConfig) : list string :=
    match init with Some i => map gv_PrivKeySecret (gn_GenesisValidators i) | None => [] end in
  list_to_set (add (ss_Validator (cns_Spec nodeSet) ≫= nv_Init) ++
    concat (map (λ g, match ng_Validator g with
                      | Some v => if (0 <? GetInstances g)%Z then add (nv_Init v) else []
                      | None => []
                      end) (ss_Nodes (cns_Spec nodeSet)))).

Definition GenesisSentryEstablishmentIdentity (nodeSet : ChainNodeSet) (s : ResolvedSigner) : string :=
  if (sg_ValidatorGroup s != "") || (sg_SoftwareKeySecret s == "") then ""
  else if bool_decide (sg_SoftwareKeySecret s ∈ genesisValidatorPrivKeySecrets nodeSet) then Identity s
  else "".

(** The body of the loop: what establishment writes into a signer's entry. *)
Definition establish_entry (nodeSet : ChainNodeSet) (establishing : bool) (s : ResolvedSigner)
    (st : CosmosignerStatus) : CosmosignerStatus :=
  let '(marker, group) :=
    match st_AtEstablishment st with
    | Some m => (m, st_ServingGroup st)
    | None =>
        let id := ValidatorTargetedIdentity s in
        (if id == "" then GenesisSentryEstablishmentIdentity nodeSet s else id,
         if sg_ValidatorGroup s != "" then sg_ValidatorGroup s else st_ServingGroup st)
    end in
  let ever :=
    match st_LocalKeyEverServed st with
    | None => if establishing && TargetsValidator s
              then Some (SignerUsesLocalValidatorKey nodeSet s) else None
    | Some b => Some b
    end in
  mkCosmosignerStatus (st_Name st) (st_ResourceName st) (st_AppliedDigest st) (st_PublicKey st)
    (st_TargetGroups st) (st_Migration st) (st_Replicas st) (st_StateStorageSize st)
    (st_StateStorageClassName st) (st_SigningDigest st) (Some marker) (st_ServingIdentity st)
    group ever (st_KeyImported st) (st_ImportedKeyVersion st).

Definition set_chain_id (nodeSet : ChainNodeSet) (chainID : string) : ChainNodeSet :=
  mkChainNodeSet (cns_meta nodeSet) (cns_Spec nodeSet) (sst_with_ChainID (cns_Status nodeSet) chainID).

Definition establish_signer (establishing : bool) (nodeSet : ChainNodeSet) (s : ResolvedSigner) : ChainNodeSet :=
  let nodeSet := EnsureCosmosignerStatus nodeSet (sg_Name s) in
  set_statuses nodeSet (update_entry (sg_Name s) (establish_entry nodeSet establishing s) (statuses nodeSet)).

(** [SetEstablishedChainID] of a ChainNodeSet. *)
Definition SetEstablishedChainID (nodeSet : ChainNodeSet) (chainID : string) : ChainNodeSet :=
  if chainID == "" then nodeSet else
  let establishing := sst_ChainID (cns_Status nodeSet) == "" in
  foldl (establish_signer establishing) (set_chain_id nodeSet chainID) (ResolveCosmosigners nodeSet).

(** ** Replacement and removal of signers *)

(** Counts of a Go [map[string]int]. *)
Definition count (counts : gmap string Z) (g : string) : Z := default 0%Z (counts !! g).
Definition add_counts (a : list string) : gmap string Z :=
  foldl (λ counts g, <[g := (count counts g + 1)%Z]> counts) ∅ a.
Fixpoint take_counts (counts : gmap string Z) (b : list string) : bool :=
  match b with
  | [] => true
  | g :: b => if (count counts g =? 0)%Z then false
              else take_counts (<[g := (count counts g - 1)%Z]> counts) b
  end.
Definition equalGroupMultiset (a b : list string) : bool :=
  if length a != length b then false else take_counts (add_counts a) b.

Definition replaces (nodeSet : ChainNodeSet) (st : CosmosignerStatus) (s : ResolvedSigner) : bool :=
  if st_ServingGroup st == "" then
    match non_empty (st_AtEstablishment st) with
    | Some marker => GenesisSentryEstablishmentIdentity nodeSet s == marker
    | None => equalGroupMultiset (st_TargetGroups st) (sg_TargetGroups s)
    end
  else if sg_ValidatorGroup s != st_ServingGroup st then false
  else ((st_ServingIdentity st != "") && (ValidatorTargetedIdentity s == st_ServingIdentity st)) ||
       ((st_ServingIdentity st == "") && (st_SigningDigest st == "")).

Definition DesiredReplacementSigner (nodeSet : ChainNodeSet) (desired : list ResolvedSigner)
    (st : option CosmosignerStatus) : option ResolvedSigner :=
  match st with
  | None => None
  | Some st =>
      if (st_ServingGroup st == "") && ((st_ServingIdentity st != "") || (st_SigningDigest st != ""))
      then None else find (replaces nodeSet st) desired
  end.

Definition validatorConfigForGroup (nodeSet : ChainNodeSet) (group : string) : option NodeSetValidatorConfig :=
  if group == ReservedValidatorGroupName then ss_Validator (cns_Spec nodeSet)
  else find_group (λ g, ng_Name g == group) nodeSet ≫= ng_Validator.

Definition validatorGroupSigningIdentity (nodeSet : ChainNodeSet) (group : string)
    (cfg : option NodeSetValidatorConfig) : string :=
  match cfg with
  | None => ""
  | Some v =>
      match tmkmsNormalizedVaultKey (nv_TmKMS v) with
      | Some id => id
      | None => if is_some (nv_TmKMS v) then tmkms_unconfigured
                else localKeySigningIdentity (validatorKeySecret nodeSet group)
      end
  end.

Definition ValidatorGroupResolvesSigningIdentity (nodeSet : ChainNodeSet) (group : string)
    (cfg : option NodeSetValidatorConfig) (identity : string) : bool :=
  (identity != "") && (validatorGroupSigningIdentity nodeSet group cfg == identity).

Definition ServedValidatorResolvesIdentity (nodeSet : ChainNodeSet) (group identity : string) : bool :=
  if (identity == "") || (group == "") then false
  else if group == ReservedValidatorGroupName then
    is_some (ss_Validator (cns_Spec nodeSet)) &&
    (validatorGroupSigningIdentity nodeSet ReservedValidatorGroupName (ss_Validator (cns_Spec nodeSet)) == identity)
  else
    match find_group (λ g, ng_Name g == group) nodeSet with
    | None => false
    | Some g =>
        if negb (is_some (ng_Validator g)) || (GetInstances g =? 0)%Z then false
        else validatorGroupSigningIdentity nodeSet group (ng_Validator g) == identity
    end.

Definition ServedValidatorHasMultipleInstances (nodeSet : ChainNodeSet) (group : string) : bool :=
  if (group == "") || (group == ReservedValidatorGroupName) then false else
  match find_group (λ g, ng_Name g == group) nodeSet with
  | Some g => is_some (ng_Validator g) && (1 <? GetInstances g)%Z
  | None => false
  end.

(** ** Target groups *)

Definition groupCosmosigner (nodeSet : ChainNodeSet) (group : string) : option Cosmosigner :=
  match find_group (λ g, (ng_Name g == group) && is_some (ng_Cosmosigner g)) nodeSet with
  | Some g => ng_Cosmosigner g
  | None =>
      match ss_Cosmosigner (cns_Spec nodeSet) with
      | None => None
      | Some c =>
          match cs_NodeGroups c with
          | [] => if (group == ReservedValidatorGroupName) && is_some (ss_Validator (cns_Spec nodeSet))
                  then Some c else None
          | groups => if bool_decide (group ∈ groups) then Some c else None
          end
      end
  end.

Definition IsCosmosignerTargetGroup (nodeSet : ChainNodeSet) (group : string) : bool :=
  existsb (λ s, existsb (λ t, t == group) (sg_TargetGroups s)) (ResolveCosmosigners nodeSet).

(** ** Recorded children *)

Inductive RecordedChildMatch :=
  | RecordedChildNone | RecordedChildReplaced | RecordedChildUnverified | RecordedChildExact.
#[export] Instance RecordedChildMatch_eq_dec : EqDecision RecordedChildMatch.
Proof. solve_decision. Defined.

Definition match_rank (m : RecordedChildMatch) : nat :=
  match m with
  | RecordedChildNone => 0 | RecordedChildReplaced => 1
  | RecordedChildUnverified => 2 | RecordedChildExact => 3
  end.

Definition consider_child (child : ChainNode) (m : RecordedChildMatch) (p : string * string) : RecordedChildMatch :=
  let '(name, uid) := p in
  if name != cn_Name child then m else
  let candidate :=
    if uid == "" then RecordedChildUnverified
    else if uid == cn_UID child then RecordedChildExact else RecordedChildReplaced in
  if (match_rank m <? match_rank candidate)%nat then candidate else m.

Definition recorded_children (nodeSet : ChainNodeSet) : list (string * string) :=
  map (λ s, (nn_Name s, nn_UID s)) (sst_Nodes (cns_Status nodeSet)) ++
  map (λ s, (vst_Name s, vst_UID s)) (sst_Validators (cns_Status nodeSet)).

Definition MatchRecordedChild (nodeSet : ChainNodeSet) (child : ChainNode) : RecordedChildMatch :=
  foldl (consider_child child) RecordedChildNone (recorded_children nodeSet).

Definition ClaimsChild (nodeSet : ChainNodeSet) (child : ChainNode) : bool :=
  match MatchRecordedChild nodeSet child with
  | RecordedChildExact | RecordedChildUnverified => true
  | _ => false
  end.

Definition RecordedChildIdentity (nodeSet : ChainNodeSet) (child : ChainNode) : bool * bool :=
  let m := MatchRecordedChild nodeSet child in
  (m != RecordedChildNone, m == RecordedChildExact).

(** ** Comparing target groups *)

(** How often a name occurs in a list. *)
Definition occurrences (g : string) (l : list string) : Z := Z.of_nat (length (filter (g =.) l)).

Definition represents (counts : gmap string Z) (l : list string) : Prop :=
  ∀ g, count counts g = occurrences g l.

Lemma occurrences_perm g l l' : l ≡ₚ l' → occurrences g l = occurrences g l'.
Proof. intros Hp. unfold occurrences. by rewrite Hp. Qed.

Lemma occurrences_cons g h l :
  occurrences h (g :: l) = if decide (g = h) then (occurrences h l + 1)%Z else occurrences h l.
Proof. unfold occurrences. rewrite filter_cons. repeat case_decide; subst; simpl; done || lia. Qed.

Lemma occurrences_not_in g l : g ∉ l → occurrences g l = 0%Z.
Proof.
  induction l as [|x l IH]; [done|]. rewrite elem_of_cons, occurrences_cons. intros Hg.
  rewrite decide_False by (intros ->; auto). auto.
Qed.

Lemma count_insert counts g h z :
  count (<[g := z]> counts) h = if decide (g = h) then z else count counts h.
Proof. unfold count. case_decide; [subst; by rewrite lookup_insert_eq|by rewrite lookup_insert_ne]. Qed.

Lemma add_counts_from l counts seen :
  represents counts seen →
  represents (foldl (λ counts g, <[g := (count counts g + 1)%Z]> counts) counts l) (l ++ seen).
Proof.
  revert counts seen. induction l as [|x l IH]; intros counts seen Hc; simpl; [done|].
  intros g. rewrite (occurrences_perm _ _ (l ++ x :: seen)) by (by rewrite Permutation_middle).
  apply IH. intros h. rewrite count_insert, occurrences_cons, !Hc. case_decide; [by subst|done].
Qed.

Lemma add_counts_represents l : represents (add_counts l) l.
Proof.
  unfold add_counts. intros g. rewrite <- (app_nil_r l) at 2. by apply add_counts_from.
Qed.

Lemma take_counts_spec b counts a :
  represents counts a → take_counts counts b = true ↔ b ⊆+ a.
Proof.
  revert counts a. induction b as [|x b IH]; intros counts a Hc; cbn [take_counts].
  - split; [intros _; apply submseteq_nil_l|done].
  - rewrite (Hc x). destruct (decide (x ∈ a)) as [Hx|Hx].
    + apply elem_of_Permutation in Hx as [a' Ha].
      rewrite (occurrences_perm _ _ _ Ha), occurrences_cons, decide_True by done.
      assert ((occurrences x a' + 1 =? 0)%Z = false) as ->
        by (apply Z.eqb_neq; unfold occurrences; lia).
      rewrite (IH _ a'), Ha.
      * split; [by apply submseteq_skip|].
        by intros (k & Hk%Permutation_cons_inv & ?)%submseteq_cons_l; rewrite Hk.
      * intros h. rewrite count_insert, (Hc h), (occurrences_perm _ _ _ Ha), occurrences_cons.
        case_decide; [subst; lia|done].
    + rewrite occurrences_not_in by done. simpl. split; [done|]. intros Hs. exfalso.
      apply Hx. eapply elem_of_submseteq; [|done]. by left.
Qed.

Lemma equalGroupMultiset_perm a b : equalGroupMultiset a b = true ↔ a ≡ₚ b.
Proof.
  unfold equalGroupMultiset. destruct (decide (length a = length b)) as [Hl|Hl].
  - rewrite bool_decide_eq_true_2 by done. simpl.
    rewrite (take_counts_spec _ _ a) by apply add_counts_represents. split.
    + intros Hs. symmetry. apply submseteq_length_Permutation; [done|lia].
    + intros Hp. by rewrite Hp.
  - rewrite bool_decide_eq_false_2 by done. simpl. split; [done|].
    by intros Hp%Permutation_length.
Qed.

(** Two target-group lists are considered equal exactly when one is a
    reordering of the other. *)
Theorem equalGroupMultiset_spec a b : equalGroupMultiset a b = true ↔ a ≡ₚ b.
Proof. apply equalGroupMultiset_perm. Qed.

(** ** The enumeration of signers *)

Lemma elem_of_concat {A} (x : A) ls : x ∈ concat ls ↔ ∃ l, l ∈ ls ∧ x ∈ l.
Proof.
  rewrite list_elem_of_In, in_concat. split; intros (l & ? & ?); exists l; by rewrite ?list_elem_of_In in *.
Qed.

Lemma resolveGroupSigners_one nodeSet i g c :
  ∃ s, resolveGroupSigners nodeSet i g c = [s] ∧
    sg_Name s = cns_Name nodeSet +:+ "-" +:+ ng_Name g +:+ "-signer" ∧
    sg_TargetGroups s = [ng_Name g] ∧ sg_Spec s = Some c ∧ sg_At s = AtGroup i ∧
    sg_ValidatorGroup s = (if is_some (ng_Validator g) then ng_Name g else "").
Proof. unfold resolveGroupSigners. destruct (ng_Validator g); by eexists. Qed.

Lemma ResolveCosmosigners_in nodeSet s :
  s ∈ ResolveCosmosigners nodeSet ↔
  (∃ c, ss_Cosmosigner (cns_Spec nodeSet) = Some c ∧ s = resolveTopLevelSigner nodeSet c) ∨
  (∃ i g c, ss_Nodes (cns_Spec nodeSet) !! i = Some g ∧ ng_Cosmosigner g = Some c ∧
            [s] = resolveGroupSigners nodeSet i g c).
Proof.
  unfold ResolveCosmosigners. rewrite elem_of_app, elem_of_concat. f_equiv.
  - destruct (ss_Cosmosigner _) as [c|].
    + rewrite list_elem_of_singleton. split; [eauto|]. by intros (? & [= ->] & ?).
    + split; [by intros ?%elem_of_nil|]. by intros (? & ? & ?).
  - setoid_rewrite elem_of_lookup_imap. split.
    + intros (l & (i & g & -> & Hg) & Hs). destruct (ng_Cosmosigner g) as [c|] eqn:Ec; [|set_solver].
      destruct (resolveGroupSigners_one nodeSet i g c) as (s' & E & _). rewrite E in Hs.
      apply list_elem_of_singleton in Hs as ->. by exists i, g, c.
    + intros (i & g & c & Hg & Hc & Hs). exists [s]. split; [|by left].
      exists i, g. by rewrite Hc.
Qed.

Lemma top_targets nodeSet c :
  sg_TargetGroups (resolveTopLevelSigner nodeSet c) =
  match cs_NodeGroups c with
  | [] => if is_some (ss_Validator (cns_Spec nodeSet)) then [ReservedValidatorGroupName] else []
  | groups => groups
  end.
Proof. unfold resolveTopLevelSigner. destruct (cs_NodeGroups c), (ss_Validator (cns_Spec nodeSet)); done. Qed.

Lemma find_is_Some {A} (f : A → bool) l : is_Some (find f l) ↔ ∃ x, x ∈ l ∧ f x = true.
Proof.
  split.
  - intros [x [Hx Hf]%find_some]. exists x. by rewrite list_elem_of_In.
  - intros (x & Hx%list_elem_of_In & Hf). destruct (find f l) eqn:E; [eauto|].
    apply (find_none _ _ E) in Hx. congruence.
Qed.

(** A group's nodes are treated as remote-signer targets exactly when some
    signer block of the spec covers that group. *)
Theorem IsCosmosignerTargetGroup_spec nodeSet group :
  IsCosmosignerTargetGroup nodeSet group = true ↔ is_Some (groupCosmosigner nodeSet group).
Proof.
  unfold IsCosmosignerTargetGroup. rewrite existsb_exists.
  transitivity (∃ s, s ∈ ResolveCosmosigners nodeSet ∧ group ∈ sg_TargetGroups s).
  { f_equiv; intros s. rewrite <- list_elem_of_In. f_equiv. rewrite existsb_exists.
    setoid_rewrite bool_decide_eq_true. setoid_rewrite <- list_elem_of_In.
    split; [by intros (? & ? & ->)|eauto]. }
  setoid_rewrite ResolveCosmosigners_in. unfold groupCosmosigner.
  destruct (find_group _ nodeSet) as [g|] eqn:Eg.
  - pose proof Eg as [Hin Hf]%find_some. to_prop.
    destruct (ng_Cosmosigner g) as [c|] eqn:Ec; [|done]. split; [eauto|]. intros _.
    apply list_elem_of_In, list_elem_of_lookup in Hin as [i Hi].
    destruct (resolveGroupSigners_one nodeSet i g c) as (s & E & _ & Ht & _).
    exists s. rewrite Ht. split; [right; by exists i, g, c|]. rewrite <- H. by left.
  - assert (∀ i g c s, ss_Nodes (cns_Spec nodeSet) !! i = Some g → ng_Cosmosigner g = Some c →
              [s] = resolveGroupSigners nodeSet i g c → group ∉ sg_TargetGroups s) as Hno.
    { intros i g c s Hi Hc Hs. destruct (resolveGroupSigners_one nodeSet i g c) as (s' & E & _ & Ht & _).
      rewrite E in Hs. simplify_eq. rewrite Ht, list_elem_of_singleton. intros ->.
      apply list_elem_of_lookup_2, list_elem_of_In in Hi. apply (find_none _ _ Eg) in Hi.
      simpl in Hi. rewrite bool_decide_eq_true_2, Hc in Hi by done. done. }
    destruct (ss_Cosmosigner _) as [c|].
    + split.
      * intros (s & [(c' & [= <-] & ->)|(i & g & c' & ? & ? & ?)] & Hg); [|by edestruct Hno].
        rewrite top_targets in Hg. destruct (cs_NodeGroups c) as [|x l].
        -- destruct (is_some (ss_Validator (cns_Spec nodeSet))); [|set_solver].
           apply list_elem_of_singleton in Hg as ->. by rewrite bool_decide_eq_true_2.
        -- by rewrite bool_decide_eq_true_2.
      * intros Hg. exists (resolveTopLevelSigner nodeSet c). split; [left; eauto|].
        rewrite top_targets. destruct (cs_NodeGroups c) as [|x l].
        -- destruct (bool_decide _) eqn:E, (is_some (ss_Validator (cns_Spec nodeSet))); simpl in Hg; try by destruct Hg.
           to_prop. subst. by left.
        -- case_bool_decide; [done|by destruct Hg].
    + split; [|by intros []]. intros (s & [(c' & ? & ?)|(i & g & c' & ? & ? & ?)] & Hg); [done|by edestruct Hno].
Qed.

Definition group_signer_name (nodeSet : ChainNodeSet) (group : string) : string :=
  cns_Name nodeSet +:+ "-" +:+ group +:+ "-signer".

#[export] Instance group_signer_name_inj nodeSet : Inj (=) (=) (group_signer_name nodeSet).
Proof.
  intros a b H. unfold group_signer_name in H.
  do 2 apply string_app_inj_l in H. by apply string_app_inj_r in H.
Qed.

Lemma top_name_not_group nodeSet group :
  cns_Name nodeSet +:+ "-signer" ≠ group_signer_name nodeSet group.
Proof.
  intros H%string_app_inj_l. apply (f_equal String.length) in H.
  rewrite !string_length_app in H. simpl in H. lia.
Qed.

Lemma group_signer_names nodeSet (h : nat → nat) l :
  map sg_Name (concat (imap (λ i g, match ng_Cosmosigner g with
                                    | Some c => resolveGroupSigners nodeSet (h i) g c
                                    | None => []
                                    end) l)) =
  map (group_signer_name nodeSet) (map ng_Name (filter (λ g, is_Some (ng_Cosmosigner g)) l)).
Proof.
  revert h. induction l as [|g l IH]; intros h; [done|]. rewrite imap_cons, filter_cons. simpl.
  rewrite map_app. specialize (IH (h ∘ S)). unfold compose in *. rewrite IH.
  destruct (ng_Cosmosigner g) as [c|]; simpl.
  - destruct (resolveGroupSigners_one nodeSet (h 0%nat) g c) as (s & -> & Hn & _).
    simpl. by rewrite Hn.
  - done.
Qed.

Lemma signer_names_NoDup nodeSet :
  NoDup (map ng_Name (ss_Nodes (cns_Spec nodeSet))) →
  NoDup (map sg_Name (ResolveCosmosigners nodeSet)).
Proof.
  intros Hnd. unfold ResolveCosmosigners. rewrite map_app, (group_signer_names nodeSet (λ i, i)).
  assert (NoDup (map (group_signer_name nodeSet)
    (map ng_Name (filter (λ g, is_Some (ng_Cosmosigner g)) (ss_Nodes (cns_Spec nodeSet)))))).
  { apply (NoDup_fmap_2 _). eapply sublist_NoDup; [exact Hnd|]. apply (fmap_sublist ng_Name), sublist_filter. }
  destruct (ss_Cosmosigner _) as [c|]; [|done]. simpl. constructor; [|done].
  intros (group & Hg & _)%list_elem_of_In%in_map_iff. apply (top_name_not_group nodeSet group).
  rewrite Hg. unfold resolveTopLevelSigner. destruct (cs_NodeGroups c); [|done].
  by destruct (is_some _).
Qed.

(** ** Status entries *)

Lemma find_update_entry name name' f l :
  (∀ st, st_Name st = name → st_Name (f st) = name) →
  find (λ st, st_Name st == name') (update_entry name f l) =
  if decide (name = name') then f <$> find (λ st, st_Name st == name) l
  else find (λ st, st_Name st == name') l.
Proof.
  intros Hf. induction l as [|st l IH]; simpl; [by case_decide|].
  destruct (decide (st_Name st = name)) as [E|E].
  - rewrite (bool_decide_eq_true_2 (st_Name st = name)) by done. simpl. rewrite Hf, E by done.
    destruct (decide (name = name')); [by rewrite bool_decide_eq_true_2|by rewrite bool_decide_eq_false_2].
  - rewrite (bool_decide_eq_false_2 (st_Name st = name)) by done. simpl. rewrite IH.
    destruct (decide (name = name')) as [<-|]; [by rewrite bool_decide_eq_false_2|done].
Qed.

Lemma find_app {A} (f : A → bool) l k :
  find f (l ++ k) = match find f l with Some x => Some x | None => find f k end.
Proof. induction l as [|x l IH]; simpl; [done|]. by destruct (f x). Qed.

Lemma find_filter_name name name' l :
  find (λ st, st_Name st == name') (filter (λ st, st_Name st ≠ name) l) =
  if decide (name = name') then None else find (λ st, st_Name st == name') l.
Proof.
  induction l as [|st l IH]; [by case_decide|]. rewrite filter_cons. simpl.
  repeat (case_decide || case_bool_decide); subst; simpl; try congruence;
    rewrite ?bool_decide_eq_true_2, ?bool_decide_eq_false_2 by congruence; congruence.
Qed.

Lemma Ensure_lookup nodeSet name name' :
  GetCosmosignerStatus (EnsureCosmosignerStatus nodeSet name) name' =
  if decide (name = name')
  then Some (default (newCosmosignerStatus name) (GetCosmosignerStatus nodeSet name))
  else GetCosmosignerStatus nodeSet name'.
Proof.
  unfold EnsureCosmosignerStatus.
  destruct (GetCosmosignerStatus nodeSet name) as [st|] eqn:E; simpl;
    [by destruct (decide (name = name')) as [<-|]|].
  unfold GetCosmosignerStatus, statuses in *. simpl. rewrite find_app. simpl.
  destruct (decide (name = name')) as [<-|Hne].
  - by rewrite E, bool_decide_eq_true_2.
  - rewrite bool_decide_eq_false_2 by done. by case_match.
Qed.

(** Looking up a signer's status after creating the entry finds it, after
    removing it finds none, and neither touches another signer's entry. *)
Theorem cosmosigner_status_lookup nodeSet name name' :
  GetCosmosignerStatus (EnsureCosmosignerStatus nodeSet name) name' =
    (if decide (name = name')
     then Some (default (newCosmosignerStatus name) (GetCosmosignerStatus nodeSet name))
     else GetCosmosignerStatus nodeSet name') ∧
  GetCosmosignerStatus (RemoveCosmosignerStatus nodeSet name) name' =
    (if decide (name = name') then None else GetCosmosignerStatus nodeSet name').
Proof. split; [apply Ensure_lookup|apply find_filter_name]. Qed.

(** ** Establishment *)

Lemma establish_entry_frame nodeSet nodeSet' e s st :
  cns_meta nodeSet = cns_meta nodeSet' → cns_Spec nodeSet = cns_Spec nodeSet' →
  establish_entry nodeSet e s st = establish_entry nodeSet' e s st.
Proof. destruct nodeSet, nodeSet'; simpl. by intros -> ->. Qed.

Lemma Ensure_frame nodeSet name :
  cns_meta (EnsureCosmosignerStatus nodeSet name) = cns_meta nodeSet ∧
  cns_Spec (EnsureCosmosignerStatus nodeSet name) = cns_Spec nodeSet ∧
  sst_ChainID (cns_Status (EnsureCosmosignerStatus nodeSet name)) = sst_ChainID (cns_Status nodeSet).
Proof. unfold EnsureCosmosignerStatus. by destruct (GetCosmosignerStatus _ _). Qed.

Lemma establish_signer_frame e nodeSet s :
  cns_meta (establish_signer e nodeSet s) = cns_meta nodeSet ∧
  cns_Spec (establish_signer e nodeSet s) = cns_Spec nodeSet ∧
  sst_ChainID (cns_Status (establish_signer e nodeSet s)) = sst_ChainID (cns_Status nodeSet).
Proof. apply Ensure_frame. Qed.

Lemma find_name nodeSet name st : GetCosmosignerStatus nodeSet name = Some st → st_Name st = name.
Proof. intros [_ H]%find_some. by to_prop. Qed.

Lemma establish_entry_name nodeSet e s st : st_Name (establish_entry nodeSet e s st) = st_Name st.
Proof. unfold establish_entry. by destruct (st_AtEstablishment st). Qed.

(** What establishment leaves in the entry of signer [s]. *)
Definition established_entry (nodeSet : ChainNodeSet) (e : bool) (s : ResolvedSigner) : CosmosignerStatus :=
  establish_entry nodeSet e s
    (default (newCosmosignerStatus (sg_Name s)) (GetCosmosignerStatus nodeSet (sg_Name s))).

Lemma establish_signer_lookup e nodeSet s name :
  GetCosmosignerStatus (establish_signer e nodeSet s) name =
  if decide (sg_Name s = name) then Some (established_entry nodeSet e s)
  else GetCosmosignerStatus nodeSet name.
Proof.
  unfold establish_signer, established_entry. pose proof (Ensure_lookup nodeSet (sg_Name s)) as Hl.
  pose proof (Ensure_frame nodeSet (sg_Name s)) as (Hm & Hs & _).
  set (n1 := EnsureCosmosignerStatus nodeSet (sg_Name s)) in *.
  unfold GetCosmosignerStatus at 1, statuses at 1. simpl.
  rewrite find_update_entry by (intros st Hst; by rewrite establish_entry_name).
  fold (GetCosmosignerStatus n1 (sg_Name s)) (GetCosmosignerStatus n1 name). rewrite !Hl.
  rewrite (decide_True (P := sg_Name s = sg_Name s)) by done. simpl.
  destruct (decide (sg_Name s = name)); [|done]. f_equal. by apply establish_entry_frame.
Qed.

Lemma establish_all_lookup e l nodeSet name :
  NoDup (map sg_Name l) →
  GetCosmosignerStatus (foldl (establish_signer e) nodeSet l) name =
  match find (λ s, sg_Name s == name) l with
  | Some s => Some (established_entry nodeSet e s)
  | None => GetCosmosignerStatus nodeSet name
  end.
Proof.
  revert nodeSet. induction l as [|s l IH]; intros nodeSet; [done|]. simpl.
  intros [Hs Hl]%NoDup_cons. rewrite IH by done. rewrite establish_signer_lookup.
  pose proof (establish_signer_frame e nodeSet s) as (Hm & Hsp & _).
  destruct (decide (sg_Name s = name)) as [<-|Hne].
  - rewrite bool_decide_eq_true_2 by done. destruct (find _ l) as [s'|] eqn:E; [|done].
    apply find_some in E as [Hin E]. to_prop. destruct Hs. rewrite <- E.
    apply list_elem_of_In. by apply in_map.
  - rewrite bool_decide_eq_false_2 by done. destruct (find _ l) as [s'|] eqn:E; [|done].
    apply find_some in E as [Hin E]. to_prop. f_equal. unfold established_entry.
    rewrite establish_signer_lookup, decide_False by congruence. by apply establish_entry_frame.
Qed.

Lemma establish_all_frame e l nodeSet :
  cns_Spec (foldl (establish_signer e) nodeSet l) = cns_Spec nodeSet ∧
  cns_meta (foldl (establish_signer e) nodeSet l) = cns_meta nodeSet ∧
  sst_ChainID (cns_Status (foldl (establish_signer e) nodeSet l)) = sst_ChainID (cns_Status nodeSet).
Proof.
  revert nodeSet. induction l as [|s l IH]; intros nodeSet; [done|]. simpl.
  pose proof (establish_signer_frame e nodeSet s) as (<- & <- & <-). apply IH.
Qed.

Lemma SetEstablishedChainID_lookup nodeSet chainID name :
  chainID ≠ "" → NoDup (map ng_Name (ss_Nodes (cns_Spec nodeSet))) →
  GetCosmosignerStatus (SetEstablishedChainID nodeSet chainID) name =
  match find (λ s, sg_Name s == name) (ResolveCosmosigners nodeSet) with
  | Some s => Some (established_entry nodeSet (sst_ChainID (cns_Status nodeSet) == "") s)
  | None => GetCosmosignerStatus nodeSet name
  end.
Proof.
  intros Hid Hnd. unfold SetEstablishedChainID. rewrite bool_decide_eq_false_2 by done.
  by rewrite establish_all_lookup by (by apply signer_names_NoDup).
Qed.

Lemma SetEstablishedChainID_frame nodeSet chainID :
  chainID ≠ "" →
  cns_Spec (SetEstablishedChainID nodeSet chainID) = cns_Spec nodeSet ∧
  cns_meta (SetEstablishedChainID nodeSet chainID) = cns_meta nodeSet ∧
  sst_ChainID (cns_Status (SetEstablishedChainID nodeSet chainID)) = chainID.
Proof.
  intros Hid. unfold SetEstablishedChainID. rewrite bool_decide_eq_false_2 by done.
  pose proof (establish_all_frame (sst_ChainID (cns_Status nodeSet) == "") (ResolveCosmosigners nodeSet)
                (set_chain_id nodeSet chainID)) as (Hs & Hm & Hc). done.
Qed.

Lemma find_signer nodeSet s :
  NoDup (map ng_Name (ss_Nodes (cns_Spec nodeSet))) → s ∈ ResolveCosmosigners nodeSet →
  find (λ s', sg_Name s' == sg_Name s) (ResolveCosmosigners nodeSet) = Some s.
Proof.
  intros Hnd%signer_names_NoDup. induction (ResolveCosmosigners nodeSet) as [|x l IH]; [set_solver|].
  simpl in *. apply NoDup_cons in Hnd as [Hx Hl]. intros [->|Hs]%elem_of_cons.
  - by rewrite bool_decide_eq_true_2.
  - rewrite bool_decide_eq_false_2; [by apply IH|]. intros E. apply Hx. rewrite E.
    apply list_elem_of_In, in_map. by apply list_elem_of_In.
Qed.

Lemma establish_entry_again nodeSet nodeSet' e s st :
  establish_entry nodeSet' false s (establish_entry nodeSet e s st) = establish_entry nodeSet e s st.
Proof.
  unfold establish_entry. destruct (st_AtEstablishment st), (st_LocalKeyEverServed st); simpl; try done;
    by destruct (e && TargetsValidator s).
Qed.

(** recording the chain ID is a write-once establishment: every signer gets an
    at-establishment marker holding the identity it signs a validator with (or
    its genesis identity), a marker already present is never overwritten, no
    other entry changes, and recording a chain ID again changes nothing in the
    signers' records. *)
Theorem SetEstablishedChainID_spec nodeSet chainID
    (Hid : chainID ≠ "") (Hnd : NoDup (map ng_Name (ss_Nodes (cns_Spec nodeSet)))) :
  let n' := SetEstablishedChainID nodeSet chainID in
  sst_ChainID (cns_Status n') = chainID ∧
  (∀ s, s ∈ ResolveCosmosigners nodeSet → ∃ st,
     GetCosmosignerStatus n' (sg_Name s) = Some st ∧
     st_AtEstablishment st = Some
       match GetCosmosignerStatus nodeSet (sg_Name s) ≫= st_AtEstablishment with
       | Some marker => marker
       | None => if TargetsValidator s && (Identity s != "") then Identity s
                 else GenesisSentryEstablishmentIdentity nodeSet s
       end) ∧
  (∀ name, name ∉ map sg_Name (ResolveCosmosigners nodeSet) →
     GetCosmosignerStatus n' name = GetCosmosignerStatus nodeSet name) ∧
  (∀ chainID' name, GetCosmosignerStatus (SetEstablishedChainID n' chainID') name =
                    GetCosmosignerStatus n' name).
Proof.
  intros n'. pose proof (SetEstablishedChainID_frame nodeSet chainID Hid) as (Hs & Hm & Hc).
  fold n' in Hs, Hm, Hc. split_and!; [done|..].
  - intros s Hin. unfold n'. rewrite SetEstablishedChainID_lookup, find_signer by done.
    eexists. split; [done|]. unfold established_entry, establish_entry, ValidatorTargetedIdentity, TargetsValidator.
    destruct (GetCosmosignerStatus nodeSet (sg_Name s)) as [st|]; simpl;
      [destruct (st_AtEstablishment st); [done|]|];
      by destruct (sg_ValidatorGroup s == ""), (Identity s == "").
  - intros name Hn. unfold n'. rewrite SetEstablishedChainID_lookup by done.
    destruct (find _ _) as [s|] eqn:E; [|done]. apply find_some in E as [Hin E]. to_prop.
    destruct Hn. rewrite <- E. by apply list_elem_of_In, in_map.
  - intros chainID' name. destruct (decide (chainID' = "")) as [->|Hid']; [done|].
    rewrite SetEstablishedChainID_lookup by (by rewrite ?Hs). rewrite Hc, bool_decide_eq_false_2 by done.
    assert (ResolveCosmosigners n' = ResolveCosmosigners nodeSet) as ->.
    { destruct n', nodeSet; simpl in *; by subst. }
    destruct (find _ _) as [s|] eqn:E; [|done]. unfold n' at 2. rewrite SetEstablishedChainID_lookup, E by done.
    f_equal. apply find_some in E as [Hin E]. to_prop. subst name.
    unfold established_entry at 1. unfold n' at 2.
    rewrite SetEstablishedChainID_lookup, find_signer by (done || by apply list_elem_of_In).
    apply establish_entry_again.
Qed.

(** Signers never share a resource name: with distinct group names, every
    managed signer of a ChainNodeSet has its own. *)
Theorem signer_names_unique nodeSet (Hnd : NoDup (map ng_Name (ss_Nodes (cns_Spec nodeSet)))) :
  NoDup (map sg_Name (ResolveCosmosigners nodeSet)).
Proof. by apply signer_names_NoDup. Qed.

(** ** Replacing a recorded signer *)

(** When a desired signer keeps what a recorded signer held. *)
Inductive Preserves (nodeSet : ChainNodeSet) (st : CosmosignerStatus) (s : ResolvedSigner) : Prop :=
  | preserves_validator :
      st_ServingGroup st ≠ "" → sg_ValidatorGroup s = st_ServingGroup st →
      st_ServingIdentity st ≠ "" → Identity s = st_ServingIdentity st → Preserves nodeSet st s
  | preserves_unrolled :
      st_ServingGroup st ≠ "" → sg_ValidatorGroup s = st_ServingGroup st →
      st_ServingIdentity st = "" → st_SigningDigest st = "" → Preserves nodeSet st s
  | preserves_genesis_sentry marker :
      st_ServingGroup st = "" → st_ServingIdentity st = "" → st_SigningDigest st = "" →
      st_AtEstablishment st = Some marker → marker ≠ "" →
      GenesisSentryEstablishmentIdentity nodeSet s = marker → Preserves nodeSet st s
  | preserves_sentry :
      st_ServingGroup st = "" → st_ServingIdentity st = "" → st_SigningDigest st = "" →
      non_empty (st_AtEstablishment st) = None →
      st_TargetGroups st ≡ₚ sg_TargetGroups s → Preserves nodeSet st s.

Lemma non_empty_Some o m : non_empty o = Some m ↔ o = Some m ∧ m ≠ "".
Proof.
  unfold non_empty. destruct o as [x|]; [|by split; [|intros []]].
  destruct (decide (x = "")) as [->|Hx];
    [rewrite bool_decide_eq_true_2 by done|rewrite bool_decide_eq_false_2 by done]; simpl.
  - split; [done|by intros [[= <-] ?]].
  - split; [by intros [= <-]|by intros [[= <-] ?]].
Qed.

Lemma replaces_spec nodeSet st s :
  (st_ServingGroup st = "" → st_ServingIdentity st = "" ∧ st_SigningDigest st = "") →
  replaces nodeSet st s = true ↔ Preserves nodeSet st s.
Proof.
  intros Hst. unfold replaces. destruct (decide (st_ServingGroup st = "")) as [Hg|Hg].
  - rewrite bool_decide_eq_true_2 by done. destruct (Hst Hg) as [Hi Hd].
    destruct (non_empty (st_AtEstablishment st)) as [m|] eqn:Em.
    + pose proof Em as [Ea Hm]%non_empty_Some. rewrite bool_decide_eq_true. split.
      * intros E. by eapply preserves_genesis_sentry.
      * destruct 1; congruence.
    + rewrite equalGroupMultiset_perm. split; [intros; by apply preserves_sentry|].
      destruct 1; try congruence. exfalso. assert (non_empty (st_AtEstablishment st) = Some marker)
        by by apply non_empty_Some. congruence.
  - rewrite bool_decide_eq_false_2 by done.
    destruct (decide (sg_ValidatorGroup s = st_ServingGroup st)) as [Hv|Hv].
    + rewrite (bool_decide_eq_true_2 (sg_ValidatorGroup s = _)) by done. simpl.
      assert (ValidatorTargetedIdentity s = Identity s) as ->.
      { unfold ValidatorTargetedIdentity. rewrite bool_decide_eq_false_2; congruence. }
      rewrite orb_true_iff, !andb_true_iff, negb_true_iff, bool_decide_eq_false, !bool_decide_eq_true.
      split; [|destruct 1; naive_solver].
      intros [[? ?]|[? ?]]; [by apply preserves_validator|by apply preserves_unrolled].
    + rewrite (bool_decide_eq_false_2 (sg_ValidatorGroup s = _)) by done. simpl.
      split; [done|destruct 1; congruence].
Qed.

Lemma DesiredReplacementSigner_cases nodeSet desired st :
  match DesiredReplacementSigner nodeSet desired (Some st) with
  | Some s => s ∈ desired ∧ Preserves nodeSet st s
  | None => ∀ s, s ∈ desired → ¬ Preserves nodeSet st s
  end.
Proof.
  unfold DesiredReplacementSigner. destruct (_ && _) eqn:E.
  - to_prop. intros s _. destruct H0; to_prop; destruct 1; congruence.
  - assert (st_ServingGroup st = "" → st_ServingIdentity st = "" ∧ st_SigningDigest st = "") as Hst.
    { intros Hg. rewrite Hg in E. simpl in E. to_prop. by to_prop. }
    destruct (find _ desired) as [s|] eqn:Ef.
    + apply find_some in Ef as [Hin Hr]. split; [by apply list_elem_of_In|]. by apply replaces_spec.
    + intros s Hs Hp%replaces_spec; [|done]. apply list_elem_of_In in Hs.
      apply (find_none _ _ Ef) in Hs. congruence.
Qed.

(** The signer a recorded one is migrated to is a desired signer that
    keeps the validator identity it served, its genesis identity, or its sentry
    target set; a sentry entry with rollout evidence has no replacement, and when
    none is returned none of the desired signers qualifies. *)
Theorem DesiredReplacementSigner_spec nodeSet desired st :
  match DesiredReplacementSigner nodeSet desired (Some st) with
  | Some s => s ∈ desired ∧ Preserves nodeSet st s
  | None => ∀ s, s ∈ desired → ¬ Preserves nodeSet st s
  end.
Proof. apply DesiredReplacementSigner_cases. Qed.

(** ** Recorded children *)

Lemma consider_child_rank child m p :
  match_rank (consider_child child m p) =
  Nat.max (match_rank m) (match_rank (consider_child child RecordedChildNone p)).
Proof.
  destruct p as [name uid]. unfold consider_child. destruct (name != cn_Name child); simpl; [lia|].
  repeat case_bool_decide; destruct m; done.
Qed.

Lemma match_rank_ge nodeSet child k :
  (0 < k)%nat →
  (k ≤ match_rank (MatchRecordedChild nodeSet child))%nat ↔
  ∃ p, p ∈ recorded_children nodeSet ∧ (k ≤ match_rank (consider_child child RecordedChildNone p))%nat.
Proof.
  intros Hk. unfold MatchRecordedChild.
  assert (∀ l m, (k ≤ match_rank (foldl (consider_child child) m l))%nat ↔
    (k ≤ match_rank m)%nat ∨ ∃ p, p ∈ l ∧ (k ≤ match_rank (consider_child child RecordedChildNone p))%nat) as H.
  { induction l as [|p l IH]; intros m; simpl.
    - split; [by left|]. by intros [|(? & ?%elem_of_nil & ?)].
    - rewrite IH, consider_child_rank, Nat.max_le_iff. setoid_rewrite elem_of_cons. naive_solver. }
  rewrite H. simpl. split; [intros [|]; [lia|done]|by right].
Qed.

(** A ChainNodeSet claims a child exactly when its status records the child's
    name with the child's UID or with no UID (a record older than the UID field);
    the match is exact exactly when name and UID are recorded, and absent exactly
    when the name is not recorded, in any order of the records. *)
Theorem MatchRecordedChild_spec nodeSet child :
  (ClaimsChild nodeSet child = true ↔
     ∃ uid, (cn_Name child, uid) ∈ recorded_children nodeSet ∧ (uid = "" ∨ uid = cn_UID child)) ∧
  (MatchRecordedChild nodeSet child = RecordedChildExact ↔
     cn_UID child ≠ "" ∧ (cn_Name child, cn_UID child) ∈ recorded_children nodeSet) ∧
  (MatchRecordedChild nodeSet child = RecordedChildNone ↔
     ∀ uid, (cn_Name child, uid) ∉ recorded_children nodeSet).
Proof.
  pose proof (match_rank_ge nodeSet child) as Hge. unfold ClaimsChild. split_and!.
  - trans (2 ≤ match_rank (MatchRecordedChild nodeSet child))%nat.
    { destruct (MatchRecordedChild _ _); simpl; split; done || lia. }
    rewrite Hge by lia. split.
    + intros ([name uid] & Hin & Hr). unfold consider_child in Hr.
      repeat case_bool_decide; simpl in Hr; try lia; subst; eauto.
    + intros (uid & Hin & Hu). eexists. split; [done|]. unfold consider_child.
      rewrite bool_decide_eq_true_2 by done. repeat case_bool_decide; simpl; lia || naive_solver.
  - trans (3 ≤ match_rank (MatchRecordedChild nodeSet child))%nat.
    { destruct (MatchRecordedChild _ _); simpl; split; done || lia. }
    rewrite Hge by lia. split.
    + intros ([name uid] & Hin & Hr). unfold consider_child in Hr.
      repeat case_bool_decide; simpl in Hr; try lia; subst; eauto.
    + intros (Hu & Hin). eexists. split; [done|]. unfold consider_child.
      rewrite bool_decide_eq_true_2 by done. repeat case_bool_decide; simpl; lia || naive_solver.
  - trans (¬ 1 ≤ match_rank (MatchRecordedChild nodeSet child))%nat.
    { destruct (MatchRecordedChild _ _); simpl; split; done || lia. }
    rewrite Hge by lia. split.
    + intros Hn uid Hin. apply Hn. eexists. split; [done|]. unfold consider_child.
      rewrite bool_decide_eq_true_2 by done. repeat case_bool_decide; simpl; lia.
    + intros Hn ([name uid] & Hin & Hr). unfold consider_child in Hr.
      repeat case_bool_decide; simpl in Hr; try lia; subst; by eapply Hn.
Qed.

(** ** Examples *)

(** A set with a singleton validator behind a top-level software signer and a
    sentry group with its own Vault signer. *)
Definition example_group : NodeGroupSpec :=
  ng_with_Cosmosigner (newNodeGroup "sentries") (Some (example_signer (mkBackend None (Some example_vault) None))).
Definition example_validator : NodeSetValidatorConfig :=
  newNodeSetValidator.
Definition example_nodeset : ChainNodeSet :=
  mkChainNodeSet (meta_of_name "default" "chain")
    (newChainNodeSetSpec (newAppSpec "img" None "appd" []) (Some example_validator)
       [example_group] (Some (example_signer (mkBackend (Some (mkSoftware None)) None None))))
    (newChainNodeSetStatus "" [] 0 []).

Lemma SetEstablishedChainID_witness :
  st_AtEstablishment <$> GetCosmosignerStatus (SetEstablishedChainID example_nodeset "chain-1") "chain-signer"
    = Some (Some (localKeySigningIdentity "chain-validator-priv-key")) ∧
  sst_ChainID (cns_Status (SetEstablishedChainID example_nodeset "chain-1")) = "chain-1".
Proof.
  split; [vm_compute; reflexivity|].
  apply (SetEstablishedChainID_spec example_nodeset "chain-1"); [done|].
  simpl. repeat constructor. set_solver.
Defined.

Lemma signer_names_unique_witness :
  map sg_Name (ResolveCosmosigners example_nodeset) = ["chain-signer"; "chain-sentries-signer"] ∧
  NoDup (map sg_Name (ResolveCosmosigners example_nodeset)).
Proof.
  split; [vm_compute; reflexivity|]. apply (signer_names_unique example_nodeset).
  simpl. repeat constructor. set_solver.
Defined.
