(* ===== verification/Getters.v ===== *)
(** * Fields with defaults ([api/v1/common_helper.go], [chainnode_helper.go],
    [chainnodeset_helper.go])

    The accessors of the API types.  A method that accepts a nil receiver takes
    an option; one that dereferences it takes the value. *)

From S2P Require Import Prelude GoLib ThirdParty Reference ApiTypes DerivedNames Upgrades CosmosignerSpec SignerResolve.

(** ** Application *)

Definition PullAlways : string := "Always".
Definition PullIfNotPresent : string := "IfNotPresent".

Definition app_GetImage (app : AppSpec) : string := app_Image app +:+ ":" +:+ GetImageVersion app.
Definition GetImagePullPolicy (app : AppSpec) : string :=
  if app_ImagePullPolicy app != "" then app_ImagePullPolicy app
  else if app_Version app == Some DefaultImageVersion then PullAlways
  else PullIfNotPresent.

Definition DefaultSdkVersion : SdkVersion := V0_53.
Definition GetSdkVersion (app : AppSpec) : SdkVersion := default DefaultSdkVersion (app_SdkVersion app).
Definition UseGenesisSubcommand (app : AppSpec) : bool :=
  match app_SdkOptions app ≫= so_GenesisSubcommand with
  | Some b => b
  | None => match GetSdkVersion app with V0_45 => false | _ => true end
  end.

(** ** Genesis *)

Definition ShouldUseDataVolume (g : option GenesisConfig) : bool := default false (g ≫= gc_UseDataVolume).
Definition ShouldDownloadUsingContainer (g : option GenesisConfig) : bool :=
  match g ≫= gc_ChainID with Some _ => ShouldUseDataVolume g | None => false end.
Definition HasConfigMapSource (g : option GenesisConfig) : bool := is_some (g ≫= gc_ConfigMap).
Definition GetConfigMapName (g : option GenesisConfig) (chainID : string) : string :=
  default (chainID +:+ "-genesis") (g ≫= gc_ConfigMap).

Definition GetGenesisFromRPCUrl (gg : option FromNodeRPCConfig) : string :=
  match gg with
  | None => ""
  | Some gg =>
      let port := default (if fr_Secure gg then 443 else 26657)%Z (fr_Port gg) in
      (if fr_Secure gg then "https://" else "http://") +:+ fr_Hostname gg +:+ ":" +:+ FormatInt port +:+ "/genesis"
  end.

(** ** Node configuration *)

Definition DefaultBlockThreshold : string := "0s".
Definition DefaultNodeUtilsLogLevel : string := "info".
Definition DefaultReconcilePeriod : Z := (15 * 10 ^ 9)%Z.
Definition DefaultStartupTime : Z := (3600 * 10 ^ 9)%Z.

Definition sidecar_pull_policy (c : SidecarSpec) : string :=
  if sc_ImagePullPolicy c != "" then sc_ImagePullPolicy c else
  match sc_Image c with
  | Some image =>
      match split_char ":" image with
      | [_] => PullAlways
      | _ :: tag :: _ => if tag == DefaultImageVersion then PullAlways else PullIfNotPresent
      | [] => PullIfNotPresent
      end
  | None => PullIfNotPresent
  end.
Definition GetSidecarImagePullPolicy (cfg : option Config) (name : string) : string :=
  match cfg with
  | None => PullIfNotPresent
  | Some cfg =>
      match find (λ c, sc_Name c == name) (cf_Sidecars cfg) with
      | Some c => sidecar_pull_policy c
      | None => PullIfNotPresent
      end
  end.

Definition SeedModeEnabled (cfg : option Config) : bool := default false (cfg ≫= cf_SeedMode).
Definition ShouldIgnoreSyncing (cfg : option Config) : bool := default false (cfg ≫= cf_IgnoreSyncing).
Definition GetEnv (cfg : option Config) : list opaque := match cfg with Some cfg => cf_Env cfg | None => [] end.
Definition IsEvmEnabled (cfg : option Config) : bool := default false (cfg ≫= cf_EvmEnabled).
Definition UseDashedConfigToml (cfg : option Config) : bool := default false (cfg ≫= cf_DashedConfigToml).
Definition GetBlockThreshold (cfg : option Config) : string := default DefaultBlockThreshold (cfg ≫= cf_BlockThreshold).
Definition GetNodeUtilsLogLevel (cfg : option Config) : string :=
  default DefaultNodeUtilsLogLevel (cfg ≫= cf_NodeUtilsLogLevel).
Definition GetNodeUtilsEnv (cfg : option Config) : list opaque :=
  match cfg with Some cfg => cf_NodeUtilsEnv cfg | None => [] end.
Definition ShouldPersistAddressBook (cfg : option Config) : bool := default true (cfg ≫= cf_PersistAddressBook).
Definition GetTerminationGracePeriodSeconds (cfg : option Config) : option Z := cfg ≫= cf_TerminationGracePeriodSeconds.
Definition GetHaltHeight (cfg : option Config) : Z := default 0%Z (cfg ≫= cf_HaltHeight).
Definition GetSecurityContext (cfg : option Config) : option opaque := cfg ≫= cf_SecurityContext.
Definition GetPodSecurityContext (cfg : option Config) : option opaque := cfg ≫= cf_PodSecurityContext.
Definition GetServiceAccountName (cfg : option Config) : string := default "" (cfg ≫= cf_ServiceAccountName).

Definition ShouldRestartPodOnFailure (s : SidecarSpec) : bool := default false (sc_RestartPodOnFailure s).
Definition ShouldRunBeforeNode (s : SidecarSpec) : bool := default false (sc_RunBeforeNode s).
Definition sidecar_GetImage (s : SidecarSpec) (n : ChainNode) : string := default (GetAppImage n) (sc_Image s).
Definition DeferUntilHealthyEnabled (s : option SidecarSpec) : bool := default false (s ≫= sc_DeferUntilHealthy).

Definition StateSync_Enabled (ss : option StateSyncConfig) : bool :=
  match ss with Some ss => (0 <? sy_SnapshotInterval ss)%Z | None => false end.
Definition DefaultStateSyncKeepRecent : Z := 2.
Definition GetKeepRecent (ss : option StateSyncConfig) : Z := default DefaultStateSyncKeepRecent (ss ≫= sy_SnapshotKeepRecent).

(** ** CosmoGuard *)

Definition cosmoGuard (cfg : option Config) : option CosmoGuardConfig := cfg ≫= cf_CosmoGuard.

Definition CosmoGuardEnabled (cfg : option Config) : bool :=
  match cosmoGuard cfg with Some cg => cg_Enable cg | None => false end.
Definition GetCosmoGuardConfig (cfg : option Config) : option SecretKeySelector := cosmoGuard cfg ≫= cg_Config.
Definition GetCosmoGuardReplicas (cfg : option Config) : Z := default 1%Z (cosmoGuard cfg ≫= cg_Replicas).
Definition GetCosmoGuardImage (cfg : option Config) (defaultImage : string) : string :=
  default defaultImage (non_empty (cosmoGuard cfg ≫= cg_Image)).
Definition GetCosmoGuardAutoscaling (cfg : option Config) : option CosmoGuardAutoscalingConfig :=
  cosmoGuard cfg ≫= cg_Autoscaling.
Definition CosmoGuardAutoscalingEnabled (cfg : option Config) : bool :=
  match GetCosmoGuardAutoscaling cfg with Some a => gas_Enable a | None => false end.
Definition GetCosmoGuardDashboard (cfg : option Config) : option CosmoGuardDashboardConfig :=
  cosmoGuard cfg ≫= cg_Dashboard.
Definition CosmoGuardDashboardEnabled (cfg : option Config) : bool :=
  match GetCosmoGuardDashboard cfg with Some d => db_Enable d | None => false end.
Definition DefaultCosmoGuardDashboardPort : Z := 8080.
Definition GetCosmoGuardDashboardPort (cfg : option Config) : Z :=
  default DefaultCosmoGuardDashboardPort (GetCosmoGuardDashboard cfg ≫= db_Port).

Definition DefaultCosmoGuardCPU : string := "200m".
Definition DefaultCosmoGuardMemory : string := "250Mi".
Definition DefaultCosmoGuardAutoscalingCPUTarget : Z := 80.
Definition DefaultNodeUtilsCPU : string := "300m".
Definition DefaultNodeUtilsMemory : string := "100Mi".
Definition cpu : string := "cpu".
Definition memory : string := "memory".

Section resources.
Context `{QuantityApi}.

(** The same quantities as requests and as limits. *)
Definition requests_and_limits (c m : string) : ResourceRequirements :=
  let list := <[cpu := MustParse c]> (<[memory := MustParse m]> ∅) in
  mkResourceRequirements (Some list) (Some list) [].

Definition GetNodeUtilsResources (cfg : option Config) : ResourceRequirements :=
  default (requests_and_limits DefaultNodeUtilsCPU DefaultNodeUtilsMemory) (cfg ≫= cf_NodeUtilsResources).
Definition defaultCosmoGuardResources : ResourceRequirements :=
  requests_and_limits DefaultCosmoGuardCPU DefaultCosmoGuardMemory.
Definition GetCosmoGuardResources (cfg : option Config) : ResourceRequirements :=
  default defaultCosmoGuardResources (cosmoGuard cfg ≫= cg_Resources).

(** [list[name]] of a possibly nil map. *)
Definition rl_lookup (l : option (gmap string Quantity)) (name : string) : option Quantity := l ≫= lookup name.

Definition cosmoGuardRequests (res : ResourceRequirements) (name : string) : bool :=
  match rl_lookup (rr_Requests res) name with
  | Some request => negb (QuantityIsZero request)
  | None => match rl_lookup (rr_Limits res) name with Some limit => negb (QuantityIsZero limit) | None => false end
  end.

Definition cosmoGuardInjectedRequest (res : ResourceRequirements) (name : string) (def : Quantity) : Quantity :=
  match rl_lookup (rr_Limits res) name with
  | Some limit => if negb (QuantityIsZero limit) && (QuantityCmp limit def <? 0)%Z then limit else def
  | None => def
  end.

Definition set_request (res : ResourceRequirements) (name : string) (q : Quantity) : ResourceRequirements :=
  mkResourceRequirements (rr_Limits res) (Some (<[name := q]> (default ∅ (rr_Requests res)))) (rr_Claims res).

Definition ensureCosmoGuardRequests (res : ResourceRequirements) (needCPU needMemory : bool) : ResourceRequirements :=
  let inject need name default out :=
    if need && negb (cosmoGuardRequests res name)
    then set_request out name (cosmoGuardInjectedRequest res name (MustParse default)) else out in
  inject needMemory memory DefaultCosmoGuardMemory (inject needCPU cpu DefaultCosmoGuardCPU res).

(** The resources of the guard and the two targets of its autoscaler. *)
Definition GetCosmoGuardAutoscalingTargets (cfg : option Config) : ResourceRequirements * option Z * option Z :=
  let resources := GetCosmoGuardResources cfg in
  match GetCosmoGuardAutoscaling cfg with
  | None => (resources, None, None)
  | Some as_ =>
      let targetCPU := gas_TargetCPUUtilizationPercentage as_ in
      let targetMemory := gas_TargetMemoryUtilizationPercentage as_ in
      let hasCPU := cosmoGuardRequests resources cpu in
      let hasMemory := cosmoGuardRequests resources memory in
      let '(resources, hasCPU, hasMemory) :=
        if negb hasCPU && negb hasMemory then (defaultCosmoGuardResources, true, true)
        else (resources, hasCPU, hasMemory) in
      let '(targetCPU, targetMemory) :=
        if negb (is_some targetCPU) && negb (is_some targetMemory) then
          if hasMemory && negb hasCPU then (None, Some DefaultCosmoGuardAutoscalingCPUTarget)
          else (Some DefaultCosmoGuardAutoscalingCPUTarget, None)
        else (targetCPU, targetMemory) in
      (ensureCosmoGuardRequests resources (is_some targetCPU) (is_some targetMemory), targetCPU, targetMemory)
  end.
End resources.

(** ** Exposure *)

Definition DefaultP2pExpose : bool := false.
Definition DefaultP2pServiceType : string := "NodePort".
Definition DefaultIngressClass : string := "nginx".

(** [gwapiv1.ParentReference] *)
Record ParentReference := mkParentRef {
  par_Name : string;
  par_Namespace : option string;
  par_SectionName : option string;
  par_Port : option Z;
}.
Definition GetParentRef (g : GatewayRef) : ParentReference :=
  mkParentRef (gr_Name g) (gr_Namespace g) (gr_SectionName g) None.

Definition Expose_Enabled (exp : option ExposeConfig) : bool := default DefaultP2pExpose (exp ≫= ex_P2P).
Definition GetServiceType (exp : option ExposeConfig) : string := default DefaultP2pServiceType (exp ≫= ex_P2pServiceType).
Definition expose_GetAnnotations (exp : option ExposeConfig) : option (gmap string string) := exp ≫= ex_Annotations.
Definition UsesGateway (exp : option ExposeConfig) : bool := is_some (exp ≫= ex_Gateway).
Definition GetGatewayPort (exp : ExposeConfig) : Z := default 26656%Z (ex_Gateway exp ≫= eg_Port).
(** Dereferences the gateway of the configuration. *)
Definition expose_GetGatewayParentRef (exp : ExposeConfig) (gateway : ExposeGatewayConfig) : ParentReference :=
  let ref := GetParentRef (eg_Ref gateway) in
  mkParentRef (par_Name ref) (par_Namespace ref) (par_SectionName ref) (Some (GetGatewayPort exp)).

(** *** Subdomains *)

Definition subdomain (s : option SubdomainsConfig) (f : SubdomainsConfig → option string) (d : string) : string :=
  default d (non_empty (s ≫= f)).
Definition GetRPC (s : option SubdomainsConfig) : string := subdomain s sub_RPC "rpc".
Definition GetGRPC (s : option SubdomainsConfig) : string := subdomain s sub_GRPC "grpc".
Definition GetLCD (s : option SubdomainsConfig) : string := subdomain s sub_LCD "lcd".
Definition GetEvmRPC (s : option SubdomainsConfig) : string := subdomain s sub_EvmRPC "evm-rpc".
Definition GetEvmRpcWs (s : option SubdomainsConfig) : string := subdomain s sub_EvmRpcWs "evm-rpc-ws".

(** *** Global routes *)

Definition grpc_annotations (own : option (gmap string string)) (class : string) : option (gmap string string) :=
  match own with
  | Some a => Some a
  | None =>
      if strings_Contains class DefaultIngressClass
      then Some {[ "nginx.ingress.kubernetes.io/backend-protocol" := "GRPC" ]} else None
  end.

Definition gi_GetName (gi : GlobalIngressConfig) (owner : ObjectMeta) : string :=
  meta_Name owner +:+ "-global-" +:+ gin_Name gi.
Definition gi_UseInternal (gi : GlobalIngressConfig) : bool := default false (gin_UseInternalServices gi).
Definition gi_GetServiceName (gi : GlobalIngressConfig) (owner : ObjectMeta) : string :=
  let public := meta_Name owner +:+ "-global-" +:+ gin_Name gi in
  if gi_UseInternal gi then public +:+ "-internal" else public.
Definition gi_GetGrpcName (gi : GlobalIngressConfig) (owner : ObjectMeta) : string :=
  meta_Name owner +:+ "-global-" +:+ gin_Name gi +:+ "-grpc".
Definition gi_GetTlsSecretName (gi : GlobalIngressConfig) (owner : ObjectMeta) : string :=
  default (gi_GetName gi owner +:+ "-tls") (gin_TlsSecretName gi).
Definition gi_HasGroup (gi : GlobalIngressConfig) (name : string) : bool := existsb (λ g, g == name) (gin_Groups gi).
Definition gi_GetIngressClass (gi : GlobalIngressConfig) : string := default DefaultIngressClass (gin_IngressClass gi).
Definition gi_GetGrpcAnnotations (gi : GlobalIngressConfig) : option (gmap string string) :=
  grpc_annotations (gin_GrpcAnnotations gi) (gi_GetIngressClass gi).
Definition gi_CreateServicesOnly (gi : GlobalIngressConfig) : bool := default false (gin_ServicesOnly gi).

Definition gc_UseInternal (gc : GatewayConfig) : bool := default false (gw_UseInternalServices gc).
Definition gg_UseInternal (g : GlobalGatewayConfig) : bool := default false (gg_UseInternalServices g).
Definition gg_GetName (g : GlobalGatewayConfig) (owner : ObjectMeta) : string :=
  meta_Name owner +:+ "-" +:+ gg_Name g +:+ "-gw".
Definition gg_GetGrpcName (g : GlobalGatewayConfig) (owner : ObjectMeta) : string :=
  meta_Name owner +:+ "-" +:+ gg_Name g +:+ "-gw-grpc".
Definition gg_GetServiceName (g : GlobalGatewayConfig) (owner : ObjectMeta) : string :=
  let public := meta_Name owner +:+ "-global-" +:+ gg_Name g in
  if gg_UseInternal g then public +:+ "-internal" else public.
Definition gg_HasGroup (g : GlobalGatewayConfig) (name : string) : bool := existsb (λ x, x == name) (gg_Groups g).
Definition gg_CreateServicesOnly (g : GlobalGatewayConfig) : bool := default false (gg_ServicesOnly g).
Definition gg_GetGatewayParentRef (g : GlobalGatewayConfig) : ParentReference := GetParentRef (gg_Gateway g).

(** ** Node groups *)

Definition group_GetServiceName (g : NodeGroupSpec) (owner : ObjectMeta) : string :=
  meta_Name owner +:+ "-" +:+ ng_Name g.
Definition GetServiceConfig (g : NodeGroupSpec) : option Config :=
  match ng_Validator g with Some v => nv_Config v | None => ng_Config g end.
Definition ShouldInheritValidatorGasPrice (g : NodeGroupSpec) : bool := default true (ng_InheritValidatorGasPrice g).
Definition group_HasPdbEnabled (g : NodeGroupSpec) : bool :=
  match ng_PDB g with Some p => pdb_Enabled p | None => false end.
Definition group_GetPdbMinAvailable (g : NodeGroupSpec) : Z :=
  default (GetInstances g - 1)%Z (ng_PDB g ≫= pdb_MinAvailable).
Definition GetSnapshotNodeIndex (g : NodeGroupSpec) : Z := default 0%Z (ng_SnapshotNodeIndex g).
Definition ShouldIgnoreGroupLabelOnDisruptions (g : option NodeGroupSpec) : bool :=
  default false (g ≫= ng_IgnoreGroupOnDisruptionChecks).

(** A group named by a route has its guard enabled. *)
Definition guards_any_group (s : ChainNodeSet) (groups : list string) : bool :=
  existsb (λ name,
    if name == ReservedValidatorGroupName then
      match ss_Validator (cns_Spec s) with Some v => CosmoGuardEnabled (nv_Config v) | None => false end
    else existsb (λ g, (ng_Name g == name) && CosmoGuardEnabled (GetServiceConfig g)) (ss_Nodes (cns_Spec s))) groups.
Definition gi_ShouldUseCosmoGuard (gi : GlobalIngressConfig) (s : ChainNodeSet) : bool :=
  guards_any_group s (gin_Groups gi).
Definition gg_ShouldUseCosmoGuard (g : GlobalGatewayConfig) (s : ChainNodeSet) : bool :=
  guards_any_group s (gg_Groups g).

Definition map_len {A} (m : option (gmap string A)) : nat := match m with Some m => size m | None => 0 end.
Definition isEmptyResourceRequirements (r : ResourceRequirements) : bool :=
  (map_len (rr_Requests r) == 0) && (map_len (rr_Limits r) == 0) && (length (rr_Claims r) == 0).

(** The names of the fields whose flag is set. *)
Definition set_fields (l : list (string * bool)) : list string := map fst (filter (λ p, p.2 = true) l).
Definition MisplacedValidatorScopedFields (g : NodeGroupSpec) : list string :=
  match ng_Validator g with
  | None => []
  | Some _ =>
      set_fields
        [("config", is_some (ng_Config g)); ("persistence", is_some (ng_Persistence g));
         ("resources", negb (isEmptyResourceRequirements (ng_Resources g)));
         ("nodeSelector", negb (size (ng_NodeSelector g) == 0)); ("affinity", is_some (ng_Affinity g));
         ("stateSyncRestore", is_some (ng_StateSyncRestore g));
         ("stateSyncResources", negb (isEmptyResourceRequirements (ng_StateSyncResources g)));
         ("vpa", is_some (ng_VPA g)); ("pdb", is_some (ng_PDB g)); ("overrideVersion", is_some (ng_OverrideVersion g))]
  end.
Definition IneffectiveValidatorGroupFlags (g : NodeGroupSpec) : list string :=
  match ng_Validator g with
  | None => []
  | Some _ =>
      set_fields
        [("ignoreGroupOnDisruptionChecks", is_some (ng_IgnoreGroupOnDisruptionChecks g));
         ("inheritValidatorGasPrice", is_some (ng_InheritValidatorGasPrice g))]
  end.

(** ** Validators of a set *)

Definition DefaultHDPath : string := "m/44'/118'/0'/0/0".
Definition DefaultAccountPrefix : string := "cosmos".
Definition DefaultValPrefix : string := "cosmosvaloper".

(** The first set of three pointers: of the validator, its genesis and its
    create-validator block. *)
Definition first_set (a b c : option string) (d : string) : string :=
  match a, b, c with
  | Some s, _, _ => s
  | None, Some s, _ => s
  | None, None, Some s => s
  | None, None, None => d
  end.

Definition nv_GetPrivKeySecretName (val : option NodeSetValidatorConfig) (obj : ObjectMeta) : string :=
  default (meta_Name obj +:+ "-priv-key") (val ≫= nv_PrivateKeySecret).
Definition nv_GetAccountHDPath (val : option NodeSetValidatorConfig) : string :=
  first_set (val ≫= nv_AccountHDPath) ((val ≫= nv_Init) ≫= gn_AccountHDPath)
    ((val ≫= nv_CreateValidator) ≫= cv_AccountHDPath) DefaultHDPath.
Definition nv_GetAccountSecretName (val : option NodeSetValidatorConfig) (obj : ObjectMeta) : string :=
  default (meta_Name obj +:+ "-account") ((val ≫= nv_Init) ≫= gn_AccountMnemonicSecret).
Definition nv_GetAccountPrefix (val : option NodeSetValidatorConfig) : string :=
  first_set (val ≫= nv_AccountPrefix) ((val ≫= nv_Init) ≫= gn_AccountPrefix)
    ((val ≫= nv_CreateValidator) ≫= cv_AccountPrefix) DefaultAccountPrefix.
Definition nv_GetValPrefix (val : option NodeSetValidatorConfig) : string :=
  first_set (val ≫= nv_ValPrefix) ((val ≫= nv_Init) ≫= gn_ValPrefix)
    ((val ≫= nv_CreateValidator) ≫= cv_ValPrefix) DefaultValPrefix.
Definition nv_GetInitUnbondingTime (val : option NodeSetValidatorConfig) : string :=
  default "" ((val ≫= nv_Init) ≫= gn_UnbondingTime).
Definition nv_GetInitVotingPeriod (val : option NodeSetValidatorConfig) : string :=
  default "" ((val ≫= nv_Init) ≫= gn_VotingPeriod).
Definition nv_GetInitExpeditedVotingPeriod (val : option NodeSetValidatorConfig) : string :=
  default "" ((val ≫= nv_Init) ≫= gn_ExpeditedVotingPeriod).
Definition nv_HasPdbEnabled (val : option NodeSetValidatorConfig) : bool :=
  match val ≫= nv_PDB with Some p => pdb_Enabled p | None => false end.
Definition nv_GetPdbMinAvailable (val : option NodeSetValidatorConfig) (instances : Z) : Z :=
  match (val ≫= nv_PDB) ≫= pdb_MinAvailable with
  | Some m => m
  | None => if (instances <? 1)%Z then 0%Z else (instances - 1)%Z
  end.

(** ** Cosmoseed *)

Definition DefaultCosmoseedLogLevel : string := "info".

Definition cm_IsEnabled (cs : option CosmoseedConfig) : bool := default false (cs ≫= cm_Enabled).
Definition cm_GetInstances (cs : option CosmoseedConfig) : Z :=
  if negb (cm_IsEnabled cs) then 0%Z else default 1%Z (cs ≫= cm_Instances).
Definition GetMaxInboundPeers (cs : option CosmoseedConfig) : Z := default 2000%Z (cs ≫= cm_MaxInboundPeers).
Definition GetMaxOutboundPeers (cs : option CosmoseedConfig) : Z := default 20%Z (cs ≫= cm_MaxOutboundPeers).
Definition GetMaxPacketMsgPayloadSize (cs : option CosmoseedConfig) : Z := default 1024%Z (cs ≫= cm_MaxPacketMsgPayloadSize).
Definition GetPeerQueueSize (cs : option CosmoseedConfig) : Z := default 1000%Z (cs ≫= cm_PeerQueueSize).
Definition GetDialWorkers (cs : option CosmoseedConfig) : Z := default 20%Z (cs ≫= cm_DialWorkers).
Definition cm_GetLogLevel (cs : option CosmoseedConfig) : string := default DefaultCosmoseedLogLevel (cs ≫= cm_LogLevel).
Definition GetAllowNonRoutable (cs : option CosmoseedConfig) : bool := default false (cs ≫= cm_AllowNonRoutable).
Definition csi_GetIngressClass (csi : option CosmoseedIngressConfig) : string :=
  default DefaultIngressClass (csi ≫= si_IngressClass).

(** ** Peers *)

Definition DefaultP2pPort : Z := 26656.
Definition peer_GetPort (p : Peer) : Z := default DefaultP2pPort (peer_Port p).
Definition peer_String (p : Peer) : string :=
  peer_ID p +:+ "@" +:+ peer_Address p +:+ ":" +:+ FormatInt (peer_GetPort p).
Definition IsUnconditional (p : Peer) : bool := default false (peer_Unconditional p).
Definition IsPrivate (p : Peer) : bool := default false (peer_Private p).
Definition IsSeed (p : Peer) : bool := default false (peer_Seed p).
Definition peers_String (l : list Peer) : string := strings_Join (map peer_String l) ",".
Definition ExcludeSeeds (l : list Peer) : list Peer := filter (λ p, IsSeed p = false) l.

(** ** tmKMS *)

(** The defaults of [internal/tmkms]. *)
Definition DefaultKeyType : string := "bech32".
Definition tmkms_DefaultAccountPrefix : string := "cosmospub".
Definition DefaultConsensusPrefix : string := "cosmosvalconspub".
Definition ProtocolVersionV0_34 : string := "v0.34".
Definition DefaultTmkmsCpu : string := "100m".
Definition DefaultTmkmsMemory : string := "64Mi".

Definition GetKeyFormat (kms : TmKMS) : TmKmsKeyFormat :=
  default (mkKeyFormat DefaultKeyType tmkms_DefaultAccountPrefix DefaultConsensusPrefix) (tk_KeyFormat kms).
Definition GetProtocolVersion (kms : TmKMS) : string := default ProtocolVersionV0_34 (tk_ValidatorProtocol kms).
Definition ShouldPersistState (kms : option TmKMS) : bool := default true (kms ≫= tk_PersistState).
Definition tmkms_GetResources `{QuantityApi} (kms : option TmKMS) : ResourceRequirements :=
  default (requests_and_limits DefaultTmkmsCpu DefaultTmkmsMemory) (kms ≫= tk_Resources).

(** ** Volumes and snapshots *)

Definition ShouldDeleteWithNode (v : VolumeSpec) : bool := default false (vl_DeleteWithNode v).
Definition GetStorageClass (v : VolumeSpec) (fallback : option string) : option string :=
  match vl_StorageClassName v with Some c => Some c | None => fallback end.

Definition ShouldStopNode (s : option VolumeSnapshotsConfig) : bool := default false (s ≫= vs_StopNode).
Definition ShouldExportTarballs (s : option VolumeSnapshotsConfig) : bool := is_some (s ≫= vs_ExportTarball).
Definition ShouldVerify (s : option VolumeSnapshotsConfig) : bool := default false (s ≫= vs_Verify).
Definition ShouldDisableWhileSyncing (s : option VolumeSnapshotsConfig) : bool := default true (s ≫= vs_DisableWhileSyncing).
Definition ShouldDisableWhileUnhealthy (s : option VolumeSnapshotsConfig) : bool := default true (s ≫= vs_DisableWhileUnhealthy).
Definition ShouldPreserveLastSnapshot (s : option VolumeSnapshotsConfig) : bool := default true (s ≫= vs_PreserveLastSnapshot).
Definition GetRetainCount (s : option VolumeSnapshotsConfig) : option Z := s ≫= vs_Retain.

(** The defaults of [pkg/dataexporter]. *)
Definition DefaultSizeLimit : string := "5TB".
Definition DefaultPartSize : string := "500GB".
Definition DefaultChunkSize : string := "250MB".
Definition DefaultS3ChunkSize : string := "64MB".
Definition DefaultBufferSize : string := "32MB".
Definition DefaultConcurrentJobs : Z := 10.

Definition GetSuffix (e : option ExportTarballConfig) : string := default "" (e ≫= et_Suffix).
Definition DeleteWhenExpired (e : option ExportTarballConfig) : bool := default false (e ≫= et_DeleteOnExpire).
Definition GetCompression (e : option ExportTarballConfig) : string := default "gzip" (e ≫= et_Compression).

Definition gcs_GetSizeLimit (g : option GcsExportConfig) : string := default DefaultSizeLimit (g ≫= ge_SizeLimit).
Definition gcs_GetPartSize (g : option GcsExportConfig) : string := default DefaultPartSize (g ≫= ge_PartSize).
Definition gcs_GetChunkSize (g : option GcsExportConfig) : string := default DefaultChunkSize (g ≫= ge_ChunkSize).
Definition gcs_GetBufferSize (g : option GcsExportConfig) : string := default DefaultBufferSize (g ≫= ge_BufferSize).
Definition gcs_GetConcurrentJobs (g : option GcsExportConfig) : Z := default DefaultConcurrentJobs (g ≫= ge_ConcurrentJobs).
Definition s3_GetEndpoint (s : option S3ExportConfig) : string := default "" (s ≫= s3_Endpoint).
Definition s3_ShouldForcePathStyle (s : option S3ExportConfig) : bool := default false (s ≫= s3_ForcePathStyle).
Definition s3_GetSizeLimit (s : option S3ExportConfig) : string := default DefaultSizeLimit (s ≫= s3_SizeLimit).
Definition s3_GetPartSize (s : option S3ExportConfig) : string := default DefaultPartSize (s ≫= s3_PartSize).
Definition s3_GetChunkSize (s : option S3ExportConfig) : string := default DefaultS3ChunkSize (s ≫= s3_ChunkSize).
Definition s3_GetBufferSize (s : option S3ExportConfig) : string := default DefaultBufferSize (s ≫= s3_BufferSize).
Definition s3_GetConcurrentJobs (s : option S3ExportConfig) : Z := default DefaultConcurrentJobs (s ≫= s3_ConcurrentJobs).

(** ** ChainNode *)

Definition DefaultPersistenceSize : string := "50Gi".
Definition DefaultAutoResize : bool := true.
Definition DefaultAutoResizeThreshold : Z := 80.
Definition DefaultAutoResizeIncrement : string := "50Gi".
Definition DefaultAutoResizeMaxSize : string := "2Ti".

Definition persistence (n : ChainNode) : option Persistence := ns_Persistence (cn_Spec n).

(** A duration that is unset or malformed falls back to its default. *)
Definition parsed_duration `{DurationApi} (p : option string) (d : Z) : Z :=
  match p with
  | Some s => match ParseDuration s with Ok t => t | Err _ => d end
  | None => d
  end.
Definition GetStartupTime `{DurationApi} (cfg : option Config) : Z :=
  parsed_duration (cfg ≫= cf_StartupTime) DefaultStartupTime.
Definition GetReconcilePeriod `{DurationApi} (n : ChainNode) : Z :=
  parsed_duration (ns_Config (cn_Spec n) ≫= cf_ReconcilePeriod) DefaultReconcilePeriod.
Definition GetPersistenceInitTimeout `{DurationApi} (n : ChainNode) : Z :=
  parsed_duration (persistence n ≫= pe_InitTimeout) (300 * 10 ^ 9)%Z.

Definition GetNamespacedName (m : ObjectMeta) : string := meta_Namespace m +:+ "/" +:+ meta_Name m.
Definition GetNodeFQDN (n : ChainNode) : string :=
  cn_Name n +:+ "-internal." +:+ cn_Namespace n +:+ ".svc.cluster.local".
Definition GetPersistenceSize (n : ChainNode) : string := default DefaultPersistenceSize (persistence n ≫= pe_Size).
Definition GetPersistenceStorageClass (n : ChainNode) : option string := persistence n ≫= pe_StorageClassName.
Definition GetPersistenceAutoResizeEnabled (n : ChainNode) : bool :=
  default DefaultAutoResize (persistence n ≫= pe_AutoResize).
Definition GetPersistenceAutoResizeThreshold (n : ChainNode) : Z :=
  default DefaultAutoResizeThreshold (persistence n ≫= pe_AutoResizeThreshold).
Definition GetPersistenceAutoResizeIncrement (n : ChainNode) : string :=
  default DefaultAutoResizeIncrement (persistence n ≫= pe_AutoResizeIncrement).
Definition GetPersistenceAutoResizeMaxSize (n : ChainNode) : string :=
  default DefaultAutoResizeMaxSize (persistence n ≫= pe_AutoResizeMaxSize).
Definition GetPersistenceInitCommands (n : ChainNode) : list InitCommand :=
  match persistence n with Some p => pe_AdditionalInitCommands p | None => [] end.
Definition GetPersistenceAdditionalVolumes (n : ChainNode) : list VolumeSpec :=
  match persistence n with Some p => pe_AdditionalVolumes p | None => [] end.
Definition SnapshotsEnabled (n : ChainNode) : bool := is_some (persistence n ≫= pe_Snapshots).

Definition IsReady (n : ChainNode) : bool :=
  match nst_Phase (cn_Status n) with
  | PhaseChainNodeRunning | PhaseChainNodeSyncing => true
  | PhaseChainNodeSnapshotting =>
      match persistence n with None => true | Some p => negb (ShouldStopNode (pe_Snapshots p)) end
  | _ => false
  end.

Definition ShouldInitGenesis (n : ChainNode) : bool := is_some (ns_Validator (cn_Spec n) ≫= vc_Init).
Definition ShouldCreateValidator (n : ChainNode) : bool :=
  is_some (ns_Validator (cn_Spec n) ≫= vc_CreateValidator) && (nst_ValidatorStatus (cn_Status n) == "").
Definition hashicorp (n : ChainNode) : option TmKmsHashicorpProvider :=
  (ns_Validator (cn_Spec n) ≫= vc_TmKMS) ≫= tk_Hashicorp.
(** Called on validators. *)
Definition ShouldUploadVaultKey (n : ChainNode) : bool :=
  ShouldInitGenesis n || match hashicorp n with Some h => hc_UploadGenerated h | None => false end.

(** [Provider.Hashicorp.UploadGenerated = true], written into the spec. *)
Definition uploads_generated (h : TmKmsHashicorpProvider) : TmKmsHashicorpProvider :=
  mkHashicorp (hc_Address h) (hc_Key h) (hc_CertificateSecret h) (hc_TokenSecret h) true (hc_AutoRenewToken h)
    (hc_SkipCertificateVerify h).
Definition tmkms_uploads (t : TmKMS) : TmKMS :=
  mkTmKMS (uploads_generated <$> tk_Hashicorp t) (tk_KeyFormat t) (tk_ValidatorProtocol t) (tk_PersistState t)
    (tk_Resources t).
Definition validator_uploads (v : ValidatorConfig) : ValidatorConfig :=
  mkValidatorConfig (vc_PrivateKeySecret v) (vc_Info v) (vc_Init v) (tmkms_uploads <$> vc_TmKMS v)
    (vc_CreateValidator v) (vc_AccountHDPath v) (vc_AccountPrefix v) (vc_ValPrefix v).

(** The node as the call leaves it, and the answer. *)
Definition RequiresPrivKey (n : ChainNode) : ChainNode * bool :=
  if negb (IsValidator n) then (n, false) else
  let unset := nst_PubKey (cn_Status n) == "" in
  if unset && ShouldInitGenesis n then
    (mkChainNode (cn_meta n) (ns_with_Validator (cn_Spec n) (validator_uploads <$> ns_Validator (cn_Spec n))) (cn_Status n),
     true)
  else (n, unset && ShouldCreateValidator n).

Definition RequiresAccount (n : ChainNode) : bool :=
  if nst_AccountAddress (cn_Status n) != "" then false
  else if negb (IsValidator n) then false
  else ShouldInitGenesis n || ShouldCreateValidator n.

Definition AutoDiscoverPeersEnabled (n : ChainNode) : bool := default true (ns_AutoDiscoverPeers (cn_Spec n)).
Definition GetMoniker (n : ChainNode) : string :=
  default (cn_Name n) ((ns_Validator (cn_Spec n) ≫= vc_Info) ≫= vi_Moniker).
Definition GetAdditionalRunFlags (n : ChainNode) : list string :=
  match ns_Config (cn_Spec n) with Some cfg => cf_RunFlags cfg | None => [] end.
Definition GetLastUpgradeHeight (n : ChainNode) : Z :=
  foldl (λ h u, if ((up_Status u == UpgradeCompleted) || (up_Status u == UpgradeSkipped)) && (h <? up_Height u)%Z
                then up_Height u else h) 0%Z (nst_Upgrades (cn_Status n)).
Definition ShouldIgnoreGroupOnDisruption (n : ChainNode) : bool :=
  default false (ns_IgnoreGroupOnDisruptionChecks (cn_Spec n)).
Definition MustStop (n : ChainNode) : bool * string :=
  match ns_Config (cn_Spec n) ≫= cf_HaltHeight with
  | Some h => (bool_decide (h = nst_LatestHeight (cn_Status n)), "halt height " +:+ FormatInt h)
  | None => (false, "")
  end.

(** *** Its validator *)

Definition DefaultCommissionMaxChangeRate : string := "0.1".
Definition DefaultCommissionMaxRate : string := "0.1".
Definition DefaultCommissionRate : string := "0.1".
Definition DefaultMinimumSelfDelegation : string := "1".

Definition vc_GetAccountHDPath (val : option ValidatorConfig) : string :=
  first_set (val ≫= vc_AccountHDPath) ((val ≫= vc_Init) ≫= gn_AccountHDPath)
    ((val ≫= vc_CreateValidator) ≫= cv_AccountHDPath) DefaultHDPath.
Definition GetAccountSecretName (val : ValidatorConfig) (obj : ObjectMeta) : string :=
  first_set None (vc_Init val ≫= gn_AccountMnemonicSecret) (vc_CreateValidator val ≫= cv_AccountMnemonicSecret)
    (meta_Name obj +:+ "-account").
Definition vc_GetAccountPrefix (val : option ValidatorConfig) : string :=
  first_set (val ≫= vc_AccountPrefix) ((val ≫= vc_Init) ≫= gn_AccountPrefix)
    ((val ≫= vc_CreateValidator) ≫= cv_AccountPrefix) DefaultAccountPrefix.
Definition vc_GetValPrefix (val : option ValidatorConfig) : string :=
  first_set (val ≫= vc_ValPrefix) ((val ≫= vc_Init) ≫= gn_ValPrefix)
    ((val ≫= vc_CreateValidator) ≫= cv_ValPrefix) DefaultValPrefix.
Definition vc_GetInitUnbondingTime (val : ValidatorConfig) : string := default "" (vc_Init val ≫= gn_UnbondingTime).
Definition vc_GetInitVotingPeriod (val : ValidatorConfig) : string := default "" (vc_Init val ≫= gn_VotingPeriod).
Definition vc_GetInitExpeditedVotingPeriod (val : ValidatorConfig) : string :=
  default "" (vc_Init val ≫= gn_ExpeditedVotingPeriod).

(** A setting of the genesis block, or of the create-validator block. *)
Definition init_or_create (val : ValidatorConfig) (f : GenesisInitConfig → option string)
    (g : CreateValidatorConfig → option string) (d : string) : string :=
  first_set None (vc_Init val ≫= f) (vc_CreateValidator val ≫= g) d.
Definition GetCommissionMaxChangeRate (val : ValidatorConfig) : string :=
  init_or_create val gn_CommissionMaxChangeRate cv_CommissionMaxChangeRate DefaultCommissionMaxChangeRate.
Definition GetCommissionMaxRate (val : ValidatorConfig) : string :=
  init_or_create val gn_CommissionMaxRate cv_CommissionMaxRate DefaultCommissionMaxRate.
Definition GetCommissionRate (val : ValidatorConfig) : string :=
  init_or_create val gn_CommissionRate cv_CommissionRate DefaultCommissionRate.
Definition GetMinSelfDelegation (val : ValidatorConfig) : option string :=
  non_empty (Some (init_or_create val gn_MinSelfDelegation cv_MinSelfDelegation DefaultMinimumSelfDelegation)).

(** *** Its services *)

Definition GetIngressSecretName (n : ChainNode) : string :=
  default (cn_Name n +:+ "-tls") (ns_Ingress (cn_Spec n) ≫= in_TlsSecretName).
Definition GetIngressClass (n : ChainNode) : string :=
  default DefaultIngressClass (ns_Ingress (cn_Spec n) ≫= in_IngressClass).
Definition GetGrpcAnnotations (n : ChainNode) : option (gmap string string) :=
  grpc_annotations (ns_Ingress (cn_Spec n) ≫= in_GrpcAnnotations) (GetIngressClass n).
Definition UseInternal (n : ChainNode) : bool :=
  match ns_Ingress (cn_Spec n) ≫= in_UseInternalServices with
  | Some b => b
  | None => default false (ns_Gateway (cn_Spec n) ≫= gw_UseInternalServices)
  end.
Definition GetServiceName (n : ChainNode) : string :=
  if UseInternal n then cn_Name n +:+ "-internal" else cn_Name n.
Definition CosmoGuardName (n : ChainNode) : string := cn_Name n +:+ "-cg".
(** Dereferences the gateway of the node. *)
Definition GetGatewayParentRef (gateway : GatewayConfig) : ParentReference := GetParentRef (gw_Gateway gateway).

(** ** The guard's autoscaler *)

Section guard.
Context `{QuantityApi}.
Hypothesis default_cpu : QuantityIsZero (MustParse DefaultCosmoGuardCPU) = false.
Hypothesis default_memory : QuantityIsZero (MustParse DefaultCosmoGuardMemory) = false.

Lemma requests_set_eq res name q :
  cosmoGuardRequests (set_request res name q) name = negb (QuantityIsZero q).
Proof. unfold cosmoGuardRequests, rl_lookup. simpl. by rewrite lookup_insert_eq. Qed.

Lemma requests_set_ne res name name' q :
  name ≠ name' → cosmoGuardRequests (set_request res name q) name' = cosmoGuardRequests res name'.
Proof.
  intros Hn. unfold cosmoGuardRequests, rl_lookup. simpl. rewrite lookup_insert_ne by done.
  by destruct (rr_Requests res).
Qed.

Lemma injected_positive res name def :
  QuantityIsZero def = false → QuantityIsZero (cosmoGuardInjectedRequest res name def) = false.
Proof.
  intros Hd. unfold cosmoGuardInjectedRequest. destruct (rl_lookup _ _) as [l|]; [|done].
  destruct (QuantityIsZero l) eqn:E; simpl; [done|]. by destruct (_ <? _)%Z.
Qed.

Lemma ensure_requests res needCPU needMemory :
  let r := ensureCosmoGuardRequests res needCPU needMemory in
  (needCPU = true → cosmoGuardRequests r cpu = true) ∧ (needMemory = true → cosmoGuardRequests r memory = true) ∧
  rr_Limits r = rr_Limits res.
Proof.
  simpl. unfold ensureCosmoGuardRequests.
  assert (cpu ≠ memory) as Hne by done.
  destruct needCPU, (cosmoGuardRequests res cpu) eqn:Ec, needMemory, (cosmoGuardRequests res memory) eqn:Em; simpl;
    (split_and!; [intros ?|intros ?|done]); try done;
    rewrite ?requests_set_eq, ?(requests_set_ne _ memory cpu), ?(requests_set_ne _ cpu memory), ?requests_set_eq by done;
    rewrite ?injected_positive by done; done.
Qed.

(** The autoscaler of a guard always has something to measure: at least one
    metric is selected, the user's own targets are kept, and the container
    positively requests every resource a selected metric measures; its limits
    are the configured ones, unless nothing positive was configured. *)
Theorem guard_autoscaler_measures cfg a :
  GetCosmoGuardAutoscaling cfg = Some a →
  let '(r, targetCPU, targetMemory) := GetCosmoGuardAutoscalingTargets cfg in
  is_some targetCPU || is_some targetMemory = true ∧
  (is_some targetCPU = true → cosmoGuardRequests r cpu = true) ∧
  (is_some targetMemory = true → cosmoGuardRequests r memory = true) ∧
  (is_some (gas_TargetCPUUtilizationPercentage a) || is_some (gas_TargetMemoryUtilizationPercentage a) = true →
   targetCPU = gas_TargetCPUUtilizationPercentage a ∧ targetMemory = gas_TargetMemoryUtilizationPercentage a) ∧
  (rr_Limits r = rr_Limits (GetCosmoGuardResources cfg) ∨
   (cosmoGuardRequests (GetCosmoGuardResources cfg) cpu = false ∧
    cosmoGuardRequests (GetCosmoGuardResources cfg) memory = false)).
Proof.
  intros Ha. unfold GetCosmoGuardAutoscalingTargets. rewrite Ha.
  set (res := GetCosmoGuardResources cfg).
  destruct (cosmoGuardRequests res cpu) eqn:Ec, (cosmoGuardRequests res memory) eqn:Em; simpl;
    destruct (gas_TargetCPUUtilizationPercentage a), (gas_TargetMemoryUtilizationPercentage a); cbn [is_some negb andb orb];
    match goal with |- context [ensureCosmoGuardRequests ?r ?c ?m] =>
      destruct (ensure_requests r c m) as (H1 & H2 & H3) end;
    (split_and!; [done|exact H1|exact H2|done|auto]).
Qed.
End guard.

Definition guarded : option Config :=
  Some (mkConfig None [] [] None None None None [] ∅ None
    (Some (mkCosmoGuard true None None None (Some (mkGuardAutoscaling true None 3 (Some 70%Z) None)) None
       (Some (mkResourceRequirements (Some {[ memory := mkQuantity "1000m" ]}) None [])) None))
    None None None None None [] None None None [] None None None None None).

(** A processor target on a container that only limits its memory. *)
Lemma guard_autoscaler_witness :
  (let '(r, c, m) := @GetCosmoGuardAutoscalingTargets reference_quantity guarded in
   (rl_lookup (rr_Requests r) cpu, c, m)) = (Some (mkQuantity "200m"), Some 70%Z, None) ∧
  let '(r, targetCPU, targetMemory) := @GetCosmoGuardAutoscalingTargets reference_quantity guarded in
  is_some targetCPU || is_some targetMemory = true.
Proof.
  split; [vm_compute; reflexivity|].
  pose proof (@guard_autoscaler_measures reference_quantity eq_refl eq_refl guarded
    (mkGuardAutoscaling true None 3 (Some 70%Z) None) eq_refl) as Hg.
  destruct (@GetCosmoGuardAutoscalingTargets reference_quantity guarded) as [[r c] m]. exact (proj1 Hg).
Defined.
