(* ===== verification/Exporter.v ===== *)
(** * Options and names of archive uploads ([pkg/dataexporter/options.go],
    [compress.go], [s3.go])

    Validation of the transfer settings, the estimate of an archive's size, and
    the names under which the objects of an archive are stored.  A [ByteSize] is
    a [uint64]. *)

From S2P Require Import Prelude GoLib ThirdParty Reference Getters.

(** ** Compression *)

Inductive Compression := CompressionNone | CompressionGzip | CompressionZstd | CompressionLz4.
#[export] Instance Compression_eq_dec : EqDecision Compression.
Proof. solve_decision. Defined.
Definition compression_string (c : Compression) : string :=
  match c with
  | CompressionNone => "none"
  | CompressionGzip => "gzip"
  | CompressionZstd => "zstd"
  | CompressionLz4 => "lz4"
  end.
Definition compressions : list Compression := [CompressionNone; CompressionGzip; CompressionZstd; CompressionLz4].

Definition ParseCompression (value : string) : result Compression :=
  let compression := ToLower (TrimSpace value) in
  match find (λ c, compression == compression_string c) compressions with
  | Some c => Ok c
  | None => Err (Errorf "unsupported compression %q: expected one of none, gzip, zstd, lz4" [AStr value])
  end.

(** Of a compression kept as the string it was set to: unknown values are
    treated like gzip. *)
Definition Extension (c : string) : string :=
  if c == "none" then ".tar" else if c == "zstd" then ".tar.zst" else if c == "lz4" then ".tar.lz4" else ".tar.gz".
Definition ContentType (c : string) : string :=
  if c == "none" then "application/x-tar" else if c == "zstd" then "application/zstd"
  else if c == "lz4" then "application/x-lz4" else "application/gzip".

(** ** Upload options *)

Definition u64 (x : Z) : Z := (x mod 2 ^ 64)%Z.
Definition KB : Z := 1024.
Definition MB : Z := (1024 * KB)%Z.
Definition GB : Z := (1024 * MB)%Z.
Definition TB : Z := (1024 * GB)%Z.

Record UploadOptions := mkUploadOptions {
  uo_Compression : string;
  uo_PartSize : Z;
  uo_ChunkSize : Z;
  uo_SizeLimit : Z;
  uo_ReportPeriod : Z;
  uo_ConcurrentJobs : Z;
  uo_BufferSize : Z;
  uo_validationErrs : list error;
}.

Definition DefaultReportPeriod : Z := (10 ^ 9)%Z.

(** The settings a caller passes; [None] where it does not use the option. *)
Record UploadSettings := mkUploadSettings {
  us_Compression : option string;
  us_ChunkSize : option string;
  us_PartSize : option string;
  us_SizeLimit : option string;
  us_BufferSize : option string;
  us_ReportPeriod : option Z;
  us_ConcurrentJobs : option Z;
}.

Section options.
Context `{DatasizeApi}.

(** [datasize.MustParseString] of a constant. *)
Definition must_size (s : string) : Z := match datasize_ParseString s with Ok n => n | Err _ => 0%Z end.

Definition defaultUploadOptions : UploadOptions :=
  mkUploadOptions "gzip" (must_size DefaultPartSize) (must_size DefaultChunkSize) (must_size DefaultSizeLimit)
    DefaultReportPeriod DefaultConcurrentJobs (must_size DefaultBufferSize) [].
Definition defaultS3UploadOptions : UploadOptions :=
  let o := defaultUploadOptions in
  mkUploadOptions (uo_Compression o) (uo_PartSize o) (must_size DefaultS3ChunkSize) (uo_SizeLimit o) (uo_ReportPeriod o)
    (uo_ConcurrentJobs o) (uo_BufferSize o) (uo_validationErrs o).

(** A parsed size, or the current one and an error. *)
Definition sized (what : string) (size : option string) (current : Z) : Z * list error :=
  match size with
  | None => (current, [])
  | Some s =>
      match datasize_ParseString s with
      | Ok n => (n, [])
      | Err e => (current, [Wrapf e what [AStr s]])
      end
  end.

(** The options in the order [With*] lists them. *)
Definition apply_settings (o : UploadOptions) (s : UploadSettings) : UploadOptions :=
  let '(chunk, e1) := sized "invalid chunk size %q: %w" (us_ChunkSize s) (uo_ChunkSize o) in
  let '(part, e2) := sized "invalid part size %q: %w" (us_PartSize s) (uo_PartSize o) in
  let '(limit, e3) := sized "invalid size limit %q: %w" (us_SizeLimit s) (uo_SizeLimit o) in
  let '(buffer, e4) := sized "invalid buffer size %q: %w" (us_BufferSize s) (uo_BufferSize o) in
  mkUploadOptions (default (uo_Compression o) (us_Compression s)) part chunk limit
    (default (uo_ReportPeriod o) (us_ReportPeriod s)) (default (uo_ConcurrentJobs o) (us_ConcurrentJobs s)) buffer
    (uo_validationErrs o ++ e1 ++ e2 ++ e3 ++ e4).

(** [errors.Join]: the first error stands for all of them. *)
Definition errors_Join (l : list error) : result () := match l with e :: _ => Err e | [] => Ok () end.

Definition validateUploadOptions (o : UploadOptions) : result () :=
  errors_Join (uo_validationErrs o);;
  ParseCompression (uo_Compression o);;
  if (uo_ChunkSize o =? 0)%Z then Err (Errorf "chunk size must be greater than zero" [])
  else if (uo_PartSize o =? 0)%Z then Err (Errorf "part size must be greater than zero" [])
  else if (uo_SizeLimit o =? 0)%Z then Err (Errorf "size limit must be greater than zero" [])
  else if (uo_BufferSize o =? 0)%Z then Err (Errorf "buffer size must be greater than zero" [])
  else if (uo_ReportPeriod o <=? 0)%Z then Err (Errorf "report period must be greater than zero" [])
  else if (uo_ConcurrentJobs o <? 1)%Z then Err (Errorf "concurrent jobs must be greater than zero" [])
  else Ok ().

Definition s3MinimumChunkSize : Z := (5 * 1024 * 1024)%Z.
Definition s3MaximumChunkSize : Z := (5 * 1024 * 1024 * 1024)%Z.
Definition s3MaximumObjectSize : Z := (5 * TB)%Z.
Definition s3MaximumParts : Z := 10000.
Definition s3DeleteBatchSize : Z := 1000.
Definition s3MaximumBufferSize : Z := (64 * 1024 * 1024)%Z.

Definition validateS3UploadOptions (o : UploadOptions) : result () :=
  validateUploadOptions o;;
  if (uo_ChunkSize o <? s3MinimumChunkSize)%Z then Err (Errorf "S3 chunk size must be at least 5MiB" [])
  else if (s3MaximumChunkSize <? uo_ChunkSize o)%Z then Err (Errorf "S3 chunk size must not exceed 5GiB" [])
  else if (uo_PartSize o <? uo_ChunkSize o)%Z then
    Err (Errorf "S3 archive part size cannot be smaller than chunk size" [])
  else if (s3MaximumObjectSize <? uo_PartSize o)%Z then Err (Errorf "S3 archive part size must not exceed 5TB" [])
  else if (s3MaximumObjectSize <? uo_SizeLimit o)%Z then Err (Errorf "S3 size limit must not exceed 5TB" [])
  else if (s3MaximumBufferSize <? uo_BufferSize o)%Z then Err (Errorf "S3 buffer size must not exceed 64MiB" [])
  else Ok ().

Definition ValidateS3UploadOptions (s : UploadSettings) : result () :=
  validateS3UploadOptions (apply_settings defaultS3UploadOptions s).
End options.

(** ** The size of an archive *)

Definition archiveEntryHeadroom : Z := (16 * 1024)%Z.
Definition archiveFixedHeadroom : Z := (1024 * 1024)%Z.
Definition MaxUint64 : Z := (2 ^ 64 - 1)%Z.

(** For a directory with that many entries which are no directories. *)
Definition estimateArchiveUpperBound (entries sourceSize : Z) (compression : string) : result Z :=
  let sourceBytes := sourceSize in
  if (u64 (MaxUint64 - archiveFixedHeadroom) <? sourceBytes)%Z then
    Err (Errorf "estimated archive size overflows uint64" [])
  else if (u64 (u64 (MaxUint64 - sourceBytes) - archiveFixedHeadroom) / archiveEntryHeadroom <? entries)%Z then
    Err (Errorf "estimated archive size overflows uint64" [])
  else
    let estimate := u64 (u64 (sourceBytes + u64 (entries * archiveEntryHeadroom)) + archiveFixedHeadroom) in
    if compression != "none" then
      let codecHeadroom := u64 (estimate / 100 + archiveFixedHeadroom) in
      if (u64 (MaxUint64 - codecHeadroom) <? estimate)%Z then
        Err (Errorf "estimated compressed archive size overflows uint64" [])
      else Ok (u64 (estimate + codecHeadroom))
    else Ok estimate.

Definition s3ArchiveRequiresSplit (totalSize : Z) (o : UploadOptions) : result bool :=
  let maximumMultipartSize := u64 (uo_ChunkSize o * s3MaximumParts) in
  let splitArchive := (uo_SizeLimit o <? totalSize)%Z || (maximumMultipartSize <? totalSize)%Z in
  if negb splitArchive || (uo_PartSize o <=? maximumMultipartSize)%Z then Ok splitArchive
  else
    let requiredParts := (u64 (u64 (uo_PartSize o + uo_ChunkSize o) - 1) / uo_ChunkSize o)%Z in
    Err (Errorf "S3 archive part size %s would require %d multipart chunks; increase chunk size or lower part size"
      [AInt requiredParts]).

(** ** The names of an archive's objects *)

Definition isDecimal (value : string) : bool := if value == "" then false else string_forallb is_digit value.

Definition isCompositionTemporarySuffix (value : string) : bool :=
  match split_char "-" value with
  | [a; b] => isDecimal a && isDecimal b
  | _ => false
  end.

Definition archive_extensions : list string := map (Extension ∘ compression_string) compressions.

(** What follows the part prefix: a number, its extension, or a temporary
    object of composing that part. *)
Definition is_part_remainder (remainder : string) : bool :=
  isDecimal remainder ||
  existsb (λ ext,
    (has_suffix remainder ext && isDecimal (TrimSuffix remainder ext)) ||
    match strings_Cut remainder (ext +:+ "-temp-") with
    | Some (partNumber, temporarySuffix) => isDecimal partNumber && isCompositionTemporarySuffix temporarySuffix
    | None => false
    end) archive_extensions.

Definition isArchiveObjectName (baseName objectName : string) : bool :=
  existsb (λ ext, objectName == baseName +:+ ext) archive_extensions ||
  (let partPrefix := baseName +:+ "-part-" in
   has_prefix objectName partPrefix && is_part_remainder (TrimPrefix objectName partPrefix)) ||
  existsb (λ ext,
    let tempPrefix := baseName +:+ ext +:+ "-temp-" in
    has_prefix objectName tempPrefix && isCompositionTemporarySuffix (TrimPrefix objectName tempPrefix))
    archive_extensions.

(** ** The estimate *)

(** Without machine words. *)
Definition archive_bound (entries sourceSize : Z) (compression : string) : Z :=
  let base := (sourceSize + entries * archiveEntryHeadroom + archiveFixedHeadroom)%Z in
  if compression != "none" then (base + (base / 100 + archiveFixedHeadroom))%Z else base.

Lemma u64_small x : (0 ≤ x ≤ 18446744073709551615)%Z → u64 x = x.
Proof. unfold u64. intros Hx. apply Z.mod_small. lia. Qed.

(** The estimated size of an archive is the size of the files, 16 KiB for
    each, a fixed allowance and, when compressing, one percent and the allowance
    again, computed without overflow; it is refused exactly when it does not fit
    64 bits. *)
Theorem estimateArchiveUpperBound_spec entries sourceSize compression :
  (0 ≤ entries ≤ MaxUint64)%Z → (0 ≤ sourceSize ≤ MaxUint64)%Z →
  match estimateArchiveUpperBound entries sourceSize compression with
  | Ok n => n = archive_bound entries sourceSize compression ∧ (n ≤ MaxUint64)%Z
  | Err _ => (MaxUint64 < archive_bound entries sourceSize compression)%Z
  end.
Proof.
  intros He Hs. unfold estimateArchiveUpperBound, archive_bound.
  assert (archiveFixedHeadroom = 1048576)%Z as Hf by done. assert (archiveEntryHeadroom = 16384)%Z as Hn by done.
  assert (MaxUint64 = 18446744073709551615)%Z as HM by done. rewrite Hf, Hn, HM in *. clear Hf Hn HM.
  rewrite (u64_small (18446744073709551615 - 1048576)) by lia.
  set (base := (sourceSize + entries * 16384 + 1048576)%Z).
  assert (0 ≤ base)%Z as Hb by (unfold base; lia). pose proof (Z.div_pos base 100 Hb ltac:(lia)) as Hq.
  pose proof (Z.mul_div_le base 100 ltac:(lia)) as Hq2.
  destruct (_ <? sourceSize)%Z eqn:E1; to_prop; [destruct (bool_decide _); simpl; unfold base in *; lia|].
  rewrite (u64_small (18446744073709551615 - sourceSize)) by lia. rewrite (u64_small (18446744073709551615 - sourceSize - _)) by lia.
  pose proof (Z.div_mod (18446744073709551615 - sourceSize - 1048576) 16384 ltac:(lia)) as Hdiv.
  pose proof (Z.mod_pos_bound (18446744073709551615 - sourceSize - 1048576) 16384 ltac:(lia)) as Hmod.
  destruct (_ <? entries)%Z eqn:E2; to_prop.
  { destruct (bool_decide _); simpl; unfold base in *; lia. }
  rewrite (u64_small (entries * 16384)) by lia. rewrite (u64_small (sourceSize + entries * 16384)) by lia.
  rewrite (u64_small (sourceSize + entries * 16384 + 1048576)) by lia. fold base. assert (base ≤ 18446744073709551615)%Z as HbM by (unfold base; lia).
  destruct (bool_decide _); simpl; [done|].
  rewrite (u64_small (base / 100 + 1048576)) by lia. rewrite (u64_small (18446744073709551615 - (base / 100 + 1048576))) by lia.
  destruct (_ <? base)%Z eqn:E3; to_prop; [lia|]. rewrite u64_small by lia. split; [done|lia].
Qed.
