(* ===== verification/SpecValidation.v ===== *)
(** * Validation of parts of a specification ([api/v1/common_helper.go],
    [chainnode_webhook.go])

    Snapshot exports, the CosmoGuard dashboard, gateway references, subdomain
    prefixes and the exposure of peers: the checks both webhooks share. *)

From S2P Require Import Prelude GoLib ThirdParty Reference ApiTypes CosmosignerSpec Getters Exporter.

(** ** Snapshots *)

Section exports.
Context `{UrlApi} `{DatasizeApi}.

Definition GcsExportConfig_Validate (gcs : option GcsExportConfig) (path : string) : result () :=
  match gcs with
  | None => Ok ()
  | Some g =>
      match ge_CredentialsSecret g, ge_ServiceAccountName g with
      | Some _, Some _ => Err (Errorf "%s: credentialsSecret and serviceAccountName are mutually exclusive" [AStr path])
      | None, None => Err (Errorf "%s: one of credentialsSecret or serviceAccountName must be set" [AStr path])
      | None, Some account =>
          guard_err (account == "") (Errorf "%s.serviceAccountName must not be empty" [AStr path])
      | Some _, None => Ok ()
      end
  end.

(** The settings of the transfer, defaults filled in. *)
Definition s3_settings (s : S3ExportConfig) : UploadSettings :=
  let s := Some s in
  mkUploadSettings None (Some (s3_GetChunkSize s)) (Some (s3_GetPartSize s)) (Some (s3_GetSizeLimit s))
    (Some (s3_GetBufferSize s)) None (Some (s3_GetConcurrentJobs s)).

Definition validate_endpoint (endpoint path : string) : result () :=
  match ParseRequestURI endpoint with
  | Err _ => Err (Errorf "%s.endpoint is invalid" [AStr path])
  | Ok (scheme, host) =>
      guard_err (host == "") (Errorf "%s.endpoint is invalid" [AStr path]);;
      guard_err ((scheme != "http") && (scheme != "https")) (Errorf "%s.endpoint must use http or https" [AStr path])
  end.

Definition S3ExportConfig_Validate (s3 : option S3ExportConfig) (path : string) : result () :=
  match s3 with
  | None => Ok ()
  | Some s =>
      guard_err (s3_Bucket s == "") (Errorf "%s.bucket must not be empty" [AStr path]);;
      guard_err (s3_Region s == "") (Errorf "%s.region must not be empty" [AStr path]);;
      guard_err (is_some (s3_CredentialsSecret s) && is_some (s3_ServiceAccountName s))
        (Errorf "%s: credentialsSecret and serviceAccountName are mutually exclusive" [AStr path]);;
      guard_err (s3_ServiceAccountName s == Some "") (Errorf "%s.serviceAccountName must not be empty" [AStr path]);;
      guard_err (s3_CredentialsSecret s == Some "") (Errorf "%s.credentialsSecret.name must not be empty" [AStr path]);;
      match s3_Endpoint s with Some endpoint => validate_endpoint endpoint path | None => Ok () end;;
      match ValidateS3UploadOptions (s3_settings s) with
      | Ok _ => Ok ()
      | Err e => Err (Wrapf e "%s: %w" [AStr path])
      end
  end.

Definition ExportTarballConfig_Validate (e : option ExportTarballConfig) (path : string) : result () :=
  match e with
  | None => Ok ()
  | Some c =>
      guard_err (is_some (et_GCS c) && is_some (et_S3 c)) (Errorf "%s: gcs and s3 are mutually exclusive" [AStr path]);;
      guard_err (negb (is_some (et_GCS c)) && negb (is_some (et_S3 c)))
        (Errorf "%s: one of gcs or s3 must be set" [AStr path]);;
      match ParseCompression (GetCompression (Some c)) with
      | Ok _ => Ok ()
      | Err e => Err (Wrapf e "%s.compression: %w" [AStr path])
      end;;
      match et_GCS c with
      | Some _ => GcsExportConfig_Validate (et_GCS c) (path +:+ ".gcs")
      | None => S3ExportConfig_Validate (et_S3 c) (path +:+ ".s3")
      end
  end.

Definition validateSnapshotsConfig (config : VolumeSnapshotsConfig) (path : string) : result () :=
  guard_err (is_some (vs_Retention config) && is_some (vs_Retain config))
    (Errorf "%s.retention and %s.retain are mutually exclusive" [AStr path; AStr path]);;
  ExportTarballConfig_Validate (vs_ExportTarball config) (path +:+ ".exportTarball").
End exports.

(** ** The CosmoGuard dashboard *)

Definition cosmoGuardReservedPorts : gmap Z string :=
  list_to_map
    [(26657, "RPC"); (1317, "LCD"); (9090, "gRPC"); (9001, "metrics"); (3320, "cluster bind");
     (3321, "cluster peer API"); (3322, "cluster gossip"); (16657, "RPC listener"); (11317, "LCD listener");
     (19090, "gRPC listener"); (8545, "EVM RPC"); (8546, "EVM RPC WS"); (18545, "EVM RPC listener");
     (18546, "EVM RPC WS listener")]%Z.

Definition valueOrDefault (value : option string) (fallback : string) : string := default fallback value.
Definition optionalStringEqual (a b : option string) : bool :=
  match a, b with
  | Some a, Some b => a == b
  | None, None => true
  | _, _ => false
  end.
Definition sameGateway (g other : GatewayRef) (defaultNamespace : string) : bool :=
  (gr_Name g == gr_Name other) &&
  (valueOrDefault (gr_Namespace g) defaultNamespace == valueOrDefault (gr_Namespace other) defaultNamespace).
Definition sameParent (g other : GatewayRef) (defaultNamespace : string) : bool :=
  sameGateway g other defaultNamespace && optionalStringEqual (gr_SectionName g) (gr_SectionName other).

Section gateways.
Context `{DnsApi}.

Definition validateGatewayHostname (host : string) : result () :=
  guard_err (host == "") (Errorf "must not be empty" []);;
  if has_prefix host "*." then
    let errs := IsWildcardDNS1123Subdomain host in
    guard_err (0 <? length errs) (Errorf "%q is not a valid wildcard hostname: %s" [AStr host; AStr (strings_Join errs "; ")])
  else
    let errs := IsDNS1123Subdomain host in
    guard_err (0 <? length errs) (Errorf "%q is not a valid hostname: %s" [AStr host; AStr (strings_Join errs "; ")]).

(** An optional field of a reference: not empty and valid when set. *)
Definition validate_ref_field (valid : string → list string) (empty invalid : string) (path : string)
    (value : option string) : result () :=
  match value with
  | None => Ok ()
  | Some v =>
      guard_err (v == "") (Errorf empty [AStr path]);;
      guard_err (0 <? length (valid v)) (Errorf invalid [AStr path; AStr v; AStr (strings_Join (valid v) "; ")])
  end.

Definition validateCosmoGuardDashboardGatewayRef (path : string) (ref : GatewayRef) : result () :=
  validate_ref_field IsDNS1123Subdomain "cosmoGuard.dashboard.gateway.%s.name must not be empty"
    "cosmoGuard.dashboard.gateway.%s.name %q is not a valid Gateway name: %s" path (Some (gr_Name ref));;
  validate_ref_field IsDNS1123Label "cosmoGuard.dashboard.gateway.%s.namespace must not be empty"
    "cosmoGuard.dashboard.gateway.%s.namespace %q is not a valid namespace: %s" path (gr_Namespace ref);;
  validate_ref_field IsDNS1123Subdomain "cosmoGuard.dashboard.gateway.%s.sectionName must not be empty"
    "cosmoGuard.dashboard.gateway.%s.sectionName %q is not a valid listener name: %s" path (gr_SectionName ref).

Definition validate_redirect (gateway : GatewayRef) (redirect : option GatewayRef) (namespace : string) : result () :=
  match redirect with
  | None => Ok ()
  | Some r =>
      validateCosmoGuardDashboardGatewayRef "httpRedirect" r;;
      if sameGateway gateway r namespace then
        guard_err (negb (is_some (gr_SectionName gateway)) || negb (is_some (gr_SectionName r)))
          (Errorf "cosmoGuard.dashboard.gateway gateway and httpRedirect must both set sectionName when they reference the same Gateway" []);;
        guard_err (sameParent gateway r namespace)
          (Errorf "cosmoGuard.dashboard.gateway.httpRedirect must select a different Gateway listener" [])
      else Ok ()
  end.

Definition validate_dashboard_gateway (g : CosmoGuardDashboardGateway) (namespace : string) : result () :=
  match validateGatewayHostname (dg_Host g) with
  | Err e => Err (Wrapf e "cosmoGuard.dashboard.gateway.host %w" [])
  | Ok _ =>
      validateCosmoGuardDashboardGatewayRef "gateway" (dg_Gateway g);;
      validate_redirect (dg_Gateway g) (dg_HTTPRedirect g) namespace
  end.

Definition selector_unset (s : SecretKeySelector) : bool := (sel_Name s == "") || (sel_Key s == "").
Definition validate_dashboard_auth (auth : option CosmoGuardDashboardAuth) : result () :=
  match auth with
  | None => Ok ()
  | Some a =>
      guard_err (selector_unset (da_Username a))
        (Errorf "cosmoGuard.dashboard.basicAuth.username must reference both a Secret name and key" []);;
      guard_err (selector_unset (da_Password a))
        (Errorf "cosmoGuard.dashboard.basicAuth.password must reference both a Secret name and key" [])
  end.

Definition ValidateCosmoGuardDashboard (cfg : option Config) (namespace : string) : result () :=
  match GetCosmoGuardDashboard cfg with
  | None => Ok ()
  | Some d =>
      if negb (db_Enable d) then Ok () else
      let port := GetCosmoGuardDashboardPort cfg in
      match cosmoGuardReservedPorts !! port with
      | Some name => Err (Errorf "cosmoGuard.dashboard.port %d collides with the guard's %s port; choose a different port"
                            [AInt port; AStr name])
      | None =>
          validate_dashboard_auth (db_BasicAuth d);;
          guard_err (is_some (db_Ingress d) && is_some (db_Gateway d))
            (Errorf "cosmoGuard.dashboard.ingress and cosmoGuard.dashboard.gateway are mutually exclusive" []);;
          match db_Gateway d with Some g => validate_dashboard_gateway g namespace | None => Ok () end
      end
  end.

(** ** Exposure *)

Definition ValidateP2PGatewayExpose (exp : option ExposeConfig) (path : string) (instances : Z) : result () :=
  match exp with
  | None => Ok ()
  | Some e =>
      match ex_Gateway e with
      | None => Ok ()
      | Some g =>
          if (instances <=? 1)%Z then Ok () else
          guard_err (is_some (gr_SectionName (eg_Ref g)))
            (Errorf "%s.gateway.sectionName cannot be used with %d instances: each instance attaches to a distinct listener at port %d+index, which a single sectionName cannot name"
               [AStr path; AInt instances; AInt (GetGatewayPort e)])
      end
  end.

(** Name and prefix of every enabled endpoint. *)
Definition enabled_endpoints (sub : option SubdomainsConfig) (en : EnabledEndpoints) : list (string * string) :=
  map snd (filter (λ p, p.1 = true)
    [(en_RPC en, ("rpc", GetRPC sub)); (en_GRPC en, ("grpc", GetGRPC sub)); (en_LCD en, ("lcd", GetLCD sub));
     (en_EvmRPC en, ("evmRPC", GetEvmRPC sub)); (en_EvmRpcWs en, ("evmRpcWS", GetEvmRpcWs sub))]).

Fixpoint check_prefixes (path : string) (seen : gmap string string) (l : list (string * string)) : result () :=
  match l with
  | [] => Ok ()
  | (name, prefix) :: l =>
      let errs := IsDNS1123Label prefix in
      guard_err (0 <? length errs)
        (Errorf "%s.subdomains.%s: %q is not a valid DNS label: %s" [AStr path; AStr name; AStr prefix; AStr (strings_Join errs "; ")]);;
      match seen !! prefix with
      | Some prev => Err (Errorf "%s.subdomains: prefix %q is used by both %q and %q endpoints"
                            [AStr path; AStr prefix; AStr prev; AStr name])
      | None => check_prefixes path (<[prefix := name]> seen) l
      end
  end.
Definition ValidateSubdomainPrefixes (path : string) (sub : option SubdomainsConfig) (en : EnabledEndpoints) : result () :=
  check_prefixes path ∅ (enabled_endpoints sub en).
End gateways.
