(* ===== verification/UniqueSecrets.v ===== *)
(** * No shared keys or accounts ([api/v1/chainnodeset_webhook.go],
    [chainnode_webhook.go])

    The checks that reject two validators or signers which would sign with the
    same key, or act for the same account.  A check runs over the resources its
    parts claim, in order, and fails at the first one already claimed. *)

From stdpp Require Import countable.
From S2P Require Import Prelude GoLib ThirdParty Reference ApiTypes CosmosignerSpec SignerResolve Getters.

(** ** Claims *)

(** What a check keeps apart: a resource of a kind. *)
Inductive Resource :=
  | PrivKeySecret (secret : string)
  | TmKmsKey (id : string)
  | ExternalKey (id : string)
  | SentrySoftwareSecret (secret : string)
  | AccountSecret (secret : string).
#[export] Instance Resource_eq_dec : EqDecision Resource.
Proof. solve_decision. Defined.
#[export] Instance Resource_countable : Countable Resource.
Proof.
  refine (inj_countable'
    (λ r, match r with
          | PrivKeySecret s => (0, s) | TmKmsKey s => (1, s) | ExternalKey s => (2, s)
          | SentrySoftwareSecret s => (3, s) | AccountSecret s => (4, s)
          end)
    (λ '(n, s), match n with
          | 0 => PrivKeySecret s | 1 => TmKmsKey s | 2 => ExternalKey s
          | 3 => SentrySoftwareSecret s | _ => AccountSecret s
          end) _).
  by intros [].
Defined.

(** Where the resource is claimed, and the error if [prev] claimed it before. *)
Record Claim := mkClaim {
  cl_resource : Resource;
  cl_path : string;
  cl_conflict : string → error;
}.

(** [if prev, ok := m[x]; ok { return conflict }; m[x] = path], for every claim. *)
Fixpoint register_all (seen : gmap Resource string) (l : list Claim) : result (gmap Resource string) :=
  match l with
  | [] => Ok seen
  | c :: l =>
      match seen !! cl_resource c with
      | Some prev => Err (cl_conflict c prev)
      | None => register_all (<[cl_resource c := cl_path c]> seen) l
      end
  end.

Lemma register_all_Ok seen l :
  is_ok (register_all seen l) = true ↔
  NoDup (map cl_resource l) ∧ ∀ r, r ∈ map cl_resource l → seen !! r = None.
Proof.
  revert seen. induction l as [|c l IH]; intros seen; simpl.
  { split; [|done]. intros _. split; [constructor|]. intros r Hr. by apply elem_of_nil in Hr. }
  rewrite NoDup_cons. destruct (seen !! cl_resource c) eqn:E.
  - split; [done|]. intros [_ Hn]. specialize (Hn (cl_resource c)). rewrite Hn in E; [done|by left].
  - rewrite IH. setoid_rewrite elem_of_cons. split.
    + intros [Hnd Hn]. split_and!; [|done|].
      * intros Hin. specialize (Hn _ Hin). by rewrite lookup_insert_eq in Hn.
      * intros r [->|Hr]; [done|]. specialize (Hn r Hr). by apply lookup_insert_None in Hn as [? _].
    + intros [[Hni Hnd] Hn]. split; [done|]. intros r Hr. apply lookup_insert_None. split; [by apply Hn; right|].
      by intros <-.
Qed.

(** [for idx := 0; idx < n; idx++] *)
Definition indices (n : Z) : list Z := map Z.of_nat (seq 0 (Z.to_nat n)).

Lemma elem_of_indices i n : i ∈ indices n ↔ (0 ≤ i < n)%Z.
Proof.
  unfold indices. rewrite list_elem_of_fmap. setoid_rewrite elem_of_seq. split.
  - intros (k & -> & ?). lia.
  - intros ?. exists (Z.to_nat i). lia.
Qed.

Lemma NoDup_indices n : NoDup (indices n).
Proof. unfold indices. apply (NoDup_fmap_2 Z.of_nat), NoDup_seq. Qed.

(** ** Signing keys *)

Definition validator_path (i : nat) : string := ".spec.nodes[" +:+ FormatInt (Z.of_nat i) +:+ "].validator".

Definition tmkmsUploadsGeneratedPrivKey (v : option NodeSetValidatorConfig) : bool :=
  match v with
  | None => false
  | Some v =>
      is_some (nv_CreateValidator v) &&
      match nv_TmKMS v ≫= tk_Hashicorp with Some h => hc_UploadGenerated h | None => false end
  end.

(** The signer's entry proves that the local key of the group never signed. *)
Definition matches_history (group : string) (signer : ResolvedSigner) (st : CosmosignerStatus) : bool :=
  (st_ServingGroup st == group) && (st_AtEstablishment st == Some (ValidatorTargetedIdentity signer)).
Definition never_local (st : CosmosignerStatus) : bool := st_LocalKeyEverServed st == Some false.

Definition cosmosignerLeavesLocalKeyUnused (nodeSet : ChainNodeSet) (group : string) (v : NodeSetValidatorConfig) : bool :=
  match groupCosmosigner nodeSet group with
  | None => false
  | Some c =>
      if is_some (nv_Init v) || is_some (nv_CreateValidator v) then false
      else if UsesSoftwareBackend (Some c) then false
      else if match be_Vault (cs_Backend c) with Some b => va_UploadGenerated b | None => false end then false
      else if GcpImportsKey (Some c) then false
      else if sst_ChainID (cns_Status nodeSet) == "" then true
      else
        match find (λ s, sg_ValidatorGroup s == group) (ResolveCosmosigners nodeSet) with
        | None => false
        | Some signer =>
            match GetCosmosignerStatus nodeSet (sg_Name signer) with
            | Some current => matches_history group signer current && never_local current
            | None =>
                let history := filter (λ st, matches_history group signer st = true) (statuses nodeSet) in
                forallb never_local history && (0 <? length history)
            end
        end
  end.

(** The validator mounts or uploads a private key held in the cluster. *)
Definition uses_local_key (nodeSet : ChainNodeSet) (group : string) (v : NodeSetValidatorConfig) : bool :=
  (negb (is_some (nv_TmKMS v)) || is_some (nv_Init v) || tmkmsUploadsGeneratedPrivKey (Some v)) &&
  negb (cosmosignerLeavesLocalKeyUnused nodeSet group v).

Definition secret_claim (path secret : string) : Claim :=
  mkClaim (PrivKeySecret secret) path
    (λ prev, Errorf "%s.privateKeySecret %q is already used by %s; each validator must sign with a distinct key"
               [AStr path; AStr secret; AStr prev]).

Definition vault_claim (path id : string) : Claim :=
  mkClaim (ExternalKey id) path
    (λ prev, Errorf "%s references the same Vault signing key as %s; each validator must sign with a distinct key"
               [AStr path; AStr prev]).
Definition gcp_claim (path keyVersion : string) : Claim :=
  mkClaim (ExternalKey ("gcpkms" +:+ nul +:+ keyVersion)) path
    (λ prev, Errorf "%s references the same GCP KMS signing key as %s; each validator must sign with a distinct key"
               [AStr path; AStr prev]).

Definition tmkms_claims (path : string) (v : NodeSetValidatorConfig) : list Claim :=
  match tmKMSSigningKeyIdentity (nv_TmKMS v) with
  | Some id =>
      [mkClaim (TmKmsKey id) path
         (λ prev, Errorf "%s.tmKMS references the same signing key as %s; each validator must sign with a distinct key"
                    [AStr path; AStr prev])]
  | None => []
  end ++
  match tmkmsNormalizedVaultKey (nv_TmKMS v) with Some id => [vault_claim (path +:+ ".tmKMS") id] | None => [] end.

Definition genesis_validators (init : option GenesisInitConfig) : list GenesisValidator :=
  match init with Some i => gn_GenesisValidators i | None => [] end.

Definition genesis_claims (path : string) (init : option GenesisInitConfig) : list Claim :=
  imap (λ j gv,
    let gvPath := path +:+ ".init.genesisValidators[" +:+ FormatInt (Z.of_nat j) +:+ "].privKeySecret" in
    mkClaim (PrivKeySecret (gv_PrivKeySecret gv)) gvPath
      (λ prev, Errorf "%s %q is already used by %s; each validator must sign with a distinct key"
                 [AStr gvPath; AStr (gv_PrivKeySecret gv); AStr prev]))
    (genesis_validators init).

Definition instance_secret (nodeSet : ChainNodeSet) (group : string) (idx : Z) : string :=
  cns_Name nodeSet +:+ "-" +:+ group +:+ "-" +:+ FormatInt idx +:+ "-priv-key".

Definition singleton_claims (nodeSet : ChainNodeSet) : list Claim :=
  match ss_Validator (cns_Spec nodeSet) with
  | None => []
  | Some v =>
      (if uses_local_key nodeSet ReservedValidatorGroupName v
       then [secret_claim ".spec.validator" (default (cns_Name nodeSet +:+ "-validator-priv-key") (nv_PrivateKeySecret v))]
       else []) ++
      tmkms_claims ".spec.validator" v ++ genesis_claims ".spec.validator" (nv_Init v)
  end.

(** The secrets the instances of a group hold their keys in. *)
Definition group_secrets (nodeSet : ChainNodeSet) (g : NodeGroupSpec) (v : NodeSetValidatorConfig) : list string :=
  if negb (uses_local_key nodeSet (ng_Name g) v) then []
  else match nv_PrivateKeySecret v with
       | Some secret => [secret]
       | None =>
           let keyInstances := if is_some (groupCosmosigner nodeSet (ng_Name g)) then 1%Z else GetInstances g in
           map (instance_secret nodeSet (ng_Name g)) (indices keyInstances)
       end.

Definition group_claims (nodeSet : ChainNodeSet) (i : nat) (g : NodeGroupSpec) : list Claim :=
  match ng_Validator g with
  | None => []
  | Some v =>
      if (GetInstances g =? 0)%Z then [] else
      let path := validator_path i in
      map (secret_claim path) (group_secrets nodeSet g v) ++
      tmkms_claims path v ++ genesis_claims path (nv_Init v)
  end.

(** [genesisValidatorSecrets]: the secrets the walk above registered for genesis validators. *)
Definition genesis_secrets (nodeSet : ChainNodeSet) : list string :=
  map gv_PrivKeySecret (genesis_validators (ss_Validator (cns_Spec nodeSet) ≫= nv_Init)) ++
  flat_map (λ g, if (GetInstances g =? 0)%Z then []
                 else map gv_PrivKeySecret (genesis_validators (ng_Validator g ≫= nv_Init)))
    (ss_Nodes (cns_Spec nodeSet)).

Definition signer_vault_claims (path : string) (b : CosmosignerVaultBackend) : list Claim :=
  if (va_Address b == "") || (va_KeyName b == "") then []
  else [vault_claim path (normalizedVaultIdentity (va_Address b) (default "" (va_Namespace b)) (GetVaultMount b)
                            (va_KeyName b) (GetKeyVersion b))].
Definition signer_gcp_claims (path : string) (b : CosmosignerGcpKmsBackend) : list Claim :=
  (if gk_KeyVersion b == "" then [] else [gcp_claim path (gk_KeyVersion b)]) ++
  (if is_some (gk_Import b) then [gcp_claim (path +:+ ".backend.gcpKms.import") (gcpImportIdentity (gk_Import b))] else []).
Definition signer_software_claims (nodeSet : ChainNodeSet) (path : string) (s : ResolvedSigner)
    (b : CosmosignerSoftwareBackend) : list Claim :=
  match sw_PrivateKeySecret b with
  | None => []
  | Some secret =>
      if TargetsValidator s then [] else
      mkClaim (SentrySoftwareSecret secret) path
        (λ prev, Errorf "%s.backend.software.privateKeySecret %q is already used by %s; each signer must sign with a distinct key"
                   [AStr path; AStr secret; AStr prev]) ::
      (if bool_decide (secret ∈ genesis_secrets nodeSet) then []
       else [secret_claim (path +:+ ".backend.software") secret])
  end.

Definition signer_claims (nodeSet : ChainNodeSet) (s : ResolvedSigner) : list Claim :=
  match sg_Spec s with
  | None => []
  | Some c =>
      let path := signerFieldPath nodeSet s in
      match be_Vault (cs_Backend c), be_GcpKMS (cs_Backend c), be_Software (cs_Backend c) with
      | Some b, _, _ => signer_vault_claims path b
      | None, Some b, _ => signer_gcp_claims path b
      | None, None, Some b => signer_software_claims nodeSet path s b
      | None, None, None => []
      end
  end.

Definition signing_claims (nodeSet : ChainNodeSet) : list Claim :=
  singleton_claims nodeSet ++
  concat (imap (group_claims nodeSet) (ss_Nodes (cns_Spec nodeSet))) ++
  flat_map (signer_claims nodeSet) (ResolveCosmosigners nodeSet).

Definition validateUniqueSigningKeys (nodeSet : ChainNodeSet) : result () :=
  register_all ∅ (signing_claims nodeSet);; Ok ().

(** ** Accounts *)

Definition account_claim (path secret : string) : Claim :=
  mkClaim (AccountSecret secret) path
    (λ prev, Errorf "%s.createValidator resolves to account secret %q already used by %s; each create-validator validator must use a distinct account"
               [AStr path; AStr secret; AStr prev]).
Definition genesis_account_claim (path secret : string) : Claim :=
  mkClaim (AccountSecret secret) path
    (λ prev, Errorf "%s resolves to genesis account secret %q already used by %s; each genesis validator must use a distinct account"
               [AStr path; AStr secret; AStr prev]).

Definition singleton_account (nodeSet : ChainNodeSet) : string := cns_Name nodeSet +:+ "-validator-account".
Definition instance_account (nodeSet : ChainNodeSet) (group : string) (idx : Z) : string :=
  cns_Name nodeSet +:+ "-" +:+ group +:+ "-" +:+ FormatInt idx +:+ "-account".

(** [for idx := 1; idx < n; idx++] over the instances after the first, none of which exists
    for a group with a managed signer. *)
Definition other_instances (nodeSet : ChainNodeSet) (g : NodeGroupSpec) : list Z :=
  if is_some (groupCosmosigner nodeSet (ng_Name g)) then []
  else filter (λ idx, idx ≠ 0%Z) (indices (GetInstances g)).

(** The accounts the genesis holds, with the path that claims each. *)
Definition singleton_genesis_accounts (nodeSet : ChainNodeSet) : list (string * string) :=
  match ss_Validator (cns_Spec nodeSet) ≫= nv_Init with
  | None => []
  | Some init =>
      (default (singleton_account nodeSet) (gn_AccountMnemonicSecret init), ".spec.validator (genesis)") ::
      map (λ gv, (gv_AccountMnemonicSecret gv, ".spec.validator.init.genesisValidators (genesis)")) (gn_GenesisValidators init)
  end.
Definition group_genesis_accounts (nodeSet : ChainNodeSet) (i : nat) (g : NodeGroupSpec) : list (string * string) :=
  match ng_Validator g ≫= nv_Init with
  | None => []
  | Some init =>
      if (GetInstances g =? 0)%Z then [] else
      let path := validator_path i +:+ " (genesis)" in
      (default (instance_account nodeSet (ng_Name g) 0) (gn_AccountMnemonicSecret init), path) ::
      map (λ gv, (gv_AccountMnemonicSecret gv, path +:+ ".init.genesisValidators")) (gn_GenesisValidators init) ++
      map (λ idx, (instance_account nodeSet (ng_Name g) idx, path)) (other_instances nodeSet g)
  end.
Definition genesis_accounts (nodeSet : ChainNodeSet) : list (string * string) :=
  singleton_genesis_accounts nodeSet ++ concat (imap (group_genesis_accounts nodeSet) (ss_Nodes (cns_Spec nodeSet))).

(** [accountSecrets[secret] = path]: a later assignment replaces an earlier one. *)
Definition seeded (l : list (string * string)) : gmap Resource string :=
  fold_left (λ m p, <[AccountSecret p.1 := p.2]> m) l ∅.

(** The accounts the create-validator transactions are submitted from. *)
Definition singleton_create_accounts (nodeSet : ChainNodeSet) : list string :=
  match ss_Validator (cns_Spec nodeSet) ≫= nv_CreateValidator with
  | None => []
  | Some c => [default (singleton_account nodeSet) (cv_AccountMnemonicSecret c)]
  end.
Definition group_create_accounts (nodeSet : ChainNodeSet) (g : NodeGroupSpec) : list string :=
  match ng_Validator g ≫= nv_CreateValidator with
  | None => []
  | Some c =>
      if (GetInstances g =? 0)%Z then [] else
      match cv_AccountMnemonicSecret c with
      | Some secret => [secret]
      | None =>
          let accountInstances := if is_some (groupCosmosigner nodeSet (ng_Name g)) then 1%Z else GetInstances g in
          map (instance_account nodeSet (ng_Name g)) (indices accountInstances)
      end
  end.
Definition create_account_claims (nodeSet : ChainNodeSet) : list Claim :=
  map (account_claim ".spec.validator") (singleton_create_accounts nodeSet) ++
  concat (imap (λ i g, map (account_claim (validator_path i)) (group_create_accounts nodeSet g)) (ss_Nodes (cns_Spec nodeSet))).

Definition validateUniqueCreateValidatorAccounts (nodeSet : ChainNodeSet) : result () :=
  register_all (seeded (genesis_accounts nodeSet)) (create_account_claims nodeSet);; Ok ().

(** The accounts of the genesis validators, claimed one by one. *)
Definition registerInit (path defaultAccountSecret : string) (init : GenesisInitConfig) : list Claim :=
  genesis_account_claim path (default defaultAccountSecret (gn_AccountMnemonicSecret init)) ::
  imap (λ j gv, genesis_account_claim (path +:+ ".init.genesisValidators[" +:+ FormatInt (Z.of_nat j) +:+ "].accountMnemonicSecret")
                  (gv_AccountMnemonicSecret gv)) (gn_GenesisValidators init).
Definition group_genesis_claims (nodeSet : ChainNodeSet) (i : nat) (g : NodeGroupSpec) : list Claim :=
  match ng_Validator g ≫= nv_Init with
  | None => []
  | Some init =>
      if (GetInstances g =? 0)%Z then [] else
      let path := validator_path i in
      registerInit path (instance_account nodeSet (ng_Name g) 0) init ++
      map (λ idx, genesis_account_claim (path +:+ " (instance " +:+ FormatInt idx +:+ ")") (instance_account nodeSet (ng_Name g) idx))
        (other_instances nodeSet g)
  end.
Definition genesis_account_claims (nodeSet : ChainNodeSet) : list Claim :=
  match ss_Validator (cns_Spec nodeSet) ≫= nv_Init with
  | Some init => registerInit ".spec.validator" (singleton_account nodeSet) init
  | None => []
  end ++ concat (imap (group_genesis_claims nodeSet) (ss_Nodes (cns_Spec nodeSet))).

Definition validateUniqueGenesisValidatorAccounts (nodeSet : ChainNodeSet) : result () :=
  register_all ∅ (genesis_account_claims nodeSet);; Ok ().

(** ** A standalone node ([chainnode_webhook.go]) *)

Definition node_key_claim (path secret : string) : Claim :=
  mkClaim (PrivKeySecret secret) path
    (λ prev, Errorf "%s %q is already used by %s; each genesis validator must use a distinct private key" [AStr path; AStr secret; AStr prev]).
Definition node_account_claim (path secret : string) : Claim :=
  mkClaim (AccountSecret secret) path
    (λ prev, Errorf "%s %q is already used by %s; each genesis validator must use a distinct account" [AStr path; AStr secret; AStr prev]).

Definition node_genesis_claims (i : nat) (gv : GenesisValidator) : list Claim :=
  let path := ".spec.validator.init.genesisValidators[" +:+ FormatInt (Z.of_nat i) +:+ "]." in
  [node_key_claim (path +:+ "privKeySecret") (gv_PrivKeySecret gv);
   node_account_claim (path +:+ "accountMnemonicSecret") (gv_AccountMnemonicSecret gv)].

Definition validateGenesisValidators (n : ChainNode) : result () :=
  match ns_Validator (cn_Spec n), ns_Validator (cn_Spec n) ≫= vc_Init with
  | Some v, Some init =>
      register_all
        (<[PrivKeySecret (GetPrivKeySecretName (Some v) (cn_meta n)) := ".spec.validator"]>
         (<[AccountSecret (GetAccountSecretName v (cn_meta n)) := ".spec.validator"]> ∅))
        (concat (imap node_genesis_claims (gn_GenesisValidators init)));;
      Ok ()
  | _, _ => Ok ()
  end.

(** ** What acceptance means *)

Lemma register_all_accepts seen l :
  is_ok (register_all seen l;; Ok ()) = is_ok (register_all seen l).
Proof. by destruct (register_all seen l). Qed.

Lemma register_empty_Ok l : is_ok (register_all ∅ l;; Ok ()) = true ↔ NoDup (map cl_resource l).
Proof. rewrite register_all_accepts, register_all_Ok. split; [by intros []|]. intros ?. split; [done|]. intros. apply lookup_empty. Qed.

Lemma concat_imap_const {A B} (f : nat → A → list B) (g : A → list B) l :
  (∀ i x, x ∈ l → f i x = g x) → concat (imap f l) = flat_map g l.
Proof.
  revert f. induction l as [|x l IH]; intros f Hf; simpl; [done|].
  rewrite Hf by by left. f_equal. apply IH. intros. apply Hf. by right.
Qed.

Lemma omap_concat_imap {A B C} (h : B → option C) (f : nat → A → list B) (l : list A) :
  omap h (concat (imap f l)) = concat (imap (λ i x, omap h (f i x)) l).
Proof. revert f. induction l as [|x l IH]; intros f; simpl; [done|]. rewrite omap_app. f_equal. apply IH. Qed.

Lemma map_concat_imap {A B C} (h : B → C) (f : nat → A → list B) (l : list A) :
  map h (concat (imap f l)) = concat (imap (λ i x, map h (f i x)) l).
Proof. revert f. induction l as [|x l IH]; intros f; simpl; [done|]. rewrite map_app. f_equal. apply IH. Qed.

Lemma flat_map_app_perm {A B} (f g : A → list B) l :
  flat_map (λ x, f x ++ g x) l ≡ₚ flat_map f l ++ flat_map g l.
Proof. induction l as [|x l IH]; simpl; [done|]. rewrite IH. solve_Permutation. Qed.

Lemma NoDup_omap_inj {A B} (f : A → option B) (l : list A) :
  (∀ x y b, f x = Some b → f y = Some b → x = y) → NoDup l → NoDup (omap f l).
Proof.
  intros Hinj. induction 1 as [|x l Hx Hl IH]; simpl; [constructor|].
  destruct (f x) as [b|] eqn:E; [|done]. constructor; [|done].
  rewrite list_elem_of_omap. intros (y & Hy & Hb). by rewrite (Hinj _ _ _ E Hb) in Hx.
Qed.

(** The secrets the running validators and the genesis hold a consensus key in, one entry per
    key: the singleton's, those of every running group, and those of the preserved genesis
    validators.  A validator holds its key in the secret of the child it runs as; the instances of
    a group share one key when it has a managed signer or an explicit secret. *)
Definition child_secret (nodeSet : ChainNodeSet) (group : string) (v : NodeSetValidatorConfig) (index : Z) : string :=
  nv_GetPrivKeySecretName (Some v) (meta_of_name (cns_Namespace nodeSet) (GeneratedValidatorNodeName nodeSet group index)).
Definition singleton_secret (nodeSet : ChainNodeSet) : list string :=
  match ss_Validator (cns_Spec nodeSet) with
  | Some v => if uses_local_key nodeSet ReservedValidatorGroupName v
              then [child_secret nodeSet ReservedValidatorGroupName v 0] else []
  | None => []
  end.
Definition running_secrets (nodeSet : ChainNodeSet) (g : NodeGroupSpec) : list string :=
  match ng_Validator g with
  | Some v =>
      if (GetInstances g =? 0)%Z || negb (uses_local_key nodeSet (ng_Name g) v) then [] else
      let shared := is_some (groupCosmosigner nodeSet (ng_Name g)) || is_some (nv_PrivateKeySecret v) in
      map (child_secret nodeSet (ng_Name g) v) (indices (if shared then 1%Z else GetInstances g))
  | None => []
  end.
Definition held_secrets (nodeSet : ChainNodeSet) : list string :=
  singleton_secret nodeSet ++ flat_map (running_secrets nodeSet) (ss_Nodes (cns_Spec nodeSet)) ++ genesis_secrets nodeSet.

Definition as_secret (c : Claim) : option string :=
  match cl_resource c with PrivKeySecret s => Some s | _ => None end.

Lemma omap_imap_Some {A B C} (h : B → option C) (f : nat → A → B) (g : A → C) l :
  (∀ i x, h (f i x) = Some (g x)) → omap h (imap f l) = map g l.
Proof.
  revert f. induction l as [|x l IH]; intros f Hf; [done|].
  cbn [imap omap list_omap map]. rewrite Hf. f_equal. apply IH. intros. apply Hf.
Qed.
Lemma omap_map_Some {A B C} (h : B → option C) (f : A → B) (g : A → C) l :
  (∀ x, h (f x) = Some (g x)) → omap h (map f l) = map g l.
Proof. intros Hf. induction l as [|x l IH]; [done|]. cbn [omap list_omap map]. rewrite Hf. by f_equal. Qed.

Lemma as_secret_genesis path init :
  omap as_secret (genesis_claims path init) = map gv_PrivKeySecret (genesis_validators init).
Proof. by apply omap_imap_Some. Qed.

Lemma as_secret_tmkms path v : omap as_secret (tmkms_claims path v) = [].
Proof. unfold tmkms_claims. by destruct (tmKMSSigningKeyIdentity _), (tmkmsNormalizedVaultKey _). Qed.

Lemma as_secret_singleton nodeSet :
  omap as_secret (singleton_claims nodeSet) =
  singleton_secret nodeSet ++ map gv_PrivKeySecret (genesis_validators (ss_Validator (cns_Spec nodeSet) ≫= nv_Init)).
Proof.
  unfold singleton_claims, singleton_secret. destruct (ss_Validator _) as [v|]; [|done].
  rewrite !omap_app, as_secret_tmkms, as_secret_genesis. destruct (uses_local_key _ _ _); [|done].
  unfold child_secret, nv_GetPrivKeySecretName, GeneratedValidatorNodeName. simpl.
  rewrite string_app_assoc. by destruct (nv_PrivateKeySecret v).
Qed.

(** A group's children are named after it unless it carries the singleton's name. *)
Lemma group_secrets_children nodeSet g v :
  ng_Name g ≠ ReservedValidatorGroupName →
  ng_Validator g = Some v → (GetInstances g =? 0)%Z = false → group_secrets nodeSet g v = running_secrets nodeSet g.
Proof.
  intros Hn Hv H0. unfold group_secrets, running_secrets. rewrite Hv, H0. simpl.
  destruct (uses_local_key _ _ _); [simpl|done].
  assert (Hc : ∀ i, nv_PrivateKeySecret v = None → child_secret nodeSet (ng_Name g) v i = instance_secret nodeSet (ng_Name g) i).
  { intros i Hk. unfold child_secret, nv_GetPrivKeySecretName, instance_secret, GeneratedValidatorNodeName.
    simpl. rewrite Hk. destruct (ng_Name g == ReservedValidatorGroupName) eqn:E; to_prop; [done|].
    unfold meta_of_name. simpl. by rewrite <- !string_app_assoc. }
  destruct (nv_PrivateKeySecret v) as [s|] eqn:Hk; simpl.
  - rewrite orb_true_r. unfold child_secret, nv_GetPrivKeySecretName. simpl. by rewrite Hk.
  - rewrite orb_false_r. apply map_ext. intros i. by rewrite Hc.
Qed.

Lemma as_secret_group nodeSet i g :
  ng_Name g ≠ ReservedValidatorGroupName →
  omap as_secret (group_claims nodeSet i g) =
  running_secrets nodeSet g ++
  (if (GetInstances g =? 0)%Z then [] else map gv_PrivKeySecret (genesis_validators (ng_Validator g ≫= nv_Init))).
Proof.
  intros Hn. unfold group_claims. destruct (ng_Validator g) as [v|] eqn:Hv.
  2: { unfold running_secrets. rewrite Hv. by destruct (_ =? _)%Z. }
  destruct (_ =? _)%Z eqn:H0; [unfold running_secrets; by rewrite Hv, H0|]. cbv zeta.
  rewrite <- (group_secrets_children nodeSet g v) by done.
  rewrite !omap_app, as_secret_tmkms, as_secret_genesis. f_equal.
  rewrite (omap_map_Some _ _ id) by done. by rewrite map_id.
Qed.

(** No group carries the name of the singleton. *)
Definition plain_names (nodeSet : ChainNodeSet) : Prop :=
  ∀ g, g ∈ ss_Nodes (cns_Spec nodeSet) → ng_Name g ≠ ReservedValidatorGroupName.

Lemma held_secrets_claimed nodeSet :
  plain_names nodeSet → ∃ sentries, omap as_secret (signing_claims nodeSet) ≡ₚ held_secrets nodeSet ++ sentries.
Proof.
  intros Hp. exists (omap as_secret (flat_map (signer_claims nodeSet) (ResolveCosmosigners nodeSet))).
  unfold signing_claims, held_secrets, genesis_secrets.
  rewrite !omap_app, as_secret_singleton, omap_concat_imap, app_assoc. f_equiv.
  rewrite (concat_imap_const _ _ _ (λ i g Hg, as_secret_group nodeSet i g (Hp g Hg))), flat_map_app_perm.
  solve_Permutation.
Qed.

Lemma held_secrets_NoDup nodeSet :
  plain_names nodeSet → is_ok (validateUniqueSigningKeys nodeSet) = true → NoDup (held_secrets nodeSet).
Proof.
  intros Hn Hok%register_empty_Ok.
  assert (Hs : NoDup (omap as_secret (signing_claims nodeSet))).
  { replace (omap as_secret (signing_claims nodeSet))
      with (omap (λ r, match r with PrivKeySecret s => Some s | _ => None end) (map cl_resource (signing_claims nodeSet))).
    - apply NoDup_omap_inj; [|done]. intros [] [] b ??; by simplify_eq.
    - generalize (signing_claims nodeSet). intros l. induction l as [|c l IH]; [done|].
      cbn [omap list_omap map]. unfold as_secret at 1. rewrite IH. done. }
  destruct (held_secrets_claimed nodeSet Hn) as [sentries Hp]. rewrite Hp in Hs.
  by apply NoDup_app in Hs as [? _].
Qed.

(** The keys that are not held in a secret of a validator: those a tmKMS signs with, by their place in the provider and
    by the Vault they come from, and those of the backends of the signers, an imported GCP key by its target too. *)
Definition validator_backend_keys (v : NodeSetValidatorConfig) : list Resource :=
  (match tmKMSSigningKeyIdentity (nv_TmKMS v) with Some id => [TmKmsKey id] | None => [] end) ++
  (match tmkmsNormalizedVaultKey (nv_TmKMS v) with Some id => [ExternalKey id] | None => [] end).
Definition vault_key (b : CosmosignerVaultBackend) : string :=
  normalizedVaultIdentity (va_Address b) (default "" (va_Namespace b)) (GetVaultMount b) (va_KeyName b) (GetKeyVersion b).
Definition signer_backend_keys (s : ResolvedSigner) : list Resource :=
  match cs_Backend <$> sg_Spec s with
  | None => []
  | Some b =>
      match be_Vault b, be_GcpKMS b, be_Software b with
      | Some b, _, _ => if (va_Address b == "") || (va_KeyName b == "") then [] else [ExternalKey (vault_key b)]
      | None, Some b, _ =>
          (if gk_KeyVersion b == "" then [] else [ExternalKey ("gcpkms" +:+ nul +:+ gk_KeyVersion b)]) ++
          (if is_some (gk_Import b) then [ExternalKey ("gcpkms" +:+ nul +:+ gcpImportIdentity (gk_Import b))] else [])
      | None, None, Some b =>
          match sw_PrivateKeySecret b with
          | Some secret => if TargetsValidator s then [] else [SentrySoftwareSecret secret]
          | None => []
          end
      | None, None, None => []
      end
  end.
Definition backend_keys (nodeSet : ChainNodeSet) : list Resource :=
  (match ss_Validator (cns_Spec nodeSet) with Some v => validator_backend_keys v | None => [] end) ++
  flat_map (λ g, match ng_Validator g with
                 | Some v => if (GetInstances g =? 0)%Z then [] else validator_backend_keys v
                 | None => []
                 end) (ss_Nodes (cns_Spec nodeSet)) ++
  flat_map signer_backend_keys (ResolveCosmosigners nodeSet).

Definition backend_key (r : Resource) : option Resource :=
  match r with TmKmsKey _ | ExternalKey _ | SentrySoftwareSecret _ => Some r | _ => None end.
Definition as_backend (c : Claim) : option Resource := backend_key (cl_resource c).

Lemma omap_none {A B} (f : A → option B) l : (∀ x, x ∈ l → f x = None) → omap f l = [].
Proof.
  induction l as [|x l IH]; intros Hf; [done|]. cbn [omap list_omap]. rewrite Hf by by left. apply IH. intros y Hy. apply Hf. by right.
Qed.
Lemma as_backend_validator path path' v :
  omap as_backend (tmkms_claims path v ++ genesis_claims path' (nv_Init v)) = validator_backend_keys v.
Proof.
  rewrite omap_app, (omap_none _ (genesis_claims _ _)).
  - unfold tmkms_claims, validator_backend_keys. rewrite app_nil_r. by destruct (tmKMSSigningKeyIdentity _), (tmkmsNormalizedVaultKey _).
  - unfold genesis_claims. by intros c (j & gv & -> & _)%elem_of_lookup_imap_1.
Qed.
Lemma as_backend_signer nodeSet s : omap as_backend (signer_claims nodeSet s) = signer_backend_keys s.
Proof.
  unfold signer_claims, signer_backend_keys. destruct (sg_Spec s) as [c|]; [|done]. simpl.
  destruct (be_Vault _) as [b|]; [unfold signer_vault_claims; by destruct (_ || _)|].
  destruct (be_GcpKMS _) as [b|].
  { unfold signer_gcp_claims. by destruct (bool_decide _), (is_some _). }
  destruct (be_Software _) as [b|]; [|done]. unfold signer_software_claims. destruct (sw_PrivateKeySecret b); [|done].
  destruct (TargetsValidator s); [done|]. by destruct (bool_decide _).
Qed.
Lemma as_backend_group nodeSet i g :
  omap as_backend (group_claims nodeSet i g) =
  match ng_Validator g with Some v => if (GetInstances g =? 0)%Z then [] else validator_backend_keys v | None => [] end.
Proof.
  unfold group_claims. destruct (ng_Validator g) as [v|]; [|done]. destruct (_ =? _)%Z; [done|]. cbv zeta.
  rewrite omap_app, as_backend_validator, (omap_none _ (map _ _)); [done|]. by intros c (x & -> & _)%list_elem_of_fmap.
Qed.
Lemma backend_keys_claimed nodeSet : omap as_backend (signing_claims nodeSet) = backend_keys nodeSet.
Proof.
  unfold signing_claims, backend_keys. rewrite !omap_app, omap_concat_imap. f_equal; [|f_equal].
  - unfold singleton_claims. destruct (ss_Validator _) as [v|]; [|done]. rewrite omap_app, as_backend_validator. by destruct (uses_local_key _ _ _).
  - rewrite (concat_imap_const _ _ _ (λ i g _, as_backend_group nodeSet i g)). by rewrite flat_map_concat_map.
  - induction (ResolveCosmosigners nodeSet) as [|s l IH]; [done|]. cbn [flat_map]. by rewrite omap_app, as_backend_signer, IH.
Qed.
Lemma backend_keys_NoDup nodeSet : is_ok (validateUniqueSigningKeys nodeSet) = true → NoDup (backend_keys nodeSet).
Proof.
  intros Hok%register_empty_Ok. rewrite <- backend_keys_claimed.
  replace (omap as_backend (signing_claims nodeSet)) with (omap backend_key (map cl_resource (signing_claims nodeSet))).
  - apply NoDup_omap_inj; [|done]. intros [] [] b ??; by simplify_eq/=.
  - generalize (signing_claims nodeSet). intros l. induction l as [|c l IH]; [done|]. cbn [omap list_omap map].
    unfold as_backend at 1. by rewrite IH.
Qed.

(** The accounts of the validators of the set. *)
Definition create_accounts (nodeSet : ChainNodeSet) : list string :=
  singleton_create_accounts nodeSet ++ flat_map (group_create_accounts nodeSet) (ss_Nodes (cns_Spec nodeSet)).

Lemma create_claims_resources nodeSet :
  map cl_resource (create_account_claims nodeSet) = map AccountSecret (create_accounts nodeSet).
Proof.
  unfold create_account_claims, create_accounts. rewrite !map_app, map_map, map_concat_imap. f_equal.
  rewrite (concat_imap_const _ (λ g, map AccountSecret (group_create_accounts nodeSet g))).
  - generalize (ss_Nodes (cns_Spec nodeSet)). intros l. induction l as [|g l IH]; [done|].
    simpl. by rewrite map_app, <- IH.
  - intros. by rewrite map_map.
Qed.

Lemma registerInit_resources path d init :
  map cl_resource (registerInit path d init) =
  AccountSecret (default d (gn_AccountMnemonicSecret init)) ::
  map (λ gv, AccountSecret (gv_AccountMnemonicSecret gv)) (gn_GenesisValidators init).
Proof.
  unfold registerInit. cbn [map]. f_equal. generalize (gn_GenesisValidators init). intros l.
  rewrite fmap_imap. generalize 0. intros _.
  induction l as [|gv l IH] using rev_ind; [done|]. by rewrite imap_app, map_app, IH.
Qed.

Lemma genesis_claims_resources nodeSet :
  map cl_resource (genesis_account_claims nodeSet) = map AccountSecret (map fst (genesis_accounts nodeSet)).
Proof.
  unfold genesis_account_claims, genesis_accounts, singleton_genesis_accounts.
  rewrite !map_app, !map_concat_imap. f_equal.
  - destruct (_ ≫= nv_Init) as [init|]; [|done]. rewrite registerInit_resources. simpl. by rewrite !map_map.
  - f_equal. apply imap_ext. intros i g _. unfold group_genesis_claims, group_genesis_accounts. cbv beta zeta.
    destruct (ng_Validator g ≫= nv_Init) as [init|]; [|done]. destruct (_ =? _)%Z; [done|].
    rewrite map_app, registerInit_resources. cbn [map app fst]. by rewrite !map_app, !map_map.
Qed.

Lemma seeded_lookup (m : gmap Resource string) (l : list (string * string)) r :
  fold_left (λ m p, <[AccountSecret p.1 := p.2]> m) l m !! r = None ↔
  m !! r = None ∧ r ∉ map AccountSecret (map fst l).
Proof.
  revert m. induction l as [|p l IH]; intros m; simpl.
  - split; [|by intros []]. intros ?. split; [done|apply not_elem_of_nil].
  - rewrite IH, lookup_insert_None, not_elem_of_cons. naive_solver.
Qed.

Lemma seeded_None l r : seeded l !! r = None ↔ r ∉ map AccountSecret (map fst l).
Proof. unfold seeded. rewrite seeded_lookup. split; [by intros []|]. intros ?. split; [apply lookup_empty|done]. Qed.

Lemma AccountSecret_NoDup l : NoDup (map AccountSecret l) ↔ NoDup l.
Proof. split; [apply NoDup_fmap_1|apply NoDup_fmap_2; by intros ?? [=]]. Qed.

Lemma create_accounts_Ok nodeSet :
  is_ok (validateUniqueCreateValidatorAccounts nodeSet) = true ↔
  NoDup (create_accounts nodeSet) ∧ ∀ a, a ∈ create_accounts nodeSet → a ∉ map fst (genesis_accounts nodeSet).
Proof.
  unfold validateUniqueCreateValidatorAccounts.
  rewrite register_all_accepts, register_all_Ok, create_claims_resources, AccountSecret_NoDup.
  f_equiv. setoid_rewrite seeded_None. split.
  - intros Hn a Ha Hg. apply (Hn (AccountSecret a)); by apply list_elem_of_fmap_2.
  - intros Hn r (a & -> & Ha)%list_elem_of_fmap (b & [= <-] & Hb)%list_elem_of_fmap. by apply (Hn a).
Qed.

Lemma genesis_accounts_Ok nodeSet :
  is_ok (validateUniqueGenesisValidatorAccounts nodeSet) = true ↔ NoDup (map fst (genesis_accounts nodeSet)).
Proof.
  unfold validateUniqueGenesisValidatorAccounts.
  by rewrite register_empty_Ok, genesis_claims_resources, AccountSecret_NoDup.
Qed.

(** The account checks accept exactly the sets whose genesis accounts and create-validator
    accounts are pairwise distinct: no two validators act for one operator, whether both are in
    the genesis, both register later, or one of each. *)
Theorem accounts_distinct nodeSet :
  is_ok (validateUniqueCreateValidatorAccounts nodeSet;; validateUniqueGenesisValidatorAccounts nodeSet) = true ↔
  NoDup (map fst (genesis_accounts nodeSet) ++ create_accounts nodeSet).
Proof.
  transitivity (is_ok (validateUniqueCreateValidatorAccounts nodeSet) = true ∧
                is_ok (validateUniqueGenesisValidatorAccounts nodeSet) = true).
  { destruct (validateUniqueCreateValidatorAccounts nodeSet); simpl; naive_solver. }
  rewrite create_accounts_Ok, genesis_accounts_Ok, NoDup_app. naive_solver.
Qed.

(** C14: when the check of the signing keys accepts a set, no two of its validators hold their
    consensus key in the same secret: the one the singleton's child uses, those of the children of
    every running group (a single one for a group with a managed signer or an explicit secret),
    and the preserved genesis validators' are all distinct. *)
Theorem accepted_keys_distinct nodeSet :
  plain_names nodeSet → is_ok (validateUniqueSigningKeys nodeSet) = true → NoDup (held_secrets nodeSet).
Proof. apply held_secrets_NoDup. Qed.

(** A set with a singleton and a group of two. *)
Definition keys_example (secret : option string) : ChainNodeSet :=
  mkChainNodeSet (mkMeta "set" "ns" "u" ∅ None [] [] None 0 "")
    (newChainNodeSetSpec (newAppSpec "img" None "app" []) (Some newNodeSetValidator)
       [ng_with_Instances (ng_with_Validator (newNodeGroup "vals") (Some (nv_with_PrivateKeySecret newNodeSetValidator secret))) (Some 2%Z)]
       None)
    (newChainNodeSetStatus "" [] 0 []).

Lemma accepted_keys_witness : NoDup (held_secrets (keys_example None)) ∧
  is_ok (validateUniqueSigningKeys (keys_example (Some "set-validator-priv-key"))) = false.
Proof. split; [|vm_compute; reflexivity].
  apply accepted_keys_distinct; [|vm_compute; reflexivity].
  intros g [->|[]%elem_of_nil]%elem_of_cons. discriminate.
Defined.
