(* ===== verification/DerivedServices.v ===== *)
(** * Names a set of nodes derives ([api/v1/chainnodeset_webhook.go])

    The Services and Ingresses the reconcile of a [ChainNodeSet] produces, in
    the order the code registers them, and the admission checks over them: no
    name derived by two owners, no name too long, no child with a reserved
    name.  A collision that was there before is kept. *)

From S2P Require Import Prelude GoLib ThirdParty ApiTypes DerivedNames CosmosignerSpec SignerResolve Getters UniqueSecrets.

(** ** Who derives a name *)

(** The texts the code identifies an owner by, one constructor per format: they are equal exactly
    when the constructors and the names are. *)
Inductive NameOwner :=
  | NodeGroupOwner (name : string)
  | GroupDashboardOwner (name : string)
  | LegacyValidatorOwner
  | CosmoseedOwner
  | IngressRouteOwner (name : string)
  | GatewayRouteOwner (name : string).
#[export] Instance NameOwner_eq_dec : EqDecision NameOwner.
Proof. solve_decision. Defined.

Definition quoted (s : string) : string := let q := String "034" "" in q +:+ s +:+ q.
Definition owner_text (o : NameOwner) : string :=
  match o with
  | NodeGroupOwner n => "node group " +:+ quoted n
  | GroupDashboardOwner n => "node group " +:+ quoted n +:+ " CosmoGuard dashboard"
  | LegacyValidatorOwner => "legacy validator"
  | CosmoseedOwner => "cosmoseed"
  | IngressRouteOwner n => "global ingress route " +:+ quoted n
  | GatewayRouteOwner n => "global gateway route " +:+ quoted n
  end.

(** The calls [fn(name, owner)] of a registration. *)
Notation registration := (list (string * NameOwner)).

(** ** Services *)

Definition internal_pair (base : string) (owner : NameOwner) : registration :=
  [(base, owner); (base +:+ "-internal", owner)].

Definition group_guarded (g : NodeGroupSpec) : bool :=
  (0 <? GetInstances g)%Z && CosmoGuardEnabled (GetServiceConfig g).
Definition child_guard (g : NodeGroupSpec) : bool :=
  CosmoGuardEnabled (GetServiceConfig g) &&
  (is_some (ng_IndividualIngresses g) || is_some (ng_IndividualGatewayRoutes g)).
Definition group_child (base : string) (j : Z) : string := base +:+ "-" +:+ FormatInt j.

Definition group_services (nodeSet : ChainNodeSet) (g : NodeGroupSpec) : registration :=
  let owner := NodeGroupOwner (ng_Name g) in
  let base := group_GetServiceName g (cns_meta nodeSet) in
  internal_pair base owner ++
  (if group_guarded g
   then [(base +:+ "-cg", owner); (base +:+ "-cg-upstream", owner); (base +:+ "-cg-peer", owner)] else []) ++
  flat_map (λ j,
    let child := group_child base j in
    internal_pair child owner ++ [(child +:+ "-p2p", owner)] ++
    (if child_guard g then [(child +:+ "-cg", owner); (child +:+ "-cg-peer", owner)] else []))
    (indices (GetInstances g)).

Definition validator_services (nodeSet : ChainNodeSet) : registration :=
  match ss_Validator (cns_Spec nodeSet) with
  | None => []
  | Some _ => internal_pair (cns_Name nodeSet +:+ "-validator") LegacyValidatorOwner
  end.

Definition cosmoseed_services (nodeSet : ChainNodeSet) : registration :=
  let cs := ss_Cosmoseed (cns_Spec nodeSet) in
  if negb (cm_IsEnabled cs) then [] else
  let base := cns_Name nodeSet +:+ "-seed" in
  [(base, CosmoseedOwner); (base +:+ "-headless", CosmoseedOwner)] ++
  flat_map (λ i,
    (base +:+ "-" +:+ FormatInt i +:+ "-internal", CosmoseedOwner) ::
    (if Expose_Enabled (cs ≫= cm_Expose) then [(base +:+ "-" +:+ FormatInt i, CosmoseedOwner)] else []))
    (indices (cm_GetInstances cs)).

Definition eachDerivedServiceName (nodeSet : ChainNodeSet) : registration :=
  flat_map (group_services nodeSet) (ss_Nodes (cns_Spec nodeSet)) ++
  validator_services nodeSet ++
  cosmoseed_services nodeSet ++
  flat_map (λ ing, internal_pair (gi_GetName ing (cns_meta nodeSet)) (IngressRouteOwner (gin_Name ing)))
    (ss_Ingresses (cns_Spec nodeSet)) ++
  flat_map (λ gw, internal_pair (cns_Name nodeSet +:+ "-global-" +:+ gg_Name gw) (GatewayRouteOwner (gg_Name gw)))
    (ss_GatewayRoutes (cns_Spec nodeSet)).

(** ** Ingresses *)

Definition has_dashboard_ingress (d : option CosmoGuardDashboardConfig) : bool :=
  match d with Some d => db_Enable d && is_some (db_Ingress d) | None => false end.

Definition group_ingresses (nodeSet : ChainNodeSet) (g : NodeGroupSpec) : registration :=
  let cfg := GetServiceConfig g in
  let base := group_GetServiceName g (cns_meta nodeSet) in
  flat_map (λ j, [(group_child base j, NodeGroupOwner (ng_Name g)); (group_child base j +:+ "-grpc", NodeGroupOwner (ng_Name g))])
    (indices (GetInstances g)) ++
  (if (GetInstances g =? 0)%Z || negb (CosmoGuardEnabled cfg) then [] else
   if has_dashboard_ingress (GetCosmoGuardDashboard cfg)
   then [(base +:+ "-cg-dashboard", GroupDashboardOwner (ng_Name g))] else []).

Definition eachDerivedIngressName (nodeSet : ChainNodeSet) : registration :=
  flat_map (group_ingresses nodeSet) (ss_Nodes (cns_Spec nodeSet)) ++
  flat_map (λ ing,
    if gi_CreateServicesOnly ing then [] else
    [(gi_GetName ing (cns_meta nodeSet), IngressRouteOwner (gin_Name ing));
     (gi_GetGrpcName ing (cns_meta nodeSet), IngressRouteOwner (gin_Name ing))])
    (ss_Ingresses (cns_Spec nodeSet)).

(** ** Collisions *)

(** The names a registration derives from two owners: the first owner of a name is remembered, and
    a different one later is a collision. *)
Fixpoint collisions (seen : gmap string NameOwner) (l : registration) : gset string :=
  match l with
  | [] => ∅
  | (name, owner) :: l =>
      match seen !! name with
      | Some prev => if decide (prev = owner) then collisions (<[name := owner]> seen) l
                     else {[ name ]} ∪ collisions seen l
      | None => collisions (<[name := owner]> seen) l
      end
  end.

Definition collidingDerivedNames (each : registration) : list string :=
  sort_Strings (elements (collisions ∅ each)).

Definition LegacyDerivedNameCollisions (nodeSet : ChainNodeSet) : list string * list string :=
  (collidingDerivedNames (eachDerivedServiceName nodeSet), collidingDerivedNames (eachDerivedIngressName nodeSet)).

(** The names the check lets pass: those that collided in the previous spec, or those the status
    recorded when there is no previous spec. *)
Definition grandfathered_names (each : ChainNodeSet → registration) (initialized : bool) (recorded : list string)
    (old : option ChainNodeSet) : gset string :=
  match old with
  | Some old => collisions ∅ (each old)
  | None => if initialized then list_to_set recorded else ∅
  end.

Fixpoint check_collisions (kind : string) (grandfathered : gset string) (owners : gmap string NameOwner)
    (l : registration) : result () :=
  match l with
  | [] => Ok ()
  | (name, owner) :: l =>
      if decide (name ∈ grandfathered) then check_collisions kind grandfathered owners l else
      match owners !! name with
      | Some prev =>
          if decide (prev = owner) then check_collisions kind grandfathered (<[name := owner]> owners) l
          else Err (Errorf (kind +:+ " name %q is derived by both %s and %s: rename one of them")
                      [AStr name; AStr (owner_text prev); AStr (owner_text owner)])
      | None => check_collisions kind grandfathered (<[name := owner]> owners) l
      end
  end.

Definition validateServiceNameCollisions (nodeSet : ChainNodeSet) (old : option ChainNodeSet) : result () :=
  let st := cns_Status nodeSet in
  check_collisions "Service"
    (grandfathered_names eachDerivedServiceName (sst_LegacyServiceNameCollisionsInitialized st)
       (sst_LegacyServiceNameCollisions st) old) ∅
    (eachDerivedServiceName nodeSet).

Definition validateIngressNameCollisions (nodeSet : ChainNodeSet) (old : option ChainNodeSet) : result () :=
  let st := cns_Status nodeSet in
  check_collisions "Ingress"
    (grandfathered_names eachDerivedIngressName (sst_LegacyIngressNameCollisionsInitialized st)
       (sst_LegacyIngressNameCollisions st) old) ∅
    (eachDerivedIngressName nodeSet).

(** ** Lengths *)

Definition too_long (svc : string) : bool := (63 <? String.length svc)%nat.
Definition length_args (svc : string) : list fmt_arg := [AStr svc; AInt (Z.of_nat (String.length svc))].

Definition name_subject : string := "ChainNodeSet or node-group name".

Definition group_name_lengths (nodeSet : ChainNodeSet) (g : NodeGroupSpec) : result () :=
  let base := group_GetServiceName g (cns_meta nodeSet) in
  validateDerivedNameLengths base name_subject (mkNameFeatures false false (group_guarded g));;
  if (0 <? GetInstances g)%Z
  then validateDerivedNameLengths (group_child base (GetInstances g - 1)) name_subject (mkNameFeatures false false false)
  else Ok ().

Definition ingress_name_lengths (nodeSet : ChainNodeSet) (route : GlobalIngressConfig) : result () :=
  let svc := gi_GetName route (cns_meta nodeSet) +:+ "-internal" in
  return_if too_long svc err
    Errorf "the global ingress Service name %q (%d chars) exceeds the 63-character limit: shorten the ChainNodeSet name or the ingress route name %q"
      (length_args svc ++ [AStr (gin_Name route)]);
  Ok ().
Definition gateway_name_lengths (nodeSet : ChainNodeSet) (route : GlobalGatewayConfig) : result () :=
  let svc := cns_Name nodeSet +:+ "-global-" +:+ gg_Name route +:+ "-internal" in
  return_if too_long svc err
    Errorf "the global gateway Service name %q (%d chars) exceeds the 63-character limit: shorten the ChainNodeSet name or the gateway route name %q"
      (length_args svc ++ [AStr (gg_Name route)]);
  Ok ().

Definition cosmoseed_name_lengths (nodeSet : ChainNodeSet) : result () :=
  let cs := ss_Cosmoseed (cns_Spec nodeSet) in
  if negb (cm_IsEnabled cs) then Ok () else
  let headless := cns_Name nodeSet +:+ "-seed-headless" in
  return_if too_long headless err
    Errorf "the cosmoseed headless Service name %q (%d chars) exceeds the 63-character limit: shorten the ChainNodeSet name" (length_args headless);
  if (0 <? cm_GetInstances cs)%Z then
    let svc := cns_Name nodeSet +:+ "-seed-" +:+ FormatInt (cm_GetInstances cs - 1) +:+ "-internal" in
    return_if too_long svc err
      Errorf "the cosmoseed instance Service name %q (%d chars) exceeds the 63-character limit: shorten the ChainNodeSet name or reduce cosmoseed instances"
        (length_args svc);
    Ok ()
  else Ok ().

Definition signer_name_lengths (s : ResolvedSigner) : result () :=
  let svc := sg_Name s +:+ "-privval" in
  return_if too_long svc err
    Errorf "the cosmosigner discovery Service name %q (%d chars) exceeds the 63-character limit: shorten the ChainNodeSet or node-group name" (length_args svc);
  Ok ().

Definition validateGeneratedNameLengths (nodeSet : ChainNodeSet) : result () :=
  for_each (group_name_lengths nodeSet) (ss_Nodes (cns_Spec nodeSet));;
  match ss_Validator (cns_Spec nodeSet) with
  | Some _ => validateDerivedNameLengths (cns_Name nodeSet +:+ "-" +:+ ReservedValidatorGroupName) name_subject (mkNameFeatures false false false)
  | None => Ok ()
  end;;
  for_each (ingress_name_lengths nodeSet) (ss_Ingresses (cns_Spec nodeSet));;
  for_each (gateway_name_lengths nodeSet) (ss_GatewayRoutes (cns_Spec nodeSet));;
  cosmoseed_name_lengths nodeSet;;
  for_each signer_name_lengths (ResolveCosmosigners nodeSet).

(** ** Names of children *)

Definition grandfathered_groups (nodeSet : ChainNodeSet) (old : option ChainNodeSet) : list string :=
  match old with
  | Some old => map (λ g, group_GetServiceName g (cns_meta old)) (filter (λ g, 0 < GetInstances g)%Z (ss_Nodes (cns_Spec old)))
  | None => if sst_LegacyReservedChildGroupNamesInitialized (cns_Status nodeSet)
            then sst_LegacyReservedChildGroupNames (cns_Status nodeSet) else []
  end.

Definition validateGroupChildReservedNames (nodeSet : ChainNodeSet) (old : option ChainNodeSet) : result () :=
  for_each (λ g,
    let base := group_GetServiceName g (cns_meta nodeSet) in
    if (GetInstances g =? 0)%Z || bool_decide (base ∈ grandfathered_groups nodeSet old) then Ok () else
    match ValidateReservedStatefulChildName (base +:+ "-0") true with
    | Ok _ => Ok ()
    | Err _ =>
        Err (Errorf "node group %q derives child ChainNode names like %q that collide with reserved CosmoGuard/cosmosigner StatefulSet child names: rename the group"
               [AStr (ng_Name g); AStr (base +:+ "-0")])
    end) (ss_Nodes (cns_Spec nodeSet)).

(** ** What the checks decide *)

(** An owner the registration gives the name, or the one remembered before it. *)
Definition owned_by (seen : gmap string NameOwner) (l : registration) (name : string) (o : NameOwner) : Prop :=
  seen !! name = Some o ∨ (name, o) ∈ l.
Definition two_owners (seen : gmap string NameOwner) (l : registration) (name : string) : Prop :=
  ∃ o1 o2, o1 ≠ o2 ∧ owned_by seen l name o1 ∧ owned_by seen l name o2.

Lemma owned_by_insert seen l name owner n o :
  seen !! name = None ∨ seen !! name = Some owner →
  owned_by (<[name := owner]> seen) l n o ↔ owned_by seen ((name, owner) :: l) n o.
Proof.
  unfold owned_by. rewrite elem_of_cons. intros Hs. destruct (decide (n = name)) as [->|].
  - rewrite lookup_insert_eq. split; [|destruct Hs as [->| ->]]; naive_solver.
  - rewrite lookup_insert_ne by done. naive_solver.
Qed.

Lemma two_owners_insert seen l name owner n :
  seen !! name = None ∨ seen !! name = Some owner →
  two_owners (<[name := owner]> seen) l n ↔ two_owners seen ((name, owner) :: l) n.
Proof. intros Hs. unfold two_owners. by setoid_rewrite (owned_by_insert _ _ _ _ _ _ Hs). Qed.

Lemma two_owners_skip seen l name owner n :
  n ≠ name → two_owners seen l n ↔ two_owners seen ((name, owner) :: l) n.
Proof. intros Hn. unfold two_owners, owned_by. setoid_rewrite elem_of_cons. naive_solver. Qed.

Lemma two_owners_conflict seen l name owner prev :
  seen !! name = Some prev → prev ≠ owner → two_owners seen ((name, owner) :: l) name.
Proof. intros Hs Hne. exists prev, owner. split; [done|]. split; [by left|right; by left]. Qed.

Lemma two_owners_nil seen n : ¬ two_owners seen [] n.
Proof. intros (o1 & o2 & Hne & H1 & H2). unfold owned_by in *. rewrite elem_of_nil in H1, H2. naive_solver. Qed.

Lemma elem_of_collisions n seen l : n ∈ collisions seen l ↔ two_owners seen l n.
Proof.
  revert seen. induction l as [|[name owner] l IH]; intros seen; cbn [collisions].
  { split; [set_solver|]. by intros ?%two_owners_nil. }
  destruct (seen !! name) as [prev|] eqn:E; [destruct (decide (prev = owner)) as [->|Hne]|].
  - rewrite IH. apply two_owners_insert. by right.
  - rewrite elem_of_union, elem_of_singleton, IH. destruct (decide (n = name)) as [->|Hn].
    + split; [intros _|by left]. by apply (two_owners_conflict _ _ _ _ prev).
    + rewrite <- (two_owners_skip seen l name owner) by done. naive_solver.
  - rewrite IH. apply two_owners_insert. by left.
Qed.

Lemma check_collisions_Ok kind G owners l :
  is_ok (check_collisions kind G owners l) = true ↔ ∀ n, n ∉ G → ¬ two_owners owners l n.
Proof.
  revert owners. induction l as [|[name owner] l IH]; intros owners; cbn [check_collisions].
  { split; [|done]. intros _ n _. apply two_owners_nil. }
  destruct (decide (name ∈ G)) as [Hg|Hg].
  { assert (Hs : ∀ n, n ∉ G → two_owners owners l n ↔ two_owners owners ((name, owner) :: l) n)
      by (intros n Hn; apply two_owners_skip; by intros ->).
    rewrite IH. split; intros Hn n HnG; [rewrite <- Hs by done|rewrite Hs by done]; by apply Hn. }
  destruct (owners !! name) as [prev|] eqn:E; [destruct (decide (prev = owner)) as [->|Hne]|].
  - rewrite IH. setoid_rewrite two_owners_insert; [done|by right].
  - split; [done|]. intros Hn. destruct (Hn name Hg). by apply (two_owners_conflict _ _ _ _ prev).
  - rewrite IH. setoid_rewrite two_owners_insert; [done|by left].
Qed.

(** The registration derives the name for two different owners. *)
Definition contested (l : registration) (name : string) : Prop :=
  ∃ o1 o2, o1 ≠ o2 ∧ (name, o1) ∈ l ∧ (name, o2) ∈ l.

Lemma two_owners_empty l name : two_owners ∅ l name ↔ contested l name.
Proof. unfold two_owners, owned_by, contested. setoid_rewrite lookup_empty. naive_solver. Qed.

Lemma elem_of_collidingDerivedNames n l : n ∈ collidingDerivedNames l ↔ contested l n.
Proof. unfold collidingDerivedNames, sort_Strings. by rewrite sort_slice_perm, elem_of_elements, elem_of_collisions, two_owners_empty. Qed.

(** What lets a contested name pass. *)
Definition excused (each : ChainNodeSet → registration) (initialized : bool) (recorded : list string)
    (old : option ChainNodeSet) (name : string) : Prop :=
  match old with
  | Some old => contested (each old) name
  | None => initialized = true ∧ name ∈ recorded
  end.

Lemma elem_of_grandfathered each initialized recorded old n :
  n ∈ grandfathered_names each initialized recorded old ↔ excused each initialized recorded old n.
Proof.
  destruct old as [old|]; simpl.
  - by rewrite elem_of_collisions, two_owners_empty.
  - destruct initialized; [rewrite elem_of_list_to_set; naive_solver|set_solver].
Qed.

Lemma collision_check_Ok kind each initialized recorded old l :
  is_ok (check_collisions kind (grandfathered_names each initialized recorded old) ∅ l) = true ↔
  ∀ n, contested l n → excused each initialized recorded old n.
Proof.
  rewrite check_collisions_Ok. setoid_rewrite elem_of_grandfathered. setoid_rewrite two_owners_empty.
  split; [|naive_solver]. intros Hn n Hc.
  destruct (decide (n ∈ grandfathered_names each initialized recorded old)) as [Hd|Hd];
    rewrite elem_of_grandfathered in Hd; [done|]. by destruct (Hn n Hd).
Qed.

(** C32: the checks accept a set exactly when every Service name and every Ingress name it derives
    for two owners was already derived for two owners by the previous spec, or, where the previous
    spec is not available, is one the status recorded: a collision is rejected when it is new. *)
Theorem derived_names_decided nodeSet old :
  is_ok (validateServiceNameCollisions nodeSet old;; validateIngressNameCollisions nodeSet old) = true ↔
  (∀ n, contested (eachDerivedServiceName nodeSet) n →
     excused eachDerivedServiceName (sst_LegacyServiceNameCollisionsInitialized (cns_Status nodeSet))
       (sst_LegacyServiceNameCollisions (cns_Status nodeSet)) old n) ∧
  (∀ n, contested (eachDerivedIngressName nodeSet) n →
     excused eachDerivedIngressName (sst_LegacyIngressNameCollisionsInitialized (cns_Status nodeSet))
       (sst_LegacyIngressNameCollisions (cns_Status nodeSet)) old n).
Proof.
  unfold validateServiceNameCollisions, validateIngressNameCollisions.
  rewrite <- (collision_check_Ok "Service"), <- (collision_check_Ok "Ingress").
  destruct (check_collisions "Service" _ _ _); simpl; naive_solver.
Qed.

(** A set that already derives colliding names is never locked out: an update that keeps its
    spec passes, and so does the check without a previous spec once the status holds what
    [LegacyDerivedNameCollisions] computed. *)
Theorem recorded_collisions_pass nodeSet :
  is_ok (validateServiceNameCollisions nodeSet (Some nodeSet)) = true ∧
  is_ok (validateIngressNameCollisions nodeSet (Some nodeSet)) = true ∧
  (sst_LegacyServiceNameCollisionsInitialized (cns_Status nodeSet) = true →
   sst_LegacyIngressNameCollisionsInitialized (cns_Status nodeSet) = true →
   sst_LegacyServiceNameCollisions (cns_Status nodeSet) = (LegacyDerivedNameCollisions nodeSet).1 →
   sst_LegacyIngressNameCollisions (cns_Status nodeSet) = (LegacyDerivedNameCollisions nodeSet).2 →
   is_ok (validateServiceNameCollisions nodeSet None) = true ∧
   is_ok (validateIngressNameCollisions nodeSet None) = true).
Proof.
  split_and!; [by apply collision_check_Ok..|]. intros Hs Hi Es Ei.
  unfold validateServiceNameCollisions, validateIngressNameCollisions. rewrite Hs, Hi, Es, Ei.
  split; apply collision_check_Ok; intros n Hn; (split; [done|]); by apply elem_of_collidingDerivedNames.
Qed.

(** Groups "g" and "g-internal" of the set "set" both derive "set-g-internal". *)
Definition collision_example (recorded : list string) : ChainNodeSet :=
  mkChainNodeSet (mkMeta "set" "ns" "u" ∅ None [] [] None 0 "")
    (newChainNodeSetSpec (newAppSpec "img" None "app" []) None [newNodeGroup "g"; newNodeGroup "g-internal"] None)
    (mkChainNodeSetStatus "" None [] [] "" "" "" [] 0 [] [] false [] false recorded true [] true
      PhaseChainNodeSetNone 0 0 "" []).

Lemma recorded_collisions_witness :
  (LegacyDerivedNameCollisions (collision_example [])).1 = ["set-g-internal"] ∧
  is_ok (validateServiceNameCollisions (collision_example []) None) = false ∧
  is_ok (validateServiceNameCollisions (collision_example ["set-g-internal"]) None) = true.
Proof.
  split; [vm_compute; reflexivity|]. split; [vm_compute; reflexivity|].
  destruct (recorded_collisions_pass (collision_example ["set-g-internal"])) as (_ & _ & H).
  destruct H; [reflexivity..|vm_compute; reflexivity|vm_compute; reflexivity|]. assumption.
Defined.
