(* ===== verification/SignerWebhook.v ===== *)
(** * Admission of managed signers ([api/v1/chainnodeset_webhook.go])

    Which signer blocks a [ChainNodeSet] may carry, which targets they may
    select, and which changes of them an update may make. *)

From S2P Require Import Prelude GoLib ThirdParty Reference ApiTypes CosmosignerSpec SignerResolve Getters UniqueSecrets DerivedServices.

(** [m[k] = v] in a loop, then a lookup: the last element with the key. *)
Definition find_last {A} (f : A → bool) (l : list A) : option A := find f (reverse l).

Definition nodes_path (i : nat) : string := ".spec.nodes[" +:+ FormatInt (Z.of_nat i) +:+ "]".
Definition ingress_path (i : nat) : string := ".spec.ingresses[" +:+ FormatInt (Z.of_nat i) +:+ "]".
Definition route_path (i : nat) : string := ".spec.gatewayRoutes[" +:+ FormatInt (Z.of_nat i) +:+ "]".

(** The public Service of a gateway route. *)
Definition gateway_service (nodeSet : ChainNodeSet) (g : GlobalGatewayConfig) : string :=
  cns_Name nodeSet +:+ "-global-" +:+ gg_Name g.

(** ** Names of signers *)

Definition service_names (source : ChainNodeSet) : list string :=
  map (λ g, group_GetServiceName g (cns_meta source)) (ss_Nodes (cns_Spec source)) ++
  map (λ ing, gi_GetName ing (cns_meta source)) (ss_Ingresses (cns_Spec source)) ++
  map (gateway_service source) (ss_GatewayRoutes (cns_Spec source)).

Definition legacyStandaloneSignerServices (nodeSet : ChainNodeSet) (old : option ChainNodeSet) : list string :=
  match old with
  | Some old => service_names old
  | None => if sst_LegacySignerServiceNamesInitialized (cns_Status nodeSet)
            then sst_LegacySignerServiceNames (cns_Status nodeSet) else []
  end.

Definition checkStandaloneSignerService (legacy : list string) (path serviceName : string) : result () :=
  guard_err ((has_suffix serviceName "-signer" || has_suffix serviceName "-signer-privval") &&
             negb (bool_decide (serviceName ∈ legacy)))
    (Errorf "%s derives Service name %q, which collides with a standalone ChainNode cosmosigner Service: choose a name without a reserved signer suffix"
       [AStr path; AStr serviceName]).

Definition checkStandaloneSignerServices (nodeSet : ChainNodeSet) (old : option ChainNodeSet) : result () :=
  let check := checkStandaloneSignerService (legacyStandaloneSignerServices nodeSet old) in
  for_each_i (λ i g, check (nodes_path i +:+ ".name") (group_GetServiceName g (cns_meta nodeSet))) (ss_Nodes (cns_Spec nodeSet));;
  for_each_i (λ i ing, check (ingress_path i +:+ ".name") (gi_GetName ing (cns_meta nodeSet))) (ss_Ingresses (cns_Spec nodeSet));;
  for_each_i (λ i gw, check (route_path i +:+ ".name") (gateway_service nodeSet gw)) (ss_GatewayRoutes (cns_Spec nodeSet)).

(** The paths of the signers by the name they derive; a name derived twice is rejected. *)
Fixpoint register_signers (nodeSet : ChainNodeSet) (names : gmap string string) (l : list ResolvedSigner) :
    result (gmap string string) :=
  match l with
  | [] => Ok names
  | s :: l =>
      let path := signerFieldPath nodeSet s in
      match names !! sg_Name s with
      | Some prev => Err (Errorf "%s derives signer resource name %q, which %s also derives: rename one of the groups so every signer name is unique"
                            [AStr path; AStr (sg_Name s); AStr prev])
      | None => register_signers nodeSet (<[sg_Name s := path]> names) l
      end
  end.

Definition CutSuffix (s suffix : string) : option string :=
  if has_suffix s suffix then Some (TrimSuffix s suffix) else None.

Definition check_group_name (nodeSet : ChainNodeSet) (signerNames : gmap string string) (i : nat) (g : NodeGroupSpec) : result () :=
  let groupService := cns_Name nodeSet +:+ "-" +:+ ng_Name g in
  guard_err (is_some (signerNames !! groupService))
    (Errorf ".spec.nodes[%d].name %q collides with a cosmosigner's derived resource name %q: rename the group"
       [AInt (Z.of_nat i); AStr (ng_Name g); AStr groupService]);;
  guard_err (is_some (CutSuffix groupService "-privval" ≫= λ trimmed, signerNames !! trimmed))
    (Errorf ".spec.nodes[%d].name %q collides with a cosmosigner's derived discovery Service name %q: rename the group"
       [AInt (Z.of_nat i); AStr (ng_Name g); AStr groupService]).

Definition checkRouteService (signerNames : gmap string string) (path serviceName : string) : result () :=
  match signerNames !! serviceName with
  | Some signerPath => Err (Errorf "%s derives global route Service name %q, which collides with the raft Service from %s"
                              [AStr path; AStr serviceName; AStr signerPath])
  | None =>
      match CutSuffix serviceName "-privval" ≫= λ signerName, signerNames !! signerName with
      | Some signerPath => Err (Errorf "%s derives global route Service name %q, which collides with the discovery Service from %s"
                                  [AStr path; AStr serviceName; AStr signerPath])
      | None => Ok ()
      end
  end.
Definition check_route (signerNames : gmap string string) (path serviceName : string) (useInternal : bool) : result () :=
  checkRouteService signerNames path serviceName;;
  if useInternal then checkRouteService signerNames path (serviceName +:+ "-internal") else Ok ().

Definition check_signer_names (nodeSet : ChainNodeSet) : result () :=
  signerNames ← register_signers nodeSet ∅ (ResolveCosmosigners nodeSet);
  for_each_i (check_group_name nodeSet signerNames) (ss_Nodes (cns_Spec nodeSet));;
  for_each_i (λ i ing, check_route signerNames (ingress_path i) (gi_GetName ing (cns_meta nodeSet)) (gi_UseInternal ing))
    (ss_Ingresses (cns_Spec nodeSet));;
  for_each_i (λ i gw, check_route signerNames (route_path i) (gateway_service nodeSet gw) (gg_UseInternal gw))
    (ss_GatewayRoutes (cns_Spec nodeSet)).

(** ** Targets *)

(** One name of [nodeGroups]: the number of validators it adds. *)
Definition count_target (nodeSet : ChainNodeSet) (i : nat) (name : string) : result Z :=
  let at_ := [AInt (Z.of_nat i); AStr name] in
  if name == ReservedValidatorGroupName then
    match ss_Validator (cns_Spec nodeSet) with
    | None => Err (Errorf ".spec.cosmosigner.nodeGroups[%d] %q targets the legacy .spec.validator, which is not set" at_)
    | Some v =>
        guard_err (is_some (nv_TmKMS v))
          (Errorf ".spec.cosmosigner cannot target the legacy .spec.validator, which uses tmKMS: cosmosigner and tmKMS are mutually exclusive" []);;
        Ok 1%Z
    end
  else
    match find_last (λ g, ng_Name g == name) (ss_Nodes (cns_Spec nodeSet)) with
    | None => Err (Errorf ".spec.cosmosigner.nodeGroups[%d] %q does not match any group in .spec.nodes" at_)
    | Some g =>
        guard_err (GetInstances g =? 0)%Z (Errorf ".spec.cosmosigner cannot target group %q with zero instances" [AStr name]);;
        match ng_Validator g with
        | None => Ok 0%Z
        | Some v =>
            guard_err (is_some (nv_TmKMS v))
              (Errorf ".spec.cosmosigner cannot target group %q which uses tmKMS: cosmosigner and tmKMS are mutually exclusive" [AStr name]);;
            Ok 1%Z
        end
    end.

Fixpoint count_targets (nodeSet : ChainNodeSet) (i : nat) (seen : list string) (names : list string) : result Z :=
  match names with
  | [] => Ok 0%Z
  | name :: names =>
      guard_err (bool_decide (name ∈ seen))
        (Errorf ".spec.cosmosigner.nodeGroups[%d] %q is listed more than once" [AInt (Z.of_nat i); AStr name]);;
      n ← count_target nodeSet i name;
      m ← count_targets nodeSet (S i) (name :: seen) names;
      Ok (n + m)%Z
  end.

Section signer_blocks.
Context `{QuantityApi}.

Definition validateTopLevelCosmosigner (nodeSet : ChainNodeSet) (c : Cosmosigner) : result () :=
  Validate (Some c) ".spec.cosmosigner" true;;
  validatorTargets ←
    match cs_NodeGroups c with
    | [] =>
        match ss_Validator (cns_Spec nodeSet) with
        | None => Err (Errorf ".spec.cosmosigner.nodeGroups is required when .spec.validator is not set" [])
        | Some v =>
            guard_err (is_some (nv_TmKMS v)) (Errorf ".spec.cosmosigner and .spec.validator.tmKMS are mutually exclusive" []);;
            Ok 1%Z
        end
    | names => count_targets nodeSet 0 [] names
    end;
  guard_err (1 <? validatorTargets)%Z
    (Errorf ".spec.cosmosigner cannot target more than one validator: a signer holds a single consensus identity" []).

Definition validateGroupCosmosigner (i : nat) (g : NodeGroupSpec) : result () :=
  let path := nodes_path i +:+ ".cosmosigner" in
  Validate (ng_Cosmosigner g) path false;;
  guard_err (GetInstances g =? 0)%Z (Errorf "%s cannot be set on group %q with zero instances" [AStr path; AStr (ng_Name g)]);;
  guard_err match ng_Validator g with Some v => is_some (nv_TmKMS v) | None => false end
    (Errorf "%s and .spec.nodes[%d].validator.tmKMS are mutually exclusive" [AStr path; AInt (Z.of_nat i)]).
End signer_blocks.

(** ** Backend and target *)

Definition set_and_not_empty (p : option string) : bool := default "" p != "".
Definition software_secret (c : option Cosmosigner) : option string := c ≫= λ c, be_Software (cs_Backend c) ≫= sw_PrivateKeySecret.
Definition vault_uploads (c : option Cosmosigner) : bool :=
  match c ≫= λ c, be_Vault (cs_Backend c) with Some b => va_UploadGenerated b | None => false end.
Definition vault_version (c : option Cosmosigner) : Z :=
  match c ≫= λ c, be_Vault (cs_Backend c) with Some b => GetKeyVersion b | None => 1%Z end.

Definition validate_sentry_signer (path : string) (c : option Cosmosigner) : result () :=
  guard_err (UsesSoftwareBackend c && negb (set_and_not_empty (software_secret c)))
    (Errorf "%s.backend.software.privateKeySecret is required when no validator is targeted" [AStr path]);;
  guard_err (UsesVaultBackend c && vault_uploads c)
    (Errorf "%s.backend.vault.uploadGenerated requires targeting a validator whose generated key can be imported" [AStr path]);;
  guard_err (GcpImportsKey c)
    (Errorf "%s.backend.gcpKms.import requires targeting a validator whose generated key can be imported" [AStr path]).

Definition registrationRecorded (group : string) (candidate : ChainNodeSet) : bool :=
  existsb (λ v, (vst_Group v == group) && (vst_Address v != "") && (vst_PubKey v != "") && (vst_Status v != ""))
    (sst_Validators (cns_Status candidate)).

Definition migrationWaiver (nodeSet : ChainNodeSet) (old : option ChainNodeSet) (s : ResolvedSigner) : bool :=
  match old with
  | Some old => (sst_ChainID (cns_Status old) != "") && registrationRecorded (sg_ValidatorGroup s) old
  | None =>
      (sst_ChainID (cns_Status nodeSet) != "") && registrationRecorded (sg_ValidatorGroup s) nodeSet &&
      match GetCosmosignerStatus nodeSet (sg_Name s) with
      | Some st => (st_SigningDigest st != "") && (st_SigningDigest st == Digest s)
      | None => false
      end
  end.


(** The validator of a target group is dereferenced. *)
Definition validate_target_signer (nodeSet : ChainNodeSet) (old : option ChainNodeSet) (s : ResolvedSigner)
    (v : NodeSetValidatorConfig) : result () :=
  let c := sg_Spec s in
  let path := signerFieldPath nodeSet s in
  let init := is_some (nv_Init v) in
  let registers := init || is_some (nv_CreateValidator v) in
  let hasExplicitKey := set_and_not_empty (nv_PrivateKeySecret v) in
  guard_err (UsesVaultBackend c && VaultUploadsGenerated c init && negb (vault_version c =? 1)%Z)
    (Errorf "%s.backend.vault.uploadGenerated requires keyVersion 1 because Vault imports create the initial key version" [AStr path]);;
  guard_err (UsesSoftwareBackend c && set_and_not_empty (software_secret c))
    (Errorf "%s.backend.software.privateKeySecret cannot be set when targeting a validator: the validator's own key is used" [AStr path]);;
  guard_err (registers && negb (migrationWaiver nodeSet old s) && negb (UsesSoftwareBackend c || ImportsGeneratedKey c init))
    (Errorf "%s targeting a validator that initializes genesis or uses createValidator requires the software backend, vault.uploadGenerated or gcpKms.import so the registered consensus key matches the signer" [AStr path]);;
  guard_err (UsesVaultBackend c && vault_uploads c && negb registers && negb hasExplicitKey)
    (Errorf "%s.backend.vault.uploadGenerated requires the targeted validator to initialize genesis, use createValidator, or set an explicit privateKeySecret to import" [AStr path]);;
  guard_err (GcpImportsKey c && negb registers && negb hasExplicitKey)
    (Errorf "%s.backend.gcpKms.import requires the targeted validator to initialize genesis, use createValidator, or set an explicit privateKeySecret to import" [AStr path]);;
  guard_err (UsesSoftwareBackend c && negb registers && negb hasExplicitKey)
    (Errorf "%s software backend targeting a validator that consumes an external genesis requires the validator to set privateKeySecret: its consensus key is not generated" [AStr path]).

Definition validateResolvedSigner (nodeSet : ChainNodeSet) (old : option ChainNodeSet) (s : ResolvedSigner) : result () :=
  if sg_ValidatorGroup s == "" then validate_sentry_signer (signerFieldPath nodeSet s) (sg_Spec s) else
  match validatorConfigForGroup nodeSet (sg_ValidatorGroup s) with
  | None => Err nil_dereference
  | Some v => validate_target_signer nodeSet old s v
  end.

Definition top_level_targets (nodeSet : ChainNodeSet) : list string :=
  match ss_Cosmosigner (cns_Spec nodeSet) with
  | None => []
  | Some c =>
      match cs_NodeGroups c with
      | [] => if is_some (ss_Validator (cns_Spec nodeSet)) then [ReservedValidatorGroupName] else []
      | names => names
      end
  end.

Definition validateCosmosignerTargetUniqueness (nodeSet : ChainNodeSet) : result () :=
  for_each_i (λ i g,
    guard_err (is_some (ng_Cosmosigner g) && bool_decide (ng_Name g ∈ top_level_targets nodeSet))
      (Errorf ".spec.nodes[%d].cosmosigner conflicts with .spec.cosmosigner, which already targets group %q; a group can be signed by only one signer"
         [AInt (Z.of_nat i); AStr (ng_Name g)])) (ss_Nodes (cns_Spec nodeSet)).

Definition anySigner (nodeSet : ChainNodeSet) : bool :=
  is_some (ss_Cosmosigner (cns_Spec nodeSet)) || existsb (λ g, is_some (ng_Cosmosigner g)) (ss_Nodes (cns_Spec nodeSet)).

Definition validateCosmosigner `{QuantityApi} (nodeSet : ChainNodeSet) (old : option ChainNodeSet) : result () :=
  if negb (anySigner nodeSet) then checkStandaloneSignerServices nodeSet old else
  check_signer_names nodeSet;;
  checkStandaloneSignerServices nodeSet old;;
  match ss_Cosmosigner (cns_Spec nodeSet) with Some c => validateTopLevelCosmosigner nodeSet c | None => Ok () end;;
  for_each_i (λ i g, if is_some (ng_Cosmosigner g) then validateGroupCosmosigner i g else Ok ()) (ss_Nodes (cns_Spec nodeSet));;
  for_each (validateResolvedSigner nodeSet old) (ResolveCosmosigners nodeSet);;
  validateCosmosignerTargetUniqueness nodeSet.

(** ** Updates *)

Section updates.
Context `{QuantityApi}.

(** The recorded entry holds what a migration needs. *)
Definition migration_ready (st : option CosmosignerStatus) : bool :=
  match st with Some st => (st_AppliedDigest st != "") && (st_PublicKey st != "") | None => false end.

(** The recorded storage of an earlier incarnation, when it was recorded, is the one asked for. *)
Definition storage_kept (st : CosmosignerStatus) (c : option Cosmosigner) : bool :=
  (st_StateStorageSize st == "") ||
  CosmosignerStateStorageEqual (st_StateStorageSize st) (st_StateStorageClassName st) (GetStateStorageSize c)
    (c ≫= cs_StorageClassName).
Definition replicas_kept (st : CosmosignerStatus) (c : option Cosmosigner) : bool :=
  match st_Replicas st with Some r => (r =? GetReplicas c)%Z | None => true end.
Definition recorded_replicas (st : CosmosignerStatus) : Z := default 0%Z (st_Replicas st).

(** A signer of both revisions. *)
Definition check_kept_signer (old : ChainNodeSet) (path : string) (os ns : ResolvedSigner) : result () :=
  guard_err (negb (GetReplicas (sg_Spec os) =? GetReplicas (sg_Spec ns))%Z)
    (Errorf "%s.replicas is immutable after creation: changing it does not migrate the raft membership in the signer's state and can break quorum" [AStr path]);;
  validateCosmosignerStateStorageImmutable path (sg_Spec os) (sg_Spec ns);;
  guard_err ((sst_ChainID (cns_Status old) != "") && (Digest os != Digest ns) &&
             negb (migration_ready (GetCosmosignerStatus old (sg_Name os))))
    (Errorf "%s cannot be migrated until the controller records its applied public key; restore the previous configuration and wait for one reconcile" [AStr path]).

(** A signer added while an earlier incarnation is still recorded. *)
Definition check_readded_signer (path : string) (st : CosmosignerStatus) (ns : ResolvedSigner) : result () :=
  guard_err (negb (replicas_kept st (sg_Spec ns)))
    (Errorf "%s.replicas must stay %d until the previous signer's teardown completes: its raft state PVCs may still exist and their membership does not match"
       [AStr path; AInt (recorded_replicas st)]);;
  guard_err (negb (storage_kept st (sg_Spec ns)))
    (Errorf "%s.stateStorageSize/.storageClassName must stay unchanged until the previous signer's teardown completes: its raft state PVCs may still exist at the old size/class" [AStr path]).

Definition signer_named (name : string) (l : list ResolvedSigner) : option ResolvedSigner :=
  find_last (λ s, sg_Name s == name) l.

Definition check_new_signer (nodeSet old : ChainNodeSet) (ns : ResolvedSigner) : result () :=
  let path := signerFieldPath nodeSet ns in
  match signer_named (sg_Name ns) (ResolveCosmosigners old) with
  | Some os => check_kept_signer old path os ns
  | None =>
      match GetCosmosignerStatus old (sg_Name ns) with
      | Some st => check_readded_signer path st ns
      | None => Ok ()
      end
  end.

(** A signer that holds the key of a genesis validator keeps an equivalent. *)
Definition genesis_marker (old : ChainNodeSet) (os : ResolvedSigner) : option string :=
  match GetCosmosignerStatus old (sg_Name os) ≫= λ st, non_empty (st_AtEstablishment st) with
  | Some marker => if GenesisSentryEstablishmentIdentity old os == marker then Some marker else None
  | None => None
  end.
Definition check_genesis_sentry (nodeSet old : ChainNodeSet) (os : ResolvedSigner) : result () :=
  match genesis_marker old os with
  | None => Ok ()
  | Some marker =>
      guard_err (negb (existsb (λ ns, GenesisSentryEstablishmentIdentity nodeSet ns == marker) (ResolveCosmosigners nodeSet)))
        (Errorf "cosmosigner %q protects an immutable genesis validator key and cannot be removed or changed unless an equivalent signer keeps serving the same key"
           [AStr (sg_Name os)])
  end.

Definition signed (st : option CosmosignerStatus) : bool :=
  match st with Some st => (st_ServingIdentity st != "") || (st_SigningDigest st != "") | None => false end.

(** A signer of the previous revision that the new one does not name. *)
Definition check_removed_signer (nodeSet old : ChainNodeSet) (addedSigner : bool) (s : ResolvedSigner) : result () :=
  let desired := ResolveCosmosigners nodeSet in
  if is_some (signer_named (sg_Name s) desired) then Ok () else
  let st := GetCosmosignerStatus old (sg_Name s) in
  let replacement := DesiredReplacementSigner nodeSet desired st in
  guard_err (signed st && negb (is_some replacement))
    (Errorf "cosmosigner %q cannot be removed without a replacement managed signer for validator group %q: no supported handoff can transfer its slash-protection state to an independent local/tmKMS path"
       [AStr (sg_Name s); AStr match st with Some st => st_ServingGroup st | None => "" end]);;
  if negb addedSigner then Ok () else
  guard_err (negb (migration_ready st))
    (Errorf "cosmosigner %q cannot be moved to a new manifest placement until the controller records its applied public key; restore the previous configuration and wait for one reconcile"
       [AStr (sg_Name s)]);;
  match st, replacement with
  | Some st, Some r =>
      let path := signerFieldPath nodeSet r in
      guard_err (negb (replicas_kept st (sg_Spec r)))
        (Errorf "%s.replicas must stay %d during a manifest placement move: changing it does not migrate the existing raft membership"
           [AStr path; AInt (recorded_replicas st)]);;
      guard_err (negb (storage_kept st (sg_Spec r)))
        (Errorf "%s.stateStorageSize/.storageClassName must stay unchanged during a manifest placement move: the replacement reuses the existing raft-state PVCs" [AStr path])
  | _, _ => Ok ()
  end.

(** A group of several validators keeps being signed by one signer, or by none. *)
Definition check_group_targeting (nodeSet old : ChainNodeSet) (i : nat) (g : NodeGroupSpec) : result () :=
  match ng_Validator g, find_last (λ og, ng_Name og == ng_Name g) (ss_Nodes (cns_Spec old)) with
  | Some _, Some og =>
      if negb (is_some (ng_Validator og)) || ((GetInstances og <=? 1)%Z && (GetInstances g <=? 1)%Z) then Ok () else
      guard_err (negb (Bool.eqb (is_some (groupCosmosigner old (ng_Name g))) (is_some (groupCosmosigner nodeSet (ng_Name g)))))
        (Errorf ".spec.nodes[%d]: a cosmosigner cannot be added to or removed from established multi-instance validator group %q: it would change the group between multiple on-chain validators and one signing identity"
           [AInt (Z.of_nat i); AStr (ng_Name g)])
  | _, _ => Ok ()
  end.

Definition added_signer (nodeSet old : ChainNodeSet) : bool :=
  existsb (λ s, negb (is_some (signer_named (sg_Name s) (ResolveCosmosigners old)))) (ResolveCosmosigners nodeSet).

Definition validateCosmosignerUpdate (nodeSet : ChainNodeSet) (old : option ChainNodeSet) : result () :=
  match old with
  | None => Ok ()
  | Some old =>
      for_each (check_new_signer nodeSet old) (ResolveCosmosigners nodeSet);;
      if sst_ChainID (cns_Status old) == "" then Ok () else
      for_each (check_genesis_sentry nodeSet old) (ResolveCosmosigners old);;
      for_each (check_removed_signer nodeSet old (added_signer nodeSet old)) (ResolveCosmosigners old);;
      for_each_i (check_group_targeting nodeSet old) (ss_Nodes (cns_Spec nodeSet))
  end.
End updates.

(** ** What acceptance means *)

Lemma NoDup_map_inj_on {A B} (f : A → B) (l : list A) x y :
  NoDup (map f l) → x ∈ l → y ∈ l → f x = f y → x = y.
Proof.
  induction l as [|z l IH]; simpl; [intros _ Hx; by apply elem_of_nil in Hx|].
  rewrite NoDup_cons, !elem_of_cons. intros [Hz Hl] Hx Hy E.
  assert (Hno : ∀ w, w ∈ l → f w ≠ f z) by (intros w Hw Ew; apply Hz; rewrite <- Ew; by apply list_elem_of_fmap_2).
  destruct Hx as [->|Hx], Hy as [->|Hy]; auto; exfalso; eapply Hno; eauto.
Qed.

Lemma register_signers_NoDup nodeSet names l m :
  register_signers nodeSet names l = Ok m →
  NoDup (map sg_Name l) ∧ ∀ s, s ∈ l → names !! sg_Name s = None.
Proof.
  revert names. induction l as [|s l IH]; intros names; simpl.
  { intros _. split; [constructor|]. intros s Hs. by apply elem_of_nil in Hs. }
  destruct (names !! sg_Name s) eqn:E; [done|]. intros [Hnd Hn]%IH. setoid_rewrite elem_of_cons. split.
  - constructor; [|done]. intros (s' & Hs' & Hin)%list_elem_of_fmap. specialize (Hn s' Hin).
    rewrite <- Hs', lookup_insert_eq in Hn. done.
  - intros s' [->|Hs']; [done|]. specialize (Hn s' Hs'). by apply lookup_insert_None in Hn as [? _].
Qed.

Section accepted.
Context `{QuantityApi} (nodeSet : ChainNodeSet) (old : option ChainNodeSet).
Hypothesis accepted : is_ok (validateCosmosigner nodeSet old) = true.

Lemma no_signers : anySigner nodeSet = false → ResolveCosmosigners nodeSet = [].
Proof using Type.
  unfold anySigner, ResolveCosmosigners. intros [Ht Hg]%orb_false_iff.
  destruct (ss_Cosmosigner (cns_Spec nodeSet)); [done|]. simpl. clear Ht.
  set (f := λ (i : nat) (g : NodeGroupSpec), match ng_Cosmosigner g with Some c => resolveGroupSigners nodeSet i g c | None => [] end).
  assert (Hf : ∀ i g, ng_Cosmosigner g = None → f i g = []) by (intros i g Hg'; unfold f; by rewrite Hg').
  clearbody f. revert f Hf. induction (ss_Nodes (cns_Spec nodeSet)) as [|g l IH]; intros f Hf; simpl in *; [done|].
  apply orb_false_iff in Hg as [Hg Hl]. rewrite (Hf 0 g) by (by destruct (ng_Cosmosigner g)).
  apply (IH Hl). intros. by apply Hf.
Qed.

Lemma accepted_parts :
  NoDup (map sg_Name (ResolveCosmosigners nodeSet)) ∧
  (∀ s, s ∈ ResolveCosmosigners nodeSet → is_ok (validateResolvedSigner nodeSet old s) = true) ∧
  (∀ g, g ∈ ss_Nodes (cns_Spec nodeSet) → is_some (ng_Cosmosigner g) = true → ng_Name g ∉ top_level_targets nodeSet).
Proof using accepted.
  unfold validateCosmosigner in accepted. destruct (anySigner nodeSet) eqn:E; simpl in accepted.
  - autorewrite with go in accepted. to_prop. rename H0 into Hn.
    unfold check_signer_names in Hn. apply is_ok_bind in Hn as (names & Hreg & _).
    split_and!; [by eapply register_signers_NoDup|by apply is_ok_for_each|].
    match goal with K : is_ok (validateCosmosignerTargetUniqueness _) = true |- _ => rename K into Hu end.
    unfold validateCosmosignerTargetUniqueness in Hu. rewrite is_ok_for_each_from in Hu.
    intros g (i & Hi)%list_elem_of_lookup Hc. specialize (Hu i g Hi). simpl in Hu.
    rewrite is_ok_guard, Hc in Hu. simpl in Hu. by case_bool_decide.
  - rewrite (no_signers E). split_and!; [constructor|intros s Hs; by apply elem_of_nil in Hs|].
    intros g Hg Hc. apply orb_false_iff in E as [_ E]. apply list_elem_of_In in Hg.
    assert (existsb (λ g, is_some (ng_Cosmosigner g)) (ss_Nodes (cns_Spec nodeSet)) = true); [|congruence].
    apply existsb_exists. eauto.
Qed.

Lemma shared_target_group s1 s2 g :
  s1 ∈ ResolveCosmosigners nodeSet → s2 ∈ ResolveCosmosigners nodeSet →
  g ∈ sg_TargetGroups s1 → g ∈ sg_TargetGroups s2 → s1 = s2.
Proof using accepted.
  destruct accepted_parts as (Hnd & _ & Hu). intros H1 H2.
  pose proof H1 as K1. pose proof H2 as K2.
  apply ResolveCosmosigners_in in H1, H2.
  assert (Htop : ∀ i g' c s c', ss_Nodes (cns_Spec nodeSet) !! i = Some g' → ng_Cosmosigner g' = Some c →
            [s] = resolveGroupSigners nodeSet i g' c → ss_Cosmosigner (cns_Spec nodeSet) = Some c' →
            g ∈ sg_TargetGroups s → g ∈ sg_TargetGroups (resolveTopLevelSigner nodeSet c') → False).
  { intros i g' c s c' Hg' Hc Hs Hc' Ht1 Ht2.
    destruct (resolveGroupSigners_one nodeSet i g' c) as (s' & E & _ & Ht & _). rewrite E in Hs. simplify_eq.
    rewrite Ht, list_elem_of_singleton in Ht1. subst g. apply (Hu g'); [by eapply list_elem_of_lookup_2|by rewrite Hc|].
    unfold top_level_targets. rewrite Hc'. by rewrite top_targets in Ht2. }
  destruct H1 as [(c1 & Hc1 & ->)|(i1 & g1 & c1 & Hg1 & Hc1 & Hs1)],
           H2 as [(c2 & Hc2 & ->)|(i2 & g2 & c2 & Hg2 & Hc2 & Hs2)]; intros Ht1 Ht2.
  - congruence.
  - by destruct (Htop _ _ _ _ _ Hg2 Hc2 Hs2 Hc1 Ht2 Ht1).
  - by destruct (Htop _ _ _ _ _ Hg1 Hc1 Hs1 Hc2 Ht1 Ht2).
  - apply (NoDup_map_inj_on sg_Name (ResolveCosmosigners nodeSet)); try done.
    destruct (resolveGroupSigners_one nodeSet i1 g1 c1) as (s1' & E1 & N1 & T1 & _).
    destruct (resolveGroupSigners_one nodeSet i2 g2 c2) as (s2' & E2 & N2 & T2 & _).
    rewrite E1 in Hs1. rewrite E2 in Hs2. simplify_eq. rewrite T1, list_elem_of_singleton in Ht1.
    rewrite T2, list_elem_of_singleton in Ht2. congruence.
Qed.
End accepted.

Lemma resolved_spec nodeSet s : s ∈ ResolveCosmosigners nodeSet → is_some (sg_Spec s) = true.
Proof.
  intros [(c & _ & ->)|(i & g & c & _ & _ & Hs)]%ResolveCosmosigners_in.
  - unfold resolveTopLevelSigner. by destruct (cs_NodeGroups c), (ss_Validator (cns_Spec nodeSet)).
  - destruct (resolveGroupSigners_one nodeSet i g c) as (s' & E & _ & _ & Hc & _).
    rewrite E in Hs. injection Hs as ->. by rewrite Hc.
Qed.

Lemma find_refine {A} (f f' : A → bool) l x :
  find f l = Some x → f' x = true → (∀ y, f' y = true → f y = true) → find f' l = Some x.
Proof.
  intros Hf Hx Himp. induction l as [|y l IH]; simpl in *; [done|].
  destruct (f y) eqn:E; [by simplify_eq; rewrite Hx|].
  destruct (f' y) eqn:E'; [by rewrite (Himp _ E') in E|auto].
Qed.

(** Whether the signer uses the validator's local key, by the target's own configuration. *)
Lemma local_key_by_target nodeSet s v :
  is_some (sg_Spec s) = true → sg_ValidatorGroup s ≠ "" →
  validatorConfigForGroup nodeSet (sg_ValidatorGroup s) = Some v →
  SignerUsesLocalValidatorKey nodeSet s =
  UsesSoftwareBackend (sg_Spec s) || ImportsGeneratedKey (sg_Spec s) (is_some (nv_Init v)).
Proof.
  intros Hs Hg Hv. unfold SignerUsesLocalValidatorKey, ImportsGeneratedKey, TargetsValidator.
  rewrite Hs, (bool_decide_eq_false_2 (sg_ValidatorGroup s = "")) by done. simpl.
  destruct (UsesSoftwareBackend (sg_Spec s)); [done|]. simpl.
  destruct (GcpImportsKey (sg_Spec s)); [by rewrite orb_true_r|]. rewrite orb_false_r.
  destruct (UsesVaultBackend (sg_Spec s)) eqn:Ev; simpl.
  - f_equal. unfold validatorConfigForGroup in Hv. case_bool_decide; [by rewrite Hv|].
    destruct (find_group _ nodeSet) as [g|] eqn:Ef; [|done]. simpl in Hv.
    unfold find_group in *. rewrite (find_refine _ _ _ g Ef); [by rewrite Hv| |].
    + apply find_some in Ef as [_ Ef]. by rewrite Ef, Hv.
    + by intros y [? _]%andb_true_iff.
  - unfold UsesVaultBackend, VaultUploadsGenerated in *. destruct (sg_Spec s) as [c|]; [|done]. simpl.
    case_bool_decide as E; [done|]. destruct (be_Vault (cs_Backend c)); [|done]. destruct E; eauto.
Qed.

Definition registers_key (v : NodeSetValidatorConfig) : bool := is_some (nv_Init v) || is_some (nv_CreateValidator v).

Lemma vault_uploads_by c init :
  VaultUploadsGenerated c init = UsesVaultBackend c && (vault_uploads c || init).
Proof.
  unfold VaultUploadsGenerated, UsesVaultBackend, vault_uploads. destruct c as [c|]; [|done]. simpl.
  by destruct (be_Vault (cs_Backend c)).
Qed.

Lemma target_signer_keys nodeSet old s v :
  is_ok (validate_target_signer nodeSet old s v) = true →
  (registers_key v = true → migrationWaiver nodeSet old s = false →
   UsesSoftwareBackend (sg_Spec s) || ImportsGeneratedKey (sg_Spec s) (is_some (nv_Init v)) = true) ∧
  (UsesSoftwareBackend (sg_Spec s) || ImportsGeneratedKey (sg_Spec s) (is_some (nv_Init v)) = true →
   registers_key v || set_and_not_empty (nv_PrivateKeySecret v) = true).
Proof.
  unfold validate_target_signer, registers_key, ImportsGeneratedKey. cbv zeta.
  autorewrite with go. rewrite vault_uploads_by.
  destruct (is_some (nv_Init v)), (is_some (nv_CreateValidator v)), (set_and_not_empty (nv_PrivateKeySecret v)),
    (UsesSoftwareBackend (sg_Spec s)), (UsesVaultBackend (sg_Spec s)), (vault_uploads (sg_Spec s)),
    (GcpImportsKey (sg_Spec s)), (migrationWaiver nodeSet old s); simpl;
    rewrite ?andb_false_r; try done; by intros.
Qed.

(** C13: a set whose signers are admitted runs no two signers over one node group. *)
Theorem one_signer_per_group `{QuantityApi} nodeSet old s1 s2 g :
  is_ok (validateCosmosigner nodeSet old) = true →
  s1 ∈ ResolveCosmosigners nodeSet → s2 ∈ ResolveCosmosigners nodeSet →
  g ∈ sg_TargetGroups s1 → g ∈ sg_TargetGroups s2 → s1 = s2.
Proof. intros. by eapply shared_target_group. Qed.

(** an admitted signer has the key it is to sign with.  A signer of sentries with a software
    backend names its secret.  A signer of a validator that registers a key of its own signs with
    that key, unless the registration and an applied signer are on record; and whenever a signer
    is to sign with its validator's key, the validator generates one or names its secret. *)
Theorem admitted_signer_has_key `{QuantityApi} nodeSet old s :
  is_ok (validateCosmosigner nodeSet old) = true → s ∈ ResolveCosmosigners nodeSet →
  (sg_ValidatorGroup s = "" → UsesSoftwareBackend (sg_Spec s) = true → set_and_not_empty (software_secret (sg_Spec s)) = true) ∧
  (sg_ValidatorGroup s ≠ "" → ∃ v, validatorConfigForGroup nodeSet (sg_ValidatorGroup s) = Some v ∧
     (registers_key v = true → migrationWaiver nodeSet old s = false → SignerUsesLocalValidatorKey nodeSet s = true) ∧
     (SignerUsesLocalValidatorKey nodeSet s = true → registers_key v = true ∨ set_and_not_empty (nv_PrivateKeySecret v) = true)).
Proof.
  intros Hok Hs. destruct (accepted_parts nodeSet old Hok) as (_ & Hr & _). specialize (Hr s Hs).
  unfold validateResolvedSigner in Hr. destruct (decide (sg_ValidatorGroup s = "")) as [E|E].
  - rewrite E in Hr. simpl in Hr. split; [|done]. intros _ Hsw. unfold validate_sentry_signer in Hr.
    autorewrite with go in Hr. rewrite Hsw in Hr. simpl in Hr. to_prop. by destruct (set_and_not_empty _).
  - split; [done|]. intros _. rewrite bool_decide_eq_false_2 in Hr by done.
    destruct (validatorConfigForGroup nodeSet (sg_ValidatorGroup s)) as [v|] eqn:Ev; [|done].
    exists v. split; [done|]. rewrite (local_key_by_target _ _ v (resolved_spec _ _ Hs) E Ev).
    destruct (target_signer_keys nodeSet old s v Hr) as [H1 H2]. split; [exact H1|].
    intros K. by apply orb_true_iff, H2.
Qed.

Lemma find_last_Some {A} (f : A → bool) l x : find_last f l = Some x → x ∈ l ∧ f x = true.
Proof. unfold find_last. intros [Hx Hf]%find_some. split; [|done]. by rewrite <- list_elem_of_In, elem_of_reverse in Hx. Qed.

Lemma find_last_is_Some {A} (f : A → bool) l x : x ∈ l → f x = true → is_Some (find_last f l).
Proof. intros Hx Hf. apply find_is_Some. exists x. by rewrite elem_of_reverse. Qed.

Lemma signer_named_self l s : NoDup (map sg_Name l) → s ∈ l → signer_named (sg_Name s) l = Some s.
Proof.
  intros Hnd Hs. unfold signer_named.
  destruct (find_last_is_Some (λ s', sg_Name s' == sg_Name s) l s Hs (bool_decide_eq_true_2 _ eq_refl)) as [s' Hs'].
  rewrite Hs'. apply find_last_Some in Hs' as [Hin E]. to_prop. f_equal. by eapply NoDup_map_inj_on.
Qed.

Section update.
Context `{QuantityApi} (nodeSet old : ChainNodeSet).
Hypothesis accepted : is_ok (validateCosmosignerUpdate nodeSet (Some old)) = true.

Lemma update_parts :
  (∀ s, s ∈ ResolveCosmosigners nodeSet → is_ok (check_new_signer nodeSet old s) = true) ∧
  (sst_ChainID (cns_Status old) ≠ "" → ∀ s, s ∈ ResolveCosmosigners old →
     is_ok (check_genesis_sentry nodeSet old s) = true ∧
     is_ok (check_removed_signer nodeSet old (added_signer nodeSet old) s) = true).
Proof using accepted.
  unfold validateCosmosignerUpdate in accepted. rewrite is_ok_seq, andb_true_iff, is_ok_for_each in accepted.
  destruct accepted as [Hn Hu]. split; [done|]. intros Hc s Hs.
  rewrite bool_decide_eq_false_2 in Hu by done.
  rewrite !is_ok_seq, !andb_true_iff, !is_ok_for_each in Hu. destruct Hu as (Hg & Hr & _). auto.
Qed.

(** The same class, and the same size: as written, or as quantities. *)
Definition same_storage (sizeA : string) (classA : option string) (sizeB : string) (classB : option string) : Prop :=
  classA = classB ∧
  (sizeA = sizeB ∨ ∃ qa qb, ParseQuantity sizeA = Ok qa ∧ ParseQuantity sizeB = Ok qb ∧ QuantityCmp qa qb = 0%Z).

Lemma storage_equal_same sizeA classA sizeB classB :
  CosmosignerStateStorageEqual sizeA classA sizeB classB = true → same_storage sizeA classA sizeB classB.
Proof using Type.
  unfold CosmosignerStateStorageEqual, same_storage. case_bool_decide as Ec; simpl; [|done]. intros E. split; [done|].
  destruct (ParseQuantity sizeA) as [qa|] eqn:Ea, (ParseQuantity sizeB) as [qb|] eqn:Eb; to_prop; [right|by left..].
  exists qa, qb. split_and!; [done..|lia].
Qed.

Lemma immutable_storage path o n :
  is_ok (validateCosmosignerStateStorageImmutable path (Some o) (Some n)) = true →
  same_storage (GetStateStorageSize (Some o)) (cs_StorageClassName o) (GetStateStorageSize (Some n)) (cs_StorageClassName n).
Proof using Type.
  unfold validateCosmosignerStateStorageImmutable. intros Hv. apply storage_equal_same.
  by destruct (CosmosignerStateStorageEqual _ _ _ _).
Qed.

Lemma kept_signer os ns :
  NoDup (map sg_Name (ResolveCosmosigners old)) →
  os ∈ ResolveCosmosigners old → ns ∈ ResolveCosmosigners nodeSet → sg_Name os = sg_Name ns →
  GetReplicas (sg_Spec os) = GetReplicas (sg_Spec ns) ∧
  (∃ o n, sg_Spec os = Some o ∧ sg_Spec ns = Some n ∧
     same_storage (GetStateStorageSize (Some o)) (cs_StorageClassName o) (GetStateStorageSize (Some n)) (cs_StorageClassName n)) ∧
  (sst_ChainID (cns_Status old) ≠ "" → Digest os ≠ Digest ns →
   migration_ready (GetCosmosignerStatus old (sg_Name os)) = true).
Proof using accepted.
  intros Hnd Hos Hns En. destruct update_parts as [Hnew _]. specialize (Hnew ns Hns).
  unfold check_new_signer in Hnew. rewrite <- En, (signer_named_self _ os) in Hnew by done.
  unfold check_kept_signer in Hnew. autorewrite with go in Hnew.
  apply andb_true_iff in Hnew as [Hr Hnew]. apply andb_true_iff in Hnew as [Hs Hd].
  split_and!; [lia| |].
  { apply resolved_spec in Hos, Hns. destruct (sg_Spec os) as [o|], (sg_Spec ns) as [n|]; try done.
    exists o, n. split_and!; [done..|by eapply immutable_storage]. }
  intros Hc Hne. rewrite (bool_decide_eq_false_2 (_ = "")), (bool_decide_eq_false_2 (Digest _ = _)) in Hd by done.
  by destruct (migration_ready _).
Qed.

(** The replicas and the storage that an entry records, where it records them, are those of a signer. *)
Definition as_recorded (st : CosmosignerStatus) (c : option Cosmosigner) : Prop :=
  (∀ r, st_Replicas st = Some r → r = GetReplicas c) ∧
  (st_StateStorageSize st ≠ "" →
   same_storage (st_StateStorageSize st) (st_StateStorageClassName st) (GetStateStorageSize c) (c ≫= cs_StorageClassName)).

(** A signer takes over what an entry shows another one to have signed: the same validator group, with
    the same key.  A signer that is new in the revision takes it over with the recorded replicas and
    storage, and only once the applied key is on record. *)
Definition takes_over (st : CosmosignerStatus) (ns : ResolvedSigner) : Prop :=
  st_ServingGroup st ≠ "" ∧ sg_ValidatorGroup ns = st_ServingGroup st ∧
  st_ServingIdentity st ≠ "" ∧ Identity ns = st_ServingIdentity st ∧
  (sg_Name ns ∉ map sg_Name (ResolveCosmosigners old) → migration_ready (Some st) = true ∧ as_recorded st (sg_Spec ns)).

Lemma new_signer_added ns :
  ns ∈ ResolveCosmosigners nodeSet → sg_Name ns ∉ map sg_Name (ResolveCosmosigners old) → added_signer nodeSet old = true.
Proof using Type.
  intros Hin Hn. apply existsb_exists. exists ns. split; [by apply list_elem_of_In|].
  destruct (signer_named (sg_Name ns) (ResolveCosmosigners old)) as [os|] eqn:E; [|done].
  apply find_last_Some in E as [Hos E]. to_prop. destruct Hn. rewrite <- E. by apply list_elem_of_fmap_2.
Qed.

Lemma kept_as_recorded st c : replicas_kept st c = true → storage_kept st c = true → as_recorded st c.
Proof using Type.
  unfold replicas_kept, storage_kept, as_recorded. intros Hr Hs. split.
  - intros r E. rewrite E in Hr. lia.
  - intros Hne. apply orb_true_iff in Hs as [Hs|Hs]; [by to_prop|by apply storage_equal_same].
Qed.

Lemma served_signer os :
  NoDup (map sg_Name (ResolveCosmosigners nodeSet)) →
  sst_ChainID (cns_Status old) ≠ "" → os ∈ ResolveCosmosigners old →
  signed (GetCosmosignerStatus old (sg_Name os)) = true →
  ∃ ns, ns ∈ ResolveCosmosigners nodeSet ∧
    (sg_Name ns = sg_Name os ∨ ∃ st, GetCosmosignerStatus old (sg_Name os) = Some st ∧ takes_over st ns).
Proof using accepted.
  intros Hnd Hc Hos Hsig. destruct update_parts as [_ Hold]. destruct (Hold Hc os Hos) as [_ Hrem].
  unfold check_removed_signer in Hrem.
  destruct (signer_named (sg_Name os) (ResolveCosmosigners nodeSet)) as [ns|] eqn:En.
  { apply find_last_Some in En as [Hin E]. to_prop. exists ns. auto. }
  simpl in Hrem. rewrite is_ok_seq, is_ok_guard, Hsig in Hrem. apply andb_true_iff in Hrem as [Hrep Hmove].
  destruct (GetCosmosignerStatus old (sg_Name os)) as [st|]; [|done].
  pose proof (DesiredReplacementSigner_cases nodeSet (ResolveCosmosigners nodeSet) st) as Hd.
  destruct (DesiredReplacementSigner nodeSet _ (Some st)) as [ns|]; [|done].
  destruct Hd as [Hin Hp]. exists ns. split; [done|]. right. exists st. split; [done|].
  assert (st_ServingGroup st ≠ "" ∧ sg_ValidatorGroup ns = st_ServingGroup st ∧
          st_ServingIdentity st ≠ "" ∧ Identity ns = st_ServingIdentity st) as (H1 & H2 & H3 & H4).
  { clear - Hp Hsig. simpl in Hsig. destruct Hp as [| |m| ]; [done|..]; repeat match goal with E : st_ServingIdentity st = _ |- _ => rewrite E in Hsig end;
      repeat match goal with E : st_SigningDigest st = _ |- _ => rewrite E in Hsig end; done. }
  split_and!; [done..|]. intros Hnew. rewrite (new_signer_added ns Hin Hnew) in Hmove. simpl in Hmove.
  autorewrite with go in Hmove. destruct (migration_ready (Some st)) eqn:Em; [|by simpl in *; rewrite Em in Hmove].
  split; [done|]. apply kept_as_recorded; by destruct (replicas_kept _ _), (storage_kept _ _); to_prop.
Qed.
End update.

(** C31: an admitted update of a set with distinct group names keeps its signers.  A signer of both
    revisions keeps its replicas, its storage class and, up to how the quantity is written, the size
    of its storage, and on an established chain changes its signing digest only once its applied key
    is on record.  On an established chain a signer whose entry shows that it served is still named
    by the new revision, or another signer takes over the validator group it served with the identity
    it served under; one that is new in the revision does so with the recorded replicas and storage,
    and only once the applied key is on record. *)
Theorem update_keeps_signers `{QuantityApi} nodeSet old :
  is_ok (validateCosmosignerUpdate nodeSet (Some old)) = true →
  NoDup (map ng_Name (ss_Nodes (cns_Spec nodeSet))) → NoDup (map ng_Name (ss_Nodes (cns_Spec old))) →
  (∀ os ns, os ∈ ResolveCosmosigners old → ns ∈ ResolveCosmosigners nodeSet → sg_Name os = sg_Name ns →
     GetReplicas (sg_Spec os) = GetReplicas (sg_Spec ns) ∧
     (∃ o n, sg_Spec os = Some o ∧ sg_Spec ns = Some n ∧
        same_storage (GetStateStorageSize (Some o)) (cs_StorageClassName o) (GetStateStorageSize (Some n)) (cs_StorageClassName n)) ∧
     (sst_ChainID (cns_Status old) ≠ "" → Digest os ≠ Digest ns →
      migration_ready (GetCosmosignerStatus old (sg_Name os)) = true)) ∧
  (sst_ChainID (cns_Status old) ≠ "" → ∀ os, os ∈ ResolveCosmosigners old →
     signed (GetCosmosignerStatus old (sg_Name os)) = true →
     ∃ ns, ns ∈ ResolveCosmosigners nodeSet ∧
       (sg_Name ns = sg_Name os ∨ ∃ st, GetCosmosignerStatus old (sg_Name os) = Some st ∧ takes_over old st ns)).
Proof.
  intros Hok Hnd%signer_names_NoDup Hnd'%signer_names_NoDup.
  split; intros; [by eapply kept_signer|by apply served_signer].
Qed.

(** A singleton signed by a top-level software signer, and sentries with a Vault signer; or the
    singleton's signer moved to the sentries' group as well. *)
Definition webhook_example (chainID : string) (entries : list CosmosignerStatus) (top : option Cosmosigner) : ChainNodeSet :=
  mkChainNodeSet (meta_of_name "default" "chain")
    (newChainNodeSetSpec (newAppSpec "img" None "appd" [])
       (Some (nv_with_PrivateKeySecret newNodeSetValidator (Some "key")))
       [example_group] top)
    (newChainNodeSetStatus chainID [] 0 entries).
Definition software_signer : Cosmosigner := example_signer (mkBackend (Some (mkSoftware None)) None None).

#[local] Existing Instance reference_quantity.

Lemma one_signer_witness :
  Forall (λ s, "sentries" ∈ sg_TargetGroups s → sg_Name s = "chain-sentries-signer")
    (ResolveCosmosigners (webhook_example "" [] (Some software_signer))).
Proof.
  apply Forall_forall. intros s Hs Hg.
  rewrite (one_signer_per_group (H := reference_quantity) (webhook_example "" [] (Some software_signer)) None s
    (mkResolvedSigner "chain-sentries-signer" (ng_Cosmosigner example_group) (AtGroup 0) ["sentries"] "" "") "sentries");
    [reflexivity|vm_compute; reflexivity|exact Hs| |exact Hg|by left].
  vm_compute. right. left.
Defined.

Lemma admitted_signer_witness :
  SignerUsesLocalValidatorKey (webhook_example "" [] (Some software_signer))
    (resolveTopLevelSigner (webhook_example "" [] (Some software_signer)) software_signer) = true ∧
  set_and_not_empty (nv_PrivateKeySecret (nv_with_PrivateKeySecret newNodeSetValidator (Some "key"))) = true.
Proof.
  destruct (admitted_signer_has_key (H := reference_quantity) (webhook_example "" [] (Some software_signer)) None
    (resolveTopLevelSigner (webhook_example "" [] (Some software_signer)) software_signer)) as [_ Hv];
    [vm_compute; reflexivity|vm_compute; left|].
  destruct Hv as (v & Ev & _ & Hk); [done|]. injection Ev as <-.
  split; [vm_compute; reflexivity|]. by destruct (Hk eq_refl).
Defined.

(** The entry of the singleton's signer after it served. *)
Definition served_entry : CosmosignerStatus :=
  mkCosmosignerStatus "chain-signer" "" "digest" "pubkey" ["validator"] None (Some 1%Z) "1Gi" None "digest" None
    "identity" "validator" None "" "".

Lemma update_keeps_signers_witness :
  is_ok (validateCosmosignerUpdate (webhook_example "c" [served_entry] None)
           (Some (webhook_example "c" [served_entry] (Some software_signer)))) = false ∧
  ∃ ns, ns ∈ ResolveCosmosigners (webhook_example "c" [served_entry] (Some software_signer)) ∧
    (sg_Name ns = "chain-signer" ∨ ∃ st, Some served_entry = Some st ∧
       takes_over (webhook_example "c" [served_entry] (Some software_signer)) st ns).
Proof.
  split; [vm_compute; reflexivity|].
  destruct (update_keeps_signers (H := reference_quantity) (webhook_example "c" [served_entry] (Some software_signer))
    (webhook_example "c" [served_entry] (Some software_signer))) as [_ Hs];
    [vm_compute; reflexivity|repeat constructor; set_solver..|].
  apply (Hs ltac:(done) (resolveTopLevelSigner (webhook_example "c" [served_entry] (Some software_signer)) software_signer));
    [vm_compute; left|vm_compute; reflexivity].
Defined.
