(* ===== verification/SigningNames.v ===== *)
(** * Which Kubernetes objects can sign for a claim

    Names, labels and owner references: the pure tests of
    [internal/cosmosigner/reservation_lifecycle.go], [cleanup.go] and [apply.go]
    that decide whether a StatefulSet, Job or Pod belongs to a signing path. *)

From S2P Require Import Prelude GoLib IO ThirdParty ApiTypes KubeApi DerivedNames SignerResolve.

Definition labelAppName : string := "app.kubernetes.io/name".
Definition labelInstance : string := "app.kubernetes.io/instance".
Definition appNameCosmosigner : string := "cosmosigner".
Definition labelOwnerUID : string := "cosmopilot.voluzi.com/cosmosigner-owner".
Definition dataVolumeName : string := "data".

(** ** Names *)

Definition isManagedSigningOneShotName (name : string) : bool :=
  has_suffix name "-tmkms-generate-identity" || has_suffix name "-tmkms-vault-upload" ||
  has_suffix name "-import" || has_suffix name "-pubkey".

Definition oneShotMarkers : list string :=
  ["-tmkms-generate-identity"; "-tmkms-vault-upload"; "-import"; "-pubkey"].

(** The job name is cut after the last marker followed by a dash; [None] stands
    for [lastIndex = -1]. *)
Definition managedSigningOneShotPodJobName (name : string) : option string :=
  snd <$> foldl (λ (last : option (nat * string)) marker,
    match LastIndex name (marker +:+ "-") with
    | Some index =>
        if (match last with Some (i, _) => (i <? index)%nat | None => true end)
        then Some (index, slice_to (index + String.length marker) name) else last
    | None => last
    end) None oneShotMarkers.

Definition canonical_ordinal (ordinal : string) : option Z :=
  match Atoi ordinal with
  | Ok n => if (0 <=? n)%Z && (FormatInt n == ordinal) then Some n else None
  | Err _ => None
  end.

Definition isStatefulSetReplicaPodName (podName stsName : string) : bool :=
  let prefix := stsName +:+ "-" in
  if negb (has_prefix podName prefix) then false
  else is_some (canonical_ordinal (TrimPrefix podName prefix)).

Definition statefulSetDataPVCOrdinal (pvcName stsName : string) : option Z :=
  let prefix := dataVolumeName +:+ "-" +:+ stsName +:+ "-" in
  if negb (has_prefix pvcName prefix) then None else
  let ordinal := TrimPrefix pvcName prefix in
  if ordinal == "" then None else canonical_ordinal ordinal.

Definition isStatefulSetDataPVC (pvcName stsName : string) : bool :=
  is_some (statefulSetDataPVCOrdinal pvcName stsName).

Definition statefulSetNameFromDataPVC (pvcName : string) : option string :=
  let prefix := dataVolumeName +:+ "-" in
  if negb (has_prefix pvcName prefix) then None else
  let nameAndOrdinal := TrimPrefix pvcName prefix in
  match LastIndex nameAndOrdinal "-" with
  | None | Some 0%nat => None
  | Some separator =>
      let name := slice_to separator nameAndOrdinal in
      if isStatefulSetDataPVC pvcName name then Some name else None
  end.

Definition pvc_Name (p : PersistentVolumeClaim) : string := meta_Name (pvc_meta p).
Definition pvc_label (p : PersistentVolumeClaim) (k : string) : string := get_label (meta_Labels (pvc_meta p)) k.

Definition isOwnedStatefulSetDataPVC (pvc : PersistentVolumeClaim) (owner : ObjectMeta) (name : string) : bool :=
  if negb (isStatefulSetDataPVC (pvc_Name pvc) name) then false
  else pvc_label pvc labelOwnerUID == meta_UID owner.

Definition isAmbiguousLegacyDataPVC (pvc : PersistentVolumeClaim) (name : string) : bool :=
  if negb (isStatefulSetDataPVC (pvc_Name pvc) name) then false
  else negb (is_some (meta_Labels (pvc_meta pvc) !! labelOwnerUID)).

Definition ownedStatefulSetDataPVCOrdinal (pvc : PersistentVolumeClaim) (owner : ObjectMeta) (name : string) : option Z :=
  if pvc_label pvc labelOwnerUID != meta_UID owner then None
  else statefulSetDataPVCOrdinal (pvc_Name pvc) name.

(** [sortedUnique]: first occurrences of the non-empty values, sorted. *)
Fixpoint unique_from (seen : gset string) (values : list string) : list string :=
  match values with
  | [] => []
  | v :: values =>
      if (v == "") || bool_decide (v ∈ seen) then unique_from seen values
      else v :: unique_from ({[v]} ∪ seen) values
  end.
Definition sortedUnique (values : list string) : list string := sort_Strings (unique_from ∅ values).

Definition controller_is_job (c : option OwnerReference) (job : Job) : bool :=
  match c with
  | Some c => (or_Kind c == "Job") && (or_Name c == job_Name job) && (or_UID c == meta_UID (job_meta job))
  | None => false
  end.

(** ** Ownership *)

Section ownership.
Context `{MetaApi}.

Definition belongsToRoot (m : ObjectMeta) (uid : string) : bool :=
  if meta_UID m == uid then true else existsb (λ o, or_UID o == uid) (meta_OwnerReferences m).

Definition controlledByUID (m : ObjectMeta) (uid : string) : bool :=
  match GetControllerOf m with Some o => or_UID o == uid | None => false end.

Definition controlledByAnyUID (m : ObjectMeta) (uids : gset string) : bool :=
  match GetControllerOf m with Some o => bool_decide (or_UID o ∈ uids) | None => false end.

Definition managedSigningOneShotBelongsToRoot (name : string) (labels : gmap string string) (owner : Owner) : bool :=
  if negb (isManagedSigningOneShotName name) then false else
  match owner with
  | OwnerChainNode _ =>
      if get_label labels "chain-node" != "" then get_label labels "chain-node" == owner_Name owner
      else if get_label labels "nodeset" != "" then false
      else has_prefix name (owner_Name owner +:+ "-")
  | OwnerChainNodeSet _ =>
      if get_label labels "nodeset" != "" then get_label labels "nodeset" == owner_Name owner
      else if get_label labels "chain-node" != "" then false
      else has_prefix name (owner_Name owner +:+ "-")
  | OwnerOther _ => false
  end.

Definition deterministicSignerStatefulSetBelongsToRoot (name : string) (owner : Owner) : bool :=
  match owner with
  | OwnerChainNode _ => name == owner_Name owner +:+ "-signer"
  | OwnerChainNodeSet _ => has_prefix name (owner_Name owner +:+ "-") && has_suffix name "-signer"
  | OwnerOther _ => false
  end.

Definition IsOwnedDeterministicSignerStatefulSet (sts : StatefulSet) (owner : Owner) : bool :=
  IsControlledBy (sts_meta sts) (owner_meta owner) &&
  deterministicSignerStatefulSetBelongsToRoot (sts_Name sts) owner.

Definition IsOwnedSignerStatefulSet (sts : StatefulSet) (owner : Owner) : bool :=
  if negb (IsControlledBy (sts_meta sts) (owner_meta owner)) then false
  else if (get_label (sts_TemplateLabels sts) labelAppName == appNameCosmosigner) &&
          (get_label (sts_TemplateLabels sts) labelInstance == sts_Name sts) then true
  else existsb (λ claim,
    (pvc_Name claim == dataVolumeName) && (pvc_label claim labelAppName == appNameCosmosigner) &&
    (pvc_label claim labelInstance == sts_Name sts) &&
    (pvc_label claim labelOwnerUID == owner_UID owner)) (sts_VolumeClaimTemplates sts).

Definition signerPodBelongsToRoot (pod : Pod) (owner : Owner) : bool :=
  if pod_label pod labelAppName != appNameCosmosigner then false else
  match owner with
  | OwnerChainNode _ => pod_label pod "chain-node" == owner_Name owner
  | OwnerChainNodeSet _ => pod_label pod "nodeset" == owner_Name owner
  | OwnerOther _ => false
  end.

Definition podMatchesSignerNames (pod : Pod) (signerNames : list string) : bool :=
  existsb (isStatefulSetReplicaPodName (pod_Name pod)) signerNames.

Definition reservationOwnerSignerNames (owner : Owner) : list string :=
  match owner with
  | OwnerChainNode n => [cn_Name n +:+ "-signer"]
  | OwnerChainNodeSet s =>
      sortedUnique (map (CosmosignerResourceName s) (ResolveCosmosigners s) ++
                    map (λ st, CosmosignerStatusResourceName (Some st)) (statuses s))
  | OwnerOther _ => []
  end.

(** ** Objects a stale reservation may still be signed through *)

(** The label verdict and whether the labels settle the question. *)
Definition staleReservationSignerLabelAttribution (labels : gmap string string)
    (r : ConsensusKeyReservation) : bool * bool :=
  let chainNode := get_label labels "chain-node" in
  let nodeSet := get_label labels "nodeset" in
  if rs_OwnerKind (ckr_Spec r) == "ChainNode" then
    if chainNode != "" then (chainNode == rs_OwnerName (ckr_Spec r), true)
    else if nodeSet != "" then (false, true) else (false, false)
  else if nodeSet != "" then (nodeSet == rs_OwnerName (ckr_Spec r), true)
  else if chainNode != "" then (chainNode == rs_Claim (ckr_Spec r), true)
  else (false, false).

Definition staleReservationJobMatches (job : Job) (r : ConsensusKeyReservation) : bool :=
  if negb (isManagedSigningOneShotName (job_Name job)) then false else
  let '(matches, exact) := staleReservationSignerLabelAttribution (meta_Labels (job_meta job)) r in
  if exact then matches
  else if has_prefix (job_Name job) (rs_Claim (ckr_Spec r) +:+ "-") then true
  else if rs_OwnerKind (ckr_Spec r) == "ChainNode"
  then has_prefix (job_Name job) (rs_OwnerName (ckr_Spec r) +:+ "-signer-")
  else has_prefix (job_Name job) (rs_OwnerName (ckr_Spec r) +:+ "-").

Definition signerStatefulSetNameMatches (name : string) (r : ConsensusKeyReservation) : bool :=
  if rs_OwnerKind (ckr_Spec r) == "ChainNode" then name == rs_OwnerName (ckr_Spec r) +:+ "-signer"
  else has_prefix name (rs_OwnerName (ckr_Spec r) +:+ "-") && has_suffix name "-signer".

Definition staleReservationStatefulSetMatches (sts : StatefulSet) (r : ConsensusKeyReservation) : bool :=
  let '(matches, exact) := staleReservationSignerLabelAttribution (sts_TemplateLabels sts) r in
  if exact then matches else
  let '(matches, exact) := staleReservationSignerLabelAttribution (meta_Labels (sts_meta sts)) r in
  if exact then matches else signerStatefulSetNameMatches (sts_Name sts) r.

Definition staleReservationSignerReplicaPodMatches (name : string) (r : ConsensusKeyReservation) : bool :=
  match LastIndex name "-" with
  | None => false
  | Some separator =>
      if (separator =? String.length name - 1)%nat then false
      else if negb (string_forallb is_digit (slice_from (separator + 1) name)) then false
      else signerStatefulSetNameMatches (slice_to separator name) r
  end.

Definition staleReservationOneShotPodMatches (name : string) (r : ConsensusKeyReservation) : bool :=
  let named (n : string) := mkJob (meta_of_name "" n) in
  if isManagedSigningOneShotName name then staleReservationJobMatches (named name) r
  else match managedSigningOneShotPodJobName name with
       | None => false
       | Some managedJobName => staleReservationJobMatches (named managedJobName) r
       end.

Definition staleReservationPodMatches (pod : Pod) (r : ConsensusKeyReservation) : bool :=
  let '(labelsMatch, exactLabels) := staleReservationSignerLabelAttribution (meta_Labels (pod_meta pod)) r in
  if exactLabels && negb labelsMatch then false
  else if (pod_Name pod == rs_Claim (ckr_Spec r)) ||
          ((rs_OwnerKind (ckr_Spec r) == "ChainNode") && (pod_Name pod == rs_OwnerName (ckr_Spec r))) then true
  else if staleReservationOneShotPodMatches (pod_Name pod) r then true
  else if staleReservationSignerReplicaPodMatches (pod_Name pod) r then true
  else if pod_label pod "app.kubernetes.io/name" != "cosmosigner" then false
  else if exactLabels then labelsMatch
  else
    let instance := pod_label pod "app.kubernetes.io/instance" in
    if rs_OwnerKind (ckr_Spec r) == "ChainNode" then instance == rs_OwnerName (ckr_Spec r) +:+ "-signer"
    else has_prefix instance (rs_OwnerName (ckr_Spec r) +:+ "-").
End ownership.

Lemma unique_from_spec seen values n :
  n ∈ unique_from seen values ↔ n ∈ values ∧ n ≠ "" ∧ n ∉ seen.
Proof.
  revert seen. induction values as [|v values IH]; intros seen; simpl.
  { rewrite elem_of_nil. naive_solver. }
  destruct (decide (v = "" ∨ v ∈ seen)) as [Hv|Hv].
  - assert ((v == "") || bool_decide (v ∈ seen) = true) as ->.
    { apply orb_true_iff. rewrite !bool_decide_eq_true. done. }
    rewrite IH, elem_of_cons. split; [by intros (? & ? & ?); auto|].
    intros ([->|?] & ? & ?); [by destruct Hv|done].
  - assert ((v == "") || bool_decide (v ∈ seen) = false) as ->.
    { apply orb_false_iff. rewrite !bool_decide_eq_false. tauto. }
    rewrite !elem_of_cons, IH, elem_of_union, elem_of_singleton. split.
    + intros [->|(? & ? & ?)]; split_and!; try tauto.
    + intros ([->|?] & ? & ?); [by left|]. destruct (decide (n = v)); [by left|].
      right. split_and!; [done|done|]. tauto.
Qed.

(** The names a cleanup iterates over are the non-empty ones, each once. *)
Lemma sortedUnique_spec values n : n ∈ sortedUnique values ↔ n ∈ values ∧ n ≠ "".
Proof.
  unfold sortedUnique, sort_Strings. rewrite sort_slice_perm, unique_from_spec. set_solver.
Qed.

Lemma sortedUnique_NoDup values : NoDup (sortedUnique values).
Proof.
  unfold sortedUnique, sort_Strings. rewrite sort_slice_perm. generalize (∅ : gset string).
  induction values as [|v values IH]; intros seen; simpl; [constructor|].
  destruct (_ || _); [done|]. constructor; [|done].
  rewrite unique_from_spec. set_solver.
Qed.
