(* ===== verification/SigningPaths.v ===== *)
(** * Removing a signing path ([internal/cosmosigner/apply.go], [reservation_lifecycle.go], [lock.go])

    Retaining, quiescing and deleting the workloads that can sign for a claim,
    and confirming their absence.  Every routine is a tree of API requests; the
    owner is the custom resource the workloads must belong to. *)

From S2P Require Import Prelude GoLib IO ThirdParty ApiTypes KubeApi SignerResolve SigningNames.

(** A [fmt.Sprintf] message; [None] is the empty string. *)
Definition message := option (string * list fmt_arg).

Record ManagedSigningPath := mkSigningPath {
  sp_StatefulSetNames : list string;
  sp_OneShotNames : list string;
  sp_PodNames : list string;
}.

Record ManagedSigningPathCleanupResult := mkCleanupResult {
  cr_Done : bool;
  cr_Waiting : message;
  cr_Blocked : message;
}.
Definition cleanup_done : ManagedSigningPathCleanupResult := mkCleanupResult true None None.
Definition cleanup_waiting (format : string) (args : list fmt_arg) : ManagedSigningPathCleanupResult :=
  mkCleanupResult false (Some (format, args)) None.
Definition cleanup_blocked (format : string) (args : list fmt_arg) : ManagedSigningPathCleanupResult :=
  mkCleanupResult false None (Some (format, args)).

Abbreviation cleanup := (kube (result ManagedSigningPathCleanupResult)).

(** [for _, name := range names { result, err := f(name); if err != nil || !result.Done { return result, err } }] *)
Fixpoint for_names (f : string → cleanup) (names : list string) : cleanup :=
  match names with
  | [] => return_result cleanup_done
  | name :: names =>
      r ←? f name;
      if cr_Done r then for_names f names else return_result r
  end.

(** [if err := c.Delete(...); err != nil && !IsNotFound(err) { return err }] *)
Definition ignoring_not_found {A B} (m : kube (result A)) (k : kube (result B)) : kube (result B) :=
  r ← m;
  match r with
  | Err e => if IsNotFound e then k else return_error e
  | Ok _ => k
  end.

(** The answers of a read that must find nothing. *)
Ltac confirm_answers :=
  let e := fresh "e" in let En := fresh "En" in
  intros [?|e]; simpl; [done|]; destruct (IsNotFound e) eqn:En; simpl; [|done]; unfold IsNotFound in En; to_prop; subst.

(** [if err := reader.Get(...); err == nil { present } else if !IsNotFound(err) { return err }; absent] *)
Definition confirm_absent {A B} (get : kube (result A)) (present absent : kube (result B)) : kube (result B) :=
  r ← get;
  match r with
  | Ok _ => present
  | Err e => if IsNotFound e then absent else return_error e
  end.

Definition owner_type (o : Owner) : string :=
  match o with
  | OwnerChainNode _ => "*v1.ChainNode"
  | OwnerChainNodeSet _ => "*v1.ChainNodeSet"
  | OwnerOther _ => "client.Object"
  end.

Definition foreignObjectErr (kind name : string) : error :=
  Errorf "cosmosigner %s %q is managed by another owner; refusing to deploy over it — rename the ChainNode/ChainNodeSet to avoid the name collision"
    [AStr kind; AStr name].

(** ** Quiescing and deleting a signer StatefulSet *)

Definition is_signer_pod (name : string) (pod : Pod) : bool :=
  ((pod_label pod labelAppName == appNameCosmosigner) && (pod_label pod labelInstance == name)) ||
  isStatefulSetReplicaPodName (pod_Name pod) name.

Definition SignerPodsGone (via : source) (namespace name : string) : kube (result bool) :=
  pods ←? call (ListPods via namespace);
  return_result (negb (existsb (is_signer_pod name) pods)).

Definition with_replicas (s : StatefulSet) (n : Z) : StatefulSet :=
  mkStatefulSet (sts_meta s) (sts_Generation s) (Some n) (sts_Selector s) (sts_ServiceName s)
    (sts_PodManagementPolicy s) (sts_UpdateStrategy s) (sts_PodSpec s) (sts_TemplateLabels s)
    (sts_VolumeClaimTemplates s) (sts_Retention s) (sts_StatusObservedGeneration s) (sts_StatusReplicas s)
    (sts_StatusUpdatedReplicas s) (sts_StatusReadyReplicas s).
Definition with_retention (s : StatefulSet) (p : PVCRetentionPolicy) : StatefulSet :=
  mkStatefulSet (sts_meta s) (sts_Generation s) (sts_Replicas s) (sts_Selector s) (sts_ServiceName s)
    (sts_PodManagementPolicy s) (sts_UpdateStrategy s) (sts_PodSpec s) (sts_TemplateLabels s)
    (sts_VolumeClaimTemplates s) (Some p) (sts_StatusObservedGeneration s) (sts_StatusReplicas s)
    (sts_StatusUpdatedReplicas s) (sts_StatusReadyReplicas s).

Definition RetainPolicy : string := "Retain".
Definition retain_all : PVCRetentionPolicy := mkRetention RetainPolicy RetainPolicy.
Definition retains (s : StatefulSet) : bool :=
  match sts_Retention s with
  | Some p => (rp_WhenDeleted p == RetainPolicy) && (rp_WhenScaled p == RetainPolicy)
  | None => false
  end.

Section paths.
Context `{MetaApi}.

Definition ScaleDown (owner : Owner) (namespace name : string) : kube (result bool) :=
  r ← call (GetStatefulSet Cached namespace name);
  match r with
  | Err e => if IsNotFound e then SignerPodsGone Cached namespace name else return_error e
  | Ok sts =>
      if negb (IsControlledBy (sts_meta sts) (owner_meta owner)) then return_result true
      else if sts_Replicas sts != Some 0%Z then
        call (UpdateStatefulSet (with_replicas sts 0)) ;? return_result false
      else if (sts_StatusObservedGeneration sts <? sts_Generation sts)%Z ||
              negb (sts_StatusReplicas sts =? 0)%Z then return_result false
      else SignerPodsGone Cached namespace name
  end.

Definition retainStatefulSetPVCs (owner : Owner) (namespace name : string) : kube (result bool) :=
  r ← call (GetStatefulSet Cached namespace name);
  match r with
  | Err e => if IsNotFound e then return_result true else return_error e
  | Ok sts =>
      if negb (IsControlledBy (sts_meta sts) (owner_meta owner))
      then return_error (foreignObjectErr "StatefulSet" name)
      else if negb (retains sts) then
        call (UpdateStatefulSet (with_retention sts retain_all)) ;? return_result false
      else return_result (sts_Generation sts <=? sts_StatusObservedGeneration sts)%Z
  end.

Definition DeleteStatefulSet (owner : Owner) (namespace name : string) : kube (result bool) :=
  retained ←? retainStatefulSetPVCs owner namespace name;
  if negb retained then return_result false else
  r ← call (GetStatefulSet Cached namespace name);
  match r with
  | Err e => if IsNotFound e then SignerPodsGone Cached namespace name else return_error e
  | Ok sts =>
      if negb (IsControlledBy (sts_meta sts) (owner_meta owner))
      then return_error (foreignObjectErr "StatefulSet" name) else
      quiesced ←? ScaleDown owner namespace name;
      if negb quiesced then return_result false else
      let uid := meta_UID (sts_meta sts) in
      if uid == "" then
        return_error (Errorf "owned cosmosigner StatefulSet %q has no UID; refusing an unguarded delete" [AStr (sts_Name sts)])
      else
        ignoring_not_found (call (DeleteStatefulSetReq namespace (sts_Name sts) uid))
          (confirm_absent (call (GetStatefulSet Cached namespace name)) (return_result false)
             (SignerPodsGone Cached namespace name))
  end.

(** ** Removing an exact signing path *)

Definition managedSigningJobPodsGone (namespace name : string) : cleanup :=
  pods ←? call (ListPods Direct namespace);
  match find (λ pod, has_prefix (pod_Name pod) (name +:+ "-")) pods with
  | Some pod =>
      return_result (cleanup_waiting "waiting for orphaned Job Pod %s/%s to terminate"
        [AStr (meta_Namespace (pod_meta pod)); AStr (pod_Name pod)])
  | None => return_result cleanup_done
  end.

Definition cleanupManagedSigningJob (owner : Owner) (namespace name : string) : cleanup :=
  r ← call (GetJob Direct namespace name);
  match r with
  | Err e => if IsNotFound e then managedSigningJobPodsGone namespace name else return_error e
  | Ok job =>
      let uid := meta_UID (job_meta job) in
      if negb (IsControlledBy (job_meta job) (owner_meta owner)) then
        return_result (cleanup_blocked "Job %s/%s is not controlled by %T UID %q; refusing claim cleanup"
          [AStr namespace; AStr name; AStr (owner_type owner); AStr (owner_UID owner)])
      else if uid == "" then
        return_error (Errorf "owned Job %s/%s has no UID; refusing an unguarded delete" [AStr namespace; AStr name])
      else
        pods ←? call (ListPods Direct namespace);
        match find (λ pod, has_prefix (pod_Name pod) (name +:+ "-") &&
                           negb (controller_is_job (GetControllerOf (pod_meta pod)) job)) pods with
        | Some pod =>
            return_result (cleanup_blocked "Job Pod %s/%s does not belong to current Job UID %q; refusing claim cleanup"
              [AStr (meta_Namespace (pod_meta pod)); AStr (pod_Name pod); AStr uid])
        | None =>
            let confirm :=
              confirm_absent (call (GetJob Direct namespace name))
                (return_result (cleanup_waiting "waiting for Job %s/%s to terminate" [AStr namespace; AStr name]))
                (managedSigningJobPodsGone namespace name) in
            match meta_DeletionTimestamp (job_meta job) with
            | None => ignoring_not_found (call (DeleteJobForeground namespace (job_Name job) uid)) confirm
            | Some _ => confirm
            end
        end
  end.

Definition cleanupDirectOwnedPod (owner : Owner) (namespace name : string) : cleanup :=
  r ← call (GetPod Direct namespace name);
  match r with
  | Err e => if IsNotFound e then return_result cleanup_done else return_error e
  | Ok pod =>
      let uid := meta_UID (pod_meta pod) in
      if negb (IsControlledBy (pod_meta pod) (owner_meta owner)) then
        return_result (cleanup_blocked "Pod %s/%s is not controlled by %T UID %q; refusing claim cleanup"
          [AStr namespace; AStr name; AStr (owner_type owner); AStr (owner_UID owner)])
      else if uid == "" then
        return_error (Errorf "owned Pod %s/%s has no UID; refusing an unguarded delete" [AStr namespace; AStr name])
      else
        let confirm :=
          confirm_absent (call (GetPod Direct namespace name))
            (return_result (cleanup_waiting "waiting for Pod %s/%s to terminate" [AStr namespace; AStr name]))
            (return_result cleanup_done) in
        match meta_DeletionTimestamp (pod_meta pod) with
        | None => ignoring_not_found (call (DeletePod namespace (pod_Name pod) uid)) confirm
        | Some _ => confirm
        end
  end.

(** One iteration of the StatefulSet loop; [continue] is a done result. *)
Definition cleanupSignerStatefulSet (owner : Owner) (namespace name : string) : cleanup :=
  let waiting_pods := cleanup_waiting "waiting for signer Pods for StatefulSet %s/%s to be absent"
                        [AStr namespace; AStr name] in
  let waiting_sts := cleanup_waiting "waiting for StatefulSet %s/%s to be absent" [AStr namespace; AStr name] in
  let pods_gone :=
    gone ←? SignerPodsGone Direct namespace name;
    return_result (if gone then cleanup_done else waiting_pods) in
  r ← call (GetStatefulSet Direct namespace name);
  match r with
  | Err e => if IsNotFound e then pods_gone else return_error e
  | Ok sts =>
      if negb (IsControlledBy (sts_meta sts) (owner_meta owner)) then
        return_result (cleanup_blocked "StatefulSet %s/%s is not controlled by %T UID %q; refusing claim cleanup"
          [AStr namespace; AStr name; AStr (owner_type owner); AStr (owner_UID owner)])
      else if is_some (meta_DeletionTimestamp (sts_meta sts)) then return_result waiting_sts
      else
        deleted ←? DeleteStatefulSet owner namespace name;
        if negb deleted then
          return_result (cleanup_waiting "waiting for StatefulSet %s/%s and its signer Pods to terminate"
            [AStr namespace; AStr name])
        else confirm_absent (call (GetStatefulSet Direct namespace name)) (return_result waiting_sts) pods_gone
  end.

Definition cleanupOneShot (owner : Owner) (namespace name : string) : cleanup :=
  r ←? cleanupManagedSigningJob owner namespace name;
  if negb (cr_Done r) then return_result r else cleanupDirectOwnedPod owner namespace name.

Definition CleanupManagedSigningPath (owner : Owner) (namespace : string) (path : ManagedSigningPath) : cleanup :=
  r ←? for_names (cleanupSignerStatefulSet owner namespace) (sortedUnique (sp_StatefulSetNames path));
  if negb (cr_Done r) then return_result r else
  r ←? for_names (cleanupOneShot owner namespace) (sortedUnique (sp_OneShotNames path));
  if negb (cr_Done r) then return_result r else
  for_names (cleanupDirectOwnedPod owner namespace) (sortedUnique (sp_PodNames path)).

(** ** Removing every signing path of a root *)

(** The loop over StatefulSets: the signer names so far, or [None] to wait. *)
Fixpoint finalizeStatefulSets (owner : Owner) (namespace : string) (names : list string)
    (l : list StatefulSet) : kube (result (option (list string))) :=
  match l with
  | [] => return_result (Some names)
  | sts :: l =>
      if negb (IsOwnedSignerStatefulSet sts owner) && negb (IsOwnedDeterministicSignerStatefulSet sts owner)
      then finalizeStatefulSets owner namespace names l
      else if is_some (meta_DeletionTimestamp (sts_meta sts)) then return_result None
      else
        deleted ←? DeleteStatefulSet owner namespace (sts_Name sts);
        if negb deleted then return_result None else
        confirm_absent (call (GetStatefulSet Direct (meta_Namespace (sts_meta sts)) (sts_Name sts)))
          (return_result None)
          (gone ←? SignerPodsGone Direct namespace (sts_Name sts);
           if negb gone then return_result None
           else finalizeStatefulSets owner namespace (names ++ [sts_Name sts]) l)
  end.

(** The loop over Jobs: one-shot names, and the UIDs of Jobs that belong to children. *)
Fixpoint classifyJobs (owner : Owner) (children : gset string) (l : list Job) : result (list string * gset string) :=
  match l with
  | [] => Ok ([], ∅)
  | job :: l =>
      if controlledByAnyUID (job_meta job) children then
        '(names, workloads) ← classifyJobs owner children l;
        Ok (names, if meta_UID (job_meta job) != "" then {[meta_UID (job_meta job)]} ∪ workloads else workloads)
      else if negb (managedSigningOneShotBelongsToRoot (job_Name job) (meta_Labels (job_meta job)) owner)
      then classifyJobs owner children l
      else if negb (IsControlledBy (job_meta job) (owner_meta owner)) then
        Err (Errorf "Job %s/%s matches a managed signing path but is not controlled by %T UID %q"
          [AStr (meta_Namespace (job_meta job)); AStr (job_Name job); AStr (owner_type owner); AStr (owner_UID owner)])
      else
        '(names, workloads) ← classifyJobs owner children l;
        Ok (job_Name job :: names, workloads)
  end.

(** What the loop over Pods does with one pod: nothing, a one-shot name, or a pod name. *)
Definition classifyPod (owner : Owner) (children workloads : gset string) (pod : Pod) : option (string + string) :=
  let labels := meta_Labels (pod_meta pod) in
  if controlledByAnyUID (pod_meta pod) children || controlledByAnyUID (pod_meta pod) workloads then None else
  let job := match managedSigningOneShotPodJobName (pod_Name pod) with
             | Some jobName => if managedSigningOneShotBelongsToRoot jobName labels owner then Some jobName else None
             | None => None
             end in
  match job with
  | Some jobName => Some (inl jobName)
  | None =>
      if managedSigningOneShotBelongsToRoot (pod_Name pod) labels owner then Some (inl (pod_Name pod))
      else if negb (IsControlledBy (pod_meta pod) (owner_meta owner)) then None
      else if isManagedSigningOneShotName (pod_Name pod) then Some (inl (pod_Name pod))
      else if signerPodBelongsToRoot pod owner then Some (inr (pod_Name pod))
      else None
  end.

Definition childControllers (owner : Owner) (children : list ChainNode) : gset string :=
  list_to_set (map cn_UID (filter (λ child,
    IsControlledBy (cn_meta child) (owner_meta owner) && (cn_UID child != "") = true) children)).

Definition listChildren (owner : Owner) (namespace : string) : kube (result (gset string)) :=
  match owner with
  | OwnerChainNodeSet _ =>
      children ←? call (ListChainNodes Direct (Some namespace));
      return_result (childControllers owner children)
  | _ => return_result ∅
  end.

Definition inl_names (l : list (string + string)) : list string :=
  omap (λ x, match x with inl n => Some n | inr _ => None end) l.
Definition inr_names (l : list (string + string)) : list string :=
  omap (λ x, match x with inr n => Some n | inl _ => None end) l.

Definition FinalizeConsensusKeySigningPaths (owner : Owner) (namespace : string) : kube (result bool) :=
  children ←? listChildren owner namespace;
  statefulSets ←? call (ListStatefulSets Direct namespace);
  signers ←? finalizeStatefulSets owner namespace (reservationOwnerSignerNames owner) statefulSets;
  match signers with
  | None => return_result false
  | Some signerNames =>
      jobs ←? call (ListJobs Direct namespace);
      match classifyJobs owner children jobs with
      | Err e => return_error e
      | Ok (jobNames, workloads) =>
          ownedPods ←? call (ListPods Direct namespace);
          let classified := omap (classifyPod owner children workloads) ownedPods in
          r ←? CleanupManagedSigningPath owner namespace
                 (mkSigningPath signerNames (jobNames ++ inl_names classified) (inr_names classified));
          match cr_Blocked r with
          | Some (format, args) => return_error (Errorf format args)
          | None =>
              if negb (cr_Done r) then return_result false else
              pods ←? call (ListPods Direct namespace);
              return_result (negb (existsb (λ pod,
                negb (controlledByAnyUID (pod_meta pod) children) &&
                negb (controlledByAnyUID (pod_meta pod) workloads) &&
                (signerPodBelongsToRoot pod owner || podMatchesSignerNames pod signerNames)) pods))
          end
      end
  end.

(** ** Anchoring the raft lock on the live signer *)

(** Replica count, and the size and class of the data claim, each when found. *)
Record SignerLock := mkSignerLock {
  sl_Replicas : option Z;
  sl_Storage : option (string * option string);
}.

Definition ReadSignerLock (owner : ObjectMeta) (namespace name : string) : kube (result SignerLock) :=
  r ← call (GetStatefulSet Cached namespace name);
  match r with
  | Ok sts =>
      if negb (IsControlledBy (sts_meta sts) owner) then return_result (mkSignerLock None None) else
      let replicas := default 1%Z (sts_Replicas sts) in
      if (replicas =? 0)%Z then
        return_error (Errorf "cosmosigner %q StatefulSet is quiesced (replicas=0) and no raft-membership lock is recorded: cannot establish the lock from a scaled-down signer; wait for the in-flight re-import to complete or restore the recorded lock before reconciling" [AStr name])
      else
        return_result (mkSignerLock (Some replicas)
          ((λ t, (match pvc_StorageRequest t with Some q => q_string q | None => "" end,
                  pvc_StorageClassName t)) <$>
             find (λ t, pvc_Name t == dataVolumeName) (sts_VolumeClaimTemplates sts)))
  | Err e =>
      if IsNotFound e then
        pvcs ←? call (ListPVCs Cached namespace);
        match find (λ pvc, is_some (ownedStatefulSetDataPVCOrdinal pvc owner name) ||
                           isAmbiguousLegacyDataPVC pvc name) pvcs with
        | Some pvc =>
            return_error (Errorf "cosmosigner %q has an orphaned raft-state PVC %q but no StatefulSet or recorded lock: its raft membership cannot be reconstructed from the claim alone; delete the stale claims or restore the signer before reconciling"
              [AStr name; AStr (pvc_Name pvc)])
        | None => return_result (mkSignerLock None None)
        end
      else return_error e
  end.
End paths.

(** ** What the routines promise *)

Lemma for_names_spec P (f : string → cleanup) (G : string → list kevent → Prop) names h :
  (∀ name h h', h `suffix_of` h' → G name h → G name h') →
  (∀ name h, spec P h (f name) (λ h' r, ∀ c, r = Ok c → cr_Done c = true → G name h')) →
  spec P h (for_names f names) (λ h' r, ∀ c, r = Ok c → cr_Done c = true → ∀ name, name ∈ names → G name h').
Proof.
  intros Hmono Hf. revert h. induction names as [|name names IH]; intros h; simpl.
  { intros c _ _ name Hn. set_solver. }
  rewrite spec_try. eapply spec_conseq; [apply Hf|]. intros h' [c|e] _ Hc; [|naive_solver].
  destruct (cr_Done c) eqn:Ed; simpl; [|by intros ? [= <-]; rewrite Ed].
  eapply spec_conseq; [apply spec_suffix, IH|]. intros h'' r _ [Hs Hr] c' -> Hd n Hn.
  apply elem_of_cons in Hn as [->|Hn]; [|eauto]. eapply Hmono; [exact Hs|]. by apply (Hc c).
Qed.

Section safety.
Context `{MetaApi}.
Variables (owner : Owner) (namespace : string).

Definition controlled (m : ObjectMeta) : Prop := IsControlledBy m (owner_meta owner) = true.

(** *** Observations *)
Definition saw_sts (via : source) (name : string) (Q : StatefulSet → Prop) (e : kevent) : Prop :=
  ∃ s, e = Ev (GetStatefulSet via namespace name) (Ok s) ∧ Q s.
Definition saw_no_sts (via : source) (name : string) (e : kevent) : Prop :=
  e = Ev (GetStatefulSet via namespace name) (Err (ApiError ReasonNotFound)).
Definition saw_pods (via : source) (Q : Pod → Prop) (e : kevent) : Prop :=
  ∃ pods, e = Ev (ListPods via namespace) (Ok pods) ∧ Forall Q pods.
Definition saw_no_signer_pods (via : source) (name : string) : kevent → Prop :=
  saw_pods via (λ p, is_signer_pod name p = false).

(** The spec of the set retains every claim, and its controller has seen it. *)
Definition retention_in_force (s : StatefulSet) : Prop :=
  controlled (sts_meta s) ∧ retains s = true ∧ (sts_Generation s ≤ sts_StatusObservedGeneration s)%Z.
(** Scaled to zero, observed by its controller, and reporting no replica. *)
Definition scaled_to_zero (s : StatefulSet) : Prop :=
  controlled (sts_meta s) ∧ sts_Replicas s = Some 0%Z ∧
  (sts_Generation s ≤ sts_StatusObservedGeneration s)%Z ∧ sts_StatusReplicas s = 0%Z.

Definition retention_seen (name : string) (e : kevent) : Prop :=
  saw_no_sts Cached name e ∨ saw_sts Cached name retention_in_force e.

(** After the observations [rest]: the set was seen quiesced (or gone) and then
    no signer pod was left, or it had passed to another owner. *)
Definition quiesced_after (name : string) (rest : list (kevent → Prop)) (h : list kevent) : Prop :=
  in_order (saw_no_signer_pods Cached name :: saw_sts Cached name scaled_to_zero :: rest) h ∨
  in_order (saw_no_signer_pods Cached name :: saw_no_sts Cached name :: rest) h ∨
  in_order (saw_sts Cached name (λ s, ¬ controlled (sts_meta s)) :: rest) h.

Definition absent_after (via : source) (name : string) : list kevent → Prop :=
  in_order [saw_no_signer_pods via name; saw_no_sts via name].

(** *** The requests the routines may issue *)
Definition permitted (h : list kevent) (r : request) : Prop :=
  match r with
  | GetStatefulSet _ _ _ | ListStatefulSets _ _ | GetJob _ _ _ | ListJobs _ _ | GetPod _ _ _
  | ListPods _ _ | ListPVCs _ _ | ListChainNodes _ _ => True
  | UpdateStatefulSet s' => ∃ name s,
      Ev (GetStatefulSet Cached namespace name) (Ok s) ∈ h ∧ controlled (sts_meta s) ∧
      (s' = with_replicas s 0 ∨ s' = with_retention s retain_all)
  | DeleteStatefulSetReq ns n uid => ∃ name s,
      ns = namespace ∧ n = sts_Name s ∧ uid = meta_UID (sts_meta s) ∧ uid ≠ "" ∧ controlled (sts_meta s) ∧
      quiesced_after name [saw_sts Cached name (s =.); retention_seen name] h
  | DeleteJobForeground ns n uid => ∃ name job,
      ns = namespace ∧ n = job_Name job ∧ uid = meta_UID (job_meta job) ∧ uid ≠ "" ∧ controlled (job_meta job) ∧
      in_order [saw_pods Direct (λ p, has_prefix (pod_Name p) (name +:+ "-") = true →
                                      controller_is_job (GetControllerOf (pod_meta p)) job = true);
                (Ev (GetJob Direct namespace name) (Ok job) =.)] h
  | DeletePod ns n uid => ∃ name pod,
      ns = namespace ∧ n = pod_Name pod ∧ uid = meta_UID (pod_meta pod) ∧ uid ≠ "" ∧ controlled (pod_meta pod) ∧
      Ev (GetPod Direct namespace name) (Ok pod) ∈ h
  | _ => False
  end.

Lemma existsb_false {A} (f : A → bool) l : existsb f l = false ↔ Forall (λ x, f x = false) l.
Proof.
  rewrite Forall_forall. split.
  - intros H' x Hx. destruct (f x) eqn:E; [|done]. rewrite <- H'. symmetry.
    apply existsb_exists. exists x. by rewrite <- list_elem_of_In.
  - intros H'. apply not_true_is_false. intros (x & Hx & E)%existsb_exists.
    apply list_elem_of_In, H' in Hx. congruence.
Qed.

Lemma SignerPodsGone_spec via name h :
  spec permitted h (SignerPodsGone via namespace name) (λ h' r,
    r = Ok true → ∃ e, h' = e :: h ∧ saw_no_signer_pods via name e).
Proof.
  simpl. split; [done|]. intros [pods|e]; simpl; [|done]. intros [= Hp]. eexists. split; [done|].
  exists pods. split; [done|]. by apply existsb_false, negb_true_iff.
Qed.

(** With earlier observations [rest]: a positive answer comes with a listing
    free of signer pods, made after them. *)
Lemma SignerPodsGone_after via name rest h :
  in_order rest h →
  spec permitted h (SignerPodsGone via namespace name) (λ h' r,
    r = Ok true → in_order (saw_no_signer_pods via name :: rest) h').
Proof.
  intros Hr. eapply spec_conseq; [apply SignerPodsGone_spec|].
  intros h' r _ Hok Hr'. destruct (Hok Hr') as (e & -> & He). by apply in_order_here.
Qed.

#[local] Opaque SignerPodsGone.

Lemma ScaleDown_spec name rest h :
  in_order rest h →
  spec permitted h (ScaleDown owner namespace name) (λ h' r,
    r = Ok true → quiesced_after name rest h').
Proof.
  intros Hrest. simpl. split; [done|]. intros [s|e]; simpl.
  - destruct (IsControlledBy _ _) eqn:Ec; simpl.
    2:{ intros _. right; right. apply in_order_here; [|done]. exists s. split; [done|]. unfold controlled. congruence. }
    destruct (bool_decide (sts_Replicas s = Some 0%Z)) eqn:Er; simpl.
    + destruct (_ || _) eqn:Eg; simpl; [done|]. to_prop.
      eapply spec_conseq; [apply (SignerPodsGone_after _ _ (saw_sts Cached name scaled_to_zero :: rest))|].
      * apply in_order_here; [|done]. exists s. split; [done|]. repeat split; auto.
      * intros h' r _ Hr Hok. left. auto.
    + split; [|by intros [?|?]; simpl]. exists name, s. split_and!; [by left|done|by left].
  - destruct (IsNotFound e) eqn:En; simpl; [|done]. unfold IsNotFound in En. to_prop. subst.
    eapply spec_conseq; [apply (SignerPodsGone_after _ _ (saw_no_sts Cached name :: rest))|].
    + by apply in_order_here.
    + intros h' r _ Hr Hok. right; left. auto.
Qed.

Lemma retainStatefulSetPVCs_spec name h :
  spec permitted h (retainStatefulSetPVCs owner namespace name) (λ h' r,
    r = Ok true → in_order [retention_seen name] h').
Proof.
  simpl. split; [done|]. intros [s|e]; simpl.
  - destruct (IsControlledBy _ _) eqn:Ec; simpl; [|done].
    destruct (retains s) eqn:Er; simpl.
    + intros [= Hg]. to_prop. apply in_order_here; [|done]. right. exists s. done.
    + split; [|by intros [?|?]; simpl]. exists name, s. split_and!; [by left|done|by right].
  - destruct (IsNotFound e) eqn:En; simpl; [|done]. unfold IsNotFound in En. to_prop. subst.
    intros _. apply in_order_here; [|done]. by left.
Qed.

#[local] Opaque ScaleDown.
#[local] Opaque retainStatefulSetPVCs.

Lemma DeleteStatefulSet_spec name h :
  spec permitted h (DeleteStatefulSet owner namespace name) (λ h' r,
    r = Ok true → absent_after Cached name h').
Proof.
  unfold DeleteStatefulSet. rewrite spec_try.
  eapply spec_conseq; [apply retainStatefulSetPVCs_spec|]. intros h1 [ret|e] _ Hret; [|done].
  destruct ret; simpl; [|done]. specialize (Hret eq_refl). split; [done|]. intros [s|e]; simpl.
  - destruct (IsControlledBy _ _) eqn:Ec; simpl; [|done]. rewrite spec_try.
    eapply spec_conseq; [apply (ScaleDown_spec _ [saw_sts Cached name (s =.); retention_seen name])|].
    { apply in_order_here; [by exists s|done]. }
    intros h2 [q|e] _ Hq; [|done]. destruct q; simpl; [|done]. specialize (Hq eq_refl).
    destruct (bool_decide (meta_UID (sts_meta s) = "")) eqn:Eu; simpl; [done|]. to_prop.
    split; [by exists name, s|].
    assert (∀ e, spec permitted (e :: h2)
      (confirm_absent (call (GetStatefulSet Cached namespace name)) (return_result false)
         (SignerPodsGone Cached namespace name)) (λ h' r, r = Ok true → absent_after Cached name h')) as Hc.
    { intros e. simpl. split; [done|]. intros [?|e']; simpl; [done|].
      destruct (IsNotFound e') eqn:En; simpl; [|done]. unfold IsNotFound in En. to_prop. subst.
      apply (SignerPodsGone_after _ _ [saw_no_sts Cached name]). by apply in_order_here. }
    intros [?|e]; simpl; [apply Hc|]. destruct (IsNotFound e); [apply Hc|done].
  - destruct (IsNotFound e) eqn:En; simpl; [|done]. unfold IsNotFound in En. to_prop. subst.
    apply (SignerPodsGone_after _ _ [saw_no_sts Cached name]). by apply in_order_here.
Qed.
#[local] Opaque DeleteStatefulSet.

Lemma if_NotFound {A} e (a b : A) (Q : A → Prop) :
  (e = ApiError ReasonNotFound → Q a) → Q b → Q (if IsNotFound e then a else b).
Proof. intros Ha Hb. destruct (IsNotFound e) eqn:En; [|done]. unfold IsNotFound in En. to_prop. auto. Qed.

Lemma cleanupSignerStatefulSet_spec name h :
  spec permitted h (cleanupSignerStatefulSet owner namespace name) (λ h' r,
    ∀ c, r = Ok c → cr_Done c = true → absent_after Direct name h').
Proof.
  assert (∀ h, in_order [saw_no_sts Direct name] h → ∀ w, cr_Done w = false →
    spec permitted h (gone ←? SignerPodsGone Direct namespace name;
                      return_result (if gone then cleanup_done else w))
      (λ h' r, ∀ c, r = Ok c → cr_Done c = true → absent_after Direct name h')) as Hgone.
  { clear h. intros h Hh w Hw. rewrite spec_try. eapply spec_conseq; [by apply SignerPodsGone_after|].
    intros h' [g|e] _ Hg; simpl; [|done]. intros c [= <-] Hd. destruct g; [by apply Hg|congruence]. }
  unfold cleanupSignerStatefulSet. simpl. split; [done|]. intros [s|e]; simpl.
  - destruct (IsControlledBy _ _) eqn:Ec; simpl; [|by intros c [= <-]].
    destruct (meta_DeletionTimestamp _); simpl; [by intros c [= <-]|].
    rewrite spec_try. eapply spec_conseq; [apply DeleteStatefulSet_spec|].
    intros h' [d|e] _ _; simpl; [|done]. destruct d; simpl; [|by intros c [= <-]].
    split; [done|]. intros [?|e]; simpl; [by intros c [= <-]|].
    apply if_NotFound; [|done]. intros ->. apply Hgone; [|done]. by apply in_order_here.
  - apply if_NotFound; [|done]. intros ->. apply Hgone; [|done]. by apply in_order_here.
Qed.

(** The Job and every Pod named after it were seen gone, in that order. *)
Definition job_gone (name : string) : list kevent → Prop :=
  in_order [saw_pods Direct (λ p, has_prefix (pod_Name p) (name +:+ "-") = false);
            (Ev (GetJob Direct namespace name) (Err (ApiError ReasonNotFound)) =.)].
Definition pod_gone (name : string) : list kevent → Prop :=
  in_order [(Ev (GetPod Direct namespace name) (Err (ApiError ReasonNotFound)) =.)].

Lemma find_None_Forall {A} (f : A → bool) l : find f l = None → Forall (λ x, f x = false) l.
Proof. intros Hf. apply Forall_forall. intros x Hx%list_elem_of_In. by apply (find_none _ _ Hf). Qed.

Lemma managedSigningJobPodsGone_spec name h :
  in_order [(Ev (GetJob Direct namespace name) (Err (ApiError ReasonNotFound)) =.)] h →
  spec permitted h (managedSigningJobPodsGone namespace name) (λ h' r,
    ∀ c, r = Ok c → cr_Done c = true → job_gone name h').
Proof.
  intros Hh. simpl. split; [done|]. intros [pods|e]; simpl; [|done].
  destruct (find _ pods) eqn:Ef; simpl; [by intros c [= <-]|]. intros c _ _.
  apply in_order_here; [|done]. exists pods. split; [done|]. by apply find_None_Forall.
Qed.
#[local] Opaque managedSigningJobPodsGone.

Lemma cleanupManagedSigningJob_spec name h :
  spec permitted h (cleanupManagedSigningJob owner namespace name) (λ h' r,
    ∀ c, r = Ok c → cr_Done c = true → job_gone name h').
Proof.
  unfold cleanupManagedSigningJob. simpl. split; [done|]. intros [job|e]; simpl.
  2:{ apply if_NotFound; [|done]. intros ->. apply managedSigningJobPodsGone_spec. by apply in_order_here. }
  destruct (IsControlledBy _ _) eqn:Ec; simpl; [|by intros c [= <-]].
  destruct (bool_decide (meta_UID (job_meta job) = "")) eqn:Eu; simpl; [done|]. to_prop.
  split; [done|]. intros [pods|e]; simpl; [|done].
  destruct (find _ pods) eqn:Ef; simpl; [by intros c [= <-]|]. set (h0 := _ :: _ :: h).
  assert (∀ h1, spec permitted h1
    (confirm_absent (call (GetJob Direct namespace name))
       (return_result (cleanup_waiting "waiting for Job %s/%s to terminate" [AStr namespace; AStr name]))
       (managedSigningJobPodsGone namespace name))
    (λ h' r, ∀ c, r = Ok c → cr_Done c = true → job_gone name h')) as Hc.
  { intros h1. simpl. split; [done|]. intros [?|e]; simpl; [by intros c [= <-]|].
    apply if_NotFound; [|done]. intros ->. apply managedSigningJobPodsGone_spec. by apply in_order_here. }
  destruct (meta_DeletionTimestamp _); [apply Hc|]. simpl. split.
  - exists name, job. split_and!; try done. apply in_order_here; [|by apply in_order_here].
    exists pods. split; [done|]. eapply Forall_impl; [by apply find_None_Forall|].
    simpl. intros p Hp Hpre. rewrite Hpre in Hp. by apply negb_false_iff in Hp.
  - intros [?|e]; simpl; [apply Hc|]. destruct (IsNotFound e); [apply Hc|done].
Qed.
#[local] Opaque cleanupManagedSigningJob.

Lemma cleanupDirectOwnedPod_spec name h :
  spec permitted h (cleanupDirectOwnedPod owner namespace name) (λ h' r,
    ∀ c, r = Ok c → cr_Done c = true → pod_gone name h').
Proof.
  unfold cleanupDirectOwnedPod. simpl. split; [done|]. intros [pod|e]; simpl.
  2:{ apply if_NotFound; [|done]. intros -> c _ _. by apply in_order_here. }
  destruct (IsControlledBy _ _) eqn:Ec; simpl; [|by intros c [= <-]].
  destruct (bool_decide (meta_UID (pod_meta pod) = "")) eqn:Eu; simpl; [done|]. to_prop.
  assert (∀ h1, spec permitted h1
    (confirm_absent (call (GetPod Direct namespace name))
       (return_result (cleanup_waiting "waiting for Pod %s/%s to terminate" [AStr namespace; AStr name]))
       (return_result cleanup_done))
    (λ h' r, ∀ c, r = Ok c → cr_Done c = true → pod_gone name h')) as Hc.
  { intros h1. simpl. split; [done|]. intros [?|e]; simpl; [by intros c [= <-]|].
    apply if_NotFound; [|done]. intros -> c _ _. by apply in_order_here. }
  destruct (meta_DeletionTimestamp _); [apply Hc|]. simpl. split.
  - exists name, pod. split_and!; try done. by left.
  - intros [?|e]; simpl; [apply Hc|]. destruct (IsNotFound e); [apply Hc|done].
Qed.
#[local] Opaque cleanupDirectOwnedPod.

Definition oneshot_gone (name : string) (h : list kevent) : Prop := job_gone name h ∧ pod_gone name h.

Lemma cleanupOneShot_spec name h :
  spec permitted h (cleanupOneShot owner namespace name) (λ h' r,
    ∀ c, r = Ok c → cr_Done c = true → oneshot_gone name h').
Proof.
  unfold cleanupOneShot. rewrite spec_try. eapply spec_conseq; [apply cleanupManagedSigningJob_spec|].
  intros h' [c|e] _ Hc; [|naive_solver]. destruct (cr_Done c) eqn:Ed; simpl; [|by intros ? [= <-]; rewrite Ed].
  eapply spec_conseq; [apply spec_suffix, cleanupDirectOwnedPod_spec|].
  intros h'' r _ [Hs Hr] c' -> Hd. split; [|by eapply Hr]. eapply in_order_suffix; [exact Hs|]. by apply (Hc c).
Qed.
#[local] Opaque cleanupSignerStatefulSet cleanupOneShot.

(** What a completed cleanup of [path] has observed. *)
Definition path_gone (path : ManagedSigningPath) (h : list kevent) : Prop :=
  (∀ name, name ∈ sp_StatefulSetNames path → name ≠ "" → absent_after Direct name h) ∧
  (∀ name, name ∈ sp_OneShotNames path → name ≠ "" → oneshot_gone name h) ∧
  (∀ name, name ∈ sp_PodNames path → name ≠ "" → pod_gone name h).

Lemma names_gone (G : string → list kevent → Prop) names h :
  (∀ n, n ∈ sortedUnique names → G n h) → ∀ n, n ∈ names → n ≠ "" → G n h.
Proof. intros HG n Hn Hne. apply HG, sortedUnique_spec. done. Qed.

Lemma CleanupManagedSigningPath_gone path h :
  spec permitted h (CleanupManagedSigningPath owner namespace path) (λ h' r,
    ∀ c, r = Ok c → cr_Done c = true → path_gone path h').
Proof.
  unfold CleanupManagedSigningPath. rewrite spec_try.
  eapply spec_conseq; [apply (for_names_spec _ _ (absent_after Direct)); [by intros ???; apply in_order_suffix|]|].
  { apply cleanupSignerStatefulSet_spec. }
  intros h1 [c|e] _ H1; [|naive_solver]. destruct (cr_Done c) eqn:E1; simpl; [|by intros ? [= <-]; rewrite E1].
  specialize (H1 c eq_refl E1). rewrite spec_try.
  eapply spec_conseq; [apply spec_suffix, (for_names_spec _ _ oneshot_gone)|].
  { intros ??? Hs []. split; by eapply in_order_suffix. }
  { apply cleanupOneShot_spec. }
  intros h2 [c2|e] _ [S2 H2]; [|naive_solver]. destruct (cr_Done c2) eqn:E2; simpl; [|by intros ? [= <-]; rewrite E2].
  specialize (H2 c2 eq_refl E2).
  eapply spec_conseq; [apply spec_suffix, (for_names_spec _ _ pod_gone)|].
  { by intros ???; apply in_order_suffix. }
  { apply cleanupDirectOwnedPod_spec. }
  intros h3 r _ [S3 H3] c3 -> Hd. specialize (H3 c3 eq_refl Hd). split_and!.
  - apply (names_gone (absent_after Direct)). intros n Hn. eapply in_order_suffix; [|by apply H1]. by etrans.
  - apply (names_gone oneshot_gone). intros n Hn. destruct (H2 n Hn). split; by eapply in_order_suffix.
  - by apply (names_gone pod_gone).
Qed.
#[local] Opaque CleanupManagedSigningPath.

Lemma finalizeStatefulSets_spec names l h :
  spec permitted h (finalizeStatefulSets owner namespace names l) (λ h' r,
    ∀ names', r = Ok (Some names') → names ⊆ names').
Proof.
  revert names h. induction l as [|s l IH]; intros names h; simpl; [by intros ? [= <-]|].
  destruct (_ && _); [apply IH|]. destruct (meta_DeletionTimestamp _); simpl; [done|].
  rewrite spec_try. eapply spec_conseq; [apply DeleteStatefulSet_spec|].
  intros h1 [d|e] _ _; simpl; [|done]. destruct d; simpl; [|done]. split; [done|].
  intros [?|e]; simpl; [done|]. destruct (IsNotFound e); [|done].
  rewrite spec_try. eapply spec_conseq; [apply (SignerPodsGone_after _ _ []); done|].
  intros h2 [g|e'] _ _; simpl; [|done]. destruct g; simpl; [|done].
  eapply spec_conseq; [apply IH|]. intros h3 r _ Hr names' ->. specialize (Hr _ eq_refl). set_solver.
Qed.
#[local] Opaque finalizeStatefulSets.

Lemma listChildren_spec h :
  spec permitted h (listChildren owner namespace) (λ h' r,
    ∀ children, r = Ok children → ∀ uid, uid ∈ children →
      ∃ l child, Ev (ListChainNodes Direct (Some namespace)) (Ok l) ∈ h' ∧ child ∈ l ∧
                 controlled (cn_meta child) ∧ uid = cn_UID child).
Proof.
  unfold listChildren, controlled. destruct owner; simpl; try (intros ? [= <-] uid Hu; set_solver).
  split; [done|]. intros [l|e]; simpl; [|done]. intros ? [= <-] uid Hu.
  apply elem_of_list_to_set, list_elem_of_In, in_map_iff in Hu as (child & <- & Hc).
  apply list_elem_of_In, list_elem_of_filter in Hc as [Hc Hl]. to_prop.
  exists l, child. split_and!; [by left|done|done|done].
Qed.
#[local] Opaque listChildren.

(** The pod belongs to a child of the root, or to a child's Job. *)
Definition child_pod (children workloads : gset string) (pod : Pod) : bool :=
  controlledByAnyUID (pod_meta pod) children || controlledByAnyUID (pod_meta pod) workloads.

(** The root's own signing paths were all seen gone: each signer it names, and
    last a listing whose remaining signer pods belong to its children. *)
Definition root_gone (h : list kevent) : Prop :=
  (∀ name, name ∈ reservationOwnerSignerNames owner → name ≠ "" → absent_after Direct name h) ∧
  ∃ children workloads names pods h0,
    h = Ev (ListPods Direct namespace) (Ok pods) :: h0 ∧ reservationOwnerSignerNames owner ⊆ names ∧
    (∀ pod, pod ∈ pods → child_pod children workloads pod = false →
       signerPodBelongsToRoot pod owner = false ∧ podMatchesSignerNames pod names = false) ∧
    (∀ uid, uid ∈ children → ∃ l child,
       Ev (ListChainNodes Direct (Some namespace)) (Ok l) ∈ h ∧ child ∈ l ∧
       controlled (cn_meta child) ∧ uid = cn_UID child) ∧
    (∀ uid, uid ∈ workloads → ∃ jobs job,
       Ev (ListJobs Direct namespace) (Ok jobs) ∈ h ∧ job ∈ jobs ∧
       controlledByAnyUID (job_meta job) children = true ∧ uid = meta_UID (job_meta job)).

Lemma classified_workloads children jobs names workloads :
  classifyJobs owner children jobs = Ok (names, workloads) →
  ∀ uid, uid ∈ workloads → ∃ job, job ∈ jobs ∧ controlledByAnyUID (job_meta job) children = true ∧ uid = meta_UID (job_meta job).
Proof.
  revert names workloads. induction jobs as [|job jobs IH]; intros names workloads; cbn [classifyJobs]; [intros [= _ <-]; set_solver|].
  assert (∀ names' workloads', classifyJobs owner children jobs = Ok (names', workloads') → ∀ uid, uid ∈ workloads' →
    ∃ job', job' ∈ job :: jobs ∧ controlledByAnyUID (job_meta job') children = true ∧ uid = meta_UID (job_meta job')) as IH'.
  { intros ? ? E uid Hu. destruct (IH _ _ E uid Hu) as (j & ? & ?). exists j. split; [by right|done]. }
  destruct (controlledByAnyUID (job_meta job) children) eqn:Ec; [|case_match; [by apply IH'|case_match; [done|]]].
  - intros ([n w] & E & [= <- <-])%bind_Ok uid. case_match; [|by eapply IH'].
    intros [->%elem_of_singleton|Hu]%elem_of_union; [exists job; split; [by left|done]|by eapply IH'].
  - intros ([n w] & E & [= <- <-])%bind_Ok. by eapply IH'.
Qed.

Lemma FinalizeConsensusKeySigningPaths_gone h :
  spec permitted h (FinalizeConsensusKeySigningPaths owner namespace) (λ h' r,
    r = Ok true → root_gone h').
Proof.
  unfold FinalizeConsensusKeySigningPaths. rewrite spec_try.
  eapply spec_conseq; [apply listChildren_spec|]. intros h1 [children|e] _ H1; simpl; [|done].
  specialize (H1 _ eq_refl). split; [done|]. intros [sets|e]; simpl; [|done].
  rewrite spec_try. eapply spec_conseq; [apply spec_suffix, finalizeStatefulSets_spec|].
  intros h2 [[names|]|e] _ [S2 H2]; simpl; [|done|done]. specialize (H2 _ eq_refl).
  split; [done|]. intros [jobs|e]; simpl; [|done].
  destruct (classifyJobs owner children jobs) as [[jobNames workloads]|e] eqn:Ej; simpl; [|done].
  split; [done|]. intros [owned|e]; simpl; [|done]. rewrite spec_try.
  eapply spec_conseq; [apply spec_suffix, CleanupManagedSigningPath_gone|].
  intros h3 [c|e] _ [S3 H3]; simpl; [|done]. destruct (cr_Blocked c) as [[??]|]; [done|].
  destruct (cr_Done c) eqn:Ed; simpl; [|done]. destruct (H3 c eq_refl Ed) as [Hsts _]. split; [done|].
  intros [pods|e]; simpl; [|done]. intros [= Hp]. apply negb_true_iff, existsb_false in Hp.
  assert (h1 `suffix_of` h3) as S13.
  { etrans; [|exact S3]. etrans; [|do 2 apply suffix_cons_r; exact S2]. by apply suffix_cons_r. }
  split.
  - intros name Hn Hne. eapply in_order_skip, Hsts; [|done]. simpl. by apply H2.
  - exists children, workloads, names, pods, h3. split_and!; [done|done|..].
    + intros pod Hin Hc. rewrite Forall_forall in Hp. specialize (Hp pod Hin).
      apply orb_false_iff in Hc as [C1 C2]. rewrite C1, C2 in Hp. by apply orb_false_iff.
    + intros uid Hu. destruct (H1 uid Hu) as (l & child & Hl & Hr). exists l, child. split; [|done].
      right. by eapply elem_of_suffix.
    + intros uid Hu. destruct (classified_workloads _ _ _ _ Ej uid Hu) as (job & Hj). exists jobs, job. split; [|done].
      right. eapply elem_of_suffix; [|exact S3]. right. by left.
Qed.

(** C10: finalising a root issues no request but reads, updates of StatefulSets it was shown
    to control that scale them to zero or retain their claims, and deletes by the UID of
    an object it was shown to control: of a Pod; of a Job with no pod named after it but
    its own; and of a StatefulSet that was seen to retain its claims (or absent) before it
    was read, after which it was seen scaled to zero, or absent, and then no signer pod of
    it was listed, or it was seen with the controller gone.  It reports completion only
    after every signer the root names was seen absent and then a listing of the namespace
    showed no signer pod of the root or of those signers, except pods controlled by a
    ChainNode that was listed as a child of the root or by a Job that was listed as
    controlled by such a child. *)
Theorem FinalizeConsensusKeySigningPaths_spec h :
  spec permitted h (FinalizeConsensusKeySigningPaths owner namespace) (λ h' r,
    r = Ok true → root_gone h').
Proof. apply FinalizeConsensusKeySigningPaths_gone. Qed.

(** C9: cleaning up an exact path only issues permitted requests, and is done
    only after each StatefulSet, Job and Pod of the path was seen absent through
    the uncached reader, with no pod of a StatefulSet or Job left in a listing
    made after it was gone. *)
Theorem CleanupManagedSigningPath_spec path h :
  spec permitted h (CleanupManagedSigningPath owner namespace path) (λ h' r,
    ∀ c, r = Ok c → cr_Done c = true → path_gone path h').
Proof. apply CleanupManagedSigningPath_gone. Qed.
End safety.
