(* ===== verification/ResourceCleanup.v ===== *)
(** * Durable resources of a deleted root ([internal/resourcecleanup/cleanup.go], [root_protection.go])

    Volumes, generated keys and raft state outlive the objects that made them.
    Each carries annotations naming the root and its class; when the root is
    deleted, [FinalizeClass] deletes or releases the resources of one class by
    those annotations alone. *)

From S2P Require Import Prelude IO ThirdParty ApiTypes KubeApi SigningPaths.

Definition Finalizer : string := "cosmopilot.voluzi.com/resource-cleanup".
Definition AnnotationRootOwnerAPIVersion : string := "cosmopilot.voluzi.com/root-owner-api-version".
Definition AnnotationRootOwnerKind : string := "cosmopilot.voluzi.com/root-owner-kind".
Definition AnnotationRootOwnerName : string := "cosmopilot.voluzi.com/root-owner-name".
Definition AnnotationRootOwnerNamespace : string := "cosmopilot.voluzi.com/root-owner-namespace".
Definition AnnotationRootOwnerUID : string := "cosmopilot.voluzi.com/root-owner-uid".
Definition AnnotationResourceClass : string := "cosmopilot.voluzi.com/resource-class".
Definition AnnotationResourceOwnerUID : string := "cosmopilot.voluzi.com/resource-owner-uid".

(** [appsv1.GroupVersion.String()] *)
Definition GroupVersion : string := "cosmopilot.voluzi.com/v1".

Inductive ResourceClass := ClassDataVolumes | ClassGeneratedKeys | ClassCosmosignerState.
#[export] Instance ResourceClass_eq_dec : EqDecision ResourceClass.
Proof. solve_decision. Defined.
Definition class_string (c : ResourceClass) : string :=
  match c with
  | ClassDataVolumes => "dataVolumes"
  | ClassGeneratedKeys => "generatedKeys"
  | ClassCosmosignerState => "cosmosignerState"
  end.

Definition DeletionPolicyRetain : string := "Retain".
Definition DeletionPolicyDelete : string := "Delete".

Definition policy_or_retain (p : option DeletionPolicy) (f : DeletionPolicy → option string) : string :=
  default DeletionPolicyRetain (p ≫= f).
Definition GetDataVolumes (p : option DeletionPolicy) : string := policy_or_retain p dp_DataVolumes.
Definition GetGeneratedKeys (p : option DeletionPolicy) : string := policy_or_retain p dp_GeneratedKeys.
Definition GetCosmosignerState (p : option DeletionPolicy) : string := policy_or_retain p dp_CosmosignerState.

Definition DeletionPolicy_Validate (p : option DeletionPolicy) (path : string) : result () :=
  match p with
  | None => Ok ()
  | Some p =>
      for_each (λ '(name, value),
        match value with
        | Some v => guard_err ((v != DeletionPolicyRetain) && (v != DeletionPolicyDelete))
                      (Errorf "%s.%s must be Retain or Delete" [AStr path; AStr name])
        | None => Ok ()
        end)
        [("dataVolumes", dp_DataVolumes p); ("generatedKeys", dp_GeneratedKeys p);
         ("cosmosignerState", dp_CosmosignerState p)]
  end.

Definition mnemonicSecretDataKey : string := "mnemonic".
Definition consensusSecretDataKey : string := "priv_validator_key.json".

Definition IsLegacyGeneratedKeySecret (secret : Secret) (knownNames : list string) : bool :=
  existsb (λ name, meta_Name (secret_meta secret) == name) knownNames ||
  is_some (secret_Data secret !! mnemonicSecretDataKey) || is_some (secret_Data secret !! consensusSecretDataKey).

(** ** Attribution *)

Record RootOwner := mkRoot {
  ro_APIVersion : string;
  ro_Kind : string;
  ro_Name : string;
  ro_Namespace : string;
  ro_UID : string;
}.
#[export] Instance RootOwner_eq_dec : EqDecision RootOwner.
Proof. solve_decision. Defined.

Definition with_references (m : ObjectMeta) (l : list OwnerReference) : ObjectMeta :=
  mkMeta (meta_Name m) (meta_Namespace m) (meta_UID m) (meta_Labels m) (meta_Annotations m) l
    (meta_Finalizers m) (meta_DeletionTimestamp m) (meta_CreationTimestamp m) (meta_ResourceVersion m).

Definition root_annotations (root : RootOwner) (class : ResourceClass) : list (string * string) :=
  [(AnnotationRootOwnerAPIVersion, ro_APIVersion root);
   (AnnotationRootOwnerKind, ro_Kind root);
   (AnnotationRootOwnerName, ro_Name root);
   (AnnotationRootOwnerNamespace, ro_Namespace root);
   (AnnotationRootOwnerUID, ro_UID root);
   (AnnotationResourceClass, class_string class)].

Definition stamp_one (st : ObjectMeta * bool) (kv : string * string) : ObjectMeta * bool :=
  if annotation st.1 kv.1 != kv.2 then (set_annotation st.1 kv.1 kv.2, true) else st.

(** The stamped metadata and whether it changed. *)
Definition Stamp (m : ObjectMeta) (root : RootOwner) (class : ResourceClass) : ObjectMeta * bool :=
  foldl stamp_one (m, false) (root_annotations root class).

Definition StampResourceOwner (m : ObjectMeta) (ownerUID : string) : ObjectMeta * bool :=
  if annotation m AnnotationResourceOwnerUID == ownerUID then (m, false)
  else (set_annotation m AnnotationResourceOwnerUID ownerUID, true).

Definition IsAttributed (m : ObjectMeta) (root : RootOwner) (class : ResourceClass) : bool :=
  (annotation m AnnotationRootOwnerAPIVersion == ro_APIVersion root) &&
  (annotation m AnnotationRootOwnerKind == ro_Kind root) &&
  (annotation m AnnotationRootOwnerName == ro_Name root) &&
  (annotation m AnnotationRootOwnerNamespace == ro_Namespace root) &&
  (annotation m AnnotationRootOwnerUID == ro_UID root) &&
  (annotation m AnnotationResourceClass == class_string class).

Definition is_controller_reference (uid : string) (r : OwnerReference) : bool :=
  (or_UID r == uid) && (or_Controller r == Some true).

Definition removeMatchingControllerReference (m : ObjectMeta) (uid : string) : ObjectMeta * bool :=
  if existsb (is_controller_reference uid) (meta_OwnerReferences m) then
    (with_references m (filter (λ r, is_controller_reference uid r = false) (meta_OwnerReferences m)), true)
  else (m, false).

(** A durable object: the kinds [FinalizeClass] handles. *)
Inductive Durable :=
  | DurablePVC (p : PersistentVolumeClaim)
  | DurableSecret (s : Secret).
Definition durable_meta (d : Durable) : ObjectMeta :=
  match d with DurablePVC p => pvc_meta p | DurableSecret s => secret_meta s end.
Definition with_pvc_meta (p : PersistentVolumeClaim) (m : ObjectMeta) : PersistentVolumeClaim :=
  mkPVC m (pvc_StorageClassName p) (pvc_StorageRequest p) (pvc_VolumeName p) (pvc_Phase p).
Definition with_durable_meta (d : Durable) (m : ObjectMeta) : Durable :=
  match d with
  | DurablePVC p => DurablePVC (with_pvc_meta p m)
  | DurableSecret s => DurableSecret (mkSecret m (secret_Immutable s) (secret_Data s))
  end.

Definition update_durable (d : Durable) : kube (result ()) :=
  match d with
  | DurablePVC p => call (UpdatePVC p) ;? return_result ()
  | DurableSecret s => call (UpdateSecret s)
  end.
Definition delete_durable (d : Durable) : kube (result ()) :=
  let m := durable_meta d in
  match d with
  | DurablePVC _ => call (DeletePVC (meta_Namespace m) (meta_Name m) (meta_UID m))
  | DurableSecret _ => call (DeleteSecret (meta_Namespace m) (meta_Name m) (meta_UID m))
  end.
Definition get_durable (d : Durable) : kube (result ()) :=
  let m := durable_meta d in
  match d with
  | DurablePVC _ => call (GetPVC Cached (meta_Namespace m) (meta_Name m)) ;? return_result ()
  | DurableSecret _ => call (GetSecret Cached (meta_Namespace m) (meta_Name m)) ;? return_result ()
  end.

Section cleanup.
Context `{MetaApi}.

Definition RootOwnerFor (owner : Owner) : RootOwner :=
  let own kind := mkRoot GroupVersion kind (owner_Name owner) (owner_Namespace owner) (owner_UID owner) in
  match owner with
  | OwnerChainNode node =>
      match GetControllerOf (cn_meta node) with
      | Some c =>
          if (or_APIVersion c == GroupVersion) && (or_Kind c == "ChainNodeSet") then
            mkRoot (or_APIVersion c) (or_Kind c) (or_Name c) (owner_Namespace owner) (or_UID c)
          else own "ChainNode"
      | None => own "ChainNode"
      end
  | _ => own "ChainNodeSet"
  end.

(** [managed], the metadata and [changed]; the error result is always nil. *)
Definition PrepareGeneratedResource (m : ObjectMeta) (controller : Owner) (class : ResourceClass) (creating : bool) :
    bool * (ObjectMeta * bool) :=
  let root := RootOwnerFor controller in
  if creating || IsAttributed m root class || IsControlledBy m (owner_meta controller) then
    let '(m, stamped) := Stamp m root class in
    let '(m, owned) := StampResourceOwner m (owner_UID controller) in
    let '(m, released) := removeMatchingControllerReference m (owner_UID controller) in
    (true, (m, stamped || owned || released))
  else (false, (m, false)).

(** ** Finalisation of one class *)

Definition remove_finalizer (st : ObjectMeta * bool) (f : string) : ObjectMeta * bool :=
  if ContainsFinalizer st.1 f then (RemoveFinalizer st.1 f, true) else st.
Definition remove_finalizers (m : ObjectMeta) (l : list string) : ObjectMeta * bool := foldl remove_finalizer (m, false) l.

Definition listAttributed (root : RootOwner) (class : ResourceClass) : kube (result (list Durable)) :=
  match class with
  | ClassGeneratedKeys =>
      l ←? call (ListSecrets Cached (ro_Namespace root));
      return_result (map DurableSecret (filter (λ s, IsAttributed (secret_meta s) root class = true) l))
  | _ =>
      l ←? call (ListPVCs Cached (ro_Namespace root));
      return_result (map DurablePVC (filter (λ p, IsAttributed (pvc_meta p) root class = true) l))
  end.

Definition deleteExact (d : Durable) : kube (result bool) :=
  let confirm := confirm_absent (get_durable d) (return_result false) (return_result true) in
  match meta_DeletionTimestamp (durable_meta d) with
  | None => ignoring_not_found (delete_durable d) confirm
  | Some _ => confirm
  end.

(** Whether this controller handles the object. *)
Definition handles (root : RootOwner) (controllerUID : string) (m : ObjectMeta) : bool :=
  (controllerUID == ro_UID root) || (annotation m AnnotationResourceOwnerUID == controllerUID).

Definition finalize_object (policy controllerUID : string) (ownedFinalizers : list string) (d : Durable) :
    kube (result bool) :=
  if policy == DeletionPolicyDelete then
    let '(m, removed) := remove_finalizers (durable_meta d) ownedFinalizers in
    if removed then ignoring_not_found (update_durable (with_durable_meta d m)) (return_result false)
    else deleteExact d
  else
    let '(m, released) := removeMatchingControllerReference (durable_meta d) controllerUID in
    let '(m, removed) := remove_finalizers m ownedFinalizers in
    if released || removed then ignoring_not_found (update_durable (with_durable_meta d m)) (return_result true)
    else return_result true.

(** The loop: are all objects so far done? *)
Fixpoint finalize_objects (root : RootOwner) (policy controllerUID : string) (ownedFinalizers : list string)
    (allDone : bool) (l : list Durable) : kube (result bool) :=
  match l with
  | [] => return_result allDone
  | d :: l =>
      if negb (handles root controllerUID (durable_meta d)) then
        finalize_objects root policy controllerUID ownedFinalizers allDone l
      else
        done ←? finalize_object policy controllerUID ownedFinalizers d;
        finalize_objects root policy controllerUID ownedFinalizers (allDone && done) l
  end.

Definition FinalizeClass (root : RootOwner) (class : ResourceClass) (policy controllerUID : string)
    (ownedFinalizers : list string) : kube (result bool) :=
  objects ←? listAttributed root class;
  finalize_objects root policy controllerUID ownedFinalizers true objects.
End cleanup.

(** ** Attribution is exact *)

Lemma stamp_one_annotation m b k v k' :
  annotation (stamp_one (m, b) (k, v)).1 k' = if decide (k = k') then v else annotation m k'.
Proof.
  unfold stamp_one. simpl. destruct (annotation m k == v) eqn:E; to_prop; simpl.
  - case_decide; congruence.
  - case_decide; [subst; apply annotation_set|by apply annotation_set_ne].
Qed.

Lemma stamp_annotations l m b k v :
  NoDup l.*1 → (k, v) ∈ l → annotation (foldl stamp_one (m, b) l).1 k = v.
Proof.
  induction l as [|[k1 v1] l IH] using rev_ind; [by intros _ ?%elem_of_nil|].
  rewrite foldl_snoc, fmap_app, NoDup_app. intros (Hd & Hk & _) Hin.
  destruct (foldl stamp_one (m, b) l) as [m1 b1] eqn:E. rewrite stamp_one_annotation. simpl in *.
  apply elem_of_app in Hin as [Hin|[= -> ->]%list_elem_of_singleton]; [|by rewrite decide_True].
  rewrite decide_False; [by apply IH|]. intros ->. apply (Hk k); [|by left].
  apply list_elem_of_fmap. by exists (k, v).
Qed.

Lemma root_annotations_NoDup root class : NoDup (root_annotations root class).*1.
Proof. apply (bool_decide_unpack _). vm_compute. done. Qed.

(** A stamped object is attributed to exactly the root and class it was stamped
    with. *)
Lemma Stamp_attributed m root class : IsAttributed (Stamp m root class).1 root class = true.
Proof.
  assert (∀ k v, (k, v) ∈ root_annotations root class → annotation (Stamp m root class).1 k = v) as Ha.
  { intros k v. apply stamp_annotations, root_annotations_NoDup. }
  unfold IsAttributed. rewrite !andb_true_iff, !bool_decide_eq_true. unfold root_annotations in Ha.
  split_and!; apply Ha; repeat first [apply list_elem_of_here|apply list_elem_of_further].
Qed.

Lemma IsAttributed_unique m root class root' class' :
  IsAttributed m root class = true → IsAttributed m root' class' = true → root' = root ∧ class' = class.
Proof.
  unfold IsAttributed. intros E1 E2. to_prop. destruct root, root'. simpl in *. split; [congruence|].
  assert (class_string class' = class_string class) by congruence. by destruct class, class'.
Qed.

Lemma stamp_one_changed m b k v : (stamp_one (m, b) (k, v)).2 = false → b = false ∧ (stamp_one (m, b) (k, v)).1 = m.
Proof. unfold stamp_one. simpl. by destruct (_ == v). Qed.

(** [Stamp] reports no change exactly when the metadata is returned untouched. *)
Lemma Stamp_unchanged m root class : (Stamp m root class).2 = false → (Stamp m root class).1 = m.
Proof.
  unfold Stamp. generalize (root_annotations root class). intros l.
  enough (∀ b, (foldl stamp_one (m, b) l).2 = false → b = false ∧ (foldl stamp_one (m, b) l).1 = m) by naive_solver.
  induction l as [|[k v] l IH] using rev_ind; intros b; [done|]. rewrite foldl_snoc.
  destruct (foldl stamp_one (m, b) l) as [m1 b1] eqn:E. intros [-> ->]%stamp_one_changed.
  specialize (IH b). rewrite E in IH. by apply IH.
Qed.

(** ** What a finalisation promises *)

Section promises.
Context `{MetaApi}.
Variables (root : RootOwner) (class : ResourceClass) (policy controllerUID : string) (ownedFinalizers : list string).

(** The durables of one listing that this controller has to finalise. *)
Definition selected (ev : kevent) (d : Durable) : Prop :=
  IsAttributed (durable_meta d) root class = true ∧ handles root controllerUID (durable_meta d) = true ∧
  match d with
  | DurablePVC p => class ≠ ClassGeneratedKeys ∧ ∃ l, ev = Ev (ListPVCs Cached (ro_Namespace root)) (Ok l) ∧ p ∈ l
  | DurableSecret s => class = ClassGeneratedKeys ∧ ∃ l, ev = Ev (ListSecrets Cached (ro_Namespace root)) (Ok l) ∧ s ∈ l
  end.

Definition absent_event (d : Durable) : kevent :=
  let m := durable_meta d in
  match d with
  | DurablePVC _ => Ev (GetPVC Cached (meta_Namespace m) (meta_Name m)) (Err (ApiError ReasonNotFound))
  | DurableSecret _ => Ev (GetSecret Cached (meta_Namespace m) (meta_Name m)) (Err (ApiError ReasonNotFound))
  end.

(** The object without what keeps it from being collected: its finalizers, and
    when it is retained also the reference to this controller. *)
Definition released (d : Durable) : ObjectMeta * bool :=
  if policy == DeletionPolicyDelete then remove_finalizers (durable_meta d) ownedFinalizers
  else
    let '(m, b) := removeMatchingControllerReference (durable_meta d) controllerUID in
    let '(m, b') := remove_finalizers m ownedFinalizers in (m, b || b').
Definition released_durable (d : Durable) : Durable := with_durable_meta d (released d).1.

(** The write of [d] succeeded, or found it gone. *)
Definition written (d : Durable) (ev : kevent) : Prop :=
  match d with
  | DurablePVC p => ev = Ev (UpdatePVC p) (Err (ApiError ReasonNotFound)) ∨ ∃ p', ev = Ev (UpdatePVC p) (Ok p')
  | DurableSecret s => ev = Ev (UpdateSecret s) (Err (ApiError ReasonNotFound)) ∨ ev = Ev (UpdateSecret s) (Ok ())
  end.

(** Deleted objects were seen absent; retained ones are released. *)
Definition settled (d : Durable) (h : list kevent) : Prop :=
  if policy == DeletionPolicyDelete then absent_event d ∈ h
  else (released d).2 = false ∨ ∃ ev, ev ∈ h ∧ written (released_durable d) ev.

Definition known (h : list kevent) (d : Durable) : Prop := ∃ ev, ev ∈ h ∧ selected ev d.

Definition class_permitted (h : list kevent) (r : request) : Prop :=
  match r with
  | ListPVCs Cached ns | ListSecrets Cached ns => ns = ro_Namespace root
  | GetPVC Cached _ _ | GetSecret Cached _ _ => True
  | UpdatePVC p' => ∃ d, known h d ∧ DurablePVC p' = released_durable d ∧ (released d).2 = true
  | UpdateSecret s' => ∃ d, known h d ∧ DurableSecret s' = released_durable d ∧ (released d).2 = true
  | DeletePVC ns n uid | DeleteSecret ns n uid => policy = DeletionPolicyDelete ∧ ∃ d, known h d ∧
      ns = meta_Namespace (durable_meta d) ∧ n = meta_Name (durable_meta d) ∧ uid = meta_UID (durable_meta d) ∧
      (released d).2 = false
  | _ => False
  end.

Lemma known_suffix h h' d : h `suffix_of` h' → known h d → known h' d.
Proof. intros Hs (ev & Hin & Hd). exists ev. split; [by eapply elem_of_suffix|done]. Qed.

(** A write that ignores absence. *)
Lemma update_durable_spec {B} d (k : kube (result B)) h Q :
  known h d → (released d).2 = true →
  (∀ ev, written (released_durable d) ev → spec class_permitted (ev :: h) k Q) →
  (∀ ev e, Q (ev :: h) (Err e)) →
  spec class_permitted h (ignoring_not_found (update_durable (released_durable d)) k) Q.
Proof.
  intros Hk Hc Hw HQ. unfold ignoring_not_found. rewrite spec_mbind.
  destruct (released_durable d) as [p|s] eqn:Ed; simpl; (split; [by exists d|]).
  - intros [p'|e]; simpl; [apply Hw; right; by exists p'|].
    destruct (IsNotFound e) eqn:En; simpl; [|apply HQ]. unfold IsNotFound in En. to_prop. subst. apply Hw. by left.
  - intros [[]|e]; simpl; [apply Hw; by right|].
    destruct (IsNotFound e) eqn:En; simpl; [|apply HQ]. unfold IsNotFound in En. to_prop. subst. apply Hw. by left.
Qed.

Lemma deleteExact_spec d h :
  known h d → policy = DeletionPolicyDelete → (released d).2 = false →
  spec class_permitted h (deleteExact d) (λ h' r, ∃ k, h' = k ++ h ∧ (r = Ok true → absent_event d ∈ k)).
Proof.
  intros Hd Hp Hr.
  assert (∀ k0, spec class_permitted (k0 ++ h) (confirm_absent (get_durable d) (return_result false) (return_result true))
    (λ h' r, ∃ k, h' = k ++ h ∧ (r = Ok true → absent_event d ∈ k))) as Hc.
  { intros k0. unfold confirm_absent. destruct d as [p|s]; simpl; (split; [done|]); intros [x|e]; simpl;
      try (by eexists (_ :: k0)); (destruct (IsNotFound e) eqn:En; simpl; [|by eexists (_ :: k0)]);
      unfold IsNotFound in En; to_prop; subst; eexists (_ :: k0); (split; [done|]); intros _; by left. }
  unfold deleteExact, ignoring_not_found. destruct (meta_DeletionTimestamp _); [apply (Hc [])|].
  rewrite spec_mbind. destruct d as [p|s]; simpl; (split; [split; [done|]; eexists; split_and!; [exact Hd|done..]|]);
    (intros [[]|e]; [by apply (Hc [_])|]); (destruct (IsNotFound e); [by apply (Hc [_])|]); by eexists [_].
Qed.

Lemma finalize_object_spec d h :
  known h d →
  spec class_permitted h (finalize_object policy controllerUID ownedFinalizers d) (λ h' r,
    ∃ k, h' = k ++ h ∧ (r = Ok true → settled d k)).
Proof.
  intros Hd. unfold finalize_object, settled.
  destruct (policy == DeletionPolicyDelete) eqn:Ep.
  - assert (released d = remove_finalizers (durable_meta d) ownedFinalizers) as Er by (unfold released; by rewrite Ep).
    destruct (remove_finalizers _ _) as [m []] eqn:Em.
    + replace (with_durable_meta d m) with (released_durable d) by (unfold released_durable; by rewrite Er).
      apply (update_durable_spec d); [done|by rewrite Er| |]; simpl; [by intros ev _; eexists [_]|by intros ev e; eexists [_]].
    + apply deleteExact_spec; [done|by to_prop|by rewrite Er].
  - assert (released d = let '(m, b) := removeMatchingControllerReference (durable_meta d) controllerUID in
      let '(m, b') := remove_finalizers m ownedFinalizers in (m, b || b')) as Er by (unfold released; by rewrite Ep).
    destruct (removeMatchingControllerReference _ _) as [m b]. destruct (remove_finalizers m _) as [m' b'].
    destruct (b || b') eqn:Eb.
    + replace (with_durable_meta d m') with (released_durable d) by (unfold released_durable; by rewrite Er).
      apply update_durable_spec; [done|by rewrite Er| |by intros ev e; eexists [_]].
      intros ev Hev. simpl. eexists [_]. split; [done|]. intros _. right. exists ev. split; [by left|done].
    + simpl. exists []. split; [done|]. intros _. left. by rewrite Er.
Qed.
#[local] Opaque finalize_object.

Lemma settled_app d k1 k2 : settled d k2 → settled d (k1 ++ k2).
Proof.
  unfold settled. destruct (_ == _).
  - intros Hd. apply elem_of_app. by right.
  - intros [Hd|(ev & Hin & Hw)]; [by left|]. right. exists ev. split; [apply elem_of_app; by right|done].
Qed.

Lemma finalize_objects_spec allDone l h :
  (∀ d, d ∈ l → handles root controllerUID (durable_meta d) = true → known h d) →
  spec class_permitted h (finalize_objects root policy controllerUID ownedFinalizers allDone l) (λ h' r,
    ∃ k, h' = k ++ h ∧ (r = Ok true → allDone = true ∧
      ∀ d, d ∈ l → handles root controllerUID (durable_meta d) = true → settled d k)).
Proof.
  revert allDone h. induction l as [|d l IH]; intros allDone h Hl; simpl.
  { exists []. split; [done|]. intros [= ->]. split; [done|]. intros d Hd. by apply elem_of_nil in Hd. }
  destruct (handles root controllerUID (durable_meta d)) eqn:Eh; simpl.
  2:{ eapply spec_conseq; [apply IH; intros d' Hd'; apply Hl; by right|]. intros h' r _ (k & -> & Hr). exists k.
      split; [done|]. intros [? Hd]%Hr. split; [done|]. intros d' [->|Hd']%elem_of_cons; [congruence|auto]. }
  rewrite spec_try. eapply spec_conseq; [apply finalize_object_spec; apply Hl; [by left|done]|].
  intros h1 [done1|e] _ (k1 & -> & H1); [|by exists k1].
  eapply spec_conseq; [apply IH|].
  { intros d' Hd' Ed'. eapply known_suffix; [by exists k1|]. apply Hl; [by right|done]. }
  intros h2 r _ (k2 & -> & Hr). exists (k2 ++ k1). rewrite <- app_assoc. split; [done|].
  intros [[-> ->]%andb_true_iff Hd]%Hr. split; [done|]. intros d' [->|Hd']%elem_of_cons Ed'.
  - apply settled_app. by apply H1.
  - specialize (Hd d' Hd' Ed'). clear -Hd. revert Hd. unfold settled. destruct (_ == _).
    + intros Hd. apply elem_of_app. by left.
    + intros [Hd|(ev & Hin & Hw)]; [by left|]. right. exists ev. split; [apply elem_of_app; by left|done].
Qed.
#[local] Opaque finalize_objects.

(** The listing a pass is based on. *)
Definition class_listing (ev : kevent) : Prop :=
  if class == ClassGeneratedKeys then ∃ l, ev = Ev (ListSecrets Cached (ro_Namespace root)) (Ok l)
  else ∃ l, ev = Ev (ListPVCs Cached (ro_Namespace root)) (Ok l).

(** The objects [listAttributed] returned are those of one listing. *)
Lemma listAttributed_spec h :
  spec class_permitted h (listAttributed root class) (λ h' r,
    ∀ objects, r = Ok objects → ∃ ev, h' = ev :: h ∧ class_listing ev ∧
      (∀ d, d ∈ objects → handles root controllerUID (durable_meta d) = true → selected ev d) ∧
      (∀ d, selected ev d → d ∈ objects)).
Proof.
  assert (class ≠ ClassGeneratedKeys → spec class_permitted h
    (l ←? call (ListPVCs Cached (ro_Namespace root));
     return_result (map DurablePVC (filter (λ p, IsAttributed (pvc_meta p) root class = true) l))) (λ h' r,
    ∀ objects, r = Ok objects → ∃ ev, h' = ev :: h ∧ class_listing ev ∧
      (∀ d, d ∈ objects → handles root controllerUID (durable_meta d) = true → selected ev d) ∧
      (∀ d, selected ev d → d ∈ objects))) as Hpvc.
  { intros Hc. simpl. split; [done|]. intros [l|e]; simpl; [|done]. intros objects [= <-]. eexists. split; [done|].
    split; [unfold class_listing; rewrite bool_decide_eq_false_2 by done; by exists l|]. split.
    - intros d (p & -> & [Ha Hp]%list_elem_of_filter)%list_elem_of_fmap Hh. split_and!; [done|done|done|by exists l].
    - intros [p|s] (Ha & Hh & Hcl & l' & E & Hp); [|done]. apply list_elem_of_fmap. exists p. split; [done|].
      apply list_elem_of_filter. split; [done|]. apply (f_equal pvcs_answer) in E. by injection E as ->. }
  unfold listAttributed. destruct class eqn:Ec; [by apply Hpvc| |by apply Hpvc]. simpl. split; [done|].
  intros [l|e]; simpl; [|done]. intros objects [= <-]. eexists. split; [done|].
  split; [unfold class_listing; rewrite bool_decide_eq_true_2 by done; by exists l|]. split.
  - intros d (p & -> & [Ha Hp]%list_elem_of_filter)%list_elem_of_fmap Hh. split_and!; [by rewrite Ec|done|done|by exists l].
  - intros [p|s] (Ha & Hh & Hcl & l' & E & Hp); [done|]. apply list_elem_of_fmap. exists s. split; [done|].
    apply list_elem_of_filter. rewrite Ec in Ha. split; [done|]. apply (f_equal secrets_answer) in E. by injection E as ->.
Qed.
#[local] Opaque listAttributed.

Lemma FinalizeClass_settles h :
  spec class_permitted h (FinalizeClass root class policy controllerUID ownedFinalizers) (λ h' r,
    r = Ok true → ∃ k ev, h' = k ++ ev :: h ∧ class_listing ev ∧ ∀ d, selected ev d → settled d k).
Proof.
  unfold FinalizeClass. rewrite spec_try. eapply spec_conseq; [apply listAttributed_spec|].
  intros h1 [objects|e] _ H1; [|done]. destruct (H1 objects eq_refl) as (ev & -> & Hev & Hsel & Hobj).
  eapply spec_conseq; [apply finalize_objects_spec|].
  { intros d Hd Hh. exists ev. split; [by left|auto]. }
  intros h2 r _ (k & -> & Hr) Hok. exists k, ev. split_and!; [done|done|]. intros d Hd.
  apply Hr; [done|by apply Hobj|]. by destruct Hd as (_ & ? & _).
Qed.
End promises.

(** ** Properties *)

(** C29: whatever the API server answers, finalising one class writes and deletes
    only objects listed with exactly that root and class (and this controller's
    UID, for a child); an object is deleted only under the Delete policy, by its UID
    and free of the operator's finalizers, and a write removes nothing but those
    finalizers and, when retained, the reference to this controller; it is done
    only when every selected object of its listing was since seen absent, or is
    released from both. *)
Theorem FinalizeClass_spec `{MetaApi} root class policy controllerUID ownedFinalizers h :
  spec (class_permitted root class policy controllerUID ownedFinalizers) h
    (FinalizeClass root class policy controllerUID ownedFinalizers) (λ h' r,
    r = Ok true → ∃ k ev, h' = k ++ ev :: h ∧ class_listing root class ev ∧
      ∀ d, selected root class controllerUID ev d → settled policy controllerUID ownedFinalizers d k).
Proof. apply FinalizeClass_settles. Qed.
