(* ===== verification/GenesisFingerprint.v ===== *)
(** * The fingerprint of a genesis validator ([api/v1/chainnodeset_webhook.go],
    [chainnode_webhook.go])

    What an established chain fixes of a validator that initialized its
    genesis: the signing material, and the configuration the genesis was built
    from. *)

From stdpp Require Import countable.
From S2P Require Import Prelude GoLib ThirdParty ApiTypes DerivedNames CosmosignerSpec SignerResolve Getters.

(** ** [encoding/json] on the configuration *)

(** [json.Marshal] of the two blocks; it does not fail on them. *)
Class GenesisJson := {
  MarshalInit : GenesisInitConfig → string;
  MarshalInfo : ValidatorInfo → string;
}.

(** A document is not empty, control characters of its strings are escaped, and two blocks whose strings are valid UTF-8, as
    those read from the API server, have different documents. *)
Class GenesisJsonLaws `{GenesisJson} := {
  MarshalInit_not_empty i : MarshalInit i ≠ "";
  MarshalInit_no_nul i : no_nul (MarshalInit i);
  MarshalInfo_no_nul i : no_nul (MarshalInfo i);
  MarshalInit_inj i j : MarshalInit i = MarshalInit j → i = j;
  MarshalInfo_inj i j : MarshalInfo i = MarshalInfo j → i = j;
}.

Section fingerprint.
Context `{GenesisJson}.

(** The copy with the deprecated account fields cleared. *)
Definition clear_account_fields (i : GenesisInitConfig) : GenesisInitConfig :=
  mkGenesisInit (gn_ChainID i) (gn_AccountMnemonicSecret i) None None None (gn_CommissionMaxChangeRate i)
    (gn_CommissionMaxRate i) (gn_CommissionRate i) (gn_MinSelfDelegation i) (gn_Assets i) (gn_StakeAmount i)
    (gn_Accounts i) (gn_ChainNodeAccounts i) (gn_UnbondingTime i) (gn_VotingPeriod i) (gn_ExpeditedVotingPeriod i)
    (gn_AdditionalInitCommands i) (gn_GenesisValidators i).

Definition genesisConfigurationFingerprint (init : option GenesisInitConfig) (info : option ValidatorInfo)
    (accountPrefix valPrefix accountHDPath : string) : string :=
  let initJSON := match init with Some i => MarshalInit (clear_account_fields i) | None => "" end in
  let infoJSON := match info with Some i => MarshalInfo i | None => "" end in
  strings_Join [accountPrefix; valPrefix; accountHDPath; infoJSON; initJSON] nul.

Definition genesisSigningFingerprint (privateKeySecret : option string) (tmKMS : option TmKMS)
    (init : option GenesisInitConfig) (info : option ValidatorInfo)
    (accountPrefix valPrefix accountHDPath defaultPrivKeySecret : string) : string :=
  strings_Join
    [default defaultPrivKeySecret privateKeySecret; default "" (tmKMSSigningKeyIdentity tmKMS);
     genesisConfigurationFingerprint init info accountPrefix valPrefix accountHDPath] nul.

(** *** Of a validator of a set *)

Definition nv_configuration (v : NodeSetValidatorConfig) : string :=
  genesisConfigurationFingerprint (nv_Init v) (nv_Info v) (nv_GetAccountPrefix (Some v)) (nv_GetValPrefix (Some v))
    (nv_GetAccountHDPath (Some v)).

Definition nv_GenesisSigningFingerprint (v : option NodeSetValidatorConfig) (defaultPrivKeySecret : string) : string :=
  match v with
  | None => genesisSigningFingerprint None None None None "" "" "" defaultPrivKeySecret
  | Some c =>
      genesisSigningFingerprint (nv_PrivateKeySecret c) (nv_TmKMS c) (nv_Init c) (nv_Info c)
        (nv_GetAccountPrefix v) (nv_GetValPrefix v) (nv_GetAccountHDPath v) defaultPrivKeySecret
  end.

Definition genesisSigningMaterialChanged (oldVal newVal : option NodeSetValidatorConfig) (defaultPrivKeySecret : string) : bool :=
  nv_GenesisSigningFingerprint oldVal defaultPrivKeySecret != nv_GenesisSigningFingerprint newVal defaultPrivKeySecret.

Definition GenesisDigestExternal : string := "external".

Definition nodeset_GenesisSigningDigestAllowsRefresh (nodeSet : ChainNodeSet) (group : string)
    (cfg : option NodeSetValidatorConfig) (recorded : string) : bool :=
  match cfg with
  | None => false
  | Some v =>
      if (recorded == "") || (recorded == GenesisDigestExternal) then false else
      let managed :=
        is_some (groupCosmosigner nodeSet group) ||
        existsb (λ st, (st_ServingGroup st == group) && (st_AppliedDigest st != "") && (st_PublicKey st != "")) (statuses nodeSet) in
      managed && has_suffix recorded (nul +:+ nv_configuration v)
  end.

(** *** Of a standalone node *)

Definition vc_configuration (v : ValidatorConfig) : string :=
  genesisConfigurationFingerprint (vc_Init v) (vc_Info v) (vc_GetAccountPrefix (Some v)) (vc_GetValPrefix (Some v))
    (vc_GetAccountHDPath (Some v)).

Definition vc_GenesisSigningFingerprint (v : option ValidatorConfig) (defaultPrivKeySecret : string) : string :=
  match v with
  | None => genesisSigningFingerprint None None None None "" "" "" defaultPrivKeySecret
  | Some c =>
      genesisSigningFingerprint (vc_PrivateKeySecret c) (vc_TmKMS c) (vc_Init c) (vc_Info c)
        (vc_GetAccountPrefix v) (vc_GetValPrefix v) (vc_GetAccountHDPath v) defaultPrivKeySecret
  end.

Definition chainnode_GenesisSigningDigestAllowsRefresh (n : ChainNode) (recorded : string) : bool :=
  match ns_Validator (cn_Spec n) with
  | None => false
  | Some v =>
      if (recorded == "") || (recorded == GenesisDigestExternal) then false
      else if negb (is_some (ns_Cosmosigner (cn_Spec n))) && (css_AppliedDigest (nst_Cosmosigner (cn_Status n)) == "") then false
      else has_suffix recorded (nul +:+ vc_configuration v)
  end.
End fingerprint.

(** ** What the fingerprint determines *)

Lemma no_nul_middle a b : ¬ no_nul (a +:+ nul +:+ b).
Proof. unfold no_nul. rewrite !string_forallb_app. simpl. by rewrite andb_false_r. Qed.

(** The last separator splits a text in one way. *)
Lemma nul_sep_inj_r a b x y : no_nul x → no_nul y → a +:+ nul +:+ x = b +:+ nul +:+ y → a = b ∧ x = y.
Proof.
  intros Hx Hy. revert b. induction a as [|c a IH]; intros [|d b] E; rewrite ?append_cons, ?append_nil_l in E.
  - by apply string_app_inj_l in E.
  - unfold nul in E at 1. rewrite append_cons, append_nil_l in E. injection E as _ E.
    rewrite E in Hx. by apply no_nul_middle in Hx.
  - unfold nul in E at 2. rewrite append_cons, append_nil_l in E. injection E as _ E.
    rewrite <- E in Hy. by apply no_nul_middle in Hy.
  - injection E as -> E. by destruct (IH b E) as [-> ->].
Qed.

(** Five fields after a prefix, none of them with a separator. *)
Lemma five_fields_inj pre pre' a b c d e a' b' c' d' e' :
  Forall no_nul [a; b; c; d; e] → Forall no_nul [a'; b'; c'; d'; e'] →
  pre +:+ nul +:+ strings_Join [a; b; c; d; e] nul = pre' +:+ nul +:+ strings_Join [a'; b'; c'; d'; e'] nul →
  pre = pre' ∧ [a; b; c; d; e] = [a'; b'; c'; d'; e'].
Proof.
  intros H1 H2. rewrite !Forall_cons in H1, H2. simpl. rewrite <- !string_app_assoc. intros E.
  rewrite !(string_app_assoc _ nul) in E.
  apply nul_sep_inj_r in E as [E ->]; [|naive_solver..].
  apply nul_sep_inj_r in E as [E ->]; [|naive_solver..].
  apply nul_sep_inj_r in E as [E ->]; [|naive_solver..].
  apply nul_sep_inj_r in E as [E ->]; [|naive_solver..].
  apply nul_sep_inj_r in E as [E ->]; [|naive_solver..]. done.
Qed.

Section determines.
Context `{GenesisJsonLaws}.

Definition info_document (info : option ValidatorInfo) : string := match info with Some i => MarshalInfo i | None => "" end.
Definition init_document (init : option GenesisInitConfig) : string :=
  match init with Some i => MarshalInit (clear_account_fields i) | None => "" end.

Lemma fingerprint_fields init info p v h :
  genesisConfigurationFingerprint init info p v h = strings_Join [p; v; h; info_document info; init_document init] nul.
Proof. done. Qed.

Lemma fields_no_nul init info p v h :
  no_nul p → no_nul v → no_nul h → Forall no_nul [p; v; h; info_document info; init_document init].
Proof.
  intros. repeat constructor; try done.
  - destruct info; [apply MarshalInfo_no_nul|done].
  - destruct init; [apply MarshalInit_no_nul|done].
Qed.

(** Two recorded fingerprints that end in the same configuration agree on all of it. *)
Lemma configuration_inj pre pre' init info p v h init' info' p' v' h' :
  Forall no_nul [p; v; h] → Forall no_nul [p'; v'; h'] →
  pre +:+ nul +:+ genesisConfigurationFingerprint init info p v h =
  pre' +:+ nul +:+ genesisConfigurationFingerprint init' info' p' v' h' →
  pre = pre' ∧ [p; v; h] = [p'; v'; h'] ∧ info_document info = info_document info' ∧ init_document init = init_document init'.
Proof.
  intros H1 H2 E. rewrite !Forall_cons in H1, H2.
  apply five_fields_inj in E as [-> [= -> -> -> ? ?]]; [done|apply fields_no_nul; naive_solver..].
Qed.

Lemma init_document_inj i j : init_document (Some i) = init_document (Some j) → clear_account_fields i = clear_account_fields j.
Proof. apply MarshalInit_inj. Qed.

Lemma init_document_some init j : init_document init = init_document (Some j) → is_some init = true.
Proof. destruct init as [i|]; [done|]. simpl. intros E. by destruct (MarshalInit_not_empty (clear_account_fields j)). Qed.

Lemma configuration_eq init info p v h init' info' p' v' h' :
  Forall no_nul [p; v; h] → Forall no_nul [p'; v'; h'] →
  genesisConfigurationFingerprint init info p v h = genesisConfigurationFingerprint init' info' p' v' h' →
  [p; v; h] = [p'; v'; h'] ∧ info_document info = info_document info' ∧ init_document init = init_document init'.
Proof. intros H1 H2 E. apply (configuration_inj "" "" init info p v h init' info' p' v' h' H1 H2). by rewrite E. Qed.
End determines.

(** ** When a recorded fingerprint may be refreshed *)

Section refresh.
Context `{GenesisJsonLaws}.

Definition account_fields (v : NodeSetValidatorConfig) : list string :=
  [nv_GetAccountPrefix (Some v); nv_GetValPrefix (Some v); nv_GetAccountHDPath (Some v)].

(** The non-signing configuration of two validators is the same. *)
Definition same_configuration (v w : NodeSetValidatorConfig) : Prop :=
  account_fields v = account_fields w ∧ info_document (nv_Info v) = info_document (nv_Info w) ∧
  init_document (nv_Init v) = init_document (nv_Init w).

Lemma same_configuration_eq v w : same_configuration v w → nv_configuration v = nv_configuration w.
Proof.
  intros ([= E1 E2 E3] & Ei & En). unfold nv_configuration. rewrite !fingerprint_fields. by rewrite E1, E2, E3, Ei, En.
Qed.

Lemma nv_fingerprint_split v d :
  ∃ pre, nv_GenesisSigningFingerprint (Some v) d = pre +:+ nul +:+ nv_configuration v.
Proof.
  exists (default d (nv_PrivateKeySecret v) +:+ nul +:+ default "" (tmKMSSigningKeyIdentity (nv_TmKMS v))).
  by rewrite !string_app_assoc.
Qed.

Lemma recorded_is_raw pre (x : string) : pre +:+ nul +:+ x ≠ "" ∧ pre +:+ nul +:+ x ≠ GenesisDigestExternal.
Proof.
  split; intros E.
  - apply (f_equal String.length) in E. rewrite !string_length_app in E. simpl in E. lia.
  - apply (no_nul_middle pre x). rewrite E. reflexivity.
Qed.

Lemma configuration_suffix v w d :
  Forall no_nul (account_fields v) → Forall no_nul (account_fields w) →
  has_suffix (nv_GenesisSigningFingerprint (Some v) d) (nul +:+ nv_configuration w) = true ↔ same_configuration w v.
Proof.
  intros Hv Hw. destruct (nv_fingerprint_split v d) as [pre ->]. rewrite has_suffix_spec. split.
  - intros [t E]. apply configuration_inj in E as (_ & Ea & Ei & En); [|done..]. by split_and!.
  - intros Hs%same_configuration_eq. exists pre. by rewrite Hs.
Qed.

(** The group is, or was, signed by a managed signer whose key is on record. *)
Definition managed_group (nodeSet : ChainNodeSet) (group : string) : bool :=
  is_some (groupCosmosigner nodeSet group) ||
  existsb (λ st, (st_ServingGroup st == group) && (st_AppliedDigest st != "") && (st_PublicKey st != "")) (statuses nodeSet).

(** C33: a fingerprint recorded when a validator's genesis was established is refreshed for the
    current configuration exactly when a managed signer signs for the group and nothing but the
    signing material changed: the account settings, the validator's description and the whole
    genesis block are the recorded ones. *)
Theorem refresh_keeps_configuration nodeSet group v w d
    (Hv : Forall no_nul (account_fields v)) (Hw : Forall no_nul (account_fields w)) :
  nodeset_GenesisSigningDigestAllowsRefresh nodeSet group (Some w) (nv_GenesisSigningFingerprint (Some v) d) = true ↔
  managed_group nodeSet group = true ∧ same_configuration w v.
Proof.
  unfold nodeset_GenesisSigningDigestAllowsRefresh. fold (managed_group nodeSet group).
  destruct (nv_fingerprint_split v d) as [pre E]. destruct (recorded_is_raw pre (nv_configuration v)) as [H1 H2].
  rewrite <- E in H1, H2. rewrite !bool_decide_eq_false_2 by done. cbn [orb].
  by rewrite andb_true_iff, configuration_suffix.
Qed.
End refresh.

(** ** Documents that satisfy the laws: the number of a block, in decimal *)

#[local] Instance Quantity_eq : EqDecision Quantity.
Proof. solve_decision. Defined.
#[local] Instance Quantity_count : Countable Quantity.
Proof. by refine (inj_countable' q_string mkQuantity _); intros []. Defined.
#[local] Instance ResourceRequirements_eq : EqDecision ResourceRequirements.
Proof. solve_decision. Defined.
#[local] Instance ResourceRequirements_count : Countable ResourceRequirements.
Proof.
  refine (inj_countable' (λ r, (rr_Limits r, rr_Requests r, rr_Claims r : list string)) (λ '(a, b, c), mkResourceRequirements a b c) _).
  by intros [].
Defined.
#[local] Instance InitCommand_eq : EqDecision InitCommand.
Proof. solve_decision. Defined.
#[local] Instance InitCommand_count : Countable InitCommand.
Proof.
  refine (inj_countable' (λ r, (ic_Image r, ic_Command r, ic_Args r, ic_Resources r, ic_Env r : list string))
    (λ '(a, b, c, d, e), mkInitCommand a b c d e) _).
  by intros [].
Defined.
#[local] Instance AccountAssets_eq : EqDecision AccountAssets.
Proof. solve_decision. Defined.
#[local] Instance AccountAssets_count : Countable AccountAssets.
Proof. by refine (inj_countable' (λ r, (aa_Address r, aa_Assets r)) (λ '(a, b), mkAccountAssets a b) _); intros []. Defined.
#[local] Instance ChainNodeAssets_eq : EqDecision ChainNodeAssets.
Proof. solve_decision. Defined.
#[local] Instance ChainNodeAssets_count : Countable ChainNodeAssets.
Proof. by refine (inj_countable' (λ r, (ca_ChainNode r, ca_Assets r)) (λ '(a, b), mkChainNodeAssets a b) _); intros []. Defined.
#[local] Instance GenesisValidator_eq : EqDecision GenesisValidator.
Proof. solve_decision. Defined.
#[local] Instance GenesisValidator_count : Countable GenesisValidator.
Proof.
  refine (inj_countable' (λ r, (gv_PrivKeySecret r, gv_AccountMnemonicSecret r, gv_Moniker r, gv_Assets r, gv_StakeAmount r))
    (λ '(a, b, c, d, e), mkGenesisValidator a b c d e) _).
  by intros [].
Defined.
#[local] Instance ValidatorInfo_eq : EqDecision ValidatorInfo.
Proof. solve_decision. Defined.
#[local] Instance ValidatorInfo_count : Countable ValidatorInfo.
Proof.
  refine (inj_countable' (λ r, (vi_Moniker r, vi_Details r, vi_Website r, vi_Identity r)) (λ '(a, b, c, d), mkValidatorInfo a b c d) _).
  by intros [].
Defined.
#[local] Instance GenesisInitConfig_eq : EqDecision GenesisInitConfig.
Proof. solve_decision. Defined.
#[local] Instance GenesisInitConfig_count : Countable GenesisInitConfig.
Proof.
  refine (inj_countable'
    (λ i, ((gn_ChainID i, gn_AccountMnemonicSecret i, gn_AccountHDPath i, gn_AccountPrefix i, gn_ValPrefix i,
            gn_CommissionMaxChangeRate i, gn_CommissionMaxRate i, gn_CommissionRate i, gn_MinSelfDelegation i),
           (gn_Assets i, gn_StakeAmount i, gn_Accounts i, gn_ChainNodeAccounts i, gn_UnbondingTime i, gn_VotingPeriod i,
            gn_ExpeditedVotingPeriod i, gn_AdditionalInitCommands i, gn_GenesisValidators i)))
    (λ '((a, b, c, d, e, f, g, h, i), (j, k, l, m, n, o, p, q, r)), mkGenesisInit a b c d e f g h i j k l m n o p q r) _).
  by intros [].
Defined.

Definition document {A} `{Countable A} (x : A) : string := FormatInt (Z.pos (encode x)).
#[export] Instance document_inj `{Countable A} : Inj (=) (=) (document (A := A)).
Proof. intros x y H0%FormatInt_inj. apply (inj encode). congruence. Qed.
Lemma document_no_nul `{Countable A} (x : A) : no_nul (document x).
Proof.
  assert (Hd : string_forallb is_digit (document x) = true) by (by apply FormatInt_digits).
  unfold no_nul. induction (document x) as [|c s IH]; [done|]. simpl in *. to_prop. rewrite IH by done.
  case_bool_decide; [by subst|done].
Qed.

Lemma document_not_empty `{Countable A} (x : A) : document x ≠ "".
Proof. unfold document, FormatInt. by destruct (Z.to_int _) as [[]|[]]. Qed.

Definition reference_documents : GenesisJson := {| MarshalInit := document; MarshalInfo := document |}.
Lemma reference_documents_laws : GenesisJsonLaws (H := reference_documents).
Proof. split; intros; [apply document_not_empty|apply document_no_nul..| |]; by apply document_inj. Qed.

Definition example_init (chainID : string) : GenesisInitConfig :=
  mkGenesisInit chainID None None None None None None None None [] "" [] [] None None None [] [].
Definition initializer (secret : option string) (chainID : string) : NodeSetValidatorConfig :=
  nv_with_Init (nv_with_PrivateKeySecret newNodeSetValidator secret) (Some (example_init chainID)).
Definition signed_set : ChainNodeSet :=
  mkChainNodeSet (mkMeta "set" "ns" "u" ∅ None [] [] None 0 "")
    (newChainNodeSetSpec (newAppSpec "img" None "app" []) (Some (initializer (Some "new") "c")) []
       (Some (example_signer (mkBackend (Some (mkSoftware None)) None None))))
    (newChainNodeSetStatus "c" [] 0 []).

Lemma refresh_witness :
  nodeset_GenesisSigningDigestAllowsRefresh (H := reference_documents) signed_set "validator" (Some (initializer (Some "new") "c"))
    (nv_GenesisSigningFingerprint (H := reference_documents) (Some (initializer None "c")) "set-validator-priv-key") = true.
Proof.
  apply (refresh_keeps_configuration (H := reference_documents) (H0 := reference_documents_laws));
    [repeat constructor..|]. split; [reflexivity|by split_and!].
Defined.
