(* ===== verification/NodeSetWebhook.v ===== *)
(** * Admission of a [ChainNodeSet] ([api/v1/chainnodeset_webhook.go])

    [Validate], in the order of its checks: the genesis source, the singleton
    validator, every node group, the signers, the derived names, the keys and
    accounts, what an established genesis fixes, and the routes; and the
    warnings of an accepted set. *)

From S2P Require Import Prelude GoLib ThirdParty Reference ApiTypes DerivedNames CosmosignerSpec SignerResolve Getters.
From S2P Require Import Exporter SpecValidation UniqueSecrets DerivedServices SignerWebhook ResourceCleanup GenesisFingerprint.

Definition Warnings : Type := list string.

(** ** Warnings *)

Definition tmkms_of (v : option NodeSetValidatorConfig) : option TmKMS := v ≫= nv_TmKMS.
Definition auto_renews (t : TmKMS) : bool := match tk_Hashicorp t with Some h => hc_AutoRenewToken h | None => false end.

Definition tmkms_warnings (path target : string) (v : option NodeSetValidatorConfig) : Warnings :=
  match tmkms_of v with
  | None => []
  | Some t =>
      (path +:+ ".tmKMS is deprecated and will be removed in a future version; migrate to " +:+ target) ::
      (if auto_renews t
       then [path +:+ ".tmKMS.provider.hashicorp.autoRenewToken uses the deprecated vault-token-renewer sidecar; migrate to " +:+ target +:+ ", which renews Vault tokens internally"]
       else [])
  end.

Definition tmKMSDeprecationWarnings (nodeSet : ChainNodeSet) : Warnings :=
  tmkms_warnings ".spec.validator" ".spec.cosmosigner" (ss_Validator (cns_Spec nodeSet)) ++
  concat (imap (λ i g, tmkms_warnings (nodes_path i +:+ ".validator") (nodes_path i +:+ ".cosmosigner") (ng_Validator g))
            (ss_Nodes (cns_Spec nodeSet))).

Definition validatorGroupMisplacedFieldWarnings (nodeSet : ChainNodeSet) : Warnings :=
  concat (imap (λ i g,
    map (λ field, nodes_path i +:+ "." +:+ field +:+ " is ignored because this group has a validator block; set " +:+
                  nodes_path i +:+ ".validator." +:+ field +:+ " instead") (MisplacedValidatorScopedFields g) ++
    map (λ flag, nodes_path i +:+ "." +:+ flag +:+ " has no effect on a validator group") (IneffectiveValidatorGroupFlags g))
    (ss_Nodes (cns_Spec nodeSet))).

Definition group_initializes (g : NodeGroupSpec) : bool := is_some (ng_Validator g ≫= nv_Init).

Definition genesisSignerCollapseWarnings (nodeSet : ChainNodeSet) (genesisAlreadyCreated : bool) : Warnings :=
  if genesisAlreadyCreated then [] else
  concat (imap (λ i g,
    if negb (group_initializes g) || (GetInstances g <=? 1)%Z || negb (is_some (groupCosmosigner nodeSet (ng_Name g))) then []
    else [nodes_path i +:+ " initializes genesis with " +:+ FormatInt (GetInstances g) +:+
          " instances and a cosmosigner, so it adds ONE validator to the immutable genesis set, not " +:+ FormatInt (GetInstances g) +:+
          "; remove the cosmosigner if each instance should be its own genesis validator"])
    (ss_Nodes (cns_Spec nodeSet))).

(** ** The genesis source *)

(** The running validators, with the ones that initialize a genesis first. *)
Definition running_validators (nodeSet : ChainNodeSet) : list NodeSetValidatorConfig :=
  match ss_Validator (cns_Spec nodeSet) with Some v => [v] | None => [] end ++
  omap (λ g, if (GetInstances g =? 0)%Z then None else ng_Validator g) (ss_Nodes (cns_Spec nodeSet)).
Definition initValidators (nodeSet : ChainNodeSet) : nat :=
  length (filter (λ v, is_some (nv_Init v) = true) (running_validators nodeSet)).
Definition nonInitValidators (nodeSet : ChainNodeSet) : nat :=
  length (filter (λ v, is_some (nv_Init v) = false) (running_validators nodeSet)).

Definition genesisAlreadyCreated (nodeSet : ChainNodeSet) (old : option ChainNodeSet) : bool :=
  (sst_ChainID (cns_Status nodeSet) != "") ||
  match old with Some old => sst_ChainID (cns_Status old) != "" | None => false end.
Definition genesisInitGenerated (nodeSet : ChainNodeSet) (old : option ChainNodeSet) : bool :=
  nodeset_ShouldInitGenesis nodeSet ||
  match old with Some old => nodeset_ShouldInitGenesis old | None => false end.

Definition singleton_init (nodeSet : ChainNodeSet) : option GenesisInitConfig := ss_Validator (cns_Spec nodeSet) ≫= nv_Init.
Definition remedy (nodeSet : ChainNodeSet) (group singleton : string) : fmt_arg :=
  AStr (if is_some (singleton_init nodeSet) then singleton else group).

Definition validate_genesis_source (nodeSet : ChainNodeSet) (old : option ChainNodeSet) : result () :=
  if is_some (ss_Genesis (cns_Spec nodeSet)) || (genesisAlreadyCreated nodeSet old && genesisInitGenerated nodeSet old) then Ok () else
  guard_err (initValidators nodeSet == 0)
    (Errorf ".spec.genesis is required except when initializing new genesis with .spec.validator.init" []);;
  guard_err (0 <? nonInitValidators nodeSet)%nat
    (Errorf ".spec.genesis is required when a validator does not initialize a new genesis with .spec.validator.init; %s"
       [remedy nodeSet
          "to run multiple validators in a generated genesis, set instances on the single genesis-initializing validator group instead of adding another validator group"
          "to run multiple validators in a generated genesis, move .spec.validator into a .spec.nodes[] validator group and set instances on it, instead of adding another validator group"]).

(** ** The singleton validator *)

Section checks.
Context `{QuantityApi} `{UrlApi} `{DatasizeApi} `{DnsApi}.

Definition check_snapshots (p : option Persistence) (path : string) : result () :=
  match p ≫= pe_Snapshots with Some s => validateSnapshotsConfig s (path +:+ ".snapshots") | None => Ok () end.
Definition check_size (p : option Persistence) (path : string) : result () :=
  guard_err match p ≫= pe_Size with Some size => negb (is_ok (ParseQuantity size)) | None => false end
    (Errorf "bad format for %s.size: %v" [AStr path]).

Definition creates_with_foreign_key (v : NodeSetValidatorConfig) : bool :=
  is_some (nv_CreateValidator v) && is_some (nv_TmKMS v) && negb (tmkmsUploadsGeneratedPrivKey (Some v)).

Definition validate_singleton (nodeSet : ChainNodeSet) : result () :=
  match ss_Validator (cns_Spec nodeSet) with
  | None => Ok ()
  | Some v =>
      guard_err (is_some (nv_Init v) && is_some (ss_Genesis (cns_Spec nodeSet)))
        (Errorf ".spec.genesis and .spec.validator.init are mutually exclusive" []);;
      guard_err (is_some (nv_Init v) && is_some (nv_CreateValidator v))
        (Errorf ".spec.validator.init and .spec.validator.createValidator are mutually exclusive" []);;
      guard_err (creates_with_foreign_key v)
        (Errorf ".spec.validator.tmKMS with createValidator requires hashicorp.uploadGenerated=true so the locally-generated key is uploaded to the KMS and the registered create-validator pubkey matches the signing key" []);;
      check_snapshots (nv_Persistence v) ".spec.validator.persistence";;
      check_size (nv_Persistence v) ".spec.validator.persistence";;
      guard_err (CosmoGuardEnabled (nv_Config v))
        (Errorf ".spec.validator.config.cosmoGuard is not supported on the legacy singleton validator; define the validator as a .spec.nodes group with cosmoGuard enabled instead" [])
  end.

(** ** A node group *)

Definition seen_index (name : string) (l : list NodeGroupSpec) : option nat :=
  fst <$> list_find (λ g, ng_Name g = name) l.

Definition check_group_names (nodeSet : ChainNodeSet) (i : nat) (g : NodeGroupSpec) : result () :=
  let at_ := AInt (Z.of_nat i) in
  guard_err (ng_Name g == "") (Errorf ".spec.nodes[%d].name must not be empty" [at_]);;
  guard_err (ng_Name g == ReservedValidatorGroupName)
    (Errorf ".spec.nodes[%d].name %q is reserved" [at_; AStr ReservedValidatorGroupName]);;
  match seen_index (ng_Name g) (take i (ss_Nodes (cns_Spec nodeSet))) with
  | Some prev => Err (Errorf ".spec.nodes[%d].name %q duplicates .spec.nodes[%d].name" [at_; AStr (ng_Name g); AInt (Z.of_nat prev)])
  | None => Ok ()
  end.

Definition validate_group_validator (nodeSet : ChainNodeSet) (i : nat) (g : NodeGroupSpec) (v : NodeSetValidatorConfig) : result () :=
  let at_ := [AInt (Z.of_nat i)] in
  let init := is_some (nv_Init v) in
  let many := (1 <? GetInstances g)%Z in
  let signerTargeted := is_some (groupCosmosigner nodeSet (ng_Name g)) in
  guard_err (init && is_some (ss_Genesis (cns_Spec nodeSet)))
    (Errorf ".spec.genesis and .spec.nodes[%d].validator.init are mutually exclusive" at_);;
  guard_err (init && is_some (nv_CreateValidator v))
    (Errorf ".spec.nodes[%d].validator.init and .spec.nodes[%d].validator.createValidator are mutually exclusive" (at_ ++ at_));;
  guard_err (many && is_some (nv_PrivateKeySecret v) && negb signerTargeted)
    (Errorf ".spec.nodes[%d].validator.privateKeySecret cannot be set when the validator group has multiple instances" at_);;
  guard_err (many && is_some (nv_TmKMS v))
    (Errorf ".spec.nodes[%d].validator.tmKMS cannot be set when the validator group has multiple instances (every instance would sign with the same key)" at_);;
  guard_err (many && is_some (nv_Init v ≫= gn_AccountMnemonicSecret) && negb signerTargeted)
    (Errorf ".spec.nodes[%d].validator.init.accountMnemonicSecret cannot be set when validator.init is used with multiple instances" at_);;
  guard_err (many && is_some (nv_CreateValidator v ≫= cv_AccountMnemonicSecret) && negb signerTargeted)
    (Errorf ".spec.nodes[%d].validator.createValidator.accountMnemonicSecret cannot be set when the validator group has multiple instances" at_);;
  guard_err (creates_with_foreign_key v)
    (Errorf ".spec.nodes[%d].validator.tmKMS with createValidator requires hashicorp.uploadGenerated=true so the locally-generated key is uploaded to the KMS and the registered create-validator pubkey matches the signing key" at_);;
  check_size (nv_Persistence v) (nodes_path i +:+ ".validator.persistence");;
  check_snapshots (nv_Persistence v) (nodes_path i +:+ ".validator.persistence").

Definition validate_group (nodeSet : ChainNodeSet) (i : nat) (g : NodeGroupSpec) : result () :=
  let path := nodes_path i in
  check_group_names nodeSet i g;;
  match ValidateCosmoGuardDashboard (GetServiceConfig g) (cns_Namespace nodeSet) with
  | Err e => Err (Wrapf e ".spec.nodes[%d] %w" [AInt (Z.of_nat i)])
  | Ok _ => Ok ()
  end;;
  ValidateP2PGatewayExpose (ng_Expose g) (path +:+ ".expose") (GetInstances g);;
  check_size (ng_Persistence g) (path +:+ ".persistence");;
  check_snapshots (ng_Persistence g) (path +:+ ".persistence");;
  match ng_Validator g with Some v => validate_group_validator nodeSet i g v | None => Ok () end;;
  guard_err ((GetSnapshotNodeIndex g <? 0)%Z || (GetInstances g <=? GetSnapshotNodeIndex g)%Z)
    (Errorf ".spec.nodes[%d].snapshotNodeIndex is out of range" [AInt (Z.of_nat i)]);;
  match ng_IndividualIngresses g with
  | Some ing => ValidateSubdomainPrefixes (path +:+ ".individualIngresses") (in_Subdomains ing) (in_Enable ing)
  | None => Ok ()
  end;;
  match ng_IndividualGatewayRoutes g with
  | Some gw => ValidateSubdomainPrefixes (path +:+ ".individualGatewayRoutes") (gw_Subdomains gw) (gw_Enable gw)
  | None => Ok ()
  end.

(** A group's disruption budget named as a regular group's. *)
Definition check_budget_name (nodeSet : ChainNodeSet) (i : nat) (g : NodeGroupSpec) : result () :=
  let nodes := ss_Nodes (cns_Spec nodeSet) in
  let suffixed := ng_Name g +:+ "-validator" in
  if negb (is_some (ng_Validator g)) || negb (nv_HasPdbEnabled (ng_Validator g)) then Ok () else
  guard_err match find_last (λ h, ng_Name h == suffixed) nodes with Some h => negb (is_some (ng_Validator h)) | None => false end
    (Errorf ".spec.nodes[%d].name %q collides with regular group %q: its validator PDB %q would clash with that group's PDB"
       [AInt (Z.of_nat i); AStr (ng_Name g); AStr suffixed; AStr suffixed]).

Definition check_single_initializer (nodeSet : ChainNodeSet) : result () :=
  guard_err (1 <? initValidators nodeSet)%nat
    (Errorf "only one ChainNodeSet validator can initialize genesis; %s"
       [remedy nodeSet "to run multiple genesis validators, set instances on that single validator group"
          "to run multiple genesis validators, keep a single .spec.nodes[] validator group and set instances on it"]).

(** ** Routes *)

(** Names and paths of the routes, ingresses first. *)
Definition route_names (nodeSet : ChainNodeSet) : list (string * string) :=
  imap (λ i ing, (gin_Name ing, ingress_path i)) (ss_Ingresses (cns_Spec nodeSet)) ++
  imap (λ i gw, (gg_Name gw, route_path i)) (ss_GatewayRoutes (cns_Spec nodeSet)).
Fixpoint check_route_names (seen : gmap string string) (l : list (string * string)) : result () :=
  match l with
  | [] => Ok ()
  | (name, path) :: l =>
      match seen !! name with
      | Some existing => Err (Errorf (path +:+ ".name %q duplicates %s") [AStr name; AStr existing])
      | None => check_route_names (<[name := path]> seen) l
      end
  end.

Definition validate_routes (nodeSet : ChainNodeSet) : result () :=
  check_route_names ∅ (route_names nodeSet);;
  for_each_i (λ i ing, ValidateSubdomainPrefixes (ingress_path i) (gin_Subdomains ing) (gin_Enable ing)) (ss_Ingresses (cns_Spec nodeSet));;
  for_each_i (λ i gw, ValidateSubdomainPrefixes (route_path i) (gg_Subdomains gw) (gg_Enable gw)) (ss_GatewayRoutes (cns_Spec nodeSet)).

Definition validate_cosmoseed (nodeSet : ChainNodeSet) : result () :=
  let cs := ss_Cosmoseed (cns_Spec nodeSet) in
  if cm_IsEnabled cs
  then ValidateP2PGatewayExpose (cs ≫= cm_Expose) ".spec.cosmoseed.expose" (cm_GetInstances cs)
  else Ok ().
End checks.

(** ** What an established genesis fixes *)

Section established.
Context `{GenesisJson}.

Definition initializes (v : option NodeSetValidatorConfig) : bool := is_some (v ≫= nv_Init).

(** The genesis parameters of a validator differ; and, unless a signer of the group is involved,
    its signing material. *)
Definition genesis_changed (nodeSet old : ChainNodeSet) (group : string) (oldVal newVal : NodeSetValidatorConfig)
    (defaultPrivKeySecret : string) : bool :=
  if is_some (groupCosmosigner old group) || is_some (groupCosmosigner nodeSet group)
  then nv_configuration oldVal != nv_configuration newVal
  else genesisSigningMaterialChanged (Some oldVal) (Some newVal) defaultPrivKeySecret.

Definition check_singleton_genesis (nodeSet old : ChainNodeSet) : result () :=
  let newV := ss_Validator (cns_Spec nodeSet) in
  let oldV := ss_Validator (cns_Spec old) in
  guard_err (initializes newV && negb (initializes oldV))
    (Errorf ".spec.validator.init cannot be added after genesis has been created" []);;
  guard_err (initializes oldV && negb (initializes newV))
    (Errorf ".spec.validator.init cannot be removed after genesis has been created: its validator is part of the immutable genesis validator set" []);;
  match oldV, newV with
  | Some o, Some n =>
      guard_err (is_some (nv_Init o) && is_some (nv_Init n) &&
                 genesis_changed nodeSet old ReservedValidatorGroupName o n (cns_Name nodeSet +:+ "-validator-priv-key"))
        (Errorf ".spec.validator signing material or genesis parameters cannot be changed after genesis has been created: they are part of the immutable genesis validator set" [])
  | _, _ => Ok ()
  end.

Definition group_named (nodeSet : ChainNodeSet) (name : string) : option NodeGroupSpec :=
  find_last (λ g, ng_Name g == name) (ss_Nodes (cns_Spec nodeSet)).

(** A group [og] that initialized the genesis, and its new form [g]. *)
Definition check_genesis_group (nodeSet old : ChainNodeSet) (i : nat) (g og : NodeGroupSpec) (o n : NodeSetValidatorConfig) : result () :=
  let at_ := [AInt (Z.of_nat i); AStr (ng_Name g)] in
  let oldSignerTargeted := is_some (groupCosmosigner old (ng_Name g)) in
  let newSignerTargeted := is_some (groupCosmosigner nodeSet (ng_Name g)) in
  let signerTargetedBothSides := oldSignerTargeted && newSignerTargeted in
  guard_err ((1 <? GetInstances og)%Z && negb (Bool.eqb oldSignerTargeted newSignerTargeted))
    (Errorf ".spec.nodes[%d]: a cosmosigner cannot be added to or removed from multi-instance genesis-initializing validator group %q after genesis has been created: it changes which instances are genesis validators" at_);;
  guard_err ((GetInstances og <? GetInstances g)%Z && negb signerTargetedBothSides)
    (Errorf ".spec.nodes[%d] genesis-initializing validator group %q cannot be scaled up after creation" at_);;
  guard_err ((GetInstances g <? GetInstances og)%Z && negb (signerTargetedBothSides && (1 <=? GetInstances g)%Z))
    (Errorf ".spec.nodes[%d] genesis-initializing validator group %q cannot be scaled down after creation: its validators are part of the immutable genesis validator set" at_);;
  guard_err (genesis_changed nodeSet old (ng_Name g) o n (cns_Name nodeSet +:+ "-" +:+ ng_Name g +:+ "-0-priv-key"))
    (Errorf ".spec.nodes[%d] genesis-initializing validator group %q signing material or genesis parameters cannot be changed after creation: they are part of the immutable genesis validator set" at_).

Definition check_new_group (nodeSet old : ChainNodeSet) (i : nat) (g : NodeGroupSpec) : result () :=
  match ng_Validator g with
  | Some n =>
      if negb (is_some (nv_Init n)) then Ok () else
      match group_named old (ng_Name g) with
      | Some og =>
          match ng_Validator og with
          | Some o =>
              if is_some (nv_Init o) then check_genesis_group nodeSet old i g og o n
              else Err (Errorf ".spec.nodes[%d]: a genesis-initializing validator group cannot be added after genesis has been created" [AInt (Z.of_nat i)])
          | None => Err (Errorf ".spec.nodes[%d]: a genesis-initializing validator group cannot be added after genesis has been created" [AInt (Z.of_nat i)])
          end
      | None => Err (Errorf ".spec.nodes[%d]: a genesis-initializing validator group cannot be added after genesis has been created" [AInt (Z.of_nat i)])
      end
  | None => Ok ()
  end.

Definition check_old_group (nodeSet : ChainNodeSet) (og : NodeGroupSpec) : result () :=
  if negb (initializes (ng_Validator og)) || (GetInstances og =? 0)%Z then Ok () else
  guard_err (negb (initializes (group_named nodeSet (ng_Name og) ≫= ng_Validator)))
    (Errorf "genesis-initializing validator group %q cannot be removed or converted after genesis has been created: its validators are part of the immutable genesis validator set"
       [AStr (ng_Name og)]).

Definition validate_established (nodeSet : ChainNodeSet) (old : option ChainNodeSet) : result () :=
  match old with
  | None => Ok ()
  | Some old =>
      if sst_ChainID (cns_Status old) == "" then Ok () else
      check_singleton_genesis nodeSet old;;
      for_each_i (check_new_group nodeSet old) (ss_Nodes (cns_Spec nodeSet));;
      for_each (check_old_group nodeSet) (ss_Nodes (cns_Spec old))
  end.
End established.

(** ** The webhook *)

Section webhook.
Context `{QuantityApi} `{UrlApi} `{DatasizeApi} `{DnsApi} `{GenesisJson}.

(** The checks of names, keys and accounts. *)
Definition validate_identities (nodeSet : ChainNodeSet) (old : option ChainNodeSet) : result () :=
  validateCosmosigner nodeSet old;;
  validateCosmosignerUpdate nodeSet old;;
  validateGeneratedNameLengths nodeSet;;
  validateServiceNameCollisions nodeSet old;;
  validateIngressNameCollisions nodeSet old;;
  validateGroupChildReservedNames nodeSet old;;
  validateUniqueSigningKeys nodeSet;;
  validateUniqueCreateValidatorAccounts nodeSet;;
  validateUniqueGenesisValidatorAccounts nodeSet.

Definition nodeset_warnings (nodeSet : ChainNodeSet) (old : option ChainNodeSet) : Warnings :=
  tmKMSDeprecationWarnings nodeSet ++ validatorGroupMisplacedFieldWarnings nodeSet ++
  genesisSignerCollapseWarnings nodeSet (genesisAlreadyCreated nodeSet old).

Definition nodeset_Validate (nodeSet : ChainNodeSet) (old : option ChainNodeSet) : result Warnings :=
  DeletionPolicy_Validate (ss_DeletionPolicy (cns_Spec nodeSet)) ".spec.deletionPolicy";;
  validate_genesis_source nodeSet old;;
  validate_singleton nodeSet;;
  for_each_i (validate_group nodeSet) (ss_Nodes (cns_Spec nodeSet));;
  for_each_i (check_budget_name nodeSet) (ss_Nodes (cns_Spec nodeSet));;
  check_single_initializer nodeSet;;
  validate_identities nodeSet old;;
  validate_established nodeSet old;;
  validate_cosmoseed nodeSet;;
  validate_routes nodeSet;;
  Ok (nodeset_warnings nodeSet old).

Definition nodeset_ValidateCreate (obj : ChainNodeSet) : result Warnings := nodeset_Validate obj None.
Definition nodeset_ValidateUpdate (oldObj newObj : ChainNodeSet) : result Warnings := nodeset_Validate newObj (Some oldObj).
Definition nodeset_ValidateDelete (obj : ChainNodeSet) : result Warnings := Ok [].
End webhook.

(** ** What acceptance means *)

Section admitted.
Context `{QuantityApi} `{UrlApi} `{DatasizeApi} `{DnsApi} `{GenesisJson}.

Lemma accepted_checks nodeSet old w :
  nodeset_Validate nodeSet old = Ok w →
  (∀ i g, ss_Nodes (cns_Spec nodeSet) !! i = Some g → is_ok (validate_group nodeSet i g) = true) ∧
  (initValidators nodeSet ≤ 1)%nat ∧
  is_ok (validate_identities nodeSet old) = true ∧
  is_ok (validate_established nodeSet old) = true ∧
  is_ok (validate_routes nodeSet) = true ∧
  (∀ i g, ss_Nodes (cns_Spec nodeSet) !! i = Some g → is_ok (check_budget_name nodeSet i g) = true).
Proof.
  intros Hok. assert (Hr : is_ok (nodeset_Validate nodeSet old) = true) by by rewrite Hok. clear Hok.
  unfold nodeset_Validate in Hr.
  repeat match type of Hr with is_ok (_ ≫= _) = true => let u := fresh "u" in let K := fresh "K" in
    apply is_ok_bind in Hr as (u & K & Hr); destruct u end.
  split_and!; try (match goal with K : ?m = Ok () |- is_ok ?m = true => by rewrite K end).
  - apply (is_ok_for_each_from _ _ 0). match goal with K : for_each_from _ (validate_group _) _ = _ |- _ => by rewrite K end.
  - match goal with K : check_single_initializer _ = _ |- _ => rename K into Ki end.
    unfold check_single_initializer in Ki. apply guard_err_Ok in Ki. apply Nat.ltb_ge in Ki. done.
  - apply (is_ok_for_each_from _ _ 0). match goal with K : for_each_from _ (check_budget_name _) _ = _ |- _ => by rewrite K end.
Qed.

(** The last group of an unambiguous name is the only one. *)
Lemma budget_names nodeSet i g h :
  NoDup (map ng_Name (ss_Nodes (cns_Spec nodeSet))) → is_ok (check_budget_name nodeSet i g) = true →
  is_Some (ng_Validator g) → nv_HasPdbEnabled (ng_Validator g) = true →
  h ∈ ss_Nodes (cns_Spec nodeSet) → ng_Name h = ng_Name g +:+ "-validator" → is_Some (ng_Validator h).
Proof.
  intros Hnd Hok [v Ev] Hp Hh En. unfold check_budget_name in Hok. rewrite Ev in *. rewrite Hp in Hok. simpl in Hok.
  rewrite is_ok_guard in Hok. apply negb_true_iff in Hok.
  destruct (find_last_is_Some (λ x, ng_Name x == ng_Name g +:+ "-validator") _ h Hh) as [x Ex]; [by apply bool_decide_eq_true_2|].
  rewrite Ex in Hok. apply find_last_Some in Ex as [Hx E]. to_prop.
  assert (x = h) as ->; [|by destruct (ng_Validator h)].
  eapply NoDup_map_inj_on; [exact Hnd|done..|by rewrite En].
Qed.

Lemma accepted_group nodeSet i g :
  is_ok (validate_group nodeSet i g) = true →
  is_ok (check_group_names nodeSet i g) = true ∧
  (∀ v, ng_Validator g = Some v → is_ok (validate_group_validator nodeSet i g v) = true) ∧
  (0 ≤ GetSnapshotNodeIndex g < GetInstances g)%Z.
Proof.
  unfold validate_group. rewrite !is_ok_seq, !andb_true_iff, is_ok_guard. intros (Hn & _ & _ & _ & _ & Hv & Hi & _).
  split_and!; [done| |lia|lia]. intros v E. by rewrite E in Hv.
Qed.

Lemma list_find_None_notin {A} (f : A → string) (l : list A) name :
  list_find (λ x, f x = name) l = None → name ∉ map f l.
Proof.
  intros Hn (x & -> & Hx)%list_elem_of_fmap. apply list_elem_of_lookup in Hx as [i Hi].
  apply list_find_None in Hn. by eapply Forall_lookup_1 in Hn.
Qed.

Lemma accepted_names nodeSet :
  (∀ i g, ss_Nodes (cns_Spec nodeSet) !! i = Some g → is_ok (check_group_names nodeSet i g) = true) →
  NoDup (map ng_Name (ss_Nodes (cns_Spec nodeSet))) ∧
  ∀ g, g ∈ ss_Nodes (cns_Spec nodeSet) → ng_Name g ≠ "" ∧ ng_Name g ≠ ReservedValidatorGroupName.
Proof.
  intros Hall. unfold check_group_names in Hall. split.
  - apply NoDup_alt. intros i j x Hi Hj. rewrite list_lookup_fmap in Hi, Hj.
    destruct (ss_Nodes (cns_Spec nodeSet) !! i) as [gi|] eqn:Ei; [|done].
    destruct (ss_Nodes (cns_Spec nodeSet) !! j) as [gj|] eqn:Ej; [|done]. simplify_eq/=.
    assert (Hlt : ∀ a b ga gb, ss_Nodes (cns_Spec nodeSet) !! a = Some ga → ss_Nodes (cns_Spec nodeSet) !! b = Some gb →
              (a < b)%nat → ng_Name ga ≠ ng_Name gb).
    { intros a b ga gb Ha Hb Hab E. specialize (Hall b gb Hb). rewrite !is_ok_seq, !andb_true_iff in Hall.
      destruct Hall as (_ & _ & Hd). unfold seen_index in Hd.
      destruct (list_find _ _) as [p|] eqn:Ef; [done|]. apply list_find_None_notin in Ef.
      apply Ef. rewrite <- E. apply list_elem_of_fmap_2. apply list_elem_of_lookup. exists a.
      by rewrite lookup_take_lt. }
    destruct (Nat.lt_trichotomy i j) as [?|[?|?]]; [|done|]; exfalso; [eapply (Hlt i j)|eapply (Hlt j i)]; eauto.
  - intros g (i & Hi)%list_elem_of_lookup. specialize (Hall i g Hi). rewrite !is_ok_seq, !is_ok_guard, !andb_true_iff in Hall.
    destruct Hall as (H1' & H2' & _). by repeat case_bool_decide.
Qed.
End admitted.

(** What an admitted set is. *)
Record AdmittedSet (nodeSet : ChainNodeSet) : Prop := {
  (** Group names are distinct, not empty, and not the one of the singleton. *)
  admitted_names_unique : NoDup (map ng_Name (ss_Nodes (cns_Spec nodeSet)));
  admitted_names_valid g : g ∈ ss_Nodes (cns_Spec nodeSet) → ng_Name g ≠ "" ∧ ng_Name g ≠ ReservedValidatorGroupName;
  (** Every group runs, and its snapshots are taken from one of its instances. *)
  admitted_groups_run g : g ∈ ss_Nodes (cns_Spec nodeSet) → (0 ≤ GetSnapshotNodeIndex g < GetInstances g)%Z;
  (** No regular group is named as the enabled budget of a validator group. *)
  admitted_budgets g h :
    g ∈ ss_Nodes (cns_Spec nodeSet) → h ∈ ss_Nodes (cns_Spec nodeSet) → nv_HasPdbEnabled (ng_Validator g) = true →
    ng_Name h = ng_Name g +:+ "-validator" → is_Some (ng_Validator h);
  (** At most one validator initializes the genesis. *)
  admitted_one_initializer : (initValidators nodeSet ≤ 1)%nat;
  (** A node group is signed by at most one managed signer. *)
  admitted_one_signer s1 s2 g :
    s1 ∈ ResolveCosmosigners nodeSet → s2 ∈ ResolveCosmosigners nodeSet →
    g ∈ sg_TargetGroups s1 → g ∈ sg_TargetGroups s2 → s1 = s2;
  (** Several instances share a validator's secret only behind a managed signer. *)
  admitted_shared_secret g v :
    g ∈ ss_Nodes (cns_Spec nodeSet) → ng_Validator g = Some v → (1 < GetInstances g)%Z →
    groupCosmosigner nodeSet (ng_Name g) = None → nv_PrivateKeySecret v = None ∧ nv_TmKMS v = None;
  (** No two validators hold their key in one secret, no two validators or signers sign with one key of a provider or
      with one secret of a signer, and no two validators act for one account. *)
  admitted_keys : NoDup (held_secrets nodeSet);
  admitted_backend_keys : NoDup (backend_keys nodeSet);
  admitted_accounts : NoDup (map fst (genesis_accounts nodeSet) ++ create_accounts nodeSet);
}.

Section admits.
Context `{QuantityApi} `{UrlApi} `{DatasizeApi} `{DnsApi} `{GenesisJson}.

Lemma identities_parts nodeSet old :
  is_ok (validate_identities nodeSet old) = true →
  is_ok (validateCosmosigner nodeSet old) = true ∧ is_ok (validateUniqueSigningKeys nodeSet) = true ∧
  is_ok (validateUniqueCreateValidatorAccounts nodeSet) = true ∧ is_ok (validateUniqueGenesisValidatorAccounts nodeSet) = true.
Proof. unfold validate_identities. rewrite !is_ok_seq, !andb_true_iff. naive_solver. Qed.

Lemma accounts_NoDup nodeSet :
  is_ok (validateUniqueCreateValidatorAccounts nodeSet) = true →
  is_ok (validateUniqueGenesisValidatorAccounts nodeSet) = true →
  NoDup (map fst (genesis_accounts nodeSet) ++ create_accounts nodeSet).
Proof. rewrite create_accounts_Ok, genesis_accounts_Ok, NoDup_app. naive_solver. Qed.

Lemma unshared_secret nodeSet i g v :
  is_ok (validate_group_validator nodeSet i g v) = true → (1 < GetInstances g)%Z →
  groupCosmosigner nodeSet (ng_Name g) = None → nv_PrivateKeySecret v = None ∧ nv_TmKMS v = None.
Proof.
  unfold validate_group_validator. cbv zeta. rewrite !is_ok_seq, !is_ok_guard, !andb_true_iff.
  intros (_ & _ & Hs & Hk & _) Hmany Hno. rewrite Hno in Hs.
  assert (E : (1 <? GetInstances g)%Z = true) by lia. rewrite E in Hs, Hk.
  destruct (nv_PrivateKeySecret v), (nv_TmKMS v); done.
Qed.

Lemma admitted nodeSet old w : nodeset_Validate nodeSet old = Ok w → AdmittedSet nodeSet.
Proof.
  intros (Hg & Hi & Hid & _ & _ & Hb)%accepted_checks. apply identities_parts in Hid as (Hs & Hk & Hc & Ha).
  destruct (accepted_names nodeSet) as [Hnd Hnames]; [intros i g E; by apply (accepted_group nodeSet i g (Hg i g E))|].
  constructor; try done.
  - intros g (i & E)%list_elem_of_lookup. by apply (accepted_group nodeSet i g (Hg i g E)).
  - intros g h (i & E)%list_elem_of_lookup Hh Hp En. eapply budget_names; [exact Hnd|exact (Hb i g E)| |done..].
    by destruct (ng_Validator g).
  - intros. by eapply shared_target_group.
  - intros g v (i & E)%list_elem_of_lookup Ev. eapply unshared_secret. by apply (accepted_group nodeSet i g (Hg i g E)).
  - apply held_secrets_NoDup; [|done]. intros g Hin. by apply Hnames.
  - by apply backend_keys_NoDup.
  - by apply accounts_NoDup.
Qed.


(** A group scaled to zero instances is never admitted: the index of its snapshot node, zero
    when unset, must be below the number of its instances. *)
Theorem empty_group_rejected nodeSet old g :
  g ∈ ss_Nodes (cns_Spec nodeSet) → (GetInstances g ≤ 0)%Z → is_ok (nodeset_Validate nodeSet old) = false.
Proof.
  intros Hg Hz. destruct (nodeset_Validate nodeSet old) as [w|] eqn:E; [|done]. exfalso.
  apply admitted in E. pose proof (admitted_groups_run _ E g Hg). lia.
Qed.
End admits.

(** ** The genesis validators never change *)

(** How many validators a group that initialized the genesis contributes to it. *)
Definition genesis_size (s : ChainNodeSet) (g : NodeGroupSpec) : Z :=
  if is_some (groupCosmosigner s (ng_Name g)) then 1%Z else GetInstances g.

(** The genesis validators of a group name: their configuration and their number. *)
Definition genesis_of (s : ChainNodeSet) (name : string) : option (NodeSetValidatorConfig * Z) :=
  if name == ReservedValidatorGroupName
  then v ← ss_Validator (cns_Spec s); if is_some (nv_Init v) then Some (v, 1%Z) else None
  else g ← group_named s name; v ← ng_Validator g;
       if is_some (nv_Init v) then Some (v, genesis_size s g) else None.

Definition same_genesis `{GenesisJson} (a b : option (NodeSetValidatorConfig * Z)) : Prop :=
  match a, b with
  | Some (v, k), Some (w, l) => same_configuration v w ∧ k = l
  | None, None => True
  | _, _ => False
  end.

(** The account settings hold no separator. *)
Definition plain_set (s : ChainNodeSet) : Prop :=
  ∀ v, (ss_Validator (cns_Spec s) = Some v ∨ ∃ g, g ∈ ss_Nodes (cns_Spec s) ∧ ng_Validator g = Some v) →
  Forall no_nul (account_fields v).

Definition groups_run (s : ChainNodeSet) : Prop := ∀ g, g ∈ ss_Nodes (cns_Spec s) → (0 < GetInstances g)%Z.

Section frozen.
Context `{QuantityApi} `{UrlApi} `{DatasizeApi} `{DnsApi} `{GenesisJsonLaws}.

#[export] Instance same_genesis_refl : Reflexive same_genesis.
Proof. intros [[v k]|]; simpl; [|done]. by split. Qed.
Lemma same_genesis_trans a b c : same_genesis a b → same_genesis b c → same_genesis a c.
Proof.
  destruct a as [[]|], b as [[]|], c as [[]|]; simpl; try done.
  intros [(E1 & E2 & E3) ->] [(F1 & F2 & F3) ->]. split; [|done]. split_and!; congruence.
Qed.

Lemma changed_same nodeSet old group o n d :
  Forall no_nul (account_fields o) → Forall no_nul (account_fields n) →
  genesis_changed nodeSet old group o n d = false → same_configuration n o.
Proof.
  intros Ho Hn. unfold genesis_changed. destruct (_ || _).
  - intros E. to_prop. apply configuration_eq in E as (Ea & Ei & En); [|done..]. by split_and!.
  - unfold genesisSigningMaterialChanged. intros E. to_prop.
    destruct (nv_fingerprint_split o d) as [p Ep], (nv_fingerprint_split n d) as [q Eq]. rewrite Ep, Eq in E.
    apply configuration_inj in E as (_ & Ea & Ei & En); [|done..]. by split_and!.
Qed.

Lemma group_named_in s name g : group_named s name = Some g → g ∈ ss_Nodes (cns_Spec s) ∧ ng_Name g = name.
Proof. intros [? E]%find_last_Some. by to_prop. Qed.

Lemma group_named_of s g : g ∈ ss_Nodes (cns_Spec s) → is_Some (group_named s (ng_Name g)).
Proof. intros Hg. apply (find_last_is_Some _ _ g Hg). by apply bool_decide_eq_true_2. Qed.

Section update.
Context (old new : ChainNodeSet).
Hypothesis established : sst_ChainID (cns_Status old) ≠ "".
Hypothesis old_runs : groups_run old.
Hypothesis new_runs : groups_run new.
Hypothesis plain_old : plain_set old.
Hypothesis plain_new : plain_set new.
Hypothesis accepted : is_ok (validate_established new (Some old)) = true.

Lemma established_parts :
  is_ok (check_singleton_genesis new old) = true ∧
  (∀ i g, ss_Nodes (cns_Spec new) !! i = Some g → is_ok (check_new_group new old i g) = true) ∧
  (∀ og, og ∈ ss_Nodes (cns_Spec old) → is_ok (check_old_group new og) = true).
Proof using established accepted.
  unfold validate_established in accepted. rewrite bool_decide_eq_false_2 in accepted by done.
  rewrite !is_ok_seq, !andb_true_iff, is_ok_for_each, is_ok_for_each_from in accepted. exact accepted.
Qed.

Lemma singleton_frozen : same_genesis (genesis_of old ReservedValidatorGroupName) (genesis_of new ReservedValidatorGroupName).
Proof using Type*.
  destruct established_parts as (Hs & _). unfold check_singleton_genesis in Hs.
  rewrite !is_ok_seq, !andb_true_iff, !is_ok_guard in Hs. destruct Hs as (Hadd & Hrem & Hch).
  unfold genesis_of. rewrite bool_decide_eq_true_2 by done. unfold initializes in *.
  destruct (ss_Validator (cns_Spec old)) as [o|] eqn:Eo, (ss_Validator (cns_Spec new)) as [n|] eqn:En; simpl in *;
    [|by destruct (is_some (nv_Init o))|by destruct (is_some (nv_Init n))|done].
  destruct (is_some (nv_Init o)), (is_some (nv_Init n)); simpl in *; try done. split; [|done].
  rewrite is_ok_guard in Hch. simpl in Hch. apply negb_true_iff, changed_same in Hch; [|by apply plain_old; left|by apply plain_new; left].
  destruct Hch as (E1 & E2 & E3). by split_and!.
Qed.

Lemma kept_group og g o n :
  og ∈ ss_Nodes (cns_Spec old) → g ∈ ss_Nodes (cns_Spec new) → ng_Name g = ng_Name og →
  ng_Validator og = Some o → ng_Validator g = Some n → ∀ i, is_ok (check_genesis_group new old i g og o n) = true →
  same_configuration o n ∧ genesis_size old og = genesis_size new g.
Proof using Type*.
  intros Hog Hg E Eo En i. unfold check_genesis_group. cbv zeta. rewrite E.
  rewrite !is_ok_seq, !is_ok_guard, !andb_true_iff, !negb_true_iff. intros (Ht & Hup & Hdown & Hch).
  apply changed_same in Hch as (E1 & E2 & E3); [|apply plain_old; right; eauto|apply plain_new; right; eauto].
  split; [by split_and!|]. unfold genesis_size. rewrite E.
  pose proof (old_runs og Hog). pose proof (new_runs g Hg).
  destruct (is_some (groupCosmosigner old (ng_Name og))), (is_some (groupCosmosigner new (ng_Name og))); simpl in *;
    rewrite ?andb_true_r in *; lia.
Qed.

Lemma group_frozen name : name ≠ ReservedValidatorGroupName → same_genesis (genesis_of old name) (genesis_of new name).
Proof using Type*.
  intros Hn. unfold genesis_of. rewrite bool_decide_eq_false_2 by done.
  destruct established_parts as (_ & Hnew & Hold).
  destruct (group_named new name) as [g|] eqn:Eg.
  - destruct (group_named_in _ _ _ Eg) as [Hg Hgn]. pose proof Hg as (i & Hi)%list_elem_of_lookup.
    specialize (Hnew i g Hi). unfold check_new_group in Hnew. rewrite Hgn in Hnew.
    destruct (group_named old name) as [og|] eqn:Eog.
    + destruct (group_named_in _ _ _ Eog) as [Hog Hogn]. specialize (Hold og Hog). unfold check_old_group in Hold.
      rewrite Hogn, Eg in Hold. simpl in *. unfold initializes in Hold.
      pose proof (old_runs og Hog).
      destruct (ng_Validator og) as [o|] eqn:Eo, (ng_Validator g) as [n|] eqn:En; simpl in *.
      * destruct (is_some (nv_Init o)) eqn:Io, (is_some (nv_Init n)) eqn:In_; simpl in *; try done.
        -- split; eapply (kept_group og g o n); eauto; congruence.
        -- assert (E : (GetInstances og =? 0)%Z = false) by lia. by rewrite E in Hold.
      * destruct (is_some (nv_Init o)); simpl in *; [|done].
        assert (E : (GetInstances og =? 0)%Z = false) by lia. by rewrite E in Hold.
      * by destruct (is_some (nv_Init n)).
      * done.
    + simpl. destruct (ng_Validator g) as [n|]; simpl; [|done]. by destruct (is_some (nv_Init n)).
  - simpl. destruct (group_named old name) as [og|] eqn:Eog; [|done]. simpl.
    destruct (group_named_in _ _ _ Eog) as [Hog Hogn]. specialize (Hold og Hog). unfold check_old_group in Hold.
    rewrite Hogn, Eg in Hold. simpl in Hold. unfold initializes in Hold.
    pose proof (old_runs og Hog).
    destruct (ng_Validator og) as [o|]; simpl in *; [|done]. destruct (is_some (nv_Init o)); simpl in *; [|done].
    assert (E : (GetInstances og =? 0)%Z = false) by lia. by rewrite E in Hold.
Qed.

Lemma genesis_frozen name : same_genesis (genesis_of old name) (genesis_of new name).
Proof using Type*.
  destruct (decide (name = ReservedValidatorGroupName)) as [->|]; [apply singleton_frozen|by apply group_frozen].
Qed.
End update.
End frozen.

(** *** Over the life of a set *)

(** The changes an established set goes through: an update of its specification that the webhook
    admits and that leaves the status to the controllers, and a status update of a controller, which
    keeps the chain. *)
Inductive set_step `{QuantityApi} `{UrlApi} `{DatasizeApi} `{DnsApi} `{GenesisJson} : ChainNodeSet → ChainNodeSet → Prop :=
  | spec_update old new w :
      cns_Status new = cns_Status old → plain_set new → nodeset_ValidateUpdate old new = Ok w → set_step old new
  | status_update old new :
      cns_Spec new = cns_Spec old → cns_meta new = cns_meta old →
      sst_ChainID (cns_Status new) = sst_ChainID (cns_Status old) → set_step old new.

Section life.
Context `{QuantityApi} `{UrlApi} `{DatasizeApi} `{DnsApi} `{GenesisJsonLaws}.

Definition running_set (s : ChainNodeSet) : Prop := sst_ChainID (cns_Status s) ≠ "" ∧ plain_set s ∧ groups_run s.

Lemma running_step old new :
  set_step old new → running_set old → running_set new ∧ ∀ name, same_genesis (genesis_of old name) (genesis_of new name).
Proof.
  intros Hs (Hc & Hp & Hr). destruct Hs as [old new w Est Hpn Hok|old new Es Em Ec].
  - assert (Hrn : groups_run new).
    { intros g Hg. pose proof (admitted_groups_run _ (admitted _ _ _ Hok) g Hg). lia. }
    split; [split_and!; [by rewrite Est|done..]|]. intros name.
    pose proof (accepted_checks _ _ _ Hok) as (_ & _ & _ & He & _). by apply genesis_frozen.
  - destruct old as [m sp st], new as [m' sp' st']. simpl in *. subst. split; [|intros name; reflexivity].
    split; [simpl; by rewrite Ec|]. by split.
Qed.

(** C12: the genesis validator set of a running chain never changes.  Along every sequence of
    admitted updates and status updates, each group name stands for the same genesis validators:
    the groups that initialized the genesis stay, no other joins them, each keeps contributing the
    same number of validators, and their genesis configuration (accounts, description and the
    whole block but its deprecated fields) stays as it was. *)
Theorem genesis_preserved s t name :
  rtc set_step s t → running_set s → same_genesis (genesis_of s name) (genesis_of t name).
Proof.
  induction 1 as [s|s u t Hsu _ IH]; intros Hr; [reflexivity|].
  destruct (running_step _ _ Hsu Hr) as [Hru Hg]. eapply same_genesis_trans; [apply Hg|by apply IH].
Qed.
End life.

(** *** An example *)

Definition example_set (secret : option string) (instances : option Z) (stake : string) : ChainNodeSet :=
  mkChainNodeSet (mkMeta "set" "ns" "u" ∅ None [] [] None 0 "")
    (newChainNodeSetSpec (newAppSpec "img" None "app" []) None
       [ng_with_Instances (ng_with_Validator (newNodeGroup "vals") (Some (initializer secret stake))) instances] None)
    (newChainNodeSetStatus "c" [] 0 []).
Definition plain_labels : DnsApi :=
  {| IsDNS1123Label _ := []; IsDNS1123Subdomain _ := []; IsWildcardDNS1123Subdomain _ := [] |}.
Definition no_urls : UrlApi := {| ParseRequestURI _ := Err (Sentinel "url") |}.
Definition no_sizes : DatasizeApi := {| datasize_ParseString _ := Err (Sentinel "size") |}.

#[local] Existing Instances reference_quantity plain_labels no_urls no_sizes reference_documents.


Lemma empty_group_witness : is_ok (nodeset_Validate (example_set None (Some 0%Z) "c") None) = false.
Proof.
  eapply (empty_group_rejected _ None _). { simpl. left. } { done. }
Defined.

(** Growing the group is rejected; keeping it is a step of the set. *)
Lemma genesis_preserved_witness :
  is_ok (nodeset_ValidateUpdate (example_set None (Some 2%Z) "c") (example_set None (Some 3%Z) "c")) = false ∧
  same_genesis (genesis_of (example_set None (Some 2%Z) "c") "vals") (genesis_of (example_set None (Some 2%Z) "c") "vals").
Proof.
  split; [vm_compute; reflexivity|].
  assert (Hp : plain_set (example_set None (Some 2%Z) "c")).
  { intros v [E|(g & [->|Hg]%elem_of_cons & E)]; [done| |by apply elem_of_nil in Hg].
    injection E as <-. repeat constructor. }
  apply (genesis_preserved (H4 := reference_documents_laws)).
  - eapply rtc_once, spec_update; [reflexivity|exact Hp|vm_compute; reflexivity].
  - split_and!; [done|exact Hp|]. intros g [->|Hg]%elem_of_cons; [done|by apply elem_of_nil in Hg].
Defined.
