(* ===== verification/ChainNodeWebhook.v ===== *)
(** * Admission of a [ChainNode] ([api/v1/chainnode_webhook.go])

    [Validate] on the webhook path, where the previous object is known, and on
    the reconcile path without webhooks, where the status stands in for it. *)

From S2P Require Import Prelude GoLib ThirdParty Reference ApiTypes DerivedNames CosmosignerSpec SignerResolve Getters.
From S2P Require Import Exporter SpecValidation UniqueSecrets SignerWebhook ResourceCleanup GenesisFingerprint NodeSetWebhook.

(** ** Names and warnings *)

Definition IsControlledByChainNodeSet (n : ChainNode) : bool :=
  existsb (λ ref, (or_Kind ref == "ChainNodeSet") && (or_APIVersion ref == GroupVersion) &&
                  default false (or_Controller ref) && (or_UID ref != "")) (meta_OwnerReferences (cn_meta n)).

Definition chainnode_tmKMSDeprecationWarnings (n : ChainNode) : Warnings :=
  match ns_Validator (cn_Spec n) ≫= vc_TmKMS with
  | None => []
  | Some t =>
      ".spec.validator.tmKMS is deprecated and will be removed in a future version; migrate to .spec.cosmosigner" ::
      (if auto_renews t
       then [".spec.validator.tmKMS.provider.hashicorp.autoRenewToken uses the deprecated vault-token-renewer sidecar; migrate to .spec.cosmosigner, which renews Vault tokens internally"]
       else [])
  end.

Section node.
Context `{QuantityApi} `{UrlApi} `{DatasizeApi} `{DnsApi} `{GenesisJson}.

(** ** The specification *)

Definition node_init (n : ChainNode) : option GenesisInitConfig := ns_Validator (cn_Spec n) ≫= vc_Init.

Definition validate_node_spec (n : ChainNode) : result () :=
  let sp := cn_Spec n in
  DeletionPolicy_Validate (ns_DeletionPolicy sp) ".spec.deletionPolicy";;
  guard_err (negb (is_ok (ParseQuantity (GetPersistenceSize n)))) (Errorf "bad format for .spec.size: %v" []);;
  validateDerivedNameLengths (cn_Name n) "ChainNode name"
    (mkNameFeatures (is_some (ns_Cosmosigner sp)) (CosmoGuardEnabled (ns_Config sp)) false);;
  guard_err (negb (is_some (node_init n)) && negb (is_some (ns_Genesis sp)))
    (Errorf ".spec.genesis is required except when initializing new genesis with .spec.validator.init" []);;
  guard_err (is_some (node_init n) && is_some (ns_Genesis sp))
    (Errorf ".spec.genesis and .spec.validator.init are mutually exclusive" []);;
  match ns_Persistence sp ≫= pe_Snapshots with
  | Some s => validateSnapshotsConfig s ".spec.persistence.snapshots"
  | None => Ok ()
  end;;
  match ValidateCosmoGuardDashboard (ns_Config sp) (cn_Namespace n) with
  | Err e => Err (Wrapf e ".spec.config.%w" [])
  | Ok _ => Ok ()
  end;;
  match ns_Ingress sp with
  | Some ing => ValidateSubdomainPrefixes ".spec.ingress" (in_Subdomains ing) (in_Enable ing)
  | None => Ok ()
  end;;
  match ns_Gateway sp with
  | Some gw => ValidateSubdomainPrefixes ".spec.gateway" (gw_Subdomains gw) (gw_Enable gw)
  | None => Ok ()
  end;;
  validateGenesisValidators n;;
  guard_err (ns_RemoteSignerTarget sp && negb (is_some (ns_Cosmosigner sp)) && negb (IsControlledByChainNodeSet n))
    (Errorf ".spec.remoteSignerTarget is managed by the ChainNodeSet controller and cannot be set manually" []).

(** ** The signer *)

Definition node_registers (n : ChainNode) : bool :=
  match ns_Validator (cn_Spec n) with Some v => is_some (vc_Init v) || is_some (vc_CreateValidator v) | None => false end.
Definition hasValidatorKey (n : ChainNode) : bool :=
  match ns_Validator (cn_Spec n) with Some v => set_and_not_empty (vc_PrivateKeySecret v) | None => false end.

Definition node_registrationRecorded (n : ChainNode) : bool :=
  (nst_ValidatorAddress (cn_Status n) != "") && (nst_PubKey (cn_Status n) != "") && (nst_ValidatorStatus (cn_Status n) != "").

Definition signer_status (n : ChainNode) : ChainNodeSignerStatus := nst_Cosmosigner (cn_Status n).
Definition chain_id (n : ChainNode) : string := nst_ChainID (cn_Status n).

Definition node_migrationWaiver (n : ChainNode) (old : option ChainNode) : bool :=
  match old with
  | Some old => (chain_id old != "") && is_some (ns_Validator (cn_Spec old)) && node_registrationRecorded old
  | None =>
      let recordedDigest := css_SigningDigest (signer_status n) in
      (chain_id n != "") && node_registrationRecorded n && (recordedDigest != "") &&
      (recordedDigest == CosmosignerSigningDigest n)
  end.

(** The software backend uses the node's own key; a node without one names a secret. *)
Definition check_software_key (n : ChainNode) (c : option Cosmosigner) : result () :=
  if negb (UsesSoftwareBackend c) then Ok () else
  if negb (IsValidator n) then
    guard_err (negb (set_and_not_empty (software_secret c)))
      (Errorf ".spec.cosmosigner.backend.software.privateKeySecret is required when the node is not a validator" [])
  else
    guard_err (set_and_not_empty (software_secret c))
      (Errorf ".spec.cosmosigner.backend.software.privateKeySecret cannot be set when the node is a validator: the validator's own key is used" []);;
    guard_err (negb (node_registers n) && negb (hasValidatorKey n))
      (Errorf ".spec.cosmosigner software backend on a validator that consumes an external genesis requires .spec.validator.privateKeySecret: its consensus key is not generated" []).

(** An import of the node's own key has a source. *)
Definition check_import_source (n : ChainNode) (imports : bool) (field : string) : result () :=
  if negb imports then Ok () else
  guard_err (negb (IsValidator n))
    (Errorf (field +:+ " requires the node to be a validator whose key can be imported") []);;
  guard_err (negb (node_registers n) && negb (hasValidatorKey n))
    (Errorf (field +:+ " requires the validator to initialize genesis, use createValidator, or set an explicit privateKeySecret to import") []).

Definition validate_node_signer (n : ChainNode) (old : option ChainNode) : result () :=
  let c := ns_Cosmosigner (cn_Spec n) in
  if negb (is_some c) then Ok () else
  let initializesGenesis := is_some (node_init n) in
  Validate c ".spec.cosmosigner" false;;
  guard_err (UsesTmKms n) (Errorf ".spec.cosmosigner and .spec.validator.tmKMS are mutually exclusive" []);;
  guard_err (UsesVaultBackend c && VaultUploadsGenerated c initializesGenesis && negb (vault_version c =? 1)%Z)
    (Errorf ".spec.cosmosigner Vault key imports require keyVersion 1 because Vault creates imported material as the initial key version" []);;
  check_software_key n c;;
  check_import_source n (UsesVaultBackend c && vault_uploads c) ".spec.cosmosigner.backend.vault.uploadGenerated";;
  check_import_source n (GcpImportsKey c) ".spec.cosmosigner.backend.gcpKms.import";;
  guard_err (node_registers n && negb (node_migrationWaiver n old) &&
             negb (UsesSoftwareBackend c || ImportsGeneratedKey c initializesGenesis))
    (Errorf ".spec.cosmosigner on a validator that initializes genesis or uses createValidator requires the software backend, vault.uploadGenerated or gcpKms.import so the registered consensus key matches the signer" []).

(** ** An update *)

(** The storage recorded for the state of a signer is the one asked for. *)
Definition node_storage_kept (st : ChainNodeSignerStatus) (c : option Cosmosigner) : bool :=
  (css_StateStorageSize st == "") ||
  CosmosignerStateStorageEqual (css_StateStorageSize st) (css_StateStorageClassName st) (GetStateStorageSize c)
    (c ≫= cs_StorageClassName).
Definition node_replicas_kept (st : ChainNodeSignerStatus) (c : option Cosmosigner) : bool :=
  match css_Replicas st with Some r => (r =? GetReplicas c)%Z | None => true end.
Definition node_recorded_replicas (st : ChainNodeSignerStatus) : Z := default 0%Z (css_Replicas st).
Definition node_migration_ready (st : ChainNodeSignerStatus) : bool := (css_AppliedDigest st != "") && (css_PublicKey st != "").

Definition validatorSignerServed (st : ChainNodeSignerStatus) : bool :=
  (css_ServingIdentity st != "") || (css_SigningDigest st != "") || default false (css_ValidatorTargeted st).

Definition validate_node_update (n old : ChainNode) : result () :=
  let c := ns_Cosmosigner (cn_Spec n) in
  let oldC := ns_Cosmosigner (cn_Spec old) in
  let st := signer_status old in
  validateCosmosignerReplicasImmutable oldC c;;
  (if is_some c then
     guard_err (negb (node_replicas_kept st c))
       (Errorf ".spec.cosmosigner.replicas must stay %d until the previous signer's teardown completes: its raft state PVCs may still exist and their membership does not match"
          [AInt (node_recorded_replicas st)]);;
     guard_err (negb (node_storage_kept st c))
       (Errorf ".spec.cosmosigner.stateStorageSize/.storageClassName must stay unchanged until the previous signer's teardown completes: its raft state PVCs may still exist at the old size/class" [])
   else Ok ());;
  if (chain_id old == "") || (negb (is_some oldC) && negb (is_some c)) then Ok () else
  guard_err (IsValidator old && negb (IsValidator n))
    (Errorf ".spec.validator cannot be removed while migrating cosmosigner on an established validator" []);;
  guard_err (is_some oldC && negb (is_some c) && validatorSignerServed st)
    (Errorf ".spec.cosmosigner cannot be removed from an established validator without a supported slash-protection state handoff; migrate to another managed signer before removing it" []);;
  guard_err (is_some oldC && is_some c && (CosmosignerSigningDigest old != CosmosignerSigningDigest n) && negb (node_migration_ready st))
    (Errorf ".spec.cosmosigner cannot be migrated until the controller records its applied public key; restore the previous configuration and wait for one reconcile" []).

(** ** Without webhooks: the status stands in for the previous object *)

Definition check_removed_without_webhook (n : ChainNode) : result () :=
  let st := signer_status n in
  let serving := css_ServingIdentity st in
  guard_err ((serving != "") && negb (IsValidator n))
    (Errorf ".spec.cosmosigner cannot be removed together with .spec.validator (webhooks disabled): the on-chain validator would have no signing path" []);;
  (if (serving == "") && (css_SigningDigest st == "") && (is_some (css_Replicas st) || (css_StateStorageSize st != "")) then
     match css_ValidatorTargeted st with
     | None => Err (Errorf ".spec.cosmosigner cannot be removed (webhooks disabled): its pre-rollout target kind was not recorded, so the controller cannot prove whether an on-chain validator would lose its signing path — restore the signer so the controller can record it, or remove it with webhooks enabled" [])
     | Some targeted =>
         guard_err targeted
           (Errorf ".spec.cosmosigner cannot be removed (webhooks disabled): its validator rollout identity has not been recorded yet, so the controller cannot prove the local fallback key is safe — restore the signer until rollout completes, or remove it with webhooks enabled" [])
     end
   else Ok ());;
  guard_err ((serving == "") && (css_SigningDigest st != ""))
    (Errorf ".spec.cosmosigner cannot be removed (webhooks disabled): a signer served this chain but its recorded identity predates this version and cannot be verified — restore the signer so the controller can record it, or remove it with webhooks enabled" []).

Definition check_kept_without_webhook (n : ChainNode) : result () :=
  let c := ns_Cosmosigner (cn_Spec n) in
  let st := signer_status n in
  let serving := css_ServingIdentity st in
  guard_err (negb (node_replicas_kept st c))
    (Errorf ".spec.cosmosigner.replicas is immutable after the signer is deployed (webhooks disabled): changing it does not migrate the raft membership and can break quorum" []);;
  guard_err (negb (node_storage_kept st c))
    (Errorf ".spec.cosmosigner.stateStorageSize/.storageClassName are immutable after the signer is deployed (webhooks disabled): its raft state PVCs cannot be resized or moved — remove the signer and re-add it" []);;
  if css_SigningDigest st != "" then
    guard_err ((CosmosignerSigningDigest n != css_SigningDigest st) && negb (node_migration_ready st))
      (Errorf ".spec.cosmosigner cannot be migrated with webhooks disabled until the controller records its applied public key; restore the previous configuration and wait for one reconcile" []);;
    guard_err ((serving != "") && negb (IsValidator n))
      (Errorf ".spec.cosmosigner: the validator the signer was serving can no longer be resolved (webhooks disabled) — removing the validator block would leave its on-chain key without its signing path" []);;
    guard_err ((serving == "") && (CosmosignerValidatorTargetedIdentity n == ""))
      (Errorf ".spec.cosmosigner: a signer served a validator on this chain but its recorded identity predates this version and the validator block is gone (webhooks disabled) — restore .spec.validator, or repair the configuration with webhooks enabled" [])
  else
    match css_AtEstablishment st with
    | Some marker =>
        guard_err ((marker != "") && negb (IsValidator n))
          (Errorf ".spec.cosmosigner: the signer was responsible for an on-chain validator key at establishment but has not recorded a signing digest (webhooks disabled) — keep .spec.validator until it rolls out, or repair the configuration with webhooks enabled" [])
    | None => Ok ()
    end.

Definition validate_without_webhook (n : ChainNode) : result () :=
  if chain_id n == "" then Ok () else
  if is_some (ns_Cosmosigner (cn_Spec n)) then check_kept_without_webhook n else check_removed_without_webhook n.

(** ** The genesis block *)

Definition node_genesis_changed (n old : ChainNode) (o v : ValidatorConfig) : bool :=
  if IsSignerTarget old || IsSignerTarget n
  then vc_configuration o != vc_configuration v
  else let d := cn_Name n +:+ "-priv-key" in
       vc_GenesisSigningFingerprint (Some o) d != vc_GenesisSigningFingerprint (Some v) d.

Definition check_node_genesis_update (n old : ChainNode) : result () :=
  if chain_id old == "" then Ok () else
  let newHasInit := is_some (node_init n) in
  let oldHasInit := is_some (node_init old) in
  guard_err (newHasInit && negb oldHasInit) (Errorf ".spec.validator.init cannot be added after genesis has been created" []);;
  guard_err (oldHasInit && negb newHasInit)
    (Errorf ".spec.validator.init cannot be removed after genesis has been created: its validator is part of the immutable genesis validator set" []);;
  match ns_Validator (cn_Spec old), ns_Validator (cn_Spec n) with
  | Some o, Some v =>
      guard_err (oldHasInit && newHasInit && node_genesis_changed n old o v)
        (Errorf ".spec.validator.init is immutable after genesis has been created: changing it would regenerate a different genesis for the same chain ID" [])
  | _, _ => Ok ()
  end.

Definition check_node_genesis_record (n : ChainNode) : result () :=
  let recorded := nst_GenesisSigningDigest (cn_Status n) in
  if (chain_id n == "") || (recorded == "") then Ok () else
  if recorded == GenesisDigestExternal then
    guard_err (is_some (node_init n))
      (Errorf ".spec.validator.init cannot be added after genesis has been created: this node consumed an external genesis and is not part of its validator set" [])
  else
    guard_err ((vc_GenesisSigningFingerprint (ns_Validator (cn_Spec n)) (cn_Name n +:+ "-priv-key") != recorded) &&
               negb (chainnode_GenesisSigningDigestAllowsRefresh n recorded))
      (Errorf ".spec.validator.init cannot be changed or removed after genesis has been created: its validator is part of the immutable genesis validator set" []).

(** ** The webhook *)

Definition chainnode_Validate (n : ChainNode) (old : option ChainNode) : result Warnings :=
  validate_node_spec n;;
  validate_node_signer n old;;
  match old with Some old => validate_node_update n old | None => validate_without_webhook n end;;
  match old with Some old => check_node_genesis_update n old | None => check_node_genesis_record n end;;
  Ok (chainnode_tmKMSDeprecationWarnings n).

Definition chainnode_ValidateCreate (obj : ChainNode) : result Warnings :=
  (if IsControlledByChainNodeSet obj then Ok () else
   ValidateReservedResourceName (cn_Name obj) true;; ValidateReservedStatefulChildName (cn_Name obj) true);;
  chainnode_Validate obj None.
Definition chainnode_ValidateUpdate (oldObj newObj : ChainNode) : result Warnings := chainnode_Validate newObj (Some oldObj).
Definition chainnode_ValidateDelete (obj : ChainNode) : result Warnings := Ok [].
End node.

(** ** The two paths *)

Section paths.
Context `{GenesisJsonLaws}.

Definition node_fields (n : ChainNode) : list string :=
  match ns_Validator (cn_Spec n) with
  | Some v => [vc_GetAccountPrefix (Some v); vc_GetValPrefix (Some v); vc_GetAccountHDPath (Some v)]
  | None => [""; ""; ""]
  end.
Definition node_fingerprint (n : ChainNode) : string :=
  vc_GenesisSigningFingerprint (ns_Validator (cn_Spec n)) (cn_Name n +:+ "-priv-key").

Lemma node_fingerprint_split n :
  ∃ pre p v h info, node_fields n = [p; v; h] ∧
  node_fingerprint n = pre +:+ nul +:+ genesisConfigurationFingerprint (node_init n) info p v h.
Proof.
  unfold node_fingerprint, node_fields, node_init. destruct (ns_Validator (cn_Spec n)) as [c|]; simpl.
  - exists (default (cn_Name n +:+ "-priv-key") (vc_PrivateKeySecret c) +:+ nul +:+ default "" (tmKMSSigningKeyIdentity (vc_TmKMS c))).
    do 4 eexists. split; [reflexivity|]. by rewrite !string_app_assoc.
  - exists ((cn_Name n +:+ "-priv-key") +:+ nul +:+ ""). do 3 eexists. exists None. split; [reflexivity|].
    cbn -[String.append genesisConfigurationFingerprint nul]. by rewrite !string_app_assoc.
Qed.

(** A node whose fingerprint is that of an initializer initializes the genesis. *)
Lemma same_fingerprint_init n old :
  Forall no_nul (node_fields n) → Forall no_nul (node_fields old) →
  is_some (node_init old) = true → node_fingerprint n = node_fingerprint old → is_some (node_init n) = true.
Proof.
  intros Hn Ho Hi E.
  destruct (node_fingerprint_split n) as (p & a & b & c & i & Fn & En).
  destruct (node_fingerprint_split old) as (q & a' & b' & c' & j & Fo & Eo).
  rewrite En, Eo in E. rewrite Fn in Hn. rewrite Fo in Ho.
  apply configuration_inj in E as (_ & _ & _ & E); [|done..].
  destruct (node_init old); [|done]. by apply init_document_some in E.
Qed.

(** No signer signs for the node. *)
Definition signs_itself (n : ChainNode) : Prop :=
  ns_Cosmosigner (cn_Spec n) = None ∧ ns_RemoteSignerTarget (cn_Spec n) = false.

(** The status the controller keeps of [old], carried by the changed object. *)
Definition keeps_record (n old : ChainNode) : Prop :=
  cn_Name n = cn_Name old ∧ cn_Status n = cn_Status old ∧ chain_id old ≠ "" ∧
  nst_GenesisSigningDigest (cn_Status old) = node_fingerprint old.

Lemma record_raw old : node_fingerprint old ≠ "" ∧ node_fingerprint old ≠ GenesisDigestExternal.
Proof.
  destruct (node_fingerprint_split old) as (q & a' & b' & c' & j & _ & ->). apply recorded_is_raw.
Qed.

Lemma update_check_fingerprint n old :
  Forall no_nul (node_fields n) → Forall no_nul (node_fields old) →
  cn_Name n = cn_Name old → chain_id old ≠ "" → is_some (node_init old) = true → signs_itself n → signs_itself old →
  is_ok (check_node_genesis_update n old) = bool_decide (node_fingerprint n = node_fingerprint old).
Proof.
  intros Fn Fo En Hc Hi [Sn Rn] [So Ro]. unfold check_node_genesis_update. rewrite bool_decide_eq_false_2 by done.
  rewrite Hi. rewrite !is_ok_seq, !is_ok_guard. simpl. rewrite andb_false_r. simpl.
  destruct (is_some (node_init n)) eqn:In_; simpl.
  - unfold node_init in *. unfold node_fingerprint, node_genesis_changed, IsSignerTarget, UsesCosmosigner. rewrite Sn, So, Rn, Ro, En. simpl.
    destruct (ns_Validator (cn_Spec old)) as [o|]; [|done]. destruct (ns_Validator (cn_Spec n)) as [v|]; [|done].
    rewrite is_ok_guard. simpl. rewrite negb_involutive. apply bool_decide_ext. naive_solver.
  - symmetry. apply bool_decide_eq_false_2. intros E. apply same_fingerprint_init in E; [congruence|done..].
Qed.

Lemma record_check_fingerprint n old :
  keeps_record n old → ns_Cosmosigner (cn_Spec n) = None → css_AppliedDigest (signer_status n) = "" →
  is_ok (check_node_genesis_record n) = bool_decide (node_fingerprint n = node_fingerprint old).
Proof.
  intros (En & Es & Hc & Hr) Sn Ha. unfold check_node_genesis_record. destruct (record_raw old) as [H1' H2'].
  unfold chain_id in *. rewrite Es, Hr. rewrite !bool_decide_eq_false_2 by done. simpl.
  rewrite is_ok_guard. fold (node_fingerprint n).
  assert (chainnode_GenesisSigningDigestAllowsRefresh n (node_fingerprint old) = false) as ->.
  { unfold chainnode_GenesisSigningDigestAllowsRefresh. destruct (ns_Validator (cn_Spec n)); [|done].
    unfold signer_status in Ha. rewrite Sn, Ha. by destruct (_ || _). }
  simpl. rewrite andb_true_r, negb_involutive. done.
Qed.

(** For a node that initialized its genesis and signs with its own key, the reconcile path
    without webhooks, which only has the recorded fingerprint, decides a change of the genesis block
    or the signing key exactly as the webhook, which has the previous object. *)
Theorem genesis_paths_agree n old
    (Fn : Forall no_nul (node_fields n)) (Fo : Forall no_nul (node_fields old))
    (Hi : is_some (node_init old) = true) (Hr : keeps_record n old)
    (Sn : signs_itself n) (So : signs_itself old) (Ha : css_AppliedDigest (signer_status n) = "") :
  is_ok (check_node_genesis_record n) = is_ok (check_node_genesis_update n old).
Proof.
  pose proof Hr as (En & _ & Hc & _). destruct Sn as [Sn Rn].
  by rewrite (record_check_fingerprint n old Hr Sn Ha), update_check_fingerprint.
Qed.

(** C34: the paths part for a child of a set, whose signer is its parent's.  When such a child
    changes its signing key and nothing else of its genesis configuration, as it does when its
    group moves to a managed signer, the webhook admits the change and the path without webhooks
    rejects it. *)
Theorem child_migration_rejected n old o v
    (Vo : ns_Validator (cn_Spec old) = Some o) (Vn : ns_Validator (cn_Spec n) = Some v)
    (Hi : vc_Init o ≠ None) (Hn : vc_Init v ≠ None) (Hr : keeps_record n old)
    (Hsame : vc_configuration v = vc_configuration o) (Hkey : node_fingerprint n ≠ node_fingerprint old)
    (Htarget : ns_RemoteSignerTarget (cn_Spec n) = true) (Hown : ns_Cosmosigner (cn_Spec n) = None)
    (Ha : css_AppliedDigest (signer_status n) = "") :
  is_ok (check_node_genesis_update n old) = true ∧ is_ok (check_node_genesis_record n) = false.
Proof.
  split.
  - pose proof Hr as (_ & _ & Hc & _). unfold check_node_genesis_update. rewrite bool_decide_eq_false_2 by done.
    unfold node_init. rewrite Vo, Vn. simpl. destruct (vc_Init o), (vc_Init v); try done. simpl.
    rewrite is_ok_guard. unfold node_genesis_changed, IsSignerTarget. rewrite Htarget, !orb_true_r. by rewrite bool_decide_eq_true_2.
  - rewrite (record_check_fingerprint n old Hr Hown Ha). by apply bool_decide_eq_false_2.
Qed.
End paths.

(** ** What an admitted update keeps *)

Section kept.
Context `{QuantityApi} `{UrlApi} `{DatasizeApi} `{DnsApi} `{GenesisJson}.

Lemma accepted_node n old w :
  chainnode_Validate n old = Ok w →
  is_ok (validate_node_spec n) = true ∧ is_ok (validate_node_signer n old) = true ∧
  match old with Some old => is_ok (validate_node_update n old) && is_ok (check_node_genesis_update n old) = true
               | None => is_ok (validate_without_webhook n) && is_ok (check_node_genesis_record n) = true end.
Proof.
  intros Hok. assert (Hr : is_ok (chainnode_Validate n old) = true) by by rewrite Hok. clear Hok.
  unfold chainnode_Validate in Hr.
  repeat match type of Hr with is_ok (_ ≫= _) = true => let u := fresh "u" in let K := fresh "K" in
    apply is_ok_bind in Hr as (u & K & Hr); destruct u end.
  rewrite K, K0. destruct old; rewrite K1, K2; done.
Qed.

(** an admitted update of a node of a running chain leaves it signing.  A node that initialized
    its genesis still does, and no other starts to; a signer that served, or was deployed for a
    validator, stays, with the validator it signs for, its replicas and its storage; and a signer
    that changes what it signs with has its applied key on record. *)
Theorem admitted_node_update n old w
    (Hok : chainnode_ValidateUpdate old n = Ok w) (Hc : chain_id old ≠ "") :
  is_some (node_init n) = is_some (node_init old) ∧
  (is_some (ns_Cosmosigner (cn_Spec old)) = true → validatorSignerServed (signer_status old) = true →
   is_some (ns_Cosmosigner (cn_Spec n)) = true ∧ (IsValidator old = true → IsValidator n = true) ∧
   GetReplicas (ns_Cosmosigner (cn_Spec old)) = GetReplicas (ns_Cosmosigner (cn_Spec n)) ∧
   (CosmosignerSigningDigest old ≠ CosmosignerSigningDigest n → node_migration_ready (signer_status old) = true)).
Proof.
  apply accepted_node in Hok as (_ & _ & [Hu Hg]%andb_true_iff). split.
  - unfold check_node_genesis_update in Hg. rewrite bool_decide_eq_false_2 in Hg by done.
    rewrite !is_ok_seq, !andb_true_iff, !is_ok_guard in Hg. destruct Hg as (Ha & Hb & _).
    by destruct (is_some (node_init n)), (is_some (node_init old)).
  - intros Hs Hserved. unfold validate_node_update in Hu. rewrite !is_ok_seq, !andb_true_iff in Hu.
    destruct Hu as (Hrep & _ & Hu). rewrite (bool_decide_eq_false_2 (chain_id old = "")) in Hu by done.
    rewrite Hs in Hu. simpl in Hu. rewrite !is_ok_seq, !is_ok_guard, !andb_true_iff, Hserved in Hu.
    destruct Hu as (Hv & Hc' & Hd).
    destruct (ns_Cosmosigner (cn_Spec n)) as [c|] eqn:Ec; [|done]. cbn [is_some andb negb] in *.
    split_and!; [done|by destruct (IsValidator old), (IsValidator n)| |].
    + destruct (ns_Cosmosigner (cn_Spec old)) as [oc|]; [|done]. unfold validateCosmosignerReplicasImmutable in Hrep.
      destruct (GetReplicas (Some oc) =? GetReplicas (Some c))%Z eqn:E; [by apply Z.eqb_eq|done].
    + intros Hne. rewrite bool_decide_eq_false_2 in Hd by done. by destruct (node_migration_ready _).
Qed.
End kept.

(** ** Examples *)

Definition example_validator_config (secret : string) : ValidatorConfig :=
  mkValidatorConfig (Some secret) None (Some (example_init "c")) None None None None None.
Definition child_spec (target : bool) (v : ValidatorConfig) : ChainNodeSpec :=
  mkChainNodeSpec None (newAppSpec "img" None "app" []) None None None (Some v) None target None None no_resources [] None
    no_resources ∅ None None None None None None.
Definition child_meta : ObjectMeta := mkMeta "set-vals-0" "ns" "u" ∅ None [] [] None 0 "".
Definition no_signer : ChainNodeSignerStatus := mkSignerStatus "" "" "" None "" "" None None "" None None "".
#[local] Existing Instances reference_quantity plain_labels no_urls no_sizes reference_documents.
(** The node as it was, and with its validator's secret [secret]; the status records the first. *)
Definition recorded_status : ChainNodeStatus :=
  mkChainNodeStatus PhaseChainNodeRunning "" "" "" "c" "" "" true "" "" false
    (vc_GenesisSigningFingerprint (Some (example_validator_config "a")) "set-vals-0-priv-key") "" 10 false [] "" "" "" no_signer [].
Definition child (target : bool) (secret : string) : ChainNode :=
  mkChainNode child_meta (child_spec target (example_validator_config secret)) recorded_status.

Lemma paths_agree_witness :
  is_ok (check_node_genesis_record (child false "b")) = is_ok (check_node_genesis_update (child false "b") (child false "a")) ∧
  is_ok (check_node_genesis_record (child false "b")) = false.
Proof.
  split; [|vm_compute; reflexivity].
  apply (genesis_paths_agree (H0 := reference_documents_laws)); repeat first [done|constructor].
Defined.

Lemma child_migration_witness :
  is_ok (check_node_genesis_update (child true "b") (child false "a")) = true ∧
  is_ok (check_node_genesis_record (child true "b")) = false.
Proof.
  apply (child_migration_rejected _ _ (example_validator_config "a") (example_validator_config "b"));
    try done; try (by split_and!); vm_compute; congruence.
Defined.

Lemma admitted_node_witness :
  is_some (node_init (child false "a")) = true ∧
  is_ok (chainnode_ValidateUpdate (child false "a") (mkChainNode child_meta (ns_with_Validator (child_spec false (example_validator_config "a")) None) recorded_status)) = false.
Proof.
  split; [|vm_compute; reflexivity].
  destruct (admitted_node_update (child false "a") (child false "a") []) as [E _]; [vm_compute; reflexivity|done|].
  exact E.
Defined.
