(* ===== verification/Labels.v ===== *)
(** * Labels ([internal/controllers/constant.go], [guard_labels.go], [pkg/utils/maps.go])

    The label keys of the controllers and what is inherited from the labels of an
    owner: never a key by which the controllers select pods. *)

From S2P Require Import Prelude GoLib IO ThirdParty ApiTypes KubeApi SignerResolve ChainNodeWebhook.

Definition LabelNodeID : string := "node-id".
Definition LabelChainID : string := "chain-id".
Definition LabelValidator : string := "validator".
Definition LabelChainNode : string := "chain-node".
Definition LabelChainNodeSet : string := "nodeset".
Definition LabelChainNodeSetGroup : string := "group".
Definition LabelChainNodeSetValidator : string := "validator".
Definition LabelGlobalIngress : string := "global-ingress".
Definition LabelScope : string := "scope".
Definition LabelApp : string := "app".
Definition LabelSeed : string := "seed".
Definition LabelPeer : string := "peer".
Definition LabelUpgrading : string := "upgrading".
Definition LabelCosmosignerTarget : string := "cosmosigner-target".
Definition LabelWorkerName : string := "worker-name".
Definition StringValueTrue : string := "true".
Definition StringValueFalse : string := "false".
Definition CosmoGuardLabelDomain : string := "cosmoguard.voluzi.com/".

Definition CosmosignerReservedSelectorLabels : list string :=
  [LabelChainNodeSetGroup; LabelChainNodeSetValidator; LabelApp; LabelScope; LabelPeer; LabelSeed; LabelChainID; LabelNodeID].

(** ** Maps *)

Definition ExcludeMapKeys (a : gmap string string) (exclude : list string) : gmap string string :=
  filter (λ kv, kv.1 ∉ exclude) a.
(** The second map wins. *)
Definition MergeMaps (a b : gmap string string) (exclude : list string) : gmap string string :=
  ExcludeMapKeys b exclude ∪ ExcludeMapKeys a exclude.

Definition StripCosmoGuardLabelDomain (labels : gmap string string) : gmap string string :=
  filter (λ kv, has_prefix kv.1 CosmoGuardLabelDomain || has_prefix kv.1 ("route." +:+ CosmoGuardLabelDomain) = false) labels.

Definition GuardInheritedLabels (ownerLabels : gmap string string) : gmap string string :=
  StripCosmoGuardLabelDomain (ExcludeMapKeys ownerLabels
    [LabelNodeID; LabelChainID; LabelValidator; LabelChainNode; LabelChainNodeSet; LabelChainNodeSetGroup;
     LabelChainNodeSetValidator; LabelGlobalIngress; LabelScope; LabelApp; LabelSeed; LabelPeer; LabelUpgrading;
     LabelCosmosignerTarget; LabelWorkerName]).

Definition WithChainNodeLabels (n : ChainNode) (additional : list (gmap string string)) : gmap string string :=
  let labels := foldl (λ l m, MergeMaps l m [LabelWorkerName])
                  (ExcludeMapKeys (meta_Labels (cn_meta n)) [LabelWorkerName; LabelCosmosignerTarget]) additional in
  StripCosmoGuardLabelDomain
    (if negb (IsControlledByChainNodeSet n) && (get_label labels LabelCosmosignerTarget != "")
     then delete LabelChainNodeSet labels else labels).

Definition WithChainNodeSetLabels (s : ChainNodeSet) (additional : list (gmap string string)) : gmap string string :=
  StripCosmoGuardLabelDomain
    (foldl (λ l m, MergeMaps l m []) (ExcludeMapKeys (meta_Labels (cns_meta s)) [LabelCosmosignerTarget]) additional).

(** ** Lemmas *)

Lemma lookup_ExcludeMapKeys a exclude k :
  ExcludeMapKeys a exclude !! k = if decide (k ∈ exclude) then None else a !! k.
Proof.
  unfold ExcludeMapKeys. destruct (a !! k) as [v|] eqn:E.
  - destruct (decide (k ∈ exclude)); [apply map_lookup_filter_None; right; by intros x _ []|].
    by apply map_lookup_filter_Some.
  - rewrite (proj2 (map_lookup_filter_None _ _ _)) by (by left). by destruct (decide _).
Qed.

Lemma lookup_MergeMaps a b exclude k :
  MergeMaps a b exclude !! k = if decide (k ∈ exclude) then None else
    match b !! k with Some v => Some v | None => a !! k end.
Proof.
  unfold MergeMaps. rewrite lookup_union, !lookup_ExcludeMapKeys.
  destruct (decide _); [done|]. destruct (b !! k), (a !! k); done.
Qed.

(** A key that is inherited from nowhere comes from the last map that sets it. *)
Lemma WithChainNodeLabels_None n additional k :
  k = LabelWorkerName ∨ k = LabelCosmosignerTarget → Forall (λ m, m !! k = None) additional →
  WithChainNodeLabels n additional !! k = None.
Proof.
  intros Hk Hall. unfold WithChainNodeLabels, StripCosmoGuardLabelDomain. apply map_lookup_filter_None. left.
  assert (foldl (λ l m, MergeMaps l m [LabelWorkerName])
    (ExcludeMapKeys (meta_Labels (cn_meta n)) [LabelWorkerName; LabelCosmosignerTarget]) additional !! k = None) as E.
  { assert (ExcludeMapKeys (meta_Labels (cn_meta n)) [LabelWorkerName; LabelCosmosignerTarget] !! k = None) as E0
      by (rewrite lookup_ExcludeMapKeys, decide_True; [done|destruct Hk as [-> | ->]; set_solver]).
    revert E0. generalize (ExcludeMapKeys (meta_Labels (cn_meta n)) [LabelWorkerName; LabelCosmosignerTarget]).
    induction Hall as [|m l Hm Hall IH]; intros a Ea; [done|]. simpl. apply IH. rewrite lookup_MergeMaps, Hm, Ea.
    by destruct (decide _). }
  case_match; [|done]. by rewrite lookup_delete_None; right.
Qed.
