(* ===== verification/Migration.v ===== *)
(** * Break-before-make migrations of a signer ([internal/cosmosigner/migration.go])

    The persisted phases through which a running signer is replaced: its
    workload is quiesced and deleted, its raft state is reset when the signing
    key changes, and only then is it recreated.  The reconcilers of the two
    resource kinds drive the same routine and persist each phase. *)

From S2P Require Import Prelude GoLib IO ThirdParty ApiTypes KubeApi CosmosignerSpec SignerResolve.
From S2P Require Import SigningNames SigningPaths.

Definition LifecycleDigestAnnotation : string := "cosmopilot.voluzi.com/cosmosigner-lifecycle-digest".
Definition RetainedStateFinalizer : string := "cosmopilot.voluzi.com/cosmosigner-retained-state".
Definition EverRolledOutAnnotation : string := "cosmopilot.voluzi.com/cosmosigner-ever-rolled-out".

(** ** Guards derived from the persisted migration *)

Definition RetainedStateRequired (established : bool) (migration : option CosmosignerMigrationStatus) : bool :=
  match migration with
  | None => established
  | Some m =>
      if negb (mg_ResetState m) then true else
      match mg_Phase m with
      | CosmosignerMigrationResettingState | CosmosignerMigrationRetargeting
      | CosmosignerMigrationRecreating | CosmosignerMigrationRollingOut => false
      | _ => true
      end
  end.

Record applyGuard := mkApplyGuard { ag_RequireRetainedState : bool; ag_RetainedStateReplicas : Z }.

Definition phase_string (p : CosmosignerMigrationPhase) : string :=
  match p with
  | CosmosignerMigrationQuiescing => "Quiescing"
  | CosmosignerMigrationDeleting => "DeletingStatefulSet"
  | CosmosignerMigrationResettingState => "ResettingState"
  | CosmosignerMigrationRetargeting => "RetargetingTargets"
  | CosmosignerMigrationRecreating => "Recreating"
  | CosmosignerMigrationRollingOut => "RollingOut"
  | CosmosignerMigrationUnknown p => p
  end.

Definition StatefulSetApplyGuard (established : bool) (migration : option CosmosignerMigrationStatus)
    (lockedReplicas : option Z) (desiredReplicas : Z) : result applyGuard :=
  let guard :=
    let required := RetainedStateRequired established migration in
    if negb required then Ok (mkApplyGuard required desiredReplicas) else
    match lockedReplicas with
    | Some n =>
        if (n <=? 0)%Z then
          Err (Errorf "established cosmosigner retained raft-state replica lock is missing or invalid" [])
        else Ok (mkApplyGuard required n)
    | None => Err (Errorf "established cosmosigner retained raft-state replica lock is missing or invalid" [])
    end in
  match migration with
  | Some m =>
      if mg_Phase m != CosmosignerMigrationRollingOut then
        Err (Errorf "cosmosigner StatefulSet cannot be applied during migration phase %q"
          [AStr (phase_string (mg_Phase m))])
      else guard
  | None => guard
  end.

(** ** What a live StatefulSet says ([apply.go]) *)

Definition statefulSetRolledOut (s : StatefulSet) (desiredReplicas : Z) : bool :=
  (0 <? desiredReplicas)%Z && (sts_StatusObservedGeneration s =? sts_Generation s)%Z &&
  (sts_StatusUpdatedReplicas s =? desiredReplicas)%Z && (sts_StatusReadyReplicas s =? desiredReplicas)%Z.

Definition IsRolledOut (namespace name : string) (desiredReplicas : Z) : kube (result bool) :=
  r ← call (GetStatefulSet Cached namespace name);
  match r with
  | Err e => if IsNotFound e then return_result false else return_error e
  | Ok s => return_result (statefulSetRolledOut s desiredReplicas)
  end.

Definition ReadLifecycleDigest (namespace name : string) : kube (result (option string)) :=
  r ← call (GetStatefulSet Cached namespace name);
  match r with
  | Err e => if IsNotFound e then return_result None else return_error e
  | Ok s =>
      let digest := annotation (sts_meta s) LifecycleDigestAnnotation in
      return_result (if digest != "" then Some digest else None)
  end.

Definition with_annotation (s : StatefulSet) (k v : string) : StatefulSet :=
  mkStatefulSet (set_annotation (sts_meta s) k v)
    (sts_Generation s) (sts_Replicas s) (sts_Selector s) (sts_ServiceName s) (sts_PodManagementPolicy s)
    (sts_UpdateStrategy s) (sts_PodSpec s) (sts_TemplateLabels s) (sts_VolumeClaimTemplates s) (sts_Retention s)
    (sts_StatusObservedGeneration s) (sts_StatusReplicas s) (sts_StatusUpdatedReplicas s) (sts_StatusReadyReplicas s).

Definition MarkEverRolledOut (namespace name : string) (desiredReplicas : Z) : kube (result bool) :=
  r ← call (GetStatefulSet Cached namespace name);
  match r with
  | Err e => if IsNotFound e then return_result false else return_error e
  | Ok s =>
      if negb (statefulSetRolledOut s desiredReplicas) then return_result false
      else if annotation (sts_meta s) EverRolledOutAnnotation == "true" then return_result true
      else call (UpdateStatefulSet (with_annotation s EverRolledOutAnnotation "true")) ;? return_result true
  end.

Section migration.
Context `{MetaApi}.

(** ** Raft-state claims ([cleanup.go]) *)

Definition without_retention (pvc : PersistentVolumeClaim) : PersistentVolumeClaim :=
  mkPVC (RemoveFinalizer (pvc_meta pvc) RetainedStateFinalizer) (pvc_StorageClassName pvc) (pvc_StorageRequest pvc)
    (pvc_VolumeName pvc) (pvc_Phase pvc).

(** The claim as the last answer left it, when it still has to be deleted. *)
Definition delete_claim (pvc : PersistentVolumeClaim) (next : kube (result ())) : kube (result ()) :=
  if is_some (meta_DeletionTimestamp (pvc_meta pvc)) then next else
  ignoring_not_found (call (DeletePVC (meta_Namespace (pvc_meta pvc)) (pvc_Name pvc) (meta_UID (pvc_meta pvc)))) next.

Fixpoint delete_claims (owner : ObjectMeta) (name : string) (l : list PersistentVolumeClaim) : kube (result ()) :=
  match l with
  | [] => return_result ()
  | pvc :: l =>
      if negb (isOwnedStatefulSetDataPVC pvc owner name) then delete_claims owner name l
      else if ContainsFinalizer (pvc_meta pvc) RetainedStateFinalizer then
        r ← call (UpdatePVC (without_retention pvc));
        match r with
        | Err e => if IsNotFound e then delete_claims owner name l else return_error e
        | Ok pvc => delete_claim pvc (delete_claims owner name l)
        end
      else delete_claim pvc (delete_claims owner name l)
  end.

Definition DeletePVCs (owner : ObjectMeta) (namespace name : string) : kube (result ()) :=
  pvcs ←? call (ListPVCs Cached namespace);
  delete_claims owner name pvcs.

Definition OwnedPVCsGone (owner : ObjectMeta) (namespace name : string) : kube (result bool) :=
  pvcs ←? call (ListPVCs Cached namespace);
  return_result (negb (existsb (λ pvc, isOwnedStatefulSetDataPVC pvc owner name) pvcs)).

(** ** One step of a migration: is the signer ready to be recreated, and the next phase *)

Definition ReconcileStatefulSetMigration (owner : Owner) (namespace name : string)
    (phase : CosmosignerMigrationPhase) (resetState : bool) : kube (result (bool * CosmosignerMigrationPhase)) :=
  match phase with
  | CosmosignerMigrationQuiescing =>
      retained ←? retainStatefulSetPVCs owner namespace name;
      if negb retained then return_result (false, phase) else
      quiesced ←? ScaleDown owner namespace name;
      if negb quiesced then return_result (false, phase) else
      return_result (false, CosmosignerMigrationDeleting)
  | CosmosignerMigrationDeleting =>
      deleted ←? DeleteStatefulSet owner namespace name;
      if negb deleted then return_result (false, phase) else
      return_result (false, CosmosignerMigrationResettingState)
  | CosmosignerMigrationResettingState =>
      if resetState then
        DeletePVCs (owner_meta owner) namespace name ;?
        gone ←? OwnedPVCsGone (owner_meta owner) namespace name;
        if negb gone then return_result (false, phase) else
        return_result (false, CosmosignerMigrationRecreating)
      else return_result (false, CosmosignerMigrationRecreating)
  | CosmosignerMigrationRecreating =>
      gone ←? DeleteStatefulSet owner namespace name;
      if negb gone then return_result (false, phase) else
      return_result (true, phase)
  | _ => return_error (Errorf "invalid cosmosigner migration phase %q" [AStr (phase_string phase)])
  end.
End migration.

(** ** What a step promises *)

Section step.
Context `{MetaApi}.
Variables (owner : Owner) (namespace name : string).

Abbreviation owned pvc := (isOwnedStatefulSetDataPVC pvc (owner_meta owner) name).

(** A claim of the signer, as listed. *)
Definition listed_claim (pvc : PersistentVolumeClaim) (h : list kevent) : Prop :=
  owned pvc = true ∧ ∃ l, Ev (ListPVCs Cached namespace) (Ok l) ∈ h ∧ pvc ∈ l.

(** The requests that give up raft state: only on claims of this signer. *)
Definition resets_claim (h : list kevent) (r : request) : Prop :=
  match r with
  | UpdatePVC pvc' => ∃ pvc, listed_claim pvc h ∧ pvc' = without_retention pvc
  | DeletePVC ns n uid => ∃ pvc,
      (listed_claim pvc h ∨ ∃ pvc0, listed_claim pvc0 h ∧ Ev (UpdatePVC (without_retention pvc0)) (Ok pvc) ∈ h) ∧
      ns = meta_Namespace (pvc_meta pvc) ∧ n = pvc_Name pvc ∧ uid = meta_UID (pvc_meta pvc)
  | _ => False
  end.

Definition saw_no_claims (e : kevent) : Prop :=
  ∃ l, e = Ev (ListPVCs Cached namespace) (Ok l) ∧ Forall (λ pvc, owned pvc = false) l.

(** What must have been observed before a phase is left. *)
Definition phase_done (phase : CosmosignerMigrationPhase) (reset : bool) (h : list kevent) : Prop :=
  match phase with
  | CosmosignerMigrationQuiescing => quiesced_after owner namespace name [retention_seen owner namespace name] h
  | CosmosignerMigrationDeleting | CosmosignerMigrationRecreating => absent_after namespace Cached name h
  | CosmosignerMigrationResettingState => reset = true → in_order [saw_no_claims] h
  | _ => False
  end.

(** The phase after one that was done. *)
Definition next_phase (phase : CosmosignerMigrationPhase) : CosmosignerMigrationPhase :=
  match phase with
  | CosmosignerMigrationQuiescing => CosmosignerMigrationDeleting
  | CosmosignerMigrationDeleting => CosmosignerMigrationResettingState
  | CosmosignerMigrationResettingState => CosmosignerMigrationRecreating
  | p => p
  end.

(** What a step reports: ready, still waiting, or on to the next phase. *)
Definition step_outcome (phase : CosmosignerMigrationPhase) (reset : bool) (h : list kevent)
    (ready : bool) (next : CosmosignerMigrationPhase) : Prop :=
  if ready then phase = CosmosignerMigrationRecreating ∧ next = phase ∧ phase_done phase reset h
  else next = phase ∨
       phase ≠ CosmosignerMigrationRecreating ∧ next = next_phase phase ∧ phase_done phase reset h.

Definition step_permitted (phase : CosmosignerMigrationPhase) (reset : bool) (h : list kevent) (r : request) : Prop :=
  permitted owner namespace h r ∨
  (phase = CosmosignerMigrationResettingState ∧ reset = true ∧ resets_claim h r).

Lemma listed_claim_suffix pvc h h' : h `suffix_of` h' → listed_claim pvc h → listed_claim pvc h'.
Proof. intros [k ->] (? & l & ? & ?). split; [done|]. exists l. set_solver. Qed.

Lemma delete_claim_spec (P : list kevent → request → Prop) pvc next h Q :
  P h (DeletePVC (meta_Namespace (pvc_meta pvc)) (pvc_Name pvc) (meta_UID (pvc_meta pvc))) →
  (∀ h', h `suffix_of` h' → spec P h' next Q) → (∀ h' e, Q h' (Err e)) → spec P h (delete_claim pvc next) Q.
Proof.
  intros HP Hn HQ. unfold delete_claim, ignoring_not_found. destruct (is_some _); [by apply Hn|].
  simpl. split; [done|]. intros [[]|e]; simpl; [apply Hn; by eexists [_]|].
  destruct (IsNotFound e); [apply Hn; by eexists [_]|apply HQ].
Qed.

Lemma delete_claims_spec l h :
  (∀ pvc, pvc ∈ l → owned pvc = true → listed_claim pvc h) →
  spec resets_claim h (delete_claims (owner_meta owner) name l) (λ _ _, True).
Proof.
  revert h. induction l as [|pvc l IH]; intros h Hl; simpl; [done|].
  assert (∀ h', h `suffix_of` h' → spec resets_claim h' (delete_claims (owner_meta owner) name l) (λ _ _, True)) as Hrest.
  { intros h' Hs. apply IH. intros p Hp Ho. eapply listed_claim_suffix; [exact Hs|]. apply Hl; [by right|done]. }
  destruct (owned pvc) eqn:Eo; simpl; [|by apply Hrest].
  assert (listed_claim pvc h) as Hpvc by (apply Hl; [by left|done]).
  destruct (ContainsFinalizer _ _); simpl.
  - split; [by exists pvc|]. intros [pvc'|e]; simpl.
    + apply delete_claim_spec; [|intros h' Hs; apply Hrest; etrans; [by eexists [_]|exact Hs]|done].
      exists pvc'. split_and!; [|done..]. right. exists pvc. split; [|by left].
      eapply listed_claim_suffix; [by eexists [_]|done].
    + destruct (IsNotFound e); simpl; [apply Hrest; by eexists [_]|done].
  - apply delete_claim_spec; [|by intros; apply Hrest|done]. exists pvc. split_and!; [by left|done..].
Qed.

#[local] Opaque retainStatefulSetPVCs ScaleDown DeleteStatefulSet delete_claims.

Lemma reset_spec h :
  spec (step_permitted CosmosignerMigrationResettingState true) h
    (DeletePVCs (owner_meta owner) namespace name ;?
     gone ←? OwnedPVCsGone (owner_meta owner) namespace name;
     if negb gone then return_result (false, CosmosignerMigrationResettingState)
     else return_result (false, CosmosignerMigrationRecreating))
    (λ h' r, ∀ ready next, r = Ok (ready, next) →
      step_outcome CosmosignerMigrationResettingState true h' ready next).
Proof.
  unfold DeletePVCs. rewrite !spec_try. simpl. split; [by left|]. intros [l|e]; simpl; [|done].
  eapply spec_mono; [apply delete_claims_spec|by intros h' r _ Hr; right|].
  { intros pvc Hp Ho. split; [done|]. exists l. split; [by left|done]. }
  intros h' [[]|e] _ _; simpl; [|done]. split; [by left|]. intros [l'|e]; simpl; [|done].
  destruct (existsb _ l') eqn:E; simpl.
  - intros ready next [= <- <-]. by left.
  - intros ready next [= <- <-]. right. split_and!; [done|done|]. intros _. apply in_order_here; [|done].
    exists l'. split; [done|]. by apply existsb_false.
Qed.

Lemma permitted_step {A} phase reset h (m : kube A) Q Q' :
  spec (permitted owner namespace) h m Q → (∀ h' a, h `suffix_of` h' → Q h' a → Q' h' a) →
  spec (step_permitted phase reset) h m Q'.
Proof. intros Hm HQ. eapply spec_mono; [exact Hm|by intros h' r _ Hr; left|exact HQ]. Qed.

Lemma ReconcileStatefulSetMigration_step phase reset h :
  spec (step_permitted phase reset) h (ReconcileStatefulSetMigration owner namespace name phase reset)
    (λ h' r, ∀ ready next, r = Ok (ready, next) → step_outcome phase reset h' ready next).
Proof.
  assert (∀ h next phase', phase' = phase → (next = phase ∨ phase ≠ CosmosignerMigrationRecreating ∧
      next = next_phase phase ∧ phase_done phase reset h) →
    ∀ ready next', Ok (false, next) = Ok (ready, next') → step_outcome phase' reset h ready next') as Hnot.
  { by intros ? ? ? -> ? ? ? [= <- <-]. }
  destruct phase; unfold ReconcileStatefulSetMigration.
  - rewrite spec_try. eapply permitted_step; [apply retainStatefulSetPVCs_spec|].
    intros h1 [[|]|e] _ H1; simpl; [|by apply Hnot; [|left]|done]. specialize (H1 eq_refl).
    rewrite spec_try. eapply permitted_step; [by apply ScaleDown_spec|].
    intros h2 [[|]|e] _ H2; simpl; [|by apply Hnot; [|left]|done]. apply Hnot; [done|]. right. split_and!; [done|done|by apply H2].
  - rewrite spec_try. eapply permitted_step; [apply DeleteStatefulSet_spec|].
    intros h1 [[|]|e] _ H1; simpl; [|by apply Hnot; [|left]|done]. apply Hnot; [done|]. right. split_and!; [done|done|by apply H1].
  - destruct reset; [apply reset_spec|]. simpl. apply Hnot; [done|]. right. by split_and!.
  - done.
  - rewrite spec_try. eapply permitted_step; [apply DeleteStatefulSet_spec|].
    intros h1 [[|]|e] _ H1; simpl; [|by apply Hnot; [|left]|done]. intros ready next [= <- <-]. simpl. auto.
  - done.
  - done.
Qed.
End step.

(** ** Properties *)

(** C16: one step of a migration, whatever the API server answers, gives up raft
    state only in the resetting phase of a resetting migration and only on the
    signer's own claims; it leaves a phase only after observing that the phase is
    done, and declares the signer ready only when recreation finds its StatefulSet
    absent and no signer pod. *)
Theorem ReconcileStatefulSetMigration_spec `{MetaApi} owner namespace name phase reset h :
  spec (step_permitted owner namespace name phase reset) h
    (ReconcileStatefulSetMigration owner namespace name phase reset)
    (λ h' r, ∀ ready next, r = Ok (ready, next) → step_outcome owner namespace name phase reset h' ready next).
Proof. apply ReconcileStatefulSetMigration_step. Qed.

(** Raft state may be missing: nothing was established, or a reset has passed the
    phase that deletes it. *)
Definition state_discardable (established : bool) (migration : option CosmosignerMigrationStatus) : Prop :=
  match migration with
  | None => established = false
  | Some m => mg_ResetState m = true ∧
      mg_Phase m ∈ [CosmosignerMigrationResettingState; CosmosignerMigrationRetargeting;
                    CosmosignerMigrationRecreating; CosmosignerMigrationRollingOut]
  end.

Lemma RetainedStateRequired_false established migration :
  RetainedStateRequired established migration = false ↔ state_discardable established migration.
Proof.
  destruct migration as [[d k p [|] o]|]; simpl; [|naive_solver..].
  destruct p; simpl; set_solver.
Qed.

Lemma StatefulSetApplyGuard_iff established migration lockedReplicas desiredReplicas g :
  StatefulSetApplyGuard established migration lockedReplicas desiredReplicas = Ok g ↔
  (∀ m, migration = Some m → mg_Phase m = CosmosignerMigrationRollingOut) ∧
  (state_discardable established migration ∧ g = mkApplyGuard false desiredReplicas ∨
   ¬ state_discardable established migration ∧
   ∃ n, lockedReplicas = Some n ∧ (0 < n)%Z ∧ g = mkApplyGuard true n).
Proof.
  rewrite <- RetainedStateRequired_false. unfold StatefulSetApplyGuard.
  assert (∀ b, (if negb b then Ok (mkApplyGuard b desiredReplicas) else
      match lockedReplicas with
      | Some n => if (n <=? 0)%Z
          then Err (Errorf "established cosmosigner retained raft-state replica lock is missing or invalid" [])
          else Ok (mkApplyGuard b n)
      | None => Err (Errorf "established cosmosigner retained raft-state replica lock is missing or invalid" [])
      end) = Ok g ↔ b = false ∧ g = mkApplyGuard false desiredReplicas ∨
         b ≠ false ∧ ∃ n, lockedReplicas = Some n ∧ (0 < n)%Z ∧ g = mkApplyGuard true n) as Hg.
  { intros [|]; simpl; [|naive_solver]. destruct lockedReplicas as [n|]; [|naive_solver].
    destruct (Z.leb_spec n 0); split.
    - done.
    - intros [[? _]|(_ & ? & [= <-] & ? & _)]; [done|lia].
    - intros [= <-]. right. split; [done|]. by exists n.
    - by intros [[? _]|(_ & ? & [= <-] & _ & ->)]. }
  destruct migration as [m|]; [|rewrite Hg; naive_solver].
  destruct (bool_decide (mg_Phase m = CosmosignerMigrationRollingOut)) eqn:Ep; simpl; to_prop.
  - rewrite Hg. naive_solver.
  - split; [done|]. intros [Hm _]. by destruct (Ep (Hm m eq_refl)).
Qed.

(** A StatefulSet is applied only outside a migration or in its last phase,
    and either its raft state is discardable or it is applied with the positive
    replica count it was locked to. *)
Theorem StatefulSetApplyGuard_spec established migration lockedReplicas desiredReplicas g :
  StatefulSetApplyGuard established migration lockedReplicas desiredReplicas = Ok g ↔
  (∀ m, migration = Some m → mg_Phase m = CosmosignerMigrationRollingOut) ∧
  (state_discardable established migration ∧ g = mkApplyGuard false desiredReplicas ∨
   ¬ state_discardable established migration ∧
   ∃ n, lockedReplicas = Some n ∧ (0 < n)%Z ∧ g = mkApplyGuard true n).
Proof. apply StatefulSetApplyGuard_iff. Qed.
