(* ===== verification/MigrationControllers.v ===== *)
(** * The reconcilers that drive a migration

    [reconcileCosmosignerMigration] and [recordCosmosignerAppliedState] of
    [internal/controllers/chainnode/cosmosigner.go], and
    [reconcileCosmosignerMigrations] of
    [internal/controllers/chainnodeset/cosmosigner.go]: how a migration starts,
    how each phase is persisted and when the signer may be deployed again. *)

From S2P Require Import Prelude GoLib IO ThirdParty ApiTypes KubeApi CosmosignerSpec SignerResolve.
From S2P Require Import SigningNames SigningPaths Migration Reference.

(** What the reconcilers read of [cosmosigner.Params].  [pr_LifecycleDigest] is
    the method, a digest of the rendered signer (SignerRender). *)
Record Params := mkParams {
  pr_Name : string;
  pr_Replicas : Z;
  pr_ExpectedPublicKey : string;
  pr_LifecycleDigest : string → result string;
}.

Definition with_applied (cs : ChainNodeSignerStatus) (digest publicKey : string)
    (migration : option CosmosignerMigrationStatus) (signingDigest servingIdentity : string) : ChainNodeSignerStatus :=
  mkSignerStatus signingDigest digest publicKey migration (css_KeyImported cs) (css_ImportedKeyVersion cs)
    (css_Replicas cs) (css_ValidatorTargeted cs) (css_StateStorageSize cs) (css_StateStorageClassName cs)
    (css_AtEstablishment cs) servingIdentity.
Definition with_migration (cs : ChainNodeSignerStatus) (m : CosmosignerMigrationStatus) : ChainNodeSignerStatus :=
  with_applied cs (css_AppliedDigest cs) (css_PublicKey cs) (Some m) (css_SigningDigest cs) (css_ServingIdentity cs).
Definition with_phase (m : CosmosignerMigrationStatus) (p : CosmosignerMigrationPhase) : CosmosignerMigrationStatus :=
  mkMigration (mg_DesiredDigest m) (mg_DesiredPublicKey m) p (mg_ResetState m) (mg_RolloutObservedAt m).

Definition start_migration (digest publicKey applied : string) : CosmosignerMigrationStatus :=
  mkMigration digest publicKey CosmosignerMigrationQuiescing (publicKey != applied) None.
Definition migrates_to (digest publicKey : string) (m : CosmosignerMigrationStatus) : bool :=
  (mg_DesiredDigest m == digest) && (mg_DesiredPublicKey m == publicKey).

Section chainnode.
Context `{MetaApi}.

(** Whether the reconciler must wait. *)
Definition reconcileCosmosignerMigration (n : ChainNode) (params : Params) : kube (result bool) :=
  let signingDigest := CosmosignerSigningDigest n in
  let cs := cn_Signer n in
  let update (cs : ChainNodeSignerStatus) : kube (result bool) :=
    call (UpdateStatusChainNode (with_signer_status n cs)) ;? return_result true in
  match pr_LifecycleDigest params signingDigest with
  | Err e => return_error e
  | Ok desiredDigest =>
      if css_AppliedDigest cs == "" then
        if (css_SigningDigest cs != "") && (css_SigningDigest cs != signingDigest) then
          return_error (Errorf "cosmosigner applied public key was not recorded before the signing configuration changed; restore the previous configuration for one reconcile before migrating" [])
        else
          rolledOut ←? IsRolledOut (cn_Namespace n) (pr_Name params) (pr_Replicas params);
          if negb rolledOut then return_result false else
          found ←? ReadLifecycleDigest (cn_Namespace n) (pr_Name params);
          let liveDigest := match found with Some d => d | None => "legacy:" +:+ signingDigest end in
          marked ←? MarkEverRolledOut (cn_Namespace n) (pr_Name params) (pr_Replicas params);
          if negb marked then return_result false else
          update (with_applied cs liveDigest (pr_ExpectedPublicKey params) (css_Migration cs)
                    (css_SigningDigest cs) (css_ServingIdentity cs))
      else if (css_AppliedDigest cs == desiredDigest) && (css_PublicKey cs == pr_ExpectedPublicKey params) &&
              negb (is_some (css_Migration cs)) then return_result false
      else
        match css_Migration cs ≫= λ m, if migrates_to desiredDigest (pr_ExpectedPublicKey params) m then Some m else None with
        | None =>
            if css_PublicKey cs == "" then
              return_error (Errorf "cosmosigner applied public key is missing; restore the previous configuration so it can be recorded before migrating" [])
            else update (with_migration cs (start_migration desiredDigest (pr_ExpectedPublicKey params) (css_PublicKey cs)))
        | Some m =>
            if mg_Phase m == CosmosignerMigrationRollingOut then return_result false else
            '(ready, next) ←? ReconcileStatefulSetMigration (OwnerChainNode n) (cn_Namespace n) (pr_Name params)
                                (mg_Phase m) (mg_ResetState m);
            if next != mg_Phase m then update (with_migration cs (with_phase m next))
            else if ready && (mg_Phase m == CosmosignerMigrationRecreating) then
              update (with_migration cs (with_phase m CosmosignerMigrationRollingOut))
            else return_result (negb ready)
        end
  end.

(** The node it goes on with, and whether the status was written. *)
Definition recordCosmosignerAppliedState (n : ChainNode) (params : Params) : kube (result (ChainNode * bool)) :=
  let signingDigest := CosmosignerSigningDigest n in
  let cs := cn_Signer n in
  match pr_LifecycleDigest params signingDigest with
  | Err e => return_error e
  | Ok desiredDigest =>
      if (css_AppliedDigest cs == desiredDigest) && (css_PublicKey cs == pr_ExpectedPublicKey params) &&
         negb (is_some (css_Migration cs)) then return_result (n, false)
      else
        let publicKey :=
          match css_Migration cs with
          | Some m => if mg_DesiredDigest m == desiredDigest then mg_DesiredPublicKey m else pr_ExpectedPublicKey params
          | None => pr_ExpectedPublicKey params
          end in
        let cs' := if IsValidator n
                   then with_applied cs desiredDigest publicKey None signingDigest (CosmosignerValidatorTargetedIdentity n)
                   else with_applied cs desiredDigest publicKey None (css_SigningDigest cs) (css_ServingIdentity cs) in
        call (UpdateStatusChainNode (with_signer_status n cs')) ;? return_result (with_signer_status n cs', true)
  end.
End chainnode.

(** ** The recorded state of a signer

    Both reconcilers persist the same three facts about a signer, in different
    places.  [signer_update] is the state machine they share. *)

Record Recorded := mkRecorded {
  rc_AppliedDigest : string;
  rc_PublicKey : string;
  rc_Migration : option CosmosignerMigrationStatus;
}.
Definition node_recorded (n : ChainNode) : Recorded :=
  mkRecorded (css_AppliedDigest (cn_Signer n)) (css_PublicKey (cn_Signer n)) (css_Migration (cn_Signer n)).
Definition migrating (rc : Recorded) (m : CosmosignerMigrationStatus) : Recorded :=
  mkRecorded (rc_AppliedDigest rc) (rc_PublicKey rc) (Some m).

Section life.
Context `{MetaApi}.
(** The signer, and what it should run with: the digest of its configuration and its key. *)
Variables (owner : Owner) (namespace name desired key : string).

Definition saw_rolled_out (replicas : Z) (h : list kevent) : Prop :=
  ∃ s, Ev (GetStatefulSet Cached namespace name) (Ok s) ∈ h ∧ statefulSetRolledOut s replicas = true.
(** The digest that a set seen running was deployed with; one deployed before digests were recorded is told by its
    signing digest. *)
Definition saw_digest (signing digest : string) (h : list kevent) : Prop :=
  (digest ≠ "" ∧ ∃ s, Ev (GetStatefulSet Cached namespace name) (Ok s) ∈ h ∧ annotation (sts_meta s) LifecycleDigestAnnotation = digest) ∨
  digest = "legacy:" +:+ signing.
(** The recorded migration is the one wanted. *)
Definition towards (m : CosmosignerMigrationStatus) : Prop := mg_DesiredDigest m = desired ∧ mg_DesiredPublicKey m = key.

(** The phase that follows one that is done; a node set repoints the nodes of
    the signer before it recreates it. *)
Definition phase_after (repoints : bool) (m : CosmosignerMigrationStatus) (p : CosmosignerMigrationPhase) : Prop :=
  if repoints && bool_decide (mg_Phase m = CosmosignerMigrationResettingState) then p = CosmosignerMigrationRetargeting
  else p = next_phase (mg_Phase m).

(** What a reconciler may turn the recorded state into, given what it has seen. *)
Inductive migration_update (replicas : Z) (signing : string) (repoints : bool) (h : list kevent) (rc : Recorded) : Recorded → Prop :=
  | update_adopt digest :
      rc_AppliedDigest rc = "" → saw_digest signing digest h → saw_rolled_out replicas h →
      migration_update replicas signing repoints h rc (mkRecorded digest key (rc_Migration rc))
  | update_start :
      rc_AppliedDigest rc ≠ "" → rc_PublicKey rc ≠ "" → (∀ m, rc_Migration rc = Some m → ¬ towards m) →
      (rc_AppliedDigest rc ≠ desired ∨ rc_PublicKey rc ≠ key ∨ rc_Migration rc ≠ None) →
      migration_update replicas signing repoints h rc (migrating rc (start_migration desired key (rc_PublicKey rc)))
  | update_advance m p :
      rc_AppliedDigest rc ≠ "" → rc_Migration rc = Some m → towards m →
      phase_done owner namespace name (mg_Phase m) (mg_ResetState m) h →
      mg_Phase m ≠ CosmosignerMigrationRecreating → phase_after repoints m p →
      migration_update replicas signing repoints h rc (migrating rc (with_phase m p))
  | update_authorise m :
      rc_AppliedDigest rc ≠ "" → rc_Migration rc = Some m → towards m →
      mg_Phase m = CosmosignerMigrationRecreating →
      phase_done owner namespace name (mg_Phase m) (mg_ResetState m) h →
      migration_update replicas signing repoints h rc (migrating rc (with_phase m CosmosignerMigrationRollingOut)).
(** Once rolled out, a signer runs with the wanted configuration, under the key its migration was made for. *)
Inductive signer_update (h : list kevent) (rc : Recorded) (rc' : Recorded) : Prop :=
  | update_migration replicas signing repoints :
      migration_update replicas signing repoints h rc rc' → signer_update h rc rc'
  | update_applied publicKey :
      rc' = mkRecorded desired publicKey None →
      (publicKey = key ∨ ∃ m, rc_Migration rc = Some m ∧ mg_DesiredDigest m = desired ∧ publicKey = mg_DesiredPublicKey m) →
      signer_update h rc rc'.

(** The requests on the workload of the signer while the recorded state is [rc]. *)
Definition workload_permitted (rc : Recorded) (h : list kevent) (r : request) : Prop :=
  match r with
  | GetStatefulSet _ _ _ => True
  | UpdateStatusChainNode _ | UpdateStatusChainNodeSet _ => False
  | UpdateStatefulSet s' =>
      permitted owner namespace h r ∨
      ∃ s replicas, Ev (GetStatefulSet Cached namespace name) (Ok s) ∈ h ∧
        statefulSetRolledOut s replicas = true ∧ s' = with_annotation s EverRolledOutAnnotation "true"
  | _ => ∃ m, rc_Migration rc = Some m ∧ towards m ∧
        step_permitted owner namespace name (mg_Phase m) (mg_ResetState m) h r
  end.

(** Requests that give up raft state are made in one phase only, of a migration
    that resets it. *)
Definition discards (r : request) : Prop :=
  match r with UpdatePVC _ | DeletePVC _ _ _ => True | _ => False end.

Lemma workload_discards rc h r :
  workload_permitted rc h r → discards r →
  ∃ m, rc_Migration rc = Some m ∧ towards m ∧
       mg_Phase m = CosmosignerMigrationResettingState ∧ mg_ResetState m = true ∧
       resets_claim owner namespace name h r.
Proof.
  intros Hw Hd. destruct r; try done; destruct Hw as (m & ? & ? & [[]|(? & ? & ?)]); by exists m.
Qed.
End life.

(** States reached from a state without a migration by any number of updates,
    each with its own observations and desired configuration; nodes are
    repointed by a routine that is not modelled. *)
Inductive signer_reachable `{MetaApi} : Recorded → Prop :=
  | signer_fresh rc : rc_Migration rc = None → signer_reachable rc
  | signer_next owner namespace name desired key h rc rc' :
      signer_reachable rc → signer_update owner namespace name desired key h rc rc' → signer_reachable rc'
  | signer_retargeted rc m :
      signer_reachable rc → rc_Migration rc = Some m → mg_Phase m = CosmosignerMigrationRetargeting →
      signer_reachable (migrating rc (with_phase m CosmosignerMigrationRecreating)).

(** A recorded migration resets the raft state exactly when it changes the key. *)
Definition resets_new_key (rc : Recorded) : Prop :=
  ∀ m, rc_Migration rc = Some m →
    rc_AppliedDigest rc ≠ "" ∧ mg_ResetState m = (mg_DesiredPublicKey m != rc_PublicKey rc).

Lemma signer_reachable_resets `{MetaApi} rc : signer_reachable rc → resets_new_key rc.
Proof.
  induction 1 as [rc Hm|owner namespace name desired key h rc rc' _ IH Hu|rc m _ IH Em _]; [intros m Em; congruence|..].
  - destruct Hu as [? ? ? [d Ha Hd _|Ha Hp _ _|m p Ha Em _ _ _ _|m Ha Em _ _ _]|? ->]; intros m' Em'; simpl in *.
    + destruct (IH _ Em') as [? _]. done.
    + by injection Em' as <-.
    + injection Em' as <-. simpl. split; [done|]. by destruct (IH _ Em).
    + injection Em' as <-. simpl. split; [done|]. by destruct (IH _ Em).
    + done.
  - intros m' [= <-]. simpl. by destruct (IH _ Em).
Qed.

(** ** One reconcile of a ChainNode *)

Section node.
Context `{MetaApi}.

(** Evidence and mark-up of a rollout, wherever the routine is used. *)
Lemma IsRolledOut_spec (P : list kevent → request → Prop) ns name replicas h :
  (∀ h, P h (GetStatefulSet Cached ns name)) →
  spec P h (IsRolledOut ns name replicas) (λ h' r, r = Ok true → saw_rolled_out ns name replicas h').
Proof.
  intros HP. simpl. split; [done|]. intros [s|e]; simpl; [|by destruct (IsNotFound e)].
  intros [= Hs]. exists s. split; [by left|done].
Qed.

Lemma ReadLifecycleDigest_spec (P : list kevent → request → Prop) ns name h :
  (∀ h, P h (GetStatefulSet Cached ns name)) →
  spec P h (ReadLifecycleDigest ns name) (λ h' r, ∀ found signing, r = Ok found →
    saw_digest ns name signing match found with Some d => d | None => "legacy:" +:+ signing end h').
Proof.
  intros HP. simpl. split; [done|]. intros [s|e]; simpl.
  - intros found signing [= <-]. destruct (bool_decide _) eqn:E; simpl; [by right|]. to_prop. left.
    split; [done|]. exists s. split; [by left|done].
  - destruct (IsNotFound e); [|done]. intros found signing [= <-]. by right.
Qed.
Lemma saw_digest_suffix ns name signing d h h' : h `suffix_of` h' → saw_digest ns name signing d h → saw_digest ns name signing d h'.
Proof.
  intros [k ->] [(? & s & Hs & ?)|?]; [left|by right]. split; [done|]. exists s. split; [apply elem_of_app; by right|done].
Qed.
Lemma saw_rolled_out_suffix ns name replicas h h' : h `suffix_of` h' → saw_rolled_out ns name replicas h → saw_rolled_out ns name replicas h'.
Proof. intros [k ->] (s & Hs & ?). exists s. split; [apply elem_of_app; by right|done]. Qed.

Lemma MarkEverRolledOut_spec owner ns name desired key rc replicas h :
  spec (workload_permitted owner ns name desired key rc) h (MarkEverRolledOut ns name replicas) (λ _ _, True).
Proof.
  simpl. split; [done|]. intros [s|e]; simpl; [|by destruct (IsNotFound e)].
  destruct (statefulSetRolledOut s _) eqn:Es; simpl; [|done].
  destruct (bool_decide _); simpl; [done|]. split; [|by intros [?|?]]. right. exists s, replicas. split; [by left|done].
Qed.

Lemma step_workload owner ns name desired key rc m h :
  rc_Migration rc = Some m → towards desired key m →
  spec (workload_permitted owner ns name desired key rc) h
    (ReconcileStatefulSetMigration owner ns name (mg_Phase m) (mg_ResetState m))
    (λ h' r, ∀ ready next, r = Ok (ready, next) →
      step_outcome owner ns name (mg_Phase m) (mg_ResetState m) h' ready next).
Proof.
  intros Em Ek. eapply spec_mono; [apply ReconcileStatefulSetMigration_step| |done].
  intros h' r _ Hr. destruct r; simpl; try done; try (by exists m); try by destruct Hr as [[]|(_ & _ & [])].
  left. by destruct Hr as [Hr|(_ & _ & [])].
Qed.

#[local] Opaque IsRolledOut MarkEverRolledOut ReadLifecycleDigest ReconcileStatefulSetMigration CosmosignerSigningDigest.

Variables (n : ChainNode) (params : Params).

Abbreviation owner := (OwnerChainNode n).
Abbreviation ns := (cn_Namespace n).
Abbreviation key := (pr_ExpectedPublicKey params).
(** The digest of the configuration the signer should run with. *)
Variable desired : string.
Abbreviation workload := (workload_permitted owner ns (pr_Name params) desired key (node_recorded n)).
Abbreviation update :=
  (migration_update owner ns (pr_Name params) desired key (pr_Replicas params) (CosmosignerSigningDigest n) false).

(** What one reconcile may request: it writes nothing but a legal update of the
    signer status. *)
Definition reconcile_permitted (h : list kevent) (r : request) : Prop :=
  match r with
  | UpdateStatusChainNode n' => ∃ cs', n' = with_signer_status n cs' ∧ update h (node_recorded n) (node_recorded n')
  | _ => workload h r
  end.

(** The signer may be deployed: nothing is recorded as rolled out and the signing configuration is not known to have
    changed, or the wanted configuration and key are the applied ones, or the migration towards them has reached its
    last phase. *)
Definition may_deploy : Prop :=
  (css_AppliedDigest (cn_Signer n) = "" ∧
   (css_SigningDigest (cn_Signer n) = "" ∨ css_SigningDigest (cn_Signer n) = CosmosignerSigningDigest n)) ∨
  (css_AppliedDigest (cn_Signer n) = desired ∧ css_PublicKey (cn_Signer n) = key ∧ css_Migration (cn_Signer n) = None) ∨
  ∃ m, css_Migration (cn_Signer n) = Some m ∧ towards desired key m ∧ mg_Phase m = CosmosignerMigrationRollingOut.

Lemma workload_reconcile h r :
  workload h r → reconcile_permitted h r.
Proof. by destruct r. Qed.

Lemma workload_spec {A} (m : kube A) h Q :
  spec workload h m Q →
  spec reconcile_permitted h m (λ h' a, h `suffix_of` h' ∧ Q h' a).
Proof.
  intros Hm. apply spec_suffix. eapply spec_mono; [exact Hm|..]; [|done].
  intros h' r _. apply workload_reconcile.
Qed.

Lemma migrates_to_spec (o : option CosmosignerMigrationStatus) d k m :
  (o ≫= λ m, if migrates_to d k m then Some m else None) = Some m →
  o = Some m ∧ towards d k m.
Proof.
  destruct o as [m'|]; simpl; [|done]. unfold migrates_to. destruct (_ && _) eqn:E; [|done].
  intros [= <-]. by to_prop.
Qed.
Lemma migrates_to_none (o : option CosmosignerMigrationStatus) d k :
  (o ≫= λ m, if migrates_to d k m then Some m else None) = None → ∀ m, o = Some m → ¬ towards d k m.
Proof.
  intros E m -> [E1 E2]. simpl in E. unfold migrates_to in E. by rewrite !bool_decide_eq_true_2 in E.
Qed.
(** Something is to change. *)
Lemma to_change (a d p k : string) (o : option CosmosignerMigrationStatus) :
  (a == d) && (p == k) && negb (is_some o) = false → a ≠ d ∨ p ≠ k ∨ o ≠ None.
Proof.
  intros E. destruct (bool_decide_reflect (a = d)); [|by left]. destruct (bool_decide_reflect (p = k)); [|by right; left].
  right; right. by destruct o.
Qed.

Lemma write_status_spec cs' h (Q : list kevent → result bool → Prop) :
  update h (node_recorded n) (node_recorded (with_signer_status n cs')) →
  (∀ h, Q h (Ok true)) → (∀ h e, Q h (Err e)) →
  spec reconcile_permitted h (call (UpdateStatusChainNode (with_signer_status n cs')) ;? return_result true) Q.
Proof. intros Hu H1 H2. simpl. split; [by exists cs'|]. intros [?|?]; simpl; auto. Qed.

Lemma first_rollout_spec h :
  css_AppliedDigest (cn_Signer n) = "" →
  (css_SigningDigest (cn_Signer n) = "" ∨ css_SigningDigest (cn_Signer n) = CosmosignerSigningDigest n) →
  spec reconcile_permitted h
    (rolledOut ←? IsRolledOut ns (pr_Name params) (pr_Replicas params);
     if negb rolledOut then return_result false else
     found ←? ReadLifecycleDigest ns (pr_Name params);
     let liveDigest := match found with Some d => d | None => "legacy:" +:+ CosmosignerSigningDigest n end in
     marked ←? MarkEverRolledOut ns (pr_Name params) (pr_Replicas params);
     if negb marked then return_result false else
     call (UpdateStatusChainNode (with_signer_status n
       (with_applied (cn_Signer n) liveDigest key (css_Migration (cn_Signer n))
          (css_SigningDigest (cn_Signer n)) (css_ServingIdentity (cn_Signer n))))) ;? return_result true)
    (λ h' r, r = Ok false → may_deploy).
Proof.
  intros Ha Hsd. rewrite spec_try. eapply spec_conseq; [by apply IsRolledOut_spec|].
  intros h1 [[|]|e] _ H1; simpl; [|by left|done]. specialize (H1 eq_refl).
  rewrite spec_try. eapply spec_conseq; [by apply spec_suffix, ReadLifecycleDigest_spec|].
  intros h2 [found|e] _ [S2 H2]; [|done]. specialize (H2 found (CosmosignerSigningDigest n) eq_refl). rewrite spec_try.
  eapply spec_conseq; [apply workload_spec, MarkEverRolledOut_spec|].
  intros h3 [[|]|e] _ [S3 _]; simpl; [|by left|done]. apply write_status_spec; [|done|done].
  apply update_adopt; [done|by eapply saw_digest_suffix|]. eapply saw_rolled_out_suffix; [|exact H1]. by etrans.
Qed.

Lemma migration_step_spec m h :
  css_AppliedDigest (cn_Signer n) ≠ "" → css_Migration (cn_Signer n) = Some m → towards desired key m →
  spec reconcile_permitted h
    (if mg_Phase m == CosmosignerMigrationRollingOut then return_result false else
     '(ready, next) ←? ReconcileStatefulSetMigration owner ns (pr_Name params) (mg_Phase m) (mg_ResetState m);
     if next != mg_Phase m then
       call (UpdateStatusChainNode (with_signer_status n (with_migration (cn_Signer n) (with_phase m next)))) ;?
       return_result true
     else if ready && (mg_Phase m == CosmosignerMigrationRecreating) then
       call (UpdateStatusChainNode (with_signer_status n
         (with_migration (cn_Signer n) (with_phase m CosmosignerMigrationRollingOut)))) ;? return_result true
     else return_result (negb ready))
    (λ h' r, r = Ok false → may_deploy).
Proof.
  intros Ha Em Ek. destruct (bool_decide (mg_Phase m = CosmosignerMigrationRollingOut)) eqn:Ep.
  { to_prop. intros _. right; right. by exists m. }
  rewrite spec_try. eapply spec_conseq; [by apply workload_spec, step_workload|].
  intros h' [[ready next]|e] _ [_ Ho]; [|done]. specialize (Ho _ _ eq_refl). simpl.
  destruct ready; simpl in Ho.
  - destruct Ho as (Ep' & -> & Hd). rewrite bool_decide_eq_true_2 by done. simpl.
    rewrite bool_decide_eq_true_2 by done. simpl. apply write_status_spec; [|done|done].
    by apply update_authorise.
  - destruct (bool_decide (next = mg_Phase m)) eqn:En; simpl; [done|]. to_prop.
    destruct Ho as [->|(Ep' & -> & Hd)]; [done|]. apply write_status_spec; [|done|done].
    by apply update_advance.
Qed.

Lemma reconcile_conforms h :
  pr_LifecycleDigest params (CosmosignerSigningDigest n) = Ok desired →
  spec reconcile_permitted h (reconcileCosmosignerMigration n params) (λ h' r, r = Ok false → may_deploy).
Proof.
  intros Hd. unfold reconcileCosmosignerMigration. rewrite Hd.
  destruct (bool_decide (css_AppliedDigest (cn_Signer n) = "")) eqn:Ea; to_prop.
  { destruct (_ && _) eqn:E; [done|]. apply first_rollout_spec; [done|]. apply andb_false_iff in E as [E|E]; to_prop; auto. }
  destruct (_ && _ && _) eqn:E.
  { to_prop. intros _. right; left. by destruct (css_Migration _). }
  apply to_change in E.
  destruct (_ ≫= _) as [m|] eqn:Em.
  - apply migrates_to_spec in Em as [Em Ek]. by apply migration_step_spec.
  - destruct (bool_decide (css_PublicKey (cn_Signer n) = "")) eqn:Ek; [done|]. to_prop.
    apply write_status_spec; [|done|done]. apply update_start; [done|done|exact (migrates_to_none _ _ _ Em)|exact E].
Qed.

(** What [recordCosmosignerAppliedState] writes. *)
Lemma record_conforms h :
  pr_LifecycleDigest params (CosmosignerSigningDigest n) = Ok desired →
  spec (λ h r, ∃ n', r = UpdateStatusChainNode n' ∧ signer_update owner ns (pr_Name params) desired key h (node_recorded n) (node_recorded n'))
    h (recordCosmosignerAppliedState n params) (λ _ _, True).
Proof.
  intros Hd. unfold recordCosmosignerAppliedState. rewrite Hd.
  destruct (_ && _ && _); [done|]. cbn. split; [|by intros [?|?]]. eexists. split; [done|].
  eapply update_applied; [by destruct (IsValidator n)|]. cbn. destruct (css_Migration _) as [m|]; [|by left].
  destruct (bool_decide_reflect (mg_DesiredDigest m = desired)) as [<-|]; [|by left]. right. by exists m.
Qed.
End node.

(** ** One reconcile of a ChainNodeSet *)

Definition entry_recorded (st : CosmosignerStatus) : Recorded :=
  mkRecorded (st_AppliedDigest st) (st_PublicKey st) (st_Migration st).

Definition with_entry (st : CosmosignerStatus) (digest publicKey : string) (groups : list string)
    (migration : option CosmosignerMigrationStatus) : CosmosignerStatus :=
  mkCosmosignerStatus (st_Name st) (st_ResourceName st) digest publicKey groups migration (st_Replicas st)
    (st_StateStorageSize st) (st_StateStorageClassName st) (st_SigningDigest st) (st_AtEstablishment st)
    (st_ServingIdentity st) (st_ServingGroup st) (st_LocalKeyEverServed st) (st_KeyImported st)
    (st_ImportedKeyVersion st).
Definition migrate_entry (st : CosmosignerStatus) (m : CosmosignerMigrationStatus) : CosmosignerStatus :=
  with_entry st (st_AppliedDigest st) (st_PublicKey st) (st_TargetGroups st) (Some m).

Definition sortedTargetGroups (s : ResolvedSigner) : list string := sort_Strings (sg_TargetGroups s).

(** What one iteration does to the entry of its signer: nothing ([continue]), a
    change that must be persisted before anything else, or a step that may have
    changed the phase and says whether the signer is ready. *)
Inductive EntryResult :=
  | EntrySkip
  | EntryPending (st : CosmosignerStatus)
  | EntryStep (st : CosmosignerStatus) (changed ready : bool).

Section nodeset.
Context `{MetaApi}.

Definition first_entry (namespace resourceName : string) (s : ResolvedSigner) (st : CosmosignerStatus)
    (desiredPublicKey : string) : kube (result EntryResult) :=
  let signingDigest := Digest s in
  if (st_SigningDigest st != "") && (st_SigningDigest st != signingDigest) then
    return_error (Errorf "cosmosigner %q applied public key was not recorded before the signing configuration changed; restore the previous configuration for one reconcile before migrating" [AStr (sg_Name s)])
  else
    let replicas := default (GetReplicas (sg_Spec s)) (st_Replicas st) in
    rolledOut ←? IsRolledOut namespace resourceName replicas;
    if negb rolledOut then return_result EntrySkip else
    found ←? ReadLifecycleDigest namespace resourceName;
    let liveDigest := match found with Some d => d | None => "legacy:" +:+ signingDigest end in
    marked ←? MarkEverRolledOut namespace resourceName replicas;
    if negb marked then return_result EntrySkip else
    return_result (EntryPending (with_entry st liveDigest desiredPublicKey (sortedTargetGroups s) (st_Migration st))).

Definition step_entry (owner : Owner) (namespace resourceName : string) (st : CosmosignerStatus)
    (m : CosmosignerMigrationStatus) : kube (result EntryResult) :=
  if (mg_Phase m == CosmosignerMigrationRetargeting) || (mg_Phase m == CosmosignerMigrationRollingOut) then
    return_result EntrySkip
  else
    '(ready, next) ←? ReconcileStatefulSetMigration owner namespace resourceName (mg_Phase m) (mg_ResetState m);
    let next := if (mg_Phase m == CosmosignerMigrationResettingState) && (next == CosmosignerMigrationRecreating)
                then CosmosignerMigrationRetargeting else next in
    if ready && (next == CosmosignerMigrationRecreating) then
      return_result (EntryPending (migrate_entry st (with_phase m CosmosignerMigrationRollingOut)))
    else if next != mg_Phase m then return_result (EntryStep (migrate_entry st (with_phase m next)) true ready)
    else return_result (EntryStep st false ready).

(** [desired]: the digest and the public key this signer should run with. *)
Definition reconcile_entry (owner : Owner) (namespace resourceName : string) (s : ResolvedSigner)
    (st : CosmosignerStatus) (desiredDigest desiredPublicKey : string) : kube (result EntryResult) :=
  if st_AppliedDigest st == "" then first_entry namespace resourceName s st desiredPublicKey
  else if (st_AppliedDigest st == desiredDigest) && (st_PublicKey st == desiredPublicKey) &&
          negb (is_some (st_Migration st)) then return_result EntrySkip
  else
    match st_Migration st ≫= λ m, if migrates_to desiredDigest desiredPublicKey m then Some m else None with
    | None =>
        if st_PublicKey st == "" then
          return_error (Errorf "cosmosigner %q applied public key is missing; restore the previous configuration so it can be recorded before migrating" [AStr (sg_Name s)])
        else return_result (EntryPending (migrate_entry st (start_migration desiredDigest desiredPublicKey (st_PublicKey st))))
    | Some m => step_entry owner namespace resourceName st m
    end.

(** The digest and key a signer should run with, or [None] to leave it alone.
    [prepared] is the optional argument. *)
Definition desired_state (prepared : option (gmap string Params)) (s : ResolvedSigner) (st : CosmosignerStatus) :
    result (option (string * string)) :=
  match default ∅ prepared !! sg_Name s with
  | Some params => d ← pr_LifecycleDigest params (Digest s); Ok (Some (d, pr_ExpectedPublicKey params))
  | None =>
      if is_some prepared then Ok None
      else Ok ((λ m, (mg_DesiredDigest m, mg_DesiredPublicKey m)) <$> st_Migration st)
  end.

Fixpoint reconcile_entries (prepared : option (gmap string Params)) (owner : Owner) (namespace : string)
    (signers : list ResolvedSigner) (nodeSet : ChainNodeSet) (pending changed : bool) :
    kube (result (ChainNodeSet * bool * bool)) :=
  match signers with
  | [] => return_result (nodeSet, pending, changed)
  | s :: signers =>
      let nodeSet := EnsureCosmosignerStatus nodeSet (sg_Name s) in
      let continue := reconcile_entries prepared owner namespace signers in
      let set (st : CosmosignerStatus) := set_statuses nodeSet (update_entry (sg_Name s) (λ _, st) (statuses nodeSet)) in
      match GetCosmosignerStatus nodeSet (sg_Name s) with
      | None => continue nodeSet pending changed
      | Some st =>
          match desired_state prepared s st with
          | Err e => return_error e
          | Ok None => continue nodeSet pending changed
          | Ok (Some (desiredDigest, desiredPublicKey)) =>
              r ←? reconcile_entry owner namespace (CosmosignerResourceName nodeSet s) s st desiredDigest desiredPublicKey;
              match r with
              | EntrySkip => continue nodeSet pending changed
              | EntryPending st => continue (set st) true true
              | EntryStep st ch ready =>
                  let changed := changed || ch in
                  continue (set st) (pending || negb ready || changed) changed
              end
          end
      end
  end.

Definition reconcileCosmosignerMigrations (nodeSet : ChainNodeSet) (prepared : option (gmap string Params)) :
    kube (result (ChainNodeSet * bool)) :=
  if sst_ChainID (cns_Status nodeSet) == "" then return_result (nodeSet, false) else
  '(nodeSet', pending, changed) ←? reconcile_entries prepared (OwnerChainNodeSet nodeSet) (cns_Namespace nodeSet)
    (ResolveCosmosigners nodeSet) nodeSet false false;
  if changed then call (UpdateStatusChainNodeSet nodeSet') ;? return_result (nodeSet', pending)
  else return_result (nodeSet', pending).
End nodeset.

Section set_safety.
Context `{MetaApi}.
Variables (owner : Owner) (ns : string).

(** What an iteration may leave in the entry. *)
Definition entry_ok (name desired key : string) (replicas : Z) (signing : string) (rc : Recorded) (h : list kevent) (r : result EntryResult) : Prop :=
  match r with
  | Ok (EntryPending st') | Ok (EntryStep st' _ _) =>
      entry_recorded st' = rc ∨ migration_update owner ns name desired key replicas signing true h rc (entry_recorded st')
  | _ => True
  end.
Abbreviation entry_replicas s st := (default (GetReplicas (sg_Spec s)) (st_Replicas st)).

#[local] Opaque IsRolledOut MarkEverRolledOut ReadLifecycleDigest ReconcileStatefulSetMigration Digest.

Lemma first_entry_spec name s st desired key h :
  st_AppliedDigest st = "" →
  spec (workload_permitted owner ns name desired key (entry_recorded st)) h (first_entry ns name s st key)
    (entry_ok name desired key (entry_replicas s st) (Digest s) (entry_recorded st)).
Proof.
  intros Ha. unfold first_entry. destruct (_ && _); [done|].
  rewrite spec_try. eapply spec_conseq; [by apply IsRolledOut_spec|].
  intros h1 [[|]|e] _ H1; simpl; [|done..]. specialize (H1 eq_refl).
  rewrite spec_try. eapply spec_conseq; [by apply spec_suffix, ReadLifecycleDigest_spec|].
  intros h2 [found|e] _ [S2 H2]; [|done]. specialize (H2 found (Digest s) eq_refl). rewrite spec_try.
  eapply spec_conseq; [apply spec_suffix, MarkEverRolledOut_spec|].
  intros h3 [[|]|e] _ [S3 _]; simpl; [|done..]. right.
  apply (update_adopt owner ns name desired key _ _ true h3 (entry_recorded st)); [done|by eapply saw_digest_suffix|].
  eapply saw_rolled_out_suffix; [|exact H1]. by etrans.
Qed.

Lemma step_entry_spec name desired key replicas signing st m h :
  st_AppliedDigest st ≠ "" → st_Migration st = Some m → towards desired key m →
  spec (workload_permitted owner ns name desired key (entry_recorded st)) h
    (step_entry owner ns name st m) (entry_ok name desired key replicas signing (entry_recorded st)).
Proof.
  intros Ha Em Ht. unfold step_entry. destruct (_ || _); [done|].
  rewrite spec_try. eapply spec_conseq; [by apply step_workload|].
  intros h' [[ready next]|e] _ Ho; [|done]. specialize (Ho _ _ eq_refl). destruct ready; simpl in Ho.
  - destruct Ho as (Ep & -> & Hd).
    rewrite (bool_decide_eq_false_2 (mg_Phase m = CosmosignerMigrationResettingState)) by congruence. simpl.
    rewrite bool_decide_eq_true_2 by done. right.
    by apply (update_authorise owner ns name desired key replicas signing true h' (entry_recorded st)).
  - cbv zeta. cbn [andb]. destruct Ho as [->|(Ep & -> & Hd)].
    + destruct (bool_decide (mg_Phase m = CosmosignerMigrationResettingState)) eqn:Er; simpl.
      * to_prop. rewrite Er. simpl. by left.
      * rewrite bool_decide_eq_true_2 by done. by left.
    + assert (∀ p, phase_after true m p →
        entry_ok name desired key replicas signing (entry_recorded st) h' (Ok (EntryStep (migrate_entry st (with_phase m p)) true false)))
        as Hadv.
      { intros p Hp. right. by apply (update_advance owner ns name desired key replicas signing true h' (entry_recorded st)). }
      unfold phase_after in Hadv. destruct (mg_Phase m) eqn:Ephase; simpl; try done; by (apply Hadv || left).
Qed.

Lemma reconcile_entry_spec name s st desired key h :
  spec (workload_permitted owner ns name desired key (entry_recorded st)) h
    (reconcile_entry owner ns name s st desired key) (entry_ok name desired key (entry_replicas s st) (Digest s) (entry_recorded st)).
Proof.
  unfold reconcile_entry. destruct (bool_decide (st_AppliedDigest st = "")) eqn:Ea; to_prop; [by apply first_entry_spec|].
  destruct (_ && _ && _) eqn:E; [done|]. apply to_change in E. destruct (_ ≫= _) as [m|] eqn:Em.
  - apply migrates_to_spec in Em as [Em Ht]. by apply step_entry_spec.
  - destruct (bool_decide (st_PublicKey st = "")) eqn:Ek; [done|]. to_prop. right.
    apply (update_start owner ns name desired key _ _ true h (entry_recorded st)); [done|done|exact (migrates_to_none _ _ _ Em)|exact E].
Qed.

#[local] Opaque reconcile_entry.

(** Every entry is in a state some history of updates leads to. *)
Definition entries_reachable (s : ChainNodeSet) : Prop :=
  Forall (λ st, signer_reachable (entry_recorded st)) (statuses s).

(** One request of a reconcile of the set: claims are given up only for a signer
    whose recorded migration changes its key. *)
Definition set_permitted (h : list kevent) (r : request) : Prop :=
  match r with
  | UpdateStatusChainNodeSet s' => entries_reachable s'
  | _ => ∃ name desired key rc, signer_reachable rc ∧ workload_permitted owner ns name desired key rc h r
  end.

Lemma Ensure_reachable s name : entries_reachable s → entries_reachable (EnsureCosmosignerStatus s name).
Proof.
  intros Hs. unfold EnsureCosmosignerStatus. destruct (GetCosmosignerStatus s name); [done|].
  apply Forall_app. split; [done|]. apply Forall_singleton. by apply signer_fresh.
Qed.

Lemma set_entry_reachable s name st :
  entries_reachable s → signer_reachable (entry_recorded st) →
  entries_reachable (set_statuses s (update_entry name (λ _, st) (statuses s))).
Proof.
  unfold entries_reachable. intros Hs Hst. simpl. induction Hs as [|st0 l Hst0 Hl IH]; simpl; [constructor|].
  destruct (bool_decide _); constructor; done.
Qed.

Lemma entry_reachable s name st :
  entries_reachable s → GetCosmosignerStatus s name = Some st → signer_reachable (entry_recorded st).
Proof. intros Hs [Hin _]%find_some. apply list_elem_of_In in Hin. by eapply Forall_forall in Hs. Qed.

Lemma entry_ok_reachable name desired key replicas signing rc h r st' :
  signer_reachable rc → entry_ok name desired key replicas signing rc h r →
  (r = Ok (EntryPending st') ∨ ∃ ch ready, r = Ok (EntryStep st' ch ready)) → signer_reachable (entry_recorded st').
Proof.
  intros Hrc Hok [->|(ch & ready & ->)]; simpl in Hok;
    (destruct Hok as [->|Hu]; [done|by eapply signer_next, update_migration]).
Qed.

Lemma reconcile_entries_spec prepared signers s pending changed h :
  entries_reachable s →
  spec set_permitted h (reconcile_entries prepared owner ns signers s pending changed) (λ h' r,
    ∀ s' p c, r = Ok (s', p, c) → entries_reachable s').
Proof.
  revert s pending changed h. induction signers as [|sg signers IH]; intros s pending changed h Hs; simpl.
  { by intros s' p c [= <- _ _]. }
  apply (Ensure_reachable _ (sg_Name sg)) in Hs.
  generalize dependent (EnsureCosmosignerStatus s (sg_Name sg)). clear s. intros s Hs.
  destruct (GetCosmosignerStatus s (sg_Name sg)) as [st|] eqn:Est; [|by apply IH].
  destruct (desired_state prepared sg st) as [[[digest key]|]|e]; [|by apply IH|done].
  pose proof (entry_reachable _ _ _ Hs Est) as Hrc.
  rewrite spec_try. eapply spec_mono; [apply reconcile_entry_spec| |].
  { intros h' r _ Hr. destruct r; try done; (eexists _, _, _, _; split; [exact Hrc|exact Hr]). }
  intros h' r _ Hok. destruct r as [[|st'|st' ch ready]|e]; [by apply IH|..|done].
  - apply IH, set_entry_reachable; [done|]. eapply entry_ok_reachable; [exact Hrc|exact Hok|by left].
  - apply IH, set_entry_reachable; [done|]. eapply entry_ok_reachable; [exact Hrc|exact Hok|eauto].
Qed.
End set_safety.

(** A request that gives up raft state is made for a migration to a new key. *)
Definition discards_for_new_key `{MetaApi} (owner : Owner) (ns : string) (h : list kevent) (r : request) : Prop :=
  discards r → ∃ name rc m,
    rc_Migration rc = Some m ∧ mg_Phase m = CosmosignerMigrationResettingState ∧
    mg_DesiredPublicKey m ≠ rc_PublicKey rc ∧ resets_claim owner ns name h r.

Lemma reachable_discards `{MetaApi} owner ns name desired key rc h r :
  signer_reachable rc → workload_permitted owner ns name desired key rc h r → discards_for_new_key owner ns h r.
Proof.
  intros Hrc Hw Hd. destruct (workload_discards _ _ _ _ _ _ _ _ Hw Hd) as (m & Em & _ & Ep & Er & Hc).
  destruct (signer_reachable_resets _ Hrc _ Em) as [_ Hk]. exists name, rc, m. split_and!; [done|done| |done].
  rewrite Er in Hk. intros E. rewrite E, bool_decide_eq_true_2 in Hk; done.
Qed.

(** ** Properties *)

Section properties.
Context `{MetaApi}.


(** C18: along any history of recorded states, a ChainNode's reconcile changes or deletes
    a claim only while the migration recorded is one to the wanted digest and key, in the
    phase that resets the state, and the key is not the applied one; the claim is one it
    was shown of this signer; and it leaves the recorded state in such a history. *)
Theorem reconcileCosmosignerMigration_resets n params desired h (Hreach : signer_reachable (node_recorded n))
    (Hd : pr_LifecycleDigest params (CosmosignerSigningDigest n) = Ok desired) :
  spec (λ h r,
      (discards r →
         (∃ m, css_Migration (cn_Signer n) = Some m ∧ towards desired (pr_ExpectedPublicKey params) m ∧
               mg_Phase m = CosmosignerMigrationResettingState) ∧
         pr_ExpectedPublicKey params ≠ css_PublicKey (cn_Signer n) ∧
         resets_claim (OwnerChainNode n) (cn_Namespace n) (pr_Name params) h r) ∧
      (∀ n', r = UpdateStatusChainNode n' → signer_reachable (node_recorded n')))
    h (reconcileCosmosignerMigration n params) (λ _ _, True).
Proof.
  eapply spec_mono; [by apply (reconcile_conforms _ _ desired)| |done]. intros h' r _ Hr. split.
  - intros Hdis. assert (workload_permitted (OwnerChainNode n) (cn_Namespace n) (pr_Name params) desired
      (pr_ExpectedPublicKey params) (node_recorded n) h' r) as Hw by by destruct r.
    destruct (workload_discards _ _ _ _ _ _ _ _ Hw Hdis) as (m & Em & Ht & Ep & Er & Hc). split_and!; [by exists m| |exact Hc].
    destruct (signer_reachable_resets _ Hreach _ Em) as [_ Hk]. destruct Ht as [_ Ht]. rewrite Er in Hk.
    intros E. simpl in Hk. rewrite Ht, E, bool_decide_eq_true_2 in Hk; done.
  - intros n' ->. destruct Hr as (cs' & _ & Hu). by eapply signer_next, update_migration.
Qed.

(** the same for a ChainNodeSet: claims are given up only for a signer whose
    recorded migration has reached the resetting phase and changes its key, and
    every recorded entry stays in a legal history. *)
Theorem reconcileCosmosignerMigrations_spec s prepared h (Hreach : entries_reachable s) :
  spec (λ h r, discards_for_new_key (OwnerChainNodeSet s) (cns_Namespace s) h r ∧
               (∀ s', r = UpdateStatusChainNodeSet s' → entries_reachable s'))
    h (reconcileCosmosignerMigrations s prepared) (λ _ _, True).
Proof.
  unfold reconcileCosmosignerMigrations. destruct (bool_decide _); [done|]. rewrite spec_try.
  eapply spec_mono; [by apply reconcile_entries_spec| |].
  - intros h' r _ Hr. split.
    + intros Hd. destruct r; try done; destruct Hr as (nm & d & k & rc & Hrc & Hw); by eapply reachable_discards.
    + by intros s' ->.
  - intros h' [[[s' p] c]|e] _ Hs; [|done]. destruct c; [|done]. simpl. split; [|by intros [?|?]].
    split; [by intros []|]. intros s'' [= <-]. by eapply Hs.
Qed.

(** C19: replacing a rollout that has not completed keeps the applied key as the
    reference: a further change that keeps the key being rolled out resets raft
    state written for that same key. *)
Theorem superseding_rollout_resets_its_key n params digest m
    (Ha : css_AppliedDigest (cn_Signer n) ≠ "") (Hp : css_PublicKey (cn_Signer n) ≠ "")
    (Em : css_Migration (cn_Signer n) = Some m) (Ep : mg_Phase m = CosmosignerMigrationRollingOut)
    (Hkey : mg_DesiredPublicKey m ≠ css_PublicKey (cn_Signer n))
    (Hsame : pr_ExpectedPublicKey params = mg_DesiredPublicKey m)
    (Hd : pr_LifecycleDigest params (CosmosignerSigningDigest n) = Ok digest) (Hne : digest ≠ mg_DesiredDigest m) :
  ∃ m', reconcileCosmosignerMigration n params =
      (call (UpdateStatusChainNode (with_signer_status n (with_migration (cn_Signer n) m'))) ;? return_result true) ∧
    mg_Phase m' = CosmosignerMigrationQuiescing ∧ mg_ResetState m' = true ∧
    mg_DesiredPublicKey m' = mg_DesiredPublicKey m.
Proof.
  exists (start_migration digest (mg_DesiredPublicKey m) (css_PublicKey (cn_Signer n))). split_and!; [|done| |done].
  - unfold reconcileCosmosignerMigration. rewrite Hd, Em, Hsame. simpl.
    rewrite (bool_decide_eq_false_2 (css_AppliedDigest _ = _)) by done.
    rewrite andb_false_r. unfold migrates_to.
    rewrite (bool_decide_eq_false_2 (mg_DesiredDigest m = digest)) by done. simpl.
    by rewrite (bool_decide_eq_false_2 (css_PublicKey _ = _)).
  - simpl. by rewrite bool_decide_eq_false_2.
Qed.
End properties.

(** ** Examples *)

Definition example_migration (phase : CosmosignerMigrationPhase) : CosmosignerMigrationStatus :=
  mkMigration "digest-2" "key-2" phase true None.
Definition example_signer_status (phase : CosmosignerMigrationPhase) : ChainNodeSignerStatus :=
  mkSignerStatus "" "digest-1" "key-1" (Some (example_migration phase)) "" "" None None "" None None "".
Definition migrating_node (phase : CosmosignerMigrationPhase) : ChainNode :=
  mkChainNode (mkMeta "val" "default" "uid-1" ∅ None [] [] None 0 "")
    (newChainNodeSpec (newAppSpec "img" None "appd" []))
    (newChainNodeStatus PhaseChainNodeRunning "chain-1" 0 [] (example_signer_status phase)).
Definition example_params (digest : string) : Params := mkParams "val-signer" 1 "key-2" (λ _, Ok digest).

(** The signer was seen absent, with no pod left. *)
Definition example_absent : list kevent :=
  [Ev (ListPods Cached "default") (Ok []);
   Ev (GetStatefulSet Cached "default" "val-signer") (Err (ApiError ReasonNotFound));
   Ev (GetStatefulSet Cached "default" "val-signer") (Err (ApiError ReasonNotFound))].

Lemma example_absent_after `{MetaApi} owner :
  in_order [saw_no_signer_pods "default" Cached "val-signer"; saw_no_sts "default" Cached "val-signer";
            retention_seen owner "default" "val-signer"] example_absent.
Proof.
  apply in_order_here; [by exists []|]. apply in_order_here; [done|]. apply in_order_here; [by left|done].
Qed.

Lemma migrating_reachable `{MetaApi} :
  signer_reachable (node_recorded (migrating_node CosmosignerMigrationResettingState)).
Proof.
  set (o := OwnerOther (meta_of_name "" "")).
  set (up := update_migration o "default" "val-signer" "digest-2" "key-2").
  assert (signer_reachable (node_recorded (migrating_node CosmosignerMigrationQuiescing))) as H0.
  { eapply (signer_next o "default" "val-signer" "digest-2" "key-2" [] (mkRecorded "digest-1" "key-1" None)); [by apply signer_fresh|].
    apply (up [] _ _ 1%Z "" false), (update_start o "default" "val-signer" "digest-2" "key-2" 1 "" false [] (mkRecorded "digest-1" "key-1" None));
      [done..|by left]. }
  assert (signer_reachable (node_recorded (migrating_node CosmosignerMigrationDeleting))) as H1.
  { eapply (signer_next o "default" "val-signer" "digest-2" "key-2" example_absent); [exact H0|].
    apply (up example_absent _ _ 1%Z "" false), (update_advance o "default" "val-signer" "digest-2" "key-2" 1 "" false example_absent
      (node_recorded (migrating_node CosmosignerMigrationQuiescing))
      (example_migration CosmosignerMigrationQuiescing) CosmosignerMigrationDeleting); [done|reflexivity|done| |done|done].
    right; left. apply example_absent_after. }
  eapply (signer_next o "default" "val-signer" "digest-2" "key-2" example_absent); [exact H1|].
  apply (up example_absent _ _ 1%Z "" false), (update_advance o "default" "val-signer" "digest-2" "key-2" 1 "" false example_absent
    (node_recorded (migrating_node CosmosignerMigrationDeleting))
    (example_migration CosmosignerMigrationDeleting) CosmosignerMigrationResettingState); [done|reflexivity|done| |done|done].
  apply in_order_here; [by exists []|]. by apply in_order_here.
Qed.


Lemma reconcileCosmosignerMigration_resets_witness :
  let n := migrating_node CosmosignerMigrationResettingState in
  let params := example_params "digest-2" in
  spec (λ h r,
      (discards r →
         (∃ m, css_Migration (cn_Signer n) = Some m ∧ towards "digest-2" (pr_ExpectedPublicKey params) m ∧
               mg_Phase m = CosmosignerMigrationResettingState) ∧
         pr_ExpectedPublicKey params ≠ css_PublicKey (cn_Signer n) ∧
         @resets_claim reference_meta (OwnerChainNode n) (cn_Namespace n) (pr_Name params) h r) ∧
      (∀ n', r = UpdateStatusChainNode n' → @signer_reachable reference_meta (node_recorded n')))
    [] (@reconcileCosmosignerMigration reference_meta n params) (λ _ _, True).
Proof. apply reconcileCosmosignerMigration_resets; [apply migrating_reachable|reflexivity]. Defined.

Definition migrating_set : ChainNodeSet :=
  mkChainNodeSet (mkMeta "net" "default" "uid-2" ∅ None [] [] None 0 "") (cns_Spec example_nodeset)
    (newChainNodeSetStatus "chain-1" [] 0
       [with_entry (newCosmosignerStatus "chain-signer") "digest-1" "key-1" []
          (Some (example_migration CosmosignerMigrationResettingState))]).

Lemma reconcileCosmosignerMigrations_witness :
  entries_reachable (H := reference_meta) migrating_set ∧
  spec (λ h r, @discards_for_new_key reference_meta (OwnerChainNodeSet migrating_set) (cns_Namespace migrating_set) h r ∧
               (∀ s', r = UpdateStatusChainNodeSet s' → entries_reachable (H := reference_meta) s'))
    [] (@reconcileCosmosignerMigrations reference_meta migrating_set None) (λ _ _, True).
Proof.
  assert (entries_reachable (H := reference_meta) migrating_set) as Hr.
  { constructor; [|constructor]. apply migrating_reachable. }
  split; [exact Hr|]. by apply (reconcileCosmosignerMigrations_spec (H := reference_meta)).
Defined.

(** The key of a rollout is kept while its image changes: the raft state is reset. *)
Lemma superseding_rollout_witness :
  let n := migrating_node CosmosignerMigrationRollingOut in
  ∃ m', @reconcileCosmosignerMigration reference_meta n (example_params "digest-3") =
      (call (UpdateStatusChainNode (with_signer_status n (with_migration (cn_Signer n) m'))) ;? return_result true) ∧
    mg_Phase m' = CosmosignerMigrationQuiescing ∧ mg_ResetState m' = true ∧ mg_DesiredPublicKey m' = "key-2".
Proof.
  apply (superseding_rollout_resets_its_key (H := reference_meta) (migrating_node CosmosignerMigrationRollingOut)
           (example_params "digest-3") "digest-3" (example_migration CosmosignerMigrationRollingOut)); done.
Defined.
