(* ===== verification/Deploy.v ===== *)
(** * Deploying a signer ([internal/cosmosigner/apply.go])

    The checks made before a signer's objects are created or changed: names that
    another owner holds, replica pods that would block the StatefulSet, and above
    all the raft-state claims an established signer must come back with.  A live
    signer whose state is unsafe is latched at zero replicas. *)

From S2P Require Import Prelude GoLib IO ThirdParty ApiTypes KubeApi FakeServer Reference.
From S2P Require Import SignerResolve SigningNames SigningPaths Migration.

Definition errUnsafeRetainedState : string := "unsafe retained cosmosigner state".
Definition retainedStateLostAnnotation : string := "cosmopilot.voluzi.com/cosmosigner-retained-state-lost".
Definition discoveryServiceSuffix : string := "-privval".
Definition importJobSuffix : string := "import".
Definition pubkeyJobSuffix : string := "pubkey".

Definition unsafe (format : string) (args : list fmt_arg) : error :=
  Wrapf (Sentinel errUnsafeRetainedState) format args.

(** An object [ApplyOwned] is called with: the concrete type of a
    [client.Object] it switches on. *)
Inductive Managed :=
  | ManagedSts (s : StatefulSet)
  | ManagedObj (o : KubeObject).

Definition managed_meta (o : Managed) : ObjectMeta :=
  match o with ManagedSts s => sts_meta s | ManagedObj o => ob_meta o end.
Definition with_sts_meta (s : StatefulSet) (m : ObjectMeta) : StatefulSet :=
  mkStatefulSet m (sts_Generation s) (sts_Replicas s) (sts_Selector s) (sts_ServiceName s)
    (sts_PodManagementPolicy s) (sts_UpdateStrategy s) (sts_PodSpec s) (sts_TemplateLabels s) (sts_VolumeClaimTemplates s) (sts_Retention s)
    (sts_StatusObservedGeneration s) (sts_StatusReplicas s) (sts_StatusUpdatedReplicas s) (sts_StatusReadyReplicas s).
Definition with_meta (o : Managed) (m : ObjectMeta) : Managed :=
  match o with
  | ManagedSts s => ManagedSts (with_sts_meta s m)
  | ManagedObj o => ManagedObj (mkObject (ob_Kind o) m (ob_ClusterIP o) (ob_Content o))
  end.

(** [controllerutil.SetControllerReference], [k8s-objectmatcher/patch] and the
    conversion of a typed object to an unstructured one. *)
Class ApplyApi := {
  SetControllerReference : ObjectMeta → ObjectMeta → result ObjectMeta;
  SetLastAppliedAnnotation : Managed → result Managed;
  (** The key of the annotation it sets. *)
  LastAppliedConfig : string;
  (** [Calculate(existing, obj, IgnoreStatusFields())] and its [IsEmpty]. *)
  CalculatePatchIsEmpty : Managed → Managed → result bool;
  ToUnstructured : KubeObject → result KubeObject;
}.

(** Documented: the owner reference leaves the identity of the object, its labels and its
    annotations alone; the annotator sets one annotation of its own. *)
Class ApplyLaws `{ApplyApi} := {
  SetControllerReference_name owner m m' :
    SetControllerReference owner m = Ok m' →
    meta_Name m' = meta_Name m ∧ meta_Namespace m' = meta_Namespace m;
  SetControllerReference_labels owner m m' :
    SetControllerReference owner m = Ok m' → meta_Labels m' = meta_Labels m;
  SetLastAppliedAnnotation_meta o o' :
    SetLastAppliedAnnotation o = Ok o' →
    o' = with_meta o (managed_meta o') ∧
    meta_Name (managed_meta o') = meta_Name (managed_meta o) ∧
    meta_Namespace (managed_meta o') = meta_Namespace (managed_meta o) ∧
    ∀ k, k ≠ LastAppliedConfig → annotation (managed_meta o') k = annotation (managed_meta o) k;
  LastAppliedConfig_foreign : has_prefix LastAppliedConfig "cosmopilot.voluzi.com/" = false;
}.

(** [for _, x := range l { if err := f(x); err != nil { return err } }] *)
Fixpoint for_each_call {A} (f : A → kube (result ())) (l : list A) : kube (result ()) :=
  match l with
  | [] => return_result ()
  | x :: l => f x ;? for_each_call f l
  end.

Definition statefulSetEverRolledOut (s : StatefulSet) : bool :=
  (annotation (sts_meta s) EverRolledOutAnnotation == "true") ||
  statefulSetRolledOut s (default 1%Z (sts_Replicas s)).

(** The name of a replica's raft-state claim. *)
Definition data_claim (name : string) (ordinal : Z) : string :=
  dataVolumeName +:+ "-" +:+ name +:+ "-" +:+ FormatInt ordinal.

(** [PreserveImmutableStatefulSetFields] *)
Definition preserve_sts (d e : StatefulSet) : StatefulSet :=
  mkStatefulSet (sts_meta d) (sts_Generation d) (sts_Replicas d) (sts_Selector e) (sts_ServiceName e)
    (sts_PodManagementPolicy e) (sts_UpdateStrategy d) (sts_PodSpec d) (sts_TemplateLabels d) (sts_VolumeClaimTemplates e) (sts_Retention d)
    (sts_StatusObservedGeneration d) (sts_StatusReplicas d) (sts_StatusUpdatedReplicas d) (sts_StatusReadyReplicas d).
Definition PreserveImmutableStatefulSetFields (desired existing : Managed) : Managed :=
  match desired, existing with
  | ManagedSts d, ManagedSts e => ManagedSts (preserve_sts d e)
  | _, _ => desired
  end.

(** Stopped for good: latched and scaled to zero. *)
Definition latched (s : StatefulSet) : StatefulSet :=
  with_replicas (with_annotation s retainedStateLostAnnotation "true") 0.
Definition already_latched (s : StatefulSet) : bool :=
  (annotation (sts_meta s) retainedStateLostAnnotation == "true") && (sts_Replicas s == Some 0%Z).

Definition quiesceUnsafeRetainedState (sts : StatefulSet) (cause : error) : kube (result ()) :=
  if negb (errors_is cause errUnsafeRetainedState) then return_error cause
  else if already_latched sts then return_error cause
  else
    r ← call (UpdateStatefulSet (latched sts));
    match r with
    | Err _ => return_error (Wrapf cause "%w; additionally failed to quiesce unsafe StatefulSet %q: %v" [AStr (sts_Name sts)])
    | Ok _ => return_error (Wrapf cause "%w; StatefulSet %q was latched at zero replicas" [AStr (sts_Name sts)])
    end.

Section deploy.
Context `{MetaApi}.

(** ** Raft-state claims *)

Definition ensureNoForeignDataPVCs (owner : ObjectMeta) (namespace name : string) : kube (result ()) :=
  pvcs ←? call (ListPVCs Cached namespace);
  match find (λ pvc, isStatefulSetDataPVC (pvc_Name pvc) name && (pvc_label pvc labelOwnerUID != meta_UID owner)) pvcs with
  | Some pvc =>
      return_error (unsafe "%w: refusing to deploy cosmosigner %q: raft-state PVC %q belongs to a different owner (a previous same-name signer) and would be silently re-bound with its stale raft state — delete the claim, or label it with this owner's UID to adopt it"
        [AStr name; AStr (pvc_Name pvc)])
  | None => return_result ()
  end.

(** The verdict on one claim of an established signer. *)
Definition check_retained_claim (owner : ObjectMeta) (name claimName : string)
    (r : result PersistentVolumeClaim) : result () :=
  let args := [AStr name; AStr claimName] in
  match r with
  | Err e =>
      if IsNotFound e then
        Err (unsafe "%w: refusing to deploy established cosmosigner %q: retained raft-state PVC %q is missing, so slash-protection history may have been lost; restore the claim from the original volume or complete a persisted different-key state reset" args)
      else Err e
  | Ok pvc =>
      if pvc_label pvc labelOwnerUID != meta_UID owner then
        Err (unsafe "%w: refusing to deploy established cosmosigner %q: retained raft-state PVC %q is not attributed to the current owner" args)
      else if is_some (meta_DeletionTimestamp (pvc_meta pvc)) then
        Err (unsafe "%w: refusing to deploy established cosmosigner %q: retained raft-state PVC %q is terminating, so recreating the StatefulSet could replace slash-protection history with an empty volume" args)
      else if (pvc_Phase pvc != "Bound") || (pvc_VolumeName pvc == "") then
        Err (unsafe "%w: refusing to deploy established cosmosigner %q: retained raft-state PVC %q is not bound to a persistent volume, so its slash-protection history cannot be trusted" args)
      else if negb (ContainsFinalizer (pvc_meta pvc) RetainedStateFinalizer) then
        Err (unsafe "%w: refusing to deploy established cosmosigner %q: retained raft-state PVC %q is not protected against deletion" args)
      else Ok ()
  end.

Definition ensureRetainedDataPVCs (owner : ObjectMeta) (namespace name : string) (replicas : Z) : kube (result ()) :=
  for_each_call (λ ordinal,
    let claimName := data_claim name ordinal in
    r ← call (GetPVC Cached namespace claimName);
    Ret (check_retained_claim owner name claimName r)) (seqZ 0 replicas).

Definition statefulSetPVCTemplateRetainsState (sts : StatefulSet) : bool :=
  match find (λ claim, pvc_Name claim == dataVolumeName) (sts_VolumeClaimTemplates sts) with
  | Some claim => ContainsFinalizer (pvc_meta claim) RetainedStateFinalizer
  | None => false
  end.

Definition replicas_of (s : StatefulSet) : Z := default 1%Z (sts_Replicas s).

(** More replicas than the live set has, over a template without the guard. *)
Definition scales_unprotected (sts live : StatefulSet) : bool :=
  (replicas_of live <? replicas_of sts)%Z && negb (statefulSetPVCTemplateRetainsState live).

(** The guard that applies once the live set is known to have signed. *)
Definition strengthen_guard (live : option StatefulSet) (guard : applyGuard) : applyGuard :=
  match live with
  | Some live =>
      if statefulSetEverRolledOut live then
        mkApplyGuard true (if (ag_RetainedStateReplicas guard <=? 0)%Z then replicas_of live
                           else ag_RetainedStateReplicas guard)
      else guard
  | None => guard
  end.

Definition ensureStatefulSetPVCsForApply (owner : ObjectMeta) (sts : StatefulSet) (live : option StatefulSet)
    (guard : applyGuard) : kube (result ()) :=
  let name := sts_Name sts in
  let namespace := meta_Namespace (sts_meta sts) in
  if (match live with Some l => annotation (sts_meta l) retainedStateLostAnnotation == "true" | None => false end) then
    return_error (unsafe "%w: refusing to deploy cosmosigner %q because retained slash-protection state was previously lost or became unsafe; complete a persisted different-key state reset" [AStr name])
  else if (match live with Some l => scales_unprotected sts l | None => false end) then
    return_error (unsafe "%w: refusing to scale cosmosigner %q because its live volume claim template does not protect newly created raft-state PVCs; complete the break-before-make StatefulSet migration first" [AStr name])
  else
    ensureNoForeignDataPVCs owner namespace name ;?
    let guard := strengthen_guard live guard in
    if negb (ag_RequireRetainedState guard) then return_result ()
    else if (ag_RetainedStateReplicas guard <=? 0)%Z then
      return_error (unsafe "%w: refusing to deploy established cosmosigner %q: retained raft-state replica lock is missing or invalid" [AStr name])
    else ensureRetainedDataPVCs owner namespace name (ag_RetainedStateReplicas guard).

(** ** Preflight *)

Definition ensureHeadlessServiceDeployable (owner : ObjectMeta) (namespace kind name : string) : kube (result ()) :=
  r ← call (GetObject Cached "Service" namespace name);
  match r with
  | Err e => if IsNotFound e then return_result () else return_error e
  | Ok svc =>
      if negb (IsControlledBy (ob_meta svc) owner) then return_error (foreignObjectErr kind name)
      else if ob_ClusterIP svc != "None" then
        return_error (Errorf "cosmosigner %s %q is not headless and cannot be converted in place; delete the stale owned Service before deploying the signer"
          [AStr kind; AStr name])
      else return_result ()
  end.

Definition ensureReplicaPodNamesAvailable (namespace name : string) (replicas : Z) (sts : option StatefulSet) :
    kube (result ()) :=
  for_each_call (λ ordinal,
    let podName := name +:+ "-" +:+ FormatInt ordinal in
    r ← call (GetPod Cached namespace podName);
    match r with
    | Err e => if IsNotFound e then return_result () else return_error e
    | Ok pod =>
        if (match sts with Some s => IsControlledBy (pod_meta pod) (sts_meta s) | None => false end) then return_result ()
        else return_error (Errorf "cosmosigner replica pod %q already exists; refusing to create or scale a StatefulSet that cannot start all replicas"
               [AStr podName])
    end) (seqZ 0 replicas).

Definition ensureNoForeignObject (owner : ObjectMeta) (kind : string) (get : kube (result ObjectMeta)) : kube (result ()) :=
  r ← get;
  match r with
  | Err e => if IsNotFound e then return_result () else return_error e
  | Ok m => if negb (IsControlledBy m owner) then return_error (foreignObjectErr kind (meta_Name m)) else return_result ()
  end.

Definition get_object_meta (kind namespace name : string) : kube (result ObjectMeta) :=
  o ←? call (GetObject Cached kind namespace name); return_result (ob_meta o).
Definition get_pod_meta (namespace name : string) : kube (result ObjectMeta) :=
  p ←? call (GetPod Cached namespace name); return_result (pod_meta p).

(** The claim checks that end a preflight. *)
Definition preflight_claims (owner : ObjectMeta) (namespace name : string) (replicas : Z)
    (requireRetainedState : bool) (sts : option StatefulSet) : kube (result ()) :=
  let refuse (e : error) := match sts with Some s => quiesceUnsafeRetainedState s e | None => return_error e end in
  r ← ensureNoForeignDataPVCs owner namespace name;
  match r with
  | Err e => refuse e
  | Ok _ =>
      if requireRetainedState then
        r ← ensureRetainedDataPVCs owner namespace name replicas;
        match r with
        | Err e => refuse e
        | Ok _ => return_result ()
        end
      else return_result ()
  end.

Definition PreflightDeployable (owner : ObjectMeta) (namespace name : string) (replicas : Z)
    (usesImportPod usesPubkeyPod requireRetainedState : bool) : kube (result ()) :=
  for_each_call (λ '(kind, get), ensureNoForeignObject owner kind get)
    ([("ConfigMap", get_object_meta "ConfigMap" namespace name);
      ("NetworkPolicy", get_object_meta "NetworkPolicy" namespace name)] ++
     (if usesPubkeyPod then [("pubkey pod", get_pod_meta namespace (name +:+ "-" +:+ pubkeyJobSuffix))] else []) ++
     (if usesImportPod then [("import pod", get_pod_meta namespace (name +:+ "-" +:+ importJobSuffix))] else [])) ;?
  ensureHeadlessServiceDeployable owner namespace "raft Service" name ;?
  ensureHeadlessServiceDeployable owner namespace "discovery Service" (name +:+ discoveryServiceSuffix) ;?
  r ← call (GetStatefulSet Cached namespace name);
  match r with
  | Ok sts =>
      if negb (IsControlledBy (sts_meta sts) owner) then return_error (foreignObjectErr "StatefulSet" name) else
      let requireRetainedState :=
        if annotation (sts_meta sts) retainedStateLostAnnotation == "true" then false
        else if statefulSetEverRolledOut sts then true
        else requireRetainedState in
      ensureReplicaPodNamesAvailable namespace name replicas (Some sts) ;?
      preflight_claims owner namespace name replicas requireRetainedState (Some sts)
  | Err e =>
      if IsNotFound e then
        ensureReplicaPodNamesAvailable namespace name replicas None ;?
        preflight_claims owner namespace name replicas requireRetainedState None
      else return_error e
  end.

(** ** Applying an object *)

Section apply.
Context `{ApplyApi}.

Definition is_sts (o : Managed) : bool := match o with ManagedSts _ => true | ManagedObj _ => false end.

Definition get_managed (o : Managed) : kube (result Managed) :=
  let m := managed_meta o in
  match o with
  | ManagedSts _ => s ←? call (GetStatefulSet Cached (meta_Namespace m) (meta_Name m)); return_result (ManagedSts s)
  | ManagedObj o => o ←? call (GetObject Cached (ob_Kind o) (meta_Namespace m) (meta_Name m)); return_result (ManagedObj o)
  end.
Definition create_managed (o : Managed) : kube (result ()) :=
  match o with ManagedSts s => call (CreateStatefulSet s) | ManagedObj o => call (CreateObject o) end.
Definition update_managed (o : Managed) : kube (result ()) :=
  match o with ManagedSts s => call (UpdateStatefulSet s) | ManagedObj o => call (UpdateObject o) end.

Definition with_resource_version (m : ObjectMeta) (v : string) : ObjectMeta :=
  mkMeta (meta_Name m) (meta_Namespace m) (meta_UID m) (meta_Labels m) (meta_Annotations m) (meta_OwnerReferences m)
    (meta_Finalizers m) (meta_DeletionTimestamp m) (meta_CreationTimestamp m) v.

(** The write of an object that exists, unless nothing would change. *)
Definition patch_managed (existing obj : Managed) : kube (result ()) :=
  match CalculatePatchIsEmpty existing obj with
  | Err e => return_error e
  | Ok empty =>
      if empty && (meta_Labels (managed_meta existing) == meta_Labels (managed_meta obj)) then return_result () else
      match SetLastAppliedAnnotation obj with
      | Err e => return_error e
      | Ok obj =>
          update_managed (with_meta obj
            (with_resource_version (managed_meta obj) (meta_ResourceVersion (managed_meta existing))))
      end
  end.

Definition keep_ever_rolled_out (sts live : StatefulSet) : StatefulSet :=
  if annotation (sts_meta live) EverRolledOutAnnotation == "true"
  then with_annotation sts EverRolledOutAnnotation "true" else sts.

Definition apply_existing (owner : ObjectMeta) (guard : applyGuard) (obj existing : Managed) : kube (result ()) :=
  if negb (IsControlledBy (managed_meta existing) owner) then
    return_error (Errorf "cosmosigner resource %q is managed by another owner; refusing to overwrite it — rename the ChainNode/ChainNodeSet to avoid the name collision"
      [AStr (meta_Name (managed_meta obj))])
  else
    let obj := PreserveImmutableStatefulSetFields obj existing in
    match obj, existing with
    | ManagedSts sts, ManagedSts live =>
        r ← ensureStatefulSetPVCsForApply owner sts (Some live) guard;
        match r with
        | Err e => quiesceUnsafeRetainedState live e
        | Ok _ => patch_managed existing (ManagedSts (keep_ever_rolled_out sts live))
        end
    | ManagedSts _, ManagedObj _ => return_error (Errorf "existing cosmosigner StatefulSet is not an apps/v1 StatefulSet" [])
    | ManagedObj _, _ => patch_managed existing obj
    end.

Definition apply_new (owner : ObjectMeta) (guard : applyGuard) (obj : Managed) : kube (result ()) :=
  match SetLastAppliedAnnotation obj with
  | Err e => return_error e
  | Ok obj =>
      match obj with
      | ManagedSts sts => ensureStatefulSetPVCsForApply owner sts None guard ;? create_managed obj
      | ManagedObj _ => create_managed obj
      end
  end.

(** A network policy is applied as an unstructured object. *)
Definition to_applied (obj : Managed) : result Managed :=
  match obj with
  | ManagedObj o =>
      if ob_Kind o == "NetworkPolicy" then
        match ToUnstructured o with
        | Err e => Err (Wrapf e "converting NetworkPolicy %q: %w" [AStr (meta_Name (ob_meta o))])
        | Ok o => Ok (ManagedObj o)
        end
      else Ok obj
  | ManagedSts _ => Ok obj
  end.

Definition ApplyOwned (owner : ObjectMeta) (obj : Managed) (guards : list applyGuard) : kube (result ()) :=
  if (1 <? length guards)%nat then return_error (Errorf "at most one cosmosigner apply guard may be supplied" [])
  else if is_sts obj && negb (length guards =? 1)%nat then
    return_error (Errorf "a cosmosigner StatefulSet requires an explicit apply guard" [])
  else
    let guard := match guards with [g] => g | _ => mkApplyGuard false 0 end in
    match to_applied obj with
    | Err e => return_error e
    | Ok obj =>
        match SetControllerReference owner (managed_meta obj) with
        | Err e => return_error e
        | Ok m =>
            let obj := with_meta obj m in
            r ← get_managed obj;
            match r with
            | Err e => if IsNotFound e then apply_new owner guard obj else return_error e
            | Ok existing => apply_existing owner guard obj existing
            end
        end
    end.

(** ** What the reconcilers call *)

Definition chainnode_established (n : ChainNode) : bool :=
  let s := cn_Signer n in
  (css_AppliedDigest s != "") || (css_SigningDigest s != "") || (css_PublicKey s != "") || (css_ServingIdentity s != "").
Definition status_established (st : CosmosignerStatus) : bool :=
  (st_AppliedDigest st != "") || (st_SigningDigest st != "") || (st_PublicKey st != "") || (st_ServingIdentity st != "").

(** The persisted state a signer is deployed under. *)
Record SignerLocks := mkSignerLocks {
  lk_established : bool;
  lk_migration : option CosmosignerMigrationStatus;
  lk_replicas : option Z;
}.
Definition chainnode_locks (n : ChainNode) : SignerLocks :=
  mkSignerLocks (chainnode_established n) (css_Migration (cn_Signer n)) (css_Replicas (cn_Signer n)).
Definition status_locks (status : option CosmosignerStatus) : SignerLocks :=
  match status with
  | Some st => mkSignerLocks (status_established st) (st_Migration st) (st_Replicas st)
  | None => mkSignerLocks false None None
  end.

Definition apply_signer (owner : ObjectMeta) (locks : SignerLocks) (sts : StatefulSet) : kube (result ()) :=
  match StatefulSetApplyGuard (lk_established locks) (lk_migration locks) (lk_replicas locks) (default 0%Z (sts_Replicas sts)) with
  | Err e => return_error e
  | Ok guard => ApplyOwned owner (ManagedSts sts) [guard]
  end.

(** [chainnode/cosmosigner.go] *)
Definition applyCosmosignerObject (n : ChainNode) (obj : Managed) : kube (result ()) :=
  match obj with
  | ManagedObj _ => ApplyOwned (cn_meta n) obj []
  | ManagedSts sts => apply_signer (cn_meta n) (chainnode_locks n) sts
  end.

(** [chainnodeset/cosmosigner.go] *)
Definition applyCosmosignerStatefulSet (s : ChainNodeSet) (status : option CosmosignerStatus) (sts : StatefulSet) :
    kube (result ()) :=
  apply_signer (cns_meta s) (status_locks status) sts.
End apply.
End deploy.

(** ** What the checks promise *)

Lemma for_each_call_spec {A} P (I : list kevent → Prop) (f : A → kube (result ())) (G : A → list kevent → Prop) Q l h :
  (∀ x h h', h `suffix_of` h' → G x h → G x h') →
  (∀ x h, x ∈ l → I h → spec P h (f x) (λ h' r, match r with Ok _ => I h' ∧ G x h' | Err e => Q h' (Err e) end)) →
  I h →
  spec P h (for_each_call f l) (λ h' r, match r with Ok _ => I h' ∧ ∀ x, x ∈ l → G x h' | Err e => Q h' (Err e : result ()) end).
Proof.
  intros Hm. revert h. induction l as [|x l IH]; intros h Hf Hi; simpl; [split; [done|set_solver]|].
  rewrite spec_try. eapply spec_conseq; [apply Hf; [by left|done]|]. intros h1 [[]|e] _ H1; [|done].
  destruct H1 as [Hi1 Hg]. eapply spec_conseq; [apply spec_suffix, IH; [|exact Hi1]; intros; apply Hf; [by right|done]|].
  intros h2 [[]|e] _ [Hs H2]; [|done]. destruct H2 as [Hi2 Hl]. split; [done|].
  intros y [->|Hy]%elem_of_cons; [|by apply Hl]. by eapply Hm.
Qed.

(** Only what the calls may do, under a fact that stays true. *)
Lemma for_each_call_permitted {A} P I `{Stable _ _ I} (f : A → kube (result ())) l h :
  (∀ x h', x ∈ l → I h' → spec P h' (f x) (λ _ _, True)) → I h → spec P h (for_each_call f l) (λ _ _, True).
Proof.
  intros Hf Hi. eapply spec_conseq; [apply (for_each_call_spec P I f (λ _ _, True) (λ _ _, True))|done]; [done| |done].
  intros x h' Hx Hi'. eapply spec_conseq; [apply spec_keep; [done|exact Hi'|by apply Hf]|].
  intros h'' [[]|e] _ [? _]; done.
Qed.

(** The same when every element promises something of its own. *)
Lemma for_each_call_goals {A} P (f : A → kube (result ())) l (Gs : list (list kevent → Prop)) h :
  Forall2 (λ x (G : list kevent → Prop),
    (∀ h h', h `suffix_of` h' → G h → G h') ∧
    (∀ h, spec P h (f x) (λ h' r, r = Ok () → G h'))) l Gs →
  spec P h (for_each_call f l) (λ h' r, r = Ok () → Forall (λ G, G h') Gs).
Proof.
  intros Hl. revert h. induction Hl as [|x G l Gs [Hm Hx] Hl IH]; intros h; simpl; [done|].
  rewrite spec_try. eapply spec_conseq; [apply Hx|]. intros h1 [[]|e] _ Hg; [|done].
  eapply spec_conseq; [apply spec_suffix, IH|]. intros h2 r _ [Hs Hr] ->. constructor; [|by apply Hr]. eauto.
Qed.

Section claims.
Context `{MetaApi}.
Variables (owner : ObjectMeta) (namespace name : string).

(** A raft-state claim that can be trusted to hold the signer's history. *)
Definition claim_intact (pvc : PersistentVolumeClaim) : Prop :=
  pvc_label pvc labelOwnerUID = meta_UID owner ∧ meta_DeletionTimestamp (pvc_meta pvc) = None ∧
  pvc_Phase pvc = "Bound" ∧ pvc_VolumeName pvc ≠ "" ∧
  ContainsFinalizer (pvc_meta pvc) RetainedStateFinalizer = true.

(** The claims of the first [n] replicas were all seen intact. *)
Definition state_retained (n : Z) (h : list kevent) : Prop :=
  ∀ ordinal, (0 ≤ ordinal < n)%Z →
    ∃ pvc, Ev (GetPVC Cached namespace (data_claim name ordinal)) (Ok pvc) ∈ h ∧ claim_intact pvc.

Definition foreign_claim (pvc : PersistentVolumeClaim) : Prop :=
  isStatefulSetDataPVC (pvc_Name pvc) name = true ∧ pvc_label pvc labelOwnerUID ≠ meta_UID owner.

(** A listing without a claim a new replica could bind that is not the owner's. *)
Definition no_foreign_claims (h : list kevent) : Prop :=
  ∃ l, Ev (ListPVCs Cached namespace) (Ok l) ∈ h ∧ ∀ pvc, pvc ∈ l → ¬ foreign_claim pvc.

(** What was observed shows that the signer's state is unsafe. *)
Definition unsafe_seen (h : list kevent) : Prop :=
  (∃ ev l pvc, ev ∈ h ∧ pvcs_answer ev = Some l ∧ pvc ∈ l ∧ foreign_claim pvc) ∨
  (∃ ev claimName x e, ev ∈ h ∧ pvc_answer ev = Some (claimName, x) ∧
     check_retained_claim owner name claimName x = Err e ∧ errors_is e errUnsafeRetainedState = true).

(** Reads of claims; every routine below may issue them. *)
Definition reads_claims (h : list kevent) (r : request) : Prop :=
  match r with
  | ListPVCs Cached ns | GetPVC Cached ns _ => ns = namespace
  | _ => False
  end.

(** Safe so far, or refused as unsafe. *)
Definition refused (r : result ()) : Prop :=
  ∃ e, r = Err e ∧ errors_is e errUnsafeRetainedState = true.

Lemma check_retained_claim_Ok claimName x :
  check_retained_claim owner name claimName x = Ok () ↔ ∃ pvc, x = Ok pvc ∧ claim_intact pvc.
Proof.
  unfold check_retained_claim, claim_intact. destruct x as [pvc|e].
  - split.
    + repeat case_match; try done. intros _. exists pvc. to_prop. split_and!; try done.
      by destruct (meta_DeletionTimestamp _).
    + intros (? & [= <-] & -> & -> & -> & Hv & ->). rewrite bool_decide_eq_true_2 by done. simpl.
      by rewrite (bool_decide_eq_false_2 (_ = "")).
  - split; [by destruct (IsNotFound e)|by intros (? & ? & _)].
Qed.

(** One more event leaves the state safe unless it is evidence itself. *)
Lemma unsafe_seen_cons ev h :
  ¬ unsafe_seen h →
  (∀ l pvc, pvcs_answer ev = Some l → pvc ∈ l → ¬ foreign_claim pvc) →
  (∀ claimName x e, pvc_answer ev = Some (claimName, x) → check_retained_claim owner name claimName x = Err e →
     errors_is e errUnsafeRetainedState = false) →
  ¬ unsafe_seen (ev :: h).
Proof.
  intros Hs Hl Hc [(ev' & l & pvc & [->|Hin]%elem_of_cons & Ha & Hp & Hf)|(ev' & c & x & e & [->|Hin]%elem_of_cons & Ha & He & Hu)].
  - by eapply Hl.
  - apply Hs. left. by exists ev', l, pvc.
  - apply (Hc _ _ e) in Ha; [congruence|done].
  - apply Hs. right. by exists ev', c, x, e.
Qed.

Lemma ensureNoForeignDataPVCs_spec h :
  ¬ unsafe_seen h →
  spec reads_claims h (ensureNoForeignDataPVCs owner namespace name) (λ h' r,
    match r with
    | Ok _ => ¬ unsafe_seen h' ∧ no_foreign_claims h'
    | Err _ => ¬ unsafe_seen h' ∨ refused r
    end).
Proof.
  intros Hs. unfold ensureNoForeignDataPVCs. rewrite spec_try. simpl. split; [done|]. intros [l|e]; simpl.
  2:{ left. by apply unsafe_seen_cons. }
  destruct (find _ l) eqn:Ef; simpl; [right; by eexists|].
  assert (∀ pvc, pvc ∈ l → ¬ foreign_claim pvc) as Hl.
  { intros pvc Hp%list_elem_of_In [H1 H2]. apply (find_none _ _ Ef) in Hp. rewrite H1 in Hp. simpl in Hp. by to_prop. }
  split; [|exists l; split; [by left|done]].
  apply unsafe_seen_cons; [done| |done]. intros l' pvc [= <-]. apply Hl.
Qed.

Lemma ensureRetainedDataPVCs_spec n h :
  ¬ unsafe_seen h →
  spec reads_claims h (ensureRetainedDataPVCs owner namespace name n) (λ h' r,
    match r with
    | Ok _ => ¬ unsafe_seen h' ∧ state_retained n h'
    | Err _ => ¬ unsafe_seen h' ∨ refused r
    end).
Proof.
  intros Hs. unfold ensureRetainedDataPVCs.
  eapply spec_conseq; [apply (for_each_call_spec _ (λ h, ¬ unsafe_seen h) _
    (λ o h, ∃ pvc, Ev (GetPVC Cached namespace (data_claim name o)) (Ok pvc) ∈ h ∧ claim_intact pvc)
    (λ h' r, ¬ unsafe_seen h' ∨ refused r)); [| |exact Hs]|].
  - intros o h1 h2 [k ->] (pvc & ? & ?). exists pvc. set_solver.
  - clear h Hs. intros o h _ Hs. simpl. split; [done|]. intros x.
    destruct (check_retained_claim owner name (data_claim name o) x) as [[]|e] eqn:Ec.
    + split.
      * apply unsafe_seen_cons; [done..|]. intros c x' e [= <- <-]. congruence.
      * apply check_retained_claim_Ok in Ec as (pvc & -> & ?). exists pvc. split; [by left|done].
    + destruct (errors_is e errUnsafeRetainedState) eqn:Ee; [right; by exists e|left].
      apply unsafe_seen_cons; [done..|]. intros c x' e' [= <- <-]. congruence.
  - intros h' [[]|e] _; [|done]. intros [Hu Hr]. split; [done|]. intros o Ho. apply Hr, elem_of_seqZ. lia.
Qed.
End claims.

(** ** Applying a signer's StatefulSet *)

Section safety.
Context `{MetaApi} `{ApplyLaws}.
Variables (owner : ObjectMeta) (namespace name : string).

Abbreviation retained := (state_retained owner namespace name).

Definition saw_live (live : StatefulSet) (h : list kevent) : Prop :=
  Ev (GetStatefulSet Cached namespace name) (Ok live) ∈ h ∧ IsControlledBy (sts_meta live) owner = true.

(** The claims the guard asks for, given what is live. *)
Definition guard_met (guard : applyGuard) (live : option StatefulSet) (h : list kevent) : Prop :=
  let g := strengthen_guard live guard in
  ag_RequireRetainedState g = true → (0 < ag_RetainedStateReplicas g)%Z ∧ retained (ag_RetainedStateReplicas g) h.

(** A write that deploys the rendered set [sts]: the evidence it needs. *)
Definition deploys (sts : StatefulSet) (guard : applyGuard) (h : list kevent) (r : request) : Prop :=
  match r with
  | CreateStatefulSet s =>
      Ev (GetStatefulSet Cached namespace name) (Err (ApiError ReasonNotFound)) ∈ h ∧
      s = with_sts_meta sts (sts_meta s) ∧ sts_Name s = name ∧ meta_Namespace (sts_meta s) = namespace ∧
      no_foreign_claims owner namespace name h ∧ guard_met guard None h
  | UpdateStatefulSet s => ∃ live, saw_live live h ∧
      annotation (sts_meta live) retainedStateLostAnnotation ≠ "true" ∧
      s = with_sts_meta (preserve_sts sts live) (sts_meta s) ∧ sts_Name s = name ∧
      meta_ResourceVersion (sts_meta s) = meta_ResourceVersion (sts_meta live) ∧
      (annotation (sts_meta live) EverRolledOutAnnotation = "true" →
       annotation (sts_meta s) EverRolledOutAnnotation = "true") ∧
      scales_unprotected sts live = false ∧
      no_foreign_claims owner namespace name h ∧ guard_met guard (Some live) h
  | _ => False
  end.

(** The only other write stops a live set. *)
Definition latches (h : list kevent) (r : request) : Prop :=
  match r with
  | UpdateStatefulSet s => ∃ live, saw_live live h ∧ s = latched live
  | _ => False
  end.

Definition reads_signer (h : list kevent) (r : request) : Prop :=
  match r with
  | ListPVCs Cached ns | GetPVC Cached ns _ => ns = namespace
  | GetStatefulSet Cached ns n => ns = namespace ∧ n = name
  | GetObject Cached _ ns _ | GetPod Cached ns _ => ns = namespace
  | _ => False
  end.

(** Every live set of this owner that was seen is stopped. *)
Definition stopped (h : list kevent) : Prop :=
  ∀ live, saw_live live h →
    already_latched live = true ∨ ∃ x, Ev (UpdateStatefulSet (latched live)) x ∈ h.

Lemma reads_claims_signer h r : reads_claims namespace h r → reads_signer h r.
Proof. by destruct r. Qed.
#[local] Opaque ensureNoForeignDataPVCs ensureRetainedDataPVCs.

Lemma ensureStatefulSetPVCsForApply_spec sts live guard h :
  sts_Name sts = name → meta_Namespace (sts_meta sts) = namespace →
  ¬ unsafe_seen owner name h →
  spec (reads_claims namespace) h (ensureStatefulSetPVCsForApply owner sts live guard) (λ h' r,
    match r with
    | Ok _ => ¬ unsafe_seen owner name h' ∧
        (∀ l, live = Some l → annotation (sts_meta l) retainedStateLostAnnotation ≠ "true" ∧ scales_unprotected sts l = false) ∧
        no_foreign_claims owner namespace name h' ∧ guard_met guard live h'
    | Err _ => ¬ unsafe_seen owner name h' ∨ refused r
    end).
Proof.
  intros Hn Hns Hs. unfold ensureStatefulSetPVCsForApply. rewrite Hn, Hns.
  destruct (match live with Some l => annotation _ _ == _ | None => _ end) eqn:El; [right; by eexists|].
  destruct (match live with Some l => scales_unprotected _ _ | None => _ end) eqn:Es; [right; by eexists|].
  rewrite spec_try. eapply spec_conseq; [by apply ensureNoForeignDataPVCs_spec|]. intros h1 [[]|e] _ K1; [|done].
  destruct K1 as [Hs1 Hf]. cbv zeta.
  assert (∀ l, live = Some l → annotation (sts_meta l) retainedStateLostAnnotation ≠ "true" ∧ scales_unprotected sts l = false) as Hl.
  { intros l ->. by to_prop. }
  destruct (ag_RequireRetainedState (strengthen_guard live guard)) eqn:Eg; simpl.
  2:{ split_and!; [done|done|done|]. intros Hg. cbv zeta in Hg. congruence. }
  destruct (ag_RetainedStateReplicas _ <=? 0)%Z eqn:En; simpl; [right; by eexists|]. to_prop.
  eapply spec_conseq; [apply spec_suffix, (ensureRetainedDataPVCs_spec _ namespace); exact Hs1|].
  intros h2 [[]|e] _ [S2 K2]; [|done]. destruct K2 as [Hs2 Hr]. split_and!; [done|done| |done].
  destruct Hf as (l & Hl1 & Hl2). exists l. split; [|done]. by eapply elem_of_suffix.
Qed.
#[local] Opaque ensureStatefulSetPVCsForApply.

(** A refusal that is an unsafe state stops the live set. *)
Lemma quiesceUnsafeRetainedState_spec live cause h :
  saw_live live h → (∀ l, saw_live l h → l = live) → ¬ unsafe_seen owner name h ∨ refused (Err cause) →
  spec latches h (quiesceUnsafeRetainedState live cause) (λ h' r,
    is_ok r = false ∧ (unsafe_seen owner name h' → stopped h')).
Proof.
  intros Hl Hu Hs. unfold quiesceUnsafeRetainedState. destruct (errors_is cause errUnsafeRetainedState) eqn:Ee; simpl.
  2:{ split; [done|]. intros H'. destruct Hs as [|(e & [= <-] & ?)]; [done|congruence]. }
  destruct (already_latched live) eqn:Ea; simpl; [split; [done|]; intros _ l ->%Hu; by left|].
  split; [by exists live|]. intros [x|e]; simpl; (split; [done|]; intros _ l [[|Hin]%elem_of_cons Hc]; [done|]);
    right; rewrite (Hu l) by done; eexists; by left.
Qed.
#[local] Opaque quiesceUnsafeRetainedState.

Definition apply_permitted (sts : StatefulSet) (guard : applyGuard) (h : list kevent) (r : request) : Prop :=
  reads_signer h r ∨ deploys sts guard h r ∨ latches h r.

Lemma reads_apply {A} sts guard h (m : kube A) Q :
  spec (reads_claims namespace) h m Q → spec (apply_permitted sts guard) h m Q.
Proof. intros Hm. eapply spec_mono; [exact Hm|intros h' r _ Hr; left; by apply reads_claims_signer|done]. Qed.

Lemma nothing_live_unsafe h : (∀ l, ¬ saw_live l h) → stopped h.
Proof. intros Hl l Hs. by destruct (Hl l). Qed.

Lemma saw_live_other l h ev :
  saw_live l (ev :: h) → ev ≠ Ev (GetStatefulSet Cached namespace name) (Ok l) → saw_live l h.
Proof. intros [[->|Hin]%elem_of_cons Hc] Hne; [done|done]. Qed.

(** Reading claims shows no other live set. *)
Lemma reads_claims_live {A} (m : kube A) h Q :
  spec (reads_claims namespace) h m Q →
  spec (reads_claims namespace) h m (λ h' r, (∀ l, saw_live l h' ↔ saw_live l h) ∧ Q h' r).
Proof.
  revert h. induction m as [a|r k IH]; simpl; intros h; [done|]. intros [Hr Hk]. split; [done|]. intros x.
  eapply spec_conseq; [apply IH, Hk|]. intros h' a _ [Hl HQ]. split; [|done]. intros l. rewrite Hl. split.
  - intros [[E|Hin]%elem_of_cons Hc]; [|done]. by destruct r, (f_equal sts_answer E).
  - intros [Hin Hc]. split; [by right|done].
Qed.

Lemma keep_ever_rolled_out_meta (sts live : StatefulSet) :
  keep_ever_rolled_out sts live = with_sts_meta sts (sts_meta (keep_ever_rolled_out sts live)).
Proof. unfold keep_ever_rolled_out. by destruct (_ == _), sts. Qed.

Lemma keep_ever_rolled_out_name (sts live : StatefulSet) :
  meta_Name (sts_meta (keep_ever_rolled_out sts live)) = meta_Name (sts_meta sts).
Proof. unfold keep_ever_rolled_out. by destruct (_ == _). Qed.

(** The annotator does not touch the operator's own annotations. *)
Lemma cosmopilot_annotation k : has_prefix k "cosmopilot.voluzi.com/" = true → k ≠ LastAppliedConfig.
Proof. intros Hk ->. by rewrite LastAppliedConfig_foreign in Hk. Qed.

(** The write that ends an update, when there is one. *)
Lemma patch_managed_spec P sts1 live h :
  (∀ s', s' = with_sts_meta sts1 (sts_meta s') → meta_Name (sts_meta s') = meta_Name (sts_meta sts1) →
     meta_ResourceVersion (sts_meta s') = meta_ResourceVersion (sts_meta live) →
     (∀ k, k ≠ LastAppliedConfig → annotation (sts_meta s') k = annotation (sts_meta sts1) k) →
     P h (UpdateStatefulSet s')) →
  ¬ unsafe_seen owner name h →
  spec P h (patch_managed (ManagedSts live) (ManagedSts sts1)) (λ h' r, ¬ unsafe_seen owner name h').
Proof.
  intros HP Hs. unfold patch_managed. destruct (CalculatePatchIsEmpty _ _) as [empty|e]; [|done].
  destruct (_ && _); [done|]. destruct (SetLastAppliedAnnotation _) as [o|e] eqn:Ea; [|done].
  apply SetLastAppliedAnnotation_meta in Ea as (Eo & En & _ & Ek). rewrite Eo in *. simpl in *.
  split.
  - by apply HP.
  - intros x. simpl. by apply unsafe_seen_cons.
Qed.

(** An object found: it is changed, refused or stopped. *)
Lemma apply_existing_spec sts sts1 guard live :
  let h := [Ev (GetStatefulSet Cached namespace name) (Ok live)] in
  sts1 = with_sts_meta sts (sts_meta sts1) → sts_Name sts1 = name → meta_Namespace (sts_meta sts1) = namespace →
  spec (apply_permitted sts guard) h (apply_existing owner guard (ManagedSts sts1) (ManagedSts live)) (λ h' r,
    unsafe_seen owner name h' → is_ok r = false ∧ stopped h').
Proof.
  intros h Ests Hn Hns. assert (¬ unsafe_seen owner name h) as Hsafe.
  { apply unsafe_seen_cons; try done.
    intros [(? & ? & ? & Hin & _)|(? & ? & ? & ? & Hin & _)]; by apply elem_of_nil in Hin. }
  assert (∀ l, saw_live l h → l = live) as Hu.
  { intros l [[E|Hin]%elem_of_cons _]; [|by apply elem_of_nil in Hin].
    apply (f_equal sts_answer) in E. by injection E. }
  unfold apply_existing. simpl managed_meta.
  destruct (IsControlledBy (sts_meta live) owner) eqn:Ec; simpl; [|done].
  assert (saw_live live h) as Hlive by (split; [by left|done]).
  rewrite spec_mbind. apply reads_apply.
  eapply spec_conseq; [apply spec_suffix, reads_claims_live,
    (ensureStatefulSetPVCsForApply_spec (preserve_sts sts1 live) (Some live) guard); [exact Hn|exact Hns|exact Hsafe]|].
  intros h2 r _ [Hsuf [Hsame Hr]]. rewrite <- Hsame in Hlive.
  assert (∀ l, saw_live l h2 → l = live) as Hu2 by (intros l; rewrite Hsame; apply Hu).
  destruct r as [[]|e].
  - destruct Hr as (Hs2 & Hl & Hf & Hg). destruct (Hl live eq_refl) as [Ha Hsc].
    eapply spec_conseq; [apply patch_managed_spec; [|exact Hs2]|by intros h3 r _ Hr' Hun].
    intros s' Es Es1 Es2 Es3. right; left. exists live. rewrite Ests in Hsc. split_and!; try done.
    + rewrite Es, keep_ever_rolled_out_meta, Ests. done.
    + etrans; [exact Es1|]. by rewrite keep_ever_rolled_out_name.
    + intros He. rewrite Es3; [|by apply cosmopilot_annotation]. unfold keep_ever_rolled_out.
      rewrite bool_decide_eq_true_2 by done. apply annotation_set.
  - eapply spec_mono; [by apply quiesceUnsafeRetainedState_spec|by intros h3 r _ Hr'; right; right|].
    intros h3 r _ [Hok Hst] Hun. auto.
Qed.
#[local] Opaque apply_existing.

Lemma apply_new_spec sts sts1 guard :
  let h := [Ev (GetStatefulSet Cached namespace name) (Err (ApiError ReasonNotFound))] in
  sts1 = with_sts_meta sts (sts_meta sts1) → sts_Name sts1 = name → meta_Namespace (sts_meta sts1) = namespace →
  spec (apply_permitted sts guard) h (apply_new owner guard (ManagedSts sts1)) (λ h' r,
    unsafe_seen owner name h' → is_ok r = false ∧ stopped h').
Proof.
  intros h Ests Hn Hns.
  assert (∀ l, ¬ saw_live l h) as Hno.
  { intros l [[E|Hin]%elem_of_cons _]; [|by apply elem_of_nil in Hin]. by apply (f_equal sts_answer) in E. }
  unfold apply_new. destruct (SetLastAppliedAnnotation _) as [o|e] eqn:Ea; [|by split; [|apply nothing_live_unsafe]].
  apply SetLastAppliedAnnotation_meta in Ea as (Eo & En & Ens & _). rewrite Eo in *. simpl in *.
  set (m' := managed_meta o) in *. rewrite spec_try. apply reads_apply.
  eapply spec_conseq; [apply spec_suffix, reads_claims_live,
    (ensureStatefulSetPVCsForApply_spec (with_sts_meta sts1 m') None guard)|].
  { by rewrite <- Hn. }
  { by rewrite <- Hns. }
  { apply unsafe_seen_cons; try done.
    intros [(? & ? & ? & Hin & _)|(? & ? & ? & ? & Hin & _)]; by apply elem_of_nil in Hin. }
  intros h2 [[]|e] _ [Hsuf [Hsame Hr]].
  2:{ intros _. split; [done|]. apply nothing_live_unsafe. intros l. rewrite Hsame. apply Hno. }
  destruct Hr as (Hs2 & _ & Hf & Hg). simpl. split.
  - right; left. split_and!; try done.
    + destruct Hsuf as [k ->]. set_solver.
    + by rewrite Ests.
    + by rewrite <- Hn.
    + by rewrite <- Hns.
  - intros x Hun. by apply unsafe_seen_cons in Hun.
Qed.
#[local] Opaque apply_new.

Lemma ApplyOwned_sts_spec sts guard :
  sts_Name sts = name → meta_Namespace (sts_meta sts) = namespace →
  spec (apply_permitted sts guard) [] (ApplyOwned owner (ManagedSts sts) [guard]) (λ h' r,
    unsafe_seen owner name h' → is_ok r = false ∧ stopped h').
Proof.
  intros Hn Hns. unfold ApplyOwned. simpl.
  assert (∀ e, unsafe_seen owner name [] → is_ok (Err e : result ()) = false ∧ stopped []) as Hnil.
  { intros e _. split; [done|]. intros l [Hin _]. by apply elem_of_nil in Hin. }
  destruct (SetControllerReference owner (sts_meta sts)) as [m|e] eqn:Em; [|exact (Hnil e)].
  apply SetControllerReference_name in Em as [Em1 Em2]. unfold sts_Name in Hn. simpl. rewrite Em1, Em2, Hn, Hns.
  split; [by left|]. intros [live|e]; simpl.
  - apply apply_existing_spec; unfold sts_Name; simpl; congruence.
  - destruct (IsNotFound e) eqn:Ee.
    + unfold IsNotFound in Ee. to_prop. subst e. apply apply_new_spec; unfold sts_Name; simpl; congruence.
    + simpl. intros _. split; [done|]. intros l [[E|Hin]%elem_of_cons _]; [|by apply elem_of_nil in Hin].
      by apply (f_equal sts_answer) in E.
Qed.

(** ** Preflight *)

#[local] Set Default Proof Using "Type".

Definition preflight_permitted (h : list kevent) (r : request) : Prop := reads_signer h r ∨ latches h r.

Definition not_foreign (via : source) (kind name' : string) (h : list kevent) : Prop :=
  Ev (GetObject via kind namespace name') (Err (ApiError ReasonNotFound)) ∈ h ∨
  ∃ o, Ev (GetObject via kind namespace name') (Ok o) ∈ h ∧ IsControlledBy (ob_meta o) owner = true ∧
       (kind = "Service" → ob_ClusterIP o = "None").
Definition pod_not_foreign (name' : string) (h : list kevent) : Prop :=
  Ev (GetPod Cached namespace name') (Err (ApiError ReasonNotFound)) ∈ h ∨
  ∃ p, Ev (GetPod Cached namespace name') (Ok p) ∈ h ∧ IsControlledBy (pod_meta p) owner = true.

(** Every replica can get its pod name. *)
Definition pod_names_free (replicas : Z) (sts : option StatefulSet) (h : list kevent) : Prop :=
  ∀ ordinal, (0 ≤ ordinal < replicas)%Z →
    let podName := name +:+ "-" +:+ FormatInt ordinal in
    Ev (GetPod Cached namespace podName) (Err (ApiError ReasonNotFound)) ∈ h ∨
    ∃ s p, sts = Some s ∧ Ev (GetPod Cached namespace podName) (Ok p) ∈ h ∧ IsControlledBy (pod_meta p) (sts_meta s) = true.

(** The claims a preflight asks for, given the live set. *)
Definition claims_ready (replicas : Z) (required : bool) (sts : option StatefulSet) (h : list kevent) : Prop :=
  no_foreign_claims owner namespace name h ∧
  match sts with
  | Some live =>
      annotation (sts_meta live) retainedStateLostAnnotation = "true" ∨
      (statefulSetEverRolledOut live || required = true → retained replicas h)
  | None => required = true → retained replicas h
  end.

(** What a successful preflight has seen. *)
Definition deployable (replicas : Z) (usesImportPod usesPubkeyPod required : bool) (h : list kevent) : Prop :=
  not_foreign Cached "ConfigMap" name h ∧ not_foreign Cached "NetworkPolicy" name h ∧
  not_foreign Cached "Service" name h ∧ not_foreign Cached "Service" (name +:+ discoveryServiceSuffix) h ∧
  (usesPubkeyPod = true → pod_not_foreign (name +:+ "-" +:+ pubkeyJobSuffix) h) ∧
  (usesImportPod = true → pod_not_foreign (name +:+ "-" +:+ importJobSuffix) h) ∧
  ∃ sts, match sts with
         | Some live => saw_live live h
         | None => Ev (GetStatefulSet Cached namespace name) (Err (ApiError ReasonNotFound)) ∈ h
         end ∧ pod_names_free replicas sts h ∧ claims_ready replicas required sts h.

(** Reads of other objects are no evidence on the signer. *)
Definition reads_names (h : list kevent) (r : request) : Prop :=
  match r with GetObject Cached _ ns _ | GetPod Cached ns _ => ns = namespace | _ => False end.
Definition same_evidence (h h' : list kevent) : Prop :=
  (∀ l, saw_live l h' ↔ saw_live l h) ∧ (unsafe_seen owner name h' → unsafe_seen owner name h).

Lemma reads_names_same {A} (m : kube A) h Q :
  spec reads_names h m Q → spec preflight_permitted h m (λ h' r, same_evidence h h' ∧ Q h' r).
Proof.
  revert h. induction m as [a|r k IH]; simpl; intros h; [done|]. intros [Hr Hk].
  split; [left; by destruct r|]. intros x.
  eapply spec_conseq; [apply IH, Hk|]. intros h' a _ [[Hl Hu] HQ]. split; [|done]. split.
  - intros l. rewrite Hl. split.
    + intros [[E|Hin]%elem_of_cons Hc]; [|done]. by destruct r, (f_equal sts_answer E).
    + intros [Hin Hc]. split; [by right|done].
  - intros Hun%Hu. destruct (decide (pvc_answer (Ev r x) = None ∧ pvcs_answer (Ev r x) = None)) as [[E1 E2]|Hne].
    + destruct Hun as [(ev & l & pvc & [->|Hin]%elem_of_cons & Ha & Hp)|(ev & c & y & e & [->|Hin]%elem_of_cons & Ha & He)];
        try congruence; [left; by exists ev, l, pvc|right; by exists ev, c, y, e].
    + exfalso. apply Hne. by destruct r.
Qed.

Lemma same_evidence_trans h1 h2 h3 : same_evidence h1 h2 → same_evidence h2 h3 → same_evidence h1 h3.
Proof. intros [L1 U1] [L2 U2]. split; [intros l; by rewrite L2|auto]. Qed.

Lemma not_foreign_suffix via kind n h h' : h `suffix_of` h' → not_foreign via kind n h → not_foreign via kind n h'.
Proof.
  intros Hs [Hin|(o & Hin & Ho)]; [left; by eapply elem_of_suffix|right; exists o; split; [by eapply elem_of_suffix|done]].
Qed.
Lemma pod_not_foreign_suffix n h h' : h `suffix_of` h' → pod_not_foreign n h → pod_not_foreign n h'.
Proof.
  intros Hs [Hin|(o & Hin & Ho)]; [left; by eapply elem_of_suffix|right; exists o; split; [by eapply elem_of_suffix|done]].
Qed.

Lemma ensureNoForeignObject_object kind n h :
  kind ≠ "Service" →
  spec reads_names h (ensureNoForeignObject owner kind (get_object_meta kind namespace n)) (λ h' r,
    r = Ok () → not_foreign Cached kind n h').
Proof.
  intros Hk. simpl. split; [done|]. intros [o|e]; simpl.
  - destruct (IsControlledBy _ _) eqn:Ec; simpl; [|done]. intros _. right. exists o. split_and!; [by left|done|done].
  - destruct (IsNotFound e) eqn:Ee; simpl; [|done]. unfold IsNotFound in Ee. to_prop. subst. intros _. left. by left.
Qed.

Lemma ensureNoForeignObject_pod kind n h :
  spec reads_names h (ensureNoForeignObject owner kind (get_pod_meta namespace n)) (λ h' r,
    r = Ok () → pod_not_foreign n h').
Proof.
  simpl. split; [done|]. intros [o|e]; simpl.
  - destruct (IsControlledBy _ _) eqn:Ec; simpl; [|done]. intros _. right. exists o. split_and!; [by left|done].
  - destruct (IsNotFound e) eqn:Ee; simpl; [|done]. unfold IsNotFound in Ee. to_prop. subst. intros _. left. by left.
Qed.

Lemma ensureHeadlessServiceDeployable_spec kind n h :
  spec reads_names h (ensureHeadlessServiceDeployable owner namespace kind n) (λ h' r,
    r = Ok () → not_foreign Cached "Service" n h').
Proof.
  simpl. split; [done|]. intros [o|e]; simpl.
  - destruct (IsControlledBy _ _) eqn:Ec; simpl; [|done]. destruct (_ == _) eqn:Eh; simpl; [|done]. to_prop.
    intros _. right. exists o. split_and!; [by left|done|done].
  - destruct (IsNotFound e) eqn:Ee; simpl; [|done]. unfold IsNotFound in Ee. to_prop. subst. intros _. left. by left.
Qed.

Lemma ensureReplicaPodNamesAvailable_spec replicas sts h :
  spec reads_names h (ensureReplicaPodNamesAvailable namespace name replicas sts) (λ h' r,
    r = Ok () → pod_names_free replicas sts h').
Proof.
  unfold ensureReplicaPodNamesAvailable.
  eapply spec_conseq; [apply (for_each_call_spec _ (λ _, True) _ (λ o h,
    Ev (GetPod Cached namespace (name +:+ "-" +:+ FormatInt o)) (Err (ApiError ReasonNotFound)) ∈ h ∨
    ∃ s p, sts = Some s ∧ Ev (GetPod Cached namespace (name +:+ "-" +:+ FormatInt o)) (Ok p) ∈ h ∧
           IsControlledBy (pod_meta p) (sts_meta s) = true) (λ _ _, True)); [| |done]|].
  - intros o h1 h2 Hs [Hin|(s & p & E & Hin & Hc)]; [left; by eapply elem_of_suffix|right; exists s, p].
    split_and!; [done|by eapply elem_of_suffix|done].
  - intros o h1 _ _. simpl. split; [done|]. intros [p|e]; simpl.
    + destruct sts as [s|]; [|done]. destruct (IsControlledBy _ _) eqn:Ec; simpl; [|done]. split; [done|].
      right. exists s, p. split_and!; [done|by left|done].
    + destruct (IsNotFound e) eqn:Ee; simpl; [|done]. unfold IsNotFound in Ee. to_prop. subst. split; [done|]. left. by left.
  - intros h' [[]|e] _; [|done]. intros [_ Hr] _ o Ho. apply Hr, elem_of_seqZ. lia.
Qed.
#[local] Opaque ensureNoForeignObject ensureHeadlessServiceDeployable ensureReplicaPodNamesAvailable.

(** What holds when a preflight returns. *)
Definition preflight_post (replicas : Z) (usesImportPod usesPubkeyPod required : bool) (h : list kevent) (r : result ()) : Prop :=
  (r = Ok () → deployable replicas usesImportPod usesPubkeyPod required h) ∧
  (unsafe_seen owner name h → is_ok r = false ∧ stopped h).

Lemma no_evidence_post replicas b1 b2 required h e :
  same_evidence [] h → preflight_post replicas b1 b2 required h (Err e).
Proof.
  intros [Hl Hu]. split; [done|]. intros _. split; [done|]. apply nothing_live_unsafe. intros l Hin%Hl.
  destruct Hin as [Hin _]. by apply elem_of_nil in Hin.
Qed.

(** One read of a preflight that can only refuse. *)
Lemma preflight_step {B} (m : kube (result ())) (k : kube (result B)) (G : list kevent → Prop) h Q :
  spec reads_names h m (λ h' r, r = Ok () → G h') → same_evidence [] h →
  (∀ h', h `suffix_of` h' → same_evidence [] h' → G h' → spec preflight_permitted h' k Q) →
  (∀ h' e, same_evidence [] h' → Q h' (Err e)) →
  spec preflight_permitted h (m ;? k) Q.
Proof.
  intros Hm He Hk HQ. rewrite spec_try. eapply spec_conseq; [apply spec_suffix, reads_names_same, Hm|].
  intros h' [[]|e] _ (Hs & Hsame & Hr); [apply Hk; [done| |by apply Hr]|apply HQ]; by eapply same_evidence_trans.
Qed.

Lemma preflight_names_spec usesImportPod usesPubkeyPod (k : kube (result ())) Q :
  (∀ h, same_evidence [] h → not_foreign Cached "ConfigMap" name h → not_foreign Cached "NetworkPolicy" name h →
     (usesPubkeyPod = true → pod_not_foreign (name +:+ "-" +:+ pubkeyJobSuffix) h) →
     (usesImportPod = true → pod_not_foreign (name +:+ "-" +:+ importJobSuffix) h) →
     spec preflight_permitted h k Q) →
  (∀ h e, same_evidence [] h → Q h (Err e)) →
  spec preflight_permitted []
    (for_each_call (λ '(kind, get), ensureNoForeignObject owner kind get)
       ([("ConfigMap", get_object_meta "ConfigMap" namespace name);
         ("NetworkPolicy", get_object_meta "NetworkPolicy" namespace name)] ++
        (if usesPubkeyPod then [("pubkey pod", get_pod_meta namespace (name +:+ "-" +:+ pubkeyJobSuffix))] else []) ++
        (if usesImportPod then [("import pod", get_pod_meta namespace (name +:+ "-" +:+ importJobSuffix))] else [])) ;? k) Q.
Proof.
  intros Hk HQ.
  eapply (preflight_step _ _ (λ h, not_foreign Cached "ConfigMap" name h ∧ not_foreign Cached "NetworkPolicy" name h ∧
     (usesPubkeyPod = true → pod_not_foreign (name +:+ "-" +:+ pubkeyJobSuffix) h) ∧
     (usesImportPod = true → pod_not_foreign (name +:+ "-" +:+ importJobSuffix) h))).
  2: by split. 2:{ intros h' _ He (?&?&?&?). by apply Hk. } 2: done.
  set (item := λ (b : bool) (kind n : string), if b then [(kind, get_pod_meta namespace n)] else []).
  set (goal := λ (b : bool) n, if b then [pod_not_foreign n] else []).
  assert (∀ b kind n, Forall2 (λ '(kind, get) (G : list kevent → Prop),
    (∀ h h', h `suffix_of` h' → G h → G h') ∧
    (∀ h, spec reads_names h (ensureNoForeignObject owner kind get) (λ h' r, r = Ok () → G h'))) (item b kind n) (goal b n)) as Hpod.
  { intros [] kind n; [|constructor]. constructor; [|constructor].
    split; [apply pod_not_foreign_suffix|apply ensureNoForeignObject_pod]. }
  eapply spec_conseq; [apply (for_each_call_goals _ _ _
    ([not_foreign Cached "ConfigMap" name; not_foreign Cached "NetworkPolicy" name] ++
     goal usesPubkeyPod (name +:+ "-" +:+ pubkeyJobSuffix) ++ goal usesImportPod (name +:+ "-" +:+ importJobSuffix)))|].
  - apply Forall2_app; [|apply Forall2_app].
    + constructor; [|constructor; [|constructor]];
        (split; [apply not_foreign_suffix|by intros; apply ensureNoForeignObject_object]).
    + eapply Forall2_impl; [apply (Hpod usesPubkeyPod "pubkey pod")|]. by intros [].
    + eapply Forall2_impl; [apply (Hpod usesImportPod "import pod")|]. by intros [].
  - intros h' r _ Hr Hok. specialize (Hr Hok). rewrite !Forall_app, !Forall_cons in Hr.
    destruct Hr as ((? & ? & _) & Hpub & Himp). split_and!; [done|done| |]; intros ->;
      [by inversion Hpub|by inversion Himp].
Qed.

Lemma preflight_claims_spec replicas required sts h :
  (match sts with Some live => saw_live live h | None => True end) →
  (∀ l, saw_live l h → sts = Some l) → ¬ unsafe_seen owner name h →
  spec preflight_permitted h (preflight_claims owner namespace name replicas required sts) (λ h' r,
    (r = Ok () → no_foreign_claims owner namespace name h' ∧ (required = true → retained replicas h')) ∧
    (unsafe_seen owner name h' → is_ok r = false ∧ stopped h')).
Proof.
  intros Hl Hu Hs. unfold preflight_claims.
  assert (∀ h' e, h `suffix_of` h' → (∀ l, saw_live l h' ↔ saw_live l h) → ¬ unsafe_seen owner name h' ∨ refused (Err e) →
    spec preflight_permitted h' (match sts with Some s => quiesceUnsafeRetainedState s e | None => return_error e end)
      (λ h' r, (r = Ok () → no_foreign_claims owner namespace name h' ∧ (required = true → retained replicas h')) ∧
               (unsafe_seen owner name h' → is_ok r = false ∧ stopped h'))) as Hrefuse.
  { intros h' e Hsuf Hsame He. destruct sts as [live|].
    - eapply spec_mono; [apply (quiesceUnsafeRetainedState_spec live e)|by intros h2 r _ Hr; right|].
      + by apply Hsame.
      + intros l Hin%Hsame%Hu. by injection Hin.
      + done.
      + intros h2 r _ [Hok Hst]. split; [by intros ->|]. auto.
    - simpl. split; [done|]. intros _. split; [done|]. apply nothing_live_unsafe. intros l Hin%Hsame%Hu. done. }
  assert (∀ A (m : kube A) h Q, spec (reads_claims namespace) h m Q → spec preflight_permitted h m Q) as Hreads.
  { intros A m h' Q Hm. eapply spec_mono; [exact Hm|intros h2 r _ Hr; left; by apply reads_claims_signer|done]. }
  rewrite spec_mbind. apply Hreads. eapply spec_conseq; [apply spec_suffix, reads_claims_live, ensureNoForeignDataPVCs_spec, Hs|].
  intros h1 [[]|e] _ (S1 & L1 & K1); [|by apply Hrefuse]. destruct K1 as [U1 F1].
  destruct required; [|by split].
  rewrite spec_mbind. apply Hreads. eapply spec_conseq; [apply spec_suffix, reads_claims_live, ensureRetainedDataPVCs_spec, U1|].
  intros h2 [[]|e] _ (S2 & L2 & K2).
  - destruct K2 as [U2 R2]. split; [|done]. intros _. split; [|done].
    destruct F1 as (l & Hin & Hf). exists l. split; [by eapply elem_of_suffix|done].
  - apply Hrefuse; [by etrans| |done]. intros l. by rewrite L2.
Qed.
#[local] Opaque preflight_claims.

(** The end of a preflight, once the live set is known. *)
Lemma preflight_rest_spec replicas required sts req h :
  (match sts with
   | Some live => saw_live live h
   | None => Ev (GetStatefulSet Cached namespace name) (Err (ApiError ReasonNotFound)) ∈ h
   end) →
  (∀ l, saw_live l h → sts = Some l) → ¬ unsafe_seen owner name h →
  (∀ h', (req = true → retained replicas h') → no_foreign_claims owner namespace name h' →
         claims_ready replicas required sts h') →
  spec preflight_permitted h
    (ensureReplicaPodNamesAvailable namespace name replicas sts ;? preflight_claims owner namespace name replicas req sts)
    (λ h' r, (r = Ok () → pod_names_free replicas sts h' ∧ claims_ready replicas required sts h') ∧
             (unsafe_seen owner name h' → is_ok r = false ∧ stopped h')).
Proof.
  intros Hl Hu Hun Hready. rewrite spec_try.
  eapply spec_conseq; [apply spec_suffix, reads_names_same, ensureReplicaPodNamesAvailable_spec|].
  intros h4 [[]|e] _ (S4 & (L4 & U4) & K4).
  2:{ split; [done|]. intros Hx. by destruct (Hun (U4 Hx)). }
  specialize (K4 eq_refl). eapply spec_conseq; [apply spec_suffix, preflight_claims_spec|].
  - destruct sts; [by apply L4|done].
  - intros l. rewrite L4. apply Hu.
  - auto.
  - intros h5 r _ (S5 & K5 & U5). split; [|done]. intros Hr. specialize (K5 Hr) as [F5 R5].
    split; [|by apply Hready].
    intros o Ho. destruct (K4 o Ho) as [Hin|(s & p & Es & Hin & Hc)]; [left; by eapply elem_of_suffix|].
    right. exists s, p. split_and!; [done|by eapply elem_of_suffix|done].
Qed.

Lemma PreflightDeployable_post replicas usesImportPod usesPubkeyPod required :
  spec preflight_permitted [] (PreflightDeployable owner namespace name replicas usesImportPod usesPubkeyPod required)
    (preflight_post replicas usesImportPod usesPubkeyPod required).
Proof.
  pose proof (no_evidence_post replicas usesImportPod usesPubkeyPod required) as Hno.
  unfold PreflightDeployable. apply preflight_names_spec; [|done]. intros h1 E1 C1 N1 P1 I1.
  apply preflight_step with (G := not_foreign Cached "Service" name);
    [apply ensureHeadlessServiceDeployable_spec|done| |done]. intros h2 S2 E2 V2.
  apply preflight_step with (G := not_foreign Cached "Service" (name +:+ discoveryServiceSuffix));
    [apply ensureHeadlessServiceDeployable_spec|done| |done]. intros h3 S3 E3 V3.
  assert (¬ unsafe_seen owner name h3) as Hun.
  { intros [(? & ? & ? & Hin & _)|(? & ? & ? & ? & Hin & _)]%E3; by apply elem_of_nil in Hin. }
  assert (∀ l, ¬ saw_live l h3) as Hnl.
  { intros l [Hin _]%E3. by apply elem_of_nil in Hin. }
  assert (∀ h sts (m : kube (result ())), h3 `suffix_of` h →
    (match sts with
     | Some live => saw_live live h
     | None => Ev (GetStatefulSet Cached namespace name) (Err (ApiError ReasonNotFound)) ∈ h
     end) →
    spec preflight_permitted h m (λ h' r,
      (r = Ok () → pod_names_free replicas sts h' ∧ claims_ready replicas required sts h') ∧
      (unsafe_seen owner name h' → is_ok r = false ∧ stopped h')) →
    spec preflight_permitted h m (preflight_post replicas usesImportPod usesPubkeyPod required)) as Hend.
  { intros h sts m Hs Hl Hm. eapply spec_conseq; [by apply spec_suffix|].
    intros h5 r _ (S5 & K5 & U5). split; [|done]. intros Hr. specialize (K5 Hr) as [F5 R5].
    assert (h3 `suffix_of` h5) as S35 by by etrans. assert (h2 `suffix_of` h5) as S25 by by etrans.
    assert (h1 `suffix_of` h5) as S15 by by etrans.
    split_and!; try by (eapply not_foreign_suffix; [|eassumption]).
    - intros Hb. eapply pod_not_foreign_suffix; [exact S15|by apply P1].
    - intros Hb. eapply pod_not_foreign_suffix; [exact S15|by apply I1].
    - exists sts. split; [|done]. destruct sts; [destruct Hl; split; [by eapply elem_of_suffix; [|exact S5]|done]|by eapply elem_of_suffix; [|exact S5]]. }
  simpl. split; [by left|]. intros [live|e]; simpl.
  - destruct (IsControlledBy (sts_meta live) owner) eqn:Ec; simpl.
    2:{ split; [done|]. intros Hx. by apply unsafe_seen_cons in Hx. }
    assert (saw_live live (Ev (GetStatefulSet Cached namespace name) (Ok live) :: h3)) as Hlive by (split; [by left|done]).
    eapply (Hend _ (Some live)), preflight_rest_spec; [by eexists [_]|done..| |by apply unsafe_seen_cons|].
    + intros l [[E|Hin]%elem_of_cons Hc]; [apply (f_equal sts_answer) in E; by injection E as ->|].
      by destruct (Hnl l).
    + intros h' Hr Hf. split; [done|]. destruct (_ == "true") eqn:El; to_prop; [by left|]. right.
      destruct (statefulSetEverRolledOut live); simpl; auto.
  - destruct (IsNotFound e) eqn:Ee; simpl.
    2:{ split; [done|]. intros Hx. by apply unsafe_seen_cons in Hx. }
    unfold IsNotFound in Ee. to_prop. subst e.
    eapply (Hend _ None), preflight_rest_spec; [by eexists [_]|by left|by left| |by apply unsafe_seen_cons|done].
    intros l [[E|Hin]%elem_of_cons Hc]; [by apply (f_equal sts_answer) in E|]. by destruct (Hnl l).
Qed.
End safety.

(** ** Preflight against the apply

    Against a server that answers in one way, a preflight that passes means that
    the apply's claim checks pass too, for the same replicas. *)

Section soundness.
Context `{MetaApi}.
Variable ans : ∀ r, response r.

Lemma run_with_for_each {A} (f : A → kube (result ())) l :
  run_with ans (for_each_call f l) = for_each (λ x, run_with ans (f x)) l.
Proof.
  induction l as [|x l IH]; simpl; [done|]. rewrite run_with_try. destruct (run_with ans (f x)); simpl; [apply IH|done].
Qed.

Lemma run_quiesce s cause : is_ok (run_with ans (quiesceUnsafeRetainedState s cause)) = false.
Proof.
  unfold quiesceUnsafeRetainedState. destruct (negb _); [done|]. destruct (already_latched s); [done|]. simpl.
  by destruct (ans _).
Qed.

Lemma run_preflight_claims owner namespace name replicas required sts :
  run_with ans (preflight_claims owner namespace name replicas required sts) = Ok () →
  run_with ans (ensureNoForeignDataPVCs owner namespace name) = Ok () ∧
  (required = true → run_with ans (ensureRetainedDataPVCs owner namespace name replicas) = Ok ()).
Proof.
  unfold preflight_claims. rewrite run_with_mbind.
  assert (∀ e, run_with ans (match sts with Some s => quiesceUnsafeRetainedState s e | None => return_error e end) ≠ Ok ()) as Hr.
  { intros e. destruct sts as [s|]; [|done]. pose proof (run_quiesce s e). intros E. by rewrite E in *. }
  destruct (run_with ans (ensureNoForeignDataPVCs owner namespace name)) as [[]|e]; [|by intros ?%Hr].
  destruct required; [|done]. rewrite run_with_mbind.
  destruct (run_with ans (ensureRetainedDataPVCs owner namespace name replicas)) as [[]|e]; [done|by intros ?%Hr].
Qed.
#[local] Opaque ensureNoForeignObject ensureHeadlessServiceDeployable ensureReplicaPodNamesAvailable preflight_claims
  ensureNoForeignDataPVCs ensureRetainedDataPVCs.

(** The live set as the apply reads it; [None] when there is none. *)
Definition live_of (r : result StatefulSet) : option StatefulSet := match r with Ok s => Some s | Err _ => None end.

Lemma preflight_passes owner namespace name replicas usesImportPod usesPubkeyPod required :
  let live := live_of (ans (GetStatefulSet Cached namespace name)) in
  run_with ans (PreflightDeployable owner namespace name replicas usesImportPod usesPubkeyPod required) = Ok () →
  run_with ans (ensureNoForeignDataPVCs owner namespace name) = Ok () ∧
  (∀ l, live = Some l → annotation (sts_meta l) retainedStateLostAnnotation ≠ "true" →
     statefulSetEverRolledOut l || required = true →
     run_with ans (ensureRetainedDataPVCs owner namespace name replicas) = Ok ()) ∧
  (live = None → required = true → run_with ans (ensureRetainedDataPVCs owner namespace name replicas) = Ok ()).
Proof.
  intros live. unfold live, PreflightDeployable. rewrite !run_with_try.
  destruct (run_with ans (for_each_call _ _)) as [[]|]; simpl; [|done].
  destruct (run_with ans (ensureHeadlessServiceDeployable _ _ "raft Service" _)) as [[]|]; simpl; [|done].
  destruct (run_with ans (ensureHeadlessServiceDeployable _ _ "discovery Service" _)) as [[]|]; simpl; [|done].
  destruct (ans (GetStatefulSet Cached namespace name)) as [l|e]; simpl.
  - destruct (IsControlledBy _ _); simpl; [|done]. rewrite run_with_try.
    destruct (run_with ans (ensureReplicaPodNamesAvailable _ _ _ _)) as [[]|]; simpl; [|done].
    intros [Hf Hr]%run_preflight_claims. split_and!; [done| |done]. intros ? [= <-] Ha He. apply Hr.
    rewrite bool_decide_eq_false_2 by done. by destruct (statefulSetEverRolledOut l).
  - destruct (IsNotFound e); simpl; [|done]. rewrite run_with_try.
    destruct (run_with ans (ensureReplicaPodNamesAvailable _ _ _ _)) as [[]|]; simpl; [|done].
    by intros [Hf Hr]%run_preflight_claims.
Qed.
End soundness.

(** ** Properties *)

Section properties.
Context `{MetaApi} `{ApplyApi}.

(** The evidence on which a signer may be started, given its persisted locks
    and the live set. *)
Definition may_sign (owner : ObjectMeta) (namespace name : string) (locks : SignerLocks)
    (live : option StatefulSet) (h : list kevent) : Prop :=
  let discardable := state_discardable (lk_established locks) (lk_migration locks) in
  (∀ m, lk_migration locks = Some m → mg_Phase m = CosmosignerMigrationRollingOut) ∧
  no_foreign_claims owner namespace name h ∧
  (discardable ∧ (∀ l, live = Some l → statefulSetEverRolledOut l = false) ∨
   ∃ n, (0 < n)%Z ∧ state_retained owner namespace name n h ∧ (¬ discardable → lk_replicas locks = Some n)).

Definition signer_permitted (owner : ObjectMeta) (locks : SignerLocks) (sts : StatefulSet)
    (h : list kevent) (r : request) : Prop :=
  let namespace := meta_Namespace (sts_meta sts) in
  let name := sts_Name sts in
  match r with
  | CreateStatefulSet s =>
      Ev (GetStatefulSet Cached namespace name) (Err (ApiError ReasonNotFound)) ∈ h ∧
      s = with_sts_meta sts (sts_meta s) ∧ sts_Name s = name ∧ may_sign owner namespace name locks None h
  | UpdateStatefulSet s => ∃ live, saw_live owner namespace name live h ∧
      (s = latched live ∨
       annotation (sts_meta live) retainedStateLostAnnotation ≠ "true" ∧
       s = with_sts_meta (preserve_sts sts live) (sts_meta s) ∧ sts_Name s = name ∧
       (annotation (sts_meta live) EverRolledOutAnnotation = "true" →
        annotation (sts_meta s) EverRolledOutAnnotation = "true") ∧
       scales_unprotected sts live = false ∧ may_sign owner namespace name locks (Some live) h)
  | _ => reads_signer namespace name h r
  end.

Lemma guard_may_sign owner namespace name locks live desired g h :
  StatefulSetApplyGuard (lk_established locks) (lk_migration locks) (lk_replicas locks) desired = Ok g →
  no_foreign_claims owner namespace name h → guard_met owner namespace name g live h →
  may_sign owner namespace name locks live h.
Proof.
  intros [Hm Hg]%StatefulSetApplyGuard_iff Hf Hc. split_and!; [done|done|]. unfold guard_met in Hc.
  destruct Hg as [[Hd ->]|(Hd & n & Hn & Hpos & ->)].
  - destruct live as [l|]; simpl in Hc; [|left; split; [done|by intros ? [=]]].
    destruct (statefulSetEverRolledOut l) eqn:Ee; [|left; split; [done|by intros ? [= <-]]].
    destruct (Hc eq_refl) as [Hp Hr]. right. eexists. split_and!; [exact Hp|exact Hr|done].
  - right. exists n. split_and!; [done| |done].
    destruct live as [l|]; simpl in Hc; [|by apply Hc].
    destruct (statefulSetEverRolledOut l); simpl in Hc; [|by apply Hc].
    rewrite (proj2 (Z.leb_gt _ _)) in Hc by lia. by apply Hc.
Qed.
End properties.

(** C11: whatever the API server answers, a signer's StatefulSet is created or
    changed only outside a migration or in its last phase, after a listing
    without foreign claims, and either its state is discardable and it never
    rolled out or the claims of all its locked replicas were seen owned, bound,
    protected and not terminating; the only other write latches a live set at zero,
    and whenever the claims that were read show the state to be unsafe, the
    deployment fails and every live set of this owner has been so stopped. *)
Theorem signer_applied_only_with_state `{MetaApi} `{ApplyLaws} owner locks sts :
  spec (signer_permitted owner locks sts) [] (apply_signer owner locks sts) (λ h' r,
    unsafe_seen owner (sts_Name sts) h' →
    is_ok r = false ∧ stopped owner (meta_Namespace (sts_meta sts)) (sts_Name sts) h').
Proof.
  unfold apply_signer. destruct (StatefulSetApplyGuard _ _ _ _) as [g|e] eqn:Eg.
  2:{ simpl. intros _. split; [done|]. intros l [Hin _]. by apply elem_of_nil in Hin. }
  eapply spec_mono; [by apply ApplyOwned_sts_spec| |done].
  intros h r _ [Hr|[Hr|Hr]]; destruct r; try done; simpl in *.
  - destruct Hr as (live & Hl & Ha & Es & En & _ & He & Hsc & Hf & Hg). exists live. split; [done|]. right.
    split_and!; try done. by eapply guard_may_sign.
  - destruct Hr as (? & ? & ? & ? & Hf & Hg). split_and!; try done. by eapply guard_may_sign.
  - destruct Hr as (live & ? & ?). exists live. by split; [|left].
Qed.

(** whatever the API server answers, a preflight issues no write but the
    one that latches an unsafe live set, succeeds only after seeing every name
    the deployment needs free or its own and the required claims intact, and never
    succeeds nor leaves a live set running on claims that are unsafe. *)
Theorem PreflightDeployable_spec `{MetaApi} owner namespace name replicas usesImportPod usesPubkeyPod required :
  spec (preflight_permitted owner namespace name) []
    (PreflightDeployable owner namespace name replicas usesImportPod usesPubkeyPod required)
    (preflight_post owner namespace name replicas usesImportPod usesPubkeyPod required).
Proof. apply PreflightDeployable_post. Qed.

#[local] Opaque ensureNoForeignDataPVCs ensureRetainedDataPVCs.

(** C30: the preflight is sound: answered in one way throughout, when it passes
    for the replicas the guard holds, and the live set is neither latched nor
    scaled up over an unprotected template, the claim checks of the apply that
    follows pass as well. *)
Theorem preflight_sound `{MetaApi} (ans : ∀ r, response r) owner sts replicas usesImportPod usesPubkeyPod required :
  let namespace := meta_Namespace (sts_meta sts) in
  let live := live_of (ans (GetStatefulSet Cached namespace (sts_Name sts))) in
  (0 < replicas)%Z →
  (∀ l, live = Some l → annotation (sts_meta l) retainedStateLostAnnotation ≠ "true" ∧ scales_unprotected sts l = false) →
  run_with ans (PreflightDeployable owner namespace (sts_Name sts) replicas usesImportPod usesPubkeyPod required) = Ok () →
  run_with ans (ensureStatefulSetPVCsForApply owner sts live (mkApplyGuard required replicas)) = Ok ().
Proof.
  cbv zeta. intros Hn Hl (Hf & Hlive & Hnone)%preflight_passes.
  assert ((replicas <=? 0)%Z = false) as En by (apply Z.leb_gt; lia). unfold ensureStatefulSetPVCsForApply.
  destruct (live_of _) as [l|]; simpl in *.
  - destruct (Hl l eq_refl) as [Ha Hs]. rewrite (bool_decide_eq_false_2 _ Ha), Hs, run_with_try, Hf. simpl.
    specialize (Hlive l eq_refl Ha). destruct (statefulSetEverRolledOut l); simpl.
    + rewrite !En. auto.
    + destruct required; simpl; [|done]. rewrite En. auto.
  - rewrite run_with_try, Hf. simpl. destruct required; simpl; [|done]. rewrite En. auto.
Qed.

(** ** Witnesses *)

(** An annotator that records nothing but its own annotation, and a patch that
    always differs. *)
Definition reference_apply : ApplyApi := {|
  SetControllerReference owner m :=
    Ok (mkMeta (meta_Name m) (meta_Namespace m) (meta_UID m) (meta_Labels m) (meta_Annotations m)
         (mkOwnerReference "" "" (meta_Name owner) (meta_UID owner) (Some true) :: meta_OwnerReferences m)
         (meta_Finalizers m) (meta_DeletionTimestamp m) (meta_CreationTimestamp m) (meta_ResourceVersion m));
  SetLastAppliedAnnotation o := Ok (with_meta o (set_annotation (managed_meta o) "banzaicloud.com/last-applied" "{}"));
  LastAppliedConfig := "banzaicloud.com/last-applied";
  CalculatePatchIsEmpty _ _ := Ok false;
  ToUnstructured o := Ok o;
|}.

Lemma reference_apply_laws : @ApplyLaws reference_apply.
Proof.
  split; simpl.
  - by intros owner m m' [= <-].
  - by intros owner m m' [= <-].
  - intros o o' [= <-]. split_and!; [by destruct o|by destruct o|by destruct o|].
    intros k Hk. destruct o; simpl; by rewrite annotation_set_ne.
  - done.
Qed.

Definition example_owner : ObjectMeta := mkMeta "val" "default" "uid-1" ∅ None [] [] None 0 "".
Definition example_claim (finalizers : list string) : PersistentVolumeClaim :=
  mkPVC (mkMeta "data-val-signer-0" "default" "uid-c" {[labelOwnerUID := "uid-1"]} None [] finalizers None 0 "")
    None None "pv-1" "Bound".
Definition example_signer : StatefulSet :=
  mkStatefulSet (mkMeta "val-signer" "default" "" ∅ None [] [] None 0 "") 0 (Some 1%Z) ∅ "val-signer" "Parallel" "OnDelete"
    empty_pod_spec ∅ [] None 0 0 0 0.
Definition example_storage (claim : PersistentVolumeClaim) (sets : list StatefulSet) : fake :=
  mkFake [] ∅ ["default"] [] [] sets [] [] [claim] [] [] [] [].
Definition example_locks : SignerLocks := mkSignerLocks true None (Some 1%Z).
Definition fake_answers (w : fake) (r : request) : response r := (serve w r).1.

(** An established signer with its claim is created; without the guard on the
    claim it is refused. *)
Lemma signer_applied_witness :
  (let '(r, w) := exec (example_storage (example_claim [RetainedStateFinalizer]) [])
     (@apply_signer reference_meta reference_apply example_owner example_locks example_signer) in
   (r, map sts_Name (fk_statefulsets w))) = (Ok (), ["val-signer"]) ∧
  is_ok (exec (example_storage (example_claim []) [])
     (@apply_signer reference_meta reference_apply example_owner example_locks example_signer)).1 = false ∧
  spec (@signer_permitted reference_meta example_owner example_locks example_signer) []
    (@apply_signer reference_meta reference_apply example_owner example_locks example_signer) (λ h' r,
      @unsafe_seen reference_meta example_owner "val-signer" h' →
      is_ok r = false ∧ @stopped reference_meta example_owner "default" "val-signer" h').
Proof.
  split; [vm_compute; reflexivity|]. split; [vm_compute; reflexivity|].
  exact (@signer_applied_only_with_state reference_meta reference_apply reference_apply_laws
    example_owner example_locks example_signer).
Defined.

Lemma preflight_sound_witness :
  run_with (fake_answers (example_storage (example_claim [RetainedStateFinalizer]) []))
    (@ensureStatefulSetPVCsForApply reference_meta example_owner example_signer None (mkApplyGuard true 1)) = Ok ().
Proof.
  refine (@preflight_sound reference_meta (fake_answers (example_storage (example_claim [RetainedStateFinalizer]) []))
    example_owner example_signer 1 true true true _ _ _).
  - lia.
  - vm_compute. done.
  - vm_compute. reflexivity.
Defined.
