(* ===== verification/Teardown.v ===== *)
(** * Tearing a signer down ([internal/cosmosigner/apply.go], [cleanup.go])

    Removing the objects of one signer, of every signer of a root, and of a root
    in a terminating namespace; and giving up, retaining or releasing the raft
    state that is left. *)

From S2P Require Import Prelude GoLib IO ThirdParty ApiTypes KubeApi SignerResolve SigningNames SigningPaths.
From S2P Require Import ResourceCleanup Migration Deploy.

Definition OwnerFinalizer : string := "cosmopilot.voluzi.com/cosmosigner-cleanup".

(** [for ...; { done, err := f(x); if err != nil || !done { return false, err } }; return true, nil] *)
Fixpoint all_in_turn {A} (f : A → kube (result bool)) (l : list A) : kube (result bool) :=
  match l with
  | [] => return_result true
  | x :: l =>
      done ←? f x;
      if negb done then return_result false else all_in_turn f l
  end.

(** [allDone := true; for ...; { done, err := f(x); if err != nil { return false, err }; allDone = allDone && done }] *)
Fixpoint all_of {A} (f : A → kube (result bool)) (allDone : bool) (l : list A) : kube (result bool) :=
  match l with
  | [] => return_result allDone
  | x :: l => done ←? f x; all_of f (allDone && done) l
  end.

(** What a controller reference says, for an error message. *)
Definition ownership_args (c : option OwnerReference) : list fmt_arg :=
  match c with
  | Some c => [AStr (or_Kind c); AStr (or_Name c); AStr (or_UID c)]
  | None => []
  end.

(** ** Names *)

Definition keyJobSignerName (name : string) : option string :=
  let strip suffix :=
    if has_suffix name suffix then
      let signerName := TrimSuffix name suffix in
      if signerName != "" then Some signerName else None
    else None in
  match strip ("-" +:+ importJobSuffix) with
  | Some n => Some n
  | None => strip ("-" +:+ pubkeyJobSuffix)
  end.
Definition isKeyJobPodName (name : string) : bool := is_some (keyJobSignerName name).

Definition podMountsAnyClaim (pod : Pod) (claims : gset string) : bool :=
  existsb (λ v, match v with Some claim => bool_decide (claim ∈ claims) | None => false end) (pod_Volumes pod).

Section teardown.
Context `{MetaApi}.

(** ** One signer *)

Definition DeleteDiscoveryService (owner : ObjectMeta) (namespace name : string) : kube (result bool) :=
  let service := name +:+ discoveryServiceSuffix in
  r ← call (GetObject Cached "Service" namespace service);
  match r with
  | Err e => if IsNotFound e then return_result true else return_error e
  | Ok o =>
      if negb (IsControlledBy (ob_meta o) owner) then
        return_error (foreignObjectErr "discovery Service" (meta_Name (ob_meta o)))
      else
        ignoring_not_found (call (DeleteObject "Service" (meta_Namespace (ob_meta o)) (meta_Name (ob_meta o))))
          (confirm_absent (call (GetObject Cached "Service" namespace service)) (return_result false) (return_result true))
  end.

Definition DiscoveryEndpointsGone (namespace name : string) : kube (result bool) :=
  let serviceName := name +:+ discoveryServiceSuffix in
  confirm_absent (call (GetObject Cached "Endpoints" namespace serviceName)) (return_result false)
    (slices ←? call (ListEndpointSlices Cached namespace serviceName);
     return_result (length slices =? 0)%nat).

(** An object [Undeploy] removes: the kind it is deleted as and how it is read. *)
Definition undeploy_object (owner : ObjectMeta) (namespace : string) (o : string * string * kube (result ObjectMeta)) :
    kube (result ()) :=
  let '(kind, name, get) := o in
  r ← get;
  match r with
  | Err e => if IsNotFound e then return_result () else return_error e
  | Ok m =>
      if negb (IsControlledBy m owner) then return_result ()
      else ignoring_not_found (call (DeleteObject kind (meta_Namespace m) (meta_Name m))) (return_result ())
  end.

Definition undeployed_objects (namespace name : string) : list (string * string * kube (result ObjectMeta)) :=
  let pod n := ("Pod", n, get_pod_meta namespace n) in
  let obj kind n := (kind, n, get_object_meta kind namespace n) in
  [pod (name +:+ "-" +:+ importJobSuffix); pod (name +:+ "-" +:+ pubkeyJobSuffix); obj "ConfigMap" name;
   obj "Service" name; obj "Service" (name +:+ discoveryServiceSuffix); obj "NetworkPolicy" name].

Definition Undeploy (owner : Owner) (namespace name : string) : kube (result ()) :=
  let rest :=
    for_each_call (undeploy_object (owner_meta owner) namespace) (undeployed_objects namespace name) ;?
    DeletePVCs (owner_meta owner) namespace name in
  let when_gone (m : kube (result bool)) :=
    gone ←? m;
    if negb gone then return_result () else rest in
  r ← call (GetStatefulSet Cached namespace name);
  match r with
  | Ok sts =>
      if IsControlledBy (sts_meta sts) (owner_meta owner) then when_gone (DeleteStatefulSet owner namespace name)
      else when_gone (SignerPodsGone Cached namespace name)
  | Err e => if IsNotFound e then when_gone (SignerPodsGone Cached namespace name) else return_error e
  end.

(** [if err := c.Get(...); err == nil { if IsControlledBy(obj, owner) { return false, nil } } else if !IsNotFound(err) { return false, err }] *)
Definition unless_own (owner : ObjectMeta) (get : kube (result ObjectMeta)) (k : kube (result bool)) : kube (result bool) :=
  r ← get;
  match r with
  | Ok m => if IsControlledBy m owner then return_result false else k
  | Err e => if IsNotFound e then k else return_error e
  end.

Definition get_sts_meta (namespace name : string) : kube (result ObjectMeta) :=
  s ←? call (GetStatefulSet Cached namespace name); return_result (sts_meta s).

Definition IsTornDown (owner : ObjectMeta) (namespace name : string) : kube (result bool) :=
  unless_own owner (get_pod_meta namespace (name +:+ "-" +:+ importJobSuffix))
  (unless_own owner (get_pod_meta namespace (name +:+ "-" +:+ pubkeyJobSuffix))
  (unless_own owner (get_object_meta "NetworkPolicy" namespace name)
  (unless_own owner (get_sts_meta namespace name)
    (podsGone ←? SignerPodsGone Cached namespace name;
     if negb podsGone then return_result false else
     pvcs ←? call (ListPVCs Cached namespace);
     return_result (negb (existsb (λ pvc,
       isOwnedStatefulSetDataPVC pvc owner name || isAmbiguousLegacyDataPVC pvc name) pvcs)))))).

(** ** Every signer of a root *)

Definition data_template (sts : StatefulSet) : option PersistentVolumeClaim :=
  find (λ claim, pvc_Name claim == dataVolumeName) (sts_VolumeClaimTemplates sts).

Definition statefulSetPVCTemplateReadyForCleanup (sts : StatefulSet) (root : RootOwner) : bool :=
  match data_template sts with
  | Some claim => ContainsFinalizer (pvc_meta claim) RetainedStateFinalizer &&
                  IsAttributed (pvc_meta claim) root ClassCosmosignerState
  | None => false
  end.

Definition isAttributedSignerStatefulSet (sts : StatefulSet) (owner : Owner) : bool :=
  existsb (λ claim,
    (pvc_Name claim == dataVolumeName) &&
    (((pvc_label claim labelAppName == appNameCosmosigner) && (pvc_label claim labelInstance == sts_Name sts) &&
      (pvc_label claim labelOwnerUID == owner_UID owner)) ||
     IsAttributed (pvc_meta claim) (RootOwnerFor owner) ClassCosmosignerState))
    (sts_VolumeClaimTemplates sts).

(** A claim proven to be raft state of this owner by its annotations. *)
Definition state_attributed (owner : Owner) (pvc : PersistentVolumeClaim) : bool :=
  IsAttributed (pvc_meta pvc) (RootOwnerFor owner) ClassCosmosignerState &&
  (annotation (pvc_meta pvc) AnnotationResourceOwnerUID == owner_UID owner).
Definition owner_labelled (owner : Owner) (pvc : PersistentVolumeClaim) : bool :=
  pvc_label pvc labelOwnerUID == owner_UID owner.

(** The names of the signers these sets and claims prove. *)
Definition attributed_names (owner : Owner) (sets : list StatefulSet) (pvcs : list PersistentVolumeClaim) : gset string :=
  list_to_set (
    map sts_Name (filter (λ s, IsOwnedSignerStatefulSet s owner || isAttributedSignerStatefulSet s owner = true) sets) ++
    omap (λ pvc, statefulSetNameFromDataPVC (pvc_Name pvc))
      (filter (λ pvc, owner_labelled owner pvc || state_attributed owner pvc = true) pvcs)).

Definition signerNamesAttributedToOwner (owner : Owner) (namespace : string) : kube (result (gset string)) :=
  sets ←? call (ListStatefulSets Cached namespace);
  pvcs ←? call (ListPVCs Cached namespace);
  return_result (attributed_names owner sets pvcs).

(** Deleting a pod by its UID and looking whether it is gone. *)
Definition delete_pod (pod : Pod) : kube (result bool) :=
  let m := pod_meta pod in
  let confirm := confirm_absent (call (GetPod Cached (meta_Namespace m) (meta_Name m))) (return_result false) (return_result true) in
  match meta_DeletionTimestamp m with
  | None => ignoring_not_found (call (DeletePod (meta_Namespace m) (meta_Name m) (meta_UID m))) confirm
  | Some _ => confirm
  end.

Definition delete_key_job_pod (owner : Owner) (expectedSignerNames : gset string) (pod : Pod) : kube (result bool) :=
  match keyJobSignerName (pod_Name pod) with
  | None => return_result true
  | Some signerName =>
      if negb (IsControlledBy (pod_meta pod) (owner_meta owner)) then
        if negb (bool_decide (signerName ∈ expectedSignerNames)) then return_result true
        else return_error (Errorf "refusing Cosmosigner cleanup while deterministic key-job pod %s/%s %s; restore its owner UID %s controller reference or quiesce and remove it"
          ([AStr (meta_Namespace (pod_meta pod)); AStr (pod_Name pod)] ++ ownership_args (GetControllerOf (pod_meta pod)) ++
           [AStr (owner_UID owner)]))
      else delete_pod pod
  end.

Definition deleteOwnedKeyJobPods (owner : Owner) (namespace : string) : kube (result bool) :=
  expectedSignerNames ←? signerNamesAttributedToOwner owner namespace;
  pods ←? call (ListPods Cached namespace);
  all_of (delete_key_job_pod owner expectedSignerNames) true pods.

Definition quiesce_signer (owner : Owner) (namespace : string) (sts : StatefulSet) : kube (result bool) :=
  if negb (IsOwnedSignerStatefulSet sts owner) then
    if isAttributedSignerStatefulSet sts owner then
      return_error (Errorf "refusing Cosmosigner state cleanup while attributed StatefulSet %s/%s %s; restore its owner UID %s controller reference or quiesce and remove it"
        ([AStr (meta_Namespace (sts_meta sts)); AStr (sts_Name sts)] ++ ownership_args (GetControllerOf (sts_meta sts)) ++
         [AStr (owner_UID owner)]))
    else return_result true
  else if is_some (meta_DeletionTimestamp (sts_meta sts)) then return_result false
  else DeleteStatefulSet owner namespace (sts_Name sts).

Definition QuiesceOwner (owner : Owner) (namespace : string) : kube (result bool) :=
  jobPodsDone ←? deleteOwnedKeyJobPods owner namespace;
  if negb jobPodsDone then return_result false else
  sets ←? call (ListStatefulSets Cached namespace);
  all_in_turn (quiesce_signer owner namespace) sets.

(** ** Raft state *)

Definition AddFinalizer_if (b : bool) (m : ObjectMeta) (f : string) : ObjectMeta * bool :=
  if b && negb (ContainsFinalizer m f) then (AddFinalizer m f, true) else (m, false).

(** The metadata a live claim should carry, and whether it changes. *)
Definition protected_meta (owner : Owner) (pvc : PersistentVolumeClaim) : ObjectMeta * bool :=
  let '(m, stamped) := Stamp (pvc_meta pvc) (RootOwnerFor owner) ClassCosmosignerState in
  let '(_, (m, prepared)) := PrepareGeneratedResource m owner ClassCosmosignerState false in
  let '(m, guarded) := AddFinalizer_if ((pvc_Phase pvc == "Bound") && (pvc_VolumeName pvc != "")) m RetainedStateFinalizer in
  (m, stamped || prepared || guarded).

Definition protects (owner : Owner) (pvc : PersistentVolumeClaim) : bool :=
  (pvc_label pvc labelAppName == appNameCosmosigner) && owner_labelled owner pvc &&
  isStatefulSetDataPVC (pvc_Name pvc) (pvc_label pvc labelInstance) && negb (is_some (meta_DeletionTimestamp (pvc_meta pvc))).

Fixpoint protect_claims (owner : Owner) (changed : bool) (l : list PersistentVolumeClaim) : kube (result bool) :=
  match l with
  | [] => return_result changed
  | pvc :: l =>
      if negb (protects owner pvc) then protect_claims owner changed l else
      let '(m, metadataChanged) := protected_meta owner pvc in
      if metadataChanged then call (UpdatePVC (with_pvc_meta pvc m)) ;? protect_claims owner true l
      else protect_claims owner changed l
  end.

Definition ProtectRetainedStatePVCs (owner : Owner) (namespace : string) : kube (result bool) :=
  pvcs ←? call (ListPVCs Cached namespace);
  changed ←? protect_claims owner false pvcs;
  sets ←? call (ListStatefulSets Cached namespace);
  match find (λ sts, IsOwnedSignerStatefulSet sts owner &&
                     negb (statefulSetPVCTemplateReadyForCleanup sts (RootOwnerFor owner))) sets with
  | Some sts => DeleteStatefulSet owner namespace (sts_Name sts) ;? return_result true
  | None => return_result changed
  end.

Definition HasOwnedSignerState (owner : Owner) (namespace : string) : kube (result bool) :=
  sets ←? call (ListStatefulSets Cached namespace);
  if existsb (λ s, IsOwnedSignerStatefulSet s owner) sets then return_result true else
  pvcs ←? call (ListPVCs Cached namespace);
  return_result (existsb (λ pvc, (pvc_label pvc labelAppName == appNameCosmosigner) && owner_labelled owner pvc) pvcs).

(** The signer a claim is finalised under: [None] when it is not this owner's. *)
Definition finalized_signer (owner : Owner) (pvc : PersistentVolumeClaim) : result (option string) :=
  let name := pvc_label pvc labelInstance in
  let labelOwned := owner_labelled owner pvc && isStatefulSetDataPVC (pvc_Name pvc) name in
  if negb labelOwned && negb (state_attributed owner pvc) then Ok None
  else if labelOwned then Ok (Some name)
  else match statefulSetNameFromDataPVC (pvc_Name pvc) with
       | Some name => Ok (Some name)
       | None => Err (Errorf "refusing Cosmosigner state cleanup for attributed PVC %s/%s with an invalid StatefulSet claim name"
                        [AStr (meta_Namespace (pvc_meta pvc)); AStr (pvc_Name pvc)])
       end.

Definition claim_signer_gone (owner : Owner) (namespace : string) (pvc : PersistentVolumeClaim) : kube (result bool) :=
  match finalized_signer owner pvc with
  | Err e => return_error e
  | Ok None => return_result true
  | Ok (Some name) => SignerPodsGone Cached namespace name
  end.

Definition FinalizeState (owner : Owner) (namespace policy : string) : kube (result bool) :=
  pvcs ←? call (ListPVCs Cached namespace);
  gone ←? all_in_turn (claim_signer_gone owner namespace) pvcs;
  if negb gone then return_result false else
  FinalizeClass (RootOwnerFor owner) ClassCosmosignerState policy (owner_UID owner) [RetainedStateFinalizer].

Fixpoint attribute_claims (owner : Owner) (changed : bool) (l : list PersistentVolumeClaim) : kube (result bool) :=
  match l with
  | [] => return_result changed
  | pvc :: l =>
      if negb (owner_labelled owner pvc) || negb (is_some (statefulSetNameFromDataPVC (pvc_Name pvc))) then
        attribute_claims owner changed l
      else
        let '(m, stamped) := Stamp (pvc_meta pvc) (RootOwnerFor owner) ClassCosmosignerState in
        let '(m, owned) := StampResourceOwner m (owner_UID owner) in
        if stamped || owned then
          r ← call (UpdatePVC (with_pvc_meta pvc m));
          match r with
          | Err e => if IsNotFound e then attribute_claims owner changed l else return_error e
          | Ok _ => attribute_claims owner true l
          end
        else attribute_claims owner changed l
  end.

Definition attributeOwnedStatePVCs (owner : Owner) (namespace : string) : kube (result bool) :=
  pvcs ←? call (ListPVCs Cached namespace);
  attribute_claims owner false pvcs.

Definition FinalizeOwner (owner : Owner) (namespace policy : string) : kube (result bool) :=
  attributed ←? attributeOwnedStatePVCs owner namespace;
  if attributed : bool then return_result false else
  quiesced ←? QuiesceOwner owner namespace;
  if negb quiesced then return_result false else
  FinalizeState owner namespace policy.

(** ** A terminating namespace *)

Definition owned_names (owner : Owner) (sets : list StatefulSet) : gmap string string :=
  foldl (λ m sts, if IsOwnedSignerStatefulSet sts owner then <[sts_Name sts := meta_UID (sts_meta sts)]> m else m) ∅ sets.

(** The signer a claim proves, when quiescence recognises it. *)
Definition quiesced_claim (owner : Owner) (pvc : PersistentVolumeClaim) : option string :=
  if negb (owner_labelled owner pvc) && negb (state_attributed owner pvc) then None else
  let name := default (pvc_label pvc labelInstance) (statefulSetNameFromDataPVC (pvc_Name pvc)) in
  if isStatefulSetDataPVC (pvc_Name pvc) name then Some name else None.

Definition claim_names (owner : Owner) (names : gmap string string) (pvcs : list PersistentVolumeClaim) : gmap string string :=
  foldl (λ m pvc, match quiesced_claim owner pvc with
                  | Some name => match m !! name with Some _ => m | None => <[name := ""]> m end
                  | None => m
                  end) names pvcs.
Definition owned_claims (owner : Owner) (pvcs : list PersistentVolumeClaim) : gset string :=
  list_to_set (map pvc_Name (filter (λ pvc, is_some (quiesced_claim owner pvc) = true) pvcs)).

(** The signer a pod belongs to, the UID of its set, and whether only the pod's
    name says so. *)
Definition pod_signer (names : gmap string string) (pod : Pod) : option (string * string * bool) :=
  let instance := pod_label pod labelInstance in
  match names !! instance with
  | Some uid => Some (instance, uid, false)
  | None =>
      match find (λ p, isStatefulSetReplicaPodName (pod_Name pod) p.1) (map_to_list names) with
      | Some (name, uid) => Some (name, uid, true)
      | None => None
      end
  end.

Definition controls_pod (instance : string) (c : option OwnerReference) : bool :=
  match c with Some c => (or_Kind c == "StatefulSet") && (or_Name c == instance) | None => false end.

Definition terminate_pod (names : gmap string string) (claims : gset string) (pod : Pod) : kube (result bool) :=
  match pod_signer names pod with
  | None => return_result true
  | Some (instance, stsUID, matchedByName) =>
      let controller := GetControllerOf (pod_meta pod) in
      if (pod_label pod labelAppName != appNameCosmosigner) && negb (isStatefulSetReplicaPodName (pod_Name pod) instance)
      then return_result true
      else if matchedByName && (stsUID == "") && negb (controls_pod instance controller) then
        return_result (negb (podMountsAnyClaim pod claims))
      else if (stsUID == "") || negb (controls_pod instance controller) ||
              negb (match controller with Some c => or_UID c == stsUID | None => false end) then return_result false
      else delete_pod pod
  end.

Definition terminate_sts (owner : Owner) (sts : StatefulSet) : kube (result bool) :=
  if negb (IsOwnedSignerStatefulSet sts owner) then return_result true else
  let m := sts_meta sts in
  let confirm := confirm_absent (call (GetStatefulSet Cached (meta_Namespace m) (meta_Name m)))
                   (return_result false) (return_result true) in
  match meta_DeletionTimestamp m with
  | None => ignoring_not_found (call (DeleteStatefulSetReq (meta_Namespace m) (meta_Name m) (meta_UID m))) confirm
  | Some _ => confirm
  end.

Definition QuiesceOwnerForNamespaceTermination (owner : Owner) (namespace : string) : kube (result bool) :=
  jobPodsDone ←? deleteOwnedKeyJobPods owner namespace;
  if negb jobPodsDone then return_result false else
  sets ←? call (ListStatefulSets Cached namespace);
  pvcs ←? call (ListPVCs Cached namespace);
  pods ←? call (ListPods Cached namespace);
  allPodsGone ←? all_of (terminate_pod (claim_names owner (owned_names owner sets) pvcs) (owned_claims owner pvcs)) true pods;
  if negb allPodsGone then return_result false else
  all_of (terminate_sts owner) true sets.

Definition releasable (owner : Owner) (pvc : PersistentVolumeClaim) : bool :=
  let ownerLabelMatches := owner_labelled owner pvc in
  let labelOwned := ownerLabelMatches && isStatefulSetDataPVC (pvc_Name pvc) (pvc_label pvc labelInstance) in
  let labelOwned := if ownerLabelMatches && negb labelOwned
                    then is_some (statefulSetNameFromDataPVC (pvc_Name pvc)) else labelOwned in
  labelOwned || state_attributed owner pvc.

Definition release_claim (owner : Owner) (pvc : PersistentVolumeClaim) : kube (result ()) :=
  if negb (releasable owner pvc) || negb (ContainsFinalizer (pvc_meta pvc) RetainedStateFinalizer) then return_result ()
  else ignoring_not_found (call (UpdatePVC (without_retention pvc)) ;? return_result ()) (return_result ()).

Definition ReleaseOwnerStateFinalizers (owner : Owner) (namespace : string) : kube (result ()) :=
  pvcs ←? call (ListPVCs Cached namespace);
  for_each_call (release_claim owner) pvcs.
End teardown.

(** ** Loops *)

Lemma all_in_turn_spec {A} P (f : A → kube (result bool)) (G : A → list kevent → Prop) l h :
  (∀ x h h', h `suffix_of` h' → G x h → G x h') →
  (∀ x h', x ∈ l → h `suffix_of` h' → spec P h' (f x) (λ h'' r, r = Ok true → G x h'')) →
  spec P h (all_in_turn f l) (λ h' r, r = Ok true → ∀ x, x ∈ l → G x h').
Proof.
  intros Hm. revert h. induction l as [|x l IH]; intros h Hf; simpl; [intros _ x Hx; by apply elem_of_nil in Hx|].
  rewrite spec_try. eapply spec_conseq; [apply spec_suffix, Hf; [by left|done]|].
  intros h1 [[]|e] _ [S1 H1]; simpl; [|done|done].
  eapply spec_conseq; [apply spec_suffix, IH|].
  { intros y h' Hy Hs. apply Hf; [by right|by etrans]. }
  intros h2 r _ [S2 H2] Hr y [->|Hy]%elem_of_cons; [|by apply H2]. eapply Hm; [exact S2|]. by apply H1.
Qed.

Lemma all_of_spec {A} P (f : A → kube (result bool)) (G : A → list kevent → Prop) b l h :
  (∀ x h h', h `suffix_of` h' → G x h → G x h') →
  (∀ x h', x ∈ l → h `suffix_of` h' → spec P h' (f x) (λ h'' r, r = Ok true → G x h'')) →
  spec P h (all_of f b l) (λ h' r, r = Ok true → b = true ∧ ∀ x, x ∈ l → G x h').
Proof.
  intros Hm. revert b h. induction l as [|x l IH]; intros b h Hf; simpl.
  { intros [= ->]. split; [done|]. intros x Hx. by apply elem_of_nil in Hx. }
  rewrite spec_try. eapply spec_conseq; [apply spec_suffix, Hf; [by left|done]|].
  intros h1 [d|e] _ [S1 H1]; [|done].
  eapply spec_conseq; [apply spec_suffix, IH|].
  { intros y h' Hy Hs. apply Hf; [by right|by etrans]. }
  intros h2 r _ [S2 H2] Hr. destruct (H2 Hr) as [[-> ->]%andb_true_iff Hl]. split; [done|].
  intros y [->|Hy]%elem_of_cons; [|by apply Hl]. eapply Hm; [exact S2|]. by apply H1.
Qed.

(** ** One signer is gone *)

Section gone.
Context `{MetaApi}.
Variables (owner : Owner) (namespace name : string).
Abbreviation om := (owner_meta owner).

(** The name was seen free, or another owner's. *)
Definition object_not_own (kind n : string) (h : list kevent) : Prop :=
  Ev (GetObject Cached kind namespace n) (Err (ApiError ReasonNotFound)) ∈ h ∨
  ∃ o, Ev (GetObject Cached kind namespace n) (Ok o) ∈ h ∧ IsControlledBy (ob_meta o) om = false.
Definition pod_not_own (n : string) (h : list kevent) : Prop :=
  Ev (GetPod Cached namespace n) (Err (ApiError ReasonNotFound)) ∈ h ∨
  ∃ p, Ev (GetPod Cached namespace n) (Ok p) ∈ h ∧ IsControlledBy (pod_meta p) om = false.
Definition sts_not_own (h : list kevent) : Prop :=
  Ev (GetStatefulSet Cached namespace name) (Err (ApiError ReasonNotFound)) ∈ h ∨
  ∃ s, Ev (GetStatefulSet Cached namespace name) (Ok s) ∈ h ∧ IsControlledBy (sts_meta s) om = false.

(** Nothing is left of the signer: the objects were seen gone, then its pods,
    and last the claims a new signer of that name would bind. *)
Definition torn_down (h : list kevent) : Prop :=
  ∃ h0 pods pvcs, h = Ev (ListPVCs Cached namespace) (Ok pvcs) :: Ev (ListPods Cached namespace) (Ok pods) :: h0 ∧
    pod_not_own (name +:+ "-" +:+ importJobSuffix) h0 ∧ pod_not_own (name +:+ "-" +:+ pubkeyJobSuffix) h0 ∧
    object_not_own "NetworkPolicy" name h0 ∧ sts_not_own h0 ∧
    (∀ pod, pod ∈ pods → is_signer_pod name pod = false) ∧
    (∀ pvc, pvc ∈ pvcs → isStatefulSetDataPVC (pvc_Name pvc) name = true →
       pvc_label pvc labelOwnerUID ≠ meta_UID om ∧ is_Some (meta_Labels (pvc_meta pvc) !! labelOwnerUID)).

Definition only_reads (h : list kevent) (r : request) : Prop :=
  match r with
  | GetPod _ _ _ | GetObject _ _ _ _ | GetStatefulSet _ _ _ | ListPods _ _ | ListPVCs _ _ => True
  | _ => False
  end.

Lemma unless_own_spec (get : kube (result ObjectMeta)) k (G : list kevent → Prop) h Q :
  spec only_reads h get (λ h' r, match r with
    | Ok m => IsControlledBy m om = false → G h'
    | Err e => e = ApiError ReasonNotFound → G h'
    end) →
  (∀ h', h `suffix_of` h' → G h' → spec only_reads h' k Q) →
  (∀ h' r, r ≠ Ok true → Q h' r) →
  spec only_reads h (unless_own om get k) Q.
Proof.
  intros Hg Hk HQ. unfold unless_own. rewrite spec_mbind. eapply spec_conseq; [apply spec_suffix, Hg|].
  intros h' [m|e] _ [Hs Hr].
  - destruct (IsControlledBy m om) eqn:Ec; simpl; [by apply HQ|]. apply Hk; auto.
  - destruct (IsNotFound e) eqn:En; simpl; [|by apply HQ]. unfold IsNotFound in En. to_prop. apply Hk; auto.
Qed.

Lemma get_pod_not_own n h :
  spec only_reads h (get_pod_meta namespace n) (λ h' r, match r with
    | Ok m => IsControlledBy m om = false → pod_not_own n h'
    | Err e => e = ApiError ReasonNotFound → pod_not_own n h'
    end).
Proof.
  simpl. split; [done|]. intros [p|e]; simpl.
  - intros Hc. right. exists p. split; [by left|done].
  - intros ->. left. by left.
Qed.

Lemma get_object_not_own kind n h :
  spec only_reads h (get_object_meta kind namespace n) (λ h' r, match r with
    | Ok m => IsControlledBy m om = false → object_not_own kind n h'
    | Err e => e = ApiError ReasonNotFound → object_not_own kind n h'
    end).
Proof.
  simpl. split; [done|]. intros [p|e]; simpl.
  - intros Hc. right. exists p. split; [by left|done].
  - intros ->. left. by left.
Qed.

Lemma get_sts_not_own h :
  spec only_reads h (get_sts_meta namespace name) (λ h' r, match r with
    | Ok m => IsControlledBy m om = false → sts_not_own h'
    | Err e => e = ApiError ReasonNotFound → sts_not_own h'
    end).
Proof.
  simpl. split; [done|]. intros [p|e]; simpl.
  - intros Hc. right. exists p. split; [by left|done].
  - intros ->. left. by left.
Qed.

Lemma pod_not_own_suffix n h h' : h `suffix_of` h' → pod_not_own n h → pod_not_own n h'.
Proof.
  intros Hs [Hin|(p & Hin & Hc)]; [left; by eapply elem_of_suffix|right; exists p; split; [by eapply elem_of_suffix|done]].
Qed.
Lemma object_not_own_suffix kind n h h' : h `suffix_of` h' → object_not_own kind n h → object_not_own kind n h'.
Proof.
  intros Hs [Hin|(p & Hin & Hc)]; [left; by eapply elem_of_suffix|right; exists p; split; [by eapply elem_of_suffix|done]].
Qed.

Lemma IsTornDown_reads h :
  spec only_reads h (IsTornDown om namespace name) (λ h' r, r = Ok true → torn_down h').
Proof.
  unfold IsTornDown.
  apply unless_own_spec with (G := pod_not_own (name +:+ "-" +:+ importJobSuffix)); [apply get_pod_not_own| |done].
  intros h1 _ G1.
  apply unless_own_spec with (G := pod_not_own (name +:+ "-" +:+ pubkeyJobSuffix)); [apply get_pod_not_own| |done].
  intros h2 S2 G2.
  apply unless_own_spec with (G := object_not_own "NetworkPolicy" name); [apply get_object_not_own| |done].
  intros h3 S3 G3.
  apply unless_own_spec with (G := sts_not_own); [apply get_sts_not_own| |done].
  intros h4 S4 G4. simpl. split; [done|]. intros [pods|e]; simpl; [|done].
  destruct (existsb (is_signer_pod name) pods) eqn:Ep; simpl; [done|]. split; [done|].
  intros [pvcs|e]; simpl; [|done]. intros [= Hc%negb_true_iff]. exists h4, pods, pvcs. split_and!; [done|..].
  - eapply pod_not_own_suffix; [|exact G1]. etrans; [exact S2|]. by etrans.
  - eapply pod_not_own_suffix; [|exact G2]. by etrans.
  - by eapply object_not_own_suffix.
  - done.
  - apply Forall_forall. by apply existsb_false.
  - apply existsb_false in Hc. rewrite Forall_forall in Hc. intros pvc Hp Hn. specialize (Hc pvc Hp).
    unfold isOwnedStatefulSetDataPVC, isAmbiguousLegacyDataPVC in Hc. rewrite Hn in Hc. simpl in Hc. to_prop.
    split; [done|]. by destruct (_ !! labelOwnerUID).
Qed.
End gone.

(** ** Undeploying and quiescing *)

Section quiesce.
Context `{MetaApi}.
Variables (owner : Owner) (namespace : string).

Definition pods_gone (name : string) : list kevent → Prop := in_order [saw_no_signer_pods namespace Cached name].

(** An object of the signer, seen under the owner's control. *)
Definition saw_own (kind ns n : string) (h : list kevent) : Prop :=
  (kind = "Pod" ∧ ∃ p n', Ev (GetPod Cached namespace n') (Ok p) ∈ h ∧ IsControlledBy (pod_meta p) (owner_meta owner) = true ∧
     ns = meta_Namespace (pod_meta p) ∧ n = meta_Name (pod_meta p)) ∨
  (∃ o n', Ev (GetObject Cached kind namespace n') (Ok o) ∈ h ∧ IsControlledBy (ob_meta o) (owner_meta owner) = true ∧
     ns = meta_Namespace (ob_meta o) ∧ n = meta_Name (ob_meta o)).

Definition undeploy_permitted (name : string) (h : list kevent) (r : request) : Prop :=
  permitted owner namespace h r ∨
  match r with
  | GetObject Cached _ ns _ => ns = namespace
  | DeleteObject kind ns n => saw_own kind ns n h ∧ pods_gone name h
  | UpdatePVC _ | DeletePVC _ _ _ => resets_claim owner namespace name h r ∧ pods_gone name h
  | _ => False
  end.

Lemma undeploy_object_spec name kind n get h :
  pods_gone name h →
  get = get_pod_meta namespace n ∧ kind = "Pod" ∨ get = get_object_meta kind namespace n →
  spec (undeploy_permitted name) h (undeploy_object (owner_meta owner) namespace (kind, n, get)) (λ _ _, True).
Proof.
  intros Hp Hget. unfold undeploy_object, ignoring_not_found.
  destruct Hget as [[-> ->]| ->]; simpl; (split; [by (left + right)|]);
    (intros [o|e]; simpl; [|by destruct (IsNotFound e)]);
    (destruct (IsControlledBy _ _) eqn:Ec; simpl; [|done]); (split; [right; split|]);
    try (by intros [[]|e]; simpl; [|destruct (IsNotFound e)]); try (by apply in_order_skip).
  - left. split; [done|]. exists o, n. split_and!; [by left|done..].
  - right. exists o, n. split_and!; [by left|done..].
Qed.

Lemma undeploy_rest_spec name h :
  pods_gone name h →
  spec (undeploy_permitted name) h
    (for_each_call (undeploy_object (owner_meta owner) namespace) (undeployed_objects namespace name) ;?
     DeletePVCs (owner_meta owner) namespace name) (λ _ _, True).
Proof.
  intros Hp. rewrite spec_try.
  eapply spec_conseq; [apply spec_suffix, (for_each_call_spec _ (pods_gone name) _ (λ _ _, True) (λ _ _, True)); [done| |exact Hp]|].
  - intros [[kind n] get] h' Hin Hp'. eapply spec_conseq; [apply spec_suffix, (undeploy_object_spec name); [exact Hp'|]|].
    + unfold undeployed_objects in Hin. rewrite !elem_of_cons, elem_of_nil in Hin.
      destruct Hin as [E|[E|[E|[E|[E|[E|[]]]]]]]; injection E as -> -> ->; auto.
    + intros h'' [[]|e] _ [Hs _]; [|done]. split; [|done]. by eapply in_order_suffix.
  - intros h' [[]|e] _ [Hs K]; [|done]. destruct K as [Hp' _]. unfold DeletePVCs. rewrite spec_try. simpl.
    split; [by left|]. intros [l|e]; simpl; [|done].
    set (h1 := _ :: h'). assert (pods_gone name h1) as Hp1 by by apply in_order_skip.
    eapply spec_mono; [apply (delete_claims_spec owner namespace name l h1)|..]; [| |done].
    + intros pvc Hin Ho. split; [done|]. exists l. split; [by left|done].
    + intros h2 r Hs2 Hr. right. assert (pods_gone name h2) by by eapply in_order_suffix. by destruct r.
Qed.

Lemma permitted_undeploy {A} name h (m : kube A) Q :
  spec (permitted owner namespace) h m Q → spec (undeploy_permitted name) h m Q.
Proof. intros Hm. eapply spec_mono; [exact Hm|by intros h' r _ Hr; left|done]. Qed.

Lemma Undeploy_permitted name h :
  spec (undeploy_permitted name) h (Undeploy owner namespace name) (λ _ _, True).
Proof.
  assert (∀ h' (m : kube (result bool)),
    spec (permitted owner namespace) h' m (λ h2 r, r = Ok true → pods_gone name h2) →
    spec (undeploy_permitted name) h' (gone ←? m;
      if negb gone then return_result () else
      for_each_call (undeploy_object (owner_meta owner) namespace) (undeployed_objects namespace name) ;?
      DeletePVCs (owner_meta owner) namespace name) (λ _ _, True)) as Hrest.
  { intros h' m Hm. rewrite spec_try. apply permitted_undeploy. eapply spec_conseq; [exact Hm|].
    intros h2 [[]|e] _ Hr; simpl; [|done|done]. apply undeploy_rest_spec. by apply Hr. }
  assert (∀ h', spec (permitted owner namespace) h' (SignerPodsGone Cached namespace name)
    (λ h2 r, r = Ok true → pods_gone name h2)) as Hgone.
  { intros h'. by apply (SignerPodsGone_after _ _ _ _ []). }
  unfold Undeploy. rewrite spec_mbind. simpl. split; [by left|]. intros [sts|e].
  - destruct (IsControlledBy _ _); [|apply Hrest, Hgone]. apply Hrest.
    eapply spec_conseq; [apply DeleteStatefulSet_spec|]. intros h2 r _ Hr Hok. specialize (Hr Hok).
    destruct Hr as (k1 & e1 & k2 & -> & He & _). by exists k1, e1, k2.
  - destruct (IsNotFound e); [apply Hrest, Hgone|done].
Qed.

(** *** Every signer *)

Definition pod_absent (pod : Pod) (h : list kevent) : Prop :=
  Ev (GetPod Cached (meta_Namespace (pod_meta pod)) (pod_Name pod)) (Err (ApiError ReasonNotFound)) ∈ h.

(** A request about the set of one name: to the object that was read under it. *)
Definition on_set (name : string) (h : list kevent) (r : request) : Prop :=
  match r with
  | UpdateStatefulSet s' => ∃ s, Ev (GetStatefulSet Cached namespace name) (Ok s) ∈ h ∧
      (s' = with_replicas s 0 ∨ s' = with_retention s retain_all)
  | DeleteStatefulSetReq ns n uid => ∃ s, Ev (GetStatefulSet Cached namespace name) (Ok s) ∈ h ∧
      ns = namespace ∧ n = sts_Name s ∧ uid = meta_UID (sts_meta s)
  | _ => only_reads h r
  end.

(** A set that was listed and is a signer of the owner: under its control, and made for a signer. *)
Definition own_signer (h : list kevent) (sts : StatefulSet) : Prop :=
  ∃ l, Ev (ListStatefulSets Cached namespace) (Ok l) ∈ h ∧ sts ∈ l ∧ IsOwnedSignerStatefulSet sts owner = true.
#[export] Instance own_signer_stable sts : Stable (λ h, own_signer h sts).
Proof. unfold own_signer. apply _. Qed.

(** Quiescing an owner changes only the sets of its own signers, and deletes only the pods of the
    key jobs it controls. *)
Definition quiesce_permitted (h : list kevent) (r : request) : Prop :=
  match r with
  | ListStatefulSets _ _ => True
  | DeletePod ns n uid => ∃ l pod, Ev (ListPods Cached namespace) (Ok l) ∈ h ∧ pod ∈ l ∧
      is_Some (keyJobSignerName (pod_Name pod)) ∧ IsControlledBy (pod_meta pod) (owner_meta owner) = true ∧
      ns = meta_Namespace (pod_meta pod) ∧ n = pod_Name pod ∧ uid = meta_UID (pod_meta pod)
  | UpdateStatefulSet _ | DeleteStatefulSetReq _ _ _ =>
      permitted owner namespace h r ∧ ∃ sts, own_signer h sts ∧ on_set (sts_Name sts) h r
  | _ => only_reads h r
  end.

Lemma reads_quiesce h r : only_reads h r → quiesce_permitted h r.
Proof. by destruct r. Qed.

#[local] Transparent SignerPodsGone ScaleDown retainStatefulSetPVCs DeleteStatefulSet.
Lemma SignerPodsGone_reads via name h :
  spec only_reads h (SignerPodsGone via namespace name) (λ h' r,
    r = Ok true → in_order [saw_no_signer_pods namespace via name] h').
Proof.
  simpl. split; [done|]. intros [pods|e]; simpl; [|done]. intros [= Hp]. apply in_order_here; [|done].
  exists pods. split; [done|]. by apply existsb_false, negb_true_iff.
Qed.

Lemma SignerPodsGone_on name h : spec (on_set name) h (SignerPodsGone Cached namespace name) (λ _ _, True).
Proof. simpl. split; [done|]. by intros [?|?]. Qed.
#[local] Opaque SignerPodsGone.

Lemma ScaleDown_on name h : spec (on_set name) h (ScaleDown owner namespace name) (λ _ _, True).
Proof.
  simpl. split; [done|]. intros [s|e]; simpl; [|destruct (IsNotFound e); [apply SignerPodsGone_on|done]].
  destruct (negb _); [done|]. destruct (sts_Replicas s != Some 0%Z); simpl.
  - split; [exists s; split; [by left|by left]|]. by intros [?|?].
  - destruct (_ || _); [done|apply SignerPodsGone_on].
Qed.

Lemma retain_on name h : spec (on_set name) h (retainStatefulSetPVCs owner namespace name) (λ _ _, True).
Proof.
  simpl. split; [done|]. intros [s|e]; simpl; [|by destruct (IsNotFound e)].
  destruct (negb _); [done|]. destruct (negb _); simpl; [|done].
  split; [exists s; split; [by left|by right]|]. by intros [?|?].
Qed.
#[local] Opaque ScaleDown retainStatefulSetPVCs.

Lemma DeleteStatefulSet_on name h : spec (on_set name) h (DeleteStatefulSet owner namespace name) (λ _ _, True).
Proof.
  unfold DeleteStatefulSet. rewrite spec_try. eapply spec_conseq; [apply retain_on|].
  intros h1 [[]|e] _ _; simpl; [|done|done]. split; [done|].
  intros [s|e]; simpl; [|destruct (IsNotFound e); [apply SignerPodsGone_on|done]].
  destruct (negb _); [done|]. rewrite spec_try.
  eapply spec_conseq; [apply (spec_keep _ _ _ (λ _ _, True) (elem_of (Ev (GetStatefulSet Cached namespace name) (Ok s)))); [apply _|by left|apply ScaleDown_on]|].
  intros h2 [[]|e] _ [Hin _]; simpl; [|done|done]. destruct (_ == _); [done|]. simpl. split; [by exists s|].
  assert (∀ h', spec (on_set name) h' (confirm_absent (call (GetStatefulSet Cached namespace name)) (return_result false)
    (SignerPodsGone Cached namespace name)) (λ _ _, True)) as Hc.
  { intros h'. simpl. split; [done|]. intros [?|e]; simpl; [done|]. destruct (IsNotFound e); [apply SignerPodsGone_on|done]. }
  intros [?|e]; simpl; [apply Hc|]. destruct (IsNotFound e); [apply Hc|done].
Qed.
#[local] Opaque DeleteStatefulSet.

Lemma quiesce_DeleteStatefulSet sts h :
  own_signer h sts →
  spec quiesce_permitted h (DeleteStatefulSet owner namespace (sts_Name sts)) (λ h' r,
    r = Ok true → absent_after namespace Cached (sts_Name sts) h').
Proof.
  intros Ho. eapply spec_mono; [exact (spec_both _ _ _ _ _ _ (DeleteStatefulSet_spec owner namespace (sts_Name sts) h)
    (DeleteStatefulSet_on (sts_Name sts) h))| |by intros h' a _ []].
  intros h' r Hs [Hp Hr]. destruct r; try done.
  all: split; [exact Hp|]; exists sts; split; [by eapply own_signer_stable|exact Hr].
Qed.

(** Deleting one pod, under whatever allows the delete and a read of the pod. *)
Lemma delete_pod_spec P pod h :
  (∀ h' ns n, P h' (GetPod Cached ns n)) →
  P h (DeletePod (meta_Namespace (pod_meta pod)) (pod_Name pod) (meta_UID (pod_meta pod))) →
  spec P h (delete_pod pod) (λ h' r, r = Ok true → pod_absent pod h').
Proof.
  intros Hget Hdel.
  assert (∀ h', spec P h'
    (confirm_absent (call (GetPod Cached (meta_Namespace (pod_meta pod)) (meta_Name (pod_meta pod))))
       (return_result false) (return_result true)) (λ h' r, r = Ok true → pod_absent pod h')) as Hc.
  { intros h'. simpl. split; [apply Hget|]. intros [x|e]; simpl; [done|].
    destruct (IsNotFound e) eqn:En; simpl; [|done]. unfold IsNotFound in En. to_prop. subst. intros _. by left. }
  unfold delete_pod, ignoring_not_found. destruct (meta_DeletionTimestamp _); [apply Hc|].
  rewrite spec_mbind. simpl. split; [exact Hdel|].
  intros [[]|e]; [apply Hc|]. destruct (IsNotFound e); [apply Hc|done].
Qed.

(** What a quiescence has to see about one key-job pod. *)
Definition key_job_settled (expected : gset string) (pod : Pod) (h : list kevent) : Prop :=
  ∀ signerName, keyJobSignerName (pod_Name pod) = Some signerName →
    if IsControlledBy (pod_meta pod) (owner_meta owner) then pod_absent pod h else signerName ∉ expected.

Lemma key_job_settled_suffix expected pod h h' :
  h `suffix_of` h' → key_job_settled expected pod h → key_job_settled expected pod h'.
Proof.
  intros Hs Hk n Hn. specialize (Hk n Hn). destruct (IsControlledBy _ _); [|done]. by eapply elem_of_suffix.
Qed.

Definition key_jobs_gone (h : list kevent) : Prop :=
  ∃ sets pvcs pods, Ev (ListStatefulSets Cached namespace) (Ok sets) ∈ h ∧ Ev (ListPVCs Cached namespace) (Ok pvcs) ∈ h ∧
    Ev (ListPods Cached namespace) (Ok pods) ∈ h ∧
    ∀ pod, pod ∈ pods → key_job_settled (attributed_names owner sets pvcs) pod h.

Lemma key_jobs_gone_suffix h h' : h `suffix_of` h' → key_jobs_gone h → key_jobs_gone h'.
Proof.
  intros Hs (sets & pvcs & pods & ? & ? & ? & Hp). exists sets, pvcs, pods.
  split_and!; try by eapply elem_of_suffix. intros pod Hin. eapply key_job_settled_suffix; [exact Hs|auto].
Qed.

Lemma deleteOwnedKeyJobPods_spec h :
  spec quiesce_permitted h (deleteOwnedKeyJobPods owner namespace) (λ h' r, r = Ok true → key_jobs_gone h').
Proof.
  unfold deleteOwnedKeyJobPods, signerNamesAttributedToOwner. rewrite !spec_try. simpl.
  split; [done|]. intros [sets|e]; simpl; [|done]. split; [done|]. intros [pvcs|e]; simpl; [|done].
  split; [done|]. intros [pods|e]; simpl; [|done]. set (h1 := _ :: _ :: _ :: h).
  eapply spec_conseq; [apply spec_suffix, (all_of_spec _ _ (key_job_settled (attributed_names owner sets pvcs)))|].
  - intros x h2 h3. apply key_job_settled_suffix.
  - intros pod h2 Hin Hs. unfold delete_key_job_pod, key_job_settled.
    destruct (keyJobSignerName (pod_Name pod)) as [n|] eqn:En; [|done].
    destruct (IsControlledBy _ _) eqn:Ec; simpl.
    + eapply spec_conseq; [apply delete_pod_spec; [done|]|].
      { exists pods, pod. split_and!; [|done|by rewrite En|done..]. eapply elem_of_suffix; [|exact Hs]. by left. }
      intros h3 r _ Hr Hok ? _. auto.
    + destruct (bool_decide (n ∈ _)) eqn:Ee; simpl; [done|]. to_prop. by intros _ ? [= <-].
  - intros h2 r _ [Hs Hr] Hok. destruct (Hr Hok) as [_ Hp]. exists sets, pvcs, pods. split_and!; [..|done].
    all: eapply elem_of_suffix; [|exact Hs]; unfold h1; set_solver.
Qed.

(** Every set of one listing: the owner's are gone, none only pretends to be. *)
Definition signer_settled (sts : StatefulSet) (h : list kevent) : Prop :=
  if IsOwnedSignerStatefulSet sts owner then absent_after namespace Cached (sts_Name sts) h
  else isAttributedSignerStatefulSet sts owner = false.

Definition signers_quiesced (h : list kevent) : Prop :=
  ∃ sets, Ev (ListStatefulSets Cached namespace) (Ok sets) ∈ h ∧ ∀ sts, sts ∈ sets → signer_settled sts h.

Lemma signer_settled_suffix sts h h' : h `suffix_of` h' → signer_settled sts h → signer_settled sts h'.
Proof. intros Hs. unfold signer_settled. destruct (IsOwnedSignerStatefulSet _ _); [by apply in_order_suffix|done]. Qed.

Lemma signers_quiesced_suffix h h' : h `suffix_of` h' → signers_quiesced h → signers_quiesced h'.
Proof.
  intros Hs (sets & Hin & Hq). exists sets. split; [by eapply elem_of_suffix|].
  intros sts Hsts. eapply signer_settled_suffix; [exact Hs|auto].
Qed.

Definition owner_quiesced (h : list kevent) : Prop := key_jobs_gone h ∧ signers_quiesced h.

#[local] Opaque deleteOwnedKeyJobPods.

Lemma QuiesceOwner_quiesces h :
  spec quiesce_permitted h (QuiesceOwner owner namespace) (λ h' r, r = Ok true → owner_quiesced h').
Proof.
  unfold QuiesceOwner. rewrite spec_try. eapply spec_conseq; [apply deleteOwnedKeyJobPods_spec|].
  intros h1 [[]|e] _ K1; simpl; [|done|done]. specialize (K1 eq_refl).
  split; [done|]. intros [sets|e]; simpl; [|done]. set (h2 := _ :: h1).
  eapply spec_conseq; [apply spec_suffix, (all_in_turn_spec _ _ signer_settled)|].
  - intros x h3 h4. apply signer_settled_suffix.
  - intros sts h3 Hin Hs. unfold quiesce_signer, signer_settled.
    destruct (IsOwnedSignerStatefulSet sts owner) eqn:Eo; simpl.
    + destruct (meta_DeletionTimestamp _); simpl; [done|]. apply quiesce_DeleteStatefulSet.
      exists sets. split_and!; [|done..]. eapply elem_of_suffix; [|exact Hs]. by left.
    + by destruct (isAttributedSignerStatefulSet sts owner).
  - intros h3 r _ [Hs Hr] Hok. split.
    + eapply key_jobs_gone_suffix; [|exact K1]. etrans; [|exact Hs]. by eexists [_].
    + exists sets. split; [|by apply Hr]. eapply elem_of_suffix; [|exact Hs]. by left.
Qed.
#[local] Opaque QuiesceOwner.

(** *** Raft state *)

Variable policy : string.
Abbreviation root := (RootOwnerFor owner).
Abbreviation state_permitted :=
  (class_permitted root ClassCosmosignerState policy (owner_UID owner) [RetainedStateFinalizer]).

(** No signer of the owner runs and no pod of a signer that a claim names. *)
Definition claim_idle (pvc : PersistentVolumeClaim) (h : list kevent) : Prop :=
  ∃ o, finalized_signer owner pvc = Ok o ∧ ∀ name, o = Some name → pods_gone name h.
Definition claims_idle (h : list kevent) : Prop :=
  ∃ pvcs, Ev (ListPVCs Cached namespace) (Ok pvcs) ∈ h ∧ ∀ pvc, pvc ∈ pvcs → claim_idle pvc h.

(** Raft state is given up only once no signer is left. *)
Definition idle_for (idle : list kevent → Prop) (h : list kevent) (r : request) : Prop :=
  match r with UpdatePVC _ | DeletePVC _ _ _ => idle h | _ => True end.

(** Recording whose state a claim of this owner's signers is. *)
Definition attributes (h : list kevent) (r : request) : Prop :=
  match r with
  | UpdatePVC pvc' => ∃ l pvc, Ev (ListPVCs Cached namespace) (Ok l) ∈ h ∧ pvc ∈ l ∧ owner_labelled owner pvc = true ∧
      is_Some (statefulSetNameFromDataPVC (pvc_Name pvc)) ∧
      pvc' = with_pvc_meta pvc
               (StampResourceOwner (Stamp (pvc_meta pvc) root ClassCosmosignerState).1 (owner_UID owner)).1
  | _ => False
  end.

Definition finalize_permitted (h : list kevent) (r : request) : Prop :=
  quiesce_permitted h r ∨ attributes h r ∨
  (state_permitted h r ∧ idle_for (λ h, owner_quiesced h ∧ claims_idle h) h r).

Lemma claim_idle_suffix pvc h h' : h `suffix_of` h' → claim_idle pvc h → claim_idle pvc h'.
Proof. intros Hs (o & Ho & Hn). exists o. split; [done|]. intros n E. specialize (Hn n E). eapply in_order_suffix; [exact Hs|exact Hn]. Qed.

#[local] Opaque FinalizeClass.
Lemma FinalizeState_spec h :
  spec (λ h r, only_reads h r ∨ state_permitted h r ∧ idle_for claims_idle h r) h
    (FinalizeState owner namespace policy) (λ h' r,
    r = Ok true → claims_idle h' ∧ ∃ k ev h0, h' = k ++ ev :: h0 ∧ class_listing root ClassCosmosignerState ev ∧
      ∀ d, selected root ClassCosmosignerState (owner_UID owner) ev d →
           settled policy (owner_UID owner) [RetainedStateFinalizer] d k).
Proof.
  unfold FinalizeState. rewrite spec_try. simpl. split; [by left|]. intros [pvcs|e]; simpl; [|done].
  set (h1 := _ :: h). rewrite spec_try.
  eapply spec_mono; [apply spec_suffix, (all_in_turn_spec only_reads _ claim_idle)|by intros h' r _ Hr; left|].
  - intros x h2 h3. apply claim_idle_suffix.
  - intros pvc h2 Hin Hs. unfold claim_signer_gone, claim_idle.
    destruct (finalized_signer owner pvc) as [[n|]|e]; simpl; [|by exists None|done].
    eapply spec_conseq; [apply SignerPodsGone_reads|]. intros h3 r _ Hr Hok. exists (Some n).
    split; [done|]. intros ? [= <-]. by apply Hr.
  - intros h2 [[]|e] _ [Hs K2]; simpl; [|done|done].
    assert (claims_idle h2) as Hidle.
    { exists pvcs. split; [|by apply K2]. eapply elem_of_suffix; [|exact Hs]. by left. }
    assert (∀ h3, h2 `suffix_of` h3 → claims_idle h3) as Hidle'.
    { intros h3 Hs3. destruct Hidle as (l & Hl & Hi). exists l. split; [by eapply elem_of_suffix|].
      intros pvc Hin. eapply claim_idle_suffix; [exact Hs3|auto]. }
    eapply spec_mono; [apply spec_suffix, FinalizeClass_settles|..].
    + intros h3 r Hs3 Hr. right. split; [done|]. destruct r; try done; by apply Hidle'.
    + intros h3 r _ [Hs3 Hr] Hok. split; [by apply Hidle'|]. destruct (Hr Hok) as (k & ev & -> & ? & ?).
      by exists k, ev, h2.
Qed.
#[local] Opaque FinalizeState.

#[local] Opaque Stamp StampResourceOwner owner_labelled statefulSetNameFromDataPVC.
Lemma attribute_claims_spec changed l h :
  (∃ l0, Ev (ListPVCs Cached namespace) (Ok l0) ∈ h ∧ l ⊆ l0) →
  spec attributes h (attribute_claims owner changed l) (λ _ _, True).
Proof.
  revert changed h. induction l as [|pvc l IH]; intros changed h Hl; simpl; [exact I|].
  assert (∀ b h', h `suffix_of` h' → spec attributes h' (attribute_claims owner b l) (λ _ _, True)) as Hrest.
  { intros b h' Hs. apply IH. destruct Hl as (l0 & Hin & Hsub). exists l0. split; [by eapply elem_of_suffix|].
    intros x Hx. apply Hsub. by right. }
  destruct (owner_labelled owner pvc) eqn:Eo; simpl; [|by apply Hrest].
  destruct (statefulSetNameFromDataPVC (pvc_Name pvc)) eqn:En; simpl; [|by apply Hrest].
  destruct (Stamp _ _ _) as [m b1] eqn:Es. destruct (StampResourceOwner m _) as [m2 b2] eqn:Er.
  destruct (b1 || b2); [|by apply Hrest]. simpl. split.
  - destruct Hl as (l0 & Hin & Hsub). exists l0, pvc. split_and!; [done|apply Hsub; by left|done|by eexists|].
    by rewrite Es; simpl; rewrite Er.
  - intros [p|e]; simpl; [by apply Hrest; eexists [_]|]. destruct (IsNotFound e); [by apply Hrest; eexists [_]|done].
Qed.

Lemma FinalizeOwner_finalizes h :
  spec finalize_permitted h (FinalizeOwner owner namespace policy) (λ h' r,
    r = Ok true → owner_quiesced h' ∧ claims_idle h' ∧
      ∃ k ev h0, h' = k ++ ev :: h0 ∧ class_listing root ClassCosmosignerState ev ∧
        ∀ d, selected root ClassCosmosignerState (owner_UID owner) ev d →
             settled policy (owner_UID owner) [RetainedStateFinalizer] d k).
Proof.
  unfold FinalizeOwner, attributeOwnedStatePVCs. rewrite !spec_try. simpl. split; [by left|].
  intros [pvcs|e]; simpl; [|done].
  eapply spec_mono; [apply attribute_claims_spec; by exists pvcs; split; [left|]|by intros h' r _ Hr; right; left|].
  intros h1 [[]|e] _ _; [done| |done]. rewrite spec_try.
  eapply spec_mono; [apply QuiesceOwner_quiesces|by intros h' r _ Hr; left|].
  intros h2 [[]|e] _ K2; simpl; [|done|done]. destruct (K2 eq_refl) as [Kj Ks].
  assert (∀ h3, h2 `suffix_of` h3 → owner_quiesced h3) as Hq.
  { intros h3 Hs. split; [by eapply key_jobs_gone_suffix|by eapply signers_quiesced_suffix]. }
  eapply spec_mono; [apply spec_suffix, FinalizeState_spec|..].
  - intros h3 r Hs [Hr|[Hr Hi]]; [by left; apply reads_quiesce|]. right; right. split; [done|].
    destruct r; try done; (split; [by apply Hq|done]).
  - intros h3 r _ [Hs Hr] Hok. destruct (Hr Hok). split; [by apply Hq|done].
Qed.

(** *** A terminating namespace *)

(** A listed pod that does not keep the namespace from terminating. *)
Definition pod_settled (names : gmap string string) (claims : gset string) (pod : Pod) (h : list kevent) : Prop :=
  match pod_signer names pod with
  | None => True
  | Some (instance, uid, byname) =>
      (pod_label pod labelAppName ≠ appNameCosmosigner ∧ isStatefulSetReplicaPodName (pod_Name pod) instance = false) ∨
      (byname = true ∧ uid = "" ∧ controls_pod instance (GetControllerOf (pod_meta pod)) = false ∧
       podMountsAnyClaim pod claims = false) ∨
      pod_absent pod h
  end.

(** A pod is deleted by the UID it was listed with, when an owned signer of the
    listed UID controls it; a set by the UID it was listed with. *)
Definition terminate_permitted (h : list kevent) (r : request) : Prop :=
  quiesce_permitted h r ∨
  match r with
  | DeletePod ns n uid => ∃ l pod sts c, Ev (ListPods Cached namespace) (Ok l) ∈ h ∧ pod ∈ l ∧ own_signer h sts ∧
      GetControllerOf (pod_meta pod) = Some c ∧ or_Kind c = "StatefulSet" ∧ or_Name c = sts_Name sts ∧
      or_UID c = meta_UID (sts_meta sts) ∧
      ns = meta_Namespace (pod_meta pod) ∧ n = pod_Name pod ∧ uid = meta_UID (pod_meta pod)
  | DeleteStatefulSetReq ns n uid => ∃ l sts, Ev (ListStatefulSets Cached namespace) (Ok l) ∈ h ∧ sts ∈ l ∧
      IsOwnedSignerStatefulSet sts owner = true ∧
      ns = meta_Namespace (sts_meta sts) ∧ n = sts_Name sts ∧ uid = meta_UID (sts_meta sts)
  | _ => False
  end.

Definition sts_absent (sts : StatefulSet) (h : list kevent) : Prop :=
  Ev (GetStatefulSet Cached (meta_Namespace (sts_meta sts)) (sts_Name sts)) (Err (ApiError ReasonNotFound)) ∈ h.

(** The names come from the owner's signers, those with a UID from its sets. *)
Definition of_sets (sets : list StatefulSet) (names : gmap string string) : Prop :=
  ∀ n uid, names !! n = Some uid → uid ≠ "" →
    ∃ sts, sts ∈ sets ∧ IsOwnedSignerStatefulSet sts owner = true ∧ sts_Name sts = n ∧ meta_UID (sts_meta sts) = uid.

Lemma owned_names_of sets : of_sets sets (owned_names owner sets).
Proof.
  unfold owned_names. assert (∀ l m, l ⊆ sets → of_sets sets m → of_sets sets (foldl (λ m sts,
    if IsOwnedSignerStatefulSet sts owner then <[sts_Name sts := meta_UID (sts_meta sts)]> m else m) m l)) as Hf.
  { intros l. induction l as [|sts l IH]; intros m Hl Hm; simpl; [done|].
    apply IH; [intros x Hx; apply Hl; by right|]. destruct (IsOwnedSignerStatefulSet sts owner) eqn:Eo; [|done].
    intros n uid [[<- <-]|[_ Hn]]%lookup_insert_Some Hu; [|by apply Hm]. exists sts. split_and!; [apply Hl; by left|done..]. }
  apply Hf; [done|]. intros n uid Hn. by rewrite lookup_empty in Hn.
Qed.

Lemma claim_names_of sets names pvcs : of_sets sets names → of_sets sets (claim_names owner names pvcs).
Proof.
  unfold claim_names. revert names. induction pvcs as [|pvc l IH]; intros m Hm; simpl; [done|]. apply IH.
  destruct (quiesced_claim owner pvc) as [name|]; [|done]. destruct (m !! name); [done|].
  intros n uid [[_ <-]|[_ Hn]]%lookup_insert_Some Hu; [done|by apply Hm].
Qed.

Lemma pod_signer_named names pod instance uid byname :
  pod_signer names pod = Some (instance, uid, byname) → names !! instance = Some uid.
Proof.
  unfold pod_signer. destruct (names !! _) eqn:E; [by intros [= <- <- _]|].
  destruct (find _ _) as [[n u]|] eqn:Ef; [|done]. intros [= <- <- _]. apply find_some in Ef as [Hin _].
  apply elem_of_map_to_list. by apply list_elem_of_In.
Qed.

Lemma terminate_pod_spec sets names claims pod h :
  of_sets sets names → Ev (ListStatefulSets Cached namespace) (Ok sets) ∈ h →
  (∃ l, Ev (ListPods Cached namespace) (Ok l) ∈ h ∧ pod ∈ l) →
  spec terminate_permitted h (terminate_pod names claims pod) (λ h' r, r = Ok true → pod_settled names claims pod h').
Proof.
  intros Hn Hsets (l & Hl & Hp). unfold terminate_pod, pod_settled.
  destruct (pod_signer names pod) as [[[instance uid] byname]|] eqn:En; [|done].
  destruct (_ && negb _) eqn:E1; [simpl; to_prop; intros _; by left|].
  destruct (byname && _ && _) eqn:E2.
  { to_prop. simpl. intros [= Hm%negb_true_iff]. right; left. by split_and!. }
  destruct (_ || _ || _) eqn:E3; [done|].
  eapply spec_conseq; [apply delete_pod_spec; [by left|]|intros h' r _ Hr Hok; right; right; auto].
  right. unfold controls_pod in E3. destruct (GetControllerOf (pod_meta pod)) as [c|] eqn:Ec; [|by to_prop].
  to_prop. destruct (Hn instance uid) as (sts & Hin & Ho & <- & Hu); [by eapply pod_signer_named|done|].
  exists l, pod, sts, c. split_and!; try done; [by exists sets|congruence].
Qed.

Lemma terminate_sts_spec sts h :
  (∃ l, Ev (ListStatefulSets Cached namespace) (Ok l) ∈ h ∧ sts ∈ l) →
  spec terminate_permitted h (terminate_sts owner sts) (λ h' r,
    r = Ok true → IsOwnedSignerStatefulSet sts owner = true → sts_absent sts h').
Proof.
  intros (l & Hl & Hs). unfold terminate_sts. destruct (IsOwnedSignerStatefulSet sts owner) eqn:Eo; [|done].
  assert (∀ h', spec terminate_permitted h'
    (confirm_absent (call (GetStatefulSet Cached (meta_Namespace (sts_meta sts)) (meta_Name (sts_meta sts))))
       (return_result false) (return_result true)) (λ h' r, r = Ok true → true = true → sts_absent sts h')) as Hc.
  { intros h'. simpl. split; [by left|]. intros [x|e]; simpl; [done|].
    destruct (IsNotFound e) eqn:En; simpl; [|done]. unfold IsNotFound in En. to_prop. subst. intros _ _. by left. }
  simpl. destruct (meta_DeletionTimestamp _); [apply Hc|].
  unfold ignoring_not_found. rewrite spec_mbind. simpl. split; [right; by exists l, sts|].
  intros [[]|e]; [apply Hc|]. destruct (IsNotFound e); [apply Hc|done].
Qed.
#[local] Opaque terminate_pod terminate_sts.

Definition namespace_quiesced (h : list kevent) : Prop :=
  key_jobs_gone h ∧ ∃ sets pvcs pods, Ev (ListStatefulSets Cached namespace) (Ok sets) ∈ h ∧
    Ev (ListPVCs Cached namespace) (Ok pvcs) ∈ h ∧ Ev (ListPods Cached namespace) (Ok pods) ∈ h ∧
    (∀ pod, pod ∈ pods → pod_settled (claim_names owner (owned_names owner sets) pvcs) (owned_claims owner pvcs) pod h) ∧
    (∀ sts, sts ∈ sets → IsOwnedSignerStatefulSet sts owner = true → sts_absent sts h).

Lemma pod_settled_suffix names claims pod h h' :
  h `suffix_of` h' → pod_settled names claims pod h → pod_settled names claims pod h'.
Proof.
  intros Hs. unfold pod_settled. destruct (pod_signer names pod) as [[[i u] b]|]; [|done].
  intros [?|[?|Hp]]; [by left|by right; left|right; right; by eapply elem_of_suffix].
Qed.

Lemma QuiesceOwnerForNamespaceTermination_quiesces h :
  spec terminate_permitted h (QuiesceOwnerForNamespaceTermination owner namespace)
    (λ h' r, r = Ok true → namespace_quiesced h').
Proof.
  unfold QuiesceOwnerForNamespaceTermination. rewrite spec_try.
  eapply spec_mono; [apply deleteOwnedKeyJobPods_spec|by intros h' r _ Hr; left|].
  intros h1 [[]|e] _ K1; simpl; [|done|done]. specialize (K1 eq_refl).
  split; [by left|]. intros [sets|e]; simpl; [|done]. split; [by left|].
  intros [pvcs|e]; simpl; [|done]. split; [by left|]. intros [pods|e]; simpl; [|done].
  set (names := claim_names owner _ pvcs). set (claims := owned_claims owner pvcs).
  set (h2 := _ :: _ :: _ :: h1). rewrite spec_try.
  eapply spec_conseq; [apply spec_suffix, (all_of_spec terminate_permitted _ (pod_settled names claims))|].
  - intros x h3 h4. apply pod_settled_suffix.
  - intros pod h3 Hin Hs. apply (terminate_pod_spec sets); [apply claim_names_of, owned_names_of| |].
    { eapply elem_of_suffix; [|exact Hs]. unfold h2. set_solver. }
    exists pods. split; [|done]. eapply elem_of_suffix; [|exact Hs]. by left.
  - intros h3 [[]|e] _ [Hs3 K3]; simpl; [|done|done]. destruct (K3 eq_refl) as [_ Kp].
    eapply spec_conseq; [apply spec_suffix, (all_of_spec terminate_permitted _
      (λ sts h, IsOwnedSignerStatefulSet sts owner = true → sts_absent sts h))|].
    + intros sts h4 h5 Hs Hx Ho. eapply elem_of_suffix; [apply Hx, Ho|exact Hs].
    + intros sts h4 Hin Hs. apply terminate_sts_spec. exists sets. split; [|done].
      eapply elem_of_suffix; [|etrans; [exact Hs3|exact Hs]]. unfold h2. by do 2 right; left.
    + intros h4 r _ [Hs4 K4] Hok. destruct (K4 Hok) as [_ Ks]. assert (h2 `suffix_of` h4) as Hs by by etrans.
      split; [eapply key_jobs_gone_suffix; [|exact K1]; etrans; [|exact Hs]; by eexists [_; _; _]|].
      exists sets, pvcs, pods. split_and!; [..|done].
      all: try (eapply elem_of_suffix; [|exact Hs]; unfold h2; set_solver).
      intros pod Hin. eapply pod_settled_suffix; [exact Hs4|auto].
Qed.
End quiesce.

(** ** What is promised *)

Section promises.
Context `{MetaApi}.

(** Undeploying a signer deletes an object (the pods of its key jobs, its
    Services, ConfigMap, PodDisruptionBudget and NetworkPolicy) only after it
    was seen under the owner's control, and deletes an object or a raft claim
    only after the StatefulSet was seen gone and then no pod of the signer was
    listed; the StatefulSet itself is removed by retaining its claims, scaling
    to zero, waiting and deleting by UID. *)
Theorem Undeploy_spec owner namespace name h :
  spec (undeploy_permitted owner namespace name) h (Undeploy owner namespace name) (λ _ _, True).
Proof. apply Undeploy_permitted. Qed.

(** [IsTornDown] only reads, and when it reports a signer gone, it saw each
    of its objects absent or under another controller, then no pod carrying the
    signer's labels, and last no claim the signer would bind that is the
    owner's or carries no owner at all. *)
Theorem IsTornDown_spec owner namespace name h :
  spec only_reads h (IsTornDown (owner_meta owner) namespace name)
    (λ h' r, r = Ok true → torn_down owner namespace name h').
Proof. apply IsTornDown_reads. Qed.

(** C21: when [FinalizeOwner] reports that the raft state of an owner is dealt
    with, the pods of its key jobs were seen gone, every signer StatefulSet of
    it was removed (retained, scaled to zero, waited for, deleted by UID, seen
    absent), no pod of a signer named by one of its claims was left, and every
    attributed claim was deleted or handed over as its policy says. On the way
    raft claims are changed only to attribute them or once all of this was
    seen. *)
Theorem FinalizeOwner_spec owner namespace policy h :
  spec (finalize_permitted owner namespace policy) h (FinalizeOwner owner namespace policy) (λ h' r,
    r = Ok true → owner_quiesced owner namespace h' ∧ claims_idle owner namespace h' ∧
      ∃ k ev h0, h' = k ++ ev :: h0 ∧ class_listing (RootOwnerFor owner) ClassCosmosignerState ev ∧
        ∀ d, selected (RootOwnerFor owner) ClassCosmosignerState (owner_UID owner) ev d →
             settled policy (owner_UID owner) [RetainedStateFinalizer] d k).
Proof. apply FinalizeOwner_finalizes. Qed.

(** C22: in a terminating namespace the owner counts as quiesced only when the
    pods of its key jobs were seen gone, every owned signer StatefulSet was
    seen absent, and every listed pod that belongs to a signer - by its label,
    or by its name when the set or only a claim of it is left - was seen absent
    or, named like a replica but controlled by something else, mounts none of
    the owner's claims. *)
Theorem QuiesceOwnerForNamespaceTermination_spec owner namespace h :
  spec (terminate_permitted owner namespace) h (QuiesceOwnerForNamespaceTermination owner namespace)
    (λ h' r, r = Ok true → namespace_quiesced owner namespace h').
Proof. apply QuiesceOwnerForNamespaceTermination_quiesces. Qed.

Lemma data_claim_name n s : statefulSetNameFromDataPVC n = Some s → isStatefulSetDataPVC n s = true.
Proof.
  unfold statefulSetNameFromDataPVC. destruct (negb _); [done|]. destruct (LastIndex _ _) as [[|k]|]; [done| |done].
  destruct (isStatefulSetDataPVC n _) eqn:E; [|done]. by intros [= <-].
Qed.

(** The claims whose finalizer is released are those quiescence has
    recognised - and, in addition, every attributed claim whose name is of no
    StatefulSet, which quiescence ignores. *)
Theorem released_claims owner pvc :
  releasable owner pvc = is_some (quiesced_claim owner pvc) || state_attributed owner pvc.
Proof.
  unfold releasable, quiesced_claim. destruct (owner_labelled owner pvc), (state_attributed owner pvc); simpl.
  - by rewrite !orb_true_r.
  - rewrite !orb_false_r. destruct (statefulSetNameFromDataPVC (pvc_Name pvc)) as [n|] eqn:En; simpl.
    + rewrite (data_claim_name _ _ En). by destruct (isStatefulSetDataPVC _ _).
    + by destruct (isStatefulSetDataPVC _ _).
  - by rewrite !orb_true_r.
  - done.
Qed.
End promises.
