(* ===== verification/NodeFinalize.v ===== *)
(** * Finalizing a deleted node ([internal/controllers/chainnode/resource_cleanup.go], [account.go])

    A deleted [ChainNode] keeps its cleanup finalizers until nothing of it can
    sign any more and every durable resource it made is dealt with as its
    deletion policy says.  Also the migration of resources made before they
    carried attributions. *)

From S2P Require Import Prelude GoLib IO ThirdParty ApiTypes KubeApi SignerResolve Getters SigningNames SigningPaths.
From S2P Require Import ResourceCleanup Migration Deploy Teardown.

(** ** Names of the pods of a node ([internal/controllers/pod_names.go]) *)

Definition deterministicChainNodePodSuffixes : list string :=
  ["-init-data"; "-config-generator"; "-genesis-init"; "-write-file"; "-download-genesis"; "-create-validator";
   "-tmkms-generate-identity"; "-tmkms-vault-upload"].

Definition IsDeterministicChainNodePodName (podName nodeName : string) : bool :=
  (podName == nodeName) || existsb (λ suffix, podName == nodeName +:+ suffix) deterministicChainNodePodSuffixes.

(** Whether every finalizer of the list is removed is one update. *)
Definition with_cn_meta (n : ChainNode) (m : ObjectMeta) : ChainNode := mkChainNode m (cn_Spec n) (cn_Status n).
Definition with_cns_meta (s : ChainNodeSet) (m : ObjectMeta) : ChainNodeSet := mkChainNodeSet m (cns_Spec s) (cns_Status s).
Definition cleanup_finalizers : list string := [Finalizer; OwnerFinalizer].

Section node.
Context `{MetaApi}.

(** ** Attributing resources made before they carried attributions *)

Definition attribute_durable (owner : Owner) (class : ResourceClass) (d : Durable) : kube (result ()) :=
  let '(managed, (m, changed)) := PrepareGeneratedResource (durable_meta d) owner class false in
  if managed && changed then update_durable (with_durable_meta d m) else return_result ().

Definition isLegacyGeneratedKeySecret (n : ChainNode) (secret : Secret) : bool :=
  IsLegacyGeneratedKeySecret secret
    (cn_Name n :: match ns_Validator (cn_Spec n) with
                  | Some v => [GetAccountSecretName v (cn_meta n); GetPrivKeySecretName (Some v) (cn_meta n)]
                  | None => []
                  end).

Definition legacy_volume (n : ChainNode) (p : PersistentVolumeClaim) : bool :=
  negb (IsAttributed (pvc_meta p) (RootOwnerFor (OwnerChainNode n)) ClassDataVolumes) &&
  IsControlledBy (pvc_meta p) (cn_meta n).
Definition legacy_key (n : ChainNode) (s : Secret) : bool :=
  IsControlledBy (secret_meta s) (cn_meta n) &&
  negb (IsAttributed (secret_meta s) (RootOwnerFor (OwnerChainNode n)) ClassGeneratedKeys) &&
  isLegacyGeneratedKeySecret n s.

Definition attributeControlledLegacyDataVolumes (n : ChainNode) : kube (result ()) :=
  pvcs ←? call (ListPVCs Cached (cn_Namespace n));
  for_each_call (λ p,
    if legacy_volume n p then attribute_durable (OwnerChainNode n) ClassDataVolumes (DurablePVC p)
    else return_result ()) pvcs.

Definition attributeControlledLegacyKeys (n : ChainNode) : kube (result ()) :=
  secrets ←? call (ListSecrets Cached (cn_Namespace n));
  for_each_call (λ s,
    if legacy_key n s then attribute_durable (OwnerChainNode n) ClassGeneratedKeys (DurableSecret s)
    else return_result ()) secrets.

Definition migrateExistingGeneratedKeySecret (n : ChainNode) (name : string) : kube (result ()) :=
  r ← call (GetSecret Cached (cn_Namespace n) name);
  match r with
  | Err e => if IsNotFound e then return_result () else return_error e
  | Ok secret => attribute_durable (OwnerChainNode n) ClassGeneratedKeys (DurableSecret secret)
  end.

(** [IsValidator] is [.spec.validator != nil]; both dereference it. *)
Definition migrateExistingAccountSecret (n : ChainNode) : kube (result ()) :=
  match ns_Validator (cn_Spec n) with
  | None => return_result ()
  | Some v => migrateExistingGeneratedKeySecret n (GetAccountSecretName v (cn_meta n))
  end.
Definition migrateExistingValidatorSecrets (n : ChainNode) : kube (result ()) :=
  match ns_Validator (cn_Spec n) with
  | None => return_result ()
  | Some v =>
      migrateExistingAccountSecret n ;?
      migrateExistingGeneratedKeySecret n (GetPrivKeySecretName (Some v) (cn_meta n))
  end.

Definition MigrateLegacyDurableResources (n : ChainNode) : kube (result bool) :=
  migrateExistingValidatorSecrets n ;?
  attributeControlledLegacyDataVolumes n ;?
  attributeControlledLegacyKeys n ;?
  ProtectRetainedStatePVCs (OwnerChainNode n) (cn_Namespace n).

(** ** Stopping the pods of a node *)

Definition foreign_pod_error (m : ObjectMeta) (n : ChainNode) : error :=
  Errorf "refusing durable cleanup while pod %s/%s is not controlled by ChainNode UID %s"
    [AStr (meta_Namespace m); AStr (meta_Name m); AStr (cn_UID n)].

(** One listed pod: gone, or to be waited for. *)
Definition quiesce_pod (n : ChainNode) (pod : Pod) : kube (result bool) :=
  let m := pod_meta pod in
  let controlled := IsControlledBy m (cn_meta n) in
  if negb controlled && negb (IsDeterministicChainNodePodName (meta_Name m) (cn_Name n)) then return_result true
  else if negb controlled then return_error (foreign_pod_error m n)
  else if is_some (meta_DeletionTimestamp m) then return_result false
  else
    ignoring_not_found (call (DeletePod (meta_Namespace m) (meta_Name m) (meta_UID m)))
      (confirm_absent (call (GetPod Cached (meta_Namespace m) (meta_Name m))) (return_result false) (return_result true)).

Definition quiesceNodePod (n : ChainNode) : kube (result bool) :=
  r ← call (GetPod Cached (cn_Namespace n) (cn_Name n));
  let list :=
    pods ←? call (ListPods Cached (cn_Namespace n));
    all_of (quiesce_pod n) true pods in
  match r with
  | Ok mainPod =>
      if negb (IsControlledBy (pod_meta mainPod) (cn_meta n)) then return_error (foreign_pod_error (pod_meta mainPod) n)
      else list
  | Err e => if IsNotFound e then list else return_error e
  end.

(** ** The root and its policy *)

(** The set the node says controls it. *)
Definition parent_reference (n : ChainNode) : option OwnerReference :=
  match GetControllerOf (cn_meta n) with
  | Some c => if (or_APIVersion c == GroupVersion) && (or_Kind c == "ChainNodeSet") then Some c else None
  | None => None
  end.

Definition effectiveDeletionPolicy (n : ChainNode) : kube (result (option DeletionPolicy)) :=
  match parent_reference n with
  | None => return_result (ns_DeletionPolicy (cn_Spec n))
  | Some controller =>
      r ← call (GetChainNodeSet Cached (cn_Namespace n) (or_Name controller));
      match r with
      | Err e => if IsNotFound e then return_result (ns_DeletionPolicy (cn_Spec n)) else return_error e
      | Ok nodeSet =>
          if cns_UID nodeSet == or_UID controller then return_result (ss_DeletionPolicy (cns_Spec nodeSet))
          else return_result (ns_DeletionPolicy (cn_Spec n))
      end
  end.

(** A set whose status still claims the node, while the node resolves to another root. *)
Definition orphaned_from (n : ChainNode) (nodeSet : ChainNodeSet) : bool :=
  ClaimsChild nodeSet n && (RootOwnerFor (OwnerChainNode n) != RootOwnerFor (OwnerChainNodeSet nodeSet)).

Definition orphan_error (n : ChainNode) (nodeSet : ChainNodeSet) : error :=
  Errorf "refusing durable cleanup of ChainNode %s/%s UID %s recorded by ChainNodeSet %s %s: it %s; restore its controller reference so its resources are finalized under the ChainNodeSet root"
    ([AStr (cn_Namespace n); AStr (cn_Name n); AStr (cn_UID n); AStr (cns_Name nodeSet); AStr (cns_UID nodeSet);
      AStr (if MatchRecordedChild nodeSet n == RecordedChildUnverified
            then " by name, from a status written before recorded child UIDs existed" else "")] ++
     ownership_args (GetControllerOf (cn_meta n))).

Definition refuseOrphanedRecordedChild (n : ChainNode) : kube (result ()) :=
  nodeSets ←? call (ListChainNodeSets Cached (Some (cn_Namespace n)));
  match find (orphaned_from n) nodeSets with
  | Some nodeSet => return_error (orphan_error n nodeSet)
  | None => return_result ()
  end.

(** ** Finalizing *)

(** Both classes of durables; the first error stops. *)
Definition finalize_durables (root : RootOwner) (policy : option DeletionPolicy) (controllerUID : string) : kube (result bool) :=
  dataDone ←? FinalizeClass root ClassDataVolumes (GetDataVolumes policy) controllerUID [];
  keysDone ←? FinalizeClass root ClassGeneratedKeys (GetGeneratedKeys policy) controllerUID [];
  return_result (dataDone && keysDone).

(** The cleanup finalizers are removed in one update, when there are any. *)
Definition release_node (n : ChainNode) : kube (result bool) :=
  let '(m, changed) := remove_finalizers (cn_meta n) cleanup_finalizers in
  if changed : bool then call (UpdateChainNode (with_cn_meta n m)) ;? return_result true else return_result true.

Definition finalizeResources (n : ChainNode) : kube (result bool) :=
  deletionPolicy ←? effectiveDeletionPolicy n;
  refuseOrphanedRecordedChild n ;?
  quiesced ←? quiesceNodePod n;
  if negb quiesced then return_result false else
  signerDone ←? FinalizeOwner (OwnerChainNode n) (cn_Namespace n) (GetCosmosignerState deletionPolicy);
  if negb signerDone then return_result false else
  attributeControlledLegacyDataVolumes n ;?
  attributeControlledLegacyKeys n ;?
  done ←? finalize_durables (RootOwnerFor (OwnerChainNode n)) deletionPolicy (cn_UID n);
  if negb done then return_result false else release_node n.

Definition namespaceTerminating (namespace : string) : kube (result bool) :=
  r ← call (GetNamespace Cached namespace);
  match r with
  | Err e => if IsNotFound e then return_result true else return_error e
  | Ok ns => return_result (is_some (meta_DeletionTimestamp ns))
  end.

Definition finalizeTerminatingNamespace (n : ChainNode) : kube (result bool) :=
  nodeQuiesced ←? quiesceNodePod n;
  if negb nodeQuiesced then return_result false else
  signerQuiesced ←? QuiesceOwnerForNamespaceTermination (OwnerChainNode n) (cn_Namespace n);
  if negb signerQuiesced then return_result false else
  ReleaseOwnerStateFinalizers (OwnerChainNode n) (cn_Namespace n) ;?
  release_node n.
End node.

(** ** What is seen before the finalizers go *)

Section promises.
Context `{MetaApi}.

(** A pass over the durables of a class was made, and each of them is settled since. *)
Definition class_settled (root : RootOwner) (class : ResourceClass) (policy uid : string) (finalizers : list string)
    (h : list kevent) : Prop :=
  ∃ k ev h0, h = k ++ ev :: h0 ∧ class_listing root class ev ∧
    ∀ d, selected root class uid ev d → settled policy uid finalizers d k.

#[export] Instance class_settled_stable root class policy uid finalizers : Stable (class_settled root class policy uid finalizers).
Proof.
  intros h h' [k' ->] (k & ev & h0 & -> & Hl & Hd). exists (k' ++ k), ev, h0.
  rewrite <- app_assoc. split_and!; [done|done|]. intros d Hsel. by apply settled_app, Hd.
Qed.

(** Every durable of both classes is settled. *)
Definition durables_settled (root : RootOwner) (policy : option DeletionPolicy) (uid : string) (h : list kevent) : Prop :=
  class_settled root ClassDataVolumes (GetDataVolumes policy) uid [] h ∧
  class_settled root ClassGeneratedKeys (GetGeneratedKeys policy) uid [] h.
#[export] Instance durables_settled_stable root policy uid : Stable (durables_settled root policy uid).
Proof. unfold durables_settled. apply _. Qed.

Definition durables_permitted (root : RootOwner) (policy : option DeletionPolicy) (uid : string) (h : list kevent) (r : request) : Prop :=
  class_permitted root ClassDataVolumes (GetDataVolumes policy) uid [] h r ∨
  class_permitted root ClassGeneratedKeys (GetGeneratedKeys policy) uid [] h r.

Lemma FinalizeClass_settled root class policy uid finalizers h :
  spec (class_permitted root class policy uid finalizers) h (FinalizeClass root class policy uid finalizers)
    (λ h' r, r = Ok true → class_settled root class policy uid finalizers h').
Proof.
  eapply spec_conseq; [apply FinalizeClass_settles|]. intros h' r _ Hr Hok.
  destruct (Hr Hok) as (k & ev & -> & ? & ?). by exists k, ev, h.
Qed.

Lemma finalize_durables_spec root policy uid h :
  spec (durables_permitted root policy uid) h (finalize_durables root policy uid)
    (λ h' r, r = Ok true → durables_settled root policy uid h').
Proof.
  unfold finalize_durables. rewrite spec_try.
  eapply spec_mono; [apply FinalizeClass_settled|by intros h' r _ Hr; left|].
  intros h1 [b1|e] _ H1; [|done]. rewrite spec_try.
  eapply spec_mono; [apply spec_suffix, FinalizeClass_settled|by intros h' r _ Hr; right|].
  intros h2 [b2|e] _ [Hs H2]; simpl; [|done]. intros [= [-> ->]%andb_true_iff].
  split; [|by apply H2]. eapply class_settled_stable; [exact Hs|]. by apply H1.
Qed.

Variable n : ChainNode.
Abbreviation ns := (cn_Namespace n).
Abbreviation owner := (OwnerChainNode n).
Abbreviation root := (RootOwnerFor owner).

(** No pod of the node is left: its main pod was seen gone or its own, and every pod of a listing
    that is its own was since seen absent; none with a reserved name is anybody else's. *)
Definition pod_quiesced (pod : Pod) (h : list kevent) : Prop :=
  (IsControlledBy (pod_meta pod) (cn_meta n) = false ∧ IsDeterministicChainNodePodName (pod_Name pod) (cn_Name n) = false) ∨
  (IsControlledBy (pod_meta pod) (cn_meta n) = true ∧ pod_absent pod h).
Definition main_pod_own (h : list kevent) : Prop :=
  ∃ r, Ev (GetPod Cached ns (cn_Name n)) r ∈ h ∧
    match r with Ok p => IsControlledBy (pod_meta p) (cn_meta n) = true | Err e => IsNotFound e = true end.
Definition node_quiesced (h : list kevent) : Prop :=
  main_pod_own h ∧
  ∃ pods, Ev (ListPods Cached ns) (Ok pods) ∈ h ∧ ∀ pod, pod ∈ pods → pod_quiesced pod h.

#[export] Instance pod_absent_stable pod : Stable (pod_absent pod).
Proof. unfold pod_absent. apply _. Qed.
#[export] Instance pod_quiesced_stable pod : Stable (pod_quiesced pod).
Proof. unfold pod_quiesced. apply _. Qed.
#[export] Instance main_pod_own_stable : Stable main_pod_own.
Proof. unfold main_pod_own. apply _. Qed.
#[export] Instance node_quiesced_stable : Stable node_quiesced.
Proof.
  apply stable_and; [apply _|]. apply stable_ex. intros pods. apply stable_and; [apply _|].
  apply stable_all. intros pod h h' Hs Hp Hin. eapply pod_quiesced_stable; [exact Hs|auto].
Qed.

(** Only pods of the node are deleted, by the UID they were listed with. *)
Definition quiesce_node_permitted (h : list kevent) (r : request) : Prop :=
  match r with
  | GetPod Cached _ _ | ListPods Cached _ => True
  | DeletePod pns name uid => ∃ l pod, Ev (ListPods Cached ns) (Ok l) ∈ h ∧ pod ∈ l ∧
      IsControlledBy (pod_meta pod) (cn_meta n) = true ∧
      pns = meta_Namespace (pod_meta pod) ∧ name = pod_Name pod ∧ uid = meta_UID (pod_meta pod)
  | _ => False
  end.

Lemma quiesce_pod_spec pod h :
  (∃ l, Ev (ListPods Cached ns) (Ok l) ∈ h ∧ pod ∈ l) →
  spec quiesce_node_permitted h (quiesce_pod n pod) (λ h' r, r = Ok true → pod_quiesced pod h').
Proof.
  intros (l & Hl & Hp). unfold quiesce_pod, pod_quiesced.
  destruct (IsControlledBy (pod_meta pod) (cn_meta n)) eqn:Ec; simpl.
  2:{ destruct (IsDeterministicChainNodePodName _ _) eqn:Ed; simpl; [done|]. intros _. by left. }
  destruct (meta_DeletionTimestamp _); simpl; [done|].
  split; [by exists l, pod|].
  assert (∀ h', spec quiesce_node_permitted h'
    (confirm_absent (call (GetPod Cached (meta_Namespace (pod_meta pod)) (meta_Name (pod_meta pod))))
       (return_result false) (return_result true)) (λ h2 r, r = Ok true →
         (true = false ∧ IsDeterministicChainNodePodName (pod_Name pod) (cn_Name n) = false) ∨
         (true = true ∧ pod_absent pod h2))) as Hc.
  { intros h'. simpl. split; [done|]. intros [x|e]; simpl; [done|].
    destruct (IsNotFound e) eqn:En; simpl; [|done]. unfold IsNotFound in En. to_prop. subst. intros _. right. split; [done|]. by left. }
  intros [[]|e]; [apply Hc|]. destruct (IsNotFound e); [apply Hc|done].
Qed.
#[local] Opaque quiesce_pod.

Lemma quiesceNodePod_spec h :
  spec quiesce_node_permitted h (quiesceNodePod n) (λ h' r, r = Ok true → node_quiesced h').
Proof.
  assert (∀ h', main_pod_own h' → spec quiesce_node_permitted h'
    (pods ←? call (ListPods Cached ns); all_of (quiesce_pod n) true pods) (λ h2 r, r = Ok true → node_quiesced h2)) as Hlist.
  { intros h' Hm. rewrite spec_try. simpl. split; [done|]. intros [pods|e]; [|done].
    eapply spec_conseq; [apply spec_suffix, (all_of_spec _ _ pod_quiesced)|].
    - intros pod h1 h2. apply pod_quiesced_stable.
    - intros pod h1 Hin Hs. apply quiesce_pod_spec. exists pods. split; [|done]. eapply stable_seen; [exact Hs|by left].
    - intros h2 r _ [Hs Hr] Hok. split; [|exists pods; split; [eapply stable_seen; [exact Hs|by left]|by apply Hr]].
      eapply main_pod_own_stable; [|exact Hm]. etrans; [|exact Hs]. by eexists [_]. }
  unfold quiesceNodePod. rewrite spec_mbind. simpl. split; [done|]. intros [p|e].
  - destruct (IsControlledBy _ _) eqn:Ec; simpl; [|done]. apply Hlist. exists (Ok p). split; [by left|done].
  - destruct (IsNotFound e) eqn:En; [|done]. apply Hlist. exists (Err e). split; [by left|done].
Qed.

(** A durable is attributed as listed: controlled by the node and not attributed yet. *)
Definition attributed_meta (class : ResourceClass) (m : ObjectMeta) : ObjectMeta :=
  (PrepareGeneratedResource m owner class false).2.1.
Definition attribute_permitted (h : list kevent) (r : request) : Prop :=
  match r with
  | ListPVCs Cached _ | ListSecrets Cached _ => True
  | UpdatePVC p' => ∃ l p, Ev (ListPVCs Cached ns) (Ok l) ∈ h ∧ p ∈ l ∧ legacy_volume n p = true ∧
      p' = with_pvc_meta p (attributed_meta ClassDataVolumes (pvc_meta p))
  | UpdateSecret s' => ∃ l s, Ev (ListSecrets Cached ns) (Ok l) ∈ h ∧ s ∈ l ∧ legacy_key n s = true ∧
      s' = mkSecret (attributed_meta ClassGeneratedKeys (secret_meta s)) (secret_Immutable s) (secret_Data s)
  | _ => False
  end.

Lemma attribute_durable_spec P class d h :
  spec P h (update_durable (with_durable_meta d (attributed_meta class (durable_meta d)))) (λ _ _, True) →
  spec P h (attribute_durable owner class d) (λ _ _, True).
Proof.
  intros Hu. unfold attribute_durable, attributed_meta in *.
  destruct (PrepareGeneratedResource _ _ _ _) as [managed [m changed]]. simpl in *.
  by destruct (managed && changed).
Qed.

Lemma attribute_volumes_spec h : spec attribute_permitted h (attributeControlledLegacyDataVolumes n) (λ _ _, True).
Proof.
  unfold attributeControlledLegacyDataVolumes. rewrite spec_try. simpl. split; [done|]. intros [pvcs|e]; [|done].
  apply (for_each_call_permitted _ (elem_of (Ev (ListPVCs Cached ns) (Ok pvcs)))); [|by left].
  intros p h' Hp Hl. destruct (legacy_volume n p) eqn:E; [|done]. apply attribute_durable_spec. simpl.
  split; [by exists pvcs, p|]. by intros [].
Qed.

Lemma attribute_keys_spec h : spec attribute_permitted h (attributeControlledLegacyKeys n) (λ _ _, True).
Proof.
  unfold attributeControlledLegacyKeys. rewrite spec_try. simpl. split; [done|]. intros [secrets|e]; [|done].
  apply (for_each_call_permitted _ (elem_of (Ev (ListSecrets Cached ns) (Ok secrets)))); [|by left].
  intros s h' Hs Hl. destruct (legacy_key n s) eqn:E; [|done]. apply attribute_durable_spec. simpl.
  split; [by exists secrets, s|done].
Qed.

(** The deletion policy in force: that of the set which was read under the UID the node names as its
    controller; the node's own when it names none, when the set was seen absent, or when another set
    was read under its name. *)
Definition policy_seen (p : option DeletionPolicy) (h : list kevent) : Prop :=
  match parent_reference n with
  | None => p = ns_DeletionPolicy (cn_Spec n)
  | Some c =>
      (∃ s, Ev (GetChainNodeSet Cached ns (or_Name c)) (Ok s) ∈ h ∧
         p = if cns_UID s == or_UID c then ss_DeletionPolicy (cns_Spec s) else ns_DeletionPolicy (cn_Spec n)) ∨
      (Ev (GetChainNodeSet Cached ns (or_Name c)) (Err (ApiError ReasonNotFound)) ∈ h ∧ p = ns_DeletionPolicy (cn_Spec n))
  end.
#[export] Instance policy_seen_stable p : Stable (policy_seen p).
Proof. unfold policy_seen. destruct (parent_reference n); apply _. Qed.

(** No set of a listing claims the node while the node belongs to another root. *)
Definition not_orphaned (h : list kevent) : Prop :=
  ∃ sets, Ev (ListChainNodeSets Cached (Some ns)) (Ok sets) ∈ h ∧
    Forall (λ s, ClaimsChild s n = true → root = RootOwnerFor (OwnerChainNodeSet s)) sets.
#[export] Instance not_orphaned_stable : Stable not_orphaned.
Proof. unfold not_orphaned. apply _. Qed.

(** The raft state of the node's own signer is dealt with. *)
Definition signer_finalized (p : option DeletionPolicy) (h : list kevent) : Prop :=
  owner_quiesced owner ns h ∧ claims_idle owner ns h ∧
  class_settled root ClassCosmosignerState (GetCosmosignerState p) (cn_UID n) [RetainedStateFinalizer] h.

(** Every workload of the node is gone, the requests so far were made under this policy, and the
    node is finalized under its own root. *)
Definition ready_to_finalize (p : option DeletionPolicy) (h : list kevent) : Prop :=
  policy_seen p h ∧ not_orphaned h ∧ node_quiesced h.

Definition released_node : ChainNode := with_cn_meta n (remove_finalizers (cn_meta n) cleanup_finalizers).1.

#[export] Instance owner_quiesced_stable : Stable (owner_quiesced owner ns).
Proof. intros h h' Hs [Hj Hq]. split; [by eapply key_jobs_gone_suffix|by eapply signers_quiesced_suffix]. Qed.
#[export] Instance claims_idle_stable : Stable (claims_idle owner ns).
Proof.
  intros h h' Hs (l & Hl & Hi). exists l. split; [by eapply stable_seen|].
  intros pvc Hin. eapply claim_idle_suffix; [exact Hs|auto].
Qed.
#[export] Instance signer_finalized_stable p : Stable (signer_finalized p).
Proof. unfold signer_finalized. apply _. Qed.
#[export] Instance ready_to_finalize_stable p : Stable (ready_to_finalize p).
Proof. unfold ready_to_finalize. apply _. Qed.

(** The order of a finalization: the signer is stopped and its state given up only after the pods
    are gone, the durables are touched only after the signer is finalized, and the finalizers of the
    node are removed only once all durables are settled. *)
Definition finalize_node_permitted (h : list kevent) (r : request) : Prop :=
  match r with GetChainNodeSet Cached _ _ | ListChainNodeSets Cached _ => True | _ => False end ∨
  quiesce_node_permitted h r ∨
  ∃ p, ready_to_finalize p h ∧
    (finalize_permitted owner ns (GetCosmosignerState p) h r ∨
     signer_finalized p h ∧
       (attribute_permitted h r ∨ durables_permitted root p (cn_UID n) h r ∨
        durables_settled root p (cn_UID n) h ∧ r = UpdateChainNode released_node)).

Lemma effectiveDeletionPolicy_spec h :
  spec finalize_node_permitted h (effectiveDeletionPolicy n) (λ h' r, ∀ p, r = Ok p → policy_seen p h').
Proof.
  unfold effectiveDeletionPolicy, policy_seen. destruct (parent_reference n) as [c|]; simpl; [|by intros p [= <-]].
  split; [by left|]. intros [s|e]; simpl.
  - destruct (cns_UID s == or_UID c) eqn:E; simpl; intros p [= <-]; left; exists s; (split; [by left|]; by rewrite E).
  - unfold IsNotFound. destruct (bool_decide_reflect (e = ApiError ReasonNotFound)) as [->|]; simpl; [|done].
    intros p [= <-]. right. split; [by left|done].
Qed.

Lemma refuseOrphanedRecordedChild_spec h :
  spec finalize_node_permitted h (refuseOrphanedRecordedChild n) (λ h' r, r = Ok () → not_orphaned h').
Proof.
  unfold refuseOrphanedRecordedChild. rewrite spec_try. simpl. split; [by left|]. intros [sets|e]; [|done].
  destruct (find _ sets) eqn:E; [done|]. intros _. exists sets. split; [by left|].
  apply Forall_forall. intros s Hs Hc. pose proof (find_none _ _ E s (proj1 (list_elem_of_In _ _) Hs)) as Ho.
  unfold orphaned_from in Ho. rewrite Hc in Ho. by apply negb_false_iff, bool_decide_eq_true in Ho.
Qed.

Lemma FinalizeOwner_finalized p h :
  spec (finalize_permitted owner ns (GetCosmosignerState p)) h (FinalizeOwner owner ns (GetCosmosignerState p))
    (λ h' r, r = Ok true → signer_finalized p h').
Proof.
  eapply spec_conseq; [apply FinalizeOwner_finalizes|]. intros h' r _ Hr Hok. by destruct (Hr Hok) as (? & ? & ?).
Qed.

Lemma release_node_spec P h Q :
  P h (UpdateChainNode released_node) → (∀ h' b, h `suffix_of` h' → Q h' b) → spec P h (release_node n) Q.
Proof.
  intros HP HQ. unfold release_node, released_node in *. destruct (remove_finalizers _ _) as [m []]; simpl in *; [|by apply HQ].
  split; [done|]. intros [x|e]; simpl; apply HQ; by eexists [_].
Qed.

(** What holds when a finalization reports the node done. *)
Definition node_finalized (h : list kevent) : Prop :=
  ∃ p, ready_to_finalize p h ∧ signer_finalized p h ∧ durables_settled root p (cn_UID n) h.

#[local] Opaque attributeControlledLegacyDataVolumes attributeControlledLegacyKeys finalize_durables release_node
  quiesceNodePod FinalizeOwner refuseOrphanedRecordedChild effectiveDeletionPolicy.

(** A step of the finalization after the signer is done. *)
Lemma after_signer p h0 h r :
  ready_to_finalize p h0 → signer_finalized p h0 → h0 `suffix_of` h →
  attribute_permitted h r ∨ durables_permitted root p (cn_UID n) h r ∨
    durables_settled root p (cn_UID n) h ∧ r = UpdateChainNode released_node →
  finalize_node_permitted h r.
Proof.
  intros Hr Hf Hs Ho. do 2 right. exists p. split; [by eapply ready_to_finalize_stable|]. right.
  split; [by eapply signer_finalized_stable|done].
Qed.

Lemma finalize_tail_spec p h :
  ready_to_finalize p h → signer_finalized p h →
  spec finalize_node_permitted h
    (attributeControlledLegacyDataVolumes n ;?
     attributeControlledLegacyKeys n ;?
     done ←? finalize_durables root p (cn_UID n);
     if negb done then return_result false else release_node n)
    (λ h' r, r = Ok true → node_finalized h').
Proof.
  intros Hr Hf. rewrite spec_try.
  eapply spec_mono; [apply spec_suffix, attribute_volumes_spec|intros h1 q Hs Hq; eapply after_signer; eauto|].
  intros h1 [[]|e] _ [S1 _]; [|done]. rewrite spec_try.
  eapply spec_mono; [apply spec_suffix, attribute_keys_spec|
    intros h2 q Hs Hq; eapply after_signer; [exact Hr|exact Hf|by etrans|eauto]|].
  intros h2 [[]|e] _ [S2 _]; [|done].
  apply (spec_when_done _ _ _ _ _ (λ h, h2 `suffix_of` h ∧ durables_settled root p (cn_UID n) h)); [|intros h3 S3 [_ Hd]|done|done].
  - eapply spec_mono; [apply spec_suffix, finalize_durables_spec| |].
    + intros h3 q Hs Hq. eapply after_signer; [exact Hr|exact Hf| |by auto]. etrans; [exact S1|]. by etrans.
    + intros h3 r _ [S3 H3] Hok. by split; [exact S3|apply H3].
  - assert (h `suffix_of` h3) as S by (etrans; [exact S1|]; by etrans).
    apply release_node_spec.
    + eapply after_signer; [exact Hr|exact Hf|exact S|auto].
    + intros h4 b S4 _. assert (h `suffix_of` h4) as S' by by etrans. exists p.
      split; [by eapply ready_to_finalize_stable|]. split; [by eapply signer_finalized_stable|].
      eapply durables_settled_stable; [exact S4|exact Hd].
Qed.

Lemma finalizeResources_finalizes h :
  spec finalize_node_permitted h (finalizeResources n) (λ h' r, r = Ok true → node_finalized h').
Proof.
  unfold finalizeResources. rewrite spec_try.
  eapply spec_conseq; [apply effectiveDeletionPolicy_spec|]. intros h1 [p|e] _ Hp; [|done].
  specialize (Hp p eq_refl). rewrite spec_try.
  eapply spec_conseq; [by eapply spec_keep, refuseOrphanedRecordedChild_spec; [apply (policy_seen_stable p)|]|].
  intros h2 [[]|e] _ [Hp2 Ho]; [|done]. specialize (Ho eq_refl).
  apply (spec_when_done _ _ _ _ _ (ready_to_finalize p)); [|intros h3 S3 Hr|done|done].
  - eapply spec_mono; [eapply (spec_keep _ _ _ _ (λ h, policy_seen p h ∧ not_orphaned h)); [apply _|done|apply quiesceNodePod_spec]|..].
    + intros h3 r _ Hr. right; by left.
    + intros h3 r _ [[] H3] Hok. by split_and!; [| |apply H3].
  - apply (spec_when_done _ _ _ _ _ (λ h, ready_to_finalize p h ∧ signer_finalized p h)); [|intros h4 S4 [??]|done|done].
    + eapply spec_mono; [eapply (spec_keep _ _ _ _ (ready_to_finalize p)); [apply _|done|apply FinalizeOwner_finalized]|..].
      * intros h4 r Hs Hq. do 2 right. exists p. split; [by eapply ready_to_finalize_stable|by left].
      * intros h4 r _ [? H4] Hok. auto.
    + by apply finalize_tail_spec.
Qed.

(** *** A terminating namespace *)

#[export] Instance namespace_quiesced_stable : Stable (namespace_quiesced owner ns).
Proof.
  intros h h' Hs (Hj & sets & pvcs & pods & H1 & H2 & H3 & Hp & Hq). split; [by eapply key_jobs_gone_suffix|].
  exists sets, pvcs, pods. split_and!; [by eapply stable_seen..| |].
  - intros pod Hin. eapply pod_settled_suffix; [exact Hs|auto].
  - intros sts Hin Ho. eapply elem_of_suffix; [by apply Hq|exact Hs].
Qed.

(** The claims whose retention finalizer is released. *)
Definition release_permitted (h : list kevent) (r : request) : Prop :=
  match r with
  | ListPVCs Cached _ => True
  | UpdatePVC p' => ∃ l p, Ev (ListPVCs Cached ns) (Ok l) ∈ h ∧ p ∈ l ∧ releasable owner p = true ∧
      ContainsFinalizer (pvc_meta p) RetainedStateFinalizer = true ∧ p' = without_retention p
  | _ => False
  end.

Lemma ReleaseOwnerStateFinalizers_spec h :
  spec release_permitted h (ReleaseOwnerStateFinalizers owner ns) (λ _ _, True).
Proof.
  unfold ReleaseOwnerStateFinalizers. rewrite spec_try. simpl. split; [done|]. intros [pvcs|e]; [|done].
  apply (for_each_call_permitted _ (elem_of (Ev (ListPVCs Cached ns) (Ok pvcs)))); [|by left].
  intros p h' Hp Hl. unfold release_claim. destruct (releasable owner p) eqn:Er; [|done].
  destruct (ContainsFinalizer _ _) eqn:Ef; [|done]. simpl. split; [by exists pvcs, p|].
  intros [x|e]; simpl; [done|]. by destruct (IsNotFound e).
Qed.

(** In a terminating namespace nothing durable is deleted: claims lose their retention finalizer
    once the pods of the node and its signers are gone, and then the node its cleanup finalizers. *)
Definition terminate_node_permitted (h : list kevent) (r : request) : Prop :=
  quiesce_node_permitted h r ∨
  node_quiesced h ∧
    (terminate_permitted owner ns h r ∨
     namespace_quiesced owner ns h ∧ (release_permitted h r ∨ r = UpdateChainNode released_node)).

#[local] Opaque ReleaseOwnerStateFinalizers QuiesceOwnerForNamespaceTermination.
Lemma finalizeTerminatingNamespace_permitted h :
  spec terminate_node_permitted h (finalizeTerminatingNamespace n)
    (λ h' r, r = Ok true → node_quiesced h' ∧ namespace_quiesced owner ns h').
Proof.
  unfold finalizeTerminatingNamespace.
  apply (spec_when_done _ _ _ _ _ node_quiesced); [|intros h1 _ Hn|done|done].
  { eapply spec_mono; [apply quiesceNodePod_spec|by intros h' r _ Hr; left|done]. }
  apply (spec_when_done _ _ _ _ _ (λ h, node_quiesced h ∧ namespace_quiesced owner ns h)); [|intros h2 _ [Hn2 Hq]|done|done].
  { eapply spec_mono; [eapply (spec_keep _ _ _ _ node_quiesced); [apply _|done|apply QuiesceOwnerForNamespaceTermination_quiesces]|..].
    - intros h2 r Hs Hr. right. split; [by eapply node_quiesced_stable|by left].
    - intros h2 r _ [? H2] Hok. auto. }
  rewrite spec_try.
  assert (∀ h', h2 `suffix_of` h' → node_quiesced h' ∧ namespace_quiesced owner ns h') as Hst.
  { intros h' Hs. split; [by eapply node_quiesced_stable|by eapply namespace_quiesced_stable]. }
  eapply spec_mono; [apply spec_suffix, ReleaseOwnerStateFinalizers_spec|..].
  { intros h' r Hs Hr. right. destruct (Hst _ Hs). auto. }
  intros h3 [[]|e] _ [S3 _]; [|done]. destruct (Hst _ S3). apply release_node_spec; [right; auto|].
  intros h4 b S4 _. apply Hst. by etrans.
Qed.

(** C23: a node is finalized in order, whatever the API server answers: its pods go first, deleted
    by the UID they were listed with and only when the node controls them; the signer is quiesced
    and its raft state settled only after no pod of the node was left; volumes and keys are
    attributed, deleted or handed over - by the deletion policy of the set that controls the node,
    or its own when it names no such set, that set was answered to be absent, or another was read
    under its name - only after that; and the cleanup finalizers are removed only once both classes
    are settled and no listed set claims the node for another root.  When it reports the node done,
    all of this was observed. *)
Theorem finalizeResources_spec h :
  spec finalize_node_permitted h (finalizeResources n) (λ h' r, r = Ok true → node_finalized h').
Proof. apply finalizeResources_finalizes. Qed.

(** In a terminating namespace the finalizers of a node and of its signers' claims are removed only
    after its pods and the pods of its signers were seen gone; no volume, key or state is deleted. *)
Theorem finalizeTerminatingNamespace_spec h :
  spec terminate_node_permitted h (finalizeTerminatingNamespace n)
    (λ h' r, r = Ok true → node_quiesced h' ∧ namespace_quiesced owner ns h').
Proof. apply finalizeTerminatingNamespace_permitted. Qed.
End promises.
