(* ===== verification/SetFinalize.v ===== *)
(** * Finalizing a deleted set ([internal/controllers/chainnodeset/resource_cleanup.go])

    A deleted [ChainNodeSet] stops its signers, deletes its children and settles
    what each of them left, stops its seed nodes, and only then gives up the
    durable resources of its own and its finalizers.  Also the migration of
    resources made before they carried attributions. *)

From S2P Require Import Prelude GoLib IO ThirdParty ApiTypes KubeApi SignerResolve Getters UniqueSecrets DerivedServices.
From S2P Require Import SigningNames SigningPaths ResourceCleanup Migration Deploy Teardown NodeFinalize.

(** [p2p.NodeKey] is read by the cometbft library. *)
Class CometApi := {
  (** [json.Unmarshal] into a [p2p.NodeKey] and the identifier of its public key. *)
  GetNodeID : string → result string;
}.

Definition podDisruptionBudgetFinalizer : string := "cosmopilot.voluzi.com/pdb-cleanup".

(** ** Names *)

Definition hasCanonicalOrdinal (name prefix : string) : bool :=
  let suffix := TrimPrefix name prefix in
  if (suffix == name) || (suffix == "") then false
  else match ParseInt 64 suffix with
       | Ok ordinal => (0 <=? ordinal)%Z && (FormatInt ordinal == suffix)
       | Err _ => false
       end.

Definition seed_name (s : ChainNodeSet) : string := cns_Name s +:+ "-seed".
Definition isCosmoseedDataVolume (s : ChainNodeSet) (pvc : PersistentVolumeClaim) : bool :=
  hasCanonicalOrdinal (pvc_Name pvc) ("data-" +:+ cns_Name s +:+ "-seed-").

(** [removeControllerReferenceByUID] filters in the same way as the one of [resourcecleanup]. *)
Definition removeControllerReferenceByUID (m : ObjectMeta) (uid : string) : ObjectMeta * bool :=
  removeMatchingControllerReference m uid.

(** The genesis validators a generated group adds: one for each instance after the first. *)
Definition groupGenesisValidators (s : ChainNodeSet) (group : string) (instances : Z) (cfg : NodeSetValidatorConfig) :
    list GenesisValidator :=
  match nv_Init cfg with
  | None => []
  | Some init =>
      if (instances <=? 1)%Z || IsCosmosignerTargetGroup s group then []
      else map (λ i,
             let name := GeneratedValidatorNodeName s group i in
             mkGenesisValidator (name +:+ "-priv-key") (name +:+ "-account") name (gn_Assets init) (gn_StakeAmount init))
             (drop 1 (indices instances))
  end.

(** The names of the generated keys of a set. *)
Definition known_key_names (s : ChainNodeSet) : list string :=
  (cns_Name s +:+ "-cosmoseed") ::
  (g ← ss_Nodes (cns_Spec s);
   match ng_Validator g with
   | None => []
   | Some v =>
       gv ← groupGenesisValidators s (ng_Name g) (GetInstances g) v;
       [gv_AccountMnemonicSecret gv; gv_PrivKeySecret gv]
   end).

(** A loop that one element may end: [None] returns [false] at once. *)
Fixpoint all_unless {A} (f : A → kube (result (option bool))) (allDone : bool) (l : list A) : kube (result bool) :=
  match l with
  | [] => return_result allDone
  | x :: l =>
      o ←? f x;
      match o with
      | None => return_result false
      | Some d => all_unless f (allDone && d) l
      end
  end.

(** Both stamps of a resource of the root itself. *)
Definition stamp_owned (m : ObjectMeta) (root : RootOwner) (class : ResourceClass) (uid : string) : ObjectMeta * bool :=
  let '(m, stamped) := Stamp m root class in
  let '(m, owned) := StampResourceOwner m uid in (m, stamped || owned).

Definition update_pvc_if_found (pvc : PersistentVolumeClaim) : kube (result ()) :=
  ignoring_not_found (call (UpdatePVC pvc) ;? return_result ()) (return_result ()).

Section set.
Context `{MetaApi} `{ApplyApi} `{CometApi}.

(** ** Attribution *)

Definition attribute_seed_volume (s : ChainNodeSet) (pvc : PersistentVolumeClaim) : kube (result ()) :=
  let root := RootOwnerFor (OwnerChainNodeSet s) in
  if negb (isCosmoseedDataVolume s pvc) || negb (IsAttributed (pvc_meta pvc) root ClassDataVolumes) then return_result ()
  else
    let '(m, changed) := stamp_owned (pvc_meta pvc) root ClassDataVolumes (cns_UID s) in
    if changed then update_pvc_if_found (with_pvc_meta pvc m) else return_result ().

Definition attributeCosmoseedDataVolumes (s : ChainNodeSet) : kube (result ()) :=
  pvcs ←? call (ListPVCs Cached (cns_Namespace s));
  for_each_call (attribute_seed_volume s) pvcs.

Definition attribute_legacy_seed_volume (s : ChainNodeSet) (seed : StatefulSet) (pvc : PersistentVolumeClaim) :
    kube (result ()) :=
  if negb (isCosmoseedDataVolume s pvc) || negb (IsControlledBy (pvc_meta pvc) (sts_meta seed)) then return_result ()
  else
    let '(m, stamped) := stamp_owned (pvc_meta pvc) (RootOwnerFor (OwnerChainNodeSet s)) ClassDataVolumes (cns_UID s) in
    let '(m, released) := removeControllerReferenceByUID m (meta_UID (sts_meta seed)) in
    if stamped || released then update_pvc_if_found (with_pvc_meta pvc m) else return_result ().

Definition attributeControlledLegacyCosmoseedDataVolumes (s : ChainNodeSet) : kube (result ()) :=
  r ← call (GetStatefulSet Cached (cns_Namespace s) (seed_name s));
  match r with
  | Err e => if IsNotFound e then return_result () else return_error e
  | Ok seed =>
      if negb (IsControlledBy (sts_meta seed) (cns_meta s)) then return_result ()
      else
        pvcs ←? call (ListPVCs Cached (cns_Namespace s));
        for_each_call (attribute_legacy_seed_volume s seed) pvcs
  end.

Definition isLegacyCosmoseedKeySecret (s : ChainNodeSet) (secret : Secret) : bool :=
  if (meta_Name (secret_meta secret) != cns_Name s +:+ "-cosmoseed") || is_some (GetControllerOf (secret_meta secret)) ||
     (size (secret_Data secret) =? 0)%nat then false
  else forallb (λ '(name, key),
         hasCanonicalOrdinal name (cns_Name s +:+ "-seed-") && match GetNodeID key with Ok _ => true | Err _ => false end)
         (map_to_list (secret_Data secret)).

(** A secret of the set that is not attributed yet: its metadata as it should be, and whether it changes. *)
Definition legacy_set_key (s : ChainNodeSet) (secret : Secret) : option (ObjectMeta * bool) :=
  let m := secret_meta secret in
  let root := RootOwnerFor (OwnerChainNodeSet s) in
  let attributedUID := annotation m AnnotationRootOwnerUID in
  if (attributedUID != "") && (attributedUID != cns_UID s) then None
  else if negb (IsLegacyGeneratedKeySecret secret (known_key_names s)) ||
          (negb (IsControlledBy m (cns_meta s)) && negb (isLegacyCosmoseedKeySecret s secret)) ||
          IsAttributed m root ClassGeneratedKeys then None
  else if IsControlledBy m (cns_meta s) then
    let '(managed, (m, prepared)) := PrepareGeneratedResource m (OwnerChainNodeSet s) ClassGeneratedKeys false in
    Some (m, managed && prepared)
  else Some (stamp_owned m root ClassGeneratedKeys (cns_UID s)).

Definition set_attributeControlledLegacyKeys (s : ChainNodeSet) : kube (result ()) :=
  secrets ←? call (ListSecrets Cached (cns_Namespace s));
  for_each_call (λ secret,
    match legacy_set_key s secret with
    | Some (m, true) => call (UpdateSecret (mkSecret m (secret_Immutable secret) (secret_Data secret)))
    | _ => return_result ()
    end) secrets.

(** ** Children

    [quiesceChildPod], [isLegacyChildGeneratedKeySecret] and the loops of
    [attributeControlledLegacyChildResources] repeat those of the node's own controller. *)

Definition quiesceChildPod (child : ChainNode) : kube (result bool) := quiesceNodePod child.
Definition attributeControlledLegacyChildResources (child : ChainNode) : kube (result ()) :=
  attributeControlledLegacyDataVolumes child ;? attributeControlledLegacyKeys child.

Definition finalizeChildDurableResources (s : ChainNodeSet) (child : ChainNode) : kube (result bool) :=
  attributeControlledLegacyChildResources child ;?
  done ←? finalize_durables (RootOwnerFor (OwnerChainNode child)) (ss_DeletionPolicy (cns_Spec s)) (cn_UID child);
  if negb done then return_result false
  else ignoring_not_found (call (UpdateChainNode (with_cn_meta child (RemoveFinalizer (cn_meta child) Finalizer))))
         (return_result true).

Definition child_controlled (s : ChainNodeSet) (child : ChainNode) : bool := IsControlledBy (cn_meta child) (cns_meta s).

Definition adopt_child (s : ChainNodeSet) (child : ChainNode) : kube (result ChainNode) :=
  match SetControllerReference (cns_meta s) (cn_meta child) with
  | Err e => return_error e
  | Ok m => call (UpdateChainNode (with_cn_meta child m)) ;? return_result (with_cn_meta child m)
  end.

Definition protect_child (child : ChainNode) : kube (result ()) :=
  if ContainsFinalizer (cn_meta child) Finalizer then return_result ()
  else call (UpdateChainNode (with_cn_meta child (AddFinalizer (cn_meta child) Finalizer))) ;? return_result ().

Definition quiesce_child (s : ChainNodeSet) (child : ChainNode) : kube (result (option bool)) :=
  let controlled := child_controlled s child in
  let '(recordedName, recordedUID) := RecordedChildIdentity s child in
  if negb controlled && negb recordedUID then
    if recordedName then
      return_error (Errorf "refusing cleanup of ChainNode %s/%s UID %s because it does not match the UID recorded by ChainNodeSet %s"
        [AStr (cn_Namespace child); AStr (cn_Name child); AStr (cn_UID child); AStr (cns_Name s)])
    else return_result (Some true)
  else
    match (if controlled then None else GetControllerOf (cn_meta child)) with
    | Some c => return_error (Errorf "refusing cleanup of recorded ChainNode %s/%s UID %s controlled by %s UID %s"
                  [AStr (cn_Namespace child); AStr (cn_Name child); AStr (cn_UID child); AStr (or_Name c); AStr (or_UID c)])
    | None =>
        if negb controlled then adopt_child s child ;? return_result None
        else if negb (is_some (meta_DeletionTimestamp (cn_meta child))) then
          protect_child child ;?
          ignoring_not_found (call (DeleteChainNode (cn_Namespace child) (cn_Name child) (cn_UID child)))
            (return_result (Some false))
        else
          podDone ←? quiesceChildPod child;
          if negb podDone then return_result (Some false) else
          childDone ←? finalizeChildDurableResources s child;
          if negb childDone then return_result (Some false) else
          confirm_absent (call (GetChainNode Cached (cn_Namespace child) (cn_Name child)))
            (return_result (Some false)) (return_result (Some true))
    end.

Definition quiesceAndDeleteChildren (s : ChainNodeSet) : kube (result bool) :=
  children ←? call (ListChainNodes Cached (Some (cns_Namespace s)));
  all_unless (quiesce_child s) true children.

(** ** Seed nodes *)

Definition canonicalSeedPodsGone (s : ChainNodeSet) (seedName : string) : kube (result bool) :=
  pods ←? call (ListPods Cached (cns_Namespace s));
  return_result (negb (existsb (λ pod, hasCanonicalOrdinal (pod_Name pod) (seedName +:+ "-")) pods)).

Definition delete_controlled_pod (owner : ObjectMeta) (pod : Pod) : kube (result bool) :=
  let controlled := IsControlledBy (pod_meta pod) owner in
  if negb controlled && negb (hasCanonicalOrdinal (pod_Name pod) (meta_Name owner +:+ "-")) then return_result true
  else if negb controlled then
    return_error (Errorf "refusing to delete StatefulSet %s/%s while canonical pod %s/%s %s instead of StatefulSet UID %s; restore the expected controller reference, or delete the drifted pod and wait for it to terminate"
      ([AStr (meta_Namespace owner); AStr (meta_Name owner); AStr (meta_Namespace (pod_meta pod)); AStr (pod_Name pod)] ++
       ownership_args (GetControllerOf (pod_meta pod)) ++ [AStr (meta_UID owner)]))
  else delete_pod pod.

Definition deleteControlledPods (owner : ObjectMeta) : kube (result bool) :=
  pods ←? call (ListPods Cached (meta_Namespace owner));
  all_of (delete_controlled_pod owner) true pods.

Definition quiesce_foreign_seed (s : ChainNodeSet) (sts : StatefulSet) : kube (result bool) :=
  pods ←? call (ListPods Cached (cns_Namespace s));
  let podsPresent := existsb (λ pod, IsControlledBy (pod_meta pod) (sts_meta sts) ||
                                     hasCanonicalOrdinal (pod_Name pod) (sts_Name sts +:+ "-")) pods in
  if negb podsPresent && ((sts_Replicas sts == Some 0%Z) || is_some (meta_DeletionTimestamp (sts_meta sts)))
  then return_result true
  else return_error (Errorf "refusing durable cleanup while Cosmoseed StatefulSet %s/%s %s; restore its ChainNodeSet UID %s controller reference, or scale/delete it and wait for all seed pods to terminate"
         ([AStr (meta_Namespace (sts_meta sts)); AStr (sts_Name sts)] ++ ownership_args (GetControllerOf (sts_meta sts)) ++
          [AStr (cns_UID s)])).

Definition quiesce_own_seed (sts : StatefulSet) : kube (result bool) :=
  let m := sts_meta sts in
  if sts_Replicas sts != Some 0%Z then
    call (UpdateStatefulSet (with_replicas sts 0)) ;? return_result false
  else
    podsDone ←? deleteControlledPods m;
    if negb podsDone then return_result false else
    let confirm := confirm_absent (call (GetStatefulSet Cached (meta_Namespace m) (meta_Name m)))
                     (return_result false) (return_result true) in
    match meta_DeletionTimestamp m with
    | None => ignoring_not_found (call (DeleteStatefulSetReq (meta_Namespace m) (meta_Name m) (meta_UID m))) confirm
    | Some _ => confirm
    end.

Definition quiesceCosmoseed (s : ChainNodeSet) : kube (result bool) :=
  r ← call (GetStatefulSet Cached (cns_Namespace s) (seed_name s));
  match r with
  | Err e => if IsNotFound e then canonicalSeedPodsGone s (seed_name s) else return_error e
  | Ok sts =>
      if negb (IsControlledBy (sts_meta sts) (cns_meta s)) then quiesce_foreign_seed s sts else quiesce_own_seed sts
  end.

(** ** Finalizing *)

Definition release_set (s : ChainNodeSet) (finalizers : list string) : kube (result bool) :=
  let '(m, changed) := remove_finalizers (cns_meta s) finalizers in
  if changed : bool then call (UpdateChainNodeSet (with_cns_meta s m)) ;? return_result true else return_result true.

Definition set_finalizeResources (s : ChainNodeSet) : kube (result bool) :=
  let policy := ss_DeletionPolicy (cns_Spec s) in
  signerQuiesced ←? QuiesceOwner (OwnerChainNodeSet s) (cns_Namespace s);
  if negb signerQuiesced then return_result false else
  childrenDone ←? quiesceAndDeleteChildren s;
  if negb childrenDone then return_result false else
  attributeCosmoseedDataVolumes s ;?
  seedDone ←? quiesceCosmoseed s;
  if negb seedDone then return_result false else
  signerStateDone ←? FinalizeOwner (OwnerChainNodeSet s) (cns_Namespace s) (GetCosmosignerState policy);
  if negb signerStateDone then return_result false else
  set_attributeControlledLegacyKeys s ;?
  done ←? finalize_durables (RootOwnerFor (OwnerChainNodeSet s)) policy (cns_UID s);
  if negb done then return_result false else release_set s cleanup_finalizers.

Definition set_finalizeTerminatingNamespace (s : ChainNodeSet) : kube (result bool) :=
  signerQuiesced ←? QuiesceOwnerForNamespaceTermination (OwnerChainNodeSet s) (cns_Namespace s);
  if negb signerQuiesced then return_result false else
  childrenDone ←? quiesceAndDeleteChildren s;
  if negb childrenDone then return_result false else
  seedDone ←? quiesceCosmoseed s;
  if negb seedDone then return_result false else
  ReleaseOwnerStateFinalizers (OwnerChainNodeSet s) (cns_Namespace s) ;?
  release_set s (cleanup_finalizers ++ [podDisruptionBudgetFinalizer]).

(** ** Migration *)

Definition migrate_child (s : ChainNodeSet) (child : ChainNode) : kube (result ()) :=
  let controlled := child_controlled s child in
  if negb controlled && negb (RecordedChildIdentity s child).2 then return_result ()
  else if is_some (GetControllerOf (cn_meta child)) && negb controlled then return_result ()
  else if negb controlled then
    child ←? adopt_child s child;
    attributeControlledLegacyChildResources child
  else attributeControlledLegacyChildResources child.

Definition set_MigrateLegacyDurableResources (s : ChainNodeSet) : kube (result bool) :=
  set_attributeControlledLegacyKeys s ;?
  attributeControlledLegacyCosmoseedDataVolumes s ;?
  children ←? call (ListChainNodes Cached (Some (cns_Namespace s)));
  for_each_call (migrate_child s) children ;?
  ProtectRetainedStatePVCs (OwnerChainNodeSet s) (cns_Namespace s).
End set.

(** ** Calls that confirm a deletion *)

Lemma all_unless_spec {A} P (f : A → kube (result (option bool))) (G : A → list kevent → Prop) b l h :
  (∀ x, Stable (G x)) →
  (∀ x h', x ∈ l → h `suffix_of` h' → spec P h' (f x) (λ h'' r, r = Ok (Some true) → G x h'')) →
  spec P h (all_unless f b l) (λ h' r, r = Ok true → b = true ∧ ∀ x, x ∈ l → G x h').
Proof.
  intros HS. revert b h. induction l as [|x l IH]; intros b h Hf; simpl.
  { intros [= ->]. split; [done|]. intros x Hx. by apply elem_of_nil in Hx. }
  rewrite spec_try. eapply spec_conseq; [apply spec_suffix, Hf; [by left|done]|].
  intros h1 [[d|]|e] _ [S1 H1]; [|done|done].
  eapply spec_conseq; [apply spec_suffix, IH|].
  { intros y h' Hy Hs. apply Hf; [by right|by etrans]. }
  intros h2 r _ [S2 H2] Hr. destruct (H2 Hr) as [[-> ->]%andb_true_iff Hl]. split; [done|].
  intros y [->|Hy]%elem_of_cons; [|by apply Hl]. eapply HS; [exact S2|]. by apply H1.
Qed.

Section quiesce.
Context `{MetaApi}.

Lemma delete_pod_under P pod h :
  (∀ h', h `suffix_of` h' → P h' (GetPod Cached (meta_Namespace (pod_meta pod)) (pod_Name pod))) →
  P h (DeletePod (meta_Namespace (pod_meta pod)) (pod_Name pod) (meta_UID (pod_meta pod))) →
  spec P h (delete_pod pod) (λ h' r, r = Ok true → pod_absent pod h').
Proof.
  intros Hget Hdel.
  assert (∀ h', h `suffix_of` h' → spec P h'
    (confirm_absent (call (GetPod Cached (meta_Namespace (pod_meta pod)) (meta_Name (pod_meta pod))))
       (return_result false) (return_result true)) (λ h' r, r = Ok true → pod_absent pod h')) as Hc.
  { intros h' Hs. simpl. split; [by apply Hget|]. confirm_answers. intros _. by left. }
  unfold delete_pod, ignoring_not_found. destruct (meta_DeletionTimestamp _); [by apply Hc|].
  rewrite spec_mbind. simpl. split; [exact Hdel|].
  intros [[]|e]; [apply Hc; by eexists [_]|]. destruct (IsNotFound e); [apply Hc; by eexists [_]|done].
Qed.

(** *** Seed nodes *)

Variable s : ChainNodeSet.
Abbreviation ns := (cns_Namespace s).
Abbreviation root := (RootOwnerFor (OwnerChainNodeSet s)).
Abbreviation set_policy := (ss_DeletionPolicy (cns_Spec s)).

Definition seed_pod (seed : ObjectMeta) (pod : Pod) : bool :=
  IsControlledBy (pod_meta pod) seed || hasCanonicalOrdinal (pod_Name pod) (meta_Name seed +:+ "-").
Definition seed_pod_gone (seed : ObjectMeta) (pod : Pod) (h : list kevent) : Prop :=
  seed_pod seed pod = true → IsControlledBy (pod_meta pod) seed = true ∧ pod_absent pod h.
#[export] Instance seed_pod_gone_stable seed pod : Stable (seed_pod_gone seed pod).
Proof. intros h h' Hs Hg Hp. destruct (Hg Hp). split; [done|by eapply stable_seen]. Qed.

Definition seed_pods_gone (seed : ObjectMeta) (h : list kevent) : Prop :=
  ∃ pods, Ev (ListPods Cached (meta_Namespace seed)) (Ok pods) ∈ h ∧ ∀ pod, pod ∈ pods → seed_pod_gone seed pod h.
#[export] Instance seed_pods_gone_stable seed : Stable (seed_pods_gone seed).
Proof.
  unfold seed_pods_gone. apply stable_ex. intros pods. apply stable_and; [apply _|].
  intros h h' Hs Hp pod Hin. eapply seed_pod_gone_stable; [exact Hs|auto].
Qed.

Lemma deleteControlledPods_spec P seed h :
  (∀ h', h `suffix_of` h' → P h' (ListPods Cached (meta_Namespace seed))) →
  (∀ h' ns' n, h `suffix_of` h' → P h' (GetPod Cached ns' n)) →
  (∀ h' l pod, h `suffix_of` h' → Ev (ListPods Cached (meta_Namespace seed)) (Ok l) ∈ h' → pod ∈ l →
     IsControlledBy (pod_meta pod) seed = true →
     P h' (DeletePod (meta_Namespace (pod_meta pod)) (pod_Name pod) (meta_UID (pod_meta pod)))) →
  spec P h (deleteControlledPods seed) (λ h' r, r = Ok true → seed_pods_gone seed h').
Proof.
  intros Hl Hg Hd. unfold deleteControlledPods. rewrite spec_try. simpl. split; [by apply Hl|]. intros [pods|e]; [|done].
  eapply spec_conseq; [apply spec_suffix, (all_of_spec _ _ (seed_pod_gone seed))|].
  - intros pod h1 h2. apply seed_pod_gone_stable.
  - intros pod h1 Hin Hs. unfold delete_controlled_pod, seed_pod_gone, seed_pod.
    assert (h `suffix_of` h1) as Hs' by (etrans; [|exact Hs]; by eexists [_]).
    destruct (IsControlledBy (pod_meta pod) seed) eqn:Ec; simpl.
    + eapply spec_conseq; [apply delete_pod_under|].
      * intros h2 Hs2. apply Hg. by etrans.
      * eapply Hd; [done| |exact Hin|done]. eapply stable_seen; [exact Hs|by left].
      * intros h2 r _ Hr Hok _. auto.
    + destruct (hasCanonicalOrdinal _ _); simpl; [done|]. by intros _ ?.
  - intros h1 r _ [Hs Hr] Hok. exists pods. split; [eapply stable_seen; [exact Hs|by left]|by apply Hr].
Qed.

#[local] Opaque deleteControlledPods.

(** The seed nodes do not run: the set that runs them was seen gone after its pods, or there is
    none, or a foreign one is stopped, and no pod with a seed name was listed. *)
Definition no_seed_pods (stopped : Pod → bool) (h : list kevent) : Prop :=
  ∃ pods, Ev (ListPods Cached ns) (Ok pods) ∈ h ∧ existsb stopped pods = false.
Definition seed_quiesced (h : list kevent) : Prop :=
  ∃ r, Ev (GetStatefulSet Cached ns (seed_name s)) r ∈ h ∧
    match r with
    | Err e => IsNotFound e = true ∧ no_seed_pods (λ pod, hasCanonicalOrdinal (pod_Name pod) (seed_name s +:+ "-")) h
    | Ok sts =>
        if IsControlledBy (sts_meta sts) (cns_meta s)
        then sts_Replicas sts = Some 0%Z ∧ seed_pods_gone (sts_meta sts) h ∧ sts_absent sts h
        else no_seed_pods (seed_pod (sts_meta sts)) h ∧
             (sts_Replicas sts = Some 0%Z ∨ is_Some (meta_DeletionTimestamp (sts_meta sts)))
    end.

#[export] Instance no_seed_pods_stable f : Stable (no_seed_pods f).
Proof. unfold no_seed_pods. apply _. Qed.
#[export] Instance sts_absent_stable sts : Stable (sts_absent sts).
Proof. unfold sts_absent. apply _. Qed.
#[export] Instance seed_quiesced_stable : Stable seed_quiesced.
Proof.
  unfold seed_quiesced. apply stable_ex. intros [sts|e]; simpl; [destruct (IsControlledBy _ _)|]; apply _.
Qed.

(** The set of the seeds that was read and is this set's own. *)
Definition own_seed (sts : StatefulSet) (h : list kevent) : Prop :=
  Ev (GetStatefulSet Cached ns (seed_name s)) (Ok sts) ∈ h ∧ IsControlledBy (sts_meta sts) (cns_meta s) = true.
#[export] Instance own_seed_stable sts : Stable (own_seed sts).
Proof. unfold own_seed. apply _. Qed.

Definition seed_permitted (h : list kevent) (r : request) : Prop :=
  match r with
  | GetStatefulSet Cached _ _ | ListPods Cached _ | GetPod Cached _ _ => True
  | UpdateStatefulSet sts' => ∃ sts, own_seed sts h ∧ sts' = with_replicas sts 0
  | DeletePod pns name uid => ∃ sts l pod, own_seed sts h ∧ sts_Replicas sts = Some 0%Z ∧
      Ev (ListPods Cached (meta_Namespace (sts_meta sts))) (Ok l) ∈ h ∧ pod ∈ l ∧
      IsControlledBy (pod_meta pod) (sts_meta sts) = true ∧
      pns = meta_Namespace (pod_meta pod) ∧ name = pod_Name pod ∧ uid = meta_UID (pod_meta pod)
  | DeleteStatefulSetReq sns name uid => ∃ sts, own_seed sts h ∧ sts_Replicas sts = Some 0%Z ∧
      seed_pods_gone (sts_meta sts) h ∧
      sns = meta_Namespace (sts_meta sts) ∧ name = sts_Name sts ∧ uid = meta_UID (sts_meta sts)
  | _ => False
  end.

Lemma quiesce_own_seed_spec sts h :
  own_seed sts h →
  spec seed_permitted h (quiesce_own_seed sts) (λ h' r, r = Ok true →
    sts_Replicas sts = Some 0%Z ∧ seed_pods_gone (sts_meta sts) h' ∧ sts_absent sts h').
Proof.
  intros Ho. unfold quiesce_own_seed. destruct (bool_decide_reflect (sts_Replicas sts = Some 0%Z)) as [E|E]; simpl.
  2:{ split; [by exists sts|]. by intros []. }
  apply (spec_when_done _ _ _ _ _ (λ h, own_seed sts h ∧ seed_pods_gone (sts_meta sts) h)); [|intros h1 _ [Ho1 Hp]|done|done].
  { eapply spec_conseq; [eapply (spec_keep _ _ _ _ (own_seed sts)); [apply _|exact Ho|apply deleteControlledPods_spec]|].
    - done.
    - done.
    - intros h' l pod Hs Hl Hin Hc. exists sts, l, pod. split_and!; try done; by eapply own_seed_stable.
    - intros h' r _ [? Hr] Hok. auto. }
  assert (∀ h', h1 `suffix_of` h' → spec seed_permitted h'
    (confirm_absent (call (GetStatefulSet Cached (meta_Namespace (sts_meta sts)) (meta_Name (sts_meta sts))))
       (return_result false) (return_result true))
    (λ h2 r, r = Ok true → sts_Replicas sts = Some 0%Z ∧ seed_pods_gone (sts_meta sts) h2 ∧ sts_absent sts h2)) as Hc.
  { intros h' Hs. simpl. split; [done|]. confirm_answers. intros _. split; [done|]. split; [|by left].
    eapply seed_pods_gone_stable; [|exact Hp]. etrans; [exact Hs|]. by eexists [_]. }
  destruct (meta_DeletionTimestamp _); [by apply Hc|]. unfold ignoring_not_found. rewrite spec_mbind. simpl.
  split; [by exists sts|]. intros [[]|e]; [apply Hc; by eexists [_]|]. destruct (IsNotFound e); [apply Hc; by eexists [_]|done].
Qed.
#[local] Opaque quiesce_own_seed.

Lemma quiesceCosmoseed_spec h :
  spec seed_permitted h (quiesceCosmoseed s) (λ h' r, r = Ok true → seed_quiesced h').
Proof.
  unfold quiesceCosmoseed. rewrite spec_mbind. simpl. split; [done|]. intros [sts|e].
  - destruct (IsControlledBy (sts_meta sts) (cns_meta s)) eqn:Ec; simpl.
    + eapply spec_conseq; [apply spec_suffix, quiesce_own_seed_spec|].
      { split; [by left|done]. }
      intros h' r _ [Hs Hr] Hok. exists (Ok sts). split; [eapply stable_seen; [exact Hs|by left]|]. rewrite Ec. auto.
    + split; [done|]. intros [pods|e]; simpl; [|done].
      destruct (negb _ && _) eqn:E; [|done]. intros _. apply andb_true_iff in E as [Hn%negb_true_iff Hz%orb_true_iff]. exists (Ok sts). split; [by right; left|]. rewrite Ec.
      split; [exists pods; split; [by left|exact Hn]|]. destruct Hz as [Hz|Hz]; [to_prop; by left|right].
      by destruct (meta_DeletionTimestamp _).
  - destruct (IsNotFound e) eqn:En; [|done]. simpl. split; [done|].
    intros [pods|e']; [|done]. simpl. intros [= Hn%negb_true_iff]. exists (Err e). split; [by right; left|].
    split; [done|]. exists pods. split; [by left|done].
Qed.

(** *** Children *)

(** A listed node is not this set's, or it was seen gone after its pods and its durables. *)
Definition child_settled (child : ChainNode) (h : list kevent) : Prop :=
  if child_controlled s child
  then node_quiesced child h ∧ durables_settled (RootOwnerFor (OwnerChainNode child)) set_policy (cn_UID child) h ∧
       Ev (GetChainNode Cached (cn_Namespace child) (cn_Name child)) (Err (ApiError ReasonNotFound)) ∈ h
  else RecordedChildIdentity s child = (false, false).
#[export] Instance child_settled_stable child : Stable (child_settled child).
Proof. unfold child_settled. destruct (child_controlled s child); apply _. Qed.

Definition children_settled (h : list kevent) : Prop :=
  ∃ children, Ev (ListChainNodes Cached (Some ns)) (Ok children) ∈ h ∧ ∀ child, child ∈ children → child_settled child h.
#[export] Instance children_settled_stable : Stable children_settled.
Proof.
  unfold children_settled. apply stable_ex. intros l. apply stable_and; [apply _|].
  intros h h' Hs Hc child Hin. eapply child_settled_stable; [exact Hs|auto].
Qed.
End quiesce.

Section children.
Context `{MetaApi} `{ApplyApi}.
Variable s : ChainNodeSet.
Abbreviation ns := (cns_Namespace s).
Abbreviation root := (RootOwnerFor (OwnerChainNodeSet s)).
Abbreviation set_policy := (ss_DeletionPolicy (cns_Spec s)).

(** What one child may be asked for: a recorded child without a controller is adopted; a live child
    gets its finalizer and is deleted by the UID it was listed with; a deleted one has its pods
    stopped, then its durables settled, then it is released. *)
Definition child_request (child : ChainNode) (h : list kevent) (r : request) : Prop :=
  let child_root := RootOwnerFor (OwnerChainNode child) in
  if child_controlled s child then
    match meta_DeletionTimestamp (cn_meta child) with
    | None => r = UpdateChainNode (with_cn_meta child (AddFinalizer (cn_meta child) Finalizer)) ∨
              r = DeleteChainNode (cn_Namespace child) (cn_Name child) (cn_UID child)
    | Some _ =>
        quiesce_node_permitted child h r ∨
        node_quiesced child h ∧
          (attribute_permitted child h r ∨ durables_permitted child_root set_policy (cn_UID child) h r ∨
           durables_settled child_root set_policy (cn_UID child) h ∧
             (r = UpdateChainNode (with_cn_meta child (RemoveFinalizer (cn_meta child) Finalizer)) ∨
              r = GetChainNode Cached (cn_Namespace child) (cn_Name child)))
    end
  else GetControllerOf (cn_meta child) = None ∧ (RecordedChildIdentity s child).2 = true ∧
       ∃ m, SetControllerReference (cns_meta s) (cn_meta child) = Ok m ∧ r = UpdateChainNode (with_cn_meta child m).

Definition children_permitted (h : list kevent) (r : request) : Prop :=
  r = ListChainNodes Cached (Some ns) ∨
  ∃ l child, Ev (ListChainNodes Cached (Some ns)) (Ok l) ∈ h ∧ child ∈ l ∧ child_request child h r.

#[local] Opaque finalize_durables attributeControlledLegacyDataVolumes attributeControlledLegacyKeys quiesceNodePod.

Lemma finalizeChildDurableResources_spec child h :
  child_controlled s child = true → is_Some (meta_DeletionTimestamp (cn_meta child)) → node_quiesced child h →
  spec (child_request child) h (finalizeChildDurableResources s child) (λ h' r, r = Ok true →
    node_quiesced child h' ∧ durables_settled (RootOwnerFor (OwnerChainNode child)) set_policy (cn_UID child) h').
Proof.
  intros Hc [t Ht] Hq. unfold finalizeChildDurableResources, attributeControlledLegacyChildResources.
  assert (∀ h' r, node_quiesced child h' → attribute_permitted child h' r ∨
    durables_permitted (RootOwnerFor (OwnerChainNode child)) set_policy (cn_UID child) h' r ∨
    durables_settled (RootOwnerFor (OwnerChainNode child)) set_policy (cn_UID child) h' ∧
      (r = UpdateChainNode (with_cn_meta child (RemoveFinalizer (cn_meta child) Finalizer)) ∨
       r = GetChainNode Cached (cn_Namespace child) (cn_Name child)) → child_request child h' r) as Hr.
  { intros h' r Hq' Hr. unfold child_request. rewrite Hc, Ht. right. by split. }
  rewrite !spec_try.
  eapply spec_mono; [eapply (spec_keep _ _ _ _ (node_quiesced child)); [apply _|exact Hq|apply attribute_volumes_spec]|..].
  { intros h1 r Hs Ha. apply Hr; [by eapply node_quiesced_stable|by left]. }
  intros h1 [[]|e] _ [Hq1 _]; [|done].
  eapply spec_mono; [eapply (spec_keep _ _ _ _ (node_quiesced child)); [apply _|exact Hq1|apply attribute_keys_spec]|..].
  { intros h2 r Hs Ha. apply Hr; [by eapply node_quiesced_stable|by left]. }
  intros h2 [[]|e] _ [Hq2 _]; [|done].
  apply (spec_when_done _ _ _ _ _ (λ h, node_quiesced child h ∧
    durables_settled (RootOwnerFor (OwnerChainNode child)) set_policy (cn_UID child) h)); [|intros h3 _ [Hq3 Hd3]|done|done].
  - eapply spec_mono; [eapply (spec_keep _ _ _ _ (node_quiesced child)); [apply _|exact Hq2|apply finalize_durables_spec]|..].
    + intros h3 r Hs Ha. apply Hr; [by eapply node_quiesced_stable|by right; left].
    + intros h3 r _ [? Hd] Hok. auto.
  - unfold ignoring_not_found. rewrite spec_mbind. simpl. split; [apply Hr; [exact Hq3|auto]|].
    intros x. assert (∀ h', h3 `suffix_of` h' → node_quiesced child h' ∧
      durables_settled (RootOwnerFor (OwnerChainNode child)) set_policy (cn_UID child) h') as Hst.
    { intros h' Hs. split; [by eapply node_quiesced_stable|by eapply durables_settled_stable]. }
    destruct x as [[]|e]; [intros _; apply Hst; by eexists [_]|].
    destruct (IsNotFound e); [intros _; apply Hst; by eexists [_]|done].
Qed.
#[local] Opaque finalizeChildDurableResources.

Lemma quiesce_child_spec child h :
  spec (child_request child) h (quiesce_child s child) (λ h' r, r = Ok (Some true) → child_settled s child h').
Proof.
  unfold quiesce_child, child_settled. destruct (RecordedChildIdentity s child) as [name uid] eqn:Er.
  destruct (child_controlled s child) eqn:Ec; simpl.
  2:{ destruct uid; simpl; [|by destruct name].
      destruct (GetControllerOf (cn_meta child)) eqn:Eg; [done|]. unfold adopt_child.
      destruct (SetControllerReference _ _) as [m|e] eqn:Em; simpl; [|done].
      split; [|by intros [|]]. unfold child_request. rewrite Ec, Er. split; [done|]. split; [done|]. by exists m. }
  destruct (meta_DeletionTimestamp (cn_meta child)) eqn:Et; simpl.
  2:{ rewrite spec_try. assert (∀ r, r = UpdateChainNode (with_cn_meta child (AddFinalizer (cn_meta child) Finalizer)) ∨
        r = DeleteChainNode (cn_Namespace child) (cn_Name child) (cn_UID child) → ∀ h', child_request child h' r) as Hr.
      { intros r Hr h'. unfold child_request. by rewrite Ec, Et. }
      assert (∀ h', spec (child_request child) h' (protect_child child) (λ _ _, True)) as Hp.
      { intros h'. unfold protect_child. destruct (ContainsFinalizer _ _); [done|]. simpl. split; [apply Hr; by left|by intros [|]]. }
      eapply spec_conseq; [apply Hp|]. intros h1 [[]|e] _ _; [|done]. simpl. split; [apply Hr; by right|].
      intros [[]|e]; [done|]. simpl. by destruct (IsNotFound e). }
  rewrite spec_try. eapply spec_mono; [apply spec_suffix, quiesceNodePod_spec|..].
  { intros h1 r _ Hr. unfold child_request. rewrite Ec, Et. by left. }
  intros h1 [[]|e] _ [_ Hq]; simpl; [|done|done]. specialize (Hq eq_refl). rewrite spec_try.
  eapply spec_conseq; [by apply finalizeChildDurableResources_spec|].
  intros h2 [[]|e] _ Hd; simpl; [|done|done]. destruct (Hd eq_refl) as [Hq2 Hd2]. split.
  { unfold child_request. rewrite Ec, Et. right. split; [done|]. right; right. auto. }
  confirm_answers. intros _. split; [eapply node_quiesced_stable; [|exact Hq2]; by eexists [_]|].
  split; [eapply durables_settled_stable; [|exact Hd2]; by eexists [_]|by left].
Qed.
#[local] Opaque quiesce_child.

Lemma quiesceAndDeleteChildren_spec h :
  spec children_permitted h (quiesceAndDeleteChildren s) (λ h' r, r = Ok true → children_settled s h').
Proof.
  unfold quiesceAndDeleteChildren. rewrite spec_try. simpl. split; [by left|]. intros [children|e]; [|done].
  set (h1 := _ :: h).
  eapply spec_conseq; [apply spec_suffix, (all_unless_spec children_permitted _ (child_settled s)); [apply _|]|].
  - intros child h' Hin Hs. eapply spec_mono; [apply quiesce_child_spec| |auto].
    intros h2 r Hs2 Hr. right. exists children, child. split_and!; [|done|done].
    eapply stable_seen; [etrans; [exact Hs|exact Hs2]|by left].
  - intros h' r _ [Hs Hr] Hok. exists children. split; [eapply stable_seen; [exact Hs|by left]|by apply Hr].
Qed.
End children.

(** ** The whole finalization *)

Section promises.
Context `{MetaApi} `{ApplyApi} `{CometApi}.
Variable s : ChainNodeSet.
Abbreviation ns := (cns_Namespace s).
Abbreviation owner := (OwnerChainNodeSet s).
Abbreviation root := (RootOwnerFor owner).
Abbreviation set_policy := (ss_DeletionPolicy (cns_Spec s)).

(** A claim of a seed is attributed only when it proves its root already. *)
Definition seed_volume_permitted (h : list kevent) (r : request) : Prop :=
  match r with
  | ListPVCs Cached _ => True
  | UpdatePVC p' => ∃ l p, Ev (ListPVCs Cached ns) (Ok l) ∈ h ∧ p ∈ l ∧ isCosmoseedDataVolume s p = true ∧
      IsAttributed (pvc_meta p) root ClassDataVolumes = true ∧
      p' = with_pvc_meta p (stamp_owned (pvc_meta p) root ClassDataVolumes (cns_UID s)).1
  | _ => False
  end.
Definition set_key_permitted (h : list kevent) (r : request) : Prop :=
  match r with
  | ListSecrets Cached _ => True
  | UpdateSecret k' => ∃ l k m, Ev (ListSecrets Cached ns) (Ok l) ∈ h ∧ k ∈ l ∧ legacy_set_key s k = Some (m, true) ∧
      k' = mkSecret m (secret_Immutable k) (secret_Data k)
  | _ => False
  end.

#[local] Opaque isCosmoseedDataVolume IsAttributed stamp_owned legacy_set_key.

Lemma update_pvc_if_found_spec P pvc h : P h (UpdatePVC pvc) → spec P h (update_pvc_if_found pvc) (λ _ _, True).
Proof. intros HP. simpl. split; [done|]. intros [x|e]; simpl; [done|]. by destruct (IsNotFound e). Qed.

Lemma attribute_seed_volumes_spec h : spec seed_volume_permitted h (attributeCosmoseedDataVolumes s) (λ _ _, True).
Proof.
  unfold attributeCosmoseedDataVolumes. rewrite spec_try. simpl. split; [done|]. intros [pvcs|e]; [|done].
  apply (for_each_call_permitted _ (elem_of (Ev (ListPVCs Cached ns) (Ok pvcs)))); [|by left].
  intros p h' Hp Hl. unfold attribute_seed_volume.
  destruct (isCosmoseedDataVolume s p) eqn:E1; cbn [negb orb]; [|done].
  destruct (IsAttributed _ _ _) eqn:E2; cbn [negb orb]; [|done].
  destruct (stamp_owned _ _ _ _) as [m []] eqn:E3; [|done].
  apply update_pvc_if_found_spec. exists pvcs, p. split_and!; [done..|]. by rewrite E3.
Qed.

Lemma set_attributeControlledLegacyKeys_spec h :
  spec set_key_permitted h (set_attributeControlledLegacyKeys s) (λ _ _, True).
Proof.
  unfold set_attributeControlledLegacyKeys. rewrite spec_try. simpl. split; [done|]. intros [secrets|e]; [|done].
  apply (for_each_call_permitted _ (elem_of (Ev (ListSecrets Cached ns) (Ok secrets)))); [|by left].
  intros k h' Hk Hl. destruct (legacy_set_key s k) as [[m []]|] eqn:E; simpl; [|done|done].
  split; [by exists secrets, k, m|done].
Qed.

(** No raft state of the set's signers is left to deal with. *)
Definition set_signer_finalized (h : list kevent) : Prop :=
  owner_quiesced owner ns h ∧ claims_idle owner ns h ∧
  class_settled root ClassCosmosignerState (GetCosmosignerState set_policy) (cns_UID s) [RetainedStateFinalizer] h.

#[export] Instance set_owner_quiesced_stable : Stable (owner_quiesced owner ns).
Proof. intros h h' Hs [Hj Hq]. split; [by eapply key_jobs_gone_suffix|by eapply signers_quiesced_suffix]. Qed.
#[export] Instance set_claims_idle_stable : Stable (claims_idle owner ns).
Proof.
  intros h h' Hs (l & Hl & Hi). exists l. split; [by eapply stable_seen|].
  intros pvc Hin. eapply claim_idle_suffix; [exact Hs|auto].
Qed.
#[export] Instance set_signer_finalized_stable : Stable set_signer_finalized.
Proof. unfold set_signer_finalized. apply _. Qed.

Definition released_set (finalizers : list string) : ChainNodeSet :=
  with_cns_meta s (remove_finalizers (cns_meta s) finalizers).1.

(** How far a finalization is: each stage keeps what the ones before it saw. *)
Definition workloads_gone (h : list kevent) : Prop :=
  owner_quiesced owner ns h ∧ children_settled s h ∧ seed_quiesced s h.
Definition set_finalized (h : list kevent) : Prop :=
  workloads_gone h ∧ set_signer_finalized h ∧ durables_settled root set_policy (cns_UID s) h.
#[export] Instance workloads_gone_stable : Stable workloads_gone.
Proof. unfold workloads_gone. apply _. Qed.
#[export] Instance set_finalized_stable : Stable set_finalized.
Proof. unfold set_finalized. apply _. Qed.

(** The order of a finalization: until the signers are quiesced only their own sets and the pods of
    the key jobs of the set are changed; children are touched once the signers are quiesced, the seed nodes
    once the children are settled, raft state once nothing runs, the set's own volumes and keys once
    the raft state is settled, and the finalizers go last. *)
Definition finalize_set_permitted (h : list kevent) (r : request) : Prop :=
  quiesce_permitted owner ns h r ∨
  owner_quiesced owner ns h ∧ children_permitted s h r ∨
  (owner_quiesced owner ns h ∧ children_settled s h) ∧ (seed_volume_permitted h r ∨ seed_permitted s h r) ∨
  workloads_gone h ∧ finalize_permitted owner ns (GetCosmosignerState set_policy) h r ∨
  (workloads_gone h ∧ set_signer_finalized h) ∧
    (set_key_permitted h r ∨ durables_permitted root set_policy (cns_UID s) h r) ∨
  set_finalized h ∧ r = UpdateChainNodeSet (released_set cleanup_finalizers).

Lemma release_set_spec finalizers P h Q :
  P h (UpdateChainNodeSet (released_set finalizers)) → (∀ h' b, h `suffix_of` h' → Q h' b) →
  spec P h (release_set s finalizers) Q.
Proof.
  intros HP HQ. unfold release_set, released_set in *. destruct (remove_finalizers _ _) as [m []]; simpl in *; [|by apply HQ].
  split; [done|]. intros [x|e]; simpl; apply HQ; by eexists [_].
Qed.

#[local] Opaque QuiesceOwner quiesceAndDeleteChildren attributeCosmoseedDataVolumes quiesceCosmoseed FinalizeOwner
  set_attributeControlledLegacyKeys finalize_durables release_set ReleaseOwnerStateFinalizers
  QuiesceOwnerForNamespaceTermination.

(** The stages after the workloads are gone. *)
Lemma set_finalize_tail h :
  workloads_gone h →
  spec finalize_set_permitted h
    (signerStateDone ←? FinalizeOwner owner ns (GetCosmosignerState set_policy);
     if negb signerStateDone then return_result false else
     set_attributeControlledLegacyKeys s ;?
     done ←? finalize_durables root set_policy (cns_UID s);
     if negb done then return_result false else release_set s cleanup_finalizers)
    (λ h' r, r = Ok true → set_finalized h').
Proof.
  intros Hw. eapply (spec_stage_done _ (finalize_permitted owner ns (GetCosmosignerState set_policy)) workloads_gone set_signer_finalized);
    [apply _|done| |by intros h' r ??; right; right; right; left| |done|done].
  { eapply spec_conseq; [apply FinalizeOwner_finalizes|]. intros h' r _ Hr Hok. by destruct (Hr Hok) as (? & ? & ?). }
  intros h1 _ Hw1 Hf1. rewrite spec_try.
  eapply spec_conseq; [apply (spec_stage _ set_key_permitted (λ h, workloads_gone h ∧ set_signer_finalized h)); [apply _|done|apply set_attributeControlledLegacyKeys_spec|]|].
  { intros h' r ??. do 4 right. left. auto. }
  intros h2 [[]|e] _ [G2 _]; [|done].
  eapply (spec_stage_done _ (durables_permitted root set_policy (cns_UID s)) (λ h, workloads_gone h ∧ set_signer_finalized h)
    (durables_settled root set_policy (cns_UID s))); [apply _|done|apply finalize_durables_spec| | |done|done].
  { intros h' r ??. do 4 right. left. auto. }
  intros h3 _ [Hw3 Hf3] Hd3. assert (set_finalized h3) as Hfin by by split_and!.
  apply release_set_spec; [by do 5 right|]. intros h' b Hs _. by eapply set_finalized_stable.
Qed.

Lemma set_finalizeResources_finalizes h :
  spec finalize_set_permitted h (set_finalizeResources s) (λ h' r, r = Ok true → set_finalized h').
Proof.
  unfold set_finalizeResources.
  eapply (spec_stage_done _ (quiesce_permitted owner ns) (λ _, True) (owner_quiesced owner ns));
    [apply _|done|apply QuiesceOwner_quiesces|by intros h' r _ ?; left| |done|done].
  intros h1 _ _ Hq1.
  eapply (spec_stage_done _ (children_permitted s) (owner_quiesced owner ns) (children_settled s));
    [apply _|done|apply quiesceAndDeleteChildren_spec|by intros h' r ??; right; left| |done|done].
  intros h2 _ Hq2 Hc2. rewrite spec_try.
  eapply spec_conseq; [apply (spec_stage _ seed_volume_permitted (λ h, owner_quiesced owner ns h ∧ children_settled s h)); [apply _|done|apply attribute_seed_volumes_spec|]|].
  { intros h' r ??. right; right; left. auto. }
  intros h3 [[]|e] _ [G3 _]; [|done].
  eapply (spec_stage_done _ (seed_permitted s) (λ h, owner_quiesced owner ns h ∧ children_settled s h) (seed_quiesced s));
    [apply _|done|apply quiesceCosmoseed_spec|by intros h' r ??; right; right; left; auto| |done|done].
  intros h4 _ [??] Hs4. by apply set_finalize_tail.
Qed.

(** *** A terminating namespace *)

#[export] Instance set_namespace_quiesced_stable : Stable (namespace_quiesced owner ns).
Proof.
  intros h h' Hs (Hj & sets & pvcs & pods & H2 & H3 & H4 & Hp & Hq). split; [by eapply key_jobs_gone_suffix|].
  exists sets, pvcs, pods. split_and!; [by eapply stable_seen..| |].
  - intros pod Hin. eapply pod_settled_suffix; [exact Hs|auto].
  - intros sts Hin Ho. eapply elem_of_suffix; [by apply Hq|exact Hs].
Qed.

Definition namespace_gone (h : list kevent) : Prop :=
  namespace_quiesced owner ns h ∧ children_settled s h ∧ seed_quiesced s h.
#[export] Instance namespace_gone_stable : Stable namespace_gone.
Proof. unfold namespace_gone. apply _. Qed.

Definition terminate_set_permitted (h : list kevent) (r : request) : Prop :=
  terminate_permitted owner ns h r ∨
  namespace_quiesced owner ns h ∧ children_permitted s h r ∨
  (namespace_quiesced owner ns h ∧ children_settled s h) ∧ seed_permitted s h r ∨
  namespace_gone h ∧
    (r = ListPVCs Cached ns ∨
     (∃ l p, Ev (ListPVCs Cached ns) (Ok l) ∈ h ∧ p ∈ l ∧ releasable owner p = true ∧ r = UpdatePVC (without_retention p)) ∨
     r = UpdateChainNodeSet (released_set (cleanup_finalizers ++ [podDisruptionBudgetFinalizer]))).

#[local] Transparent ReleaseOwnerStateFinalizers.
Lemma set_finalizeTerminatingNamespace_permitted h :
  spec terminate_set_permitted h (set_finalizeTerminatingNamespace s) (λ h' r, r = Ok true → namespace_gone h').
Proof.
  unfold set_finalizeTerminatingNamespace.
  eapply (spec_stage_done _ (terminate_permitted owner ns) (λ _, True) (namespace_quiesced owner ns));
    [apply _|done|apply QuiesceOwnerForNamespaceTermination_quiesces|by intros h' r _ ?; left| |done|done].
  intros h1 _ _ Hq1.
  eapply (spec_stage_done _ (children_permitted s) (namespace_quiesced owner ns) (children_settled s));
    [apply _|done|apply quiesceAndDeleteChildren_spec|by intros h' r ??; right; left| |done|done].
  intros h2 _ Hq2 Hc2.
  eapply (spec_stage_done _ (seed_permitted s) (λ h, namespace_quiesced owner ns h ∧ children_settled s h) (seed_quiesced s));
    [apply _|done|apply quiesceCosmoseed_spec|by intros h' r ??; right; right; left| |done|done].
  intros h3 _ [Hq3 Hc3] Hs3. assert (namespace_gone h3) as Hg by by split_and!.
  unfold ReleaseOwnerStateFinalizers. rewrite !spec_try. simpl. split; [right; right; right; auto|].
  intros [pvcs|e]; [|done].
  eapply spec_conseq; [eapply spec_suffix, (for_each_call_permitted _
    (λ h, namespace_gone h ∧ Ev (ListPVCs Cached ns) (Ok pvcs) ∈ h))|].
  - intros p h' Hp [Hg' Hl]. unfold release_claim. destruct (releasable owner p) eqn:Er; [|done].
    destruct (ContainsFinalizer _ _) eqn:Ef; [|done]. simpl. split.
    + right; right; right. split; [done|]. right; left. by exists pvcs, p.
    + intros [x|e]; simpl; [done|]. by destruct (IsNotFound e).
  - split; [eapply namespace_gone_stable; [by eexists [_]|done]|by left].
  - intros h5 [[]|e] _ [Hs _]; [|done]. assert (namespace_gone h5) as Hg5.
    { eapply namespace_gone_stable; [|exact Hg]. etrans; [|exact Hs]. by eexists [_]. }
    apply release_set_spec; [by right; right; right; auto|]. intros h' b Hs' _. by eapply namespace_gone_stable.
Qed.

(** C24: a set is finalized in order, whatever the API server answers: first only the StatefulSets that
    it controls and that were made for a signer are retained, scaled down and deleted, and the pods of
    the key jobs it controls; its children are touched only after all of these were seen gone; a child's
    durables only after its pods were seen gone, and a child counts as done only once it was seen gone
    after that; the StatefulSet of the seed nodes, when the set controls it, is scaled down, and the
    pods it controls and then itself deleted, only after all children were settled; raft state is given
    up only when signers, children and seed nodes are all gone, the set's own volumes and keys after the
    raft state, and its finalizers last of all. When it reports the set done, all of this was observed. *)
Theorem set_finalizeResources_spec h :
  spec finalize_set_permitted h (set_finalizeResources s) (λ h' r, r = Ok true → set_finalized h').
Proof. apply set_finalizeResources_finalizes. Qed.

(** In a terminating namespace the set's own volumes, keys and raft state are never deleted; its
    finalizers go after its signers, its children and its seed nodes were seen gone. *)
Theorem set_finalizeTerminatingNamespace_spec h :
  spec terminate_set_permitted h (set_finalizeTerminatingNamespace s) (λ h' r, r = Ok true → namespace_gone h').
Proof. apply set_finalizeTerminatingNamespace_permitted. Qed.
End promises.
