(* ===== verification/Startup.v ===== *)
(** * What the manager does before it reconciles ([internal/resourcecleanup/root_protection.go], [cmd/manager/main.go])

    After this instance has been elected, every root of its worker is given the
    cleanup finalizer and the durable resources made by older versions are
    attributed; reconcilers wait until that is done
    ([internal/controllers/options.go]). *)

From S2P Require Import Prelude GoLib IO ThirdParty Reference ApiTypes KubeApi SignerResolve SigningPaths.
From S2P Require Import Labels ResourceCleanup Deploy Teardown NodeFinalize SetFinalize.

Definition MatchesWorker (labels : gmap string string) (workerName : string) : bool :=
  get_label labels LabelWorkerName == workerName.

(** A root: one of the two kinds [protectRoot] is given. *)
Inductive Root := RootNode (n : ChainNode) | RootSet (s : ChainNodeSet).
Definition root_meta (o : Root) : ObjectMeta := match o with RootNode n => cn_meta n | RootSet s => cns_meta s end.
Definition with_root_meta (o : Root) (m : ObjectMeta) : Root :=
  match o with RootNode n => RootNode (with_cn_meta n m) | RootSet s => RootSet (with_cns_meta s m) end.
Definition get_root (o : Root) : kube (result Root) :=
  let m := root_meta o in
  match o with
  | RootNode _ => n ←? call (GetChainNode Cached (meta_Namespace m) (meta_Name m)); return_result (RootNode n)
  | RootSet _ => s ←? call (GetChainNodeSet Cached (meta_Namespace m) (meta_Name m)); return_result (RootSet s)
  end.
Definition patch_root (o : Root) : kube (result ()) :=
  match o with RootNode n => call (PatchChainNode n) | RootSet s => call (PatchChainNodeSet s) end.

(** Whether a child is recorded by the first set of its namespace that names it. *)
Definition recorded_by (node : ChainNode) (nodeSet : ChainNodeSet) : option bool :=
  if cns_Namespace nodeSet != cn_Namespace node then None
  else match find (λ p : string * string, p.1 == cn_Name node) (recorded_children nodeSet) with
       | Some (_, uid) => Some ((uid == "") || (uid == cn_UID node))
       | None => None
       end.
Definition isRecordedStartupNodeSetChild (node : ChainNode) (nodeSets : list ChainNodeSet) : bool :=
  default false (head (omap (recorded_by node) nodeSets)).

Section startup.
Context `{MetaApi} `{ApplyApi} `{CometApi} `{RetryApi}.

(** *** Protecting the roots *)

Definition protect_once (object : Root) : kube (result ()) :=
  r ← get_root object;
  match r with
  | Err e => if IsNotFound e then return_result () else return_error e
  | Ok fresh =>
      let m := root_meta fresh in
      if is_some (meta_DeletionTimestamp m) || ContainsFinalizer m Finalizer then return_result ()
      else ignoring_not_found (patch_root (with_root_meta fresh (AddFinalizer m Finalizer))) (return_result ())
  end.

Definition protectRoot (object : Root) : kube (result ()) := RetryOnConflict (protect_once object).

Definition protect_worker_root (workerName : string) (object : Root) : kube (result ()) :=
  if MatchesWorker (meta_Labels (root_meta object)) workerName then protectRoot object else return_result ().
Definition protectChainNodes (workerName : string) : kube (result ()) :=
  nodes ←? call (ListChainNodes Cached None);
  for_each_call (protect_worker_root workerName) (map RootNode nodes).
Definition protectChainNodeSets (workerName : string) : kube (result ()) :=
  sets ←? call (ListChainNodeSets Cached None);
  for_each_call (protect_worker_root workerName) (map RootSet sets).
Definition ProtectExistingRoots (workerName : string) : kube (result ()) :=
  protectChainNodes workerName ;? protectChainNodeSets workerName.

(** *** Migrating what older versions left *)

(** A root whose migration fails is logged and skipped. *)
Fixpoint migrate_each {A} (skip : A → bool) (migrate : A → kube (result bool)) (pending : bool) (l : list A) : kube bool :=
  match l with
  | [] => mret pending
  | x :: l =>
      if skip x then migrate_each skip migrate pending l
      else
        r ← migrate x;
        match r with
        | Ok changed => migrate_each skip migrate (pending || changed) l
        | Err _ => migrate_each skip migrate pending l
        end
  end.

Definition migrateLegacyDurableResources (workerName : string) : kube (result bool) :=
  nodeSets ←? call (ListChainNodeSets Cached None);
  pending ← migrate_each (λ s, negb (MatchesWorker (meta_Labels (cns_meta s)) workerName))
              set_MigrateLegacyDurableResources false nodeSets;
  nodes ←? call (ListChainNodes Cached None);
  pending ← migrate_each (λ n, negb (MatchesWorker (meta_Labels (cn_meta n)) workerName) ||
                               isRecordedStartupNodeSetChild n nodeSets)
              MigrateLegacyDurableResources pending nodes;
  return_result pending.

(** [RootProtector.Start] up to closing the [Ready] channel the reconcilers wait on. *)
Definition RootProtector_Start (workerName : string) (Migrate : option (kube (result ()))) : kube (result ()) :=
  ProtectExistingRoots workerName ;?
  match Migrate with Some m => m | None => return_result () end.

(** [rootProtectionReadiness] answers with an error until the roots are protected, except on a
    standby that has not been elected. *)
Definition rootProtectionReadiness (leaderElectionEnabled elected ready : bool) : result () :=
  if ready then Ok ()
  else if negb leaderElectionEnabled || elected then
    Err (Errorf "existing-root protection and durable-resource migration are still running" [])
  else Ok ().
End startup.

(** ** What a successful start guarantees *)

Section promises.
Context `{MetaApi}.

Definition root_seen (o : Root) (x : result Root) (h : list kevent) : Prop :=
  let m := root_meta o in
  match o with
  | RootNode _ => ∃ r, Ev (GetChainNode Cached (meta_Namespace m) (meta_Name m)) r ∈ h ∧ x = RootNode <$> r
  | RootSet _ => ∃ r, Ev (GetChainNodeSet Cached (meta_Namespace m) (meta_Name m)) r ∈ h ∧ x = RootSet <$> r
  end.
Definition root_patched (o : Root) (x : result ()) (h : list kevent) : Prop :=
  match o with RootNode n => Ev (PatchChainNode n) x ∈ h | RootSet s => Ev (PatchChainNodeSet s) x ∈ h end.

Definition with_protection (o : Root) : Root := with_root_meta o (AddFinalizer (root_meta o) Finalizer).

(** The root was seen gone, being deleted or with the finalizer, or was given it. *)
Definition root_protected (o : Root) (h : list kevent) : Prop :=
  ∃ x, root_seen o x h ∧
    match x with
    | Err e => IsNotFound e = true
    | Ok fresh =>
        is_Some (meta_DeletionTimestamp (root_meta fresh)) ∨ ContainsFinalizer (root_meta fresh) Finalizer = true ∨
        ∃ y, root_patched (with_protection fresh) y h ∧ (y = Ok () ∨ y = Err (ApiError ReasonNotFound))
    end.

#[export] Instance root_seen_stable o x : Stable (root_seen o x).
Proof. unfold root_seen. destruct o; apply _. Qed.
#[export] Instance root_patched_stable o x : Stable (root_patched o x).
Proof. unfold root_patched. destruct o; apply _. Qed.
#[export] Instance root_protected_stable o : Stable (root_protected o).
Proof. unfold root_protected. apply stable_ex. intros [fresh|e]; apply _. Qed.

(** A root is only patched as it was read, with the finalizer it lacked. *)
Definition patched_from (o' : Root) (h : list kevent) : Prop :=
  ∃ o fresh, root_seen o (Ok fresh) h ∧ o' = with_protection fresh ∧
    meta_DeletionTimestamp (root_meta fresh) = None ∧ ContainsFinalizer (root_meta fresh) Finalizer = false.
Definition protect_permitted (h : list kevent) (r : request) : Prop :=
  match r with
  | ListChainNodes Cached None | ListChainNodeSets Cached None | GetChainNode Cached _ _ | GetChainNodeSet Cached _ _ => True
  | PatchChainNode n => patched_from (RootNode n) h
  | PatchChainNodeSet s => patched_from (RootSet s) h
  | _ => False
  end.

Lemma get_root_spec o h :
  spec protect_permitted h (get_root o) (λ h' r, root_seen o r h' ∧ ∀ fresh, r = Ok fresh →
    match o, fresh with RootNode _, RootNode _ | RootSet _, RootSet _ => True | _, _ => False end).
Proof.
  destruct o as [n|s]; simpl; (split; [done|]); (intros [x|e]; simpl; (split; [eexists; split; [by left|done]|])); naive_solver.
Qed.

Lemma patch_root_spec o h :
  patched_from o h → spec protect_permitted h (patch_root o) (λ h' r, h `suffix_of` h' ∧ root_patched o r h').
Proof. intros Hp. destruct o; simpl; (split; [done|]); intros x; (split; [by eexists [_]|by left]). Qed.
#[local] Opaque get_root patch_root.

Lemma protect_once_spec o h :
  spec protect_permitted h (protect_once o) (λ h' r, r = Ok () → root_protected o h').
Proof.
  unfold protect_once. rewrite spec_mbind. eapply spec_conseq; [apply get_root_spec|].
  intros h1 [fresh|e] _ [Hs Ho].
  2:{ destruct (IsNotFound e) eqn:En; [|done]. intros _. by exists (Err e). }
  destruct (meta_DeletionTimestamp (root_meta fresh)) eqn:Ed; simpl.
  { intros _. exists (Ok fresh). split; [done|]. left. by rewrite Ed. }
  destruct (ContainsFinalizer _ _) eqn:Ef; simpl.
  { intros _. exists (Ok fresh). split; [done|]. by right; left. }
  unfold ignoring_not_found. rewrite spec_mbind.
  eapply spec_conseq; [apply (patch_root_spec (with_protection fresh)); by exists o, fresh|].
  intros h2 x _ [Hs2 Hp].
  assert (x = Ok () ∨ x = Err (ApiError ReasonNotFound) → root_protected o h2) as Hdone.
  { intros Hx. exists (Ok fresh). split; [by eapply root_seen_stable|]. right; right. by exists x. }
  destruct x as [[]|e]; [intros _; apply Hdone; by left|]. destruct (IsNotFound e) eqn:En; simpl; [|done].
  intros _. apply Hdone. right. unfold IsNotFound in En. to_prop. by subst.
Qed.
#[local] Opaque protect_once.

Context `{RetryLaws}.

Definition worker_root (workerName : string) (o : Root) : bool := MatchesWorker (meta_Labels (root_meta o)) workerName.

Lemma protect_roots_spec workerName l h :
  spec protect_permitted h (for_each_call (protect_worker_root workerName) l) (λ h' r, r = Ok () →
    ∀ o, o ∈ l → worker_root workerName o = true → root_protected o h').
Proof.
  eapply spec_conseq; [apply (for_each_call_spec _ (λ _, True) _
    (λ o h, worker_root workerName o = true → root_protected o h) (λ _ _, True)); [| |done]|].
  - intros o h1 h2 Hs Hp Hw. eapply root_protected_stable; [exact Hs|auto].
  - intros o h1 _ _. unfold protect_worker_root, worker_root. destruct (MatchesWorker _ _); [|done].
    unfold protectRoot. eapply spec_conseq; [apply (retry_spec _ _ _ _ (λ h2 r, r = Ok () → root_protected o h2)); intros h' _; apply protect_once_spec|].
    intros h2 [[]|e] _ Hr; [|done]. auto.
  - intros h1 [[]|e] _ Hr; [|done]. destruct Hr as [_ Hr]. auto.
Qed.

(** Every root of the worker that was listed is protected. *)
Definition roots_protected (workerName : string) (h : list kevent) : Prop :=
  ∃ nodes sets, Ev (ListChainNodes Cached None) (Ok nodes) ∈ h ∧ Ev (ListChainNodeSets Cached None) (Ok sets) ∈ h ∧
    ∀ o, o ∈ map RootNode nodes ++ map RootSet sets → worker_root workerName o = true → root_protected o h.

#[local] Opaque for_each_call.
Lemma ProtectExistingRoots_protects workerName h :
  spec protect_permitted h (ProtectExistingRoots workerName)
    (λ h' r, r = Ok () → roots_protected workerName h').
Proof.
  unfold ProtectExistingRoots, protectChainNodes, protectChainNodeSets. rewrite !spec_try. simpl. split; [done|].
  intros [nodes|e]; [|done]. eapply spec_conseq; [apply spec_suffix, protect_roots_spec|].
  intros h1 [[]|e] _ [Hs1 K1]; [|done]. split; [done|]. intros [sets|e]; [|done].
  eapply spec_conseq; [apply spec_suffix, protect_roots_spec|]. intros h2 r _ [Hs2 K2] Hok.
  exists nodes, sets. split_and!; [|by eapply stable_seen; [exact Hs2|left]|].
  - eapply stable_seen; [etrans; [exact Hs1|etrans; [|exact Hs2]]|by left]. by eexists [_].
  - intros o [Ho|Ho]%elem_of_app Hw; [|by apply K2].
    eapply root_protected_stable; [etrans; [|exact Hs2]|by apply K1]. by eexists [_].
Qed.

(** C27: when the start-up protection succeeds, every node and set of the worker that was listed was
    seen gone, already being deleted, or with the cleanup finalizer - possibly the one it was just
    given; a root is only patched as it was read, live and without the finalizer, whatever the
    number of retries after a conflict. *)
Theorem ProtectExistingRoots_spec workerName h :
  spec protect_permitted h (ProtectExistingRoots workerName)
    (λ h' r, r = Ok () → roots_protected workerName h').
Proof. apply ProtectExistingRoots_protects. Qed.
End promises.

Lemma ProtectExistingRoots_witness :
  spec (protect_permitted (H := reference_meta)) [] (@ProtectExistingRoots reference_meta reference_retry "worker-1")
    (λ h' r, r = Ok () → @roots_protected reference_meta "worker-1" h').
Proof. apply (ProtectExistingRoots_spec (H := reference_meta) (H1 := reference_retry_laws)). Defined.
