(* ===== verification/Pdb.v ===== *)
(** * Disruption budgets of a set ([internal/controllers/chainnodeset/pdb.go])

    The budgets a set wants, which of the existing ones are its own - made by it
    or recognised by the selector older versions wrote - and the deletion of
    those it no longer wants. *)

From S2P Require Import Prelude GoLib IO ThirdParty Reference ApiTypes KubeApi FakeServer SignerResolve Getters SigningPaths.
From S2P Require Import Labels DerivedServices GenesisFingerprint SignerWebhook NodeSetWebhook ResourceCleanup Deploy Teardown NodeFinalize SetFinalize.

Definition annotationGrouplessPDBHistory : string := "cosmopilot.voluzi.com/groupless-pdb-history".

Definition scopeCosmoGuard : string := "cosmoguard".
Definition validatorGroupName : string := ReservedValidatorGroupName.

(** ** Recognising budgets of older versions *)

Definition hasOnlyLabels (labels : gmap string string) (allowed : list string) : bool :=
  forallb (λ kv : string * string, bool_decide (kv.1 ∈ allowed)) (map_to_list labels).

Definition hasOnlyLegacyRegularPDBLabels (s : ChainNodeSet) (labels : gmap string string) : bool :=
  forallb (λ kv : string * string,
    bool_decide (kv.1 ∈ [LabelUpgrading; LabelChainID; LabelChainNodeSet; LabelChainNodeSetGroup; LabelChainNodeSetValidator]) ||
    has_prefix kv.1 (cns_Name s +:+ "-global-") && (kv.2 == StringValueTrue)) (map_to_list labels).

Definition grouplessPDBHistory (s : ChainNodeSet) : gset string :=
  list_to_set (filter (λ name, name ≠ "") (split_char ","%char (annotation (cns_meta s) annotationGrouplessPDBHistory))).
Definition isRecordedGrouplessPDB (s : ChainNodeSet) (name : string) : bool :=
  bool_decide (name ∈ grouplessPDBHistory s).

(** A regular group whose budget carries no group label. *)
Definition groupless (g : NodeGroupSpec) : bool :=
  negb (is_some (ng_Validator g)) && group_HasPdbEnabled g && ShouldIgnoreGroupLabelOnDisruptions (Some g).

Definition validator_labels : list string :=
  [LabelUpgrading; LabelChainID; LabelChainNodeSetValidator; LabelChainNodeSet; LabelChainNodeSetGroup].

Definition legacy_labels (s : ChainNodeSet) (name : string) (labels : gmap string string) : bool :=
  let value k := get_label labels k in
  let group := value LabelChainNodeSetGroup in
  let validator := value LabelChainNodeSetValidator == StringValueTrue in
  if (sst_ChainID (cns_Status s) == "") || (value LabelUpgrading != StringValueFalse) ||
     (value LabelChainID != sst_ChainID (cns_Status s)) then false
  else if (name == cns_Name s +:+ "-validator") && validator then
    hasOnlyLabels labels validator_labels &&
    ((value LabelChainNodeSet == "") || (value LabelChainNodeSet == cns_Name s)) &&
    ((group == "") || (group == validatorGroupName))
  else if value LabelChainNodeSet != cns_Name s then false
  else if is_some (labels !! LabelChainNodeSetValidator) && negb validator then false
  else if negb (hasOnlyLegacyRegularPDBLabels s labels) then false
  else if (group == "") && validator then false
  else if validator && (group != "") && negb (hasOnlyLabels labels validator_labels) then false
  else if group == "" then
    isRecordedGrouplessPDB s name ||
    existsb (λ g, groupless g && (group_GetServiceName g (cns_meta s) == name)) (ss_Nodes (cns_Spec s))
  else
    name == cns_Name s +:+ "-" +:+ group +:+ (if validator && (group != validatorGroupName) then "-validator" else "").

Definition isLegacyNodeSetPDB (s : ChainNodeSet) (p : PodDisruptionBudget) : bool :=
  match pb_Selector p, pb_MinAvailable p, pb_MaxUnavailable p with
  | Some sel, Some _, None =>
      match ls_MatchExpressions sel with
      | [] => legacy_labels s (pb_Name p) (ls_MatchLabels sel)
      | _ => false
      end
  | _, _, _ => false
  end.

(** ** The budgets wanted *)

Definition int32_of (z : Z) : Z := ((z + 2 ^ 31) mod 2 ^ 32 - 2 ^ 31)%Z.

Definition getPdbSpec (s : ChainNodeSet) (name : string) (min : Z) (labels : gmap string string) : PodDisruptionBudget :=
  mkPDB (mkMeta name (cns_Namespace s) "" ∅ None [] [] None 0 "") (Some (IntVal (int32_of min))) None
    (Some (mkSelector labels [])).

Definition GetGlobalIngressLabels (s : ChainNodeSet) (group : string) : gmap string string :=
  foldl (λ m gi, if existsb (λ g, g == group) (gin_Groups gi) then <[gi_GetName gi (cns_meta s) := "true"]> m else m)
    ∅ (ss_Ingresses (cns_Spec s)).

Definition base_labels (s : ChainNodeSet) : gmap string string :=
  <[LabelUpgrading := StringValueFalse]> (<[LabelChainID := sst_ChainID (cns_Status s)]>
    (<[LabelChainNodeSet := cns_Name s]> ∅)).

Definition validator_pdb_labels (s : ChainNodeSet) (group : string) : gmap string string :=
  <[LabelChainNodeSetGroup := group]> (<[LabelChainNodeSetValidator := StringValueTrue]> (base_labels s)).

(** [maps.Copy] writes the ingress labels over the others. *)
Definition group_pdb_labels (s : ChainNodeSet) (g : NodeGroupSpec) : gmap string string :=
  GetGlobalIngressLabels s (ng_Name g) ∪
  (if ShouldIgnoreGroupLabelOnDisruptions (Some g) then base_labels s
   else <[LabelChainNodeSetGroup := ng_Name g]> (base_labels s)).

(** What is done about one name: a budget is ensured, or one of the set is deleted. *)
Inductive pdb_action := EnsurePDB (p : PodDisruptionBudget) | DropPDB (name : string).

Definition top_pdb_name (s : ChainNodeSet) : string := cns_Name s +:+ "-validator".
Definition top_action (s : ChainNodeSet) : pdb_action :=
  let v := ss_Validator (cns_Spec s) in
  if nv_HasPdbEnabled v
  then EnsurePDB (getPdbSpec s (top_pdb_name s) (nv_GetPdbMinAvailable v 1) (validator_pdb_labels s validatorGroupName))
  else DropPDB (top_pdb_name s).

Definition regularGroupServiceNames (s : ChainNodeSet) : gset string :=
  list_to_set (map (λ g, group_GetServiceName g (cns_meta s))
                 (filter (λ g, ng_Validator g = None) (ss_Nodes (cns_Spec s)))).

Definition validator_pdb_name (s : ChainNodeSet) (g : NodeGroupSpec) : string :=
  group_GetServiceName g (cns_meta s) +:+ "-validator".

Definition group_actions (s : ChainNodeSet) (g : NodeGroupSpec) : list pdb_action :=
  let name := group_GetServiceName g (cns_meta s) in
  [ if is_some (ng_Validator g) then DropPDB name
    else if group_HasPdbEnabled g then EnsurePDB (getPdbSpec s name (group_GetPdbMinAvailable g) (group_pdb_labels s g))
    else DropPDB name ] ++
  (if nv_HasPdbEnabled (ng_Validator g) then
     [EnsurePDB (getPdbSpec s (validator_pdb_name s g) (nv_GetPdbMinAvailable (ng_Validator g) (GetInstances g))
        (validator_pdb_labels s (ng_Name g)))]
   else if bool_decide (validator_pdb_name s g ∈ regularGroupServiceNames s) then []
   else [DropPDB (validator_pdb_name s g)]).

Definition pdb_actions (s : ChainNodeSet) : list pdb_action :=
  top_action s :: (g ← ss_Nodes (cns_Spec s); group_actions s g).
Definition desired_pdb (a : pdb_action) : option string :=
  match a with EnsurePDB p => Some (pb_Name p) | DropPDB _ => None end.
Definition desired_pdbs (s : ChainNodeSet) : gset string := list_to_set (omap desired_pdb (pdb_actions s)).

(** The history with the groups that ignore their label now, and whether it grew. *)
Definition with_history (s : ChainNodeSet) : ChainNodeSet * bool :=
  let names := grouplessPDBHistory s in
  let current := map (λ g, group_GetServiceName g (cns_meta s)) (filter (λ g, groupless g = true) (ss_Nodes (cns_Spec s))) in
  let all := names ∪ list_to_set current in
  if bool_decide (all = names) then (s, false)
  else (with_cns_meta s (set_annotation (cns_meta s) annotationGrouplessPDBHistory
          (strings_Join (sort_Strings (elements all)) ",")), true).

Section pdb.
Context `{MetaApi} `{ApplyApi}.

Definition foreign_pdb (s : ChainNodeSet) (p : PodDisruptionBudget) : bool :=
  is_some (GetControllerOf (pb_meta p)) && negb (IsControlledBy (pb_meta p) (cns_meta s)).
(** A budget that the set controls, or that nobody does and an older version of it made. *)
Definition own_pdb (s : ChainNodeSet) (p : PodDisruptionBudget) : bool :=
  negb (foreign_pdb s p) && (IsControlledBy (pb_meta p) (cns_meta s) || isLegacyNodeSetPDB s p).

Definition deletePodDisruptionBudgetExact (p : PodDisruptionBudget) : kube (result bool) :=
  let m := pb_meta p in
  let confirm := confirm_absent (call (GetPDB (meta_Namespace m) (meta_Name m))) (return_result false) (return_result true) in
  match meta_DeletionTimestamp m with
  | None => ignoring_not_found (call (DeletePDB (meta_Namespace m) (meta_Name m) (meta_UID m))) confirm
  | Some _ => confirm
  end.

Definition maybeDeletePDB (s : ChainNodeSet) (name : string) : kube (result ()) :=
  r ← call (GetPDB (cns_Namespace s) name);
  match r with
  | Err e => if IsNotFound e then return_result () else return_error e
  | Ok p =>
      if negb (own_pdb s p) then return_result ()
      else
        r ← deletePodDisruptionBudgetExact p;
        match r with
        | Ok _ => return_result ()
        | Err e => if IsNotFound e then return_result () else return_error e
        end
  end.

Definition pdb_up_to_date (s : ChainNodeSet) (p current : PodDisruptionBudget) : bool :=
  (pb_MinAvailable current == pb_MinAvailable p) && negb (is_some (pb_MaxUnavailable current)) &&
  (pb_Selector current == pb_Selector p) && IsControlledBy (pb_meta current) (cns_meta s).

Definition ensurePodDisruptionBudget (s : ChainNodeSet) (p : PodDisruptionBudget) : kube (result ()) :=
  r ← call (GetPDB (meta_Namespace (pb_meta p)) (pb_Name p));
  match r with
  | Err e =>
      if negb (IsNotFound e) then return_error e
      else match SetControllerReference (cns_meta s) (pb_meta p) with
           | Err e => return_error e
           | Ok m => call (CreatePDB (mkPDB m (pb_MinAvailable p) (pb_MaxUnavailable p) (pb_Selector p)))
           end
  | Ok current =>
      let names := [AStr (meta_Namespace (pb_meta current)); AStr (pb_Name current)] in
      if foreign_pdb s current then return_result ()
      else if negb (own_pdb s current) then
        return_error (Errorf "refusing to adopt pod disruption budget %s/%s without controller ownership or an identifiable legacy Cosmopilot selector" names)
      else if pdb_up_to_date s p current then return_result ()
      else match SetControllerReference (cns_meta s) (pb_meta current) with
           | Err e => return_error (Wrapf e "cannot manage pod disruption budget %s/%s: %w" names)
           | Ok m => call (UpdatePDB (mkPDB m (pb_MinAvailable p) None (pb_Selector p)))
           end
  end.

Definition perform_action (s : ChainNodeSet) (a : pdb_action) : kube (result ()) :=
  match a with EnsurePDB p => ensurePodDisruptionBudget s p | DropPDB name => maybeDeletePDB s name end.

Definition stale_pdb (s : ChainNodeSet) (desired : gset string) (p : PodDisruptionBudget) : bool :=
  negb (bool_decide (pb_Name p ∈ desired)) && (get_label (meta_Labels (pb_meta p)) LabelScope != scopeCosmoGuard) &&
  (IsControlledBy (pb_meta p) (cns_meta s) || isLegacyNodeSetPDB s p).

Definition deleteStalePodDisruptionBudgets (s : ChainNodeSet) (desired : gset string) : kube (result ()) :=
  pdbs ←? call (ListPDBs (cns_Namespace s));
  for_each_call (λ p, if stale_pdb s desired p then maybeDeletePDB s (pb_Name p) else return_result ()) pdbs.

Definition recordGrouplessPDBHistory (s : ChainNodeSet) : kube (result ChainNodeSet) :=
  let '(s', changed) := with_history s in
  if changed : bool then call (UpdateChainNodeSet s') ;? return_result s' else return_result s.

Definition ensurePodDisruptionBudgets (s : ChainNodeSet) : kube (result ()) :=
  s ←? recordGrouplessPDBHistory s;
  for_each_call (perform_action s) (pdb_actions s) ;?
  deleteStalePodDisruptionBudgets s (desired_pdbs s).

(** The set comes back without the finalizer once all of its budgets are gone. *)
Definition finalizePodDisruptionBudgets (s : ChainNodeSet) : kube (result (bool * ChainNodeSet)) :=
  pdbs ←? call (ListPDBs (cns_Namespace s));
  allDone ←? all_of (λ p, if own_pdb s p then deletePodDisruptionBudgetExact p else return_result true) true pdbs;
  if negb allDone then return_result (false, s)
  else if ContainsFinalizer (cns_meta s) podDisruptionBudgetFinalizer then
    let s' := with_cns_meta s (RemoveFinalizer (cns_meta s) podDisruptionBudgetFinalizer) in
    call (UpdateChainNodeSet s') ;? return_result (true, s')
  else return_result (true, s).
End pdb.

(** ** What a pass does *)

Lemma omap_desired (name : string) (l : list pdb_action) : name ∈ omap desired_pdb l ↔ ∃ p, EnsurePDB p ∈ l ∧ pb_Name p = name.
Proof.
  rewrite list_elem_of_omap. split.
  - intros ([p|n] & Ha & E); [|done]. injection E as <-. by exists p.
  - intros (p & Hp & <-). by exists (EnsurePDB p).
Qed.

Lemma desired_pdbs_spec s name : name ∈ desired_pdbs s ↔ ∃ p, EnsurePDB p ∈ pdb_actions s ∧ pb_Name p = name.
Proof. unfold desired_pdbs. by rewrite elem_of_list_to_set, omap_desired. Qed.

(** Where a wanted budget and a dropped name come from. *)
Lemma ensured_in s p :
  EnsurePDB p ∈ pdb_actions s →
  (pb_Name p = top_pdb_name s ∧ nv_HasPdbEnabled (ss_Validator (cns_Spec s)) = true) ∨
  ∃ g, g ∈ ss_Nodes (cns_Spec s) ∧
    (ng_Validator g = None ∧ group_HasPdbEnabled g = true ∧ pb_Name p = group_GetServiceName g (cns_meta s) ∨
     nv_HasPdbEnabled (ng_Validator g) = true ∧ pb_Name p = validator_pdb_name s g).
Proof.
  unfold pdb_actions. intros [E|Hin]%elem_of_cons.
  - left. unfold top_action in E. destruct (nv_HasPdbEnabled _) eqn:Ep; [by injection E as ->|done].
  - right. apply list_elem_of_bind in Hin as (g & Hin & Hg). exists g. split; [done|].
    unfold group_actions in Hin. apply elem_of_app in Hin as [[E|[]%elem_of_nil]%elem_of_cons|Hin].
    + left. destruct (ng_Validator g); simpl in E; [done|]. destruct (group_HasPdbEnabled g); [by injection E as ->|done].
    + right. destruct (nv_HasPdbEnabled _).
      * apply elem_of_cons in Hin as [E|[]%elem_of_nil]. by injection E as ->.
      * destruct (bool_decide _); [by apply elem_of_nil in Hin|]. by apply elem_of_cons in Hin as [E|[]%elem_of_nil].
Qed.

Lemma dropped_in s name :
  DropPDB name ∈ pdb_actions s →
  (name = top_pdb_name s ∧ nv_HasPdbEnabled (ss_Validator (cns_Spec s)) = false) ∨
  ∃ g, g ∈ ss_Nodes (cns_Spec s) ∧
    (name = group_GetServiceName g (cns_meta s) ∧ (is_Some (ng_Validator g) ∨ group_HasPdbEnabled g = false) ∨
     name = validator_pdb_name s g ∧ nv_HasPdbEnabled (ng_Validator g) = false ∧ name ∉ regularGroupServiceNames s).
Proof.
  unfold pdb_actions. intros [E|Hin]%elem_of_cons.
  - left. unfold top_action in E. destruct (nv_HasPdbEnabled _) eqn:Ep; [done|by injection E as ->].
  - right. apply list_elem_of_bind in Hin as (g & Hin & Hg). exists g. split; [done|].
    unfold group_actions in Hin. apply elem_of_app in Hin as [[E|[]%elem_of_nil]%elem_of_cons|Hin].
    + left. destruct (ng_Validator g); simpl in E; [injection E as ->; split; [done|by left]|].
      destruct (group_HasPdbEnabled g); [done|injection E as ->; split; [done|by right]].
    + right. destruct (nv_HasPdbEnabled _).
      * by apply elem_of_cons in Hin as [E|[]%elem_of_nil].
      * case_bool_decide as Hr; [by apply elem_of_nil in Hin|]. apply elem_of_cons in Hin as [E|[]%elem_of_nil].
        by injection E as ->.
Qed.

Lemma regular_name s g : g ∈ ss_Nodes (cns_Spec s) → ng_Validator g = None →
  group_GetServiceName g (cns_meta s) ∈ regularGroupServiceNames s.
Proof.
  intros Hg Hv. unfold regularGroupServiceNames. rewrite elem_of_list_to_set. apply list_elem_of_fmap.
  exists g. split; [done|]. by apply list_elem_of_filter.
Qed.

Lemma service_name_inj s g h : group_GetServiceName g (cns_meta s) = group_GetServiceName h (cns_meta s) → ng_Name g = ng_Name h.
Proof. unfold group_GetServiceName. by intros E%string_app_inj_l%string_app_inj_l. Qed.

Lemma validator_name_service s g h :
  group_GetServiceName h (cns_meta s) = validator_pdb_name s g → ng_Name h = ng_Name g +:+ "-validator".
Proof.
  unfold validator_pdb_name, group_GetServiceName. rewrite !string_app_assoc.
  by intros E%string_app_inj_l%string_app_inj_l.
Qed.

Lemma top_name_service s g : group_GetServiceName g (cns_meta s) = top_pdb_name s → ng_Name g = "validator".
Proof. unfold group_GetServiceName, top_pdb_name. intros E%string_app_inj_l. by injection E. Qed.

Lemma top_name_validator s g : validator_pdb_name s g ≠ top_pdb_name s.
Proof.
  unfold validator_pdb_name, group_GetServiceName, top_pdb_name. rewrite !string_app_assoc. intros E%string_app_inj_l.
  apply (f_equal String.length) in E. rewrite !string_length_app in E. simpl in E. lia.
Qed.

Lemma dropped_and_wanted s name :
  AdmittedSet s → DropPDB name ∈ pdb_actions s → name ∈ desired_pdbs s →
  ∃ g h, g ∈ ss_Nodes (cns_Spec s) ∧ h ∈ ss_Nodes (cns_Spec s) ∧ nv_HasPdbEnabled (ng_Validator g) = true ∧
    is_Some (ng_Validator h) ∧ ng_Name h = ng_Name g +:+ "-validator".
Proof.
  intros Ha Hd (p & Hp & <-)%desired_pdbs_spec. apply ensured_in in Hp. apply dropped_in in Hd.
  assert (∀ g h, g ∈ ss_Nodes (cns_Spec s) → h ∈ ss_Nodes (cns_Spec s) →
    group_GetServiceName g (cns_meta s) = group_GetServiceName h (cns_meta s) → g = h) as Hinj.
  { intros g h Hg Hh E. eapply NoDup_map_inj_on; [exact (admitted_names_unique _ Ha)|done..|by eapply service_name_inj]. }
  assert (∀ g, g ∈ ss_Nodes (cns_Spec s) → group_GetServiceName g (cns_meta s) ≠ top_pdb_name s) as Htop.
  { intros g Hg E%top_name_service. by apply (admitted_names_valid _ Ha g Hg) in E. }
  destruct Hp as [(Ep & Hpt)|(g & Hg & [(Eg & Hpg & Ep)|(Hpg & Ep)])]; rewrite Ep in Hd;
    (destruct Hd as [(Ed & Hpd)|(h & Hh & [(Ed & Hpd)|(Ed & Hpd & Hr)])]); try (exfalso; congruence).
  - by destruct (Htop h Hh).
  - by destruct (top_name_validator s h).
  - by destruct (Htop g Hg).
  - apply Hinj in Ed as <-; [|done..]. destruct Hpd as [[v ?]|?]; exfalso; congruence.
  - by destruct Hr; apply regular_name.
  - by destruct (top_name_validator s g).
  - symmetry in Ed. apply validator_name_service in Ed. exists g, h. split_and!; try done. by apply (admitted_budgets _ Ha g h).
  - apply string_app_inj_r, Hinj in Ed as <-; [exfalso; congruence|done..].
Qed.

Lemma paired_budget_dropped s g h :
  g ∈ ss_Nodes (cns_Spec s) → h ∈ ss_Nodes (cns_Spec s) → nv_HasPdbEnabled (ng_Validator g) = true →
  is_Some (ng_Validator h) → ng_Name h = ng_Name g +:+ "-validator" →
  DropPDB (validator_pdb_name s g) ∈ pdb_actions s ∧ validator_pdb_name s g ∈ desired_pdbs s.
Proof.
  intros Hg Hh Hp [v Hv] En. split.
  - unfold pdb_actions. apply elem_of_cons. right. apply list_elem_of_bind. exists h. split; [|done].
    unfold group_actions. rewrite Hv. simpl. apply elem_of_cons. left. f_equal.
    unfold validator_pdb_name, group_GetServiceName. by rewrite En, !string_app_assoc.
  - apply desired_pdbs_spec. eexists. split.
    + unfold pdb_actions. apply elem_of_cons. right. apply list_elem_of_bind. exists g. split; [|done].
      unfold group_actions. rewrite Hp. apply elem_of_app. right. by left.
    + done.
Qed.

(** C28: in a set the webhook admits, a pass drops a budget that it also wants exactly when one
    validator group with an enabled budget, [foo], has another validator group [foo-validator] next
    to it: their names are accepted together, and the budget of [foo] is deleted as the regular
    budget that the other group does not have. *)
Theorem wanted_budget_dropped_iff s :
  AdmittedSet s →
  (∃ name, DropPDB name ∈ pdb_actions s ∧ name ∈ desired_pdbs s) ↔
  (∃ g h, g ∈ ss_Nodes (cns_Spec s) ∧ h ∈ ss_Nodes (cns_Spec s) ∧ nv_HasPdbEnabled (ng_Validator g) = true ∧
     is_Some (ng_Validator h) ∧ ng_Name h = ng_Name g +:+ "-validator").
Proof.
  intros Ha. split.
  - intros (name & Hd & Hw). by apply (dropped_and_wanted s name).
  - intros (g & h & Hg & Hh & Hp & Hv & E). exists (validator_pdb_name s g). by apply (paired_budget_dropped s g h).
Qed.

(** ** Only its own budgets *)

Section promises.
Context `{MetaApi} `{ApplyApi}.
Variable s : ChainNodeSet.
Abbreviation ns := (cns_Namespace s).

Definition budget_seen (p : PodDisruptionBudget) (h : list kevent) : Prop :=
  (∃ name, Ev (GetPDB ns name) (Ok p) ∈ h) ∨ ∃ l, Ev (ListPDBs ns) (Ok l) ∈ h ∧ p ∈ l.
Definition budget_gone (p : PodDisruptionBudget) (h : list kevent) : Prop :=
  Ev (GetPDB (meta_Namespace (pb_meta p)) (pb_Name p)) (Err (ApiError ReasonNotFound)) ∈ h.
#[export] Instance budget_seen_stable p : Stable (budget_seen p).
Proof. unfold budget_seen. apply _. Qed.
#[export] Instance budget_gone_stable p : Stable (budget_gone p).
Proof. unfold budget_gone. apply _. Qed.

(** A budget is created for a free name; one that exists is changed or, by its UID, deleted only
    when it is the set's own: no controller of anybody else, and controlled by the set or
    recognised as made by an older version of it. *)
Definition budget_request (actions : list pdb_action) (h : list kevent) (r : request) : Prop :=
  match r with
  | GetPDB _ _ | ListPDBs _ => True
  | CreatePDB p => ∃ d m, EnsurePDB d ∈ actions ∧ Ev (GetPDB ns (pb_Name d)) (Err (ApiError ReasonNotFound)) ∈ h ∧
      SetControllerReference (cns_meta s) (pb_meta d) = Ok m ∧
      p = mkPDB m (pb_MinAvailable d) (pb_MaxUnavailable d) (pb_Selector d)
  | UpdatePDB p => ∃ d m current, EnsurePDB d ∈ actions ∧ Ev (GetPDB ns (pb_Name d)) (Ok current) ∈ h ∧
      own_pdb s current = true ∧ SetControllerReference (cns_meta s) (pb_meta current) = Ok m ∧
      p = mkPDB m (pb_MinAvailable d) None (pb_Selector d)
  | DeletePDB pns name uid => ∃ p, budget_seen p h ∧ own_pdb s p = true ∧
      pns = meta_Namespace (pb_meta p) ∧ name = pb_Name p ∧ uid = meta_UID (pb_meta p)
  | _ => False
  end.

Variable actions : list pdb_action.

Lemma deletePodDisruptionBudgetExact_spec p h :
  budget_seen p h → own_pdb s p = true →
  spec (budget_request actions) h (deletePodDisruptionBudgetExact p) (λ h' r, r = Ok true → budget_gone p h').
Proof.
  intros Hs Ho. assert (∀ h', spec (budget_request actions) h'
    (confirm_absent (call (GetPDB (meta_Namespace (pb_meta p)) (meta_Name (pb_meta p))))
       (return_result false) (return_result true)) (λ h2 r, r = Ok true → budget_gone p h2)) as Hc.
  { intros h'. simpl. split; [done|]. confirm_answers. intros _. by left. }
  unfold deletePodDisruptionBudgetExact. destruct (meta_DeletionTimestamp _); [apply Hc|].
  unfold ignoring_not_found. rewrite spec_mbind. simpl. split; [by exists p|].
  intros [[]|e]; [apply Hc|]. destruct (IsNotFound e); [apply Hc|done].
Qed.
#[local] Opaque deletePodDisruptionBudgetExact.

Lemma maybeDeletePDB_spec name h : spec (budget_request actions) h (maybeDeletePDB s name) (λ _ _, True).
Proof.
  unfold maybeDeletePDB. rewrite spec_mbind. simpl. split; [done|]. intros [p|e]; [|by destruct (IsNotFound e)].
  destruct (own_pdb s p) eqn:Eo; simpl; [|done]. rewrite spec_mbind.
  eapply spec_conseq; [apply deletePodDisruptionBudgetExact_spec; [left; exists name; by left|done]|].
  intros h' [[]|e] _ _; [done..|]. by destruct (IsNotFound e).
Qed.

Lemma perform_action_spec a h :
  a ∈ actions → (∀ p, a = EnsurePDB p → meta_Namespace (pb_meta p) = ns) →
  spec (budget_request actions) h (perform_action s a) (λ _ _, True).
Proof.
  intros Ha Hn. destruct a as [p|name]; [|apply maybeDeletePDB_spec]. simpl perform_action. specialize (Hn p eq_refl).
  unfold ensurePodDisruptionBudget. rewrite spec_mbind. simpl. split; [done|]. rewrite Hn. intros [current|e].
  - destruct (foreign_pdb s current); [done|]. destruct (own_pdb s current) eqn:Eo; simpl; [|done].
    destruct (pdb_up_to_date _ _ _); [done|]. destruct (SetControllerReference _ _) as [m|] eqn:Em; [|done]. simpl.
    split; [|done]. exists p, m, current. split_and!; [done|by left|done..].
  - destruct (IsNotFound e) eqn:En; simpl; [|done]. unfold IsNotFound in En. to_prop. subst.
    destruct (SetControllerReference _ _) as [m|] eqn:Em; [|done]. simpl. split; [|done].
    exists p, m. split_and!; [done|by left|done..].
Qed.
#[local] Opaque maybeDeletePDB.

Lemma deleteStalePodDisruptionBudgets_spec desired h :
  spec (budget_request actions) h (deleteStalePodDisruptionBudgets s desired) (λ _ _, True).
Proof.
  unfold deleteStalePodDisruptionBudgets. rewrite spec_try. simpl. split; [done|]. intros [l|e]; [|done].
  apply (for_each_call_permitted _ (λ _, True)); [|done]. intros p h' _ _.
  destruct (stale_pdb s desired p); [apply maybeDeletePDB_spec|done].
Qed.

(** When a deleted set gives its finalizer up, every budget of its own that was listed was seen gone. *)
Definition budgets_gone (h : list kevent) : Prop :=
  ∃ l, Ev (ListPDBs ns) (Ok l) ∈ h ∧ ∀ p, p ∈ l → own_pdb s p = true → budget_gone p h.
#[export] Instance budgets_gone_stable : Stable budgets_gone.
Proof.
  unfold budgets_gone. apply stable_ex. intros l. apply stable_and; [apply _|].
  intros h h' Hs Hp p Hin Ho. eapply budget_gone_stable; [exact Hs|auto].
Qed.
Definition without_budget_finalizer : ChainNodeSet :=
  with_cns_meta s (RemoveFinalizer (cns_meta s) podDisruptionBudgetFinalizer).
Definition finalize_budgets_permitted (h : list kevent) (r : request) : Prop :=
  budget_request [] h r ∨ budgets_gone h ∧ r = UpdateChainNodeSet without_budget_finalizer.
End promises.

Lemma finalizePodDisruptionBudgets_finalizes `{MetaApi} `{ApplyApi} s h :
  spec (finalize_budgets_permitted s) h (finalizePodDisruptionBudgets s) (λ h' r, ∀ s', r = Ok (true, s') →
    budgets_gone s h' ∧
    s' = if ContainsFinalizer (cns_meta s) podDisruptionBudgetFinalizer then without_budget_finalizer s else s).
Proof.
  unfold finalizePodDisruptionBudgets. rewrite spec_try. simpl. split; [by left|]. intros [l|e]; [|done]. rewrite spec_try.
  eapply spec_mono; [apply spec_suffix, (all_of_spec (budget_request s []) _ (λ p h, own_pdb s p = true → budget_gone p h))|
    by intros h' r _ Hr; left|].
  - intros p h1 h2 Hs Hp Ho. eapply budget_gone_stable; [exact Hs|auto].
  - intros p h1 Hin Hs. destruct (own_pdb s p) eqn:Eo; [|done].
    eapply spec_conseq; [apply (deletePodDisruptionBudgetExact_spec s []); [|done]|auto].
    right. exists l. split; [eapply stable_seen; [exact Hs|by left]|done].
  - intros h1 [[]|e] _ [Hs H1]; simpl; [|done|done].
    assert (budgets_gone s h1) as Hg.
    { exists l. split; [eapply stable_seen; [exact Hs|by left]|]. intros p Hp Ho. by apply H1. }
    destruct (ContainsFinalizer _ _); simpl; [|by intros s' [= <-]].
    split; [by right|]. intros [[]|e]; simpl; [|done]. intros s' [= <-]. split; [|done].
    eapply budgets_gone_stable; [|exact Hg]. by eexists [_].
Qed.

Lemma actions_namespace s p : EnsurePDB p ∈ pdb_actions s → meta_Namespace (pb_meta p) = cns_Namespace s.
Proof.
  unfold pdb_actions. intros [E|Hin]%elem_of_cons.
  - unfold top_action in E. destruct (nv_HasPdbEnabled _); [by injection E as ->|done].
  - apply list_elem_of_bind in Hin as (g & Hin & Hg). unfold group_actions in Hin.
    apply elem_of_app in Hin as [[E|[]%elem_of_nil]%elem_of_cons|Hin].
    + destruct (is_some _), (group_HasPdbEnabled g); by try injection E as ->.
    + destruct (nv_HasPdbEnabled _).
      * apply elem_of_cons in Hin as [E|[]%elem_of_nil]. by injection E as ->.
      * destruct (bool_decide _); [by apply elem_of_nil in Hin|]. by apply elem_of_cons in Hin as [E|[]%elem_of_nil].
Qed.

(** reconciling the budgets of a set never touches a budget another controller holds, nor one
    that nobody holds and that does not carry a selector of this set: it creates only on a free name,
    and updates and deletes, by UID, only budgets it saw to be its own.  Of the set itself it only
    writes the history of names. *)
Theorem ensurePodDisruptionBudgets_spec `{MetaApi} `{ApplyApi} s h :
  let s' := (with_history s).1 in
  spec (λ h r, budget_request s' (pdb_actions s') h r ∨ r = UpdateChainNodeSet s') h
    (ensurePodDisruptionBudgets s) (λ _ _, True).
Proof.
  unfold ensurePodDisruptionBudgets. rewrite spec_try. unfold recordGrouplessPDBHistory.
  destruct (with_history s) as [s' changed] eqn:Ew. simpl.
  assert (∀ h', spec (λ h r, budget_request s' (pdb_actions s') h r ∨ r = UpdateChainNodeSet s') h'
    (for_each_call (perform_action s') (pdb_actions s') ;? deleteStalePodDisruptionBudgets s' (desired_pdbs s')) (λ _ _, True)) as Hrest.
  { intros h'. rewrite spec_try. eapply spec_mono; [apply (for_each_call_permitted _ (λ _, True)); [|done]|by intros h1 r _ ?; left|].
    - intros a h1 Ha _. apply perform_action_spec; [done|]. intros p ->. by apply actions_namespace.
    - intros h1 [[]|e] _ _; [|done]. eapply spec_mono; [apply deleteStalePodDisruptionBudgets_spec|by intros h2 r _ ?; left|done]. }
  destruct changed; simpl; [split; [by right|]; intros [[]|e]; simpl; [apply Hrest|done]|].
  assert (s' = s) as <-; [|apply Hrest]. revert Ew. unfold with_history. destruct (bool_decide _); [by intros [= ->]|done].
Qed.

(** When a deleted set reports its budgets gone, each of its own that was listed was seen absent;
    the finalizer is removed only then. *)
Theorem finalizePodDisruptionBudgets_spec `{MetaApi} `{ApplyApi} s h :
  spec (finalize_budgets_permitted s) h (finalizePodDisruptionBudgets s) (λ h' r, ∀ s', r = Ok (true, s') →
    budgets_gone s h' ∧
    s' = if ContainsFinalizer (cns_meta s) podDisruptionBudgetFinalizer then without_budget_finalizer s else s).
Proof. apply finalizePodDisruptionBudgets_finalizes. Qed.

(** *** Two validator groups *)

(** Validator groups [vals] and [vals-validator], each with an enabled budget: the webhook admits
    them, and every pass makes the budget of the first and deletes it again. *)
Definition budgeted (name : string) (init : option GenesisInitConfig) : NodeGroupSpec :=
  ng_with_Validator (newNodeGroup name) (Some (mkNodeSetValidator None None init None None no_resources ∅ None None None
    no_resources None None (Some (mkPdb true None)) None None None None)).
Definition paired_set : ChainNodeSet :=
  mkChainNodeSet (mkMeta "set" "ns" "uid-1" ∅ None [] [] None 0 "")
    (newChainNodeSetSpec (newAppSpec "img" None "app" []) None [budgeted "vals" (nv_Init (initializer None "1")); budgeted "vals-validator" None] None)
    (newChainNodeSetStatus "chain-1" [] 0 []).
Definition empty_cluster : fake := mkFake [] ∅ ["ns"] [] [paired_set] [] [] [] [] [] [] [] [].
Definition pass (w : fake) : result () * fake :=
  exec w (@ensurePodDisruptionBudgets reference_meta reference_apply paired_set).
Definition budgets_after (w : fake) : list string := map pb_Name (fk_pdbs (pass w).2).

#[local] Existing Instances reference_quantity plain_labels no_urls no_sizes reference_documents.

(** The pair is admitted, and the budget of the first group is gone after every pass. *)
Lemma wanted_budget_dropped_witness :
  is_ok (nodeset_Validate paired_set None) = true ∧
  (∃ name, DropPDB name ∈ pdb_actions paired_set ∧ name ∈ desired_pdbs paired_set) ∧
  ((pass empty_cluster).1, budgets_after empty_cluster) = (Ok (), ["set-vals-validator-validator"]) ∧
  bool_decide ("set-vals-validator" ∈ desired_pdbs paired_set) = true.
Proof.
  split; [vm_compute; reflexivity|]. split; [|split; vm_compute; reflexivity].
  assert (∃ w, nodeset_Validate paired_set None = Ok w) as [w Hw] by (eexists; vm_compute; reflexivity).
  apply (wanted_budget_dropped_iff paired_set (admitted paired_set None w Hw)).
  exists (budgeted "vals" (nv_Init (initializer None "1"))), (budgeted "vals-validator" None). split_and!; [by left|by right; left|done|by eexists|done].
Defined.
