(* ===== verification/Reservation.v ===== *)
(** * Consensus-key reservations ([internal/cosmosigner/reservation.go], [reservation_lifecycle.go])

    One cluster-scoped object per chain and public key records which root
    resource may sign with it.  This file holds the acquisition loop with its
    conflict scans, the recovery of a stale owner's reservation, the release of a
    root's reservations and the finalizer that guards them. *)

From S2P Require Import Prelude GoLib IO ThirdParty ApiTypes KubeApi CosmosignerSpec.
From S2P Require Import SignerResolve SigningNames SigningPaths.

Definition ErrConsensusKeyReservationConflict : string := "consensus key reservation conflict".
Definition ErrConsensusKeyReservationRecoveryBlocked : string := "consensus key reservation recovery blocked".
Definition conflict (format : string) (args : list fmt_arg) : error :=
  Wrapf (Sentinel ErrConsensusKeyReservationConflict) format args.

(** [reservationRecoveryBlockedError] unwraps to both sentinels. *)
Definition reservationRecoveryBlockedError (reservation detail_format : string) (detail : list fmt_arg) : error :=
  Joined (Sentinel ErrConsensusKeyReservationConflict) (Sentinel ErrConsensusKeyReservationRecoveryBlocked)
    "stale reservation %q cannot be recovered automatically: %s"
    ([AStr reservation; AStr detail_format] ++ detail).

Record ReservationHolder := mkHolder {
  rh_UID : string;
  rh_Kind : string;
  rh_Namespace : string;
  rh_Name : string;
  rh_Claim : string;
  rh_LegacyStatusNames : list string;
  rh_LegacyNodeNames : list string;
}.

Definition ConsensusKeyReservationName (chainID publicKey : string) : string :=
  "consensus-key-" +:+ slice_to 48 (Sha256 (chainID +:+ nul +:+ publicKey)).

#[global] Arguments ConsensusKeyReservationName : simpl never.

Definition validateCanonicalPublicKey (publicKey : string) : result () :=
  let bad := Err (Errorf "consensus public key must be canonical base64-encoded Ed25519 key material" []) in
  match b64_decode publicKey with
  | None => bad
  | Some raw => if (String.length raw =? 32)%nat && (b64_encode raw == publicKey) then Ok () else bad
  end.

Definition matchesLegacyStatus (holder : ReservationHolder) (name : string) : bool :=
  existsb (λ allowed, name == allowed) (rh_LegacyStatusNames holder).
Definition matchesLegacyNode (holder : ReservationHolder) (name : string) : bool :=
  existsb (λ allowed, name == allowed) (rh_LegacyNodeNames holder).

(** ** Who holds a reservation *)

Definition reservationOwnedBy (r : ConsensusKeyReservation) (chainID publicKey : string)
    (holder : ReservationHolder) : result () :=
  let s := ckr_Spec r in
  if (rs_ChainID s != chainID) || (rs_PublicKey s != publicKey) ||
     (ckr_Name r != ConsensusKeyReservationName chainID publicKey) then
    Err (conflict "%w: reservation %q has inconsistent immutable identity fields" [AStr (ckr_Name r)])
  else if (rs_OwnerUID s == rh_UID holder) && (rs_Claim s == rh_Claim holder) then Ok ()
  else if rs_OwnerUID s == rh_UID holder then
    Err (conflict "%w: consensus key on chain %q is already reserved for independent claim %q in %s %s/%s"
      [AStr (rs_ChainID s); AStr (rs_Claim s); AStr (rs_OwnerKind s); AStr (rs_Namespace s); AStr (rs_OwnerName s)])
  else
    Err (conflict "%w: consensus key on chain %q is already reserved by %s %s/%s (UID %s)"
      [AStr (rs_ChainID s); AStr (rs_OwnerKind s); AStr (rs_Namespace s); AStr (rs_OwnerName s); AStr (rs_OwnerUID s)]).

Lemma reservationOwnedBy_Ok r chainID publicKey holder :
  reservationOwnedBy r chainID publicKey holder = Ok () ↔
  rs_ChainID (ckr_Spec r) = chainID ∧ rs_PublicKey (ckr_Spec r) = publicKey ∧
  ckr_Name r = ConsensusKeyReservationName chainID publicKey ∧
  rs_OwnerUID (ckr_Spec r) = rh_UID holder ∧ rs_Claim (ckr_Spec r) = rh_Claim holder.
Proof.
  unfold reservationOwnedBy. generalize (ConsensusKeyReservationName chainID publicKey). intros name. split.
  - destruct (_ || _ || _) eqn:E1; [done|]. destruct (_ && _) eqn:E2; [|by case_match].
    intros _. to_prop. by split_and!.
  - intros (-> & -> & -> & -> & ->). by rewrite !bool_decide_eq_true_2.
Qed.

(** The reservation another key of the same claim would be. *)
Definition conflicting_claim (chainID publicKey : string) (holder : ReservationHolder)
    (r : ConsensusKeyReservation) : bool :=
  let s := ckr_Spec r in
  if (rs_OwnerUID s != rh_UID holder) || (rs_ChainID s != chainID) || (rs_Claim s != rh_Claim holder) then false
  else negb ((rs_PublicKey s == publicKey) && (ckr_Name r == ConsensusKeyReservationName chainID publicKey)).

Definition ensureNoConflictingReservationClaim (chainID publicKey : string) (holder : ReservationHolder) :
    kube (result ()) :=
  reservations ←? call (ListReservations Direct);
  if existsb (conflicting_claim chainID publicKey holder) reservations then
    return_error (conflict "%w: claim %q in %s %s/%s already reserves another consensus key on chain %q"
      [AStr (rh_Claim holder); AStr (rh_Kind holder); AStr (rh_Namespace holder); AStr (rh_Name holder); AStr chainID])
  else return_result ().

Section reservation.
Context `{MetaApi} `{JsonApi}.

(** ** Ownership recorded before reservations existed *)

Definition canonicalSDKPublicKey (value : string) : string :=
  match json_key_member value with
  | None => ""
  | Some key => if is_ok (validateCanonicalPublicKey key) then key else ""
  end.

Definition legacyChainNodeMatchesClaim (node : ChainNode) (holder : ReservationHolder) : bool :=
  if cn_UID node == rh_UID holder then true
  else belongsToRoot (cn_meta node) (rh_UID holder) &&
       ((cn_Name node == rh_Claim holder) || matchesLegacyNode holder (cn_Name node)).

Definition legacyCosmosignerStatusMatchesClaim (set : ChainNodeSet) (servingGroup claim : string) : bool :=
  (servingGroup != "") && (GeneratedValidatorNodeName set servingGroup 0 == claim).

Definition legacyChainNodeSetAliasMatchesClaim (set : ChainNodeSet) (holder : ReservationHolder)
    (publicKey : string) : bool :=
  if cns_UID set != rh_UID holder then false
  else if existsb (λ v, (vst_Name v == rh_Claim holder) && (canonicalSDKPublicKey (vst_PubKey v) == publicKey))
                  (sst_Validators (cns_Status set)) then true
  else (length (sst_Validators (cns_Status set)) == 0%nat) && (rh_Claim holder == cns_Name set +:+ "-validator").

Definition legacy_node_conflict (chainID publicKey : string) (holder : ReservationHolder) (node : ChainNode) : bool :=
  if (nst_ChainID (cn_Status node) != chainID) || legacyChainNodeMatchesClaim node holder then false
  else (nst_CosmosignerPublicKey (cn_Status node) == publicKey) ||
       (canonicalSDKPublicKey (nst_PubKey (cn_Status node)) == publicKey).

Definition legacy_set_conflict (chainID publicKey : string) (holder : ReservationHolder) (set : ChainNodeSet) : bool :=
  if sst_ChainID (cns_Status set) != chainID then false else
  existsb (λ signer,
    (st_PublicKey signer == publicKey) &&
    negb ((cns_UID set == rh_UID holder) &&
          (matchesLegacyStatus holder (st_Name signer) ||
           legacyCosmosignerStatusMatchesClaim set (st_ServingGroup signer) (rh_Claim holder))))
    (statuses set) ||
  ((canonicalSDKPublicKey (sst_PubKey (cns_Status set)) == publicKey) &&
   negb (legacyChainNodeSetAliasMatchesClaim set holder publicKey)) ||
  existsb (λ v,
    (canonicalSDKPublicKey (vst_PubKey v) == publicKey) &&
    negb ((cns_UID set == rh_UID holder) &&
          ((vst_Name v == rh_Claim holder) || matchesLegacyNode holder (vst_Name v))))
    (sst_Validators (cns_Status set)).

Definition ensureNoLegacyConsensusKeyOwner (chainID publicKey : string) (holder : ReservationHolder) :
    kube (result ()) :=
  nodes ←? call (ListChainNodes Direct None);
  match find (legacy_node_conflict chainID publicKey holder) nodes with
  | Some node =>
      return_error (conflict "%w: consensus key on chain %q is already recorded by ChainNode %s/%s"
        [AStr chainID; AStr (cn_Namespace node); AStr (cn_Name node)])
  | None =>
      sets ←? call (ListChainNodeSets Direct None);
      match find (legacy_set_conflict chainID publicKey holder) sets with
      | Some set =>
          return_error (conflict "%w: consensus key on chain %q is already recorded by ChainNodeSet %s/%s"
            [AStr chainID; AStr (cns_Namespace set); AStr (cns_Name set)])
      | None => return_result ()
      end
  end.

(** ** Recovering a stale owner's reservation *)

Definition reservationOwnerIsStale (r : ConsensusKeyReservation) : kube (result bool) :=
  let s := ckr_Spec r in
  let verdict (got : result string) : kube (result bool) :=
    match got with
    | Ok uid => return_result (uid != rs_OwnerUID s)
    | Err e => if IsNotFound e then return_result true else return_error e
    end in
  if rs_OwnerKind s == "ChainNode" then
    got ← call (GetChainNode Direct (rs_Namespace s) (rs_OwnerName s)); verdict (cn_UID <$> got)
  else if rs_OwnerKind s == "ChainNodeSet" then
    got ← call (GetChainNodeSet Direct (rs_Namespace s) (rs_OwnerName s)); verdict (cns_UID <$> got)
  else return_error (conflict "%w: reservation %q has unsupported owner kind %q"
         [AStr (ckr_Name r); AStr (rs_OwnerKind s)]).

Definition heldByReservationHolder (m : ObjectMeta) (holder : ReservationHolder) : bool :=
  if (rh_Kind holder == "ChainNode") && (meta_UID m == rh_UID holder) &&
     (meta_Namespace m == rh_Namespace holder) && (meta_Name m == rh_Name holder) then true
  else controlledByUID m (rh_UID holder).

(** One object of a scan: is it the stale owner's, may it sign for the claim, and
    does the new holder already hold it.  The result is the reason to block, or
    the set of UIDs of objects the holder controls. *)
Definition scan_object (stale_owned matches held : bool) (uid : string) (owned_msg unattributed_msg : string * list fmt_arg)
    (uids : gset string) : (string * list fmt_arg) + gset string :=
  if stale_owned then inl owned_msg
  else if matches then
    if held then inr (if uid != "" then {[uid]} ∪ uids else uids) else inl unattributed_msg
  else inr uids.

Fixpoint scan {A} (f : A → gset string → (string * list fmt_arg) + gset string) (l : list A) (uids : gset string) :
    (string * list fmt_arg) + gset string :=
  match l with
  | [] => inr uids
  | x :: l => match f x uids with inl m => inl m | inr uids => scan f l uids end
  end.

Definition scan_args (m : ObjectMeta) (r : ConsensusKeyReservation) (claim : bool) : list fmt_arg :=
  [AStr (meta_Namespace m); AStr (meta_Name m)] ++
  (if claim then [AStr (rs_Claim (ckr_Spec r))] else []) ++ [AStr (rs_OwnerUID (ckr_Spec r))].

Definition scan_node (r : ConsensusKeyReservation) (holder : ReservationHolder) (n : ChainNode) :=
  let s := ckr_Spec r in
  scan_object ((cn_UID n == rs_OwnerUID s) || controlledByUID (cn_meta n) (rs_OwnerUID s))
    ((cn_Name n == rs_Claim s) || ((rs_OwnerKind s == "ChainNode") && (cn_Name n == rs_OwnerName s)))
    (heldByReservationHolder (cn_meta n) holder) (cn_UID n)
    ("ChainNode %s/%s is still controlled by stale owner UID %q", scan_args (cn_meta n) r false)
    ("ChainNode %s/%s matches stale claim %q but is not attributable to owner UID %q", scan_args (cn_meta n) r true).

Definition scan_sts (r : ConsensusKeyReservation) (holder : ReservationHolder) (sts : StatefulSet) :=
  scan_object (controlledByUID (sts_meta sts) (rs_OwnerUID (ckr_Spec r)))
    (staleReservationStatefulSetMatches sts r)
    (heldByReservationHolder (sts_meta sts) holder) (meta_UID (sts_meta sts))
    ("StatefulSet %s/%s is still controlled by stale owner UID %q", scan_args (sts_meta sts) r false)
    ("StatefulSet %s/%s matches the stale signer labels but is not attributable to owner UID %q", scan_args (sts_meta sts) r false).

Definition scan_job (r : ConsensusKeyReservation) (holder : ReservationHolder) (job : Job) :=
  scan_object (controlledByUID (job_meta job) (rs_OwnerUID (ckr_Spec r)))
    (staleReservationJobMatches job r)
    (heldByReservationHolder (job_meta job) holder) (meta_UID (job_meta job))
    ("Job %s/%s is still controlled by stale owner UID %q", scan_args (job_meta job) r false)
    ("Job %s/%s matches stale claim %q but is not attributable to owner UID %q", scan_args (job_meta job) r true).

(** A pod is also held when its controller is an object the holder controls; pods
    add nothing to the set. *)
Definition scan_pod (r : ConsensusKeyReservation) (holder : ReservationHolder) (pod : Pod) (uids : gset string) :=
  let controller := match GetControllerOf (pod_meta pod) with Some c => or_UID c | None => "" end in
  scan_object (controlledByUID (pod_meta pod) (rs_OwnerUID (ckr_Spec r)))
    (staleReservationPodMatches pod r)
    (heldByReservationHolder (pod_meta pod) holder || bool_decide (controller ∈ uids)) ""
    ("Pod %s/%s is still controlled by stale owner UID %q", scan_args (pod_meta pod) r false)
    ("Pod %s/%s matches stale claim %q but is not attributable to owner UID %q", scan_args (pod_meta pod) r true)
    uids.

(** [None] when every signing path is gone, otherwise what still blocks. *)
Definition staleReservationSigningPathsGone (r : ConsensusKeyReservation) (holder : ReservationHolder) :
    kube (result (option (string * list fmt_arg))) :=
  let namespace := rs_Namespace (ckr_Spec r) in
  ns ← call (GetNamespace Direct namespace);
  match ns with
  | Err e => if IsNotFound e then return_result None else return_error e
  | Ok _ =>
      nodes ←? call (ListChainNodes Direct (Some namespace));
      match scan (scan_node r holder) nodes ∅ with
      | inl blocked => return_result (Some blocked)
      | inr uids =>
          sets ←? call (ListStatefulSets Direct namespace);
          match scan (scan_sts r holder) sets uids with
          | inl blocked => return_result (Some blocked)
          | inr uids =>
              jobs ←? call (ListJobs Direct namespace);
              match scan (scan_job r holder) jobs uids with
              | inl blocked => return_result (Some blocked)
              | inr uids =>
                  pods ←? call (ListPods Direct namespace);
                  match scan (scan_pod r holder) pods uids with
                  | inl blocked => return_result (Some blocked)
                  | inr _ => return_result None
                  end
              end
          end
      end
  end.

(** Deleting one exact reservation and confirming that it is absent. *)
Definition delete_and_confirm (r : ConsensusKeyReservation) : kube (result bool) :=
  ignoring_not_found (call (DeleteReservation (ckr_Name r) (ckr_UID r)))
    (confirm_absent (call (GetReservation Direct (ckr_Name r))) (return_result false) (return_result true)).

Definition recoverStaleConsensusKeyReservation (r : ConsensusKeyReservation)
    (chainID publicKey : string) (holder : ReservationHolder) : kube (result bool) :=
  let s := ckr_Spec r in
  if (rs_OwnerUID s == rh_UID holder) || (rs_ChainID s != chainID) || (rs_PublicKey s != publicKey) ||
     (ckr_Name r != ConsensusKeyReservationName chainID publicKey) then return_result false
  else if (rs_OwnerKind s != rh_Kind holder) || (rs_Namespace s != rh_Namespace holder) ||
          (rs_OwnerName s != rh_Name holder) then return_result false
  else if (rs_OwnerUID s == "") || ((rs_OwnerKind s != "ChainNode") && (rs_OwnerKind s != "ChainNodeSet")) ||
          (rs_Namespace s == "") || (rs_OwnerName s == "") || (rs_Claim s == "") then
    return_error (conflict "%w: reservation %q has incomplete stale-owner metadata; refusing automatic recovery"
      [AStr (ckr_Name r)])
  else if rs_Claim s != rh_Claim holder then return_result false
  else
    stale ←? reservationOwnerIsStale r;
    if negb stale then return_result false else
    blockedBy ←? staleReservationSigningPathsGone r holder;
    match blockedBy with
    | Some (format, args) => return_error (reservationRecoveryBlockedError (ckr_Name r) format args)
    | None =>
        ensureNoConflictingReservationClaim chainID publicKey holder ;?
        ensureNoLegacyConsensusKeyOwner chainID publicKey holder ;?
        if ckr_UID r == "" then return_result false else delete_and_confirm r
    end.

(** ** Acquisition *)

(** The created object: the server assigns the rest of the metadata. *)
Definition new_reservation (chainID publicKey : string) (holder : ReservationHolder) : ConsensusKeyReservation :=
  mkReservation (meta_of_name "" (ConsensusKeyReservationName chainID publicKey))
    (mkReservationSpec chainID publicKey (rh_UID holder) (rh_Kind holder) (rh_Namespace holder)
       (rh_Name holder) (rh_Claim holder)).

(** Result and error are returned together; [er_Recovered] is the name of the
    last reservation recovered.  [None] is an exhausted fuel: the loop of the
    source has no bound. *)
Record EnsureResult := mkEnsureResult { er_Recovered : string; er_Result : result () }.

Definition ensure_checks (chainID publicKey : string) (holder : ReservationHolder) : kube (result ()) :=
  ensureNoConflictingReservationClaim chainID publicKey holder ;?
  ensureNoLegacyConsensusKeyOwner chainID publicKey holder.

Fixpoint ensure_loop (fuel : nat) (chainID publicKey : string) (holder : ReservationHolder)
    (recovered : string) : kube (option EnsureResult) :=
  match fuel with
  | O => Ret None
  | S fuel =>
      let name := ConsensusKeyReservationName chainID publicKey in
      let return_ (r : result ()) : kube (option EnsureResult) := Ret (Some (mkEnsureResult recovered r)) in
      got ← call (GetReservation Direct name);
      match got with
      | Ok existing =>
          match reservationOwnedBy existing chainID publicKey holder with
          | Err notOwned =>
              rec ← recoverStaleConsensusKeyReservation existing chainID publicKey holder;
              match rec with
              | Err recoveryErr => return_ (Err recoveryErr)
              | Ok true => ensure_loop fuel chainID publicKey holder (ckr_Name existing)
              | Ok false => return_ (Err notOwned)
              end
          | Ok _ => r ← ensure_checks chainID publicKey holder; return_ r
          end
      | Err e =>
          if negb (IsNotFound e) then return_ (Err e) else
          checked ← ensure_checks chainID publicKey holder;
          match checked with
          | Err e => return_ (Err e)
          | Ok _ =>
              created ← call (CreateReservation (new_reservation chainID publicKey holder));
              match created with
              | Ok _ => r ← ensure_checks chainID publicKey holder; return_ r
              | Err e => if negb (IsAlreadyExists e) then return_ (Err e)
                         else ensure_loop fuel chainID publicKey holder recovered
              end
          end
      end
  end.

Definition EnsureConsensusKeyReservationWithResult (fuel : nat) (chainID publicKey : string)
    (holder : ReservationHolder) : kube (option EnsureResult) :=
  if (rh_UID holder == "") || (chainID == "") || (rh_Claim holder == "") then
    Ret (Some (mkEnsureResult "" (Err (Errorf "consensus-key reservation requires owner UID, chain ID, and claim" []))))
  else match validateCanonicalPublicKey publicKey with
       | Err e => Ret (Some (mkEnsureResult "" (Err e)))
       | Ok _ => ensure_loop fuel chainID publicKey holder ""
       end.

Definition EnsureConsensusKeyReservation (fuel : nat) (chainID publicKey : string) (holder : ReservationHolder) :
    kube (option (result ())) :=
  r ← EnsureConsensusKeyReservationWithResult fuel chainID publicKey holder;
  Ret (option_map er_Result r).

(** ** Release *)

Definition reservationOwnerKind (owner : Owner) : result string :=
  match owner with
  | OwnerChainNode _ => Ok "ChainNode"
  | OwnerChainNodeSet _ => Ok "ChainNodeSet"
  | OwnerOther _ => Err (Errorf "unsupported consensus-key reservation owner %T" [AStr (owner_type owner)])
  end.

Definition names_exact_owner (kind : string) (owner : Owner) (r : ConsensusKeyReservation) : bool :=
  let s := ckr_Spec r in
  (rs_OwnerUID s == owner_UID owner) && (rs_OwnerKind s == kind) && (rs_Namespace s == owner_Namespace owner) &&
  (rs_OwnerName s == owner_Name owner) && (rs_Claim s != "").

Definition ReleaseConsensusKeyReservationClaim (owner : Owner) (r : ConsensusKeyReservation) : kube (result bool) :=
  match reservationOwnerKind owner with
  | Err e => return_error e
  | Ok kind =>
      if negb (names_exact_owner kind owner r) then
        return_error (Errorf "reservation %q does not match exact owner %s %s/%s UID %q"
          [AStr (ckr_Name r); AStr kind; AStr (owner_Namespace owner); AStr (owner_Name owner); AStr (owner_UID owner)])
      else if ckr_UID r == "" then
        return_error (Errorf "reservation %q has no object UID; refusing an unguarded delete" [AStr (ckr_Name r)])
      else delete_and_confirm r
  end.

(** The names released, whether the release is complete, and the error: all
    three are returned together. *)
Record ReleaseResult := mkRelease { rl_Released : list string; rl_Done : bool; rl_Error : option error }.

Fixpoint release_loop (kind : string) (owner : Owner) (l : list ConsensusKeyReservation) (released : list string) :
    kube ReleaseResult :=
  match l with
  | [] =>
      got ← call (ListReservations Direct);
      match got with
      | Err e => Ret (mkRelease released false (Some e))
      | Ok confirmed =>
          Ret (mkRelease released
                 (negb (existsb (λ r, rs_OwnerUID (ckr_Spec r) == owner_UID owner) confirmed)) None)
      end
  | r :: l =>
      if rs_OwnerUID (ckr_Spec r) != owner_UID owner then release_loop kind owner l released
      else if rs_OwnerKind (ckr_Spec r) != kind then
        Ret (mkRelease released false (Some (Errorf "reservation %q matches owner UID %q but has inconsistent owner kind %q"
          [AStr (ckr_Name r); AStr (owner_UID owner); AStr (rs_OwnerKind (ckr_Spec r))])))
      else
        done ← ReleaseConsensusKeyReservationClaim owner r;
        match done with
        | Err e => Ret (mkRelease released false (Some e))
        | Ok false => Ret (mkRelease released false None)
        | Ok true => release_loop kind owner l (released ++ [ckr_Name r])
        end
  end.

Definition ReleaseConsensusKeyReservations (owner : Owner) : kube ReleaseResult :=
  match reservationOwnerKind owner with
  | Err e => Ret (mkRelease [] false (Some e))
  | Ok kind =>
      got ← call (ListReservations Direct);
      match got with
      | Err e => Ret (mkRelease [] false (Some e))
      | Ok reservations =>
          release_loop kind owner (sort_slice (λ a b, String.ltb (ckr_Name a) (ckr_Name b)) reservations) []
      end
  end.

Definition HasConsensusKeyReservationsForOwner (owner : Owner) : kube (result bool) :=
  match reservationOwnerKind owner with
  | Err e => return_error e
  | Ok kind =>
      reservations ←? call (ListReservations Direct);
      match find (λ r, rs_OwnerUID (ckr_Spec r) == owner_UID owner) reservations with
      | None => return_result false
      | Some r =>
          if names_exact_owner kind owner r then return_result true
          else return_error (Errorf "reservation %q matches owner UID %q but has inconsistent owner or claim metadata"
                 [AStr (ckr_Name r); AStr (owner_UID owner)])
      end
  end.

(** ** The lifecycle finalizer *)

Definition ReservationOwnerFinalizer : string := "cosmopilot.voluzi.com/consensus-key-reservation-cleanup".

(** Reading and patching the root through its dynamic type.  The two custom
    resources are the roots the controllers pass; any other type, which the code
    refuses only when it copies the fresh object back, is refused here at once. *)
Definition get_owner (owner : Owner) : kube (result Owner) :=
  match owner with
  | OwnerChainNode n =>
      r ←? call (GetChainNode Direct (cn_Namespace n) (cn_Name n)); return_result (OwnerChainNode r)
  | OwnerChainNodeSet s =>
      r ←? call (GetChainNodeSet Direct (cns_Namespace s) (cns_Name s)); return_result (OwnerChainNodeSet r)
  | OwnerOther m => return_error (Errorf "unsupported consensus-key reservation owner %T" [AStr (owner_type owner)])
  end.

Definition add_finalizer (owner : Owner) : Owner :=
  match owner with
  | OwnerChainNode n =>
      OwnerChainNode (mkChainNode (AddFinalizer (cn_meta n) ReservationOwnerFinalizer) (cn_Spec n) (cn_Status n))
  | OwnerChainNodeSet s =>
      OwnerChainNodeSet (mkChainNodeSet (AddFinalizer (cns_meta s) ReservationOwnerFinalizer) (cns_Spec s) (cns_Status s))
  | OwnerOther m => OwnerOther (AddFinalizer m ReservationOwnerFinalizer)
  end.

Definition patch_owner (owner : Owner) : kube (result ()) :=
  match owner with
  | OwnerChainNode n => call (PatchChainNode n)
  | OwnerChainNodeSet s => call (PatchChainNodeSet s)
  | OwnerOther _ => return_result ()
  end.

Definition owner_deleted (o : Owner) : bool := is_some (meta_DeletionTimestamp (owner_meta o)).
Definition has_finalizer (o : Owner) : bool := ContainsFinalizer (owner_meta o) ReservationOwnerFinalizer.

(** Whether the finalizer was added by this call, and the refreshed root that
    replaces the caller's copy. *)
Definition EnsureConsensusKeyReservationOwnerFinalizer (owner : Owner) : kube (result (bool * Owner)) :=
  let names := [AStr (owner_Namespace owner); AStr (owner_Name owner)] in
  if owner_UID owner == "" then
    return_error (Errorf "consensus-key reservation owner %s/%s has no UID" names)
  else
    fresh ←? get_owner owner;
    if owner_UID fresh != owner_UID owner then
      return_error (Errorf "consensus-key reservation owner %s/%s changed UID from %q to %q"
        (names ++ [AStr (owner_UID owner); AStr (owner_UID fresh)]))
    else if owner_deleted fresh then
      return_error (Errorf "consensus-key reservation owner %s/%s is already terminating" names)
    else if has_finalizer fresh then return_result (false, fresh)
    else
      patch_owner (add_finalizer fresh) ;?
      (confirmed ←? get_owner owner;
       if (owner_UID confirmed != owner_UID owner) || negb (has_finalizer confirmed) then
         return_error (Errorf "consensus-key reservation finalizer was not persisted on exact owner UID %q"
           [AStr (owner_UID owner)])
       else return_result (true, confirmed)).

(** ** Observations *)

(** A reservation as the API server returned it. *)
Definition saw_reservation (r : ConsensusKeyReservation) (h : list kevent) : Prop :=
  Ev (GetReservation Direct (ckr_Name r)) (Ok r) ∈ h ∨
  ∃ l, Ev (ListReservations Direct) (Ok l) ∈ h ∧ r ∈ l.

(** The owner a reservation names was seen absent, or with another UID. *)
Definition saw_stale (r : ConsensusKeyReservation) (e : kevent) : Prop :=
  let s := ckr_Spec r in
  (rs_OwnerKind s = "ChainNode" ∧
   (e = Ev (GetChainNode Direct (rs_Namespace s) (rs_OwnerName s)) (Err (ApiError ReasonNotFound)) ∨
    ∃ n, e = Ev (GetChainNode Direct (rs_Namespace s) (rs_OwnerName s)) (Ok n) ∧ cn_UID n ≠ rs_OwnerUID s)) ∨
  (rs_OwnerKind s = "ChainNodeSet" ∧
   (e = Ev (GetChainNodeSet Direct (rs_Namespace s) (rs_OwnerName s)) (Err (ApiError ReasonNotFound)) ∨
    ∃ n, e = Ev (GetChainNodeSet Direct (rs_Namespace s) (rs_OwnerName s)) (Ok n) ∧ cns_UID n ≠ rs_OwnerUID s)).

(** What still signs through an object of the stale owner: nothing it controls,
    and nothing that matches the claim unless the new holder has it. *)
Definition clear_of (owned matches held : bool) : Prop := owned = false ∧ (matches = true → held = true).

Definition node_clear (r : ConsensusKeyReservation) (holder : ReservationHolder) (n : ChainNode) : Prop :=
  let s := ckr_Spec r in
  clear_of ((cn_UID n == rs_OwnerUID s) || controlledByUID (cn_meta n) (rs_OwnerUID s))
    ((cn_Name n == rs_Claim s) || ((rs_OwnerKind s == "ChainNode") && (cn_Name n == rs_OwnerName s)))
    (heldByReservationHolder (cn_meta n) holder).
Definition sts_clear (r : ConsensusKeyReservation) (holder : ReservationHolder) (sts : StatefulSet) : Prop :=
  clear_of (controlledByUID (sts_meta sts) (rs_OwnerUID (ckr_Spec r))) (staleReservationStatefulSetMatches sts r)
    (heldByReservationHolder (sts_meta sts) holder).
Definition job_clear (r : ConsensusKeyReservation) (holder : ReservationHolder) (job : Job) : Prop :=
  clear_of (controlledByUID (job_meta job) (rs_OwnerUID (ckr_Spec r))) (staleReservationJobMatches job r)
    (heldByReservationHolder (job_meta job) holder).

(** A pod's controller is one of the listed objects, held by the new holder. *)
Definition held_controller (holder : ReservationHolder) (nodes : list ChainNode) (sets : list StatefulSet)
    (jobs : list Job) (pod : Pod) : Prop :=
  ∃ c m, GetControllerOf (pod_meta pod) = Some c ∧ or_UID c = meta_UID m ∧
    m ∈ map cn_meta nodes ++ map sts_meta sets ++ map job_meta jobs ∧
    heldByReservationHolder m holder = true.
Definition pod_clear (r : ConsensusKeyReservation) (holder : ReservationHolder) (nodes : list ChainNode)
    (sets : list StatefulSet) (jobs : list Job) (pod : Pod) : Prop :=
  controlledByUID (pod_meta pod) (rs_OwnerUID (ckr_Spec r)) = false ∧
  (staleReservationPodMatches pod r = true →
   heldByReservationHolder (pod_meta pod) holder = true ∨ held_controller holder nodes sets jobs pod).

Definition paths_gone (r : ConsensusKeyReservation) (holder : ReservationHolder) (h : list kevent) : Prop :=
  let ns := rs_Namespace (ckr_Spec r) in
  Ev (GetNamespace Direct ns) (Err (ApiError ReasonNotFound)) ∈ h ∨
  ∃ nodes sets jobs pods,
    in_order [(Ev (ListPods Direct ns) (Ok pods) =.); (Ev (ListJobs Direct ns) (Ok jobs) =.);
              (Ev (ListStatefulSets Direct ns) (Ok sets) =.);
              (Ev (ListChainNodes Direct (Some ns)) (Ok nodes) =.)] h ∧
    Forall (node_clear r holder) nodes ∧ Forall (sts_clear r holder) sets ∧
    Forall (job_clear r holder) jobs ∧ Forall (pod_clear r holder nodes sets jobs) pods.

(** What a routine may do to the reservations, when the owners in [releasing]
    are giving theirs up: create the reservation of a consistent holder, and
    delete one it saw, whose owner it then saw gone or is releasing. *)
Definition well_named (ident : string → string * string * string) (s : ConsensusKeyReservationSpec) : Prop :=
  ident (rs_OwnerUID s) = (rs_OwnerKind s, rs_Namespace s, rs_OwnerName s).

(** The reservation was taken by an earlier incarnation of the holder. *)
Definition names_holder (r : ConsensusKeyReservation) (holder : ReservationHolder) : Prop :=
  rs_OwnerKind (ckr_Spec r) = rh_Kind holder ∧ rs_Namespace (ckr_Spec r) = rh_Namespace holder ∧
  rs_OwnerName (ckr_Spec r) = rh_Name holder ∧ rs_Claim (ckr_Spec r) = rh_Claim holder ∧
  rs_OwnerUID (ckr_Spec r) ≠ rh_UID holder.

Definition disciplined (ident : string → string * string * string) (releasing : string → Prop)
    (h : list kevent) (req : request) : Prop :=
  match req with
  | CreateReservation r => well_named ident (ckr_Spec r)
  | DeleteReservation name uid => ∃ r,
      name = ckr_Name r ∧ uid = ckr_UID r ∧ saw_reservation r h ∧
      ((in_order [saw_stale r] h ∧ ∃ holder, names_holder r holder ∧ paths_gone r holder h) ∨
       releasing (rs_OwnerUID (ckr_Spec r)))
  | _ => True
  end.

Definition holder_named (ident : string → string * string * string) (holder : ReservationHolder) : Prop :=
  ident (rh_UID holder) = (rh_Kind holder, rh_Namespace holder, rh_Name holder).

Lemma paths_gone_suffix r holder h h' : h `suffix_of` h' → paths_gone r holder h → paths_gone r holder h'.
Proof.
  intros Hs [Hn|(nodes & sets & jobs & pods & Hl & Hc)]; [left; by eapply elem_of_suffix|].
  right. exists nodes, sets, jobs, pods. split; [|done]. by eapply in_order_suffix.
Qed.

Lemma scan_spec {A} (f : A → gset string → (string * list fmt_arg) + gset string) (C : A → Prop)
    (X : gset string → Prop) l uids uids' :
  (∀ x u u', x ∈ l → X u → f x u = inr u' → X u' ∧ C x) →
  X uids → scan f l uids = inr uids' → X uids' ∧ Forall C l.
Proof.
  revert uids. induction l as [|x l IH]; intros uids Hf HX; simpl; [by intros [= <-]|].
  destruct (f x uids) as [m|u] eqn:E; [done|]. intros Hs.
  destruct (Hf x uids u) as [HX' HC]; [by left|done|done|].
  destruct (IH u) as [? ?]; [|done|done|by split; [|constructor]].
  intros; apply (Hf x0 u0); [by right|done|done].
Qed.

Lemma scan_object_inr owned matches held uid m1 m2 uids uids' :
  scan_object owned matches held uid m1 m2 uids = inr uids' →
  clear_of owned matches held ∧
  (uids' = uids ∨ (held = true ∧ uid ≠ "" ∧ uids' = {[uid]} ∪ uids)).
Proof.
  unfold scan_object, clear_of. destruct owned; [done|]. destruct matches; [|intros [= <-]; split; [by split|by left]].
  destruct held; [|done]. destruct (bool_decide (uid = "")) eqn:E; simpl; intros [= <-]; to_prop;
    (split; [by split|]); [by left|by right].
Qed.

Section acquisition.
Variables (ident : string → string * string * string) (releasing : string → Prop).
Variables (chainID publicKey : string) (holder : ReservationHolder).

Let P := disciplined ident releasing.

(** The reservation was read as the holder's own, or created by it. *)
Definition acquired (e : kevent) : Prop :=
  let name := ConsensusKeyReservationName chainID publicKey in
  (∃ r, e = Ev (GetReservation Direct name) (Ok r) ∧ reservationOwnedBy r chainID publicKey holder = Ok ()) ∨
  e = Ev (CreateReservation (new_reservation chainID publicKey holder)) (Ok ()).

Definition saw_no_conflicting_claim (e : kevent) : Prop :=
  ∃ l, e = Ev (ListReservations Direct) (Ok l) ∧ Forall (λ r, conflicting_claim chainID publicKey holder r = false) l.
Definition saw_no_legacy_node (e : kevent) : Prop :=
  ∃ l, e = Ev (ListChainNodes Direct None) (Ok l) ∧ Forall (λ n, legacy_node_conflict chainID publicKey holder n = false) l.
Definition saw_no_legacy_set (e : kevent) : Prop :=
  ∃ l, e = Ev (ListChainNodeSets Direct None) (Ok l) ∧ Forall (λ n, legacy_set_conflict chainID publicKey holder n = false) l.

(** After the observations [rest], the three scans found no conflict. *)
Definition clean_after (rest : list (kevent → Prop)) : list kevent → Prop :=
  in_order ([saw_no_legacy_set; saw_no_legacy_node; saw_no_conflicting_claim] ++ rest).

Lemma no_conflicting_claim_spec Q h rest :
  (∀ h, Q h (ListReservations Direct)) → in_order rest h →
  spec Q h (ensureNoConflictingReservationClaim chainID publicKey holder) (λ h' r,
    r = Ok () → in_order (saw_no_conflicting_claim :: rest) h').
Proof.
  intros HQ Hr. simpl. split; [apply HQ|]. intros [l|e]; simpl; [|done].
  destruct (existsb _ l) eqn:E; simpl; [done|]. intros _. apply in_order_here; [|done].
  exists l. split; [done|]. by apply existsb_false.
Qed.

Lemma no_legacy_owner_spec Q h rest :
  (∀ h, Q h (ListChainNodes Direct None)) → (∀ h, Q h (ListChainNodeSets Direct None)) → in_order rest h →
  spec Q h (ensureNoLegacyConsensusKeyOwner chainID publicKey holder) (λ h' r,
    r = Ok () → in_order (saw_no_legacy_set :: saw_no_legacy_node :: rest) h').
Proof.
  intros Hn Hs Hr. simpl. split; [apply Hn|]. intros [l|e]; simpl; [|done].
  destruct (find _ l) eqn:E; simpl; [done|]. split; [apply Hs|]. intros [l'|e]; simpl; [|done].
  destruct (find _ l') eqn:E'; simpl; [done|]. intros _.
  apply in_order_here; [exists l'; split; [done|]; by apply find_None_Forall|].
  apply in_order_here; [exists l; split; [done|]; by apply find_None_Forall|done].
Qed.
#[local] Opaque ensureNoConflictingReservationClaim ensureNoLegacyConsensusKeyOwner.

Lemma ensure_checks_spec h rest :
  in_order rest h →
  spec P h (ensure_checks chainID publicKey holder) (λ h' r, r = Ok () → clean_after rest h').
Proof.
  intros Hr. unfold ensure_checks. rewrite spec_try.
  eapply spec_conseq; [by apply no_conflicting_claim_spec|]. intros h1 [[]|e] _ H1; [|done].
  eapply spec_conseq; [by apply no_legacy_owner_spec, H1|]. done.
Qed.
#[local] Opaque ensure_checks.

(** ** Recovery *)

Lemma reservationOwnerIsStale_spec r h :
  spec P h (reservationOwnerIsStale r) (λ h' b, b = Ok true → in_order [saw_stale r] h').
Proof.
  unfold reservationOwnerIsStale. case_bool_decide as E1; [|case_bool_decide as E2; [|done]];
    simpl; (split; [done|]); intros [n|e]; simpl.
  1,3: intros [= Hn]; to_prop; apply in_order_here; [|done];
       first [left; split; [done|eauto] | right; split; [done|eauto]].
  all: apply if_NotFound; [|done]; intros -> _; apply in_order_here; [|done];
       first [left; split; [done|eauto] | right; split; [done|eauto]].
Qed.

(** The UIDs collected so far belong to listed objects the holder has. *)
Definition held_uids (ms : list ObjectMeta) (uids : gset string) : Prop :=
  ∀ uid, uid ∈ uids → uid ≠ "" ∧ ∃ m, m ∈ ms ∧ meta_UID m = uid ∧ heldByReservationHolder m holder = true.

Lemma held_uids_step ms m uids uids' :
  m ∈ ms → held_uids ms uids →
  uids' = uids ∨ (heldByReservationHolder m holder = true ∧ meta_UID m ≠ "" ∧ uids' = {[meta_UID m]} ∪ uids) →
  held_uids ms uids'.
Proof.
  intros Hm Hu [->|(Hh & Hne & ->)]; [done|]. intros uid [->%elem_of_singleton|?]%elem_of_union; [|auto].
  split; [done|]. by exists m.
Qed.

Lemma held_uids_mono ms ms' uids : ms ⊆ ms' → held_uids ms uids → held_uids ms' uids.
Proof. intros Hs Hu uid Hin. destruct (Hu uid Hin) as (? & m & ? & ?). split; [done|]. exists m. auto. Qed.

Lemma staleReservationSigningPathsGone_gone r h :
  spec P h (staleReservationSigningPathsGone r holder) (λ h' b, b = Ok None → paths_gone r holder h').
Proof.
  unfold staleReservationSigningPathsGone. simpl. split; [done|]. intros [[]|e]; simpl.
  2:{ apply if_NotFound; [|done]. intros -> _. left. by left. }
  split; [done|]. intros [nodes|e]; simpl; [|done].
  destruct (scan (scan_node r holder) nodes ∅) as [m|u1] eqn:E1; simpl; [done|].
  destruct (scan_spec (scan_node r holder) (node_clear r holder) (held_uids (map cn_meta nodes)) nodes ∅ u1)
    as [U1 C1]; [|intros uid; set_solver|done|].
  { intros n u u' Hn Hu [Hc Hs]%scan_object_inr. split; [|done].
    eapply held_uids_step; [|done|exact Hs]. apply list_elem_of_In, in_map. by apply list_elem_of_In. }
  split; [done|]. intros [sets|e]; simpl; [|done].
  destruct (scan (scan_sts r holder) sets u1) as [m|u2] eqn:E2; simpl; [done|].
  destruct (scan_spec (scan_sts r holder) (sts_clear r holder)
              (held_uids (map cn_meta nodes ++ map sts_meta sets)) sets u1 u2)
    as [U2 C2]; [|eapply held_uids_mono; [|done]; set_solver|done|].
  { intros n u u' Hn Hu [Hc Hs]%scan_object_inr. split; [|done].
    eapply held_uids_step; [|done|exact Hs]. apply elem_of_app. right.
    apply list_elem_of_In, in_map. by apply list_elem_of_In. }
  split; [done|]. intros [jobs|e]; simpl; [|done].
  destruct (scan (scan_job r holder) jobs u2) as [m|u3] eqn:E3; simpl; [done|].
  destruct (scan_spec (scan_job r holder) (job_clear r holder)
              (held_uids (map cn_meta nodes ++ map sts_meta sets ++ map job_meta jobs)) jobs u2 u3)
    as [U3 C3]; [|eapply held_uids_mono; [|done]; set_solver|done|].
  { intros n u u' Hn Hu [Hc Hs]%scan_object_inr. split; [|done].
    eapply held_uids_step; [|done|exact Hs]. rewrite !elem_of_app. right; right.
    apply list_elem_of_In, in_map. by apply list_elem_of_In. }
  split; [done|]. intros [pods|e]; simpl; [|done].
  destruct (scan (scan_pod r holder) pods u3) as [m|u4] eqn:E4; simpl; [done|]. intros _. right.
  exists nodes, sets, jobs, pods. split; [by do 4 (apply in_order_here; [done|])|]. split_and!; [done..|].
  eapply (scan_spec (scan_pod r holder) _ (u3 =.)); [|done|done].
  intros pod u u' _ <- [Hc Hs]%scan_object_inr. split; [by destruct Hs as [->|(_ & ? & _)]|].
  destruct Hc as [Ho Hm]. split; [done|]. intros Hmatch. apply Hm, orb_true_iff in Hmatch as [?|Hin]; [by left|].
  right. to_prop. destruct (GetControllerOf (pod_meta pod)) as [c|] eqn:Ec.
  - destruct (U3 _ Hin) as (_ & m & ? & ? & ?). by exists c, m.
  - by destruct (U3 _ Hin) as [? _].
Qed.
(** A stale reservation's signing paths are reported gone only if its
    namespace was seen missing, or the listed nodes, StatefulSets, Jobs and Pods
    hold nothing controlled by the stale owner, and nothing that can sign for its
    claim except objects the new holder already controls. *)
Theorem staleReservationSigningPathsGone_spec r h :
  spec (disciplined ident releasing) h (staleReservationSigningPathsGone r holder) (λ h' b,
    b = Ok None → paths_gone r holder h').
Proof. apply staleReservationSigningPathsGone_gone. Qed.

#[local] Opaque reservationOwnerIsStale staleReservationSigningPathsGone.

Lemma delete_and_confirm_spec r h :
  P h (DeleteReservation (ckr_Name r) (ckr_UID r)) →
  spec P h (delete_and_confirm r) (λ h' b,
    b = Ok true → in_order [(Ev (GetReservation Direct (ckr_Name r)) (Err (ApiError ReasonNotFound)) =.)] h').
Proof.
  intros HP. unfold delete_and_confirm. simpl. split; [done|].
  assert (∀ e, spec P (e :: h)
    (confirm_absent (call (GetReservation Direct (ckr_Name r))) (return_result false) (return_result true))
    (λ h' b, b = Ok true →
       in_order [(Ev (GetReservation Direct (ckr_Name r)) (Err (ApiError ReasonNotFound)) =.)] h')) as Hc.
  { intros e. simpl. split; [done|]. intros [?|e']; simpl; [done|]. apply if_NotFound; [|done].
    intros -> _. by apply in_order_here. }
  intros [?|e]; simpl; [apply Hc|]. destruct (IsNotFound e); [apply Hc|done].
Qed.
#[local] Opaque delete_and_confirm.

Lemma recoverStale_spec r h :
  Ev (GetReservation Direct (ConsensusKeyReservationName chainID publicKey)) (Ok r) ∈ h →
  spec P h (recoverStaleConsensusKeyReservation r chainID publicKey holder) (λ _ _, True).
Proof.
  intros Hsaw. unfold recoverStaleConsensusKeyReservation.
  destruct (_ || _ || _ || _) eqn:E1; [done|]. destruct (_ || _ || _) eqn:E2 in |- *; [done|].
  destruct (_ || _ || _ || _ || _) eqn:E3 in |- *; [done|]. destruct (negb _) eqn:E4 in |- *; [done|]. to_prop.
  rewrite spec_try. eapply spec_conseq; [apply spec_suffix, reservationOwnerIsStale_spec|].
  intros h1 [b|e] _ [S1 Hst]; simpl; [|done]. destruct b; simpl; [|done]. specialize (Hst eq_refl).
  rewrite spec_try. eapply spec_conseq; [apply spec_suffix, staleReservationSigningPathsGone_gone|].
  intros h2 [[[??]|]|e] _ [S2 Hgone]; simpl; [done| |done]. specialize (Hgone eq_refl).
  rewrite spec_try. eapply spec_conseq; [apply spec_suffix, (no_conflicting_claim_spec _ _ []); done|].
  intros h3 [?|e] _ [S3 _]; simpl; [|done].
  rewrite spec_try. eapply spec_conseq; [apply spec_suffix, (no_legacy_owner_spec _ _ []); done|].
  intros h4 [?|e] _ [S4 _]; simpl; [|done]. destruct (bool_decide (ckr_UID r = "")); [done|].
  eapply spec_conseq; [apply delete_and_confirm_spec|done].
  assert (h2 `suffix_of` h4) as S24 by (by etrans). assert (h1 `suffix_of` h4) as S14 by (by etrans).
  exists r. split_and!; [done|done|..].
  - left. eapply elem_of_suffix; [|etrans; [exact S1|exact S14]].
    by match goal with E : ckr_Name r = _ |- _ => rewrite E end.
  - left. split; [by apply (in_order_suffix _ h1)|]. exists holder.
    split; [by unfold names_holder; split_and!|]. by apply (paths_gone_suffix _ _ h2).
Qed.
#[local] Opaque recoverStaleConsensusKeyReservation.

(** ** The acquisition loop *)

Lemma ensure_loop_spec fuel recovered h :
  holder_named ident holder →
  spec P h (ensure_loop fuel chainID publicKey holder recovered) (λ h' r,
    ∀ res, r = Some res → er_Result res = Ok () → clean_after [acquired] h').
Proof.
  intros Hid. revert recovered h. induction fuel as [|fuel IH]; intros recovered h; simpl; [done|].
  split; [done|]. intros [existing|e]; simpl.
  - destruct (reservationOwnedBy existing chainID publicKey holder) as [[]|e] eqn:Eo.
    + rewrite spec_mbind. eapply spec_conseq; [apply (ensure_checks_spec _ [acquired])|].
      * apply in_order_here; [|done]. left. by exists existing.
      * intros h' r _ Hr res [= <-]. exact Hr.
    + rewrite spec_mbind. eapply spec_conseq; [apply recoverStale_spec; by left|].
      intros h' [[|]|e'] _ _; [apply IH|by intros res [= <-]..].
  - destruct (IsNotFound e); simpl; [|by intros res [= <-]].
    rewrite spec_mbind. eapply spec_conseq; [apply (ensure_checks_spec _ []); done|].
    intros h1 [[]|e'] _ _; simpl; [|by intros res [= <-]]. split; [done|]. intros [[]|e']; simpl.
    + rewrite spec_mbind. eapply spec_conseq; [apply (ensure_checks_spec _ [acquired])|].
      * apply in_order_here; [|done]. by right.
      * intros h' r _ Hr res [= <-]. exact Hr.
    + destruct (IsAlreadyExists e'); simpl; [apply IH|by intros res [= <-]].
Qed.
#[local] Opaque ensure_loop.

Lemma Ensure_disciplined fuel h :
  holder_named ident holder →
  spec P h (EnsureConsensusKeyReservationWithResult fuel chainID publicKey holder) (λ h' r,
    ∀ res, r = Some res → er_Result res = Ok () → clean_after [acquired] h').
Proof.
  intros Hid. unfold EnsureConsensusKeyReservationWithResult.
  destruct (_ || _ || _); [by intros res [= <-]|].
  destruct (validateCanonicalPublicKey publicKey); [by apply ensure_loop_spec|by intros res [= <-]].
Qed.
End acquisition.

(** ** Release *)

Section release.
Variables (ident : string → string * string * string) (releasing : string → Prop) (owner : Owner).
Hypothesis owner_releasing : releasing (owner_UID owner).

Let P := disciplined ident releasing.

#[local] Opaque delete_and_confirm.

Lemma ReleaseClaim_spec r h :
  saw_reservation r h →
  spec P h (ReleaseConsensusKeyReservationClaim owner r) (λ h' b,
    b = Ok true → in_order [(Ev (GetReservation Direct (ckr_Name r)) (Err (ApiError ReasonNotFound)) =.)] h').
Proof.
  intros Hsaw. unfold ReleaseConsensusKeyReservationClaim.
  destruct (reservationOwnerKind owner) as [kind|e]; [|done].
  destruct (names_exact_owner kind owner r) eqn:E; simpl; [|done].
  destruct (bool_decide (ckr_UID r = "")); [done|]. apply delete_and_confirm_spec.
  exists r. split_and!; [done..|]. right. unfold names_exact_owner in E. to_prop.
  by match goal with E : rs_OwnerUID _ = _ |- _ => rewrite E end.
Qed.
#[local] Opaque ReleaseConsensusKeyReservationClaim.

(** The last thing a completed release saw: a listing without any reservation
    of the owner. *)
Definition none_left (h : list kevent) : Prop :=
  ∃ l h0, h = Ev (ListReservations Direct) (Ok l) :: h0 ∧ Forall (λ r, rs_OwnerUID (ckr_Spec r) ≠ owner_UID owner) l.

Lemma release_loop_spec kind l released h :
  Forall (λ r, saw_reservation r h) l →
  spec P h (release_loop kind owner l released) (λ h' r, rl_Done r = true → rl_Error r = None ∧ none_left h').
Proof.
  revert released h. induction l as [|r l IH]; intros released h Hsaw; simpl.
  - split; [done|]. intros [l|e]; simpl; [|done]. intros Hd. apply negb_true_iff, existsb_false in Hd.
    split; [done|]. exists l, h. split; [done|]. eapply Forall_impl; [exact Hd|]. simpl. intros x Hx. by to_prop.
  - inversion_clear Hsaw as [|? ? Hr Hl]. destruct (bool_decide (rs_OwnerUID (ckr_Spec r) = _)); simpl; [|by apply IH].
    destruct (bool_decide (rs_OwnerKind (ckr_Spec r) = kind)); simpl; [|done].
    rewrite spec_mbind. eapply spec_conseq; [apply spec_suffix; by apply ReleaseClaim_spec|].
    intros h1 [[|]|e] _ [S1 _]; [|done..]. apply IH. eapply Forall_impl; [exact Hl|].
    intros x [Hx|(k & Hx & Hk)]; [left|right; exists k; split; [|done]]; by eapply elem_of_suffix.
Qed.

Lemma Release_disciplined h :
  spec (disciplined ident releasing) h (ReleaseConsensusKeyReservations owner) (λ h' r,
    rl_Done r = true → rl_Error r = None ∧ none_left h').
Proof.
  unfold ReleaseConsensusKeyReservations. destruct (reservationOwnerKind owner) as [kind|e]; [|done].
  simpl. split; [done|]. intros [l|e]; simpl; [|done]. apply release_loop_spec.
  apply Forall_forall. intros r Hr. right. exists l. split; [by left|]. by rewrite sort_slice_perm in Hr.
Qed.

End release.

(** releasing a root deletes, by name and UID, only reservations it read that
    carry the root's UID, and is complete only when a last uncached listing
    holds none of them. *)
Theorem ReleaseConsensusKeyReservations_spec ident owner h :
  spec (disciplined ident (λ uid, uid = owner_UID owner)) h (ReleaseConsensusKeyReservations owner) (λ h' r,
    rl_Done r = true → rl_Error r = None ∧ none_left owner h').
Proof. by apply Release_disciplined. Qed.

(** ** Keys *)

(** The accepted public keys are exactly the canonical base64 encodings of
    32-byte values. *)
Theorem validateCanonicalPublicKey_spec publicKey :
  validateCanonicalPublicKey publicKey = Ok () ↔
  ∃ raw, String.length raw = 32%nat ∧ publicKey = b64_encode raw.
Proof.
  unfold validateCanonicalPublicKey. split.
  - destruct (b64_decode publicKey) as [raw|]; [|done].
    destruct (_ && _) eqn:E; [|done]. apply andb_true_iff in E as [El Ee]. to_prop.
    apply Nat.eqb_eq in El. by exists raw.
  - intros (raw & Hl & ->). rewrite b64_decode_encode, Hl. by rewrite bool_decide_eq_true_2.
Qed.

(** ** The finalizer *)

Section finalizer.
Variable owner : Owner.

(** The server returned the root, not terminating or just patched, with the
    finalizer on it. *)
Definition saw_finalizer (o : Owner) (e : kevent) : Prop :=
  match o with
  | OwnerChainNode n =>
      e = Ev (GetChainNode Direct (owner_Namespace owner) (owner_Name owner)) (Ok n)
  | OwnerChainNodeSet s =>
      e = Ev (GetChainNodeSet Direct (owner_Namespace owner) (owner_Name owner)) (Ok s)
  | OwnerOther _ => False
  end ∧ owner_UID o = owner_UID owner ∧ has_finalizer o = true.

(** The only write is the patch that adds the finalizer to the object just read,
    when it is the exact root and is not being deleted. *)
Definition finalizer_patch (h : list kevent) (req : request) : Prop :=
  match req with
  | GetChainNode _ _ _ | GetChainNodeSet _ _ _ => True
  | PatchChainNode n => ∃ n0,
      n = mkChainNode (AddFinalizer (cn_meta n0) ReservationOwnerFinalizer) (cn_Spec n0) (cn_Status n0) ∧
      cn_UID n0 = owner_UID owner ∧ meta_DeletionTimestamp (cn_meta n0) = None ∧
      Ev (GetChainNode Direct (owner_Namespace owner) (owner_Name owner)) (Ok n0) ∈ h
  | PatchChainNodeSet s => ∃ s0,
      s = mkChainNodeSet (AddFinalizer (cns_meta s0) ReservationOwnerFinalizer) (cns_Spec s0) (cns_Status s0) ∧
      cns_UID s0 = owner_UID owner ∧ meta_DeletionTimestamp (cns_meta s0) = None ∧
      Ev (GetChainNodeSet Direct (owner_Namespace owner) (owner_Name owner)) (Ok s0) ∈ h
  | _ => False
  end.

Lemma get_owner_spec h :
  spec finalizer_patch h (get_owner owner) (λ h' r, ∀ o, r = Ok o →
    ∃ e, h' = e :: h ∧ (owner_UID o = owner_UID owner → has_finalizer o = true → saw_finalizer o e) ∧
    match o with
    | OwnerChainNode n => e = Ev (GetChainNode Direct (owner_Namespace owner) (owner_Name owner)) (Ok n)
    | OwnerChainNodeSet s => e = Ev (GetChainNodeSet Direct (owner_Namespace owner) (owner_Name owner)) (Ok s)
    | OwnerOther _ => False
    end).
Proof.
  unfold saw_finalizer. destruct owner as [n|s|m]; simpl; [| |done]; (split; [done|]); intros [x|e]; simpl; try done;
    intros o [= <-]; eexists; split_and!; try done.
Qed.
#[local] Opaque get_owner.

(** The finalizer is in API-server state when the call succeeds: the last
    thing it saw is the exact root carrying it, and its only write is the patch
    that adds it to the root it read, never to a terminating or replaced one. *)
Theorem EnsureConsensusKeyReservationOwnerFinalizer_spec h :
  spec finalizer_patch h (EnsureConsensusKeyReservationOwnerFinalizer owner) (λ h' r,
    ∀ added fresh, r = Ok (added, fresh) → ∃ e h0, h' = e :: h0 ∧ saw_finalizer fresh e).
Proof.
  unfold EnsureConsensusKeyReservationOwnerFinalizer.
  destruct (bool_decide (owner_UID owner = "")); [done|]. rewrite spec_try.
  eapply spec_conseq; [apply get_owner_spec|]. intros h1 [fresh|e] _ Hget; [|done].
  destruct (Hget fresh eq_refl) as (e & -> & Hf & He).
  destruct (bool_decide (owner_UID fresh = owner_UID owner)) eqn:Eu; simpl; [|done].
  destruct (owner_deleted fresh) eqn:Ed; [done|].
  destruct (has_finalizer fresh) eqn:Ef; simpl; to_prop.
  - intros added fresh' [= <- <-]. exists e, h. split; [done|]. by apply Hf.
  - rewrite spec_try.
    assert (meta_DeletionTimestamp (owner_meta fresh) = None) as Hd.
    { unfold owner_deleted in Ed. by destruct (meta_DeletionTimestamp _). }
    eapply (spec_conseq _ _ _ (λ _ _, True)).
    { destruct fresh as [n|s|m]; simpl; [| |done]; (split; [|done]); eexists; split_and!; try done; rewrite He; by left. }
    intros h2 [[]|e'] _ _; simpl; [|done].
    rewrite spec_try. eapply spec_conseq; [apply get_owner_spec|]. intros h3 [c|e'] _ Hget3; [|done].
    destruct (Hget3 c eq_refl) as (e3 & -> & Hf3 & _).
    destruct (_ || _) eqn:E; simpl; [done|]. to_prop. intros added fresh' [= <- <-].
    exists e3, h2. split; [done|]. by apply Hf3.
Qed.
End finalizer.
End reservation.
