(* ===== verification/ReservationNode.v ===== *)
(** * Reservations of a node ([internal/controllers/chainnode/reservation_lifecycle.go], [predicate.go], [controller.go])

    When a node may give a consensus key back: the claims of a standalone signer
    it no longer uses, and all of its reservations when it is deleted.  Also the
    part of [Reconcile] that handles a deleted node.  Events the recorder emits
    are not modelled. *)

From S2P Require Import Prelude GoLib IO ThirdParty ApiTypes KubeApi SignerResolve Getters SigningNames SigningPaths.
From S2P Require Import ChainNodeWebhook ResourceCleanup Deploy Teardown NodeFinalize Startup Reservation.

(** ** Names *)

Definition cosmosignerName (n : ChainNode) : string := cn_Name n +:+ "-signer".

Definition temporaryPodSuffixes : list string :=
  ["config-generator"; "data-init"; "init-data"; "genesis-init"; "tmkms-vault-upload"; "tmkms-generate-identity";
   "write-file"; "create-validator"; "signer-pubkey"; "signer-import"].

Definition isTemporaryPodName (name : string) : bool :=
  existsb (λ suffix, has_suffix name ("-" +:+ suffix)) temporaryPodSuffixes.

Definition isChainNodeSigningPodName (name chainNodeName : string) : bool :=
  (name == chainNodeName) ||
  existsb (λ suffix,
    let baseName := chainNodeName +:+ "-" +:+ suffix in
    (name == baseName) || has_prefix name (baseName +:+ "-")) temporaryPodSuffixes.

Definition standaloneCosmosignerReservationClaim (n : ChainNode) : string :=
  if IsValidator n then cn_Name n else "signer-" +:+ Sha256 (chainnode_CosmosignerSigningIdentity n).

Definition is_hex_lower (c : Ascii.ascii) : bool :=
  let n := Ascii.nat_of_ascii c in ((48 <=? n) && (n <=? 57) || (97 <=? n) && (n <=? 102))%nat.
Definition isStandaloneCosmosignerReservationClaim (claim : string) : bool :=
  let prefix := "signer-" in
  if (String.length claim =? String.length prefix + 64)%nat && has_prefix claim prefix
  then string_forallb is_hex_lower (slice_from (String.length prefix) claim) else false.

Definition standaloneManagedSigningOneShotNames (n : ChainNode) : list string :=
  [cn_Name n +:+ "-tmkms-generate-identity"; cn_Name n +:+ "-tmkms-vault-upload";
   cosmosignerName n +:+ "-import"; cosmosignerName n +:+ "-pubkey"].
Definition standaloneManagedSigningOneShotName (name : string) (n : ChainNode) : bool :=
  existsb (λ exact, name == exact) (standaloneManagedSigningOneShotNames n).
Definition standaloneManagedSigningOneShotPodName (name : string) (n : ChainNode) : bool :=
  existsb (λ exact, (name == exact) || has_prefix name (exact +:+ "-")) (standaloneManagedSigningOneShotNames n).

Definition standaloneSignerReplicaPodName (name signerName : string) : bool :=
  let prefix := signerName +:+ "-" in
  if negb (has_prefix name prefix) || (String.length name =? String.length prefix)%nat then false
  else string_forallb is_digit (slice_from (String.length prefix) name).

Section node.
Context `{MetaApi}.

(** ** The finalizer of the root *)

(** The root that holds the reservations of a node, and whether it is the set that controls it. *)
Definition consensusKeyReservationRoot (n : ChainNode) : kube (result (Owner * bool)) :=
  match GetControllerOf (cn_meta n) with
  | Some owner =>
      if or_Kind owner != "ChainNodeSet" then return_result (OwnerChainNode n, false)
      else
        root ←? call (GetChainNodeSet Direct (cn_Namespace n) (or_Name owner));
        if cns_UID root != or_UID owner then
          return_error (Errorf "ChainNodeSet root %s/%s changed UID from %q to %q"
            [AStr (cns_Namespace root); AStr (cns_Name root); AStr (or_UID owner); AStr (cns_UID root)])
        else return_result (OwnerChainNodeSet root, true)
  | None => return_result (OwnerChainNode n, false)
  end.

Definition ensure_owner_finalizer (owner : Owner) : kube (result bool) :=
  r ←? EnsureConsensusKeyReservationOwnerFinalizer owner; return_result r.1.

Definition prepareConsensusKeyReservationOwner (n : ChainNode) : kube (result bool) :=
  r ←? consensusKeyReservationRoot n;
  let '(root, managedChild) := r in
  if managedChild : bool then
    if negb (IsValidator n) || (ns_RemoteSignerTarget (cn_Spec n)) then return_result false
    else ensure_owner_finalizer root
  else
    needsFinalizer ←?
      (if IsValidator n || is_some (ns_Cosmosigner (cn_Spec n)) || (nst_CosmosignerPublicKey (cn_Status n) != "") ||
          (nst_TmKMSReservationIdentity (cn_Status n) != "")
       then return_result true else HasConsensusKeyReservationsForOwner root);
    if negb needsFinalizer then return_result false else ensure_owner_finalizer root.

(** ** Claims of a standalone signer *)

(** The UID of the live signer set, or [""] when there is none. *)
Definition current_signer (n : ChainNode) (currentSignerDesired : bool) : kube (result string) :=
  let signerName := cosmosignerName n in
  r ← call (GetStatefulSet Direct (cn_Namespace n) signerName);
  match r with
  | Err e => if IsNotFound e then return_result "" else return_error e
  | Ok sts =>
      let names := [AStr (meta_Namespace (sts_meta sts)); AStr (sts_Name sts)] in
      if negb currentSignerDesired then
        return_error (Errorf "StatefulSet %s/%s still matches an obsolete standalone signer claim" names)
      else if negb (IsControlledBy (sts_meta sts) (cn_meta n)) then
        return_error (Errorf "StatefulSet %s/%s is not controlled by ChainNode UID %q; refusing standalone claim retirement"
          (names ++ [AStr (cn_UID n)]))
      else if meta_UID (sts_meta sts) == "" then
        return_error (Errorf "current signer StatefulSet %s/%s has no UID; refusing standalone claim retirement" names)
      else return_result (meta_UID (sts_meta sts))
  end.

(** Why a pod keeps a claim from being retired. *)
Definition standalone_pod_blocks (n : ChainNode) (desired : bool) (currentUID : string) (pod : Pod) : option string :=
  let signerName := cosmosignerName n in
  if standaloneManagedSigningOneShotPodName (pod_Name pod) n then
    Some "Pod %s/%s still matches a managed standalone signing path"
  else if negb (standaloneSignerReplicaPodName (pod_Name pod) signerName) then None
  else if desired && (currentUID != "") &&
          match GetControllerOf (pod_meta pod) with
          | Some c => (or_Kind c == "StatefulSet") && (or_Name c == signerName) && (or_UID c == currentUID)
          | None => false
          end then None
  else Some "Pod %s/%s still matches an obsolete standalone signer claim".

Definition standaloneCosmosignerReservationSigningPathsGone (n : ChainNode) (currentSignerDesired : bool) :
    kube (result bool) :=
  currentSignerUID ←? current_signer n currentSignerDesired;
  jobs ←? call (ListJobs Direct (cn_Namespace n));
  match find (λ job, standaloneManagedSigningOneShotName (job_Name job) n) jobs with
  | Some job => return_error (Errorf "Job %s/%s still matches a managed standalone signing path"
                  [AStr (meta_Namespace (job_meta job)); AStr (job_Name job)])
  | None =>
      pods ←? call (ListPods Direct (cn_Namespace n));
      match find_map (standalone_pod_blocks n currentSignerDesired currentSignerUID) pods with
      | Some (pod, format) => return_error (Errorf format [AStr (meta_Namespace (pod_meta pod)); AStr (pod_Name pod)])
      | None => return_result true
      end
  end.

(** Every claim but the node's own and the desired one that a standalone signer made is released. *)
Definition retired_claim (n : ChainNode) (desiredClaim : string) (r : ConsensusKeyReservation) : bool :=
  let claim := rs_Claim (ckr_Spec r) in
  negb ((claim == cn_Name n) || (claim == desiredClaim) || negb (isStandaloneCosmosignerReservationClaim claim)).

Definition reconcile_claim (owner : Owner) (kind : string) (retired : ConsensusKeyReservation → bool)
    (pathsGone : ConsensusKeyReservation → kube (result bool)) (r : ConsensusKeyReservation) : kube (result bool) :=
  if rs_OwnerUID (ckr_Spec r) != owner_UID owner then return_result true
  else if negb (names_exact_owner kind owner r) then
    return_error (Errorf ("reservation %q matches " +:+ kind +:+ " UID %q but has inconsistent owner or claim metadata")
      [AStr (ckr_Name r); AStr (owner_UID owner)])
  else if negb (retired r) then return_result true
  else
    gone ←? pathsGone r;
    if negb gone then return_result false
    else ReleaseConsensusKeyReservationClaim owner r.

Definition by_name (l : list ConsensusKeyReservation) : list ConsensusKeyReservation :=
  sort_slice (λ a b, String.ltb (ckr_Name a) (ckr_Name b)) l.

Definition reconcileConsensusKeyReservationClaims (n : ChainNode) : kube (result bool) :=
  if IsValidator n || IsControlledByChainNodeSet n then return_result true
  else if is_some (ns_Cosmosigner (cn_Spec n)) && is_some (css_Migration (cn_Signer n)) then return_result true
  else
    let desiredClaim := if is_some (ns_Cosmosigner (cn_Spec n)) then standaloneCosmosignerReservationClaim n else "" in
    reservations ←? call (ListReservations Direct);
    all_in_turn (reconcile_claim (OwnerChainNode n) "ChainNode" (retired_claim n desiredClaim)
      (λ _, standaloneCosmosignerReservationSigningPathsGone n (desiredClaim != ""))) (by_name reservations).

(** ** Deletion *)

Definition finalize_signing_pod (n : ChainNode) (pod : Pod) : kube (result bool) :=
  let m := pod_meta pod in
  let names := [AStr (meta_Namespace m); AStr (meta_Name m)] in
  let owned := match GetControllerOf m with Some owner => or_UID owner == cn_UID n | None => false end in
  if isChainNodeSigningPodName (pod_Name pod) (cn_Name n) && negb owned then
    return_error (Errorf "refusing to release consensus-key reservations while signing-path pod %s/%s is not owned by ChainNode UID %q"
      (names ++ [AStr (cn_UID n)]))
  else if negb owned then return_result true
  else if meta_UID m == "" then
    return_error (Errorf "owned pod %s/%s has no UID; refusing an unguarded delete" names)
  else
    let confirm := confirm_absent (call (GetPod Direct (meta_Namespace m) (meta_Name m)))
                     (return_result false) (return_result true) in
    match meta_DeletionTimestamp m with
    | None => ignoring_not_found (call (DeletePod (meta_Namespace m) (meta_Name m) (meta_UID m))) confirm
    | Some _ => confirm
    end.

Definition finalizeOwnedSigningPods (n : ChainNode) : kube (result bool) :=
  pods ←? call (ListPods Direct (cn_Namespace n));
  all_in_turn (finalize_signing_pod n) pods.

Definition removeConsensusKeyReservationFinalizer (n : ChainNode) : kube (result ()) :=
  r ← call (GetChainNode Direct (cn_Namespace n) (cn_Name n));
  match r with
  | Err e => if IsNotFound e then return_result () else return_error e
  | Ok fresh =>
      if cn_UID fresh != cn_UID n then
        return_error (Errorf "ChainNode %s/%s changed UID while removing reservation finalizer"
          [AStr (cn_Namespace n); AStr (cn_Name n)])
      else if negb (ContainsFinalizer (cn_meta fresh) ReservationOwnerFinalizer) then return_result ()
      else call (UpdateChainNode (with_cn_meta fresh (RemoveFinalizer (cn_meta fresh) ReservationOwnerFinalizer))) ;?
           return_result ()
  end.

(** Releasing what is left: complete, waiting, or the error. *)
Definition release_all (owner : Owner) : kube (result bool) :=
  r ← ReleaseConsensusKeyReservations owner;
  match rl_Error r with Some e => return_error e | None => return_result (rl_Done r) end.

Definition release_after_paths (n : ChainNode) : kube (result bool) :=
  pathsGone ←? FinalizeConsensusKeySigningPaths (OwnerChainNode n) (cn_Namespace n);
  if negb pathsGone then return_result false else
  podsGone ←? finalizeOwnedSigningPods n;
  if negb podsGone then return_result false else
  done ←? release_all (OwnerChainNode n);
  if negb done then return_result false else
  removeConsensusKeyReservationFinalizer n ;? return_result true.

Definition finalizeConsensusKeyReservationOwner (n : ChainNode) : kube (result bool) :=
  if ContainsFinalizer (cn_meta n) ReservationOwnerFinalizer then release_after_paths n
  else
    hasReservations ←? HasConsensusKeyReservationsForOwner (OwnerChainNode n);
    if hasReservations then release_after_paths n else return_result true.

(** ** The deleted node in [Reconcile] *)

(** [ctrl.Result]: whether the node is to be looked at again in a second. *)
Definition retry_unless_done (m k : kube (result bool)) : kube (result bool) :=
  done ←? m; if negb done then return_result false else k.

Definition reconcile_deleted (n : ChainNode) : kube (result bool) :=
  let rest :=
    terminating ←? namespaceTerminating (cn_Namespace n);
    retry_unless_done (if terminating : bool then finalizeTerminatingNamespace n else finalizeResources n)
      (finalizeConsensusKeyReservationOwner n) in
  if ContainsFinalizer (cn_meta n) ReservationOwnerFinalizer then rest
  else retry_unless_done (finalizeConsensusKeyReservationOwner n) rest.
End node.

(** What was seen of the namespace: terminating, which gone counts as, or not. *)
Definition namespace_seen (ns : string) (terminating : bool) (h : list kevent) : Prop :=
  ∃ x, Ev (GetNamespace Cached ns) x ∈ h ∧
    match x with
    | Ok m => is_some (meta_DeletionTimestamp m) = terminating
    | Err e => IsNotFound e = true ∧ terminating = true
    end.
#[export] Instance namespace_seen_stable ns terminating : Stable (namespace_seen ns terminating).
Proof. unfold namespace_seen. apply stable_ex. intros [m|e]; apply _. Qed.

Lemma namespaceTerminating_seen ns h :
  spec (λ _ r, r = GetNamespace Cached ns) h (namespaceTerminating ns)
    (λ h' r, ∀ terminating, r = Ok terminating → namespace_seen ns terminating h').
Proof.
  simpl. split; [done|]. intros [m|e]; simpl.
  - intros t [= <-]. exists (Ok m). split; [by left|done].
  - destruct (IsNotFound e) eqn:En; simpl; [|done]. intros t [= <-]. exists (Err e). split; [by left|done].
Qed.

(** ** Releasing reservations, for both kinds of roots *)

(** Reservations of the owner are read and deleted, by name and UID, and nothing else is asked. *)
Definition releases (owner : Owner) (h : list kevent) (q : request) : Prop :=
  match q with
  | GetReservation Direct _ | ListReservations Direct => True
  | DeleteReservation name uid => ∃ r, name = ckr_Name r ∧ uid = ckr_UID r ∧ uid ≠ "" ∧
      (∃ l, Ev (ListReservations Direct) (Ok l) ∈ h ∧ r ∈ l) ∧ rs_OwnerUID (ckr_Spec r) = owner_UID owner
  | _ => False
  end.

Section release.
Context `{MetaApi}.
Variable owner : Owner.

Definition listed_reservation (r : ConsensusKeyReservation) (h : list kevent) : Prop :=
  ∃ l, Ev (ListReservations Direct) (Ok l) ∈ h ∧ r ∈ l.

Lemma ReleaseClaim_releases r h :
  listed_reservation r h → spec (releases owner) h (ReleaseConsensusKeyReservationClaim owner r) (λ _ _, True).
Proof.
  intros Hl. unfold ReleaseConsensusKeyReservationClaim. destruct (reservationOwnerKind owner) as [kind|]; [|done].
  destruct (names_exact_owner kind owner r) eqn:E; simpl; [|done].
  destruct (bool_decide_reflect (ckr_UID r = "")) as [|Hu]; [done|]. unfold delete_and_confirm. simpl. split.
  - exists r. split_and!; try done. unfold names_exact_owner in E. by to_prop.
  - intros [[]|e]; simpl; [|destruct (IsNotFound e); [|done]];
      (split; [done|]); intros [x|e']; simpl; try done; by destruct (IsNotFound e').
Qed.
#[local] Opaque ReleaseConsensusKeyReservationClaim.

Lemma release_loop_releases kind l released h :
  (∀ r, r ∈ l → listed_reservation r h) → spec (releases owner) h (release_loop kind owner l released) (λ _ _, True).
Proof.
  revert released h. induction l as [|r l IH]; intros released h Hl; simpl.
  - split; [done|]. by intros [x|e].
  - assert (∀ h', h `suffix_of` h' → ∀ x, x ∈ l → listed_reservation x h') as Hl'.
    { intros h' Hs x Hx. destruct (Hl x) as (l0 & ? & ?); [by right|]. exists l0. split; [by eapply stable_seen|done]. }
    destruct (negb _); [by apply IH, Hl'|]. destruct (negb _); [done|]. rewrite spec_mbind.
    eapply spec_conseq; [apply spec_suffix, ReleaseClaim_releases, Hl; by left|].
    intros h1 [[]|e] _ [Hs _]; [by apply IH, Hl'|done|done].
Qed.

Lemma release_all_spec h :
  spec (releases owner) h (release_all owner) (λ h' r, r = Ok true → none_left owner h').
Proof.
  assert (spec (releases owner) h (ReleaseConsensusKeyReservations owner) (λ _ _, True)) as Hr.
  { unfold ReleaseConsensusKeyReservations. destruct (reservationOwnerKind owner) as [kind|]; [|done].
    simpl. split; [done|]. intros [l|e]; simpl; [|done]. apply release_loop_releases.
    intros r Hr. exists l. split; [by left|]. by rewrite sort_slice_perm in Hr. }
  unfold release_all. rewrite spec_mbind.
  pose proof (Release_disciplined (λ _, ("", "", "")) (λ uid, uid = owner_UID owner) owner eq_refl h) as Hd.
  eapply spec_mono; [exact (spec_both _ _ _ _ _ _ Hr Hd)|by intros h' q _ []|]. clear Hd.
  intros h' r _ [_ Hd]. destruct (rl_Error r); [done|]. simpl. intros [= Hd']. by apply Hd.
Qed.

(** A listing showed a reservation under the owner's UID. *)
Definition holds_some (h : list kevent) : Prop :=
  ∃ l r, Ev (ListReservations Direct) (Ok l) ∈ h ∧ r ∈ l ∧ rs_OwnerUID (ckr_Spec r) = owner_UID owner.
#[export] Instance holds_some_stable : Stable holds_some.
Proof. unfold holds_some. apply _. Qed.

(** Without reservations, the last answer is a listing that shows none. *)
Lemma HasConsensusKeyReservationsForOwner_spec h :
  spec (λ _ q, q = ListReservations Direct) h (HasConsensusKeyReservationsForOwner owner)
    (λ h' r, (r = Ok false → none_left owner h') ∧ (r = Ok true → holds_some h')).
Proof.
  unfold HasConsensusKeyReservationsForOwner. destruct (reservationOwnerKind owner) as [kind|]; [|done].
  rewrite spec_try. simpl. split; [done|]. intros [l|e]; [|done].
  destruct (find _ l) as [r|] eqn:Ef.
  { destruct (names_exact_owner _ _ _); split; try done. intros _. apply find_some in Ef as [Hin Hu].
    apply list_elem_of_In in Hin. to_prop. exists l, r. split; [by left|done]. }
  split; [|done]. intros _. exists l, h. split; [done|].
  apply Forall_forall. intros r Hr E. apply list_elem_of_In in Hr. pose proof (find_none _ _ Ef r Hr) as Hn. simpl in Hn. by to_prop.
Qed.

(** *** Retiring claims *)

Variables (kind : string) (retired : ConsensusKeyReservation → bool)
  (pathsGone : ConsensusKeyReservation → kube (result bool)) (P : list kevent → request → Prop)
  (G : ConsensusKeyReservation → list kevent → Prop).
Context `{∀ r, Stable (G r)}.

(** A claim is given back only when it is retired, after its signing paths were seen gone. *)
Definition retire_permitted (h : list kevent) (q : request) : Prop :=
  P h q ∨
  match q with
  | GetReservation Direct _ => True
  | DeleteReservation name uid => ∃ r, name = ckr_Name r ∧ uid = ckr_UID r ∧ uid ≠ "" ∧ listed_reservation r h ∧
      names_exact_owner kind owner r = true ∧ retired r = true ∧ G r h
  | _ => False
  end.

Definition claim_settled (r : ConsensusKeyReservation) (h : list kevent) : Prop :=
  rs_OwnerUID (ckr_Spec r) = owner_UID owner → retired r = true →
  G r h ∧ Ev (GetReservation Direct (ckr_Name r)) (Err (ApiError ReasonNotFound)) ∈ h.
#[export] Instance claim_settled_stable r : Stable (claim_settled r).
Proof. intros h h' Hs Hc H1 H2. destruct (Hc H1 H2). split; [by eapply (stable h h')|by eapply stable_seen]. Qed.

#[local] Transparent ReleaseConsensusKeyReservationClaim.
Lemma retire_claim_spec r h :
  reservationOwnerKind owner = Ok kind → listed_reservation r h → retired r = true → G r h →
  names_exact_owner kind owner r = true →
  spec retire_permitted h (ReleaseConsensusKeyReservationClaim owner r) (λ h' b, b = Ok true →
    G r h' ∧ Ev (GetReservation Direct (ckr_Name r)) (Err (ApiError ReasonNotFound)) ∈ h').
Proof.
  intros Hk Hl Hr HG Hx. unfold ReleaseConsensusKeyReservationClaim. rewrite Hk, Hx. simpl.
  destruct (bool_decide_reflect (ckr_UID r = "")) as [|Hu]; [done|]. simpl. split; [right; by exists r|].
  assert (∀ h', h `suffix_of` h' → G r h') as HG' by (intros h' Hs; by eapply (stable h h')).
  intros [[]|e]; simpl; [|destruct (IsNotFound e); [|done]];
    (split; [by right|]); confirm_answers; intros _; (split; [apply HG'; by eexists [_; _]|by left]).
Qed.
#[local] Opaque ReleaseConsensusKeyReservationClaim.

Lemma reconcile_claims_spec l h :
  reservationOwnerKind owner = Ok kind → (∀ r, r ∈ l → listed_reservation r h) →
  (∀ r h', r ∈ l → h `suffix_of` h' → retired r = true → names_exact_owner kind owner r = true →
     spec P h' (pathsGone r) (λ h'' b, b = Ok true → G r h'')) →
  spec retire_permitted h (all_in_turn (reconcile_claim owner kind retired pathsGone) l)
    (λ h' b, b = Ok true → ∀ r, r ∈ l → claim_settled r h').
Proof.
  intros Hk Hl Hp. apply all_in_turn_spec; [intros r h1 h2; apply claim_settled_stable|].
  intros r h1 Hin Hs. unfold reconcile_claim, claim_settled.
  destruct (bool_decide_reflect (rs_OwnerUID (ckr_Spec r) = owner_UID owner)) as [Eu|Eu]; simpl; [|done].
  destruct (names_exact_owner kind owner r) eqn:En; simpl; [|done].
  destruct (retired r) eqn:Er; simpl; [|by intros].
  apply (spec_when_done _ _ _ _ _ (G r)); [|intros h2 Hs2 HG|done|done].
  { eapply spec_mono; [by apply Hp|by intros h2 q _ Hq; left|done]. }
  eapply spec_conseq; [apply retire_claim_spec; try done|].
  - destruct (Hl r Hin) as (l0 & ? & ?). exists l0. split; [|done]. eapply stable_seen; [etrans; [exact Hs|exact Hs2]|done].
  - intros h3 b _ Hb Hok _ _. auto.
Qed.
End release.

(** ** What is promised for a node *)

Section promises.
Context `{MetaApi}.
Variable n : ChainNode.
Abbreviation ns := (cn_Namespace n).
Abbreviation owner := (OwnerChainNode n).

Definition node_owns_pod (pod : Pod) : bool :=
  match GetControllerOf (pod_meta pod) with Some c => or_UID c == cn_UID n | None => false end.
Definition pod_gone_direct (pod : Pod) (h : list kevent) : Prop :=
  Ev (GetPod Direct (meta_Namespace (pod_meta pod)) (pod_Name pod)) (Err (ApiError ReasonNotFound)) ∈ h.

(** Every listed pod of the node was seen gone since, and none with a signing name is anybody else's. *)
Definition signing_pod_settled (pod : Pod) (h : list kevent) : Prop :=
  if node_owns_pod pod then pod_gone_direct pod h
  else isChainNodeSigningPodName (pod_Name pod) (cn_Name n) = false.
Definition signing_pods_gone (h : list kevent) : Prop :=
  ∃ pods, Ev (ListPods Direct ns) (Ok pods) ∈ h ∧ ∀ pod, pod ∈ pods → signing_pod_settled pod h.

#[export] Instance signing_pod_settled_stable pod : Stable (signing_pod_settled pod).
Proof. unfold signing_pod_settled, pod_gone_direct. destruct (node_owns_pod pod); apply _. Qed.
#[export] Instance signing_pods_gone_stable : Stable signing_pods_gone.
Proof.
  unfold signing_pods_gone. apply stable_ex. intros pods. apply stable_and; [apply _|].
  intros h h' Hs Hp pod Hin. eapply signing_pod_settled_stable; [exact Hs|auto].
Qed.

(** The node has no signing path left: no workload of its signers, and after that none of its pods. *)
Definition node_paths_gone (h : list kevent) : Prop := earlier (root_gone owner ns) h ∧ signing_pods_gone h.
#[export] Instance node_paths_gone_stable : Stable node_paths_gone.
Proof. unfold node_paths_gone. apply _. Qed.

Definition own_pod_request (h : list kevent) (r : request) : Prop :=
  match r with
  | ListPods Direct _ | GetPod Direct _ _ => True
  | DeletePod pns name uid => ∃ l pod, Ev (ListPods Direct ns) (Ok l) ∈ h ∧ pod ∈ l ∧ node_owns_pod pod = true ∧
      pns = meta_Namespace (pod_meta pod) ∧ name = pod_Name pod ∧ uid = meta_UID (pod_meta pod) ∧ uid ≠ ""
  | _ => False
  end.

(** The finalizer is only removed from the very node, as it is now. *)
Definition forget_request (h : list kevent) (r : request) : Prop :=
  match r with
  | GetChainNode Direct _ _ => True
  | UpdateChainNode n' => ∃ fresh, Ev (GetChainNode Direct ns (cn_Name n)) (Ok fresh) ∈ h ∧ cn_UID fresh = cn_UID n ∧
      n' = with_cn_meta fresh (RemoveFinalizer (cn_meta fresh) ReservationOwnerFinalizer)
  | _ => False
  end.

Definition release_node_permitted (h : list kevent) (r : request) : Prop :=
  r = ListReservations Direct ∨
  permitted owner ns h r ∨
  earlier (root_gone owner ns) h ∧ own_pod_request h r ∨
  node_paths_gone h ∧ releases owner h r ∨
  (node_paths_gone h ∧ earlier (none_left owner) h) ∧ forget_request h r.

Lemma finalize_signing_pod_spec pod h :
  (∃ l, Ev (ListPods Direct ns) (Ok l) ∈ h ∧ pod ∈ l) →
  spec own_pod_request h (finalize_signing_pod n pod) (λ h' r, r = Ok true → signing_pod_settled pod h').
Proof.
  intros (l & Hl & Hp). unfold finalize_signing_pod, signing_pod_settled. fold (node_owns_pod pod).
  destruct (node_owns_pod pod) eqn:Eo; cbn [negb andb].
  2:{ rewrite andb_true_r. by destruct (isChainNodeSigningPodName _ _). }
  rewrite andb_false_r. destruct (bool_decide_reflect (meta_UID (pod_meta pod) = "")) as [|Hu]; [done|].
  assert (∀ h', spec own_pod_request h'
    (confirm_absent (call (GetPod Direct (meta_Namespace (pod_meta pod)) (meta_Name (pod_meta pod))))
       (return_result false) (return_result true)) (λ h' r, r = Ok true → pod_gone_direct pod h')) as Hc.
  { intros h'. simpl. split; [done|]. confirm_answers. intros _. by left. }
  destruct (meta_DeletionTimestamp _); [apply Hc|]. unfold ignoring_not_found. rewrite spec_mbind. simpl.
  split; [by exists l, pod|]. intros [[]|e]; [apply Hc|]. destruct (IsNotFound e); [apply Hc|done].
Qed.
#[local] Opaque finalize_signing_pod.

Lemma finalizeOwnedSigningPods_spec h :
  spec own_pod_request h (finalizeOwnedSigningPods n) (λ h' r, r = Ok true → signing_pods_gone h').
Proof.
  unfold finalizeOwnedSigningPods. rewrite spec_try. simpl. split; [done|]. intros [pods|e]; [|done].
  eapply spec_conseq; [apply spec_suffix, (all_in_turn_spec _ _ signing_pod_settled)|].
  - intros pod h1 h2. apply signing_pod_settled_stable.
  - intros pod h1 Hin Hs. apply finalize_signing_pod_spec. exists pods. split; [eapply stable_seen; [exact Hs|by left]|done].
  - intros h1 r _ [Hs Hr] Hok. exists pods. split; [eapply stable_seen; [exact Hs|by left]|by apply Hr].
Qed.

Lemma removeConsensusKeyReservationFinalizer_spec h :
  spec forget_request h (removeConsensusKeyReservationFinalizer n) (λ _ _, True).
Proof.
  unfold removeConsensusKeyReservationFinalizer. rewrite spec_mbind. simpl. split; [done|].
  intros [fresh|e]; [|by destruct (IsNotFound e)].
  destruct (bool_decide_reflect (cn_UID fresh = cn_UID n)) as [Hu|]; simpl; [|done].
  destruct (ContainsFinalizer _ _); simpl; [|done]. split; [|by intros []]. exists fresh. split; [by left|done].
Qed.

#[local] Opaque FinalizeConsensusKeySigningPaths finalizeOwnedSigningPods release_all
  removeConsensusKeyReservationFinalizer HasConsensusKeyReservationsForOwner.

Lemma release_after_paths_spec h :
  spec release_node_permitted h (release_after_paths n) (λ h' r, r = Ok true → earlier (none_left owner) h').
Proof.
  unfold release_after_paths.
  eapply (spec_stage_done _ (permitted owner ns) (λ _, True) (root_gone owner ns));
    [apply _|done|apply FinalizeConsensusKeySigningPaths_gone|by intros h' r _ ?; right; left| |done|done].
  intros h1 _ _ Hg%earlier_now.
  eapply (spec_stage_done _ own_pod_request (earlier (root_gone owner ns)) signing_pods_gone);
    [apply _|done|apply finalizeOwnedSigningPods_spec|by intros h' r ??; right; right; left| |done|done].
  intros h2 _ Hg2 Hp2.
  eapply (spec_stage_done _ (releases owner) node_paths_gone (none_left owner));
    [apply _|done|apply release_all_spec|by intros h' r ??; do 3 right; left| |done|done].
  intros h3 _ Hg3 Hn%earlier_now. rewrite spec_try.
  eapply spec_conseq; [apply (spec_stage _ forget_request (λ h, node_paths_gone h ∧ earlier (none_left owner) h));
    [apply _|done|apply removeConsensusKeyReservationFinalizer_spec|by intros h' r ??; do 4 right]|].
  intros h4 [[]|e] _ [[_ ?] _]; simpl; [done|done].
Qed.

Abbreviation reserved := (ContainsFinalizer (cn_meta n) ReservationOwnerFinalizer).

(** Anything beyond looking for reservations takes the finalizer or a reservation that was found. *)
Definition release_node_wanted (h : list kevent) (r : request) : Prop :=
  r = ListReservations Direct ∨ (reserved = true ∨ holds_some owner h) ∧ release_node_permitted h r.

Lemma finalizeConsensusKeyReservationOwner_releases h :
  spec release_node_wanted h (finalizeConsensusKeyReservationOwner n) (λ h' r, r = Ok true → earlier (none_left owner) h').
Proof.
  unfold finalizeConsensusKeyReservationOwner, release_node_wanted. destruct (ContainsFinalizer _ _) eqn:Ef.
  { eapply spec_mono; [apply release_after_paths_spec|by intros h' r _ Hr; right; split; [left|]|done]. }
  rewrite spec_try. eapply spec_mono; [apply HasConsensusKeyReservationsForOwner_spec|by intros h' q _ ->; left|].
  intros h1 [[]|e] _ [Hn Hs]; [|intros _; by apply earlier_now, Hn|done].
  eapply spec_conseq; [apply (spec_stage _ release_node_permitted (holds_some owner)); [apply _|by apply Hs|apply release_after_paths_spec|]|].
  - intros h' r ??. right. split; [by right|done].
  - by intros h' r _ [_ ?].
Qed.

(** *** The deleted node *)

#[export] Instance node_finalized_stable : Stable (node_finalized n).
Proof. unfold node_finalized. apply _. Qed.

(** The node's workloads and durables, or its workloads in a terminating namespace, are dealt with. *)
Definition cleaned (h : list kevent) : Prop :=
  namespace_seen ns false h ∧ node_finalized n h ∨
  namespace_seen ns true h ∧ node_quiesced n h ∧ namespace_quiesced owner ns h.
#[export] Instance cleaned_stable : Stable cleaned.
Proof. unfold cleaned. apply _. Qed.

Definition reconcile_deleted_permitted (h : list kevent) (r : request) : Prop :=
  r = GetNamespace Cached ns ∨ r = ListReservations Direct ∨
  (if reserved then cleaned h else holds_some owner h) ∧ release_node_permitted h r ∨
  (reserved = false → earlier (none_left owner) h) ∧
    (namespace_seen ns false h ∧ finalize_node_permitted n h r ∨ namespace_seen ns true h ∧ terminate_node_permitted n h r).

#[local] Opaque finalizeConsensusKeyReservationOwner finalizeTerminatingNamespace finalizeResources.

Lemma cleanup_spec (terminating : bool) h :
  namespace_seen ns terminating h →
  spec (λ h r, namespace_seen ns false h ∧ finalize_node_permitted n h r ∨ namespace_seen ns true h ∧ terminate_node_permitted n h r) h
    (if terminating then finalizeTerminatingNamespace n else finalizeResources n) (λ h' r, r = Ok true → cleaned h').
Proof.
  intros Hns. destruct terminating.
  - eapply spec_conseq; [apply (spec_stage _ (terminate_node_permitted n) (namespace_seen ns true)); [apply _|exact Hns|apply finalizeTerminatingNamespace_permitted|auto]|].
    intros h' r _ [? Hr] Hok. right. auto.
  - eapply spec_conseq; [apply (spec_stage _ (finalize_node_permitted n) (namespace_seen ns false)); [apply _|exact Hns|apply finalizeResources_finalizes|auto]|].
    intros h' r _ [? Hr] Hok. left. auto.
Qed.

Lemma reconcile_deleted_rest h :
  (reserved = false → earlier (none_left owner) h) →
  spec reconcile_deleted_permitted h
    (terminating ←? namespaceTerminating ns;
     retry_unless_done (if terminating : bool then finalizeTerminatingNamespace n else finalizeResources n)
       (finalizeConsensusKeyReservationOwner n))
    (λ h' r, r = Ok true → cleaned h' ∧ earlier (none_left owner) h').
Proof.
  intros Hn. set (F := λ h, reserved = false → earlier (none_left owner) h).
  assert (Stable F) as HF by (intros h1 h2 Hs H1 E; eapply stable_earlier; [exact Hs|auto]).
  rewrite spec_try. eapply spec_mono; [eapply (spec_keep _ _ _ _ F); [done|exact Hn|apply namespaceTerminating_seen]|by intros h' r _ ->; left|].
  intros h1 [terminating|e] _ [Hn1 Hns]; [|done]. specialize (Hns terminating eq_refl). unfold retry_unless_done.
  eapply (spec_stage_done _ _ F cleaned); [done|exact Hn1|by apply cleanup_spec|by intros h' r ??; do 3 right| |done|done].
  intros h2 _ _ Hc. eapply spec_conseq; [apply (spec_stage _ release_node_wanted cleaned);
    [apply _|exact Hc|apply finalizeConsensusKeyReservationOwner_releases|]|].
  - intros h' r ? [->|[Hw ?]]; [by right; left|]. right; right; left. split; [|done].
    destruct Hw as [->|Hw]; [done|]. by destruct reserved.
  - intros h3 r _ [??] Hok. auto.
Qed.

Lemma reconcile_deleted_ordered h :
  spec reconcile_deleted_permitted h (reconcile_deleted n)
    (λ h' r, r = Ok true → cleaned h' ∧ earlier (none_left owner) h').
Proof.
  unfold reconcile_deleted. destruct (ContainsFinalizer (cn_meta n) ReservationOwnerFinalizer) eqn:Ef.
  - apply reconcile_deleted_rest. congruence.
  - unfold retry_unless_done at 1.
    eapply (spec_stage_done _ release_node_wanted (λ _, True) (earlier (none_left owner)));
      [apply _|done|apply finalizeConsensusKeyReservationOwner_releases| | |done|done].
    + intros h' r _ [->|[Hw Hr]]; [by right; left|]. right; right; left. split; [|done].
      rewrite Ef. destruct Hw as [Hw|]; [congruence|done].
    + intros h1 _ _ Hn. by apply reconcile_deleted_rest.
Qed.

(** The reservations of a node are released only after its signers' workloads and then all of its
    own pods were seen gone, only those carrying its UID, and the reservation finalizer goes last,
    from the node of that UID; nothing but a listing happens for a node without that finalizer and
    without a reservation; when this reports completion, a listing without any reservation of
    the node was seen. *)
Theorem finalizeConsensusKeyReservationOwner_spec h :
  spec release_node_wanted h (finalizeConsensusKeyReservationOwner n) (λ h' r, r = Ok true → earlier (none_left owner) h').
Proof. apply finalizeConsensusKeyReservationOwner_releases. Qed.

(** C25: a deleted node that carries the reservation finalizer gives its reservations back only after
    its pods, its signers' workloads and its durable resources were dealt with (its pods and its
    signers' workloads, when the namespace was seen terminating or gone).  A node without that
    finalizer is not finalized before a listing without any reservation of it was seen: when it holds
    reservations nevertheless, first its signing workloads and its own pods are taken down and then
    the reservations carrying its UID are released; when it holds none, nothing is touched for that.
    Durables are finalized only in a namespace that was seen alive.  When the deletion is reported
    complete, the cleanup and a listing without reservations were seen. *)
Theorem reconcile_deleted_spec h :
  spec reconcile_deleted_permitted h (reconcile_deleted n)
    (λ h' r, r = Ok true → cleaned h' ∧ earlier (none_left owner) h').
Proof. apply reconcile_deleted_ordered. Qed.

(** *** Claims of a standalone signer *)

(** No signing path of the node's standalone signer is left but the live set of its current one. *)
Definition standalone_paths_gone (desired : bool) (h : list kevent) : Prop :=
  ∃ x jobs pods, Ev (GetStatefulSet Direct ns (cosmosignerName n)) x ∈ h ∧
    Ev (ListJobs Direct ns) (Ok jobs) ∈ h ∧ Ev (ListPods Direct ns) (Ok pods) ∈ h ∧
    match x with
    | Err e => IsNotFound e = true
    | Ok sts => desired = true ∧ IsControlledBy (sts_meta sts) (cn_meta n) = true ∧ meta_UID (sts_meta sts) ≠ ""
    end ∧
    (∀ job, job ∈ jobs → standaloneManagedSigningOneShotName (job_Name job) n = false) ∧
    (∀ pod, pod ∈ pods → standalone_pod_blocks n desired
       match x with Ok sts => meta_UID (sts_meta sts) | Err _ => "" end pod = None).
#[export] Instance standalone_paths_gone_stable desired : Stable (standalone_paths_gone desired).
Proof.
  intros h h' Hs (x & jobs & pods & H1 & H2 & H3 & Hr). exists x, jobs, pods. split_and!; [by eapply stable_seen..| | |]; apply Hr.
Qed.

Lemma find_map_None {A B} (f : A → option B) l : find_map f l = None → ∀ x, x ∈ l → f x = None.
Proof.
  induction l as [|y l IH]; simpl; [intros _ x Hx; by apply elem_of_nil in Hx|].
  destruct (f y) eqn:E; [done|]. intros Hl x [->|Hx]%elem_of_cons; auto.
Qed.

Lemma standalone_paths_spec desired h :
  spec (permitted owner ns) h (standaloneCosmosignerReservationSigningPathsGone n desired)
    (λ h' r, r = Ok true → standalone_paths_gone desired h').
Proof.
  unfold standaloneCosmosignerReservationSigningPathsGone. rewrite spec_try.
  eapply (spec_conseq _ _ _ (λ h' r, ∀ uid, r = Ok uid → ∃ x, Ev (GetStatefulSet Direct ns (cosmosignerName n)) x ∈ h' ∧
    match x with
    | Err e => IsNotFound e = true
    | Ok sts => desired = true ∧ IsControlledBy (sts_meta sts) (cn_meta n) = true ∧ meta_UID (sts_meta sts) ≠ ""
    end ∧ uid = match x with Ok sts => meta_UID (sts_meta sts) | Err _ => "" end)).
  { unfold current_signer. rewrite spec_mbind. simpl. split; [done|]. intros [sts|e].
    - destruct desired; simpl; [|done]. destruct (IsControlledBy _ _) eqn:Ec; simpl; [|done].
      destruct (bool_decide_reflect (meta_UID (sts_meta sts) = "")); simpl; [done|]. intros uid [= <-].
      exists (Ok sts). split; [by left|done].
    - destruct (IsNotFound e) eqn:En; simpl; [|done]. intros uid [= <-]. exists (Err e). split; [by left|done]. }
  intros h1 [uid|e] _ Hc; [|done]. destruct (Hc uid eq_refl) as (x & Hx & Hok & ->).
  rewrite spec_try. simpl. split; [done|]. intros [jobs|e]; [|done].
  destruct (find _ jobs) eqn:Ej; [done|]. rewrite spec_try. simpl. split; [done|]. intros [pods|e]; [|done].
  destruct (find_map _ pods) as [[pod format]|] eqn:Ep; [done|]. intros _.
  exists x, jobs, pods. split_and!; [by do 2 right|by right; left|by left|done| |].
  - intros job Hj. apply list_elem_of_In in Hj. exact (find_none _ _ Ej job Hj).
  - exact (find_map_None _ _ Ep).
Qed.

Definition desired_standalone_claim : string :=
  if is_some (ns_Cosmosigner (cn_Spec n)) then standaloneCosmosignerReservationClaim n else "".
Definition retire_standalone_permitted : list kevent → request → Prop :=
  λ h r, r = ListReservations Direct ∨
    retire_permitted owner "ChainNode" (retired_claim n desired_standalone_claim) (permitted owner ns)
      (λ _, standalone_paths_gone (desired_standalone_claim != "")) h r.

#[local] Opaque standaloneCosmosignerReservationSigningPathsGone standaloneCosmosignerReservationClaim.

(** A claim of a node that is neither its own nor the one its signer desires is given back only after
    no job, one-shot pod or replica but those of the live current signer were listed; when the
    reconciliation reports completion, every such reservation of the node was seen absent. *)
Theorem reconcileConsensusKeyReservationClaims_spec h :
  spec retire_standalone_permitted h (reconcileConsensusKeyReservationClaims n) (λ h' b, b = Ok true →
    IsValidator n = false → IsControlledByChainNodeSet n = false →
    (is_some (ns_Cosmosigner (cn_Spec n)) && is_some (css_Migration (cn_Signer n)) = false) →
    ∃ l, Ev (ListReservations Direct) (Ok l) ∈ h' ∧ ∀ r, r ∈ l →
      claim_settled owner (retired_claim n desired_standalone_claim)
        (λ _, standalone_paths_gone (desired_standalone_claim != "")) r h').
Proof.
  unfold reconcileConsensusKeyReservationClaims. fold desired_standalone_claim.
  destruct (IsValidator n); simpl; [done|]. destruct (IsControlledByChainNodeSet n); simpl; [done|].
  destruct (is_some _ && is_some _); [done|]. rewrite spec_try. simpl. split; [by left|]. intros [l|e]; [|done].
  eapply spec_mono; [apply spec_suffix, (reconcile_claims_spec owner "ChainNode" (retired_claim n desired_standalone_claim) _
    (permitted owner ns) (λ _, standalone_paths_gone (desired_standalone_claim != ""))); [done| |]|by intros h' q _ Hq; right|].
  - intros r Hr. exists l. split; [by left|]. unfold by_name in Hr. by rewrite sort_slice_perm in Hr.
  - intros r h' _ _ _ _. apply standalone_paths_spec.
  - intros h' b _ [Hs Hb] Hok _ _ _. exists l. split; [eapply stable_seen; [exact Hs|by left]|].
    intros r Hr. apply Hb; [done|]. unfold by_name. by rewrite sort_slice_perm.
Qed.
End promises.
