(* ===== verification/ReservationSet.v ===== *)
(** * Reservations of a set ([internal/controllers/chainnodeset/reservation_lifecycle.go], [controller.go])

    When a set gives consensus keys back: the claims of validators and signers it
    no longer wants, and all of its reservations when it is deleted.  Also the
    part of [Reconcile] that handles a deleted set. *)

From S2P Require Import Prelude GoLib IO ThirdParty ApiTypes KubeApi SignerResolve Getters UniqueSecrets.
From S2P Require Import SigningNames SigningPaths ResourceCleanup Deploy Teardown NodeFinalize SetFinalize Startup Pdb.
From S2P Require Import Labels Reservation ReservationNode.

(** ** Names *)

Definition nodeSetCosmosignerReservationClaim (s : ChainNodeSet) (signer : ResolvedSigner) : string :=
  if TargetsValidator signer then GeneratedValidatorNodeName s (sg_ValidatorGroup signer) 0
  else "signer-" +:+ Sha256 (Identity signer).

(** The later of two markers that end the name or are followed by a dash. *)
Definition later_marker (name : string) (last : option nat) (marker : string) : option nat :=
  match LastIndex name marker with
  | Some index =>
      let ending := (index + String.length marker)%nat in
      if (match last with Some i => (i <? index)%nat | None => true end) &&
         ((ending =? String.length name)%nat || has_prefix (slice_from ending name) "-") then Some index else last
  | None => last
  end.
Definition managedSignerOneShotResourceName (name : string) : option string :=
  match foldl (later_marker name) None ["-import"; "-pubkey"] with
  | None | Some O => None
  | Some i => Some (slice_to i name)
  end.

Definition statefulSetReplicaResourceName (name : string) : option string :=
  match LastIndex name "-" with
  | None | Some O => None
  | Some separator =>
      if (separator =? String.length name - 1)%nat then None
      else if is_some (canonical_ordinal (slice_from (S separator) name)) then Some (slice_to separator name) else None
  end.

Definition deterministicNodeSetSignerResourceName (name nodeSetName : string) : bool :=
  has_prefix name (nodeSetName +:+ "-") && has_suffix name "-signer".

Definition managedClaimOneShotName (name claim : string) : bool :=
  has_prefix name (claim +:+ "-") &&
  existsb (λ marker, has_suffix name marker || strings_Contains name (marker +:+ "-")) oneShotMarkers.

(** The claims a set wants. *)
Definition desired_claim_names (s : ChainNodeSet) : list string :=
  map (nodeSetCosmosignerReservationClaim s) (ResolveCosmosigners s) ++
  (if is_some (ss_Validator (cns_Spec s)) && negb (IsCosmosignerTargetGroup s ReservedValidatorGroupName)
   then [GeneratedValidatorNodeName s ReservedValidatorGroupName 0] else []) ++
  (g ← ss_Nodes (cns_Spec s);
   if negb (is_some (ng_Validator g)) || IsCosmosignerTargetGroup s (ng_Name g) then []
   else map (GeneratedValidatorNodeName s (ng_Name g)) (indices (GetInstances g))).
Definition desiredConsensusKeyReservationClaims (s : ChainNodeSet) : gset string := list_to_set (desired_claim_names s).

Definition cosmosignerStatusHasReservation (status : option CosmosignerStatus) (reservationPublicKeys : gset string) : bool :=
  match status with
  | None => false
  | Some st =>
      if (st_ResourceName st != "") && (st_PublicKey st == "") && (0 <? size reservationPublicKeys)%nat then true
      else if bool_decide (st_PublicKey st ∈ reservationPublicKeys) && (st_PublicKey st != "") then true
      else match st_Migration st with
           | Some m => (mg_DesiredPublicKey m != "") && bool_decide (mg_DesiredPublicKey m ∈ reservationPublicKeys)
           | None => false
           end
  end.

(** The resource names of the signers wanted, and the claim of each by its name. *)
Definition desired_resources (s : ChainNodeSet) : gset string :=
  list_to_set (map (CosmosignerResourceName s) (ResolveCosmosigners s)).
Definition desired_signer_claims (s : ChainNodeSet) : gmap string string :=
  foldl (λ m signer, <[sg_Name signer := nodeSetCosmosignerReservationClaim s signer]> m) ∅ (ResolveCosmosigners s).

(** A status entry of a signer no longer wanted, whose key was never recorded. *)
Definition retired_entry (s : ChainNodeSet) (st : CosmosignerStatus) : bool :=
  negb (is_some (desired_signer_claims s !! st_Name st)) && (st_ResourceName st != "") && (st_PublicKey st == "").
Definition matches_key (key : string) (st : CosmosignerStatus) : bool :=
  (st_PublicKey st == key) || match st_Migration st with Some m => mg_DesiredPublicKey m == key | None => false end.

(** The signer a reservation's key is recorded for. *)
Fixpoint match_entries (s : ChainNodeSet) (r : ConsensusKeyReservation) (matched : string) (l : list CosmosignerStatus) :
    result string :=
  match l with
  | [] => Ok matched
  | st :: l =>
      if negb (matches_key (rs_PublicKey (ckr_Spec r)) st) then match_entries s r matched l
      else
        let name := CosmosignerStatusResourceName (Some st) in
        let claim := rs_Claim (ckr_Spec r) in
        match desired_signer_claims s !! st_Name st with
        | Some desired =>
            if desired != claim then
              Err (Errorf "cosmosigner status %q associates consensus key reservation %q with desired claim %q, not recorded claim %q"
                [AStr (st_Name st); AStr (ckr_Name r); AStr desired; AStr claim])
            else if (matched != "") && (matched != name) then
              Err (Errorf "consensus key reservation %q matches multiple cosmosigner resources %q and %q"
                [AStr (ckr_Name r); AStr matched; AStr name])
            else match_entries s r name l
        | None =>
            if (matched != "") && (matched != name) then
              Err (Errorf "consensus key reservation %q matches multiple cosmosigner resources %q and %q"
                [AStr (ckr_Name r); AStr matched; AStr name])
            else match_entries s r name l
        end
  end.

Definition signer_path (name : string) : ManagedSigningPath :=
  mkSigningPath [name] [name +:+ "-import"; name +:+ "-pubkey"] [].

Section set.
Context `{MetaApi}.

(** ** The finalizer of the root *)

Definition set_prepareConsensusKeyReservationOwner (s : ChainNodeSet) : kube (result bool) :=
  needsFinalizer ←?
    (if is_some (ss_Validator (cns_Spec s)) || (0 <? length (ResolveCosmosigners s))%nat ||
        (0 <? length (statuses s))%nat || existsb (λ g, is_some (ng_Validator g)) (ss_Nodes (cns_Spec s))
     then return_result true else HasConsensusKeyReservationsForOwner (OwnerChainNodeSet s));
  if negb needsFinalizer then return_result false else ensure_owner_finalizer (OwnerChainNodeSet s).

(** ** Claims no longer wanted *)

Definition managedRetiredNodeSetSignerResource (m : ObjectMeta) (s : ChainNodeSet) (desired : gset string) (name : string) : bool :=
  if bool_decide (name ∈ desired) then false
  else if IsControlledBy m (cns_meta s) then deterministicNodeSetSignerResourceName name (cns_Name s)
  else if get_label (meta_Labels m) LabelChainNodeSet != "" then
    (get_label (meta_Labels m) LabelChainNodeSet == cns_Name s) && deterministicNodeSetSignerResourceName name (cns_Name s)
  else if get_label (meta_Labels m) LabelChainNode != "" then false
  else deterministicNodeSetSignerResourceName name (cns_Name s).

Definition managedRetiredNodeSetSignerOneShot (m : ObjectMeta) (s : ChainNodeSet) (desired : gset string) : bool :=
  match managedSignerOneShotResourceName (meta_Name m) with
  | Some name => managedRetiredNodeSetSignerResource m s desired name
  | None => false
  end.
Definition managedRetiredNodeSetSignerReplica (m : ObjectMeta) (s : ChainNodeSet) (desired : gset string) : bool :=
  match statefulSetReplicaResourceName (meta_Name m) with
  | Some name => managedRetiredNodeSetSignerResource m s desired name
  | None => false
  end.

(** Absence of the child that a claim is named after, and of its pod. *)
Definition claim_child_gone (s : ChainNodeSet) (claim : string) (k : kube (result bool)) : kube (result bool) :=
  r ← call (GetChainNode Direct (cns_Namespace s) claim);
  match r with
  | Ok child =>
      let own := match GetControllerOf (cn_meta child) with Some owner => or_UID owner == cns_UID s | None => false end in
      if negb own then
        return_error (Errorf "ChainNode %s/%s matches undesired reservation claim %q but is not controlled by ChainNodeSet UID %q"
          [AStr (cn_Namespace child); AStr (cn_Name child); AStr claim; AStr (cns_UID s)])
      else return_result false
  | Err e =>
      if negb (IsNotFound e) then return_error e
      else
        r ← call (GetPod Direct (cns_Namespace s) claim);
        match r with
        | Ok pod => return_error (Errorf "Pod %s/%s still matches undesired reservation claim %q"
                      [AStr (meta_Namespace (pod_meta pod)); AStr (pod_Name pod); AStr claim])
        | Err e => if negb (IsNotFound e) then return_error e else k
        end
  end.

Definition cleanup_signer (s : ChainNodeSet) (name : string) : kube (result bool) :=
  cleanup ←? CleanupManagedSigningPath (OwnerChainNodeSet s) (cns_Namespace s) (signer_path name);
  match cr_Blocked cleanup with
  | Some (format, args) => return_error (Errorf format args)
  | None => return_result (cr_Done cleanup)
  end.

(** No listed workload may still sign for the claim. *)
Definition claim_workloads_gone (s : ChainNodeSet) (claim : string) : kube (result bool) :=
  let desired := desired_resources s in
  let owner := OwnerChainNodeSet s in
  sets ←? call (ListStatefulSets Direct (cns_Namespace s));
  match find (λ sts, (IsOwnedSignerStatefulSet sts owner || IsOwnedDeterministicSignerStatefulSet sts owner) &&
                     negb (bool_decide (sts_Name sts ∈ desired))) sets with
  | Some sts => return_error (Errorf "owned cosmosigner StatefulSet %s/%s cannot be attributed safely while releasing reservation claim %q"
                  [AStr (meta_Namespace (sts_meta sts)); AStr (sts_Name sts); AStr claim])
  | None =>
      jobs ←? call (ListJobs Direct (cns_Namespace s));
      match find (λ job, managedClaimOneShotName (job_Name job) claim ||
                         managedRetiredNodeSetSignerOneShot (job_meta job) s desired) jobs with
      | Some job => return_error (Errorf "Job %s/%s still matches undesired reservation claim %q"
                      [AStr (meta_Namespace (job_meta job)); AStr (job_Name job); AStr claim])
      | None =>
          pods ←? call (ListPods Direct (cns_Namespace s));
          match find (λ pod, managedClaimOneShotName (pod_Name pod) claim ||
                             managedRetiredNodeSetSignerOneShot (pod_meta pod) s desired ||
                             managedRetiredNodeSetSignerReplica (pod_meta pod) s desired) pods with
          | Some pod => return_error (Errorf "Pod %s/%s still matches undesired reservation claim %q"
                          [AStr (meta_Namespace (pod_meta pod)); AStr (pod_Name pod); AStr claim])
          | None => return_result true
          end
      end
  end.

(** The signers whose resources must go before a claim of this key. *)
Definition resources_to_clean (s : ChainNodeSet) (matched : string) : list string :=
  sort_Strings (elements (list_to_set (C := gset string)
    (map (λ st, CosmosignerStatusResourceName (Some st)) (filter (λ st, retired_entry s st = true) (statuses s)) ++
     (if matched == "" then [] else [matched])))).

Definition consensusKeyReservationClaimSigningPathsGone (s : ChainNodeSet) (r : ConsensusKeyReservation) : kube (result bool) :=
  let claim := rs_Claim (ckr_Spec r) in
  claim_child_gone s claim
    match match_entries s r "" (statuses s) with
    | Err e => return_error e
    | Ok matched =>
        cleaned ←? all_in_turn (cleanup_signer s) (resources_to_clean s matched);
        if negb cleaned then return_result false else claim_workloads_gone s claim
    end.

Definition unwanted_claim (s : ChainNodeSet) (r : ConsensusKeyReservation) : bool :=
  negb (bool_decide (rs_Claim (ckr_Spec r) ∈ desiredConsensusKeyReservationClaims s)).

Definition set_reconcileConsensusKeyReservationClaims (s : ChainNodeSet) : kube (result bool) :=
  reservations ←? call (ListReservations Direct);
  all_in_turn (reconcile_claim (OwnerChainNodeSet s) "ChainNodeSet" (unwanted_claim s)
    (consensusKeyReservationClaimSigningPathsGone s)) (by_name reservations).

Fixpoint retiring_keys (s : ChainNodeSet) (keys : gset string) (l : list ConsensusKeyReservation) : result (gset string) :=
  match l with
  | [] => Ok keys
  | r :: l =>
      if rs_OwnerUID (ckr_Spec r) != cns_UID s then retiring_keys s keys l
      else if negb (names_exact_owner "ChainNodeSet" (OwnerChainNodeSet s) r) || (rs_PublicKey (ckr_Spec r) == "") then
        Err (Errorf "reservation %q matches ChainNodeSet UID %q but has inconsistent owner, claim, or public-key metadata"
          [AStr (ckr_Name r); AStr (cns_UID s)])
      else if unwanted_claim s r then retiring_keys s ({[rs_PublicKey (ckr_Spec r)]} ∪ keys) l
      else retiring_keys s keys l
  end.
Definition retiringConsensusKeyReservationPublicKeys (s : ChainNodeSet) : kube (result (gset string)) :=
  reservations ←? call (ListReservations Direct);
  Ret (retiring_keys s ∅ reservations).

(** ** Deletion *)

(** The names of the children the status or a reservation records. *)
Definition owner_claims (s : ChainNodeSet) (l : list ConsensusKeyReservation) : list string :=
  map (λ r, rs_Claim (ckr_Spec r)) (filter (λ r, names_exact_owner "ChainNodeSet" (OwnerChainNodeSet s) r = true) l).
Definition status_names (s : ChainNodeSet) : list string :=
  filter (λ name, name ≠ "") (map nn_Name (sst_Nodes (cns_Status s))).
Definition collectOwnerReservationClaims (s : ChainNodeSet) (claims : gset string) : kube (result (gset string)) :=
  reservations ←? call (ListReservations Direct);
  return_result (claims ∪ list_to_set (owner_claims s reservations)).

Definition finalize_child (s : ChainNodeSet) (legacyNames : gset string) (child : ChainNode) : kube (result bool) :=
  let own := match GetControllerOf (cn_meta child) with Some owner => or_UID owner == cns_UID s | None => false end in
  let names := [AStr (cn_Namespace child); AStr (cn_Name child)] in
  if negb own then
    if bool_decide (cn_Name child ∈ legacyNames) then
      return_error (Errorf "ChainNode %s/%s is recorded in ChainNodeSet status but is not controlled by exact parent UID %q; refusing reservation release"
        (names ++ [AStr (cns_UID s)]))
    else return_result true
  else if cn_UID child == "" then
    return_error (Errorf "owned ChainNode %s/%s has no UID; refusing an unguarded delete" names)
  else
    let confirm := confirm_absent (call (GetChainNode Direct (cn_Namespace child) (cn_Name child)))
                     (return_result false) (return_result true) in
    match meta_DeletionTimestamp (cn_meta child) with
    | None => ignoring_not_found (call (DeleteChainNodeForeground (cn_Namespace child) (cn_Name child) (cn_UID child))) confirm
    | Some _ => confirm
    end.

Definition finalizeReservationOwnerChildren (s : ChainNodeSet) : kube (result bool) :=
  legacyNames ←? collectOwnerReservationClaims s (list_to_set (status_names s));
  children ←? call (ListChainNodes Direct (Some (cns_Namespace s)));
  all_in_turn (finalize_child s legacyNames) children.

(** A pod that may sign for the set. *)
Definition orphan_pod (s : ChainNodeSet) (known : gset string) (pod : Pod) : bool :=
  bool_decide (pod_Name pod ∈ known) ||
  (pod_label pod LabelChainNodeSet == cns_Name s) &&
  ((pod_label pod LabelValidator == StringValueTrue) || (pod_label pod LabelCosmosignerTarget != "")).

Definition reservationOwnerPodsGone (s : ChainNodeSet) : kube (result bool) :=
  known ←? collectOwnerReservationClaims s (list_to_set (status_names s));
  pods ←? call (ListPods Direct (cns_Namespace s));
  return_result (negb (existsb (orphan_pod s known) pods)).

Definition set_removeConsensusKeyReservationFinalizer (s : ChainNodeSet) : kube (result ()) :=
  r ← call (GetChainNodeSet Direct (cns_Namespace s) (cns_Name s));
  match r with
  | Err e => if IsNotFound e then return_result () else return_error e
  | Ok fresh =>
      if cns_UID fresh != cns_UID s then
        return_error (Errorf "ChainNodeSet %s/%s changed UID while removing reservation finalizer"
          [AStr (cns_Namespace s); AStr (cns_Name s)])
      else if negb (ContainsFinalizer (cns_meta fresh) ReservationOwnerFinalizer) then return_result ()
      else call (UpdateChainNodeSet (with_cns_meta fresh (RemoveFinalizer (cns_meta fresh) ReservationOwnerFinalizer)))
  end.

Definition set_release_after_paths (s : ChainNodeSet) : kube (result bool) :=
  pathsGone ←? FinalizeConsensusKeySigningPaths (OwnerChainNodeSet s) (cns_Namespace s);
  if negb pathsGone then return_result false else
  childrenGone ←? finalizeReservationOwnerChildren s;
  if negb childrenGone then return_result false else
  podsGone ←? reservationOwnerPodsGone s;
  if negb podsGone then return_result false else
  done ←? release_all (OwnerChainNodeSet s);
  if negb done then return_result false else
  set_removeConsensusKeyReservationFinalizer s ;? return_result true.

Definition set_finalizeConsensusKeyReservationOwner (s : ChainNodeSet) : kube (result bool) :=
  if ContainsFinalizer (cns_meta s) ReservationOwnerFinalizer then set_release_after_paths s
  else
    hasReservations ←? HasConsensusKeyReservationsForOwner (OwnerChainNodeSet s);
    if hasReservations then set_release_after_paths s else return_result true.

(** ** The deleted set in [Reconcile] *)

Section reconcile.
Context `{ApplyApi} `{CometApi}.

(** Dropping the finalizer of the budgets leaves the set in memory without it. *)
Definition set_cleanup (s : ChainNodeSet) : kube (result bool) :=
  r ←? finalizePodDisruptionBudgets s;
  let '(pdbsDone, s) := r in
  if negb pdbsDone then return_result false else set_finalizeResources s.

Definition set_reconcile_deleted (s : ChainNodeSet) : kube (result bool) :=
  let rest :=
    terminating ←? namespaceTerminating (cns_Namespace s);
    retry_unless_done (if terminating : bool then set_finalizeTerminatingNamespace s else set_cleanup s)
      (set_finalizeConsensusKeyReservationOwner s) in
  if ContainsFinalizer (cns_meta s) ReservationOwnerFinalizer then rest
  else retry_unless_done (set_finalizeConsensusKeyReservationOwner s) rest.
End reconcile.
End set.

(** ** What is promised for a set *)

Section promises.
Context `{MetaApi}.
Variable s : ChainNodeSet.
Abbreviation ns := (cns_Namespace s).
Abbreviation owner := (OwnerChainNodeSet s).

Definition set_owns_child (child : ChainNode) : bool :=
  match GetControllerOf (cn_meta child) with Some c => or_UID c == cns_UID s | None => false end.
Definition child_gone_direct (child : ChainNode) (h : list kevent) : Prop :=
  Ev (GetChainNode Direct (cn_Namespace child) (cn_Name child)) (Err (ApiError ReasonNotFound)) ∈ h.

(** The names under which a listing of reservations and the status know a child. *)
Definition known_names (l : list ConsensusKeyReservation) : gset string :=
  list_to_set (status_names s) ∪ list_to_set (owner_claims s l).

(** Every child of the set was seen gone since it was listed, and no known name is anybody else's. *)
Definition reserved_child_settled (known : gset string) (child : ChainNode) (h : list kevent) : Prop :=
  if set_owns_child child then child_gone_direct child h else cn_Name child ∉ known.
Definition children_gone (h : list kevent) : Prop :=
  ∃ l children, Ev (ListReservations Direct) (Ok l) ∈ h ∧ Ev (ListChainNodes Direct (Some ns)) (Ok children) ∈ h ∧
    ∀ child, child ∈ children → reserved_child_settled (known_names l) child h.
(** A later listing shows no pod that may sign for it. *)
Definition no_orphan_pods (h : list kevent) : Prop :=
  ∃ l pods, Ev (ListReservations Direct) (Ok l) ∈ h ∧ Ev (ListPods Direct ns) (Ok pods) ∈ h ∧
    ∀ pod, pod ∈ pods → orphan_pod s (known_names l) pod = false.

#[export] Instance reserved_child_settled_stable known child : Stable (reserved_child_settled known child).
Proof. unfold reserved_child_settled, child_gone_direct. destruct (set_owns_child child); apply _. Qed.
#[export] Instance children_gone_stable : Stable children_gone.
Proof.
  unfold children_gone. do 2 (apply stable_ex; intros ?). apply stable_and; [apply _|]. apply stable_and; [apply _|].
  intros h h' Hs Hp child Hin. eapply reserved_child_settled_stable; [exact Hs|auto].
Qed.
#[export] Instance no_orphan_pods_stable : Stable no_orphan_pods.
Proof. unfold no_orphan_pods. apply _. Qed.

(** No signing path of the set is left: its signers, then its children, then their pods. *)
Definition set_paths_gone (h : list kevent) : Prop := earlier (root_gone owner ns) h ∧ children_gone h ∧ no_orphan_pods h.
#[export] Instance set_paths_gone_stable : Stable set_paths_gone.
Proof. unfold set_paths_gone. apply _. Qed.

Definition children_request (h : list kevent) (r : request) : Prop :=
  match r with
  | ListReservations Direct | ListChainNodes Direct _ | GetChainNode Direct _ _ | ListPods Direct _ => True
  | DeleteChainNodeForeground cns name uid => ∃ l child, Ev (ListChainNodes Direct (Some ns)) (Ok l) ∈ h ∧ child ∈ l ∧
      set_owns_child child = true ∧ cns = cn_Namespace child ∧ name = cn_Name child ∧ uid = cn_UID child ∧ uid ≠ ""
  | _ => False
  end.

Definition set_forget_request (h : list kevent) (r : request) : Prop :=
  match r with
  | GetChainNodeSet Direct _ _ => True
  | UpdateChainNodeSet s' => ∃ fresh, Ev (GetChainNodeSet Direct ns (cns_Name s)) (Ok fresh) ∈ h ∧ cns_UID fresh = cns_UID s ∧
      s' = with_cns_meta fresh (RemoveFinalizer (cns_meta fresh) ReservationOwnerFinalizer)
  | _ => False
  end.

Definition release_set_permitted (h : list kevent) (r : request) : Prop :=
  r = ListReservations Direct ∨
  permitted owner ns h r ∨
  earlier (root_gone owner ns) h ∧ children_request h r ∨
  set_paths_gone h ∧ releases owner h r ∨
  (set_paths_gone h ∧ earlier (none_left owner) h) ∧ set_forget_request h r.

Lemma finalize_child_spec known child h :
  (∃ l, Ev (ListChainNodes Direct (Some ns)) (Ok l) ∈ h ∧ child ∈ l) →
  spec children_request h (finalize_child s known child) (λ h' r, r = Ok true → reserved_child_settled known child h').
Proof.
  intros (l & Hl & Hc). unfold finalize_child, reserved_child_settled. fold (set_owns_child child).
  destruct (set_owns_child child) eqn:Eo; simpl.
  2:{ case_bool_decide as Hk; [done|]. by intros _. }
  destruct (bool_decide_reflect (cn_UID child = "")) as [|Hu]; [done|].
  assert (∀ h', spec children_request h'
    (confirm_absent (call (GetChainNode Direct (cn_Namespace child) (cn_Name child)))
       (return_result false) (return_result true)) (λ h' r, r = Ok true → child_gone_direct child h')) as Hcf.
  { intros h'. simpl. split; [done|]. confirm_answers. intros _. by left. }
  destruct (meta_DeletionTimestamp _); [apply Hcf|]. unfold ignoring_not_found. rewrite spec_mbind. simpl.
  split; [by exists l, child|]. intros [[]|e]; [apply Hcf|]. destruct (IsNotFound e); [apply Hcf|done].
Qed.
#[local] Opaque finalize_child.

Lemma finalizeReservationOwnerChildren_spec h :
  spec children_request h (finalizeReservationOwnerChildren s) (λ h' r, r = Ok true → children_gone h').
Proof.
  unfold finalizeReservationOwnerChildren, collectOwnerReservationClaims. rewrite !spec_try. simpl. split; [done|].
  intros [l|e]; simpl; [|done]. split; [done|]. intros [children|e]; simpl; [|done].
  eapply spec_conseq; [apply spec_suffix, (all_in_turn_spec _ _ (reserved_child_settled (known_names l)))|].
  - intros child h1 h2. apply reserved_child_settled_stable.
  - intros child h1 Hin Hs. apply finalize_child_spec. exists children. split; [eapply stable_seen; [exact Hs|by left]|done].
  - intros h1 r _ [Hs Hr] Hok. exists l, children. split_and!; [eapply stable_seen; [exact Hs|by right; left]|
      eapply stable_seen; [exact Hs|by left]|by apply Hr].
Qed.

Lemma reservationOwnerPodsGone_spec h :
  spec children_request h (reservationOwnerPodsGone s) (λ h' r, r = Ok true → no_orphan_pods h').
Proof.
  unfold reservationOwnerPodsGone, collectOwnerReservationClaims. rewrite !spec_try. simpl. split; [done|].
  intros [l|e]; simpl; [|done]. split; [done|]. intros [pods|e]; simpl; [|done].
  intros [= Hp%negb_true_iff%existsb_false]. exists l, pods. split_and!; [by right; left|by left|].
  by apply Forall_forall.
Qed.

Lemma set_removeFinalizer_spec h :
  spec set_forget_request h (set_removeConsensusKeyReservationFinalizer s) (λ _ _, True).
Proof.
  unfold set_removeConsensusKeyReservationFinalizer. rewrite spec_mbind. simpl. split; [done|].
  intros [fresh|e]; [|by destruct (IsNotFound e)].
  destruct (bool_decide_reflect (cns_UID fresh = cns_UID s)) as [Hu|]; simpl; [|done].
  destruct (ContainsFinalizer _ _); simpl; [|done]. split; [|by intros []]. exists fresh. split; [by left|done].
Qed.

#[local] Opaque FinalizeConsensusKeySigningPaths finalizeReservationOwnerChildren reservationOwnerPodsGone release_all
  set_removeConsensusKeyReservationFinalizer HasConsensusKeyReservationsForOwner.

Lemma set_release_after_paths_spec h :
  spec release_set_permitted h (set_release_after_paths s) (λ h' r, r = Ok true → earlier (none_left owner) h').
Proof.
  unfold set_release_after_paths.
  eapply (spec_stage_done _ (permitted owner ns) (λ _, True) (root_gone owner ns));
    [apply _|done|apply FinalizeConsensusKeySigningPaths_gone|by intros h' r _ ?; right; left| |done|done].
  intros h1 _ _ Hg%earlier_now.
  eapply (spec_stage_done _ children_request (earlier (root_gone owner ns)) children_gone);
    [apply _|done|apply finalizeReservationOwnerChildren_spec|by intros h' r ??; right; right; left| |done|done].
  intros h2 _ Hg2 Hc2.
  eapply (spec_stage_done _ children_request (λ h, earlier (root_gone owner ns) h ∧ children_gone h) no_orphan_pods);
    [apply _|done|apply reservationOwnerPodsGone_spec|by intros h' r [??] ?; right; right; left| |done|done].
  intros h3 _ [Hg3 Hc3] Hp3. assert (set_paths_gone h3) as Hs3 by by split_and!.
  eapply (spec_stage_done _ (releases owner) set_paths_gone (none_left owner));
    [apply _|done|apply release_all_spec|by intros h' r ??; do 3 right; left| |done|done].
  intros h4 _ Hg4 Hn%earlier_now. rewrite spec_try.
  eapply spec_conseq; [apply (spec_stage _ set_forget_request (λ h, set_paths_gone h ∧ earlier (none_left owner) h));
    [apply _|done|apply set_removeFinalizer_spec|by intros h' r ??; do 4 right]|].
  intros h5 [[]|e] _ [[_ ?] _]; simpl; [done|done].
Qed.

Abbreviation reserved := (ContainsFinalizer (cns_meta s) ReservationOwnerFinalizer).

(** Anything beyond looking for reservations takes the finalizer or a reservation that was found. *)
Definition release_set_wanted (h : list kevent) (r : request) : Prop :=
  r = ListReservations Direct ∨ (reserved = true ∨ holds_some owner h) ∧ release_set_permitted h r.

Lemma set_finalizeConsensusKeyReservationOwner_releases h :
  spec release_set_wanted h (set_finalizeConsensusKeyReservationOwner s) (λ h' r, r = Ok true → earlier (none_left owner) h').
Proof.
  unfold set_finalizeConsensusKeyReservationOwner, release_set_wanted. destruct (ContainsFinalizer _ _) eqn:Ef.
  { eapply spec_mono; [apply set_release_after_paths_spec|by intros h' r _ Hr; right; split; [left|]|done]. }
  rewrite spec_try. eapply spec_mono; [apply HasConsensusKeyReservationsForOwner_spec|by intros h' q _ ->; left|].
  intros h1 [[]|e] _ [Hn Hs]; [|intros _; by apply earlier_now, Hn|done].
  eapply spec_conseq; [apply (spec_stage _ release_set_permitted (holds_some owner)); [apply _|by apply Hs|apply set_release_after_paths_spec|]|].
  - intros h' r ??. right. split; [by right|done].
  - by intros h' r _ [_ ?].
Qed.

(** *** The deleted set *)

Section reconcile.
Context `{ApplyApi} `{CometApi}.

(** The set once its budgets are gone. *)
Definition after_budgets : ChainNodeSet :=
  if ContainsFinalizer (cns_meta s) podDisruptionBudgetFinalizer then without_budget_finalizer s else s.
Definition set_cleaned (h : list kevent) : Prop :=
  namespace_seen ns false h ∧ budgets_gone s h ∧ set_finalized after_budgets h ∨
  namespace_seen ns true h ∧ namespace_gone s h.
#[export] Instance set_cleaned_stable : Stable set_cleaned.
Proof. unfold set_cleaned. apply _. Qed.

Definition cleanup_permitted (h : list kevent) (r : request) : Prop :=
  namespace_seen ns false h ∧
    (finalize_budgets_permitted s h r ∨ budgets_gone s h ∧ finalize_set_permitted after_budgets h r) ∨
  namespace_seen ns true h ∧ terminate_set_permitted s h r.
Definition set_reconcile_deleted_permitted (h : list kevent) (r : request) : Prop :=
  r = GetNamespace Cached ns ∨ r = ListReservations Direct ∨
  (if reserved then set_cleaned h else holds_some owner h) ∧ release_set_permitted h r ∨
  (reserved = false → earlier (none_left owner) h) ∧ cleanup_permitted h r.

#[local] Opaque finalizePodDisruptionBudgets set_finalizeResources set_finalizeTerminatingNamespace
  set_finalizeConsensusKeyReservationOwner.

Lemma set_cleanup_spec h :
  spec (λ h r, finalize_budgets_permitted s h r ∨ budgets_gone s h ∧ finalize_set_permitted after_budgets h r) h
    (set_cleanup s) (λ h' r, r = Ok true → budgets_gone s h' ∧ set_finalized after_budgets h').
Proof.
  unfold set_cleanup. rewrite spec_try.
  eapply spec_mono; [apply finalizePodDisruptionBudgets_finalizes|by intros h' r _ Hr; left|].
  intros k1 [[[] s']|e] _ K1; simpl; [|done|done]. destruct (K1 s' eq_refl) as [Hg ->].
  fold after_budgets. eapply spec_conseq; [apply (spec_stage _ (finalize_set_permitted after_budgets) (budgets_gone s));
    [apply _|exact Hg|apply set_finalizeResources_finalizes|by intros h' r ??; right]|].
  intros k2 r _ [? Hr] Hok. auto.
Qed.
#[local] Opaque set_cleanup.

Lemma set_cleanup_any (terminating : bool) h :
  namespace_seen ns terminating h →
  spec cleanup_permitted h (if terminating then set_finalizeTerminatingNamespace s else set_cleanup s)
    (λ h' r, r = Ok true → set_cleaned h').
Proof.
  intros Hns. destruct terminating.
  - eapply spec_conseq; [apply (spec_stage _ (terminate_set_permitted s) (namespace_seen ns true)); [apply _|exact Hns|apply set_finalizeTerminatingNamespace_permitted|by right]|].
    intros h' r _ [? Hr] Hok. right. auto.
  - eapply spec_conseq; [eapply (spec_stage _ _ (namespace_seen ns false)); [apply _|exact Hns|apply set_cleanup_spec|by left]|].
    intros h' r _ [? Hr] Hok. left. auto.
Qed.

Lemma set_reconcile_deleted_rest h :
  (reserved = false → earlier (none_left owner) h) →
  spec set_reconcile_deleted_permitted h
    (terminating ←? namespaceTerminating ns;
     retry_unless_done (if terminating : bool then set_finalizeTerminatingNamespace s else set_cleanup s)
       (set_finalizeConsensusKeyReservationOwner s))
    (λ h' r, r = Ok true → set_cleaned h' ∧ earlier (none_left owner) h').
Proof.
  intros Hn. set (F := λ h, reserved = false → earlier (none_left owner) h).
  assert (Stable F) as HF by (intros k1 k2 Hs HF E; eapply stable_earlier; [exact Hs|auto]).
  rewrite spec_try. eapply spec_mono; [eapply (spec_keep _ _ _ _ F); [done|exact Hn|apply namespaceTerminating_seen]|by intros h' r _ ->; left|].
  intros h1 [terminating|e] _ [Hn1 Hns]; [|done]. specialize (Hns terminating eq_refl). unfold retry_unless_done.
  eapply (spec_stage_done _ cleanup_permitted F set_cleaned); [done|exact Hn1|by apply set_cleanup_any|by intros h' r ??; do 3 right| |done|done].
  intros h2 _ _ Hc. eapply spec_conseq; [apply (spec_stage _ release_set_wanted set_cleaned);
    [apply _|exact Hc|apply set_finalizeConsensusKeyReservationOwner_releases|]|].
  - intros h' r ? [->|[Hw ?]]; [by right; left|]. right; right; left. split; [|done].
    destruct Hw as [->|Hw]; [done|]. by destruct reserved.
  - intros h3 r _ [??] Hok. auto.
Qed.

Lemma set_reconcile_deleted_ordered h :
  spec set_reconcile_deleted_permitted h (set_reconcile_deleted s)
    (λ h' r, r = Ok true → set_cleaned h' ∧ earlier (none_left owner) h').
Proof.
  unfold set_reconcile_deleted. destruct (ContainsFinalizer (cns_meta s) ReservationOwnerFinalizer) eqn:Ef.
  - apply set_reconcile_deleted_rest. congruence.
  - unfold retry_unless_done at 1.
    eapply (spec_stage_done _ release_set_wanted (λ _, True) (earlier (none_left owner)));
      [apply _|done|apply set_finalizeConsensusKeyReservationOwner_releases| | |done|done].
    + intros h' r _ [->|[Hw Hr]]; [by right; left|]. right; right; left. split; [|done].
      rewrite Ef. destruct Hw as [Hw|]; [congruence|done].
    + intros h1 _ _ Hn. by apply set_reconcile_deleted_rest.
Qed.

End reconcile.
End promises.
