(* ===== verification/SignerRender.v ===== *)
(** * The objects of a signer ([cosmosigner.go], [config.go], [backends.go], [recovery.go] of [internal/cosmosigner])

    The configuration a signer starts with, the objects it is deployed as and the
    key that is read back from a live one.  YAML and JSON are the encodings of
    libraries, given by [YamlApi]. *)

From S2P Require Import Prelude GoLib IO ThirdParty Reference ApiTypes KubeApi FakeServer DerivedNames CosmosignerSpec SignerResolve SigningNames SigningPaths.
From S2P Require Import Migration MigrationControllers ResourceCleanup Deploy Teardown Reservation.

Definition containerName : string := "cosmosigner".
Definition configHashEnv : string := "ROLLME".
Definition dataMountPath : string := "/data".
Definition connKeyPath : string := dataMountPath +:+ "/conn_key.json".
Definition raftDataDir : string := dataMountPath +:+ "/raft".
Definition configMountPath : string := "/config".
Definition configFileName : string := "config.yaml".
Definition raftPort : Z := 7070.
Definition raftPortName : string := "raft".
Definition raftBindAddr : string := "0.0.0.0:7070".
Definition backendSoftware : string := "software".
Definition backendVault : string := "vault".
Definition backendGcpKms : string := "gcpkms".
Definition softwareKeyDir : string := "/keys".
Definition softwareKeyFile : string := softwareKeyDir +:+ "/priv_validator_key.json".
Definition vaultMountDir : string := "/vault".
Definition gcpMountDir : string := "/gcp".
Definition raftTLSMountDir : string := "/tls/raft".
Definition vaultTokenVolume : string := "vault-token".
Definition vaultCaVolume : string := "vault-ca".
Definition gcpCredsVolume : string := "gcp-credentials".
Definition softwareVolume : string := "software-key".
Definition vaultTokenDir : string := vaultMountDir +:+ "/token-dir".
Definition vaultTokenFile : string := vaultTokenDir +:+ "/token".
Definition vaultCaDir : string := vaultMountDir +:+ "/ca-dir".
Definition vaultCaFile : string := vaultCaDir +:+ "/ca.crt".
Definition gcpCredsFile : string := gcpMountDir +:+ "/credentials.json".
Definition PrivValPortName : string := "privvalidator".
Definition PrivValPort : Z := 26659.
Definition NonRootUID : Z := 1000.

Definition RestrictedSecurityContext : SecurityContext :=
  mkSecurity (Some false) (Some true) (Some NonRootUID) (Some NonRootUID) (Some "RuntimeDefault") ["ALL"].
Definition RestrictedPodSecurityContext : PodSecurityContext :=
  mkPodSecurity (Some true) (Some NonRootUID) (Some NonRootUID) (Some NonRootUID) (Some "RuntimeDefault").

(** ** The backend *)

Record SoftwareBackend := mkSoftwareBackend { sb_SecretName : string }.
Record VaultBackend := mkVaultBackend {
  vb_Address : string;
  vb_KeyName : string;
  vb_KeyVersion : Z;
  vb_Mount : string;
  vb_Namespace : string;
  vb_TokenSecret : option SecretKeySelector;
  vb_CertificateSecret : option SecretKeySelector;
  vb_SkipCertificateVerify : bool;
}.
Record GcpImport := mkImport {
  im_Project : string;
  im_Location : string;
  im_KeyRing : string;
  im_Key : string;
  im_ImportJob : string;
  im_ProtectionLevel : string;
}.
Record GcpBackend := mkGcpBackend {
  gb_KeyVersion : string;
  gb_Import : option GcpImport;
  gb_CredentialsSecret : option SecretKeySelector;
}.
Record Backend := mkSignerBackend {
  bk_Software : option SoftwareBackend;
  bk_Vault : option VaultBackend;
  bk_GCP : option GcpBackend;
}.
Definition no_backend : Backend := mkSignerBackend None None None.
Definition software_backend (secret : string) : Backend := mkSignerBackend (Some (mkSoftwareBackend secret)) None None.
Definition vault_backend (v : VaultBackend) : Backend := mkSignerBackend None (Some v) None.
Definition gcp_backend (g : GcpBackend) : Backend := mkSignerBackend None None (Some g).

(** [GcpImport.CryptoKeyName] *)
Definition import_CryptoKeyName (g : option GcpImport) : string :=
  match g with
  | None => ""
  | Some i => "projects/" +:+ im_Project i +:+ "/locations/" +:+ im_Location i +:+ "/keyRings/" +:+ im_KeyRing i +:+
              "/cryptoKeys/" +:+ im_Key i
  end.

(** ** The configuration file *)

Record VaultConfig := mkVaultConfig {
  vcf_Address : string;
  vcf_TokenFile : string;
  vcf_Mount : string;
  vcf_KeyName : string;
  vcf_KeyVersion : Z;
  vcf_Namespace : string;
  vcf_TLSCACert : string;
}.
Record GCPConfig := mkGCPConfig { gcf_KeyVersion : string; gcf_CredentialsFile : string }.
Record BackendConfig := mkBackendConfig {
  bcf_Type : string;
  bcf_KeyFile : string;
  bcf_Vault : option VaultConfig;
  bcf_GCP : option GCPConfig;
}.
Record Member := mkMember { mb_ID : string; mb_Address : string }.
Record RaftConfig := mkRaftConfig {
  rf_BindAddr : string;
  rf_DataDir : string;
  rf_Bootstrap : bool;
  rf_Members : list Member;
  rf_TLSCert : string;
  rf_TLSKey : string;
  rf_TLSCA : string;
}.
(** [cosmosigner.Config] *)
Record SignerConfig := mkSignerConfig {
  scf_ChainID : string;
  scf_ExpectedPublicKey : string;
  scf_NodeService : string;
  scf_ConnKey : string;
  scf_StateDir : string;
  scf_LogLevel : string;
  scf_Backend : BackendConfig;
  scf_Raft : RaftConfig;
}.

Definition vaultCaCert (v : VaultBackend) : string := if is_some (vb_CertificateSecret v) then vaultCaFile else "".
Definition gcpCredsFilePath (g : GcpBackend) : string := if is_some (gb_CredentialsSecret g) then gcpCredsFile else "".

Definition backendConfig (b : Backend) : BackendConfig :=
  match bk_Software b, bk_Vault b, bk_GCP b with
  | Some _, _, _ => mkBackendConfig backendSoftware softwareKeyFile None None
  | None, Some v, _ =>
      mkBackendConfig backendVault ""
        (Some (mkVaultConfig (vb_Address v) vaultTokenFile (vb_Mount v) (vb_KeyName v) (vb_KeyVersion v)
                 (vb_Namespace v) (vaultCaCert v))) None
  | None, None, Some g =>
      mkBackendConfig backendGcpKms "" None (Some (mkGCPConfig (gb_KeyVersion g) (gcpCredsFilePath g)))
  | None, None, None => mkBackendConfig backendSoftware "" None None
  end.

(** [volumes]; the token of a Vault backend is dereferenced. *)
Definition secret_volume (name secret : string) (items : list KeyToPath) : Volume := mkVolume name (SecretSource secret items).
Definition key_item : KeyToPath := mkKeyToPath "priv_validator_key.json" "priv_validator_key.json".
Definition selector_volume (name path : string) (s : SecretKeySelector) : Volume :=
  secret_volume name (sel_Name s) [mkKeyToPath (sel_Key s) path].
Definition volumes (b : Backend) : result (list Volume) :=
  match bk_Software b, bk_Vault b, bk_GCP b with
  | Some s, _, _ => Ok [secret_volume softwareVolume (sb_SecretName s) [key_item]]
  | None, Some v, _ =>
      match vb_TokenSecret v with
      | None => Err nil_dereference
      | Some t => Ok (selector_volume vaultTokenVolume "token" t ::
                      match vb_CertificateSecret v with
                      | Some c => [selector_volume vaultCaVolume "ca.crt" c]
                      | None => []
                      end)
      end
  | None, None, Some g =>
      Ok match gb_CredentialsSecret g with
         | Some c => [selector_volume gcpCredsVolume "credentials.json" c]
         | None => []
         end
  | None, None, None => Ok []
  end.

Definition read_only_mount (name path : string) : VolumeMount := mkVolumeMount name true path "" "".
Definition volumeMounts (b : Backend) : list VolumeMount :=
  match bk_Software b, bk_Vault b, bk_GCP b with
  | Some _, _, _ => [read_only_mount softwareVolume softwareKeyDir]
  | None, Some v, _ =>
      read_only_mount vaultTokenVolume vaultTokenDir ::
      (if is_some (vb_CertificateSecret v) then [read_only_mount vaultCaVolume vaultCaDir] else [])
  | None, None, Some g => if is_some (gb_CredentialsSecret g) then [read_only_mount gcpCredsVolume gcpMountDir] else []
  | None, None, None => []
  end.

(** ** Parameters and names *)

(** [cosmosigner.Params] *)
Record SignerParams := mkSignerParams {
  sp_Name : string;
  sp_Namespace : string;
  sp_OwnerUID : string;
  sp_RootOwner : RootOwner;
  sp_ChainID : string;
  sp_Image : string;
  sp_Replicas : Z;
  sp_LogLevel : string;
  sp_ExpectedPublicKey : string;
  sp_StateStorageSize : string;
  sp_StorageClassName : option string;
  sp_Resources : ResourceRequirements;
  sp_RaftTLSSecret : option string;
  sp_ServiceAccountName : string;
  sp_ImagePullSecrets : list string;
  sp_Backend : Backend;
  sp_Labels : gmap string string;
  sp_TargetSelector : gmap string string;
}.

Definition SignerServiceDNS (name namespace : string) : string := name +:+ "." +:+ namespace +:+ ".svc".
Definition raftServiceDNS (p : SignerParams) : string := SignerServiceDNS (sp_Name p) (sp_Namespace p).
Definition DiscoveryServiceName (name : string) : string := name +:+ discoveryServiceSuffix.
Definition DiscoveryServiceDNS (name namespace : string) : string := DiscoveryServiceName name +:+ "." +:+ namespace +:+ ".svc".
Definition nodeServiceEndpoint (p : SignerParams) : string :=
  DiscoveryServiceDNS (sp_Name p) (sp_Namespace p) +:+ ":" +:+ FormatInt PrivValPort.

Definition InstanceLabels (name : string) : gmap string string :=
  <[labelAppName := appNameCosmosigner]> {[labelInstance := name]}.
Definition pvcOwnerLabels (name ownerUID : string) : gmap string string :=
  if ownerUID != "" then <[labelOwnerUID := ownerUID]> (InstanceLabels name) else InstanceLabels name.
Definition selectorLabels (p : SignerParams) : gmap string string := InstanceLabels (sp_Name p).
Definition pvcTemplateLabels (p : SignerParams) : gmap string string := pvcOwnerLabels (sp_Name p) (sp_OwnerUID p).
(** [MergeMaps(a, b)]: the second map wins. *)
Definition podLabels (p : SignerParams) : gmap string string := selectorLabels p ∪ sp_Labels p.

(** The name of a replica and its raft member. *)
Definition replica_name (p : SignerParams) (i : Z) : string := sp_Name p +:+ "-" +:+ FormatInt i.
Definition raft_member (p : SignerParams) (i : Z) : Member :=
  mkMember (replica_name p i) (replica_name p i +:+ "." +:+ raftServiceDNS p +:+ ":" +:+ FormatInt raftPort).

Definition raft_config (p : SignerParams) : RaftConfig :=
  let tls f := if is_some (sp_RaftTLSSecret p) then raftTLSMountDir +:+ f else "" in
  mkRaftConfig raftBindAddr raftDataDir true
    (if (1 <? sp_Replicas p)%Z then map (raft_member p) (seqZ 0 (sp_Replicas p)) else [])
    (tls "/tls.crt") (tls "/tls.key") (tls "/ca.crt").

Definition BuildConfig (p : SignerParams) : SignerConfig :=
  mkSignerConfig (sp_ChainID p) (sp_ExpectedPublicKey p) (nodeServiceEndpoint p) connKeyPath dataMountPath
    (sp_LogLevel p) (backendConfig (sp_Backend p)) (raft_config p).
Definition with_bootstrap (c : SignerConfig) (b : bool) : SignerConfig :=
  let r := scf_Raft c in
  mkSignerConfig (scf_ChainID c) (scf_ExpectedPublicKey c) (scf_NodeService c) (scf_ConnKey c) (scf_StateDir c)
    (scf_LogLevel c) (scf_Backend c)
    (mkRaftConfig (rf_BindAddr r) (rf_DataDir r) b (rf_Members r) (rf_TLSCert r) (rf_TLSKey r) (rf_TLSCA r)).

(** ** Encodings

    [yaml.Marshal] and [yaml.Unmarshal] of a [Config], and [json.Marshal] of the
    value [LifecycleDigest] hashes: the signing digest and the rest of the
    StatefulSet's spec. *)
Class YamlApi := {
  yaml_Marshal : SignerConfig → result string;
  yaml_Unmarshal : string → result SignerConfig;
  json_Lifecycle : string → StatefulSet → result string;
}.
(** Documented: a marshalled configuration reads back as itself, and never as
    an empty document. *)
Class YamlLaws `{YamlApi} := {
  yaml_roundtrip c y : yaml_Marshal c = Ok y → yaml_Unmarshal y = Ok c ∧ y ≠ "";
}.

Section render.
Context `{YamlApi} `{QuantityApi} `{MetaApi}.

(** [Config.Render] *)
Definition Render (c : SignerConfig) : result string :=
  match yaml_Marshal c with
  | Ok y => Ok y
  | Err e => Err (Wrapf e "rendering cosmosigner config: %w" [])
  end.
Definition ConfigYAML (p : SignerParams) : result string := Render (BuildConfig p).

Definition GcpKeyVersionFromConfigYAML (data : string) : result string :=
  match yaml_Unmarshal data with
  | Err e => Err (Wrapf e "parsing cosmosigner config: %w" [])
  | Ok cfg =>
      match bcf_GCP (scf_Backend cfg) with
      | Some g => Ok (if bcf_Type (scf_Backend cfg) != backendGcpKms then "" else gcf_KeyVersion g)
      | None => Ok ""
      end
  end.

Definition config_file (p : SignerParams) (i : Z) : string := replica_name p i +:+ ".yaml".

Definition configData (p : SignerParams) (configYAML : string) : result (gmap string string) :=
  let data : gmap string string := {[configFileName := configYAML]} in
  if (sp_Replicas p <=? 1)%Z then Ok data else
  match yaml_Unmarshal configYAML with
  | Err e => Err (Wrapf e "parsing rendered cosmosigner config: %w" [])
  | Ok followerConfig =>
      followerYAML ← Render (with_bootstrap followerConfig false);
      Ok (foldl (λ m i, <[config_file p i := followerYAML]> m) (<[config_file p 0 := configYAML]> data)
            (seqZ 1 (sp_Replicas p - 1)))
  end.

(** The text that is hashed: every key and value with its length, in the order of the keys. *)
Definition config_entry (data : gmap string string) (key : string) : string :=
  let value := default "" (data !! key) in
  FormatInt (Z.of_nat (String.length key)) +:+ ":" +:+ key +:+
  FormatInt (Z.of_nat (String.length value)) +:+ ":" +:+ value.
Definition config_keys (data : gmap string string) : list string := sort_Strings (map fst (map_to_list data)).
Definition config_payload (data : gmap string string) : string :=
  strings_Join (map (config_entry data) (config_keys data)) "".
Definition configDataHash (data : gmap string string) : string :=
  if bool_decide (size data = 1%nat) then
    match data !! configFileName with
    | Some configYAML => Sha256 configYAML
    | None => Sha256 (config_payload data)
    end
  else Sha256 (config_payload data).

(** *** Objects *)

(** [ObjectMeta{Name, Namespace, Labels}] *)
Definition labelled_meta (namespace name : string) (labels : gmap string string) : ObjectMeta :=
  mkMeta name namespace "" labels None [] [] None 0 "".

Definition ConfigMap (p : SignerParams) (configYAML : string) : result KubeObject :=
  data ← configData p configYAML;
  Ok (mkObject "ConfigMap" (labelled_meta (sp_Namespace p) (sp_Name p) (sp_Labels p)) "" (ConfigData data)).

Definition headless_service (p : SignerParams) (name : string) (selector : gmap string string) (port : string) (number : Z) :
    KubeObject :=
  mkObject "Service" (labelled_meta (sp_Namespace p) name (sp_Labels p)) "None"
    (ServiceContent true selector [mkServicePort port "TCP" number number]).
Definition RaftService (p : SignerParams) : KubeObject :=
  headless_service p (sp_Name p) (selectorLabels p) raftPortName raftPort.
Definition DiscoveryService (p : SignerParams) : KubeObject :=
  headless_service p (DiscoveryServiceName (sp_Name p)) (sp_TargetSelector p) PrivValPortName PrivValPort.
Definition NetworkPolicy (p : SignerParams) : KubeObject :=
  mkObject "NetworkPolicy" (labelled_meta (sp_Namespace p) (sp_Name p) (sp_Labels p)) ""
    (PolicyContent (selectorLabels p) (selectorLabels p) raftPort "TCP").

Definition tls_volume (secret : string) : Volume := secret_volume "raft-tls" secret [].
Definition sts_volumes (p : SignerParams) : result (list Volume) :=
  l ← volumes (sp_Backend p);
  Ok (mkVolume "config" (ConfigMapSource (sp_Name p)) :: l ++
      match sp_RaftTLSSecret p with Some s => [tls_volume s] | None => [] end).
Definition sts_mounts (p : SignerParams) : list VolumeMount :=
  [mkVolumeMount dataVolumeName false dataMountPath "" "";
   if (1 <? sp_Replicas p)%Z
   then mkVolumeMount "config" true (configMountPath +:+ "/" +:+ configFileName) "" "$(POD_NAME).yaml"
   else mkVolumeMount "config" false configMountPath "" ""] ++
  volumeMounts (sp_Backend p) ++
  (if is_some (sp_RaftTLSSecret p) then [read_only_mount "raft-tls" raftTLSMountDir] else []).

Definition signer_container (p : SignerParams) (hash : string) : Container :=
  mkContainer containerName (sp_Image p) "" (Some RestrictedSecurityContext) []
    ["start"; "--config"; configMountPath +:+ "/" +:+ configFileName; "--expected-public-key"; sp_ExpectedPublicKey p]
    [mkEnvVar "POD_NAME" (EnvFieldRef "metadata.name");
     mkEnvVar "COSMOSIGNER_RAFT_NODE_ID" (EnvValue "$(POD_NAME)");
     mkEnvVar "COSMOSIGNER_RAFT_ADVERTISE"
       (EnvValue ("$(POD_NAME)." +:+ raftServiceDNS p +:+ ":" +:+ FormatInt raftPort));
     mkEnvVar configHashEnv (EnvValue hash)]
    [mkContainerPort raftPortName raftPort "TCP"] (sts_mounts p) (sp_Resources p)
    (Some (mkProbe (TcpSocket raftPort) 60 5 5)) (Some (mkProbe (TcpSocket raftPort) 3 10 5)).

Definition claim_meta (p : SignerParams) : ObjectMeta :=
  let m := mkMeta dataVolumeName "" "" (pvcTemplateLabels p) None [] [RetainedStateFinalizer] None 0 "" in
  let m := if ro_UID (sp_RootOwner p) != "" then (Stamp m (sp_RootOwner p) ClassCosmosignerState).1 else m in
  if sp_OwnerUID p != "" then (StampResourceOwner m (sp_OwnerUID p)).1 else m.

Definition render_sts (p : SignerParams) (storage : Quantity) (hash : string) (vols : list Volume) : StatefulSet :=
  mkStatefulSet (labelled_meta (sp_Namespace p) (sp_Name p) (sp_Labels p)) 0 (Some (sp_Replicas p)) (selectorLabels p)
    (sp_Name p) "Parallel" "OnDelete"
    (mkPodSpec "" None (Some RestrictedPodSecurityContext) (sp_ServiceAccountName p) [] [] [signer_container p hash] vols)
    (podLabels p) [mkPVC (claim_meta p) (sp_StorageClassName p) (Some storage) "" ""]
    (Some (mkRetention "Delete" RetainPolicy)) 0 0 0 0.

(** [Params.StatefulSet] *)
Definition signer_StatefulSet (p : SignerParams) (configYAML : string) : result StatefulSet :=
  if sp_ExpectedPublicKey p == "" then Err (Errorf "cosmosigner expected public key is required" []) else
  match ParseQuantity (sp_StateStorageSize p) with
  | Err e => Err (Wrapf e "bad cosmosigner stateStorageSize: %w" [])
  | Ok storageQty =>
      data ← configData p configYAML;
      vols ← sts_volumes p;
      Ok (render_sts p storageQty (configDataHash data) vols)
  end.

Definition LifecycleDigest (p : SignerParams) (signingDigest : string) : result string :=
  configYAML ← ConfigYAML p;
  sts ← signer_StatefulSet p configYAML;
  match json_Lifecycle signingDigest sts with
  | Err e => Err (Wrapf e "rendering cosmosigner lifecycle digest: %w" [])
  | Ok payload => Ok (Sha256 payload)
  end.

(** What the migration reconcilers use of the parameters. *)
Definition migration_params (p : SignerParams) : Params :=
  mkParams (sp_Name p) (sp_Replicas p) (sp_ExpectedPublicKey p) (LifecycleDigest p).

Definition SetLifecycleDigest (sts : StatefulSet) (digest : string) : StatefulSet :=
  with_annotation sts LifecycleDigestAnnotation digest.

(** ** Reading the key of a live signer back *)

Definition signerConfigHash (sts : StatefulSet) : option string :=
  env_Value <$> find (λ e, (env_Name e == configHashEnv) && (env_Value e != ""))
    (c ← filter (λ c, ct_Name c = containerName) (psp_Containers (sts_PodSpec sts)); ct_Env c).

Definition software_secret (sts : StatefulSet) : option string :=
  snd <$> find_map (λ v, match vol_Source v with
                 | SecretSource secret _ => if vol_Name v == softwareVolume then Some secret else None
                 | _ => None
                 end) (psp_Volumes (sts_PodSpec sts)).

Definition same_vault (live want : VaultConfig) : bool :=
  (vcf_Address live == vcf_Address want) && (vcf_Namespace live == vcf_Namespace want) &&
  (vcf_Mount live == vcf_Mount want) && (vcf_KeyName live == vcf_KeyName want) &&
  (vcf_KeyVersion live =? vcf_KeyVersion want)%Z.

Definition recoveredBackendMatches (live : BackendConfig) (desired : Backend) (sts : StatefulSet) : bool :=
  let want := backendConfig desired in
  if bcf_Type live != bcf_Type want then false else
  match bk_Software desired, bk_Vault desired, bk_GCP desired with
  | Some s, _, _ =>
      (bcf_KeyFile live == bcf_KeyFile want) &&
      match software_secret sts with Some name => name == sb_SecretName s | None => false end
  | None, Some _, _ =>
      match bcf_Vault live, bcf_Vault want with
      | Some l, Some w => same_vault l w
      | _, _ => false
      end
  | None, None, Some _ =>
      match bcf_GCP live, bcf_GCP want with
      | Some l, Some w => gcf_KeyVersion l == gcf_KeyVersion w
      | _, _ => false
      end
  | None, None, None => false
  end.

Definition config_data (o : KubeObject) : gmap string string :=
  match ob_Content o with ConfigData d => d | _ => ∅ end.

Definition recovery_error (name : string) : error :=
  Errorf "cosmosigner %q live signing identity does not match the desired spec; refusing to overwrite the recovered signer" [AStr name].

(** What a live configuration says about the key. *)
Definition recovered_key (p : SignerParams) (sts : StatefulSet) (liveConfig : SignerConfig) : result (string * bool) :=
  let publicKey := scf_ExpectedPublicKey liveConfig in
  if negb (recoveredBackendMatches (scf_Backend liveConfig) (sp_Backend p) sts) ||
     negb (is_ok (validateCanonicalPublicKey publicKey)) then Err (recovery_error (sp_Name p))
  else if (sp_ExpectedPublicKey p != "") && (sp_ExpectedPublicKey p != publicKey) then Err (recovery_error (sp_Name p))
  else Ok (publicKey, true).

Definition recover_config (p : SignerParams) (sts : StatefulSet) (configMap : KubeObject) : result (string * bool) :=
  let name := [AStr (sp_Name p)] in
  let liveYAML := default "" (config_data configMap !! configFileName) in
  if liveYAML == "" then
    Err (Errorf "cosmosigner %q has live state but its ConfigMap has no %s; refusing to recover an unverifiable live signing identity" (name ++ [AStr configFileName]))
  else if negb (bool_decide (signerConfigHash sts = Some (configDataHash (config_data configMap)))) then
    Err (Errorf "cosmosigner %q live StatefulSet %s does not match its ConfigMap; refusing to recover a torn signing configuration" (name ++ [AStr configHashEnv]))
  else match yaml_Unmarshal liveYAML with
       | Err e => Err (Wrapf e "cosmosigner %q has live state but its ConfigMap is invalid; refusing to recover an unverifiable live signing identity: %w" name)
       | Ok liveConfig => recovered_key p sts liveConfig
       end.

Definition orphaned_claim (owner : ObjectMeta) (name : string) (pvc : PersistentVolumeClaim) : bool :=
  is_some (ownedStatefulSetDataPVCOrdinal pvc owner name) || isAmbiguousLegacyDataPVC pvc name.

(** The key and whether a signer is live. *)
Definition RecoveredSigningPublicKey (owner : ObjectMeta) (p : SignerParams) : kube (result (string * bool)) :=
  let name := [AStr (sp_Name p)] in
  r ← call (GetStatefulSet Cached (sp_Namespace p) (sp_Name p));
  match r with
  | Err e =>
      if negb (IsNotFound e) then return_error e else
      pvcs ←? call (ListPVCs Cached (sp_Namespace p));
      match find (orphaned_claim owner (sp_Name p)) pvcs with
      | Some pvc => return_error (Errorf "cosmosigner %q has orphaned raft-state PVC %q but no StatefulSet; refusing to recover an unverifiable live signing identity" (name ++ [AStr (pvc_Name pvc)]))
      | None => return_result ("", false)
      end
  | Ok sts =>
      if negb (IsControlledBy (sts_meta sts) owner) then return_error (foreignObjectErr "StatefulSet" (sp_Name p)) else
      r ← call (GetObject Cached "ConfigMap" (sp_Namespace p) (sp_Name p));
      match r with
      | Err e =>
          if IsNotFound e then
            return_error (Errorf "cosmosigner %q has live state but its ConfigMap is missing; refusing to recover an unverifiable live signing identity" name)
          else return_error e
      | Ok configMap =>
          if negb (IsControlledBy (ob_meta configMap) owner) then return_error (foreignObjectErr "ConfigMap" (sp_Name p))
          else Ret (recover_config p sts configMap)
      end
  end.
End render.

(** ** The hashed text determines the data *)

(** The digits before a separator are determined. *)
Lemma digits_prefix a b s t :
  string_forallb is_digit a = true → string_forallb is_digit b = true →
  a +:+ ":" +:+ s = b +:+ ":" +:+ t → a = b ∧ s = t.
Proof.
  revert b. induction a as [|c a IH]; intros [|d b] Ha Hb E; rewrite ?append_nil_l, ?append_cons in E; simpl in Ha, Hb.
  - split; [done|by injection E].
  - injection E as <- _. by apply andb_true_iff in Hb as [Hb _].
  - injection E as -> _. by apply andb_true_iff in Ha as [Ha _].
  - apply andb_true_iff in Ha as [_ Ha], Hb as [_ Hb]. injection E as -> E. destruct (IH b Ha Hb E) as [-> ->]. done.
Qed.

Lemma length_prefix (a b s t : string) :
  FormatInt (Z.of_nat (String.length a)) +:+ ":" +:+ a +:+ s = FormatInt (Z.of_nat (String.length b)) +:+ ":" +:+ b +:+ t →
  a = b ∧ s = t.
Proof.
  intros E. apply digits_prefix in E as [El E]; [|apply FormatInt_digits; lia..].
  apply FormatInt_inj in El. assert (a = b) as ->; [|split; [done|by eapply string_app_inj_l]].
  apply (f_equal (slice_to (String.length a))) in E. unfold slice_to in E.
  rewrite substring_app_l in E. replace (String.length a) with (String.length b) in E by lia.
  by rewrite substring_app_l in E.
Qed.

Section payload.
Implicit Types data : gmap string string.

Lemma strings_Join_nil_cons (x : string) (l : list string) : strings_Join (x :: l) "" = x +:+ strings_Join l "".
Proof. destruct l; [by rewrite string_app_nil_r|done]. Qed.

(** Entries are read off one by one. *)
Lemma entries_inj data1 data2 keys1 keys2 :
  strings_Join (map (config_entry data1) keys1) "" = strings_Join (map (config_entry data2) keys2) "" →
  keys1 = keys2 ∧ ∀ k, k ∈ keys1 → default "" (data1 !! k) = default "" (data2 !! k).
Proof.
  revert keys2. induction keys1 as [|k1 keys1 IH]; intros [|k2 keys2]; rewrite ?map_cons, ?strings_Join_nil_cons; simpl map;
    [by intros _; split; [done|intros k []%elem_of_nil]|..].
  1,2: unfold config_entry; intros E; apply (f_equal String.length) in E; rewrite !string_length_app in E; simpl in E; lia.
  unfold config_entry at 1 3. rewrite !string_app_assoc. intros E.
  apply length_prefix in E as [-> E]. apply length_prefix in E as [Ev E].
  apply IH in E as [-> Hk]. split; [done|]. intros k [->|Hin]%elem_of_cons; auto.
Qed.

Lemma config_keys_elem data k : k ∈ config_keys data ↔ is_Some (data !! k).
Proof.
  unfold config_keys, sort_Strings. rewrite (sort_slice_perm String.ltb (map fst (map_to_list data))).
  rewrite list_elem_of_fmap. split.
  - intros ([k' v] & -> & Hk). apply elem_of_map_to_list in Hk. by exists v.
  - intros [v Hv]. exists (k, v). split; [done|]. by apply elem_of_map_to_list.
Qed.

(** What is hashed of several files determines them. *)
Lemma config_payload_inj data1 data2 : config_payload data1 = config_payload data2 → data1 = data2.
Proof.
  intros [Hk Hv]%entries_inj. apply map_eq. intros k.
  assert (is_Some (data1 !! k) ↔ is_Some (data2 !! k)) as Hs by by rewrite <- !config_keys_elem, Hk.
  destruct (data1 !! k) as [v|] eqn:E1; destruct (data2 !! k) as [v'|] eqn:E2.
  - specialize (Hv k). rewrite config_keys_elem, E1, E2 in Hv. f_equal. by apply Hv.
  - destruct Hs as [[? [=]] _]. by exists v.
  - destruct Hs as [_ [? [=]]]. by exists v'.
  - done.
Qed.
End payload.

(** ** The files of the replicas *)

Section files.
Context `{YamlLaws}.

Lemma config_file_inj p i j : config_file p i = config_file p j → i = j.
Proof. unfold config_file, replica_name. intros E%string_app_inj_r. by apply string_app_inj_l, string_app_inj_l, FormatInt_inj in E. Qed.

Lemma insert_files p y (m : gmap string string) l i :
  foldl (λ m j, <[config_file p j := y]> m) m l !! config_file p i =
  if bool_decide (i ∈ l) then Some y else m !! config_file p i.
Proof.
  revert m. induction l as [|j l IH]; intros m; cbn [foldl]; [done|].
  rewrite IH. destruct (decide (i ∈ l)) as [Hi|Hi].
  - rewrite !bool_decide_eq_true_2; [done|by right|done].
  - rewrite (bool_decide_eq_false_2 _ Hi). destruct (decide (i = j)) as [->|Hj].
    + rewrite bool_decide_eq_true_2 by by left. by rewrite lookup_insert_eq.
    + rewrite lookup_insert_ne by (by intros E%config_file_inj).
      rewrite bool_decide_eq_false_2; [done|]. by intros [|]%elem_of_cons.
Qed.

Lemma Render_ok c y : Render c = Ok y → yaml_Marshal c = Ok y.
Proof. unfold Render. by destruct (yaml_Marshal c). Qed.
Lemma Render_reads c y : Render c = Ok y → yaml_Unmarshal y = Ok c.
Proof. intros Hr%Render_ok. by apply yaml_roundtrip in Hr as [? _]. Qed.
Lemma Render_not_empty c y : Render c = Ok y → y ≠ "".
Proof. intros Hr%Render_ok. by apply yaml_roundtrip in Hr as [_ ?]. Qed.

Lemma with_bootstrap_same c : with_bootstrap c (rf_Bootstrap (scf_Raft c)) = c.
Proof. by destruct c as [? ? ? ? ? ? ? []]. Qed.

(** The file a replica reads: each of several mounts the one with its own name. *)
Definition replica_file (p : SignerParams) (i : Z) : string :=
  if (1 <? sp_Replicas p)%Z then config_file p i else configFileName.

(** The data of a signer: what each replica parses. *)
Lemma configData_files p y data i :
  ConfigYAML p = Ok y → configData p y = Ok data → (0 ≤ i < Z.max 1 (sp_Replicas p))%Z →
  ∃ f, data !! replica_file p i = Some f ∧ yaml_Unmarshal f = Ok (with_bootstrap (BuildConfig p) (i =? 0)%Z).
Proof.
  intros Hy Hd Hi. pose proof (Render_reads _ _ Hy) as Hp. unfold configData in Hd. unfold replica_file.
  destruct (Z.leb_spec (sp_Replicas p) 1) as [Hr|Hr].
  - injection Hd as <-. rewrite (proj2 (Z.ltb_ge _ _)) by lia. exists y. rewrite lookup_singleton_eq.
    replace i with 0%Z by lia. by rewrite Hp.
  - rewrite (proj2 (Z.ltb_lt _ _)) by lia. rewrite Hp in Hd. simpl in Hd.
    destruct (Render (with_bootstrap (BuildConfig p) false)) as [fy|] eqn:Ef; simpl in Hd; [|done]. injection Hd as <-.
    rewrite insert_files. destruct (Z.eqb_spec i 0) as [->|Hne].
    + exists y. rewrite bool_decide_eq_false_2 by (rewrite elem_of_seqZ; lia). by rewrite lookup_insert_eq, Hp.
    + exists fy. rewrite bool_decide_eq_true_2 by (rewrite elem_of_seqZ; lia). split; [done|by apply Render_reads].
Qed.
End files.

(** ** What is deployed can be read back *)

Section readback.
Context `{YamlLaws} `{QuantityApi} `{MetaApi}.
Variables (p : SignerParams) (configYAML : string) (sts : StatefulSet) (cm : KubeObject).
Hypothesis rendered : ConfigYAML p = Ok configYAML.
Hypothesis rendered_sts : signer_StatefulSet p configYAML = Ok sts.
Hypothesis rendered_cm : ConfigMap p configYAML = Ok cm.

Lemma config_file_other i : config_file p i ≠ configFileName.
Proof.
  intros E. apply (string_app_inj_r _ "config" ".yaml") in E.
  apply (f_equal (string_forallb (λ c, c != "-"%char))) in E. unfold replica_name in E.
  rewrite !string_forallb_app in E. simpl in E. by rewrite andb_false_r in E.
Qed.

Lemma configData_config data : configData p configYAML = Ok data → data !! configFileName = Some configYAML.
Proof.
  unfold configData. destruct (sp_Replicas p <=? 1)%Z; [intros [= <-]; by rewrite lookup_singleton_eq|].
  rewrite (Render_reads _ _ rendered). destruct (Render _) as [fy|]; simpl; [|done]. intros [= <-].
  generalize (seqZ 1 (sp_Replicas p - 1)) as l. intros l.
  enough (∀ m : gmap string string, m !! configFileName = Some configYAML →
    foldl (λ m i, <[config_file p i := fy]> m) m l !! configFileName = Some configYAML) as He.
  { apply He. rewrite lookup_insert_ne by apply config_file_other. by rewrite lookup_singleton_eq. }
  induction l as [|i l IH]; intros m Hm; simpl; [done|]. apply IH. by rewrite lookup_insert_ne by apply config_file_other.
Qed.

(** The parts of the rendered objects. *)
Lemma rendered_parts :
  sp_ExpectedPublicKey p ≠ "" ∧ ∃ storage data vols,
    configData p configYAML = Ok data ∧ sts_volumes p = Ok vols ∧
    ob_Content cm = ConfigData data ∧ sts = render_sts p storage (configDataHash data) vols.
Proof.
  unfold signer_StatefulSet in rendered_sts. unfold ConfigMap in rendered_cm.
  destruct (sp_ExpectedPublicKey p == "") eqn:Ek; [done|]. to_prop. split; [done|].
  destruct (ParseQuantity _) as [storage|]; [|done].
  destruct (configData p configYAML) as [data|] eqn:Ed; simpl in rendered_sts, rendered_cm; [|done].
  destruct (sts_volumes p) as [vols|] eqn:Ev; simpl in rendered_sts; [|done].
  injection rendered_sts as <-. injection rendered_cm as <-. by exists storage, data, vols.
Qed.

Lemma configDataHash_not_empty data : configDataHash data ≠ "".
Proof. unfold configDataHash. repeat case_match; apply Sha256_not_empty. Qed.

Lemma rendered_hash storage hash vols :
  hash ≠ "" → signerConfigHash (render_sts p storage hash vols) = Some hash.
Proof.
  intros Hh. unfold signerConfigHash, render_sts. simpl.
  cbn [env_Value env_Source]. by rewrite bool_decide_eq_false_2.
Qed.

Definition backend_set (b : Backend) : Prop := is_Some (bk_Software b) ∨ is_Some (bk_Vault b) ∨ is_Some (bk_GCP b).

Lemma rendered_backend_matches storage hash vols :
  backend_set (sp_Backend p) → sts_volumes p = Ok vols →
  recoveredBackendMatches (backendConfig (sp_Backend p)) (sp_Backend p) (render_sts p storage hash vols) = true.
Proof.
  unfold backend_set, recoveredBackendMatches, backendConfig, sts_volumes, volumes, software_secret, render_sts.
  intros Hs Hv. destruct (sp_Backend p) as [[sb|] [v|] [g|]]; simpl in *;
    try (injection Hv as <-; simpl; rewrite !bool_decide_eq_true_2 by done; reflexivity);
    try (unfold same_vault; rewrite !bool_decide_eq_true_2 by done; simpl; by rewrite Z.eqb_refl);
    try (by rewrite !bool_decide_eq_true_2).
  exfalso. by destruct Hs as [[? [=]]|[[? [=]]|[? [=]]]].
Qed.

(** Whoever wants a signer with this name and backend reads the key back that was
    deployed, whatever else of it differs, and gets nothing else when it insists on
    another key. *)
Lemma recover_rendered p' (live : StatefulSet) (configMap : KubeObject) :
  backend_set (sp_Backend p) → validateCanonicalPublicKey (sp_ExpectedPublicKey p) = Ok () →
  sp_Name p' = sp_Name p → sp_Backend p' = sp_Backend p →
  sts_PodSpec live = sts_PodSpec sts → ob_Content configMap = ob_Content cm →
  recover_config p' live configMap =
    if (sp_ExpectedPublicKey p' == "") || (sp_ExpectedPublicKey p' == sp_ExpectedPublicKey p)
    then Ok (sp_ExpectedPublicKey p, true) else Err (recovery_error (sp_Name p)).
Proof.
  intros Hb Hk En Eb Es Ec. destruct rendered_parts as (_ & storage & data & vols & Hd & Hv & Hc & Hsts).
  pose proof (rendered_backend_matches storage (configDataHash data) vols Hb Hv) as Hm.
  unfold recover_config, config_data. rewrite Ec, Hc, (configData_config _ Hd). simpl.
  rewrite (bool_decide_eq_false_2 _ (Render_not_empty _ _ rendered)).
  assert (signerConfigHash live = Some (configDataHash data)) as ->.
  { unfold signerConfigHash. rewrite Es, Hsts. apply rendered_hash, configDataHash_not_empty. }
  rewrite bool_decide_eq_true_2 by done. simpl. rewrite (Render_reads _ _ rendered).
  assert (recoveredBackendMatches (backendConfig (sp_Backend p)) (sp_Backend p) live = true) as Hl.
  { rewrite <- Hm. unfold recoveredBackendMatches, software_secret. by rewrite Es, Hsts. }
  unfold recovered_key. cbn [scf_ExpectedPublicKey scf_Backend BuildConfig]. rewrite Eb, Hl, Hk, En. simpl.
  repeat case_bool_decide; simpl; congruence.
Qed.
End readback.

(** ** What a replica reads

    Kubernetes resolves a rendered StatefulSet as follows: the pod of ordinal [i] is named after the
    set; [$(VAR)] in a [subPathExpr] stands for the variable of the container and [$$] for a dollar
    sign; a volume made from a ConfigMap holds a file for each of its keys; a mount with a sub-path
    shows that one file, and one without shows all of them below its path. *)

Fixpoint expand (fuel : nat) (var : string → option string) (s : string) : string :=
  match fuel, s with
  | S fuel, String "$" (String "$" s) => String "$" (expand fuel var s)
  | S fuel, String "$" (String "(" s) =>
      match strings_Cut s ")" with
      | Some (name, rest) => default ("$(" +:+ name +:+ ")") (var name) +:+ expand fuel var rest
      | None => "$(" +:+ s
      end
  | S fuel, String c s => String c (expand fuel var s)
  | _, _ => s
  end.

Definition ordinal_pod (sts : StatefulSet) (i : Z) : string := sts_Name sts +:+ "-" +:+ FormatInt i.
Definition container_var (c : Container) (pod : string) (name : string) : option string :=
  match find (λ e, env_Name e == name) (ct_Env c) with
  | Some e => match env_Source e with
              | EnvValue v => Some v
              | EnvFieldRef path => if path == "metadata.name" then Some pod else None
              end
  | None => None
  end.

(** The volume and the file of it that a container finds at a path. *)
Definition mounted_file (c : Container) (pod path : string) : option (string * string) :=
  match find (λ m, vm_MountPath m == path) (ct_Mounts c) with
  | Some m =>
      if vm_SubPathExpr m != ""
      then Some (vm_Name m, expand (String.length (vm_SubPathExpr m)) (container_var c pod) (vm_SubPathExpr m))
      else if vm_SubPath m != "" then Some (vm_Name m, vm_SubPath m) else None
  | None =>
      snd <$> find_map (λ m, if (vm_SubPathExpr m == "") && (vm_SubPath m == "")
                             then pair (vm_Name m) <$> CutPrefix path (vm_MountPath m +:+ "/") else None) (ct_Mounts c)
  end.

Fixpoint argument_of (flag : string) (args : list string) : option string :=
  match args with
  | a :: (v :: _) as rest => if a == flag then Some v else argument_of flag rest
  | _ => None
  end.

(** A file of one of the volumes, when it comes from the ConfigMap. *)
Definition volume_file (vols : list Volume) (cm : KubeObject) (volume file : string) : option string :=
  match vol_Source <$> find (λ v, vol_Name v == volume) vols with
  | Some (ConfigMapSource name) => if name == meta_Name (ob_meta cm) then config_data cm !! file else None
  | _ => None
  end.

(** The file that the signer of one ordinal is started with. *)
Definition replica_config (sts : StatefulSet) (cm : KubeObject) (i : Z) : option string :=
  match find (λ c, ct_Name c == containerName) (psp_Containers (sts_PodSpec sts)) with
  | Some c =>
      match argument_of "--config" (ct_Args c) with
      | Some path =>
          match mounted_file c (ordinal_pod sts i) path with
          | Some (volume, file) => volume_file (psp_Volumes (sts_PodSpec sts)) cm volume file
          | None => None
          end
      | None => None
      end
  | None => None
  end.

Lemma config_mounted p hash i :
  mounted_file (signer_container p hash) (replica_name p i) (configMountPath +:+ "/" +:+ configFileName) =
  Some ("config", replica_file p i).
Proof.
  unfold mounted_file, signer_container, replica_file, config_file, sts_mounts.
  destruct (1 <? sp_Replicas p)%Z; [reflexivity|].
  destruct (sp_Backend p) as [[?|] [v|] [g|]]; cbn [volumeMounts bk_Software bk_Vault bk_GCP];
    try destruct (vb_CertificateSecret v); try destruct (gb_CredentialsSecret g); destruct (sp_RaftTLSSecret p); reflexivity.
Qed.

(** C37: Of the replicas of a signer exactly one, the first, bootstraps the raft cluster.  With the
    rendered StatefulSet and ConfigMap applied, the file that the container of each replica is started
    with - found through its argument, its mounts, its environment and the volumes of the set - is the
    configuration of the signer with that one difference, and they all name the same members. *)
Theorem one_replica_bootstraps `{YamlLaws} `{QuantityApi} `{MetaApi} p y sts cm :
  ConfigYAML p = Ok y → signer_StatefulSet p y = Ok sts → ConfigMap p y = Ok cm →
  ∀ i, (0 ≤ i < Z.max 1 (sp_Replicas p))%Z →
    ∃ f, replica_config sts cm i = Some f ∧
         yaml_Unmarshal f = Ok (with_bootstrap (BuildConfig p) (i =? 0)%Z) ∧
         rf_Members (scf_Raft (BuildConfig p)) =
           if (1 <? sp_Replicas p)%Z then map (raft_member p) (seqZ 0 (sp_Replicas p)) else [].
Proof.
  intros Hy Hs Hcm i Hi. destruct (rendered_parts p y sts cm Hs Hcm) as (_ & storage & data & vols & Hd & Hv & Hc & ->).
  destruct (configData_files p y data i Hy Hd Hi) as (f & Hf & Hp). exists f. split; [|done].
  unfold ConfigMap in Hcm. rewrite Hd in Hcm. injection Hcm as <-.
  unfold sts_volumes in Hv. destruct (volumes (sp_Backend p)) as [l|]; simpl in Hv; [|done]. injection Hv as <-.
  transitivity match mounted_file (signer_container p (configDataHash data)) (replica_name p i)
                       (configMountPath +:+ "/" +:+ configFileName) with
               | Some (volume, file) => volume_file (mkVolume "config" (ConfigMapSource (sp_Name p)) ::
                   l ++ match sp_RaftTLSSecret p with Some s => [tls_volume s] | None => [] end)
                   (mkObject "ConfigMap" (labelled_meta (sp_Namespace p) (sp_Name p) (sp_Labels p)) "" (ConfigData data)) volume file
               | None => None
               end; [reflexivity|].
  rewrite config_mounted. unfold volume_file. unfold config_data. simpl. by rewrite bool_decide_eq_true_2.
Qed.

(** C36: The signing key of a signer that lost its status is read back from what was deployed: with the
    rendered ConfigMap and StatefulSet live and controlled by the owner, the recovery answers with the
    key they were rendered for, and refuses a configuration that asks for another key. *)
Theorem recovery_roundtrip `{YamlLaws} `{QuantityApi} `{MetaApi} (ans : ∀ r, response r) owner p p' y sts cm live liveMap :
  ConfigYAML p = Ok y → signer_StatefulSet p y = Ok sts → ConfigMap p y = Ok cm →
  backend_set (sp_Backend p) → validateCanonicalPublicKey (sp_ExpectedPublicKey p) = Ok () →
  sp_Name p' = sp_Name p → sp_Namespace p' = sp_Namespace p → sp_Backend p' = sp_Backend p →
  ans (GetStatefulSet Cached (sp_Namespace p) (sp_Name p)) = Ok live → IsControlledBy (sts_meta live) owner = true →
  sts_PodSpec live = sts_PodSpec sts →
  ans (GetObject Cached "ConfigMap" (sp_Namespace p) (sp_Name p)) = Ok liveMap → IsControlledBy (ob_meta liveMap) owner = true →
  ob_Content liveMap = ob_Content cm →
  run_with ans (RecoveredSigningPublicKey owner p') =
    if (sp_ExpectedPublicKey p' == "") || (sp_ExpectedPublicKey p' == sp_ExpectedPublicKey p)
    then Ok (sp_ExpectedPublicKey p, true) else Err (recovery_error (sp_Name p)).
Proof.
  intros Hy Hs Hc Hb Hk En Ens Eb Hlive Hown Hspec Hmap Hmown Hcontent.
  unfold RecoveredSigningPublicKey. rewrite run_with_mbind, En, Ens. simpl. rewrite Hlive, Hown. simpl.
  rewrite Hmap, Hmown. simpl. by eapply recover_rendered.
Qed.

(** ** Examples *)

#[local] Instance SignerConfig_eq_dec : EqDecision SignerConfig.
Proof.
  assert (EqDecision VaultConfig) by solve_decision. assert (EqDecision GCPConfig) by solve_decision.
  assert (EqDecision BackendConfig) by solve_decision. assert (EqDecision Member) by solve_decision.
  assert (EqDecision RaftConfig) by solve_decision. solve_decision.
Defined.

(** An encoder of two documents. *)
Definition two_documents (c1 c2 : SignerConfig) : YamlApi := {|
  yaml_Marshal c := if c == c1 then Ok "document: 1" else if c == c2 then Ok "document: 2" else Err (Sentinel "unsupported");
  yaml_Unmarshal y := if y == "document: 1" then Ok c1 else if y == "document: 2" then Ok c2 else Err (Sentinel "invalid");
  json_Lifecycle d s := Ok d;
|}.
Lemma two_documents_laws c1 c2 : @YamlLaws (two_documents c1 c2).
Proof.
  split. simpl. intros c y. repeat case_bool_decide; intros [= <-]; subst; simpl; done.
Qed.

Definition example_pk : string := "AAAAAAAAAAAAAAAAAAAAAAAAAAAAAAAAAAAAAAAAAAA=".
Definition example_sp (expected : string) : SignerParams :=
  mkSignerParams "val-signer" "default" "uid-1" (mkRoot GroupVersion "ChainNode" "val" "default" "uid-1") "chain-1" "signer:v1" 3
    "info" expected "1Gi" None no_resources None "" [] (software_backend "val-priv-key") ∅ ∅.
Definition example_yaml : YamlApi :=
  two_documents (BuildConfig (example_sp example_pk)) (with_bootstrap (BuildConfig (example_sp example_pk)) false).
Definition owned_meta (name : string) : ObjectMeta :=
  mkMeta name "default" "uid-2" ∅ None [mkOwnerReference GroupVersion "ChainNode" "val" "uid-1" (Some true)] [] None 0 "".
Definition example_map : KubeObject :=
  mkObject "ConfigMap" (labelled_meta "default" "val-signer" ∅) "" (ConfigData
    (<["val-signer-2.yaml" := "document: 2"]> (<["val-signer-1.yaml" := "document: 2"]>
      (<["val-signer-0.yaml" := "document: 1"]> {["config.yaml" := "document: 1"]})))).
Definition live_map : KubeObject := mkObject "ConfigMap" (owned_meta "val-signer") "" (ob_Content example_map).
Definition live_signer (sts : StatefulSet) : fake :=
  mkFake [] ∅ ["default"] [] [] [with_sts_meta sts (owned_meta "val-signer")] [] [] [] [] [live_map] [] [].

(** The third of three replicas does not bootstrap. *)
Lemma one_replica_witness :
  ∃ sts f, @signer_StatefulSet example_yaml reference_quantity (example_sp example_pk) "document: 1" = Ok sts ∧
    replica_config sts example_map 2 = Some f ∧
    @yaml_Unmarshal example_yaml f = Ok (with_bootstrap (BuildConfig (example_sp example_pk)) false).
Proof.
  destruct (@signer_StatefulSet example_yaml reference_quantity (example_sp example_pk) "document: 1") as [sts|] eqn:Es;
    [|vm_compute in Es; discriminate Es].
  exists sts.
  destruct (@one_replica_bootstraps example_yaml (two_documents_laws _ _) reference_quantity reference_meta
    (example_sp example_pk) "document: 1" sts example_map) with (i := 2%Z) as (f & Hf & Hp & _).
  - vm_compute. reflexivity.
  - exact Es.
  - vm_compute. reflexivity.
  - vm_compute. done.
  - exists f. split; [reflexivity|]. split; [exact Hf|exact Hp].
Defined.

(** A signer found running without a recorded status gives its key back. *)
Lemma recovery_witness :
  ∃ sts, @signer_StatefulSet example_yaml reference_quantity (example_sp example_pk) "document: 1" = Ok sts ∧
    run_with (fake_answers (live_signer sts))
      (@RecoveredSigningPublicKey example_yaml reference_meta (mkMeta "val" "default" "uid-1" ∅ None [] [] None 0 "")
         (example_sp "")) = Ok (example_pk, true).
Proof.
  destruct (@signer_StatefulSet example_yaml reference_quantity (example_sp example_pk) "document: 1") as [sts|] eqn:Es;
    [|vm_compute in Es; discriminate Es].
  exists sts. split; [reflexivity|].
  refine (@recovery_roundtrip example_yaml (two_documents_laws _ _) reference_quantity reference_meta (fake_answers (live_signer sts))
    _ (example_sp example_pk) (example_sp "") "document: 1" sts example_map (with_sts_meta sts (owned_meta "val-signer")) live_map
    _ Es _ _ _ _ _ _ _ _ _ _ _ _); try (vm_compute; reflexivity); try reflexivity.
  left. by eexists.
Defined.
