(* ===== verification/SignerJobs.v ===== *)
(** * The one-shot key pods of a signer ([jobs.go], [secrets.go] of [internal/cosmosigner])

    The pods that import a key into a backend and read the public key of a
    backend back, and the checks of the secrets a signer mounts. *)

From S2P Require Import Prelude GoLib IO ThirdParty ApiTypes KubeApi KubePods PrivKey DerivedNames CosmosignerSpec SignerResolve SigningNames SigningPaths.
From S2P Require Import Migration MigrationControllers ResourceCleanup Deploy Teardown Reservation SignerRender.

Definition jobActiveDeadlineSeconds : Z := 300.
Definition gcpImportActiveDeadlineSeconds : Z := 900.
Definition importSourceVolume : string := "import-source".
Definition importSourceDir : string := "/import".
Definition importSourceFile : string := importSourceDir +:+ "/priv_validator_key.json".
Definition importTargetAnnotation : string := "cosmopilot.voluzi.com/cosmosigner-import-target".
Definition PrivKeyFile : string := "priv_validator_key.json".

(** [JobRunner]: the owner and the parameters of the signer. *)
Record JobRunner := mkJobRunner { jr_Owner : ObjectMeta; jr_Params : SignerParams }.
Definition jr_Backend (j : JobRunner) : Backend := sp_Backend (jr_Params j).

(** ** Rendering *)

Definition env (name value : string) : EnvVar := mkEnvVar name (EnvValue value).

Definition vault_env (v : VaultBackend) : list EnvVar :=
  [env "COSMOSIGNER_BACKEND" backendVault;
   env "COSMOSIGNER_VAULT_ADDR" (vb_Address v);
   env "COSMOSIGNER_VAULT_TOKEN_FILE" vaultTokenFile;
   env "COSMOSIGNER_VAULT_KEY" (vb_KeyName v);
   env "COSMOSIGNER_VAULT_KEY_VERSION" (FormatInt (vb_KeyVersion v))] ++
  (if vb_Mount v != "" then [env "COSMOSIGNER_VAULT_MOUNT" (vb_Mount v)] else []) ++
  (if vb_Namespace v != "" then [env "COSMOSIGNER_VAULT_NAMESPACE" (vb_Namespace v)] else []) ++
  (if is_some (vb_CertificateSecret v) then [env "COSMOSIGNER_VAULT_CA_CERT" vaultCaFile] else []) ++
  (if vb_SkipCertificateVerify v then [env "VAULT_SKIP_VERIFY" "true"] else []).

Definition backendEnv (b : Backend) : list EnvVar :=
  match bk_Software b, bk_Vault b, bk_GCP b with
  | Some _, _, _ => [env "COSMOSIGNER_BACKEND" backendSoftware; env "COSMOSIGNER_KEY_FILE" softwareKeyFile]
  | None, Some v, _ => vault_env v
  | None, None, Some g =>
      env "COSMOSIGNER_BACKEND" backendGcpKms ::
      (if gb_KeyVersion g != "" then [env "COSMOSIGNER_GCP_KEY_VERSION" (gb_KeyVersion g)] else []) ++
      (if is_some (gb_CredentialsSecret g) then [env "COSMOSIGNER_GCP_CREDENTIALS_FILE" gcpCredsFile] else [])
  | None, None, None => []
  end.

Definition backendArgs (b : Backend) : list string :=
  match bk_Vault b with
  | Some v => ["--vault-key-version"; FormatInt (vb_KeyVersion v)]
  | None => []
  end.

(** The destination of a managed Cloud KMS import, when the backend has one. *)
Definition backend_import (b : Backend) : option GcpImport := bk_GCP b ≫= gb_Import.

Definition importArgs (b : Backend) : list string :=
  ["import"; "--from"; importSourceFile] ++
  match backend_import b with
  | None => []
  | Some i => ["--gcp-project"; im_Project i; "--gcp-location"; im_Location i; "--gcp-keyring"; im_KeyRing i;
               "--gcp-key"; im_Key i; "--gcp-protection"; im_ProtectionLevel i; "--gcp-import-job"; im_ImportJob i]
  end.

Definition importSourceMount (sourceSecret : string) : list Volume * list VolumeMount :=
  ([secret_volume importSourceVolume sourceSecret [key_item]], [read_only_mount importSourceVolume importSourceDir]).

(** Its volumes dereference the token of a Vault backend. *)
Definition buildPod (j : JobRunner) (nameSuffix : string) (args : list string) (extraVolumes : list Volume)
    (extraMounts : list VolumeMount) (deadline : Z) : result Pod :=
  let p := jr_Params j in
  vols ← volumes (sp_Backend p);
  Ok (mkPod (labelled_meta (sp_Namespace p) (sp_Name p +:+ "-" +:+ nameSuffix) (sp_Labels p)) (mkPodStatus "" [] [] [])
        (mkPodSpec "Never" (Some deadline) (Some RestrictedPodSecurityContext) (sp_ServiceAccountName p) (sp_ImagePullSecrets p) []
           [mkContainer containerName (sp_Image p) "" (Some RestrictedSecurityContext) [] (args ++ backendArgs (sp_Backend p))
              (backendEnv (sp_Backend p)) [] (volumeMounts (sp_Backend p) ++ extraMounts) no_resources None None]
           (vols ++ extraVolumes))).

Definition importDeadline (j : JobRunner) : Z :=
  if is_some (backend_import (jr_Backend j)) then gcpImportActiveDeadlineSeconds else jobActiveDeadlineSeconds.

Definition with_pod_meta (p : Pod) (m : ObjectMeta) : Pod := mkPod m (pod_Status p) (pod_Spec p).
(** [ObjectMeta.Annotations = map[string]string{k: v}] *)
Definition with_annotations (m : ObjectMeta) (a : gmap string string) : ObjectMeta :=
  mkMeta (meta_Name m) (meta_Namespace m) (meta_UID m) (meta_Labels m) (Some a) (meta_OwnerReferences m) (meta_Finalizers m)
    (meta_DeletionTimestamp m) (meta_CreationTimestamp m) (meta_ResourceVersion m).

Definition buildImportPod (j : JobRunner) (sourceSecret : string) : result Pod :=
  let (vols, mounts) := importSourceMount sourceSecret in
  pod ← buildPod j importJobSuffix (importArgs (jr_Backend j)) vols mounts (importDeadline j);
  Ok match backend_import (jr_Backend j) with
     | Some i => with_pod_meta pod (with_annotations (pod_meta pod) {[importTargetAnnotation := import_CryptoKeyName (Some i)]})
     | None => pod
     end.

Definition buildPubkeyPod (j : JobRunner) (keyVersion : string) : result Pod :=
  buildPod j pubkeyJobSuffix ("pubkey" :: if keyVersion != "" then ["--gcp-key-version"; keyVersion] else []) [] []
    jobActiveDeadlineSeconds.

(** ** Reading the output *)

(** What follows the prefix on the first line that starts with it. *)
Definition reported (prefix : string) (out : string) : option string :=
  match find (λ line, has_prefix (TrimSpace line) prefix) (split_char "010"%char out) with
  | Some line => Some (TrimSpace (TrimPrefix (TrimSpace line) prefix))
  | None => None
  end.

Definition imported_prefix : string := "imported key version:".
Definition ParseImportedKeyVersion (out cryptoKeyName : string) : result string :=
  match reported imported_prefix out with
  | None => Err (Errorf "cosmosigner import output did not contain %q" [AStr imported_prefix])
  | Some version =>
      match CutPrefix version (cryptoKeyName +:+ "/cryptoKeyVersions/") with
      | None => Err (Errorf "cosmosigner imported key version %q is not a version of %q; refusing to retarget the validator" [AStr version; AStr cryptoKeyName])
      | Some suffix =>
          if cryptoKeyName == "" then
            Err (Errorf "cosmosigner imported key version %q is not a version of %q; refusing to retarget the validator" [AStr version; AStr cryptoKeyName])
          else if (suffix == "") || negb (string_forallb is_digit suffix) then
            Err (Errorf "cosmosigner imported key version %q does not end in a numeric version" [AStr version])
          else Ok version
      end
  end.

Definition pubkey_prefix : string := "pubkey (base64):".
Definition ParsePublicKeyOutput (out : string) : result string :=
  match reported pubkey_prefix out with
  | None => Err (Errorf "cosmosigner pubkey output did not contain %q" [AStr pubkey_prefix])
  | Some encoded =>
      match b64_decode encoded with
      | None => Err (Wrapf (Sentinel "illegal base64 data") "decode cosmosigner public key: %w" [])
      | Some raw =>
          if negb (String.length raw =? 32)%nat then
            Err (Errorf "cosmosigner public key is %d bytes, want 32" [AInt (Z.of_nat (String.length raw))])
          else Ok (b64_encode raw)
      end
  end.

Definition recoverableImportLogs (j : JobRunner) (logs : string) : bool :=
  match backend_import (jr_Backend j) with
  | None => false
  | Some i => is_ok (ParseImportedKeyVersion logs (import_CryptoKeyName (Some i)))
  end.

(** ** Running a pod *)

Section jobs.
Context `{MetaApi} `{ApplyApi}.

Definition job_owned (j : JobRunner) (p : Pod) : bool := IsControlledBy (pod_meta p) (jr_Owner j).
Definition same_target (existing pod : Pod) : bool :=
  annotation (pod_meta existing) importTargetAnnotation == annotation (pod_meta pod) importTargetAnnotation.

(** Deferred once this controller created the pod. *)
Definition deferred_delete (retainSucceeded : bool) (p : Pod) (r : result string) : kube (result string) :=
  if retainSucceeded then Ret r else helper_Delete p ≫= λ _, Ret r.

(** Wait for the previous pod to be gone, create the new one, follow it to its end. *)
Definition create_and_follow (j : JobRunner) (pod : Pod) (nameSuffix : string) (retainSucceeded : bool) : kube (result string) :=
  gone ← WaitForPodDeleted pod;
  match gone with
  | Err e => return_error (Wrapf e "waiting for previous %s pod to terminate: %w" [AStr nameSuffix])
  | Ok _ =>
      ph ←? helper_Create pod;
      got ← call (GetPod Direct (sp_Namespace (jr_Params j)) (pod_Name pod));
      match got with
      | Err e => deferred_delete retainSucceeded ph (Err e)
      | Ok created =>
          if ps_Phase (pod_Status created) != "Succeeded" then
            waited ← WaitForPodSucceeded ph;
            match waited with
            | (ph, Err e) => deferred_delete retainSucceeded ph (Err e)
            | (ph, Ok _) => r ← GetLogs ph containerName; deferred_delete retainSucceeded ph r
            end
          else r ← GetLogs ph containerName; deferred_delete retainSucceeded ph r
      end
  end.

(** The delete of the previous pod is bound to the UID whose owner was checked. *)
Definition replace_existing (j : JobRunner) (existing pod : Pod) (nameSuffix : string) (retainSucceeded : bool) :
    kube (result string) :=
  got ← call (DeletePod (sp_Namespace (jr_Params j)) (pod_Name pod) (meta_UID (pod_meta existing)));
  match got with
  | Ok _ => create_and_follow j pod nameSuffix retainSucceeded
  | Err e =>
      if IsNotFound e then create_and_follow j pod nameSuffix retainSucceeded
      else if IsConflict e then
        return_error (Errorf "pod %q changed while deleting the previous run; refusing to wait on an unverified replacement" [AStr (pod_Name pod)])
      else return_error e
  end.

(** What a pod of an earlier attempt is worth: its logs, an error, or nothing. *)
Definition resume_existing (j : JobRunner) (existing : Pod) : kube (option (result string)) :=
  let phase := ps_Phase (pod_Status existing) in
  if phase == "Succeeded" then r ← GetLogs existing containerName; Ret (Some r)
  else if phase == "Failed" then
    r ← GetLogs existing containerName;
    match r with
    | Ok logs => Ret (if recoverableImportLogs j logs then Some (Ok logs) else None)
    | Err _ => Ret None
    end
  else
    waited ← WaitForPodSucceeded existing;
    match waited with
    | (existing, Err e) =>
        r ← GetLogs existing containerName;
        match r with
        | Ok logs => Ret (Some (if recoverableImportLogs j logs then Ok logs else Err e))
        | Err _ => Ret (Some (Err e))
        end
    | (existing, Ok _) => r ← GetLogs existing containerName; Ret (Some r)
    end.

Definition runJob (j : JobRunner) (pod : Pod) (nameSuffix : string) (retainSucceeded : bool) : kube (result string) :=
  match SetControllerReference (jr_Owner j) (pod_meta pod) with
  | Err e => return_error e
  | Ok m =>
      let pod := with_pod_meta pod m in
      got ← call (GetPod Direct (sp_Namespace (jr_Params j)) (pod_Name pod));
      match got with
      | Err e => if negb (IsNotFound e) then return_error e else create_and_follow j pod nameSuffix retainSucceeded
      | Ok existing =>
          if negb (job_owned j existing) then
            return_error (Errorf "pod %q already exists and is managed by another owner; rename the ChainNode/ChainNodeSet to avoid the name collision" [AStr (pod_Name pod)])
          else
            resumed ← (if retainSucceeded && same_target existing pod then resume_existing j existing else Ret None);
            match resumed with
            | Some r => Ret r
            | None => replace_existing j existing pod nameSuffix retainSucceeded
            end
      end
  end.

(** ** The jobs *)

Definition ImportKey (j : JobRunner) (sourceSecret : string) : kube (result string) :=
  match buildImportPod j sourceSecret with
  | Err e => return_error e
  | Ok pod =>
      out ←? runJob j pod importJobSuffix (is_some (backend_import (jr_Backend j)));
      Ret match backend_import (jr_Backend j) with
          | None => Ok ""
          | Some i => ParseImportedKeyVersion out (import_CryptoKeyName (Some i))
          end
  end.

Definition importPodName (j : JobRunner) : string := sp_Name (jr_Params j) +:+ "-" +:+ importJobSuffix.

Definition CleanupImportPod (j : JobRunner) : kube (result ()) :=
  let ns := sp_Namespace (jr_Params j) in
  got ← call (GetPod Direct ns (importPodName j));
  match got with
  | Err e => if IsNotFound e then return_result () else return_error e
  | Ok existing =>
      if negb (job_owned j existing) then return_result () else
      r ← call (DeletePod ns (pod_Name existing) (meta_UID (pod_meta existing)));
      match r with
      | Err e => if IsNotFound e || IsConflict e then return_result () else return_error e
      | Ok _ => return_result ()
      end
  end.

Definition publicKey (j : JobRunner) (keyVersion : string) : kube (result string) :=
  match buildPubkeyPod j keyVersion with
  | Err e => return_error e
  | Ok pod => out ←? runJob j pod pubkeyJobSuffix false; Ret (ParsePublicKeyOutput out)
  end.
Definition PublicKey (j : JobRunner) : kube (result string) := publicKey j "".
Definition PublicKeyAtVersion (j : JobRunner) (keyVersion : string) : kube (result string) :=
  if keyVersion == "" then return_error (Errorf "cosmosigner pubkey requires a key version" [])
  else publicKey j keyVersion.

Definition PublicKeyFromSecret `{PrivvalApi} (via : source) (namespace name : string) : kube (result string) :=
  secret ←? call (GetSecret via namespace name);
  match LoadPrivKey (default "" (secret_Data secret !! PrivKeyFile)) with
  | Err e => return_error (Wrapf e "read cosmosigner public key from Secret %q: %w" [AStr name])
  | Ok key =>
      match b64_decode (tv_Value (pk_PubKey key)) with
      | Some raw =>
          if (String.length raw =? 32)%nat then return_result (b64_encode raw)
          else return_error (Errorf "read cosmosigner public key from Secret %q: invalid Ed25519 public key" [AStr name])
      | None => return_error (Errorf "read cosmosigner public key from Secret %q: invalid Ed25519 public key" [AStr name])
      end
  end.

(** ** What the signer mounts ([secrets.go]) *)

Definition RequireServiceAccount (namespace name : string) : kube (result ()) :=
  if name == "" then return_result () else
  got ← call (GetObject Cached "ServiceAccount" namespace name);
  match got with
  | Ok _ => return_result ()
  | Err e => if IsNotFound e then return_error (Errorf "cosmosigner serviceAccountName %q not found: create it before deploying the signer" [AStr name])
             else return_error e
  end.

(** [len(secret.Data[k]) == 0] *)
Definition empty_key (s : Secret) (k : string) : bool := default "" (secret_Data s !! k) == "".

Definition raftTLSKeys : list string := ["tls.crt"; "tls.key"; "ca.crt"].
Definition RequireRaftTLSSecret (namespace : string) (name : option string) : kube (result ()) :=
  match name with
  | None => return_result ()
  | Some name =>
      got ← call (GetSecret Cached namespace name);
      match got with
      | Err e => if IsNotFound e then return_error (Errorf "cosmosigner raft TLS secret %q not found: provide it before deploying the signer" [AStr name])
                 else return_error e
      | Ok secret =>
          Ret (for_each (λ k, guard_err (empty_key secret k)
            (Errorf "cosmosigner raft TLS secret %q is missing key %q: it must contain tls.crt, tls.key and ca.crt" [AStr name; AStr k])) raftTLSKeys)
      end
  end.

Definition RequireSecretSelector (namespace purpose : string) (sel : option SecretKeySelector) : kube (result ()) :=
  match sel with
  | None => return_result ()
  | Some sel =>
      got ← call (GetSecret Cached namespace (sel_Name sel));
      match got with
      | Err e => if IsNotFound e then return_error (Errorf "cosmosigner %s secret %q not found: provide it before deploying the signer" [AStr purpose; AStr (sel_Name sel)])
                 else return_error e
      | Ok secret =>
          Ret (guard_err (empty_key secret (sel_Key sel))
            (Errorf "cosmosigner %s secret %q is missing key %q: provide it before deploying the signer" [AStr purpose; AStr (sel_Name sel); AStr (sel_Key sel)]))
      end
  end.
End jobs.

(** ** What the jobs promise *)

Section promises.
Context `{MetaApi} `{ApplyLaws}.
Variable (j : JobRunner).
Let ns := sp_Namespace (jr_Params j).
Definition job_pod_read (name : string) (q : Pod) (h : list kevent) : Prop := Ev (GetPod Direct ns name) (Ok q) ∈ h.

(** The logs of a pod, trimmed, were read. *)
Definition logs_read (p : Pod) (logs : string) (h : list kevent) : Prop :=
  ∃ l, logs = TrimSpace l ∧ Ev (GetPodLogs (meta_Namespace (pod_meta p)) (pod_Name p) containerName) (Ok l) ∈ h.
(** The API server refused to give the logs of the pod. *)
Definition logs_unreadable (p : Pod) (h : list kevent) : Prop :=
  ∃ e, Ev (GetPodLogs (meta_Namespace (pod_meta p)) (pod_Name p) containerName) (Err e) ∈ h.
(** The logs of the pod were read, and do not name a version of the destination. *)
Definition logs_name_nothing (p : Pod) (h : list kevent) : Prop :=
  ∃ logs, logs_read p logs h ∧
    match backend_import (jr_Backend j) with
    | None => True
    | Some i => ∀ version, ParseImportedKeyVersion logs (import_CryptoKeyName (Some i)) ≠ Ok version
    end.
(** What is known of a failed pod that is replaced. *)
Definition no_evidence (p : Pod) (h : list kevent) : Prop := logs_unreadable p h ∨ logs_name_nothing p h.

Lemma unrecoverable_logs p logs h : logs_read p logs h → recoverableImportLogs j logs = false → logs_name_nothing p h.
Proof.
  unfold recoverableImportLogs. intros Hl Hr. exists logs. split; [done|]. destruct (backend_import (jr_Backend j)); [|done].
  intros v E. by rewrite E in Hr.
Qed.

(** When the pod is made anew: there was none, or an own one that was not made for the same import,
    or that failed without logs to go by. *)
Definition replaceable (retain : bool) (pod existing : Pod) (h : list kevent) : Prop :=
  job_pod_read (pod_Name pod) existing h ∧ job_owned j existing = true ∧
  (retain = true → same_target existing pod = true →
   ps_Phase (pod_Status existing) = "Failed" ∧ no_evidence existing h).
Definition nothing_to_lose (retain : bool) (pod : Pod) (h : list kevent) : Prop :=
  Ev (GetPod Direct ns (pod_Name pod)) (Err (ApiError ReasonNotFound)) ∈ h ∨ ∃ existing, replaceable retain pod existing h.

Definition created_pod_named (pod ph : Pod) (h : list kevent) : Prop :=
  Ev (CreatePod pod) (Ok ph) ∈ h.
(** The pod the helper holds after the creation: the created one or a watched one. *)
Definition followed (pod q : Pod) (h : list kevent) : Prop :=
  ∃ ph, created_pod_named pod ph h ∧
    (q = ph ∨ ∃ w, watched (meta_Namespace (pod_meta ph)) (pod_Name ph) w h ∧ shows w q).

Definition runJob_ok (retain : bool) (pod : Pod) (h : list kevent) (r : request) : Prop :=
  match r with
  | GetPod _ _ _ | GetPodLogs _ _ _ | WatchPod _ _ => True
  | DeletePod ns' name uid =>
      ns' = ns ∧ name = pod_Name pod ∧ ∃ existing, replaceable retain pod existing h ∧ uid = meta_UID (pod_meta existing)
  | CreatePod p => p = pod ∧ nothing_to_lose retain pod h ∧ absence_seen (meta_Namespace (pod_meta pod)) (pod_Name pod) h
  | DeleteObject kind ns' name =>
      kind = "Pod" ∧ retain = false ∧
      ∃ q, followed pod q h ∧ ns' = meta_Namespace (pod_meta q) ∧ name = pod_Name q
  | _ => False
  end.

(** The text a run returns was read from a pod seen to have succeeded, or names a version of
    the destination. *)
Definition output_ok (pod : Pod) (out : string) (h : list kevent) : Prop :=
  ∃ p, logs_read p out h ∧
    (ps_Phase (pod_Status p) = "Succeeded" ∨ recoverableImportLogs j out = true ∨
     ∃ q, job_pod_read (pod_Name pod) q h ∧ ps_Phase (pod_Status q) = "Succeeded").

#[local] Instance stable_no_evidence p : Stable (no_evidence p).
Proof. unfold no_evidence, logs_unreadable, logs_name_nothing. apply _. Qed.
#[local] Instance stable_replaceable b p q : Stable (replaceable b p q).
Proof.
  intros h h' Hs (Hq & Ho & Hr). split; [by eapply stable_seen|]. split; [done|]. intros H1' H2'.
  destruct (Hr H1' H2'). split; [done|]. by eapply stable_no_evidence.
Qed.
#[local] Instance stable_nothing b p : Stable (nothing_to_lose b p).
Proof. unfold nothing_to_lose. apply _. Qed.
#[local] Instance stable_followed pod q : Stable (followed pod q) := _.

(** A stage that only reads pods. *)
Lemma job_reads {A} retain pod h (m : kube A) Q :
  spec (λ _ r, pod_read r) h m Q → spec (runJob_ok retain pod) h m Q.
Proof. intros Hm. eapply spec_mono; [exact Hm| |by intros]. by intros h' [] _ Hr. Qed.

#[local] Opaque GetLogs WaitForPodSucceeded.
Lemma deferred_delete_spec retain pod q h r :
  followed pod q h → (∀ out, r = Ok out → output_ok pod out h) →
  spec (runJob_ok retain pod) h (deferred_delete retain q r) (λ h' x, ∀ out, x = Ok out → output_ok pod out h').
Proof.
  intros Hq Hr. unfold deferred_delete. destruct retain; [done|]. rewrite spec_mbind. split.
  - split; [done|]. split; [done|]. by exists q.
  - intros x out E. assert (Stable (output_ok pod out)) as S by apply _. eapply S; [|by apply Hr]. by exists [Ev _ x].
Qed.

Lemma logs_then_delete retain pod q h :
  followed pod q h →
  (ps_Phase (pod_Status q) = "Succeeded" ∨
   ∃ q', job_pod_read (pod_Name pod) q' h ∧ ps_Phase (pod_Status q') = "Succeeded") →
  spec (runJob_ok retain pod) h (r ← GetLogs q containerName; deferred_delete retain q r)
    (λ h' x, ∀ out, x = Ok out → output_ok pod out h').
Proof.
  intros Hq Hs. rewrite spec_mbind. eapply spec_conseq; [apply spec_suffix, job_reads, GetLogs_spec|].
  intros h' r _ [Hsuf Hr]. apply deferred_delete_spec; [by eapply stable_followed|].
  intros out ->. exists q. split; [by apply Hr|]. destruct Hs as [?|(q' & Hq' & ?)]; [by left|].
  right. right. exists q'. split; [by eapply stable_seen|done].
Qed.

Lemma create_and_follow_spec retain pod suffix h :
  nothing_to_lose retain pod h →
  spec (runJob_ok retain pod) h (create_and_follow j pod suffix retain) (λ h' x, ∀ out, x = Ok out → output_ok pod out h').
Proof.
  intros Hn. unfold create_and_follow. rewrite spec_mbind.
  eapply spec_conseq; [apply spec_suffix, job_reads, WaitForPodDeleted_spec|].
  intros h1 [[]|e] _ [Hs1 Hgone]; [|by intros]. rewrite spec_try.
  split; [split; [done|]; split; [by eapply stable_nothing|by apply Hgone]|].
  intros [ph|e]; [|by intros]. cbn. split; [done|]. intros got.
  set (h2 := _ :: _ :: h1). assert (followed pod ph h2) as Hph by (exists ph; split; [right; left|by left]).
  destruct got as [created|e]; [|by apply deferred_delete_spec].
  case_bool_decide as Ep; cbn [negb].
  { apply logs_then_delete; [done|]. right. exists created. split; [left|done]. }
  rewrite spec_mbind. eapply spec_conseq; [apply spec_suffix, job_reads, WaitForPodPhase_spec|].
  intros h3 [q r] _ (Hs3 & Hq & Hr). cbn [fst snd] in *.
  assert (followed pod q h3) as Hq3.
  { destruct Hq as [->|(w & Hw & Hsh)]; [by eapply stable_followed|]. destruct Hph as (ph' & Hc & _).
    exists ph. split; [eapply stable_seen; [exact Hs3|]; right; left|]. right. by exists w. }
  destruct r as [[]|e]; [|by apply deferred_delete_spec].
  apply logs_then_delete; [done|]. left. by apply Hr.
Qed.

(** Resuming ends the run unless nothing is lost by replacing the pod. *)
Lemma resume_existing_spec retain pod existing h :
  job_pod_read (pod_Name pod) existing h → job_owned j existing = true →
  spec (runJob_ok retain pod) h (resume_existing j existing) (λ h' x,
    match x with
    | Some r => ∀ out, r = Ok out → output_ok pod out h'
    | None => replaceable retain pod existing h'
    end).
Proof.
  intros Hr Ho. unfold resume_existing. case_bool_decide as Es.
  { rewrite spec_mbind. eapply spec_conseq; [apply spec_suffix, job_reads, GetLogs_spec|].
    intros h' r _ [Hs Hl] out ->. exists existing. split; [by apply Hl|]. by left. }
  case_bool_decide as Ef; rewrite spec_mbind.
  - eapply spec_conseq; [apply spec_suffix, job_reads, GetLogs_spec|]. intros h' [logs|e] _ [Hs Hl].
    + destruct (recoverableImportLogs j logs) eqn:Er; [intros out [= <-]; exists existing; split; [done|]; by right; left|].
      split; [by eapply stable_seen|]. split; [done|]. intros _ _. split; [done|].
      right. by eapply unrecoverable_logs, Er.
    + split; [by eapply stable_seen|]. split; [done|]. intros _ _. split; [done|]. left. by exists e.
  - eapply spec_conseq; [apply spec_suffix, job_reads, WaitForPodPhase_spec|].
    intros h1 [q [[]|e]] _ (Hs1 & _ & Hok); cbn [fst snd] in *; rewrite spec_mbind;
      (eapply spec_conseq; [apply spec_suffix, job_reads, GetLogs_spec|]); intros h2 r _ [Hs2 Hl].
    + intros out ->. exists q. split; [by apply Hl|]. left. by apply Hok.
    + destruct r as [logs|e2]; [|by intros]. intros out. destruct (recoverableImportLogs j logs) eqn:Er; [|done].
      intros [= <-]. exists q. split; [by apply Hl|]. by right; left.
Qed.

Lemma replace_existing_spec retain pod existing suffix h :
  replaceable retain pod existing h →
  spec (runJob_ok retain pod) h (replace_existing j existing pod suffix retain)
    (λ h' x, ∀ out, x = Ok out → output_ok pod out h').
Proof.
  intros He. assert (nothing_to_lose retain pod h) as Hn by (right; by exists existing).
  unfold replace_existing. rewrite spec_mbind. split.
  { split; [done|]. split; [done|]. by exists existing. }
  intros [[]|e]; cbn [spec call].
  - apply create_and_follow_spec. eapply stable_nothing; [by eexists [_]|exact Hn].
  - destruct (IsNotFound e); [|by destruct (IsConflict e); intros].
    apply create_and_follow_spec. eapply stable_nothing; [by eexists [_]|exact Hn].
Qed.

Lemma runJob_promise pod0 suffix retain m h :
  SetControllerReference (jr_Owner j) (pod_meta pod0) = Ok m →
  let pod := with_pod_meta pod0 m in
  spec (runJob_ok retain pod) h (runJob j pod0 suffix retain) (λ h' x, ∀ out, x = Ok out → output_ok pod out h').
Proof.
  intros Em pod. unfold runJob. rewrite Em. rewrite spec_mbind. split; [done|]. intros [existing|e]; cbn [spec call].
  2:{ destruct (IsNotFound e) eqn:En; cbn [negb]; [|by intros]. apply bool_decide_eq_true in En as ->.
      apply create_and_follow_spec. left. left. }
  fold pod. destruct (job_owned j existing) eqn:Ho; cbn [negb]; [|by intros]. rewrite spec_mbind.
  assert (job_pod_read (pod_Name pod) existing (Ev (GetPod Direct ns (pod_Name pod)) (Ok existing) :: h)) as Hr by left.
  destruct (retain && same_target existing pod) eqn:Eb.
  - eapply spec_conseq; [apply spec_suffix; by apply resume_existing_spec|].
    intros h' [r|] _ [Hs Hx]; [done|]. by apply replace_existing_spec.
  - cbn [spec]. apply replace_existing_spec. split; [done|]. split; [done|].
    intros -> Ht. by rewrite Ht in Eb.
Qed.
End promises.

(** *** The parsers *)

(** A version of a crypto key. *)
Definition version_of (cryptoKeyName version : string) : Prop :=
  ∃ digits, version = cryptoKeyName +:+ "/cryptoKeyVersions/" +:+ digits ∧ digits ≠ "" ∧
            string_forallb is_digit digits = true.

Lemma ParseImportedKeyVersion_Ok out cryptoKeyName version :
  ParseImportedKeyVersion out cryptoKeyName = Ok version ↔
  reported imported_prefix out = Some version ∧ cryptoKeyName ≠ "" ∧ version_of cryptoKeyName version.
Proof.
  unfold ParseImportedKeyVersion, version_of. destruct (reported imported_prefix out) as [v|]; [|naive_solver].
  destruct (CutPrefix v _) as [suffix|] eqn:Ec.
  2:{ split; [done|]. intros ([= <-] & _ & digits & -> & _). rewrite <- string_app_assoc in Ec.
      assert (CutPrefix ((cryptoKeyName +:+ "/cryptoKeyVersions/") +:+ digits) (cryptoKeyName +:+ "/cryptoKeyVersions/") = Some digits)
        as E by (by apply CutPrefix_spec). congruence. }
  apply CutPrefix_spec in Ec. rewrite string_app_assoc in Ec. case_bool_decide as E1; [naive_solver|].
  case_bool_decide as E2; simpl.
  { split; [done|]. intros ([= <-] & _ & d & Hd & Hne & _). rewrite Hd in Ec.
    apply string_app_inj_l, (string_app_inj_l "/cryptoKeyVersions/") in Ec. congruence. }
  destruct (string_forallb is_digit suffix) eqn:E3; simpl.
  - split; [intros [= <-]; split; [done|]; split; [done|]; by exists suffix|by intros ([= ->] & _)].
  - split; [done|]. intros ([= <-] & _ & d & Hd & _ & Hf). rewrite Hd in Ec.
    apply string_app_inj_l, (string_app_inj_l "/cryptoKeyVersions/") in Ec. congruence.
Qed.

(** The destination accepts a version the import reported, so recording it resolves the backend. *)
Lemma imported_version_owned i out version :
  ParseImportedKeyVersion out (CryptoKeyName (Some i)) = Ok version → OwnsKeyVersion (Some i) version = true.
Proof.
  intros (_ & Hn & digits & -> & Hd & Hf)%ParseImportedKeyVersion_Ok. unfold OwnsKeyVersion.
  rewrite bool_decide_eq_false_2 by done.
  replace (CutPrefix _ _) with (Some digits) by (symmetry; apply CutPrefix_spec; by rewrite string_app_assoc).
  rewrite Hf, bool_decide_eq_false_2 by done. done.
Qed.

Lemma canonical_key raw : (String.length raw =? 32)%nat = true → validateCanonicalPublicKey (b64_encode raw) = Ok ().
Proof. intros Hl. unfold validateCanonicalPublicKey. rewrite b64_decode_encode, Hl. by rewrite bool_decide_eq_true_2. Qed.

Lemma ParsePublicKeyOutput_canonical out k : ParsePublicKeyOutput out = Ok k → validateCanonicalPublicKey k = Ok ().
Proof.
  unfold ParsePublicKeyOutput. destruct (reported _ out) as [e|]; [|done]. destruct (b64_decode e) as [raw|]; [|done].
  destruct (String.length raw =? 32)%nat eqn:El; simpl; [|done]. intros [= <-]. by apply canonical_key.
Qed.

(** ** The properties *)

Section properties.
Context `{MetaApi} `{ApplyLaws}.

(** The requests of an import, for the pod it renders and owns. *)
Definition import_ok (j : JobRunner) (sourceSecret : string) (h : list kevent) (r : request) : Prop :=
  ∃ pod0 m, buildImportPod j sourceSecret = Ok pod0 ∧ SetControllerReference (jr_Owner j) (pod_meta pod0) = Ok m ∧
    runJob_ok j (is_some (backend_import (jr_Backend j))) (with_pod_meta pod0 m) h r.

(** C35: an import pod is only created after a pod of its name was seen absent, and an own previous
    pod is only deleted, bound to the UID that was seen to be owned, in these cases: the import has no
    Cloud KMS destination; or the pod was made for another destination; or it failed, and reading its
    logs failed too, or the logs that were read name no version of the destination.  So a pod for the
    same destination that runs or succeeded is never deleted; a failed one whose logs cannot be read
    is.  A version that is returned is one of the destination, read from the logs of a pod. *)
Theorem ImportKey_spec j sourceSecret h :
  spec (import_ok j sourceSecret) h (ImportKey j sourceSecret) (λ h' r, ∀ version, r = Ok version →
    match backend_import (jr_Backend j) with
    | None => version = ""
    | Some i => version_of (import_CryptoKeyName (Some i)) version ∧
        ∃ p out, logs_read p out h' ∧ reported imported_prefix out = Some version
    end).
Proof.
  unfold ImportKey. destruct (buildImportPod j sourceSecret) as [pod0|e] eqn:Eb; [|by intros].
  destruct (SetControllerReference (jr_Owner j) (pod_meta pod0)) as [m|e] eqn:Em.
  2:{ unfold runJob. rewrite Em. by intros. }
  rewrite spec_try. eapply spec_mono; [by apply runJob_promise|by intros h' r _ Hr; exists pod0, m|].
  intros h' [out|e] _ Hout; [|by intros]. cbn [spec]. destruct (Hout out eq_refl) as (p & Hp & _).
  destruct (backend_import (jr_Backend j)) as [i|]; [|by intros v [= <-]].
  intros version (Hr & _ & Hv)%ParseImportedKeyVersion_Ok. split; [done|]. by exists p, out.
Qed.

(** A cleanup deletes the import pod it saw to be owned. *)
Lemma CleanupImportPod_spec j h :
  spec (λ h r, match r with
               | GetPod Direct _ _ => True
               | DeletePod ns name uid => ∃ p, ns = sp_Namespace (jr_Params j) ∧ name = pod_Name p ∧
                   uid = meta_UID (pod_meta p) ∧ job_owned j p = true ∧ job_pod_read j (importPodName j) p h
               | _ => False
               end) h (CleanupImportPod j) (λ _ _, True).
Proof.
  unfold CleanupImportPod. rewrite spec_mbind. split; [done|]. intros [p|e]; cbn [spec call].
  2:{ by destruct (IsNotFound e). }
  destruct (job_owned j p) eqn:Ho; cbn [negb]; [|done]. rewrite spec_mbind. split.
  - exists p. do 4 (split; [done|]). by left.
  - intros [[]|e]; cbn [spec call]; [done|]. by destruct (_ || _).
Qed.

Lemma PublicKeyFromSecret_canonical `{PrivvalApi} via ns name h :
  spec (λ _ r, r = GetSecret via ns name) h (PublicKeyFromSecret via ns name)
    (λ _ r, ∀ k, r = Ok k → validateCanonicalPublicKey k = Ok ()).
Proof.
  unfold PublicKeyFromSecret. rewrite spec_try. split; [done|]. intros [s|e]; [|by intros].
  cbn [call spec io_bind].
  destruct (LoadPrivKey (default "" (secret_Data s !! PrivKeyFile))) as [key|e]; [|intros ? ?; done].
  destruct (b64_decode (tv_Value (pk_PubKey key))) as [raw|]; [|intros ? ?; done].
  destruct (String.length raw =? 32)%nat eqn:El; [|intros ? ?; done]. intros k [= <-]. by apply canonical_key.
Qed.
End properties.
