(* ===== verification/TmKms.v ===== *)
(** * The tmKMS sidecar ([internal/tmkms], [internal/controllers/chainnode/tmkms.go])

    The configuration, identity and state volume of the signer that runs beside a
    validator, its containers, and the pods that create its identity and upload
    a key to Vault.  The TOML encoding is a library's. *)

From S2P Require Import Prelude GoLib IO ThirdParty ApiTypes KubeApi KubePods PrivKey SignerResolve Getters SigningPaths Deploy SignerRender.

(** [PrivKeyFilename] *)
Definition PrivKeyFilename : string := "priv_validator_key.json".
Definition AnnotationVaultKeyUploaded : string := "cosmopilot.voluzi.com/vault-key-uploaded".
Definition DefaultTmKmsImage : string := "ghcr.io/iqlusioninc/tmkms".
Definition tmkms_configFileName : string := "config.toml".
Definition tmkmsAppName : string := "tmkms".
Definition identityKeyName : string := "kms-identity.key".
Definition tmkmsPvcSize : string := "1Gi".
Definition defaultStateFile : string := "/data/priv_validator_state.json".
Definition defaultSecretKey : string := "/data/kms-identity.key".
Definition hashicorpProviderName : string := "hashicorp".
Definition hashicorpMountDir : string := "/vault/".
Definition tokenRenewerCpu : string := "100m".
Definition tokenRenewerMemory : string := "64Mi".
Definition vaultTokenRenewerImage : string := "ghcr.io/voluzi/vault-renewer:1.0.1".

(** ** The configuration *)

Record KeyFormat := mkKmsKeyFormat { kkf_Type : string; kkf_AccountKeyPrefix : string; kkf_ConsensusKeyPrefix : string }.
Record ChainConfig := mkChainConfig { chc_ChainID : string; chc_KeyFormat : KeyFormat; chc_StateFile : string }.
(** [tmkms.ValidatorConfig] *)
Record KmsValidator := mkKmsValidator {
  kvl_ChainID : string;
  kvl_Address : string;
  kvl_ProtocolVersion : string;
  kvl_Reconnect : bool;
  kvl_SecretKey : string;
}.
Record HashicorpKey := mkHashicorpKey { hk_ChainID : string; hk_Key : string; hk_AccessTokenFile : string }.
Record HashicorpAdapter := mkHashicorpAdapter { ha_VaultAddress : string; ha_VaultCaCert : string; ha_VaultSkipVerify : bool }.
(** The one [Provider] there is.  Its token is dereferenced when it is made, so it is set. *)
Record HashicorpProvider := mkHashicorpProvider {
  hp_Keys : list HashicorpKey;
  hp_Adapter : HashicorpAdapter;
  hp_CertificateSecret : option SecretKeySelector;
  hp_TokenSecret : SecretKeySelector;
  hp_AutoRenewToken : bool;
}.
(** [tmkms.Config] *)
Record KmsConfig := mkKmsConfig {
  kc_Image : string;
  kc_Chains : list ChainConfig;
  kc_Validators : list KmsValidator;
  kc_Providers : gmap string (list HashicorpProvider);
  kc_PersistState : bool;
  kc_Resources : ResourceRequirements;
}.

(** [utils.TomlEncode] of a configuration. *)
Class TomlApi := { TomlEncode : KmsConfig → result string }.

Section tmkms.
Context `{TomlApi} `{QuantityApi} `{ApplyApi}.

Definition cpu_and_memory (c m : string) : ResourceRequirements :=
  let list := <["cpu" := MustParse c]> (<["memory" := MustParse m]> ∅) in
  mkResourceRequirements (Some list) (Some list) [].
Definition defaultConfig : KmsConfig :=
  mkKmsConfig DefaultTmKmsImage [] [] ∅ true (cpu_and_memory DefaultTmkmsCpu DefaultTmkmsMemory).

(** *** Options *)

Definition Option_ : Type := KmsConfig → KmsConfig.
Definition WithImage (s : string) : Option_ := λ c,
  mkKmsConfig s (kc_Chains c) (kc_Validators c) (kc_Providers c) (kc_PersistState c) (kc_Resources c).
Definition PersistState (b : bool) : Option_ := λ c,
  mkKmsConfig (kc_Image c) (kc_Chains c) (kc_Validators c) (kc_Providers c) b (kc_Resources c).
Definition WithProvider (p : HashicorpProvider) : Option_ := λ c,
  mkKmsConfig (kc_Image c) (kc_Chains c) (kc_Validators c)
    (<[hashicorpProviderName := default [] (kc_Providers c !! hashicorpProviderName) ++ [p]]> (kc_Providers c))
    (kc_PersistState c) (kc_Resources c).
Definition WithResources (res : ResourceRequirements) : Option_ := λ c,
  mkKmsConfig (kc_Image c) (kc_Chains c) (kc_Validators c) (kc_Providers c) (kc_PersistState c) res.

Definition WithKeyFormat (keyType accountKeyPrefix consensusKeyPrefix : string) (c : ChainConfig) : ChainConfig :=
  mkChainConfig (chc_ChainID c) (mkKmsKeyFormat keyType accountKeyPrefix consensusKeyPrefix) (chc_StateFile c).
Definition WithChain (chainID : string) (opts : list (ChainConfig → ChainConfig)) : Option_ :=
  let chainConfig :=
    foldl (λ c opt, opt c)
      (mkChainConfig chainID (mkKmsKeyFormat DefaultKeyType tmkms_DefaultAccountPrefix DefaultConsensusPrefix) defaultStateFile)
      opts in
  λ c, mkKmsConfig (kc_Image c) (kc_Chains c ++ [chainConfig]) (kc_Validators c) (kc_Providers c) (kc_PersistState c) (kc_Resources c).

Definition WithProtocolVersion (v : string) (c : KmsValidator) : KmsValidator :=
  mkKmsValidator (kvl_ChainID c) (kvl_Address c) v (kvl_Reconnect c) (kvl_SecretKey c).
Definition WithReconnect (v : bool) (c : KmsValidator) : KmsValidator :=
  mkKmsValidator (kvl_ChainID c) (kvl_Address c) (kvl_ProtocolVersion c) v (kvl_SecretKey c).
Definition WithValidator (chainID address : string) (opts : list (KmsValidator → KmsValidator)) : Option_ :=
  let validatorConfig :=
    foldl (λ c opt, opt c) (mkKmsValidator chainID address ProtocolVersionV0_34 true defaultSecretKey) opts in
  λ c, mkKmsConfig (kc_Image c) (kc_Chains c) (kc_Validators c ++ [validatorConfig]) (kc_Providers c) (kc_PersistState c) (kc_Resources c).

Definition NewHashicorpProvider (chainID address key : string) (token ca : option SecretKeySelector)
    (autoRenewToken skipVerify : bool) : result HashicorpProvider :=
  match token with
  | None => Err nil_dereference
  | Some token =>
      Ok (mkHashicorpProvider [mkHashicorpKey chainID key (hashicorpMountDir +:+ sel_Key token)]
            (mkHashicorpAdapter address match ca with Some ca => hashicorpMountDir +:+ sel_Key ca | None => "" end skipVerify)
            ca token autoRenewToken)
  end.

(** [KMS]: its name, owner and configuration. *)
Record KMS := mkKMS { kms_Name : string; kms_Owner : ObjectMeta; kms_Config : KmsConfig }.
Definition kms_Namespace (k : KMS) : string := meta_Namespace (kms_Owner k).
(** [New] *)
Definition newKMS (name : string) (owner : ObjectMeta) (opts : list Option_) : KMS :=
  mkKMS name owner (foldl (λ c opt, opt c) defaultConfig opts).

Definition getConfigToml (k : KMS) : result string := TomlEncode (kms_Config k).
(** The error is dropped, with an empty text. *)
Definition getConfigHash (k : KMS) : string :=
  Sha256 match getConfigToml k with Ok cfg => cfg | Err _ => "" end.

(** *** Volumes and containers *)

Definition token_volume (p : HashicorpProvider) : Volume := secret_volume "vault-token" (sel_Name (hp_TokenSecret p)) [].
Definition ca_volumes (p : HashicorpProvider) : list Volume :=
  match hp_CertificateSecret p with Some c => [secret_volume "vault-ca-cert" (sel_Name c) []] | None => [] end.
Definition getVolumes (p : HashicorpProvider) : list Volume := token_volume p :: ca_volumes p.

Definition key_mount (volume key : string) : VolumeMount := mkVolumeMount volume true (hashicorpMountDir +:+ key) key "".
Definition ca_mounts (p : HashicorpProvider) : list VolumeMount :=
  match hp_CertificateSecret p with Some c => [key_mount "vault-ca-cert" (sel_Key c)] | None => [] end.
Definition getVolumeMounts (p : HashicorpProvider) : list VolumeMount :=
  key_mount "vault-token" (sel_Key (hp_TokenSecret p)) :: ca_mounts p.

Definition FormatBool (b : bool) : string := if b then "true" else "false".
Definition getContainers (p : HashicorpProvider) : list Container :=
  let value k v := mkEnvVar k (EnvValue v) in
  if hp_AutoRenewToken p then
    [mkContainer "vault-token-renewer" vaultTokenRenewerImage "" (Some RestrictedSecurityContext) [] []
       ([value "VAULT_ADDR" (ha_VaultAddress (hp_Adapter p));
         value "VAULT_TOKEN_PATH" (hashicorpMountDir +:+ sel_Key (hp_TokenSecret p));
         value "VAULT_SKIP_VERIFY" (FormatBool (ha_VaultSkipVerify (hp_Adapter p)))] ++
        match hp_CertificateSecret p with Some c => [value "VAULT_CACERT" (hashicorpMountDir +:+ sel_Key c)] | None => [] end)
       [] (key_mount "vault-token" (sel_Key (hp_TokenSecret p)) :: ca_mounts p)
       (cpu_and_memory tokenRenewerCpu tokenRenewerMemory) None None]
  else [].

(** The providers, in the order of their names: there is one name. *)
Definition providers (k : KMS) : list HashicorpProvider := map_to_list (kc_Providers (kms_Config k)) ≫= snd.

Definition kms_GetVolumes (k : KMS) : list Volume :=
  [secret_volume "tmkms-identity" (kms_Name k) []; mkVolume "tmkms-config" (ConfigMapSource (kms_Name k));
   mkVolume "tmkms-data" (if kc_PersistState (kms_Config k) then ClaimSource (kms_Name k) else EmptyDirSource)] ++
  (providers k ≫= getVolumes).

Definition file_mount (volume file : string) : VolumeMount := mkVolumeMount volume false ("/data/" +:+ file) file "".
Definition active_probe (failures period timeout : Z) : Probe :=
  mkProbe (HttpGet "/tmkms_active" 8000 "HTTP") failures period timeout.
Definition GetContainersSpec (k : KMS) : list Container :=
  mkContainer tmkmsAppName (kc_Image (kms_Config k)) "Always" (Some RestrictedSecurityContext) []
    ["start"; "-c"; "/data/" +:+ tmkms_configFileName] [mkEnvVar "ROLLME" (EnvValue (getConfigHash k))] []
    ([mkVolumeMount "tmkms-data" false "/data" "" ""; file_mount "tmkms-identity" identityKeyName;
      file_mount "tmkms-config" tmkms_configFileName] ++ (providers k ≫= getVolumeMounts))
    (kc_Resources (kms_Config k)) (Some (active_probe 720 5 5)) (Some (active_probe 2 2 5)) ::
  (providers k ≫= getContainers).

(** ** Deploying *)

(** A pod that runs once: an older one is deleted, whatever comes of it, and so is the new one.
    A creation that fails leaves the helper an object without a name, which the client refuses
    to delete. *)
Definition run_once (pod : Pod) (after : Pod → kube (result string)) : kube (result string) :=
  helper_Delete pod ≫= λ _,
  created ← helper_Create pod;
  match created with
  | Err e => return_error e
  | Ok ph =>
      waited ← WaitForPodSucceeded ph;
      let '(ph, r) := waited in
      out ← (match r with Err e => return_error e | Ok _ => after ph end);
      helper_Delete ph ≫= λ _, Ret out
  end.

Definition once_pod (k : KMS) (name : string) (spec : PodSpec) : result Pod :=
  m ← SetControllerReference (kms_Owner k) (labelled_meta (kms_Namespace k) name ∅);
  Ok (mkPod m (mkPodStatus "" [] [] []) spec).

Definition busybox : string := "busybox".
Definition identity_container (k : KMS) (name : string) (command : list string) : Container :=
  mkContainer name (kc_Image (kms_Config k)) "Always" (Some RestrictedSecurityContext) command [] [] []
    [mkVolumeMount "data" false "/data/tmkms" "" ""] no_resources None None.
Definition identity_spec (k : KMS) : PodSpec :=
  mkPodSpec "Never" None (Some RestrictedPodSecurityContext) "" []
    [identity_container k tmkmsAppName ["/bin/sh"; "-c"; "tmkms init /data/tmkms"]]
    [identity_container k busybox ["cat"; "/data/tmkms/secrets/" +:+ identityKeyName]]
    [mkVolume "data" EmptyDirSource].

Definition generateKmsIdentityKey (k : KMS) : kube (result string) :=
  match once_pod k (kms_Name k +:+ "-generate-identity") (identity_spec k) with
  | Err e => return_error e
  | Ok pod => run_once pod (λ ph, out ←? GetLogs ph busybox; return_result (TrimSpace out))
  end.

Definition ensureIdentityKey (k : KMS) : kube (result ()) :=
  got ← call (GetSecret Direct (kms_Namespace k) (kms_Name k));
  match got with
  | Ok _ => return_result ()
  | Err e =>
      if negb (IsNotFound e) then return_error e else
      key ←? generateKmsIdentityKey k;
      call (CreateSecret (mkSecret (labelled_meta (kms_Namespace k) (kms_Name k) ∅) (Some true) {[identityKeyName := key]}))
  end.

Definition config_of (o : KubeObject) : gmap string string := match ob_Content o with ConfigData d => d | _ => ∅ end.
Definition with_config (o : KubeObject) (d : gmap string string) : KubeObject :=
  mkObject (ob_Kind o) (ob_meta o) (ob_ClusterIP o) (ConfigData d).
Definition ensureConfigMap (k : KMS) : kube (result ()) :=
  match getConfigToml k with
  | Err e => return_error e
  | Ok config =>
      match SetControllerReference (kms_Owner k) (labelled_meta (kms_Namespace k) (kms_Name k) ∅) with
      | Err e => return_error e
      | Ok m =>
          got ← call (GetObject Direct "ConfigMap" (kms_Namespace k) (kms_Name k));
          match got with
          | Err e =>
              if IsNotFound e then call (CreateObject (mkObject "ConfigMap" m "" (ConfigData {[tmkms_configFileName := config]})))
              else return_error e
          | Ok cm =>
              if get_label (config_of cm) tmkms_configFileName != config
              then call (UpdateObject (with_config cm (<[tmkms_configFileName := config]> (config_of cm))))
              else return_result ()
          end
      end
  end.

(** The claim is left without an owner. *)
Definition ensurePVC (k : KMS) : kube (result ()) :=
  match ParseQuantity tmkmsPvcSize with
  | Err e => return_error e
  | Ok storageSize =>
      got ← call (GetPVC Direct (kms_Namespace k) (kms_Name k));
      match got with
      | Ok _ => return_result ()
      | Err e =>
          if IsNotFound e then
            call (CreatePVC (mkPVC (labelled_meta (kms_Namespace k) (kms_Name k) ∅) None (Some storageSize) "" ""))
          else return_error e
      end
  end.

Definition DeployConfig (k : KMS) : kube (result ()) :=
  ensureIdentityKey k ;?
  (ensureConfigMap k ;?
   (if kc_PersistState (kms_Config k) then ensurePVC k else return_result ())).

(** Both deletions are tried; the errors are joined. *)
Definition UndeployConfig (k : KMS) : kube (result ()) :=
  let gone (kind : string) (r : result ()) : option error :=
    match r with
    | Err e => if IsNotFound e then None else Some (Wrapf e ("delete tmKMS " +:+ kind +:+ " %q: %w") [AStr (kms_Name k)])
    | Ok _ => None
    end in
  r1 ← call (DeleteObject "ConfigMap" (kms_Namespace k) (kms_Name k));
  r2 ← call (DeleteObject "Secret" (kms_Namespace k) (kms_Name k));
  Ret match gone "ConfigMap" r1, gone "Secret" r2 with
      | None, None => Ok ()
      | Some e, None | None, Some e => Err e
      | Some e1, Some e2 => Err (Joined e1 e2 "%v%v" [])
      end.

Definition upload_spec (k : KMS) (p : HashicorpProvider) (key payload : string) : PodSpec :=
  mkPodSpec "Never" (Some 300%Z) None "" [] []
    [mkContainer tmkmsAppName (kc_Image (kms_Config k)) "Always" (Some RestrictedSecurityContext) []
       ["hashicorp"; "upload"; key; "--payload"; payload; "--payload-format"; "base64"; "-c"; "/data/" +:+ tmkms_configFileName]
       [] [] ([file_mount "tmkms-config" tmkms_configFileName; key_mount "vault-token" (sel_Key (hp_TokenSecret p))] ++ ca_mounts p)
       no_resources None None]
    ([token_volume p; mkVolume "tmkms-config" (ConfigMapSource (kms_Name k))] ++ ca_volumes p).

Definition UploadKey (p : HashicorpProvider) (k : KMS) (payload : string) : kube (result ()) :=
  match hp_Keys p with
  | [hashicorpKey] =>
      match once_pod k (kms_Name k +:+ "-vault-upload") (upload_spec k p (hk_Key hashicorpKey) payload) with
      | Err e => return_error e
      | Ok pod => run_once pod (λ _, return_result "") ;? return_result ()
      end
  | _ => return_error (Errorf "config has no keys configured. this is not supposed to happen" [])
  end.

(** ** The sidecar of a node *)

Definition tmkms_name (n : ChainNode) : string := cn_Name n +:+ "-tmkms".
Definition getTmkms (n : ChainNode) : result (HashicorpProvider * KMS) :=
  match ns_Validator (cn_Spec n) ≫= vc_TmKMS with
  | None => Err (Errorf "no tmkms configuration available in chainnode" [])
  | Some t =>
      match tk_Hashicorp t with
      | None => Err (Errorf "no supported provider configured" [])
      | Some h =>
          let chainID := nst_ChainID (cn_Status n) in
          provider ← NewHashicorpProvider chainID (hc_Address h) (hc_Key h) (hc_TokenSecret h) (hc_CertificateSecret h)
                       (hc_AutoRenewToken h) (hc_SkipCertificateVerify h);
          let format := GetKeyFormat t in
          Ok (provider, newKMS (tmkms_name n) (cn_meta n)
                [WithResources (tmkms_GetResources (Some t)); WithProvider provider; WithImage "ghcr.io/voluzi/tmkms:0.14.0-vault";
                 WithChain chainID [WithKeyFormat (kf_Type format) (kf_AccountKeyPrefix format) (kf_ConsensusKeyPrefix format)];
                 WithValidator chainID ("tcp://localhost:" +:+ FormatInt PrivValPort) [WithProtocolVersion (GetProtocolVersion t)];
                 PersistState (ShouldPersistState (Some t))])
      end
  end.

(** The private key, or [""] when it was uploaded. *)
Definition loadPrivKey `{PrivvalApi} (n : ChainNode) : kube (result string) :=
  if annotation (cn_meta n) AnnotationVaultKeyUploaded == "true" then return_result "" else
  secret ←? call (GetSecret Cached (cn_Namespace n) (GetPrivKeySecretName (ns_Validator (cn_Spec n)) (cn_meta n)));
  match secret_Data secret !! PrivKeyFilename with
  | None => return_error (Errorf "%s is not present in the secret" [AStr PrivKeyFilename])
  | Some data => Ret (pk ← LoadPrivKey data; Ok (tv_Value (pk_PrivKey pk)))
  end.

(** The node it returns is the one the controller goes on with. *)
Definition with_node_meta (n : ChainNode) (m : ObjectMeta) : ChainNode := mkChainNode m (cn_Spec n) (cn_Status n).
Definition ensureTmKMSConfig `{PrivvalApi} (n : ChainNode) : kube (result ChainNode) :=
  if negb (UsesTmKms n) then UndeployConfig (newKMS (tmkms_name n) (cn_meta n) []) ;? return_result n else
  match getTmkms n with
  | Err e => return_error e
  | Ok (provider, kms) =>
      DeployConfig kms ;?
      (if negb (ShouldUploadVaultKey n) then return_result n else
       key ←? loadPrivKey n;
       if key == "" then return_result n else
       UploadKey provider kms key ;?
       (let n := with_node_meta n (set_annotation (cn_meta n) AnnotationVaultKeyUploaded "true") in
        call (UpdateChainNode n) ;? return_result n))
  end.

(** Whether the live pod no longer mounts the assets. *)
Definition mounts_tmkms (name : string) (v : Volume) : bool :=
  match vol_Source v with ConfigMapSource c => c == name | SecretSource c _ => c == name | _ => false end.
Definition canCleanupTmKMSConfig (n : ChainNode) : kube (result bool) :=
  got ← call (GetPod Cached (cn_Namespace n) (cn_Name n));
  match got with
  | Err e => if IsNotFound e then return_result false else return_error e
  | Ok pod => return_result (negb (existsb (mounts_tmkms (tmkms_name n)) (psp_Volumes (pod_Spec pod))))
  end.
End tmkms.

(** ** What is promised *)

Section promises.
Context `{TomlApi} `{QuantityApi} `{ApplyApi} `{PrivvalApi}.

(** A pod of that name was created and then seen to succeed. *)
Definition ran_to_success (pod : Pod) (h : list kevent) : Prop :=
  ∃ ph w q, Ev (CreatePod pod) (Ok ph) ∈ h ∧ watched (meta_Namespace (pod_meta ph)) (pod_Name ph) w h ∧ shows w q ∧
    ps_Phase (pod_Status q) = "Succeeded".
Definition pod_requests (pod : Pod) (h : list kevent) (r : request) : Prop :=
  match r with
  | GetPod _ _ _ | GetPodLogs _ _ _ | WatchPod _ _ => True
  | CreatePod p => p = pod
  | DeleteObject kind _ _ => kind = "Pod"
  | _ => False
  end.

#[local] Opaque GetLogs WaitForPodSucceeded.
Lemma run_once_spec pod after h :
  (∀ h' ph, spec (λ _ r, pod_read r) h' (after ph) (λ _ _, True)) →
  spec (pod_requests pod) h (run_once pod after) (λ h' r, is_ok r = true → ran_to_success pod h').
Proof.
  intros Ha. unfold run_once. rewrite spec_mbind. split; [done|]. intros x0. cbn [spec].
  rewrite spec_mbind. split; [done|]. intros [ph|e]; cbn [spec]; [|done]. rewrite spec_mbind.
  assert (∀ h1 A (m : kube A) Q, spec (λ _ r, pod_read r) h1 m Q → spec (pod_requests pod) h1 m Q) as Hr.
  { intros h1 A m Q Hm. eapply spec_mono; [exact Hm| |by intros]. by intros h2 [] _ ?. }
  eapply spec_conseq; [apply spec_suffix, Hr, WaitForPodPhase_spec|]. intros h1 [q r] _ (Hs & _ & Hok).
  cbn [fst snd] in Hok. destruct r as [[]|e].
  - rewrite spec_mbind. eapply spec_conseq; [apply spec_suffix, Hr, Ha|]. intros h2 out _ [Hs2 _].
    rewrite spec_mbind. split; [done|]. intros x. cbn [spec]. intros _. destruct (Hok eq_refl) as (Hp & w & Hw & Hsh).
    exists ph, w, q. split; [eapply stable_seen; [|by left]; etrans; [exact Hs|]; etrans; [exact Hs2|by eexists [_]]|].
    split; [eapply stable_seen; [|exact Hw]; etrans; [exact Hs2|by eexists [_]]|]. done.
  - cbn. done.
Qed.

Definition keeps_node (_ : list kevent) (r : request) : Prop := match r with UpdateChainNode _ => False | _ => True end.
Lemma keeps_pod_requests pod h {A} (m : kube A) Q : spec (pod_requests pod) h m Q → spec keeps_node h m Q.
Proof. intros Hm. eapply spec_mono; [exact Hm| |by intros]. by intros h' [] _ ?. Qed.

Lemma generateKmsIdentityKey_keeps k h : spec keeps_node h (generateKmsIdentityKey k) (λ _ _, True).
Proof.
  unfold generateKmsIdentityKey. destruct (once_pod _ _ _) as [pod|e]; [|done].
  eapply spec_conseq; [apply (keeps_pod_requests pod), run_once_spec|done].
  intros h' ph. rewrite spec_try. eapply spec_conseq; [apply GetLogs_spec|]. by intros h1 [] _ _.
Qed.

#[local] Opaque generateKmsIdentityKey.
Lemma DeployConfig_keeps k h : spec keeps_node h (DeployConfig k) (λ _ _, True).
Proof.
  unfold DeployConfig. rewrite spec_try. unfold ensureIdentityKey. rewrite spec_mbind. split; [done|].
  assert (∀ h', spec keeps_node h' (ensureConfigMap k ;? (if kc_PersistState (kms_Config k) then ensurePVC k else return_result ()))
    (λ _ _, True)) as Hrest.
  { intros h'. rewrite spec_try. eapply spec_conseq with (Q := λ _ _, True).
    - unfold ensureConfigMap. destruct (getConfigToml k); [|done]. destruct (SetControllerReference _ _); [|done].
      split; [done|]. intros [cm|e]; simpl; [case_match; by repeat split|destruct (IsNotFound e); by repeat split].
    - intros h1 [[]|e] _ _; [|done]. destruct (kc_PersistState _); [|done]. unfold ensurePVC.
      destruct (ParseQuantity _); [|done]. split; [done|]. intros [p|e]; [done|].
      simpl. destruct (IsNotFound e); by repeat split. }
  intros [s|e]; cbn [spec]; [apply Hrest|]. destruct (IsNotFound e); cbn [negb]; [|done].
  rewrite spec_try. eapply spec_conseq; [apply generateKmsIdentityKey_keeps|]. intros h1 [key|e1] _ _; [|done].
  split; [done|]. intros [[]|e1]; cbn [spec]; [apply Hrest|done].
Qed.

(** The validator key is uploaded at most once: it is marked as uploaded only after the pod that
    uploads it succeeded, and nothing is uploaded once it is marked. *)
Definition uploaded_as (n : ChainNode) (payload : string) (pod : Pod) : Prop :=
  ∃ p kms key, getTmkms n = Ok (p, kms) ∧ hp_Keys p = [key] ∧ payload ≠ "" ∧
    once_pod kms (kms_Name kms +:+ "-vault-upload") (upload_spec kms p (hk_Key key) payload) = Ok pod.
Definition marks_uploaded (n : ChainNode) (h : list kevent) (r : request) : Prop :=
  match r with
  | UpdateChainNode n' =>
      annotation (cn_meta n) AnnotationVaultKeyUploaded ≠ "true" ∧
      n' = with_node_meta n (set_annotation (cn_meta n) AnnotationVaultKeyUploaded "true") ∧
      ∃ payload pod, uploaded_as n payload pod ∧ ran_to_success pod h
  | _ => True
  end.
#[local] Opaque DeployConfig UploadKey UndeployConfig.
Lemma ensureTmKMSConfig_spec n h : spec (marks_uploaded n) h (ensureTmKMSConfig n) (λ _ _, True).
Proof.
  assert (∀ h1 A (m : kube A) Q, spec keeps_node h1 m Q → spec (marks_uploaded n) h1 m Q) as Hk.
  { intros h1 A m Q Hm. eapply spec_mono; [exact Hm| |by intros]. by intros h2 [] _ ?. }
  unfold ensureTmKMSConfig. destruct (UsesTmKms n); cbn [negb].
  2:{ rewrite spec_try. eapply spec_conseq with (Q := λ _ _, True); [|by intros h1 [] _ _]. apply Hk.
      #[local] Transparent UndeployConfig. by repeat split. }
  destruct (getTmkms n) as [[p kms]|e] eqn:Eg; [|done]. rewrite spec_try.
  eapply spec_conseq; [apply Hk, DeployConfig_keeps|]. intros h1 [[]|e] _ _; [|done].
  destruct (ShouldUploadVaultKey n); cbn [negb]; [|done]. rewrite spec_try. unfold loadPrivKey.
  case_bool_decide as Ea; [done|]. rewrite spec_try. split; [done|]. intros [s|e]; cbn [spec]; [|done].
  destruct (secret_Data s !! PrivKeyFilename) as [data|]; cbn [spec]; [|done].
  destruct (LoadPrivKey data) as [pk|e]; cbn; [|done]. case_bool_decide as Ev; [done|]. rewrite spec_try.
  #[local] Transparent UploadKey. unfold UploadKey. destruct (hp_Keys p) as [|key [|]] eqn:Ep; [done| |done].
  destruct (once_pod _ _ _) as [pod|e] eqn:Eo; [|done]. rewrite spec_try.
  eapply spec_conseq; [apply Hk, (keeps_pod_requests pod), run_once_spec; by intros|].
  intros h2 [out|e] _ Hok; cbn [spec]; [|done]. split.
  - split; [done|]. split; [done|]. exists (tv_Value (pk_PrivKey pk)), pod. split; [|by apply Hok]. by exists p, kms, key.
  - by intros [[]|e].
Qed.
End promises.
