(* ===== verification/NodeSignerKeys.v ===== *)
(** * The key of a standalone signer ([internal/controllers/chainnode/cosmosigner.go])

    The parameters and the backend of the signer of a node, the public key it is
    expected to sign with, and the import of the key of the node into Vault or
    Cloud KMS.  A routine that changes the node returns the node the controller
    goes on with; events are not modelled. *)

From S2P Require Import Prelude GoLib IO ThirdParty Reference ApiTypes KubeApi KubePods PrivKey DerivedNames CosmosignerSpec SignerResolve Getters.
From S2P Require Import SigningNames SigningPaths Labels Migration MigrationControllers ResourceCleanup Deploy Teardown Reservation ReservationNode SignerRender SignerJobs TmKms.

(** ** Defaults of the signer block *)

Definition DefaultCosmosignerLogLevel : string := "info".
Definition DefaultCosmosignerCpu : string := "100m".
Definition DefaultCosmosignerMemory : string := "128Mi".
Definition signer_GetLogLevel (c : Cosmosigner) : string := default DefaultCosmosignerLogLevel (non_empty (cs_LogLevel c)).
Definition signer_GetServiceAccountName (c : Cosmosigner) : string := default "" (cs_ServiceAccountName c).
Definition signer_GetResources `{QuantityApi} (c : Cosmosigner) : ResourceRequirements :=
  default (cpu_and_memory DefaultCosmosignerCpu DefaultCosmosignerMemory) (cs_Resources c).

(** What the manager configures: the image of the signers and whether there is a
    clientset for the one-shot pods. *)
Record SignerOptions := mkSignerOptions { so_CosmosignerImage : string; so_HasClientSet : bool }.

(** A step on the node. *)
Abbreviation node_step A := (kube (result (ChainNode * A))).

Definition with_import (cs : ChainNodeSignerStatus) (imported version : string) : ChainNodeSignerStatus :=
  mkSignerStatus (css_SigningDigest cs) (css_AppliedDigest cs) (css_PublicKey cs) (css_Migration cs) imported version
    (css_Replicas cs) (css_ValidatorTargeted cs) (css_StateStorageSize cs) (css_StateStorageClassName cs)
    (css_AtEstablishment cs) (css_ServingIdentity cs).
Definition with_imported (n : ChainNode) (imported : string) : ChainNode :=
  with_signer_status n (with_import (cn_Signer n) imported (css_ImportedKeyVersion (cn_Signer n))).
Definition with_imported_version (n : ChainNode) (version : string) : ChainNode :=
  with_signer_status n (with_import (cn_Signer n) (css_KeyImported (cn_Signer n)) version).

(** ** Names and secrets *)

Definition cosmosignerTargetLabelValue (n : ChainNode) : option string :=
  if UsesCosmosigner n then Some (cosmosignerName n)
  else if ns_RemoteSignerTarget (cn_Spec n) then
    let v := get_label (meta_Labels (cn_meta n)) LabelCosmosignerTarget in
    if v != "" then Some v else None
  else None.

Definition cosmosignerNodeKeySecret (n : ChainNode) : string :=
  if IsValidator n then GetPrivKeySecretName (ns_Validator (cn_Spec n)) (cn_meta n) else cn_Name n +:+ "-priv-key".

(** Dereferences the software backend of a node that is not a validator. *)
Definition cosmosignerSoftwareSecretName (n : ChainNode) (c : Cosmosigner) : result string :=
  if IsValidator n then Ok (cosmosignerNodeKeySecret n)
  else match be_Software (cs_Backend c) with
       | None => Err nil_dereference
       | Some sw => Ok (default (cosmosignerNodeKeySecret n) (non_empty (sw_PrivateKeySecret sw)))
       end.

Definition cosmosignerImportSourcePending (n : ChainNode) : bool :=
  match ns_Validator (cn_Spec n) with
  | None => false
  | Some v =>
      if is_some (non_empty (vc_PrivateKeySecret v)) then false
      else if nst_PubKey (cn_Status n) != "" then false
      else is_some (vc_Init v) || is_some (vc_CreateValidator v)
  end.

Section keys.
Context `{MetaApi} `{ApplyApi} `{JsonApi} `{YamlApi} `{QuantityApi} `{PrivvalApi} `{RetryApi}.
Variable opts : SignerOptions.

Definition cosmosignerImportRecordMatchesTarget (c : Cosmosigner) (record sourceSecret : string) : bool :=
  if GcpImportsKey (Some c) then GcpImportRecordMatchesTarget (be_GcpKMS (cs_Backend c)) record sourceSecret
  else match be_Vault (cs_Backend c) with
       | Some v => VaultImportRecordMatchesTarget v record sourceSecret
       | None => false
       end.
Definition cosmosignerImportLabel (c : Cosmosigner) : string :=
  if GcpImportsKey (Some c) then "GCP KMS import" else "Vault uploadGenerated".
Definition gcpImportParams (i : option CosmosignerGcpKmsImport) : option GcpImport :=
  (λ i, mkImport (gi_Project i) (GetLocation i) (gi_KeyRing i) (gi_Key i) (GetImportJob i) (GetProtectionLevel i)) <$> i.

(** ** Import status *)

(** The status of the fresh node replaces the one in hand. *)
Definition updateCosmosignerImportStatus (n : ChainNode) (mutate : ChainNode → ChainNode) : kube (result ChainNode) :=
  RetryOnConflict
    (fresh ←? call (GetChainNode Cached (cn_Namespace n) (cn_Name n));
     call (UpdateStatusChainNode (mutate fresh)) ;?
     return_result (mkChainNode
       (mkMeta (cn_Name n) (cn_Namespace n) (cn_UID n) (meta_Labels (cn_meta n)) (meta_Annotations (cn_meta n))
          (meta_OwnerReferences (cn_meta n)) (meta_Finalizers (cn_meta n)) (meta_DeletionTimestamp (cn_meta n))
          (meta_CreationTimestamp (cn_meta n)) (meta_ResourceVersion (cn_meta fresh)))
       (cn_Spec n) (cn_Status (mutate fresh)))).
Definition markCosmosignerKeyImported (n : ChainNode) (value : string) : kube (result ChainNode) :=
  updateCosmosignerImportStatus n (λ f, with_imported f value).
Definition markCosmosignerImportedKeyVersion (n : ChainNode) (version : string) : kube (result ChainNode) :=
  updateCosmosignerImportStatus n (λ f, with_imported_version f version).

(** ** The backend *)

(** The version of a lost status is read back from the live configuration. *)
Definition recover_key_version (n : ChainNode) (g : CosmosignerGcpKmsBackend) : node_step string :=
  let recorded := css_ImportedKeyVersion (cn_Signer n) in
  if is_some (gk_Import g) && (recorded == "") && (css_SigningDigest (cn_Signer n) != "") then
    got ← call (GetObject Cached "ConfigMap" (cn_Namespace n) (cosmosignerName n));
    match got with
    | Ok configMap =>
        if IsControlledBy (ob_meta configMap) (cn_meta n) then
          match GcpKeyVersionFromConfigYAML (get_label (config_data configMap) "config.yaml") with
          | Err e => return_error e
          | Ok recovered =>
              if OwnsKeyVersion (gk_Import g) recovered then
                n ←? markCosmosignerImportedKeyVersion n recovered; return_result (n, recovered)
              else return_result (n, recorded)
          end
        else return_result (n, recorded)
    | Err _ => return_result (n, recorded)
    end
  else return_result (n, recorded).

Definition check_software_secret (n : ChainNode) (secretName : string) : kube (result Backend) :=
  let keyFlowPending := (nst_PubKey (cn_Status n) == "") &&
    (ShouldInitGenesis n || is_some (ns_Validator (cn_Spec n) ≫= vc_CreateValidator)) in
  got ← call (GetSecret Cached (cn_Namespace n) secretName);
  match got with
  | Err e =>
      if IsNotFound e && keyFlowPending then return_result (software_backend secretName)
      else if IsNotFound e then
        return_error (Errorf "cosmosigner software key secret %q not found: provide the consensus key registered on-chain — refusing to roll out a signer with no key" [AStr secretName])
      else return_error e
  | Ok secret =>
      let keyMaterial := secret_Data secret !! PrivKeyFilename in
      if negb (is_some keyMaterial) && keyFlowPending then return_result (software_backend secretName)
      else if default "" keyMaterial == "" then
        return_error (Errorf "cosmosigner software key secret %q has no %s: provide the registered consensus key" [AStr secretName; AStr PrivKeyFilename])
      else match LoadPrivKey (default "" keyMaterial) with
           | Err e => return_error (Wrapf e "cosmosigner software key secret %q contains an invalid %s: %w" [AStr secretName; AStr PrivKeyFilename])
           | Ok _ => return_result (software_backend secretName)
           end
  end.

Definition cosmosignerBackend (n : ChainNode) (c : Cosmosigner) : node_step Backend :=
  match be_Vault (cs_Backend c), be_GcpKMS (cs_Backend c) with
  | Some v, _ =>
      RequireSecretSelector (cn_Namespace n) "Vault token" (va_TokenSecret v) ;?
      (RequireSecretSelector (cn_Namespace n) "Vault certificate" (va_CertificateSecret v) ;?
       return_result (n, vault_backend (mkVaultBackend (va_Address v) (va_KeyName v) (GetKeyVersion v) (GetVaultMount v)
         (default "" (va_Namespace v)) (va_TokenSecret v) (va_CertificateSecret v) false)))
  | None, Some g =>
      RequireSecretSelector (cn_Namespace n) "GCP credentials" (gk_CredentialsSecret g) ;?
      ('(n, version) ←? recover_key_version n g;
       return_result (n, gcp_backend (mkGcpBackend (ResolvedKeyVersion (Some g) version) (gcpImportParams (gk_Import g))
         (gk_CredentialsSecret g))))
  | None, None =>
      match cosmosignerSoftwareSecretName n c with
      | Err e => return_error e
      | Ok secretName => backend ←? check_software_secret n secretName; return_result (n, backend)
      end
  end.

(** ** Parameters *)

Definition cosmosignerParams (n : ChainNode) (c : Cosmosigner) : node_step SignerParams :=
  let name := cosmosignerName n in
  let labels := ExcludeMapKeys (WithChainNodeLabels n [{[LabelChainNode := cn_Name n]}])
                  (CosmosignerReservedSelectorLabels ++ [LabelChainNodeSet]) in
  '(m, backend) ←? cosmosignerBackend n c;
  return_result (m, mkSignerParams name (cn_Namespace n) (cn_UID n) (RootOwnerFor (OwnerChainNode n)) (nst_ChainID (cn_Status m))
    (GetImage (Some c) (so_CosmosignerImage opts)) (GetReplicas (Some c)) (signer_GetLogLevel c) "" (GetStateStorageSize (Some c))
    (cs_StorageClassName c) (signer_GetResources c) (cs_RaftTLSSecret c) (signer_GetServiceAccountName c)
    match ns_Config (cn_Spec n) with Some cfg => cf_ImagePullSecrets cfg | None => [] end
    backend labels (<[LabelChainNode := cn_Name n]> {[LabelCosmosignerTarget := name]})).
Definition with_expected_key (p : SignerParams) (publicKey : string) : SignerParams :=
  mkSignerParams (sp_Name p) (sp_Namespace p) (sp_OwnerUID p) (sp_RootOwner p) (sp_ChainID p) (sp_Image p) (sp_Replicas p)
    (sp_LogLevel p) publicKey (sp_StateStorageSize p) (sp_StorageClassName p) (sp_Resources p) (sp_RaftTLSSecret p)
    (sp_ServiceAccountName p) (sp_ImagePullSecrets p) (sp_Backend p) (sp_Labels p) (sp_TargetSelector p).

Definition job_runner (n : ChainNode) (params : SignerParams) : JobRunner := mkJobRunner (cn_meta n) params.
Definition no_clientset (what : string) : error := Errorf (what +:+ " requires a Kubernetes clientset") [].

(** Read from the backend when nothing local can tell. *)
Definition backend_public_key (n : ChainNode) (params : SignerParams) : kube (result string) :=
  if negb (so_HasClientSet opts) then return_error (no_clientset "cosmosigner public-key preflight")
  else PublicKey (job_runner n params).

Definition cosmosignerPublicKey (n : ChainNode) (c : Cosmosigner) (params : SignerParams) : kube (result string) :=
  match bk_Software (sp_Backend params) with
  | Some s => PublicKeyFromSecret Cached (cn_Namespace n) (sb_SecretName s)
  | None =>
      if ImportsGeneratedKey (Some c) (ShouldInitGenesis n) && IsValidator n then
        let sourceSecret := GetPrivKeySecretName (ns_Validator (cn_Spec n)) (cn_meta n) in
        r ← PublicKeyFromSecret Cached (cn_Namespace n) sourceSecret;
        match r with
        | Ok publicKey => return_result publicKey
        | Err e =>
            if negb (IsNotFound e) ||
               negb (cosmosignerImportRecordMatchesTarget c (css_KeyImported (cn_Signer n)) sourceSecret) then return_error e
            else backend_public_key n params
        end
      else backend_public_key n params
  end.

(** ** Imports *)

Definition source_missing (label secret : string) : error :=
  Errorf ("cosmosigner " +:+ label +:+ " source secret %q is missing %s: provide the validator key to import") [AStr secret; AStr PrivKeyFilename].
Definition source_invalid (e : error) (label secret : string) : error :=
  Wrapf e ("cosmosigner " +:+ label +:+ " source secret %q contains an invalid %s: %w") [AStr secret; AStr PrivKeyFilename].

(** The served digest is the desired one. *)
Definition serves_desired (n : ChainNode) : bool :=
  (css_SigningDigest (cn_Signer n) != "") && (CosmosignerSigningDigest n == css_SigningDigest (cn_Signer n)).

Definition preflightCosmosignerImportSource (n : ChainNode) (c : Cosmosigner) : kube (result ()) :=
  if negb (ImportsGeneratedKey (Some c) (ShouldInitGenesis n)) || serves_desired n then return_result () else
  let sourceSecret := cosmosignerNodeKeySecret n in
  if cosmosignerImportRecordMatchesTarget c (css_KeyImported (cn_Signer n)) sourceSecret then return_result ()
  else if cosmosignerImportSourcePending n then return_result () else
  let label := cosmosignerImportLabel c in
  got ← call (GetSecret Cached (cn_Namespace n) sourceSecret);
  match got with
  | Err e => if IsNotFound e then return_error (source_missing label sourceSecret) else return_error e
  | Ok secret =>
      if empty_key secret PrivKeyFilename then return_error (source_missing label sourceSecret)
      else match LoadPrivKey (default "" (secret_Data secret !! PrivKeyFilename)) with
           | Err e => return_error (source_invalid e label sourceSecret)
           | Ok _ => return_result ()
           end
  end.

(** The key bytes of the source, empty when there are none. *)
Definition read_key_material (n : ChainNode) (sourceSecret : string) : kube (result string) :=
  got ← call (GetSecret Cached (cn_Namespace n) sourceSecret);
  match got with
  | Err e => if IsNotFound e then return_result "" else return_error e
  | Ok secret => return_result (default "" (secret_Data secret !! PrivKeyFilename))
  end.

Definition adoptTmKMSVaultImport (n : ChainNode) (v : CosmosignerVaultBackend) (params : SignerParams)
    (sourceSecret keyMaterial : string) : node_step bool :=
  if (annotation (cn_meta n) AnnotationVaultKeyUploaded != StringValueTrue) ||
     (nst_TmKMSReservationIdentity (cn_Status n) == "") ||
     (nst_TmKMSReservationIdentity (cn_Status n) != chainnode_CosmosignerSigningIdentity n) then return_result (n, false) else
  expected ←? PublicKeyFromSecret Cached (cn_Namespace n) sourceSecret;
  if negb (so_HasClientSet opts) then return_error (no_clientset "cosmosigner tmKMS Vault adoption") else
  got ← PublicKey (job_runner n params);
  match got with
  | Err e => return_error (Wrapf e "cosmosigner could not verify the tmKMS-uploaded Vault key before adoption: %w" [])
  | Ok actual =>
      if actual != expected then
        return_error (Errorf "cosmosigner cannot adopt tmKMS Vault key: backend public key does not match source secret %q" [AStr sourceSecret])
      else n ←? markCosmosignerKeyImported n (VaultImportFingerprint v sourceSecret keyMaterial); return_result (n, true)
  end.

(** The import itself, once the signer has stopped. *)
Definition quiesced_then (n : ChainNode) (params : SignerParams) (k : node_step bool) : node_step bool :=
  quiesced ←? ScaleDown (OwnerChainNode n) (cn_Namespace n) (sp_Name params);
  if negb quiesced then return_result (n, true) else k.

Definition run_vault_import (n : ChainNode) (params : SignerParams) (sourceSecret want : string) : node_step bool :=
  quiesced_then n params
    (if negb (so_HasClientSet opts) then return_error (no_clientset "cosmosigner Vault uploadGenerated import") else
     ImportKey (job_runner n params) sourceSecret ;?
     (n ←? markCosmosignerKeyImported n want; return_result (n, false))).

Definition import_to_vault (n : ChainNode) (v : CosmosignerVaultBackend) (params : SignerParams)
    (sourceSecret keyMaterial : string) : node_step bool :=
  let want := VaultImportFingerprint v sourceSecret keyMaterial in
  let record := css_KeyImported (cn_Signer n) in
  if record == want then return_result (n, false) else
  '(n, adopted) ←? adoptTmKMSVaultImport n v params sourceSecret keyMaterial;
  if adopted : bool then return_result (n, false)
  else if VaultImportRecordMatches v (css_KeyImported (cn_Signer n)) sourceSecret keyMaterial then
    n ←? markCosmosignerKeyImported n want; return_result (n, false)
  else if VaultImportRecordMatchesTarget v (css_KeyImported (cn_Signer n)) sourceSecret then
    return_error (Errorf "cosmosigner Vault uploadGenerated source key changed after import; Vault cannot overwrite an existing transit key — migrate to a new Vault keyName" [])
  else run_vault_import n params sourceSecret want.

Definition verifyGcpImportedKey (n : ChainNode) (g : CosmosignerGcpKmsBackend) (params : SignerParams)
    (sourceSecret keyMaterial : string) : node_step bool :=
  if negb (so_HasClientSet opts) then return_error (no_clientset "cosmosigner GCP KMS import verification") else
  expected ←? PublicKeyFromSecret Cached (cn_Namespace n) sourceSecret;
  let keyVersion := css_ImportedKeyVersion (cn_Signer n) in
  imported ←? PublicKeyAtVersion (job_runner n params) keyVersion;
  if imported != expected then
    return_error (Errorf "cosmosigner imported key version %q serves a different consensus key than source secret %q; refusing to retarget the validator" [AStr keyVersion; AStr sourceSecret])
  else
    m ←? markCosmosignerKeyImported n (GcpImportFingerprint (Some g) sourceSecret keyMaterial);
    CleanupImportPod (job_runner n params) ≫= λ _, return_result (m, false).

Definition run_gcp_import (n : ChainNode) (g : CosmosignerGcpKmsBackend) (params : SignerParams)
    (sourceSecret keyMaterial : string) : node_step bool :=
  quiesced_then n params
    (if negb (so_HasClientSet opts) then return_error (no_clientset "cosmosigner GCP KMS import") else
     version ←? ImportKey (job_runner n params) sourceSecret;
     n ←? markCosmosignerImportedKeyVersion n version;
     CleanupImportPod (job_runner n params) ≫= λ _,
     '(n, _) ←? verifyGcpImportedKey n g params sourceSecret keyMaterial;
     return_result (n, true)).

Definition gcp_import_step (n : ChainNode) (g : CosmosignerGcpKmsBackend) (params : SignerParams)
    (sourceSecret keyMaterial : string) : node_step bool :=
  match NextGcpImportStep (Some g) (css_KeyImported (cn_Signer n)) (css_ImportedKeyVersion (cn_Signer n)) sourceSecret keyMaterial with
  | GcpImportComplete =>
      if so_HasClientSet opts then CleanupImportPod (job_runner n params) ≫= λ _, return_result (n, false)
      else return_result (n, false)
  | GcpImportSourceMissing =>
      if cosmosignerImportSourcePending n then return_result (n, true)
      else return_error (Errorf "cosmosigner GCP KMS import source secret %q is missing %s: retain the validator key until the imported version is verified" [AStr sourceSecret; AStr PrivKeyFilename])
  | GcpImportMismatch =>
      ScaleDown (OwnerChainNode n) (cn_Namespace n) (sp_Name params) ;?
      return_error (Errorf "cosmosigner GCP KMS import source key changed after import: %q already holds a different consensus key and Cosmopilot does not rotate validator consensus keys — migrate to a new gcpKms.import.key" [AStr (CryptoKeyName (gk_Import g))])
  | GcpImportVerify => quiesced_then n params (verifyGcpImportedKey n g params sourceSecret keyMaterial)
  | GcpImportRun => run_gcp_import n g params sourceSecret keyMaterial
  end.

Definition maybeImportCosmosignerKeyToGcp (n : ChainNode) (g : CosmosignerGcpKmsBackend) (params : SignerParams) : node_step bool :=
  let sourceSecret := cosmosignerNodeKeySecret n in
  if (css_ImportedKeyVersion (cn_Signer n) != "") && serves_desired n then return_result (n, false) else
  keyMaterial ←? read_key_material n sourceSecret;
  match (if keyMaterial != "" then LoadPrivKey keyMaterial ;; Ok () else Ok ()) with
  | Err e => return_error (source_invalid e "GCP KMS import" sourceSecret)
  | Ok _ => gcp_import_step n g params sourceSecret keyMaterial
  end.

Definition maybeImportCosmosignerKeyToVault (n : ChainNode) (v : CosmosignerVaultBackend) (params : SignerParams) : node_step bool :=
  let sourceSecret := cosmosignerNodeKeySecret n in
  if serves_desired n then return_result (n, false) else
  keyMaterial ←? read_key_material n sourceSecret;
  if keyMaterial == "" then
    if VaultImportRecordMatchesTarget v (css_KeyImported (cn_Signer n)) sourceSecret then return_result (n, false)
    else if cosmosignerImportSourcePending n then return_result (n, true)
    else return_error (source_missing "Vault uploadGenerated" sourceSecret)
  else match LoadPrivKey keyMaterial with
       | Err e => return_error (source_invalid e "Vault uploadGenerated" sourceSecret)
       | Ok _ => import_to_vault n v params sourceSecret keyMaterial
       end.

Definition import_to_configured_vault (n : ChainNode) (c : Cosmosigner) (params : SignerParams) : node_step bool :=
  match be_Vault (cs_Backend c) with
  | Some v => if VaultUploadsGenerated (Some c) (ShouldInitGenesis n) then maybeImportCosmosignerKeyToVault n v params
              else return_result (n, false)
  | None => return_result (n, false)
  end.
(** Whether the import is still pending. *)
Definition maybeImportCosmosignerKey (n : ChainNode) (c : Cosmosigner) (params : SignerParams) : node_step bool :=
  match be_GcpKMS (cs_Backend c) with
  | Some g => if GcpImportsKey (Some c) then maybeImportCosmosignerKeyToGcp n g params else import_to_configured_vault n c params
  | None => import_to_configured_vault n c params
  end.
End keys.
