(* ===== verification/NodeSigner.v ===== *)
(** * The signer of a standalone node ([cosmosigner.go], [reservation.go] of [internal/controllers/chainnode])

    How a node deploys, follows and removes its managed signer, and how it
    reserves the consensus key it signs with: the reservation comes before
    anything that signs. *)

From S2P Require Import Prelude GoLib IO ThirdParty Reference ApiTypes KubeApi KubePods PrivKey DerivedNames CosmosignerSpec SignerResolve Getters.
From S2P Require Import SigningNames SigningPaths Labels Migration MigrationControllers ResourceCleanup Deploy Teardown Reservation ReservationNode SignerRender SignerJobs TmKms NodeSignerKeys.

Definition with_locks (cs : ChainNodeSignerStatus) (replicas : option Z) (targeted : option bool) (size : string)
    (class : option string) : ChainNodeSignerStatus :=
  mkSignerStatus (css_SigningDigest cs) (css_AppliedDigest cs) (css_PublicKey cs) (css_Migration cs) (css_KeyImported cs)
    (css_ImportedKeyVersion cs) replicas targeted size class (css_AtEstablishment cs) (css_ServingIdentity cs).
Definition with_markers (cs : ChainNodeSignerStatus) (targeted : option bool) (establishment : option string) (serving : string) :
    ChainNodeSignerStatus :=
  mkSignerStatus (css_SigningDigest cs) (css_AppliedDigest cs) (css_PublicKey cs) (css_Migration cs) (css_KeyImported cs)
    (css_ImportedKeyVersion cs) (css_Replicas cs) targeted (css_StateStorageSize cs) (css_StateStorageClassName cs)
    establishment serving.
Definition with_served (cs : ChainNodeSignerStatus) (digest serving : string) : ChainNodeSignerStatus :=
  with_applied cs (css_AppliedDigest cs) (css_PublicKey cs) (css_Migration cs) digest serving.
Definition without_signer (cs : ChainNodeSignerStatus) : ChainNodeSignerStatus :=
  mkSignerStatus "" "" "" None "" "" None None "" None (css_AtEstablishment cs) "".

Definition update_node_status (n : ChainNode) : kube (result ()) := call (UpdateStatusChainNode n).
(** Out of fuel: the acquisition has not returned yet. *)
Definition still_running : error := Sentinel "still running".

Section signer.
Context `{MetaApi} `{ApplyApi} `{JsonApi} `{YamlApi} `{QuantityApi} `{PrivvalApi} `{RetryApi} `{TomlApi}.
Variable opts : SignerOptions.
(** The rounds an acquisition may take and the polls that fit into [timeoutPodDeleted]. *)
Variables fuel polls : nat.

(** ** The owner *)

Definition signer_recorded (n : ChainNode) : bool :=
  let cs := cn_Signer n in
  is_some (ns_Cosmosigner (cn_Spec n)) || is_some (css_Replicas cs) || (css_AppliedDigest cs != "") ||
  (css_SigningDigest cs != "") || (css_PublicKey cs != "") || is_some (css_Migration cs).
Definition prepareCosmosignerOwner (n : ChainNode) : node_step bool :=
  needsFinalizer ←? (if signer_recorded n then return_result true else HasOwnedSignerState (OwnerChainNode n) (cn_Namespace n));
  n ←? (if needsFinalizer && negb (ContainsFinalizer (cn_meta n) OwnerFinalizer) then
          let n := with_node_meta n (AddFinalizer (cn_meta n) OwnerFinalizer) in
          call (UpdateChainNode n) ;? return_result n
        else return_result n);
  if negb (ContainsFinalizer (cn_meta n) OwnerFinalizer) then return_result (n, false) else
  protected ←? ProtectRetainedStatePVCs (OwnerChainNode n) (cn_Namespace n);
  return_result (n, protected).

(** ** Status of older versions *)

Definition recoverStandaloneValidatorTarget (n : ChainNode) : kube (result bool) :=
  let name := [AStr (cosmosignerName n)] in
  got ← call (GetPod Cached (cn_Namespace n) (cn_Name n));
  match got with
  | Err e =>
      if IsNotFound e then return_error (Errorf "cosmosigner %q is live but its target pod is missing: restore the recorded target status before recovery" name)
      else return_error e
  | Ok pod =>
      if negb (IsControlledBy (pod_meta pod) (cn_meta n)) || (pod_label pod LabelCosmosignerTarget != cosmosignerName n) then
        return_error (Errorf "cosmosigner %q live target pod cannot be attributed to this ChainNode: restore the recorded target status before recovery" name)
      else if pod_label pod LabelValidator == StringValueTrue then return_result true
      else if pod_label pod LabelValidator == StringValueFalse then return_result false
      else return_error (Errorf "cosmosigner %q live target pod has no trustworthy validator marker: restore the recorded target status before recovery" name)
  end.

Definition legacy_validator_target (n : ChainNode) : kube (result bool) :=
  if (css_SigningDigest (cn_Signer n) != "") || (css_ServingIdentity (cn_Signer n) != "") then return_result true else
  got ← call (GetStatefulSet Cached (cn_Namespace n) (cosmosignerName n));
  match got with
  | Ok sts => if IsControlledBy (sts_meta sts) (cn_meta n) then recoverStandaloneValidatorTarget n
              else return_result (IsValidator n)
  | Err e => if IsNotFound e then return_result (IsValidator n) else return_error e
  end.

(** Whether the status was written; each mark is made when it is missing. *)
Definition backfillCosmosignerLegacyStatus (n : ChainNode) : node_step bool :=
  let cs := cn_Signer n in
  let identity := CosmosignerValidatorTargetedIdentity n in
  if nst_ChainID (cn_Status n) == "" then return_result (n, false) else
  let serving := if (css_SigningDigest cs != "") && (css_ServingIdentity cs == "") && (identity != "") then Some identity else None in
  let establishment := if is_some (css_AtEstablishment cs) then None
                       else Some (if css_SigningDigest cs != "" then identity else "") in
  let cs := with_markers cs (css_ValidatorTargeted cs)
              (match establishment with Some e => Some e | None => css_AtEstablishment cs end)
              (default (css_ServingIdentity cs) serving) in
  let n := with_signer_status n cs in
  targeted ←? (if negb (is_some (css_ValidatorTargeted cs)) && is_some (ns_Cosmosigner (cn_Spec n)) &&
                  (is_some (css_Replicas cs) || (css_StateStorageSize cs != "") || (css_SigningDigest cs != "") ||
                   (css_ServingIdentity cs != ""))
               then t ←? legacy_validator_target n; return_result (Some t)
               else return_result None);
  let n := match targeted with
           | Some t => with_signer_status n (with_markers cs (Some t) (css_AtEstablishment cs) (css_ServingIdentity cs))
           | None => n
           end in
  if is_some serving || is_some establishment || is_some targeted
  then update_node_status n ;? return_result (n, true) else return_result (n, false).

(** ** Locks *)

Definition live_or_requested (n : ChainNode) (c : Cosmosigner) (lock : SignerLock) (targeted : bool) : ChainNodeSignerStatus :=
  let cs := cn_Signer n in
  let '(size, class) :=
    if css_StateStorageSize cs == "" then default (GetStateStorageSize (Some c), cs_StorageClassName c) (sl_Storage lock)
    else (css_StateStorageSize cs, css_StateStorageClassName cs) in
  with_locks cs (Some (default (default (GetReplicas (Some c)) (sl_Replicas lock)) (css_Replicas cs)))
    (Some (default targeted (css_ValidatorTargeted cs))) size class.

Definition initCosmosignerLocks (n : ChainNode) (c : Cosmosigner) : node_step bool :=
  let cs := cn_Signer n in
  if negb (is_some (css_Replicas cs)) || (css_StateStorageSize cs == "") || negb (is_some (css_ValidatorTargeted cs)) then
    lock ←? ReadSignerLock (cn_meta n) (cn_Namespace n) (cosmosignerName n);
    targeted ←? (if negb (is_some (css_ValidatorTargeted cs)) && is_some (sl_Replicas lock)
                 then recoverStandaloneValidatorTarget n else return_result (IsValidator n));
    let n := with_signer_status n (live_or_requested n c lock targeted) in
    update_node_status n ;? return_result (n, true)
  else return_result (n, false).

Definition validateRecordedCosmosignerLocks (n : ChainNode) : result () :=
  match ns_Cosmosigner (cn_Spec n) with
  | None => Ok ()
  | Some c =>
      let cs := cn_Signer n in
      guard_err match css_Replicas cs with Some r => negb (r =? GetReplicas (Some c))%Z | None => false end
        (Errorf "cosmosigner replicas are immutable after deployment: changing them does not migrate the raft membership and can break quorum" []) ;;
      guard_err ((css_StateStorageSize cs != "") &&
                 negb (CosmosignerStateStorageEqual (css_StateStorageSize cs) (css_StateStorageClassName cs)
                         (GetStateStorageSize (Some c)) (cs_StorageClassName c)))
        (Errorf "cosmosigner state storage (size/class) is immutable after deployment: its raft state PVCs cannot be resized or moved — remove the signer and re-add it" [])
  end.
(** The locks are recorded, then checked; a fresh record ends the pass. *)
Definition locked (n : ChainNode) (c : Cosmosigner) (k : ChainNode → node_step bool) : node_step bool :=
  '(n, recorded) ←? initCosmosignerLocks n c;
  match validateRecordedCosmosignerLocks n with
  | Err e => return_error e
  | Ok _ => if recorded : bool then return_result (n, true) else k n
  end.

(** ** Keys that sign without a managed signer *)

Definition fallbackTmKMSPublicKey (n : ChainNode) (h : TmKmsHashicorpProvider) : kube (result string) :=
  if negb (so_HasClientSet opts) then return_error (no_clientset "cosmosigner fallback public-key preflight") else
  let image := if so_CosmosignerImage opts != "" then so_CosmosignerImage opts else DefaultCosmosignerImage in
  PublicKey (mkJobRunner (cn_meta n)
    (mkSignerParams (cosmosignerName n) (cn_Namespace n) "" (mkRoot "" "" "" "" "") "" image 0 "" "" "" None no_resources None
       (GetServiceAccountName (ns_Config (cn_Spec n))) []
       (vault_backend (mkVaultBackend (hc_Address h) (hc_Key h) 1 DefaultCosmosignerVaultMount "" (hc_TokenSecret h)
          (hc_CertificateSecret h) (hc_SkipCertificateVerify h))) ∅ ∅)).

(** The two checks of a selector differ in their messages. *)
Definition require_selector (prefix : string) (namespace purpose : string) (sel : option SecretKeySelector) : kube (result ()) :=
  match sel with
  | None => return_error (Errorf (prefix +:+ "%s secret selector must set both name and key") [AStr purpose])
  | Some sel =>
      if (sel_Name sel == "") || (sel_Key sel == "") then
        return_error (Errorf (prefix +:+ "%s secret selector must set both name and key") [AStr purpose])
      else
        got ← call (GetSecret Cached namespace (sel_Name sel));
        match got with
        | Err e => if IsNotFound e then return_error (Errorf (prefix +:+ "%s secret %q not found") [AStr purpose; AStr (sel_Name sel)])
                   else return_error e
        | Ok secret =>
            Ret (guard_err (empty_key secret (sel_Key sel))
              (Errorf (prefix +:+ "%s secret %q is missing required key %q") [AStr purpose; AStr (sel_Name sel); AStr (sel_Key sel)]))
        end
  end.
Definition requireFallbackTmKMSSecret : string → string → option SecretKeySelector → kube (result ()) :=
  require_selector "cosmosigner cannot be removed: ".
Definition requireTmKMSSecret : string → string → option SecretKeySelector → kube (result ()) := require_selector "tmKMS ".

Definition independentFallbackStateError (signer : string) : error :=
  Errorf "%s cannot be removed: the independent local/tmKMS fallback slash-protection state cannot be proven synchronized with cosmosigner; migrate to another managed signer or implement an explicit quiesce-and-state-transfer handoff" [AStr signer].
Definition requireMatchingFallbackPublicKey (signer recorded fallback : string) : result () :=
  if recorded == "" then
    Err (Errorf "%s cannot be removed: its applied public key was not recorded; restore the previous signer configuration for one reconcile before removing it" [AStr signer])
  else guard_err (fallback != recorded)
    (Errorf "%s cannot be removed: fallback signing public key does not match the applied signer public key" [AStr signer]).

(** A fallback for the validator the signer served; even a matching one is refused. *)
Definition fallback_verdict (n : ChainNode) (publicKey : string) : result () :=
  requireMatchingFallbackPublicKey "cosmosigner" (css_PublicKey (cn_Signer n)) publicKey ;;
  Err (independentFallbackStateError "cosmosigner").

Definition tmkms_fallback (n : ChainNode) (h : TmKmsHashicorpProvider) : kube (result ()) :=
  if (TrimSpace (hc_Address h) == "") || (TrimSpace (hc_Key h) == "") then
    return_error (Errorf "cosmosigner cannot be removed: tmKMS Hashicorp address and key are required" [])
  else if hc_SkipCertificateVerify h then
    return_error (Errorf "cosmosigner cannot be removed: tmKMS Vault TLS verification must be enabled for authenticated fallback preflight" [])
  else
    requireFallbackTmKMSSecret (cn_Namespace n) "tmKMS Vault token" (hc_TokenSecret h) ;?
    ((if is_some (hc_CertificateSecret h)
      then requireFallbackTmKMSSecret (cn_Namespace n) "tmKMS Vault certificate" (hc_CertificateSecret h) else return_result ()) ;?
     (publicKey ←? fallbackTmKMSPublicKey n h;
      Ret (fallback_verdict n publicKey))).

Definition local_fallback (n : ChainNode) (secretName : string) : kube (result ()) :=
  got ← call (GetSecret Cached (cn_Namespace n) secretName);
  match got with
  | Err e =>
      if IsNotFound e then return_error (Errorf "cosmosigner cannot be removed: local signing fallback secret %q not found" [AStr secretName])
      else return_error e
  | Ok secret =>
      if empty_key secret PrivKeyFilename then
        return_error (Errorf "cosmosigner cannot be removed: local signing fallback secret %q is missing required key %q" [AStr secretName; AStr PrivKeyFilename])
      else
        r ← PublicKeyFromSecret Cached (cn_Namespace n) secretName;
        match r with
        | Err e => return_error (Errorf "cosmosigner cannot be removed: local signing fallback secret %q contains an invalid %s" [AStr secretName; AStr PrivKeyFilename])
        | Ok publicKey => Ret (fallback_verdict n publicKey)
        end
  end.

Definition unserved_fallback (n : ChainNode) : kube (result ()) :=
  if bool_decide (css_ValidatorTargeted (cn_Signer n) = Some false) then return_result () else
  got ← call (GetStatefulSet Cached (cn_Namespace n) (cosmosignerName n));
  match got with
  | Err e => if IsNotFound e then return_result () else return_error e
  | Ok sts =>
      if IsControlledBy (sts_meta sts) (cn_meta n) then
        return_error (Errorf "cosmosigner cannot be removed: owned StatefulSet %q exists but its signing status is missing or incomplete; restore the signer status before teardown" [AStr (sts_Name sts)])
      else return_result ()
  end.

(** A signer that served the validator, as far as the status tells. *)
Definition served_validator (n : ChainNode) : bool :=
  let cs := cn_Signer n in
  (css_ServingIdentity cs != "") || default false (css_ValidatorTargeted cs) || (css_SigningDigest cs != "").

Definition preflightCosmosignerFallback (n : ChainNode) : kube (result ()) :=
  if is_some (ns_Cosmosigner (cn_Spec n)) then return_result ()
  else if negb (served_validator n) then unserved_fallback n
  else match ns_Validator (cn_Spec n) with
       | None => return_error (Errorf "cosmosigner cannot be removed: the validator it served has no fallback signing path" [])
       | Some v =>
           match vc_TmKMS v with
           | Some t =>
               match tk_Hashicorp t with
               | None => return_error (Errorf "cosmosigner cannot be removed: validator has no supported tmKMS provider configured" [])
               | Some h => tmkms_fallback n h
               end
           | None => local_fallback n (GetPrivKeySecretName (Some v) (cn_meta n))
           end
       end.

(** ** Removal *)

Definition signer_forgotten (cs : ChainNodeSignerStatus) : bool :=
  negb (is_some (css_Replicas cs)) && (css_SigningDigest cs == "") && (css_StateStorageSize cs == "") &&
  negb (is_some (css_StateStorageClassName cs)) && (css_AppliedDigest cs == "") && (css_PublicKey cs == "") &&
  negb (is_some (css_Migration cs)) && (css_KeyImported cs == "") && (css_ImportedKeyVersion cs == "") &&
  (css_ServingIdentity cs == "") && negb (is_some (css_ValidatorTargeted cs)).

Definition undeployCosmosigner (n : ChainNode) : node_step bool :=
  let name := cosmosignerName n in
  Undeploy (OwnerChainNode n) (cn_Namespace n) name ;?
  (tornDown ←? IsTornDown (cn_meta n) (cn_Namespace n) name;
   if negb tornDown then return_result (n, false)
   else if signer_forgotten (cn_Signer n) then return_result (n, true)
   else
     let n := with_signer_status n (without_signer (cn_Signer n)) in
     r ← update_node_status n;
     match r with
     | Err e => if IsConflict e then return_result (n, true) else return_error e
     | Ok _ => return_result (n, true)
     end).

(** ** Reservations *)

Definition ensureConsensusKeyReservation (chainID publicKey : string) (holder : ReservationHolder) : kube (result ()) :=
  r ← EnsureConsensusKeyReservationWithResult fuel chainID publicKey holder;
  match r with
  | Some result => Ret (er_Result result)
  | None => return_error still_running
  end.

(** [wait.PollUntilContextTimeout]: the pod is looked for at once and then at every interval. *)
Definition deadline_exceeded : error := Sentinel "context deadline exceeded".
Fixpoint poll_pod_gone (n : nat) (namespace name : string) : kube (result ()) :=
  match n with
  | O => return_error deadline_exceeded
  | S n =>
      got ← call (GetPod Cached namespace name);
      match got with
      | Err e => if IsNotFound e then return_result () else return_error e
      | Ok _ => poll_pod_gone n namespace name
      end
  end.

(** The conflict is what is returned, whatever else fails. *)
Definition quiesceValidatorOnReservationConflict (n : ChainNode) (conflict : error) : kube (result ()) :=
  got ← call (GetPod Cached (cn_Namespace n) (cn_Name n));
  match got with
  | Err e => if IsNotFound e then return_error conflict
             else return_error (Wrapf conflict "%w; failed to inspect the conflicting validator pod: %v" [])
  | Ok pod =>
      let names := [AStr (meta_Namespace (pod_meta pod)); AStr (pod_Name pod)] in
      if negb (IsControlledBy (pod_meta pod) (cn_meta n)) then
        return_error (Wrapf conflict "%w; refusing to delete non-owned pod %s/%s" names)
      else
        deleted ← (if is_some (meta_DeletionTimestamp (pod_meta pod)) then return_result ()
                   else call (DeleteObject "Pod" (meta_Namespace (pod_meta pod)) (pod_Name pod)));
        match (match deleted with Err e => if IsNotFound e then Ok () else Err e | Ok _ => Ok () end) with
        | Err e => return_error (Wrapf conflict "%w; failed to stop conflicting validator pod %s/%s: %v" names)
        | Ok _ =>
            polled ← poll_pod_gone polls (meta_Namespace (pod_meta pod)) (pod_Name pod);
            match polled with
            | Err e => return_error (Wrapf conflict "%w; timed out stopping conflicting validator pod %s/%s: %v" names)
            | Ok _ => return_error conflict
            end
        end
  end.

(** The set that controls a node holds its reservation. *)
Definition validatorReservationHolder (n : ChainNode) : ReservationHolder :=
  match GetControllerOf (cn_meta n) with
  | Some owner =>
      if or_Kind owner == "ChainNodeSet" then mkHolder (or_UID owner) (or_Kind owner) (cn_Namespace n) (or_Name owner) (cn_Name n) [] []
      else mkHolder (cn_UID n) "ChainNode" (cn_Namespace n) (cn_Name n) (cn_Name n) [] []
  | None => mkHolder (cn_UID n) "ChainNode" (cn_Namespace n) (cn_Name n) (cn_Name n) [] []
  end.

(** The key and the identity that was verified with it, [""] when none was. *)
Definition tmkms_consensus_key (n : ChainNode) (h : TmKmsHashicorpProvider) : kube (result (string * string)) :=
  let identity := EffectiveSigningIdentity n in
  let uploaded := annotation (cn_meta n) AnnotationVaultKeyUploaded == "true" in
  if ShouldUploadVaultKey n && negb uploaded then
    publicKey ←? PublicKeyFromSecret Cached (cn_Namespace n) (GetPrivKeySecretName (ns_Validator (cn_Spec n)) (cn_meta n));
    return_result (publicKey, "")
  else
    requireTmKMSSecret (cn_Namespace n) "Vault token" (hc_TokenSecret h) ;?
    ((if is_some (hc_CertificateSecret h) then requireTmKMSSecret (cn_Namespace n) "Vault certificate" (hc_CertificateSecret h)
      else return_result ()) ;?
     (let recorded := canonicalSDKPublicKey (nst_PubKey (cn_Status n)) in
      if (nst_TmKMSReservationIdentity (cn_Status n) == identity) && (recorded != "") then return_result (recorded, "")
      else publicKey ←? fallbackTmKMSPublicKey n h; return_result (publicKey, identity))).

Definition validatorConsensusPublicKey (n : ChainNode) : kube (result (string * string)) :=
  match ns_Validator (cn_Spec n) ≫= vc_TmKMS with
  | None =>
      publicKey ←? PublicKeyFromSecret Cached (cn_Namespace n) (GetPrivKeySecretName (ns_Validator (cn_Spec n)) (cn_meta n));
      return_result (publicKey, "")
  | Some t =>
      match tk_Hashicorp t with
      | None => return_error (Errorf "validator has no supported tmKMS provider configured" [])
      | Some h =>
          if (TrimSpace (hc_Address h) == "") || (TrimSpace (hc_Key h) == "") then
            return_error (Errorf "tmKMS Hashicorp address and key are required" [])
          else tmkms_consensus_key n h
      end
  end.

Definition with_tmkms_identity (n : ChainNode) (identity : string) : ChainNode :=
  mkChainNode (cn_meta n) (cn_Spec n) (nst_with_TmKMSReservationIdentity (cn_Status n) identity).

(** The recorded key of the validator on chain, when it can be read. *)
Definition onchain_key (n : ChainNode) (bad mismatch : error) (publicKey : string) : option error :=
  let recorded := nst_PubKey (cn_Status n) in
  if recorded == "" then None
  else
    let onChain := canonicalSDKPublicKey recorded in
    if onChain == "" then Some bad else if publicKey != onChain then Some mismatch else None.

Definition cannot_verify : error := Errorf "cannot verify the on-chain validator public key recorded in status" [].
Definition reserve_validator_key (n : ChainNode) (publicKey verifiedIdentity : string) : node_step bool :=
  r ← ensureConsensusKeyReservation (nst_ChainID (cn_Status n)) publicKey (validatorReservationHolder n);
  match r with
  | Err e =>
      if errors_is e ErrConsensusKeyReservationConflict
      then quiesceValidatorOnReservationConflict n e ;? return_result (n, false) else return_error e
  | Ok _ =>
      if (verifiedIdentity != "") && (nst_TmKMSReservationIdentity (cn_Status n) != verifiedIdentity) then
        let n := with_tmkms_identity n verifiedIdentity in
        update_node_status n ;? return_result (n, true)
      else return_result (n, false)
  end.

Definition ensureValidatorConsensusKeyReservation (n : ChainNode) : node_step bool :=
  if negb (IsValidator n) || (nst_ChainID (cn_Status n) == "") || is_some (ns_Cosmosigner (cn_Spec n)) ||
     ns_RemoteSignerTarget (cn_Spec n) then return_result (n, false) else
  '(publicKey, verifiedIdentity) ←? validatorConsensusPublicKey n;
  let mismatch := Errorf "validator signing public key does not match the on-chain public key recorded in status; Cosmopilot does not rotate validator consensus keys" [] in
  match onchain_key n cannot_verify mismatch publicKey with
  | Some e => if e == mismatch then quiesceValidatorOnReservationConflict n mismatch ;? return_result (n, false) else return_error e
  | None => reserve_validator_key n publicKey verifiedIdentity
  end.

(** ** Deployment *)

Definition apply_each (n : ChainNode) : list Managed → kube (result ()) := for_each_call (applyCosmosignerObject n).

(** What the rollout of a validator's signer records, and when. *)
Definition record_served (n : ChainNode) (params : SignerParams) : node_step bool :=
  let cs := cn_Signer n in
  let needDigest := (css_SigningDigest cs == "") && IsValidator n in
  let needServing := (css_ServingIdentity cs == "") && (css_SigningDigest cs != "") && IsValidator n in
  if needDigest || needServing then
    rolledOut ←? IsRolledOut (cn_Namespace n) (sp_Name params) (sp_Replicas params);
    if rolledOut : bool then
      let n := with_signer_status n (with_served cs (if needDigest then CosmosignerSigningDigest n else css_SigningDigest cs)
                 (CosmosignerValidatorTargetedIdentity n)) in
      update_node_status n ;? return_result (n, false)
    else return_result (n, false)
  else return_result (n, false).

Definition apply_signer_set (n : ChainNode) (params : SignerParams) (configYAML : string) : kube (result ()) :=
  match signer_StatefulSet params configYAML with
  | Err e => return_error e
  | Ok sts =>
      match LifecycleDigest params (CosmosignerSigningDigest n) with
      | Err e => return_error e
      | Ok digest => applyCosmosignerObject n (ManagedSts (SetLifecycleDigest sts digest))
      end
  end.

(** Configuration, services and policy first; the set only once nothing is left to import. *)
Definition deploy_signer (n : ChainNode) (params : SignerParams) (importPending : bool) : node_step bool :=
  match ConfigYAML params with
  | Err e => return_error e
  | Ok configYAML =>
      match ConfigMap params configYAML with
      | Err e => return_error e
      | Ok configMap =>
          apply_each n [ManagedObj configMap; ManagedObj (RaftService params); ManagedObj (DiscoveryService params);
                        ManagedObj (NetworkPolicy params)] ;?
          (if importPending then ScaleDown (OwnerChainNode n) (cn_Namespace n) (sp_Name params) ;? return_result (n, false)
           else apply_signer_set n params configYAML ;? record_served n params)
      end
  end.

(** Whether to wait. *)
Definition ensureCosmosignerWithParams (n : ChainNode) (c : Cosmosigner) (params : SignerParams) : node_step bool :=
  locked n c (λ n,
    '(n, importPending) ←? maybeImportCosmosignerKey opts n c params;
    deploy_signer n params importPending).

(** ** Preflight *)

Definition quiesceManagedCosmosigner (n : ChainNode) (name : string) (cause : error) : kube (result ()) :=
  r ← ScaleDown (OwnerChainNode n) (cn_Namespace n) name;
  match r with
  | Err _ => return_error (Wrapf cause "%w; failed to scale down cosmosigner %q: %v" [AStr name])
  | Ok _ => return_error cause
  end.

(** The signer can be deployed at all. *)
Definition preflight_deployable (n : ChainNode) (c : Cosmosigner) : kube (result ()) :=
  let cs := cn_Signer n in
  let requireRetainedState := RetainedStateRequired (chainnode_established n) (css_Migration cs) in
  let replicas := match css_Replicas cs with
                  | Some r => if requireRetainedState then r else GetReplicas (Some c)
                  | None => GetReplicas (Some c)
                  end in
  PreflightDeployable (cn_meta n) (cn_Namespace n) (cosmosignerName n) replicas
    (ImportsGeneratedKey (Some c) (ShouldInitGenesis n)) (UsesPubkeyPod (Some c) (ShouldInitGenesis n)) requireRetainedState.

(** The key of a live signer the status has lost, [""] when there is none. *)
Definition recovered_signing_key (n : ChainNode) (params : SignerParams) : kube (result string) :=
  let cs := cn_Signer n in
  if (css_AppliedDigest cs == "") && (css_SigningDigest cs == "") then
    r ← RecoveredSigningPublicKey (cn_meta n) params;
    match r with
    | Err e => quiesceManagedCosmosigner n (sp_Name params) e ;? return_result ""
    | Ok (recovered, live) => return_result (if live : bool then recovered else "")
    end
  else return_result "".

Definition expected_public_key (n : ChainNode) (c : Cosmosigner) (params : SignerParams) : kube (result string) :=
  publicKey ←? recovered_signing_key n params;
  if publicKey == "" then
    preflightCosmosignerImportSource n c ;? cosmosignerPublicKey opts n c params
  else return_result publicKey.

(** Why the validator may not sign with this key. *)
Definition key_refusal (n : ChainNode) (publicKey : string) : option error :=
  if IsValidator n then
    match onchain_key n (Errorf "cosmosigner cannot verify the on-chain validator public key recorded in status" [])
            (Errorf "cosmosigner public key does not match the on-chain validator public key recorded in status; Cosmopilot does not rotate validator consensus keys" [])
            publicKey with
    | Some e => Some e
    | None =>
        let applied := css_PublicKey (cn_Signer n) in
        if (applied != "") && (publicKey != applied) then
          Some (Errorf "cosmosigner cannot change a validator public key after rollout because the replacement would not inherit its slash-protection history" [])
        else None
    end
  else None.

Definition signer_holder (n : ChainNode) : ReservationHolder :=
  mkHolder (cn_UID n) "ChainNode" (cn_Namespace n) (cn_Name n) (standaloneCosmosignerReservationClaim n) [] [].

Definition reserve_signer_key (n : ChainNode) (name publicKey : string) : kube (result ()) :=
  r ← ensureConsensusKeyReservation (nst_ChainID (cn_Status n)) publicKey (signer_holder n);
  match r with
  | Ok _ => return_result ()
  | Err e =>
      if errors_is e ErrConsensusKeyReservationConflict then
        scaled ← ScaleDown (OwnerChainNode n) (cn_Namespace n) name;
        let e := match scaled with
                 | Err _ => Wrapf e "%w; failed to scale down conflicting cosmosigner %q: %v" [AStr name]
                 | Ok _ => e
                 end in
        if IsValidator n then quiesceValidatorOnReservationConflict n e else return_error e
      else return_error e
  end.

Definition preflightCosmosigner (n : ChainNode) (c : Cosmosigner) : node_step SignerParams :=
  RequireRaftTLSSecret (cn_Namespace n) (cs_RaftTLSSecret c) ;?
  ('(n, params) ←? cosmosignerParams opts n c;
   RequireServiceAccount (cn_Namespace n) (signer_GetServiceAccountName c) ;?
   (preflight_deployable n c ;?
    (publicKey ←? expected_public_key n c params;
     match key_refusal n publicKey with
     | Some e => quiesceManagedCosmosigner n (sp_Name params) e ;? return_result (n, params)
     | None => reserve_signer_key n (sp_Name params) publicKey ;? return_result (n, with_expected_key params publicKey)
     end))).

(** ** The pass *)

(** The node keeps waiting while a removed signer is torn down. *)
Definition ensureCosmosigner (n : ChainNode) : node_step bool :=
  match ns_Cosmosigner (cn_Spec n) with
  | None =>
      preflightCosmosignerFallback n ;?
      ('(n, tornDown) ←? undeployCosmosigner n; return_result (n, negb tornDown))
  | Some c =>
      if nst_ChainID (cn_Status n) == "" then return_result (n, false) else
      '(n, params) ←? preflightCosmosigner n c;
      ensureCosmosignerWithParams n c params
  end.

Definition claims_settled (n : ChainNode) : node_step bool :=
  reconciled ←? reconcileConsensusKeyReservationClaims n; return_result (n, negb reconciled).

(** The signer is rolled out, marked and recorded before old claims are released. *)
Definition after_deployment (n : ChainNode) (params : SignerParams) : node_step bool :=
  rolledOut ←? IsRolledOut (cn_Namespace n) (sp_Name params) (sp_Replicas params);
  if negb rolledOut then return_result (n, true) else
  marked ←? MarkEverRolledOut (cn_Namespace n) (sp_Name params) (sp_Replicas params);
  if negb marked then return_result (n, true) else
  '(n, _) ←? recordCosmosignerAppliedState n (migration_params params);
  claims_settled n.

Definition reconcile_managed_signer (n : ChainNode) (c : Cosmosigner) (params : SignerParams) : node_step bool :=
  locked n c (λ n,
    pending ←? reconcileCosmosignerMigration n (migration_params params);
    if pending : bool then return_result (n, true) else
    '(n, importPending) ←? maybeImportCosmosignerKey opts n c params;
    if importPending : bool then return_result (n, true) else
    '(n, wait) ←? ensureCosmosignerWithParams n c params;
    if wait : bool then return_result (n, true) else
    after_deployment n params).

Definition reconcile_without_signer (n : ChainNode) : node_step bool :=
  n ←? (if negb (ns_RemoteSignerTarget (cn_Spec n)) then ensureTmKMSConfig n else return_result n);
  '(n, pending) ←? ensureCosmosigner n;
  if pending : bool then return_result (n, true) else claims_settled n.

Definition reconcileSigningConfigs (n : ChainNode) : node_step bool :=
  '(n, recorded) ←? ensureValidatorConsensusKeyReservation n;
  if recorded : bool then return_result (n, true) else
  match ns_Cosmosigner (cn_Spec n) with
  | None => reconcile_without_signer n
  | Some c =>
      if nst_ChainID (cn_Status n) == "" then return_result (n, false) else
      '(n, params) ←? preflightCosmosigner n c;
      reconcile_managed_signer n c params
  end.
End signer.
