(* ===== verification/NodeSigning.v ===== *)
(** * What a signing pass of a node may do

    [reconcileSigningConfigs] deploys the signer of a node only after the
    reservation of the consensus key it is told to sign with was acquired in the
    same pass, and only with a key the validator may sign with.  Every other
    routine of the pass leaves the workloads that sign alone, scales them to
    zero or deletes them. *)

From S2P Require Import Prelude GoLib IO ThirdParty Reference ApiTypes KubeApi FakeServer KubePods PrivKey DerivedNames CosmosignerSpec SignerResolve Getters.
From S2P Require Import SigningNames SigningPaths Labels Migration MigrationControllers ResourceCleanup Deploy Teardown Reservation ReservationNode SignerRender SignerJobs TmKms NodeSignerKeys NodeSigner.

(** ** Requests that start nothing *)

(** Requests that neither make nor resume a workload that signs: a StatefulSet is only scaled to zero. *)
Definition starts_nothing (r : request) : Prop :=
  match r with
  | CreateStatefulSet _ | CreatePod _ => False
  | UpdateStatefulSet s => sts_Replicas s = Some 0%Z
  | _ => True
  end.
Abbreviation quiet := (only starts_nothing).

Section quiet.
Context `{MetaApi}.

Lemma quiet_ignoring_not_found {A B} (m : kube (result A)) (k : kube (result B)) : quiet m → quiet k → quiet (ignoring_not_found m k).
Proof. intros Hm Hk. unfold ignoring_not_found. only_walk. Qed.
Lemma quiet_confirm_absent {A B} (m : kube (result A)) (k1 k2 : kube (result B)) :
  quiet m → quiet k1 → quiet k2 → quiet (confirm_absent m k1 k2).
Proof. intros Hm H1 H2. unfold confirm_absent. only_walk. Qed.
#[local] Hint Resolve quiet_ignoring_not_found quiet_confirm_absent : only.
Lemma quiet_for_each {A} (f : A → kube (result ())) l : (∀ x, quiet (f x)) → quiet (for_each_call f l).
Proof. intros Hf. induction l as [|x l IH]; cbn [for_each_call]; only_walk. Qed.
Lemma quiet_all_in_turn {A} (f : A → kube (result bool)) l : (∀ x, quiet (f x)) → quiet (all_in_turn f l).
Proof. intros Hf. induction l as [|x l IH]; cbn [all_in_turn]; only_walk. Qed.

(** *** Reservations *)

#[local] Hint Resolve quiet_for_each quiet_all_in_turn : only.
Section reservations.
Context `{JsonApi}.

Lemma quiet_checks chainID publicKey holder : quiet (ensure_checks chainID publicKey holder).
Proof. unfold ensure_checks, ensureNoConflictingReservationClaim, ensureNoLegacyConsensusKeyOwner. only_walk. Qed.
Lemma quiet_delete_reservation r : quiet (delete_and_confirm r).
Proof. unfold delete_and_confirm. apply quiet_ignoring_not_found, quiet_confirm_absent; only_walk. Qed.
#[local] Hint Resolve quiet_checks quiet_delete_reservation : only.
Lemma quiet_recover r chainID publicKey holder : quiet (recoverStaleConsensusKeyReservation r chainID publicKey holder).
Proof.
  unfold recoverStaleConsensusKeyReservation, reservationOwnerIsStale, staleReservationSigningPathsGone,
    ensureNoConflictingReservationClaim, ensureNoLegacyConsensusKeyOwner. only_walk.
Qed.
#[local] Hint Resolve quiet_recover : only.
Lemma quiet_ensure_loop fuel chainID publicKey holder recovered : quiet (ensure_loop fuel chainID publicKey holder recovered).
Proof. revert recovered. induction fuel as [|fuel IH]; intros recovered; cbn [ensure_loop]; only_walk. Qed.
#[local] Hint Resolve quiet_ensure_loop : only.
Lemma quiet_Ensure fuel chainID publicKey holder : quiet (EnsureConsensusKeyReservationWithResult fuel chainID publicKey holder).
Proof. unfold EnsureConsensusKeyReservationWithResult. only_walk. Qed.
#[local] Hint Resolve quiet_Ensure : only.
Lemma quiet_ensureReservation fuel chainID publicKey holder : quiet (ensureConsensusKeyReservation fuel chainID publicKey holder).
Proof. unfold ensureConsensusKeyReservation. only_walk. Qed.
Lemma quiet_release owner r : quiet (ReleaseConsensusKeyReservationClaim owner r).
Proof. unfold ReleaseConsensusKeyReservationClaim. only_walk. Qed.
#[local] Hint Resolve quiet_release : only.
Lemma quiet_standalone_paths n desired : quiet (standaloneCosmosignerReservationSigningPathsGone n desired).
Proof. unfold standaloneCosmosignerReservationSigningPathsGone, current_signer. only_walk. Qed.
#[local] Hint Resolve quiet_standalone_paths : only.
Lemma quiet_claims n : quiet (reconcileConsensusKeyReservationClaims n).
Proof.
  unfold reconcileConsensusKeyReservationClaims. only_walk. apply quiet_all_in_turn. intros r. unfold reconcile_claim. only_walk.
Qed.
End reservations.

Lemma quiet_poll polls namespace name : quiet (poll_pod_gone polls namespace name).
Proof. induction polls as [|polls IH]; cbn [poll_pod_gone]; only_walk. Qed.
#[local] Hint Resolve quiet_poll : only.
Lemma quiet_quiesce_validator polls n e : quiet (quiesceValidatorOnReservationConflict polls n e).
Proof. unfold quiesceValidatorOnReservationConflict. only_walk. Qed.

(** *** The signer workload *)

Lemma quiet_pods_gone via namespace name : quiet (SignerPodsGone via namespace name).
Proof. unfold SignerPodsGone. only_walk. Qed.
#[local] Hint Resolve quiet_pods_gone : only.
Lemma quiet_ScaleDown owner namespace name : quiet (ScaleDown owner namespace name).
Proof. unfold ScaleDown. only_walk. Qed.
#[local] Hint Resolve quiet_ScaleDown : only.
Lemma quiet_quiesce_managed n name cause : quiet (quiesceManagedCosmosigner n name cause).
Proof. unfold quiesceManagedCosmosigner. only_walk. Qed.
Lemma quiet_unsafe sts cause : quiet (quiesceUnsafeRetainedState sts cause).
Proof. unfold quiesceUnsafeRetainedState. only_walk. Qed.
#[local] Hint Resolve quiet_unsafe : only.
Lemma quiet_foreign_claims owner namespace name : quiet (ensureNoForeignDataPVCs owner namespace name).
Proof. unfold ensureNoForeignDataPVCs. only_walk. Qed.
Lemma quiet_retained_claims owner namespace name replicas : quiet (ensureRetainedDataPVCs owner namespace name replicas).
Proof. unfold ensureRetainedDataPVCs. apply quiet_for_each. intros i. only_walk. Qed.
#[local] Hint Resolve quiet_foreign_claims quiet_retained_claims : only.
Lemma quiet_preflight_claims owner namespace name replicas required sts :
  quiet (preflight_claims owner namespace name replicas required sts).
Proof. unfold preflight_claims. only_walk. Qed.
Lemma quiet_replica_names namespace name replicas sts : quiet (ensureReplicaPodNamesAvailable namespace name replicas sts).
Proof. unfold ensureReplicaPodNamesAvailable. apply quiet_for_each. intros i. only_walk. Qed.
Lemma quiet_headless owner namespace kind name : quiet (ensureHeadlessServiceDeployable owner namespace kind name).
Proof. unfold ensureHeadlessServiceDeployable. only_walk. Qed.
#[local] Hint Resolve quiet_preflight_claims quiet_replica_names quiet_headless : only.
Lemma quiet_foreign_objects owner l :
  Forall (λ p : string * kube (result ObjectMeta), quiet p.2) l →
  quiet (for_each_call (λ '(kind, get), ensureNoForeignObject owner kind get) l).
Proof.
  induction 1 as [|[kind get] l Hg _ IH]; cbn [for_each_call]; [done|]. apply only_try; [|done].
  unfold ensureNoForeignObject. only_walk.
Qed.
Lemma quiet_PreflightDeployable owner namespace name replicas usesImportPod usesPubkeyPod required :
  quiet (PreflightDeployable owner namespace name replicas usesImportPod usesPubkeyPod required).
Proof.
  unfold PreflightDeployable. only_walk. apply quiet_foreign_objects.
  assert (∀ kind n, quiet (get_object_meta kind namespace n)) as K1 by (intros; unfold get_object_meta; only_walk).
  assert (∀ n, quiet (get_pod_meta namespace n)) as K2 by (intros; unfold get_pod_meta; only_walk).
  destruct usesImportPod, usesPubkeyPod; cbn [app]; repeat (apply Forall_cons; split; [apply K1 || apply K2|]); apply Forall_nil_2.
Qed.

Lemma quiet_IsTornDown owner namespace name : quiet (IsTornDown owner namespace name).
Proof.
  unfold IsTornDown, unless_own, get_pod_meta, get_object_meta, get_sts_meta, OwnedPVCsGone, DiscoveryEndpointsGone. only_walk.
Qed.
Lemma quiet_recovered owner p `{YamlApi} : quiet (RecoveredSigningPublicKey owner p).
Proof. unfold RecoveredSigningPublicKey. only_walk. Qed.
End quiet.

(** ** What is read before the key is reserved *)

Section reads.
Context `{MetaApi} `{ApplyLaws} `{JsonApi} `{YamlApi} `{QuantityApi} `{PrivvalApi} `{RetryLaws} `{TomlApi}.
Variable opts : SignerOptions.

Lemma quiet_retry {A} (fn : kube (result A)) : quiet fn → quiet (RetryOnConflict fn).
Proof.
  intros Hq. eapply (spec_only _ (λ _ r, starts_nothing r) []); [done|]. apply (retry_spec A). intros h _.
  eapply only_spec; [|exact Hq]. done.
Qed.
#[local] Hint Resolve quiet_retry : only.

Lemma quiet_PublicKeyFromSecret via namespace name : quiet (PublicKeyFromSecret via namespace name).
Proof. unfold PublicKeyFromSecret. only_walk. Qed.
Lemma quiet_selector namespace purpose sel : quiet (RequireSecretSelector namespace purpose sel).
Proof. unfold RequireSecretSelector. only_walk. Qed.
Lemma quiet_require prefix namespace purpose sel : quiet (require_selector prefix namespace purpose sel).
Proof. unfold require_selector. only_walk. Qed.
Lemma quiet_import_status n mutate : quiet (updateCosmosignerImportStatus n mutate).
Proof. unfold updateCosmosignerImportStatus. only_walk. apply quiet_retry. only_walk. Qed.
#[local] Hint Resolve quiet_PublicKeyFromSecret quiet_selector quiet_require quiet_import_status : only.
Lemma quiet_backend n c : quiet (cosmosignerBackend n c).
Proof.
  unfold cosmosignerBackend, recover_key_version, check_software_secret, markCosmosignerImportedKeyVersion. only_walk.
Qed.
#[local] Hint Resolve quiet_backend : only.
Lemma quiet_params n c : quiet (cosmosignerParams opts n c).
Proof. unfold cosmosignerParams. only_walk. Qed.
Lemma quiet_import_source n c : quiet (preflightCosmosignerImportSource n c).
Proof. unfold preflightCosmosignerImportSource. only_walk. Qed.

(** *** Pods that are made before the reservation *)

Definition import_pod_name (n : ChainNode) : string := cosmosignerName n +:+ "-" +:+ importJobSuffix.
(** No workload that signs is made or resumed and no key is imported. *)
Definition starts_no_signer (n : ChainNode) (r : request) : Prop :=
  match r with
  | CreatePod p => pod_Name p ≠ import_pod_name n
  | _ => starts_nothing r
  end.

Lemma quiet_no_signer n {A} (m : kube A) : quiet m → only (starts_no_signer n) m.
Proof. apply only_mono. by intros []. Qed.
#[local] Hint Resolve quiet_no_signer : only.

Lemma pubkey_no_import n : cosmosignerName n +:+ "-" +:+ pubkeyJobSuffix ≠ import_pod_name n.
Proof. unfold import_pod_name. intros E. by apply string_app_inj_l in E. Qed.
Lemma tmkms_no_import n suffix : tmkms_name n +:+ suffix ≠ import_pod_name n.
Proof.
  unfold import_pod_name, tmkms_name, cosmosignerName. rewrite !string_app_assoc. intros E. by apply string_app_inj_l in E.
Qed.

(** The job that reads a public key. *)
Lemma publicKey_no_signer n j keyVersion :
  sp_Name (jr_Params j) = cosmosignerName n → only (starts_no_signer n) (publicKey j keyVersion).
Proof.
  intros En. unfold publicKey. destruct (buildPubkeyPod j keyVersion) as [pod|e] eqn:Eb; [|exact I].
  apply only_try; [|by intros]. destruct (SetControllerReference (jr_Owner j) (pod_meta pod)) as [m|e] eqn:Em.
  2:{ unfold runJob. by rewrite Em. }
  eapply (spec_only _ _ []); [|by apply runJob_promise]. intros h [] Hr; try done.
  destruct Hr as [-> _]. change (meta_Name m ≠ import_pod_name n).
  apply SetControllerReference_name in Em as [-> _].
  unfold buildPubkeyPod, buildPod in Eb. destruct (volumes _) as [vols|e]; [|done]. injection Eb as <-. simpl.
  rewrite En. apply pubkey_no_import.
Qed.
Lemma PublicKey_no_signer n j : sp_Name (jr_Params j) = cosmosignerName n → only (starts_no_signer n) (PublicKey j).
Proof. apply publicKey_no_signer. Qed.
#[local] Hint Resolve PublicKey_no_signer : only.
Lemma fallback_key_no_signer n h : only (starts_no_signer n) (fallbackTmKMSPublicKey opts n h).
Proof. unfold fallbackTmKMSPublicKey. only_walk. Qed.
Lemma backend_key_no_signer n m params :
  sp_Name params = cosmosignerName n → only (starts_no_signer n) (backend_public_key opts m params).
Proof. intros En. unfold backend_public_key. only_walk. Qed.
#[local] Hint Resolve fallback_key_no_signer backend_key_no_signer : only.
Lemma public_key_no_signer n m c params :
  sp_Name params = cosmosignerName n → only (starts_no_signer n) (cosmosignerPublicKey opts m c params).
Proof. intros En. unfold cosmosignerPublicKey. only_walk. Qed.
Lemma validator_key_no_signer n : only (starts_no_signer n) (validatorConsensusPublicKey opts n).
Proof. unfold validatorConsensusPublicKey, tmkms_consensus_key, requireTmKMSSecret. only_walk. Qed.
Lemma fallback_no_signer n : only (starts_no_signer n) (preflightCosmosignerFallback opts n).
Proof.
  unfold preflightCosmosignerFallback, unserved_fallback, tmkms_fallback, local_fallback, requireFallbackTmKMSSecret. only_walk.
Qed.

(** The pods of tmKMS. *)
Lemma once_pod_no_signer n k suffix podSpec pod after :
  kms_Name k = tmkms_name n → once_pod k (kms_Name k +:+ suffix) podSpec = Ok pod →
  (∀ h ph, spec (λ _ r, pod_read r) h (after ph) (λ _ _, True)) → only (starts_no_signer n) (run_once pod after).
Proof.
  intros En Ep Ha. eapply (spec_only _ _ []); [|apply (run_once_spec pod after _ Ha)].
  intros h [] Hr; try done. simpl in Hr. subst p. unfold once_pod in Ep.
  destruct (SetControllerReference _ _) as [m|e] eqn:Em; [|done]. apply SetControllerReference_name in Em as [Em _].
  injection Ep as <-. change (meta_Name m ≠ import_pod_name n). rewrite Em. simpl. rewrite En. apply tmkms_no_import.
Qed.
Lemma generate_no_signer n k : kms_Name k = tmkms_name n → only (starts_no_signer n) (generateKmsIdentityKey k).
Proof.
  intros En. unfold generateKmsIdentityKey. destruct (once_pod _ _ _) as [pod|e] eqn:Ep; [|exact I].
  eapply once_pod_no_signer; [done|exact Ep|]. intros h ph. rewrite spec_try.
  eapply spec_conseq; [apply GetLogs_spec|]. by intros h1 [] _ _.
Qed.
Lemma deploy_config_no_signer n k : kms_Name k = tmkms_name n → only (starts_no_signer n) (DeployConfig k).
Proof.
  intros En. unfold DeployConfig, ensureIdentityKey, ensureConfigMap, ensurePVC.
  pose proof (generate_no_signer n k En) as Hg. only_walk.
Qed.
Lemma upload_no_signer n p k payload : kms_Name k = tmkms_name n → only (starts_no_signer n) (UploadKey p k payload).
Proof.
  intros En. unfold UploadKey. destruct (hp_Keys p) as [|key [|]]; [exact I| |exact I].
  destruct (once_pod _ _ _) as [pod|e] eqn:Ep; [|exact I]. apply only_try; [|by intros].
  by eapply once_pod_no_signer.
Qed.
Lemma getTmkms_name n p k : getTmkms n = Ok (p, k) → kms_Name k = tmkms_name n.
Proof.
  unfold getTmkms. destruct (_ ≫= _) as [t|]; [|done]. destruct (tk_Hashicorp t) as [h|]; [|done].
  destruct (NewHashicorpProvider _ _ _ _ _ _ _) as [provider|e]; [|done]. by intros [= _ <-].
Qed.
Lemma tmkms_config_no_signer n : only (starts_no_signer n) (ensureTmKMSConfig n).
Proof.
  unfold ensureTmKMSConfig, loadPrivKey, UndeployConfig. destruct (negb (UsesTmKms n)); [only_walk|].
  destruct (getTmkms n) as [[p k]|e] eqn:Eg; [|exact I]. apply getTmkms_name in Eg.
  pose proof (deploy_config_no_signer n k Eg). assert (∀ key, only (starts_no_signer n) (UploadKey p k key)) by (intros; by apply upload_no_signer).
  only_walk.
Qed.
End reads.

(** ** The evidence a deployment needs *)

Section evidence.
Context `{MetaApi} `{JsonApi} `{YamlApi} `{QuantityApi}.
Variable fuel : nat.
Variable n : ChainNode.

(** The status the pass works with: that of the node it was given, or of a later read of it. *)
Definition known_status (st : ChainNodeStatus) (h : list kevent) : Prop :=
  ∃ st0, (st0 = cn_Status n ∨
          ∃ fresh, Ev (GetChainNode Cached (cn_Namespace n) (cn_Name n)) (Ok fresh) ∈ h ∧ st0 = cn_Status fresh) ∧
    nst_ChainID st = nst_ChainID st0 ∧ nst_PubKey st = nst_PubKey st0 ∧
    css_PublicKey (nst_Cosmosigner st) = css_PublicKey (nst_Cosmosigner st0).
Definition in_hand (m : ChainNode) (h : list kevent) : Prop :=
  cn_Spec m = cn_Spec n ∧ cn_Name m = cn_Name n ∧ cn_Namespace m = cn_Namespace n ∧ cn_UID m = cn_UID n ∧
  known_status (cn_Status m) h.

(** A validator signs with its key on chain and never changes the key of its signer. *)
Definition may_sign_with (m : ChainNode) (key : string) : Prop :=
  IsValidator m = true →
  (nst_PubKey (cn_Status m) ≠ "" → canonicalSDKPublicKey (nst_PubKey (cn_Status m)) = key) ∧
  (css_PublicKey (cn_Signer m) ≠ "" → css_PublicKey (cn_Signer m) = key).

(** An acquisition of the key ran from its first request to its end and reported success. *)
Definition acquired_for (m : ChainNode) (key : string) (h : list kevent) : Prop :=
  ∃ h1 h0 res, h1 ++ h0 `suffix_of` h ∧ er_Result res = Ok () ∧
    observes (EnsureConsensusKeyReservationWithResult fuel (nst_ChainID (cn_Status m)) key (signer_holder m)) h1 (Ret (Some res)).

(** The key and chain the signer is configured with are reserved for this node. *)
Definition reserved_params (p : SignerParams) (h : list kevent) : Prop :=
  ∃ m, in_hand m h ∧ sp_ChainID p = nst_ChainID (cn_Status m) ∧
    may_sign_with m (sp_ExpectedPublicKey p) ∧ acquired_for m (sp_ExpectedPublicKey p) h.

(** The pods of the set are those rendered for a reserved key. *)
Definition signs_reserved (s : StatefulSet) (h : list kevent) : Prop :=
  ∃ p configYAML sts, reserved_params p h ∧ ConfigYAML p = Ok configYAML ∧
    signer_StatefulSet p configYAML = Ok sts ∧ sts_PodSpec s = sts_PodSpec sts.
(** A set that was read, with a mark or its claims kept: its pods and replicas stay. *)
Definition keeps_pods (s : StatefulSet) (h : list kevent) : Prop :=
  ∃ live ns name, Ev (GetStatefulSet Cached ns name) (Ok live) ∈ h ∧
    (s = with_annotation live EverRolledOutAnnotation "true" ∨ s = with_retention live retain_all).

Definition deployment_ok (h : list kevent) (r : request) : Prop :=
  match r with
  | CreateStatefulSet s => signs_reserved s h
  | UpdateStatefulSet s => sts_Replicas s = Some 0%Z ∨ keeps_pods s h ∨ signs_reserved s h
  | CreatePod p => pod_Name p = import_pod_name n → ∃ q, reserved_params q h
  | _ => True
  end.

#[export] Instance known_status_stable st : Stable (known_status st).
Proof. unfold known_status. apply _. Qed.
#[export] Instance in_hand_stable m : Stable (in_hand m).
Proof. unfold in_hand. apply _. Qed.
#[export] Instance acquired_stable m key : Stable (acquired_for m key).
Proof. intros h h' Hs (h1 & h0 & res & Hh & Hr). exists h1, h0, res. split; [by etrans|done]. Qed.
#[export] Instance reserved_params_stable p : Stable (reserved_params p).
Proof. unfold reserved_params. apply _. Qed.

Lemma in_hand_self h : in_hand n h.
Proof. split_and!; try done. exists (cn_Status n). split; [by left|done]. Qed.

Lemma no_signer_ok h r : starts_no_signer n r → deployment_ok h r.
Proof. destruct r; simpl; try done. by left. Qed.
Lemma no_signer_spec {A} h (m : kube A) : only (starts_no_signer n) m → spec deployment_ok h m (λ _ _, True).
Proof. apply only_spec. apply no_signer_ok. Qed.
(** A routine that starts nothing, and what it returns. *)
Lemma no_signer_post {A} h (m : kube A) Q :
  only (starts_no_signer n) m → spec (λ _ _, True) h m Q → spec deployment_ok h m Q.
Proof.
  intros Ho Hq. eapply spec_mono; [exact (spec_both _ _ _ _ _ _ (no_signer_spec h m Ho) Hq)|by intros h' r _ []|by intros h' a _ []].
Qed.
Lemma quiet_ok {A} h (m : kube A) : quiet m → spec deployment_ok h m (λ _ _, True).
Proof. intros Hq. apply no_signer_spec, quiet_no_signer, Hq. Qed.

Lemma permitted_ok owner ns h r : permitted owner ns h r → deployment_ok h r.
Proof.
  destruct r; simpl; try done. intros (name & live & Hin & _ & [->| ->]); [by left|]. right; left. by exists live, ns, name; auto.
Qed.
Lemma workload_ok owner ns name desired key rc h r : workload_permitted owner ns name desired key rc h r → deployment_ok h r.
Proof.
  destruct r; simpl; try done; try by intros (m & _ & _ & [[]|(_ & _ & [])]).
  intros [Hp|(live & replicas & Hin & _ & ->)]; [by apply (permitted_ok owner ns h (UpdateStatefulSet s))|].
  right; left. exists live, ns, name. auto.
Qed.
End evidence.

(** ** The preflight *)

Section preflight.
Context `{MetaApi} `{ApplyLaws} `{JsonApi} `{YamlApi} `{QuantityApi} `{PrivvalApi} `{RetryLaws} `{TomlApi}.
Variable opts : SignerOptions.
Variables fuel polls : nat.
Variable n : ChainNode.

Abbreviation ok := (deployment_ok fuel n).
Abbreviation held := (in_hand n).

Lemma import_status_post n0 mutate h :
  (∀ f, cn_Spec (mutate f) = cn_Spec f ∧ nst_ChainID (cn_Status (mutate f)) = nst_ChainID (cn_Status f) ∧
        nst_PubKey (cn_Status (mutate f)) = nst_PubKey (cn_Status f) ∧ css_PublicKey (cn_Signer (mutate f)) = css_PublicKey (cn_Signer f)) →
  held n0 h → spec (λ _ _, True) h (updateCosmosignerImportStatus n0 mutate) (λ h' r, ∀ m, r = Ok m → held m h').
Proof.
  intros Hm (Es & En & Ens & Eu & _). unfold updateCosmosignerImportStatus. apply (retry_spec ChainNode). intros h1 _.
  rewrite spec_try. split; [done|]. intros [fresh|e]; cbn [spec]; [|by intros]. rewrite spec_try. split; [done|].
  intros [[]|e]; cbn [spec]; [|by intros]. intros m [= <-]. split_and!; try done. destruct (Hm fresh) as (_ & E1 & E2 & E3).
  exists (cn_Status fresh). split; [|done]. right. exists fresh. rewrite <- En, <- Ens. split; [right; left|done].
Qed.

Lemma recover_version_post n0 g h :
  held n0 h → spec (λ _ _, True) h (recover_key_version n0 g) (λ h' r, ∀ m v, r = Ok (m, v) → held m h').
Proof.
  intros Hh. unfold recover_key_version. case_match; [|by intros m v [= <- _]]. rewrite spec_mbind. split; [done|].
  intros [cm|e]; cbn [spec]; [|intros m v [= <- _]; eapply (in_hand_stable n n0); [by eexists [_]|done]].
  destruct (IsControlledBy _ _); [|intros m v [= <- _]; eapply (in_hand_stable n n0); [by eexists [_]|done]].
  destruct (GcpKeyVersionFromConfigYAML _) as [v|e]; [|by intros].
  destruct (OwnsKeyVersion _ _); [|intros m v' [= <- _]; eapply (in_hand_stable n n0); [by eexists [_]|done]].
  rewrite spec_try. eapply spec_conseq; [apply import_status_post; [by intros|]|].
  - eapply (in_hand_stable n n0); [by eexists [_]|done].
  - intros h1 [m|e] _ Hp; cbn [spec]; [|by intros]. intros m' v' [= <- _]. by apply Hp.
Qed.

Lemma backend_post c h :
  spec (λ _ _, True) h (cosmosignerBackend n c) (λ h' r, ∀ m b, r = Ok (m, b) → held m h').
Proof.
  pose proof (in_hand_self n) as Hself. unfold cosmosignerBackend.
  destruct (be_Vault _) as [v|]; [|destruct (be_GcpKMS _) as [g|]].
  - rewrite spec_try. eapply spec_conseq; [by apply spec_still with (G := λ _, True)|]. intros h1 [[]|e] _ _; [|by intros].
    rewrite spec_try. eapply spec_conseq; [by apply spec_still with (G := λ _, True)|]. intros h2 [[]|e] _ _; [|by intros].
    cbn [spec]. by intros m b [= <- _].
  - rewrite spec_try. eapply spec_conseq; [by apply spec_still with (G := λ _, True)|]. intros h1 [[]|e] _ _; [|by intros].
    rewrite spec_try. eapply spec_conseq; [by apply recover_version_post|]. intros h2 [[m v]|e] _ Hp; cbn [spec]; [|by intros].
    intros m' b [= <- _]. by eapply Hp.
  - destruct (cosmosignerSoftwareSecretName n c); [|by intros]. rewrite spec_try.
    eapply spec_conseq; [by apply spec_still with (G := λ _, True)|]. intros h1 [b|e] _ _; cbn [spec]; [|by intros].
    by intros m b' [= <- _].
Qed.

Lemma params_post c h :
  spec (λ _ _, True) h (cosmosignerParams opts n c) (λ h' r, ∀ m p, r = Ok (m, p) →
    held m h' ∧ sp_Name p = cosmosignerName n ∧ sp_ChainID p = nst_ChainID (cn_Status m)).
Proof.
  unfold cosmosignerParams. rewrite spec_try. eapply spec_conseq; [apply backend_post|].
  intros h1 [[m b]|e] _ Hp; cbn [spec]; [|by intros]. intros m' p [= <- <-]. split; [by eapply Hp|done].
Qed.

Lemma key_refusal_spec m key : key_refusal m key = None → may_sign_with m key.
Proof.
  unfold key_refusal, onchain_key, may_sign_with. intros Hr Hv. rewrite Hv in Hr.
  case_bool_decide as Ek; cbn [negb] in Hr.
  - split; [done|]. case_bool_decide as Ea; cbn in Hr; [done|]. case_bool_decide as Ea2; cbn in Hr; [|done]. intros _. by symmetry.
  - case_bool_decide as Eo; [done|]. case_bool_decide as Em; cbn in Hr; [|done]. split; [by intros _; symmetry|].
    case_bool_decide as Ea; cbn in Hr; [done|]. case_bool_decide as Ea2; cbn in Hr; [|done]. intros _. by symmetry.
Qed.

Lemma quiesce_fails m e h :
  spec (λ _ _, True) h (quiesceValidatorOnReservationConflict polls m e) (λ _ r, r ≠ Ok ()).
Proof.
  unfold quiesceValidatorOnReservationConflict. rewrite spec_mbind. split; [done|]. intros [pod|e1]; cbn [spec].
  2:{ by destruct (IsNotFound e1). }
  destruct (negb _); [done|]. rewrite spec_mbind.
  eapply spec_conseq; [by apply spec_still with (G := λ _, True)|]. intros h1 deleted _ _.
  destruct (match deleted with Err e => _ | Ok _ => Ok () end) as [[]|e1]; [|done]. rewrite spec_mbind.
  eapply spec_conseq; [by apply spec_still with (G := λ _, True)|]. by intros h2 [[]|e1] _ _.
Qed.
Lemma quiesce_managed_fails m name e h : spec (λ _ _, True) h (quiesceManagedCosmosigner m name e) (λ _ r, r ≠ Ok ()).
Proof.
  unfold quiesceManagedCosmosigner. rewrite spec_mbind.
  eapply spec_conseq; [by apply spec_still with (G := λ _, True)|]. by intros h2 [[]|e1] _ _.
Qed.

(** What a preflight that succeeds has acquired. *)
Lemma reserve_post m name key h :
  spec (λ _ _, True) h (reserve_signer_key fuel polls m name key) (λ h' r, r = Ok () → acquired_for fuel m key h').
Proof.
  unfold reserve_signer_key, ensureConsensusKeyReservation. rewrite !spec_mbind.
  eapply spec_conseq; [apply (spec_observed (λ _ _, True)), (spec_still _ _ (λ _, True)); by try apply _|].
  intros h1 [res|] _ [_ (k & -> & Ho)]; cbn [spec].
  - destruct (er_Result res) as [[]|e] eqn:Er; cbn [spec]; [intros _; by exists k, h, res|].
    eapply spec_conseq with (Q := λ _ r, r ≠ Ok ()); [|by intros h2 r _ Hne ->].
    destruct (errors_is _ _); [|done]. rewrite spec_mbind.
    eapply spec_conseq; [by apply spec_still with (G := λ _, True)|]. intros h2 sc _ _. destruct (IsValidator m); [|done].
    generalize (match sc with Err _ => Wrapf e "%w; failed to scale down conflicting cosmosigner %q: %v" [AStr name] | Ok _ => e end).
    intros e'. apply quiesce_fails.
  - done.
Qed.

#[local] Hint Resolve quiet_no_signer quiet_params quiet_import_source quiet_ensureReservation quiet_ScaleDown
  quiet_quiesce_validator quiet_quiesce_managed quiet_PreflightDeployable quiet_recovered public_key_no_signer : only.
Lemma reserve_no_signer m name key : only (starts_no_signer n) (reserve_signer_key fuel polls m name key).
Proof. unfold reserve_signer_key. only_walk. Qed.
Lemma deployable_no_signer m c : only (starts_no_signer n) (preflight_deployable m c).
Proof. unfold preflight_deployable. only_walk. Qed.
Lemma expected_key_no_signer m c params :
  sp_Name params = cosmosignerName n → only (starts_no_signer n) (expected_public_key opts m c params).
Proof. intros En. unfold expected_public_key, recovered_signing_key. only_walk. Qed.

Lemma held_ok {A} m h (k : kube A) : held m h → only (starts_no_signer n) k → spec ok h k (λ h' _, held m h').
Proof. intros Hm Hk. apply no_signer_post; [exact Hk|]. apply (spec_still h k (held m)); [apply _|exact Hm]. Qed.

Lemma preflight_reserves c h :
  spec ok h (preflightCosmosigner opts fuel polls n c) (λ h' r, ∀ m p, r = Ok (m, p) → reserved_params fuel n p h').
Proof.
  assert (quiet (RequireRaftTLSSecret (cn_Namespace n) (cs_RaftTLSSecret c))) as Q1 by (unfold RequireRaftTLSSecret; only_walk).
  assert (∀ ns, quiet (RequireServiceAccount ns (signer_GetServiceAccountName c))) as Q2
    by (intros ns; unfold RequireServiceAccount; only_walk).
  unfold preflightCosmosigner. rewrite spec_try. eapply spec_conseq; [by apply quiet_ok|]. intros h1 [[]|e] _ _; [|by intros].
  rewrite spec_try. eapply spec_conseq; [apply no_signer_post; [apply quiet_no_signer, quiet_params|apply params_post]|].
  intros h2 [[m p]|e] _ Hp; [|by intros]. destruct (Hp m p eq_refl) as (Hm & En & Ec).
  rewrite spec_try. eapply spec_conseq; [apply (held_ok m); [exact Hm|exact (quiet_no_signer n _ (Q2 _))]|].
  intros h3 [[]|e] _ Hm3; [|by intros].
  rewrite spec_try. eapply spec_conseq; [apply (held_ok m); [exact Hm3|apply deployable_no_signer]|].
  intros h4 [[]|e] _ Hm4; [|by intros].
  rewrite spec_try. eapply spec_conseq; [apply (held_ok m); [exact Hm4|by apply expected_key_no_signer]|].
  intros h5 [key|e] _ Hm5; [|by intros]. destruct (key_refusal m key) as [e|] eqn:Er.
  - rewrite spec_try. eapply spec_conseq; [apply no_signer_post; [apply quiet_no_signer, quiet_quiesce_managed|apply quiesce_managed_fails]|].
    by intros h6 [[]|e1] _ Hf.
  - rewrite spec_try. eapply spec_conseq.
    { apply (spec_keep _ _ _ (λ h' r, r = Ok () → acquired_for fuel m key h') (held m)); [apply _|exact Hm5|].
      apply no_signer_post; [apply reserve_no_signer|apply reserve_post]. }
    intros h6 [[]|e1] _ [Hm6 Ha]; [|by intros]. cbn [spec]. intros m' p' [= <- <-]. exists m.
    split; [done|]. split; [done|]. split; [by apply key_refusal_spec|by apply Ha].
Qed.
End preflight.

(** ** The deployment *)

Section deployment.
Context `{MetaApi} `{ApplyLaws} `{JsonApi} `{YamlApi} `{QuantityApi} `{PrivvalApi} `{RetryLaws} `{TomlApi}.

(** A set that is written for [obj] has its pods. *)
Definition pods_of (obj : Managed) (s : StatefulSet) : Prop := ∃ sts, obj = ManagedSts sts ∧ sts_PodSpec s = sts_PodSpec sts.
Definition writes (obj : Managed) (r : request) : Prop :=
  match r with
  | CreatePod _ => False
  | CreateStatefulSet s => pods_of obj s
  | UpdateStatefulSet s => sts_Replicas s = Some 0%Z ∨ pods_of obj s
  | _ => True
  end.
Definition same_pods (obj obj' : Managed) : Prop := ∀ s, pods_of obj' s → pods_of obj s.

Lemma same_pods_writes obj obj' {A} (m : kube A) : same_pods obj obj' → only (writes obj') m → only (writes obj) m.
Proof. intros Hs. apply only_mono. intros []; simpl; try done; [naive_solver..]. Qed.
Lemma same_pods_meta obj m : same_pods obj (with_meta obj m).
Proof. intros s (sts & E & Es). destruct obj as [s0|o]; [|done]. injection E as <-. by exists s0. Qed.
Lemma same_pods_trans a b c : same_pods a b → same_pods b c → same_pods a c.
Proof. unfold same_pods. eauto. Qed.
Lemma writes_update obj : only (writes obj) (update_managed obj).
Proof. destruct obj as [s|o]; cbn [update_managed]; apply only_call; [|done]. right. by exists s. Qed.
Lemma writes_create obj : only (writes obj) (create_managed obj).
Proof. destruct obj as [s|o]; cbn [create_managed]; apply only_call; [|done]. by exists s. Qed.
Lemma same_pods_annotated obj obj' : SetLastAppliedAnnotation obj = Ok obj' → same_pods obj obj'.
Proof. intros (-> & _)%SetLastAppliedAnnotation_meta. apply same_pods_meta. Qed.

Lemma writes_patch existing obj : only (writes obj) (patch_managed existing obj).
Proof.
  unfold patch_managed. destruct (CalculatePatchIsEmpty _ _) as [empty|e]; [|exact I]. destruct (_ && _); [exact I|].
  destruct (SetLastAppliedAnnotation obj) as [obj'|e] eqn:Ea; [|exact I]. apply same_pods_annotated in Ea.
  eapply same_pods_writes; [eapply same_pods_trans; [exact Ea|apply same_pods_meta]|apply writes_update].
Qed.

Lemma quiet_writes obj {A} (m : kube A) : quiet m → only (writes obj) m.
Proof. apply only_mono. intros []; simpl; try done. by left. Qed.
Lemma quiet_claims_for_apply owner sts live guard : quiet (ensureStatefulSetPVCsForApply owner sts live guard).
Proof.
  unfold ensureStatefulSetPVCsForApply.
  assert (∀ ns name r, quiet (ensureRetainedDataPVCs owner ns name r)) by (intros; apply quiet_retained_claims).
  assert (∀ ns name, quiet (ensureNoForeignDataPVCs owner ns name)) by (intros; apply quiet_foreign_claims).
  only_walk.
Qed.
Lemma writes_existing owner guard obj existing : only (writes obj) (apply_existing owner guard obj existing).
Proof.
  unfold apply_existing. destruct (negb _); [exact I|]. destruct obj as [sts|o], existing as [live|eo];
    cbn [PreserveImmutableStatefulSetFields]; try exact I.
  - apply only_mbind; [apply quiet_writes, quiet_claims_for_apply|]. intros [[]|e]; [|apply quiet_writes, quiet_unsafe].
    eapply same_pods_writes; [|apply writes_patch]. intros s (s0 & [= <-] & Es). exists sts. split; [done|]. rewrite Es.
    unfold keep_ever_rolled_out. by destruct (_ == _).
  - apply writes_patch.
  - apply writes_patch.
Qed.
Lemma writes_new owner guard obj : only (writes obj) (apply_new owner guard obj).
Proof.
  unfold apply_new. destruct (SetLastAppliedAnnotation obj) as [obj'|e] eqn:Ea; [|exact I]. apply same_pods_annotated in Ea.
  eapply same_pods_writes; [exact Ea|]. destruct obj' as [sts|o]; [|apply writes_create].
  apply only_try; [apply quiet_writes, quiet_claims_for_apply|]. intros _. apply writes_create.
Qed.

Lemma ApplyOwned_writes owner obj guards : only (writes obj) (ApplyOwned owner obj guards).
Proof.
  unfold ApplyOwned. destruct (_ <? _)%nat; [exact I|]. destruct (_ && _); [exact I|]. cbv zeta.
  generalize (match guards with [g] => g | _ => mkApplyGuard false 0 end). intros guard.
  destruct (to_applied obj) as [obj1|e] eqn:E1; [|exact I].
  assert (same_pods obj obj1) as S1.
  { destruct obj as [s|o]; simpl in E1; [injection E1 as <-; by intros s' ?|]. intros s' (sts & -> & _).
    destruct (_ == _) in E1; [|by injection E1]. by destruct (ToUnstructured o). }
  destruct (SetControllerReference _ _) as [m|e]; [|exact I].
  eapply same_pods_writes; [eapply same_pods_trans; [exact S1|apply (same_pods_meta _ m)]|].
  apply only_mbind; [destruct (with_meta obj1 m); cbn [get_managed]; only_walk|].
  intros [existing|e]; [apply writes_existing|]. destruct (IsNotFound e); [apply writes_new|exact I].
Qed.

(** *** With the key reserved *)

Definition renders (p : SignerParams) (s : StatefulSet) : Prop :=
  ∃ configYAML sts, ConfigYAML p = Ok configYAML ∧ signer_StatefulSet p configYAML = Ok sts ∧ sts_PodSpec s = sts_PodSpec sts.
Definition may_follow (p : SignerParams) (r : request) : Prop :=
  match r with
  | CreateStatefulSet s => renders p s
  | UpdateStatefulSet s => sts_Replicas s = Some 0%Z ∨ renders p s
  | _ => True
  end.
Lemma quiet_follow p {A} (m : kube A) : quiet m → only (may_follow p) m.
Proof. apply only_mono. intros []; simpl; try done. by left. Qed.
Lemma object_follow p o owner guards : only (may_follow p) (ApplyOwned owner (ManagedObj o) guards).
Proof.
  eapply only_mono; [|apply ApplyOwned_writes]. intros []; simpl; try done; [|by intros (? & ? & _)].
  intros [?|(? & ? & _)]; [by left|done].
Qed.
Lemma signer_set_follow n p configYAML : ConfigYAML p = Ok configYAML → only (may_follow p) (apply_signer_set n p configYAML).
Proof.
  intros Ec. unfold apply_signer_set. destruct (signer_StatefulSet p configYAML) as [sts|e] eqn:Es; [|exact I].
  destruct (LifecycleDigest _ _) as [digest|e]; [|exact I]. cbn [applyCosmosignerObject]. unfold apply_signer.
  destruct (StatefulSetApplyGuard _ _ _ _) as [guard|e]; [|exact I].
  assert (∀ s, pods_of (ManagedSts (SetLifecycleDigest sts digest)) s → renders p s) as Hr.
  { intros s (s0 & [= <-] & E). by exists configYAML, sts. }
  eapply only_mono; [|apply ApplyOwned_writes]. intros []; simpl; try done; [|by apply Hr]. intros [?|?]; [by left|right; by apply Hr].
Qed.
Lemma job_follow p j pod suffix retain : only (may_follow p) (runJob j pod suffix retain).
Proof.
  destruct (SetControllerReference (jr_Owner j) (pod_meta pod)) as [m|e] eqn:Em.
  - eapply (spec_only _ _ []); [|by apply runJob_promise]. by intros h [].
  - unfold runJob. by rewrite Em.
Qed.
Lemma publicKey_follow p j keyVersion : only (may_follow p) (publicKey j keyVersion).
Proof. unfold publicKey. destruct (buildPubkeyPod _ _); [|exact I]. apply only_try; [apply job_follow|by intros]. Qed.
Lemma ImportKey_follow p j sourceSecret : only (may_follow p) (ImportKey j sourceSecret).
Proof. unfold ImportKey. destruct (buildImportPod _ _); [|exact I]. apply only_try; [apply job_follow|by intros]. Qed.
Lemma quiet_cleanup j : quiet (CleanupImportPod j).
Proof. unfold CleanupImportPod. only_walk. Qed.
#[local] Hint Resolve quiet_follow quiet_cleanup quiet_PublicKeyFromSecret quiet_import_status quiet_ScaleDown publicKey_follow
  ImportKey_follow : only.

Lemma adopt_follow opts p m v params sourceSecret key : only (may_follow p) (adoptTmKMSVaultImport opts m v params sourceSecret key).
Proof. unfold adoptTmKMSVaultImport, PublicKey, markCosmosignerKeyImported. only_walk. Qed.
Lemma verify_follow opts p m g params sourceSecret key : only (may_follow p) (verifyGcpImportedKey opts m g params sourceSecret key).
Proof. unfold verifyGcpImportedKey, PublicKeyAtVersion, markCosmosignerKeyImported. only_walk. Qed.
#[local] Hint Resolve adopt_follow verify_follow : only.
Lemma vault_follow opts p m v params : only (may_follow p) (maybeImportCosmosignerKeyToVault opts m v params).
Proof.
  unfold maybeImportCosmosignerKeyToVault, read_key_material, import_to_vault, run_vault_import, quiesced_then,
    markCosmosignerKeyImported. only_walk.
Qed.
Lemma gcp_follow opts p m g params : only (may_follow p) (maybeImportCosmosignerKeyToGcp opts m g params).
Proof.
  unfold maybeImportCosmosignerKeyToGcp, read_key_material, gcp_import_step, run_gcp_import, quiesced_then,
    markCosmosignerImportedKeyVersion. only_walk.
Qed.
#[local] Hint Resolve vault_follow gcp_follow : only.
Lemma import_follow opts p m c params : only (may_follow p) (maybeImportCosmosignerKey opts m c params).
Proof. unfold maybeImportCosmosignerKey, import_to_configured_vault. only_walk. Qed.
#[local] Hint Resolve import_follow : only.

Lemma quiet_record_served m p : quiet (record_served m p).
Proof. unfold record_served, IsRolledOut, update_node_status. only_walk. Qed.
Lemma quiet_locks m c : quiet (initCosmosignerLocks m c).
Proof.
  unfold initCosmosignerLocks, ReadSignerLock, recoverStandaloneValidatorTarget, update_node_status. only_walk.
Qed.
#[local] Hint Resolve quiet_record_served quiet_locks object_follow signer_set_follow : only.
Lemma deploy_follow m p pending : only (may_follow p) (deploy_signer m p pending).
Proof.
  unfold deploy_signer. destruct (ConfigYAML p) as [configYAML|e] eqn:Ec; [|exact I].
  destruct (ConfigMap p configYAML) as [cm|e]; [|exact I]. apply only_try; [cbn [apply_each for_each_call]; unfold apply_each; cbn [for_each_call applyCosmosignerObject]; only_walk|].
  intros _. destruct pending; only_walk.
Qed.
#[local] Hint Resolve deploy_follow : only.
Lemma ensure_params_follow opts m c p : only (may_follow p) (ensureCosmosignerWithParams opts m c p).
Proof. unfold ensureCosmosignerWithParams, locked. only_walk. Qed.
End deployment.

(** ** The pass *)

Section pass.
Context `{MetaApi} `{ApplyLaws} `{JsonApi} `{YamlApi} `{QuantityApi} `{PrivvalApi} `{RetryLaws} `{TomlApi}.
Variable opts : SignerOptions.
Variables fuel polls : nat.
Variable n : ChainNode.

Abbreviation ok := (deployment_ok fuel n).
Abbreviation reserved := (reserved_params fuel n).

Lemma follow_ok p h r : reserved p h → may_follow p r → ok h r.
Proof.
  intros Hp. destruct r; simpl; try done.
  - intros [?|(y & sts & ?)]; [by left|]. right; right. by exists p, y, sts.
  - intros (y & sts & ?). by exists p, y, sts.
  - intros _ _. by exists p.
Qed.
Lemma follow_spec p h {A} (m : kube A) : reserved p h → only (may_follow p) m → spec ok h m (λ h' _, reserved p h').
Proof.
  intros Hp Hm. eapply spec_mono; [apply (spec_keep (λ _, may_follow p) h m (λ _ _, True) (reserved p))| |by intros h' a _ []].
  - apply _.
  - exact Hp.
  - by apply only_spec with (G := may_follow p).
  - intros h' r Hs. apply follow_ok. by eapply reserved_params_stable.
Qed.
#[local] Hint Resolve quiet_follow quiet_locks quiet_claims import_follow ensure_params_follow : only.

Lemma IsRolledOut_quiet ns name replicas : quiet (IsRolledOut ns name replicas).
Proof. unfold IsRolledOut. only_walk. Qed.
Lemma record_quiet m params : quiet (recordCosmosignerAppliedState m params).
Proof. unfold recordCosmosignerAppliedState. only_walk. Qed.
Lemma workload_spec_ok {A} owner ns name desired key rc p h (m : kube A) :
  reserved p h → spec (workload_permitted owner ns name desired key rc) h m (λ _ _, True) → spec ok h m (λ h' _, reserved p h').
Proof.
  intros Hp Hm. eapply spec_mono; [apply (spec_keep _ h m (λ _ _, True) (reserved p)); [apply _|exact Hp|exact Hm]| |by intros h' a _ []].
  intros h' r _. apply workload_ok.
Qed.

Lemma after_deployment_ok m p q h : reserved p h → spec ok h (after_deployment m q) (λ _ _, True).
Proof.
  intros Hp. unfold after_deployment. rewrite spec_try.
  eapply spec_conseq; [apply (follow_spec p); [exact Hp|apply quiet_follow, IsRolledOut_quiet]|].
  intros h1 [[]|e] _ Hp1; cbn [negb spec]; [|done..]. rewrite spec_try.
  eapply spec_conseq; [apply (workload_spec_ok (OwnerChainNode m) (cn_Namespace m) (sp_Name q) "" "" (node_recorded m) p); [exact Hp1|apply MarkEverRolledOut_spec]|].
  intros h2 [[]|e] _ Hp2; cbn [negb spec]; [|done..]. rewrite spec_try.
  eapply spec_conseq; [apply (follow_spec p); [exact Hp2|apply quiet_follow, record_quiet]|].
  intros h3 [[m' b]|e] _ Hp3; [|done].
  eapply spec_conseq; [apply (follow_spec p); [exact Hp3|]|done]. unfold claims_settled. only_walk.
Qed.

Lemma migration_ok m p h :
  reserved p h → spec ok h (reconcileCosmosignerMigration m (migration_params p)) (λ h' _, reserved p h').
Proof.
  intros Hp. destruct (pr_LifecycleDigest (migration_params p) (CosmosignerSigningDigest m)) as [desired|e] eqn:Ed.
  2:{ unfold reconcileCosmosignerMigration. by rewrite Ed. }
  pose proof (spec_keep _ h _ _ (reserved p) _ Hp (reconcile_conforms m (migration_params p) desired h Ed)) as K.
  eapply spec_mono; [exact K| |by intros h' a _ []]. intros h' r _. destruct r; try done; apply workload_ok.
Qed.

Lemma managed_ok m c p h : reserved p h → spec ok h (reconcile_managed_signer opts m c p) (λ _ _, True).
Proof.
  intros Hp. unfold reconcile_managed_signer, locked. rewrite spec_try.
  eapply spec_conseq; [apply (follow_spec p); [exact Hp|apply quiet_follow, quiet_locks]|].
  intros h1 [[m1 recorded]|e] _ Hp1; [|done]. destruct (validateRecordedCosmosignerLocks m1) as [[]|e]; [|done].
  destruct recorded; [done|]. rewrite spec_try. eapply spec_conseq; [by apply migration_ok|].
  intros h2 [[]|e] _ Hp2; [done| |done]. rewrite spec_try.
  eapply spec_conseq; [apply (follow_spec p); [exact Hp2|apply import_follow]|].
  intros h3 [[m3 []]|e] _ Hp3; [done| |done]. rewrite spec_try.
  eapply spec_conseq; [apply (follow_spec p); [exact Hp3|apply ensure_params_follow]|].
  intros h4 [[m4 []]|e] _ Hp4; [done| |done]. by apply (after_deployment_ok _ p).
Qed.

(** Without a managed signer only old workloads are touched. *)
Lemma undeploy_ok m h : spec ok h (undeployCosmosigner m) (λ _ _, True).
Proof.
  unfold undeployCosmosigner. rewrite spec_try.
  eapply spec_conseq with (Q := λ _ _, True).
  - eapply spec_mono; [apply Undeploy_permitted| |done]. intros h' r _ [Hr|Hr]; [by eapply permitted_ok|by destruct r].
  - intros h1 [[]|e] _ _; [|done]. apply quiet_ok.
    assert (∀ ns name, quiet (IsTornDown (cn_meta m) ns name)) by (intros; apply quiet_IsTornDown).
    unfold update_node_status. only_walk.
Qed.
Lemma same_name_no_signer m {A} (k : kube A) :
  cn_Name m = cn_Name n → only (starts_no_signer m) k → only (starts_no_signer n) k.
Proof.
  intros En. apply only_mono. unfold starts_no_signer, import_pod_name, cosmosignerName. by rewrite En.
Qed.
Lemma tmkms_config_post h :
  spec (λ _ _, True) h (ensureTmKMSConfig n) (λ _ r, ∀ m, r = Ok m → cn_Spec m = cn_Spec n ∧ cn_Name m = cn_Name n).
Proof.
  assert (∀ m, Ok n = Ok m → cn_Spec m = cn_Spec n ∧ cn_Name m = cn_Name n) as Hn by by intros m [= <-].
  unfold ensureTmKMSConfig. destruct (negb (UsesTmKms n)).
  { rewrite spec_try. eapply spec_conseq; [by apply spec_still with (G := λ _, True)|]. by intros h1 [[]|e] _ _; cbn [spec]; [exact Hn|]. }
  destruct (getTmkms n) as [[p k]|e]; [|by intros]. rewrite spec_try.
  eapply spec_conseq; [by apply spec_still with (G := λ _, True)|]. intros h1 [[]|e] _ _; [|by intros].
  destruct (negb _); [exact Hn|]. rewrite spec_try.
  eapply spec_conseq; [by apply spec_still with (G := λ _, True)|]. intros h2 [key|e] _ _; [|by intros].
  destruct (_ == _); [exact Hn|]. rewrite spec_try.
  eapply spec_conseq; [by apply spec_still with (G := λ _, True)|]. intros h3 [[]|e] _ _; [|by intros].
  rewrite spec_try. split; [done|]. intros [[]|e]; cbn; [|by intros]. by intros m [= <-].
Qed.

Lemma without_signer_ok h :
  ns_Cosmosigner (cn_Spec n) = None → spec ok h (reconcile_without_signer opts fuel polls n) (λ _ _, True).
Proof.
  intros Ec. unfold reconcile_without_signer. rewrite spec_try.
  eapply spec_conseq with (Q := λ _ r, ∀ m, r = Ok m → cn_Spec m = cn_Spec n ∧ cn_Name m = cn_Name n).
  - destruct (negb _); [|by intros m [= <-]]. apply no_signer_post; [apply tmkms_config_no_signer|apply tmkms_config_post].
  - intros h1 [m|e] _ Hm; [|done]. destruct (Hm m eq_refl) as [Es En]. unfold ensureCosmosigner. rewrite Es, Ec.
    rewrite spec_try, spec_try. eapply spec_conseq.
    { apply no_signer_spec, (same_name_no_signer m); [exact En|]. apply fallback_no_signer. }
    intros h2 [[]|e] _ _; [|done]. rewrite spec_try. eapply spec_conseq; [apply undeploy_ok|].
    intros h3 [[m3 []]|e] _ _; cbn [spec]; try done. apply quiet_ok. unfold claims_settled. only_walk.
Qed.

Lemma validator_reservation_ok h :
  spec ok h (ensureValidatorConsensusKeyReservation opts fuel polls n) (λ _ r, ∀ m, r = Ok (m, false) → m = n).
Proof.
  apply no_signer_post.
  - unfold ensureValidatorConsensusKeyReservation, reserve_validator_key, update_node_status.
    assert (only (starts_no_signer n) (validatorConsensusPublicKey opts n)) by apply validator_key_no_signer.
    assert (∀ m e, only (starts_no_signer n) (quiesceValidatorOnReservationConflict polls m e))
      by (intros; apply quiet_no_signer, quiet_quiesce_validator).
    assert (∀ c k holder, only (starts_no_signer n) (ensureConsensusKeyReservation fuel c k holder))
      by (intros; apply quiet_no_signer, quiet_ensureReservation).
    only_walk.
  - unfold ensureValidatorConsensusKeyReservation. destruct (_ || _ || _ || _); [by intros m [= <-]|].
    rewrite spec_try. eapply spec_conseq; [by apply spec_still with (G := λ _, True)|]. intros h1 [[key id]|e] _ _; [|by intros].
    destruct (onchain_key _ _ _ _) as [e|].
    + destruct (_ == _); [|by intros]. rewrite spec_try.
      eapply spec_conseq; [by apply spec_still with (G := λ _, True)|]. intros h2 [[]|e1] _ _; cbn; [|by intros]. by intros m [= <-].
    + unfold reserve_validator_key. rewrite spec_mbind.
      eapply spec_conseq; [by apply spec_still with (G := λ _, True)|]. intros h2 [[]|e1] _ _.
      * destruct (_ && _); [|by intros m [= <-]]. rewrite spec_try. split; [done|]. by intros [[]|e1].
      * destruct (errors_is _ _); [|by intros]. rewrite spec_try.
        eapply spec_conseq; [by apply spec_still with (G := λ _, True)|]. intros h3 [[]|e2] _ _; cbn; [|by intros]. by intros m [= <-].
Qed.

Lemma reconcile_ok h : spec ok h (reconcileSigningConfigs opts fuel polls n) (λ _ _, True).
Proof.
  unfold reconcileSigningConfigs. rewrite spec_try. eapply spec_conseq; [apply validator_reservation_ok|].
  intros h1 [[m []]|e] _ Hm; [done| |done]. rewrite (Hm m eq_refl). clear m Hm.
  destruct (ns_Cosmosigner (cn_Spec n)) as [c|] eqn:Ec; [|by apply without_signer_ok].
  destruct (_ == _); [done|]. rewrite spec_try. eapply spec_conseq; [apply preflight_reserves|].
  intros h2 [[m p]|e] _ Hp; [|done]. by apply managed_ok, (Hp m).
Qed.
End pass.

(** ** The property *)

(** C3: in a pass of [reconcileSigningConfigs] a StatefulSet is created, or updated to other pods or
    other than zero replicas, only for the pods rendered from a configuration whose chain and expected
    public key were reserved earlier in the same pass: the acquisition ran from its first request to
    its end with success, for the node and the claim of its signer.  The key of a validator is the one
    recorded as on chain and the one its signer was rolled out with, where these are known.  The pod
    that imports a key is created after such a reservation as well. *)
Theorem reconcileSigningConfigs_reserves `{MetaApi} `{ApplyLaws} `{JsonApi} `{YamlApi} `{QuantityApi} `{PrivvalApi}
    `{RetryLaws} `{TomlApi} opts fuel polls n h :
  spec (deployment_ok fuel n) h (reconcileSigningConfigs opts fuel polls n) (λ _ _, True).
Proof. apply reconcile_ok. Qed.

(** A validator with a software key whose locks are recorded. *)
Definition one_key : PrivvalApi := {|
  PV := (); PB := ();
  UnmarshalFilePVKey b := Returned (Ok (mkFilePVKey "addr" (Some ()) (Some ())));
  UnmarshalPrivKey b := Ok (mkPrivKey "addr" (mkTypedValue "" example_pk) (mkTypedValue "" ""));
  PubKeyOf _ := Returned (); pub_Equals _ _ := Returned true; AddressOf _ := Returned "addr";
  Sign _ _ := Returned (Ok ""); VerifySignature _ _ _ := Returned true;
|}.
Definition any_document : YamlApi := {|
  yaml_Marshal c := Ok (scf_ExpectedPublicKey c);
  yaml_Unmarshal y := Err (Sentinel "unused");
  json_Lifecycle d s := Ok d;
|}.
Definition signing_validator : ChainNode :=
  mkChainNode (mkMeta "val" "default" "uid-1" ∅ None [] [] None 0 "")
    (mkChainNodeSpec None (mkAppSpec "image" None "" "appd" None None [] None) None None None
       (Some (mkValidatorConfig (Some "val-key") None None None None None None None))
       (Some (mkCosmosigner [] (Some 1%Z) None (mkBackend (Some (mkSoftware None)) None None) None None None None false None None))
       false None None no_resources [] None no_resources ∅ None None None None None None)
    (newChainNodeStatus PhaseChainNodeRunning "chain-1" 0 []
       (mkSignerStatus "" "" "" None "" "" (Some 1%Z) (Some true) "1Gi" None None "")).
Definition key_secret : Secret := mkSecret (mkMeta "val-key" "default" "" ∅ None [] [] None 0 "") None {[PrivKeyFile := "key"]}.
Definition signing_world : fake := mkFake [] ∅ ["default"] [signing_validator] [] [] [] [] [] [key_secret] [] [] [].
Definition signing_pass : kube (result (ChainNode * bool)) :=
  @reconcileSigningConfigs reference_meta reference_apply reference_json any_document reference_quantity one_key reference_retry
    {| TomlEncode _ := Ok "" |} (mkSignerOptions "" false) 2 1 signing_validator.

(** The pass deploys the signer with the key it reserved. *)
Lemma reconcileSigningConfigs_witness :
  (let '(r, w) := exec signing_world signing_pass in
   (snd <$> r, map sts_Name (fk_statefulsets w), map (λ p, (rs_PublicKey p.2, rs_OwnerUID p.2)) (fk_log w))) =
  (Ok true, ["val-signer"], [(example_pk, "uid-1")]) ∧
  spec (@deployment_ok reference_meta reference_json any_document reference_quantity 2 signing_validator) [] signing_pass (λ _ _, True).
Proof.
  split; [vm_compute; reflexivity|].
  exact (@reconcileSigningConfigs_reserves reference_meta reference_apply reference_apply_laws reference_json any_document
    reference_quantity one_key reference_retry reference_retry_laws {| TomlEncode _ := Ok "" |} (mkSignerOptions "" false) 2 1
    signing_validator []).
Defined.
