(* ===== verification/SetSignerKeys.v ===== *)
(** * The keys of the signers of a set ([internal/controllers/chainnodeset/cosmosigner.go])

    The parameters and the backend of each signer of a node set, the public key
    it is expected to sign with, and the import of a validator's key into Vault
    or Cloud KMS.  Records live in the status entry of the signer; a routine that
    changes the set returns the set the controller goes on with. *)

From S2P Require Import Prelude GoLib IO ThirdParty ApiTypes KubeApi KubePods PrivKey CosmosignerSpec SignerResolve Getters.
From S2P Require Import SigningNames SigningPaths Labels Migration MigrationControllers ResourceCleanup Deploy SignerRender SignerJobs TmKms NodeSignerKeys.

(** A step on the set. *)
Abbreviation set_step A := (kube (result (ChainNodeSet * A))).

Definition mnemonicKey : string := "mnemonic".

(** ** Status entries *)

(** Writing through the pointer to the entry of a signer. *)
Definition set_entry (s : ChainNodeSet) (name : string) (f : CosmosignerStatus → CosmosignerStatus) : ChainNodeSet :=
  set_statuses s (update_entry name f (statuses s)).
Definition entry_with_import (imported version : string) (st : CosmosignerStatus) : CosmosignerStatus :=
  mkCosmosignerStatus (st_Name st) (st_ResourceName st) (st_AppliedDigest st) (st_PublicKey st) (st_TargetGroups st) (st_Migration st)
    (st_Replicas st) (st_StateStorageSize st) (st_StateStorageClassName st) (st_SigningDigest st) (st_AtEstablishment st)
    (st_ServingIdentity st) (st_ServingGroup st) (st_LocalKeyEverServed st) imported version.
Definition entry_imported (record : string) (st : CosmosignerStatus) : CosmosignerStatus :=
  entry_with_import record (st_ImportedKeyVersion st) st.
Definition entry_imported_version (version : string) (st : CosmosignerStatus) : CosmosignerStatus :=
  entry_with_import (st_KeyImported st) version st.
(** The entry of a signer, made when there is none. *)
Definition ensured_entry (s : ChainNodeSet) (name : string) : ChainNodeSet * CosmosignerStatus :=
  let s := EnsureCosmosignerStatus s name in
  (s, default (newCosmosignerStatus name) (GetCosmosignerStatus s name)).
Definition update_set_status (s : ChainNodeSet) : kube (result ()) := call (UpdateStatusChainNodeSet s).
(** The entry is changed and the whole status written. *)
Definition write_entry (s : ChainNodeSet) (name : string) (f : CosmosignerStatus → CosmosignerStatus) : kube (result ChainNodeSet) :=
  let s := set_entry s name f in
  update_set_status s ;? return_result s.

(** ** Names, groups and secrets *)

Definition validatorNodeName (s : ChainNodeSet) (group : string) (index : Z) : string := GeneratedValidatorNodeName s group index.
(** The validator groups of a name, in the order of the spec. *)
Definition named_validators (s : ChainNodeSet) (group : string) : list NodeSetValidatorConfig :=
  omap (λ g, if ng_Name g == group then ng_Validator g else None) (ss_Nodes (cns_Spec s)).

Definition signerImagePullSecrets (nodeSet : ChainNodeSet) (s : ResolvedSigner) : list string :=
  let pull (cfg : option Config) := match cfg with Some c => cf_ImagePullSecrets c | None => [] end in
  let group := if (sg_ValidatorGroup s == "") && (0 <? length (sg_TargetGroups s))%nat
               then default "" (head (sg_TargetGroups s)) else sg_ValidatorGroup s in
  if group == ReservedValidatorGroupName then pull (ss_Validator (cns_Spec nodeSet) ≫= nv_Config)
  else match find (λ g, ng_Name g == group) (ss_Nodes (cns_Spec nodeSet)) with
       | Some g => pull (GetServiceConfig g)
       | None => []
       end.

Definition signerNameForNodeWithBlockedTargets (nodeSet : ChainNodeSet) (group : string) (blocked : gset string) : option string :=
  match find (λ s, negb (bool_decide (sg_Name s ∈ blocked)) && existsb (λ t, t == group) (sg_TargetGroups s))
          (ResolveCosmosigners nodeSet) with
  | Some s => Some (CosmosignerResourceName nodeSet s)
  | None => None
  end.
Definition signerNameForNode (nodeSet : ChainNodeSet) (group : string) : option string :=
  signerNameForNodeWithBlockedTargets nodeSet group ∅.

(** The first instance of the group has its key recorded. *)
Definition pubkey_recorded (nodeSet : ChainNodeSet) (group : string) : bool :=
  existsb (λ v, (vst_Name v == validatorNodeName nodeSet group 0) && (vst_PubKey v != "")) (sst_Validators (cns_Status nodeSet)).

Definition signerImportSourcePending (nodeSet : ChainNodeSet) (s : ResolvedSigner) : bool :=
  if sg_ValidatorGroup s == "" then false else
  match (if sg_ValidatorGroup s == ReservedValidatorGroupName then ss_Validator (cns_Spec nodeSet)
         else head (named_validators nodeSet (sg_ValidatorGroup s))) with
  | None => false
  | Some cfg =>
      if is_some (nv_Init cfg) && (sst_ChainID (cns_Status nodeSet) == "") then true
      else if negb (is_some (nv_Init cfg)) && negb (is_some (nv_CreateValidator cfg)) then false
      else negb (pubkey_recorded nodeSet (sg_ValidatorGroup s))
  end.

Definition signerTargetInitializesGenesis (nodeSet : ChainNodeSet) (s : ResolvedSigner) : bool :=
  if sg_ValidatorGroup s == "" then false
  else if sg_ValidatorGroup s == ReservedValidatorGroupName then is_some (ss_Validator (cns_Spec nodeSet) ≫= nv_Init)
  else existsb (λ v, is_some (nv_Init v)) (named_validators nodeSet (sg_ValidatorGroup s)).

(** Empty when the secret does not exist. *)
Definition secretKey (namespace name key : string) : kube (result string) :=
  got ← call (GetSecret Cached namespace name);
  match got with
  | Err e => if IsNotFound e then return_result "" else return_error e
  | Ok secret => return_result (default "" (secret_Data secret !! key))
  end.
Definition secretHasKey (namespace name key : string) : kube (result bool) :=
  data ←? secretKey namespace name key; return_result (data != "").

Definition ownedSignerStatefulSetExists `{MetaApi} (nodeSet : ChainNodeSet) (name : string) : kube (result bool) :=
  got ← call (GetStatefulSet Cached (cns_Namespace nodeSet) name);
  match got with
  | Err e => if IsNotFound e then return_result false else return_error e
  | Ok sts => return_result (IsControlledBy (sts_meta sts) (cns_meta nodeSet))
  end.

(** The genesis validator whose key the signer uses. *)
Definition genesis_match (nodeSet : ChainNodeSet) (secret : string) : option GenesisValidator :=
  find (λ v, gv_PrivKeySecret v == secret)
    (flat_map (λ init, match init with Some i => gn_GenesisValidators i | None => [] end)
       ((ss_Validator (cns_Spec nodeSet) ≫= nv_Init) ::
        map (λ g, if (0 <? GetInstances g)%Z then ng_Validator g ≫= nv_Init else None) (ss_Nodes (cns_Spec nodeSet)))).
Definition require_genesis_secret (namespace kind name key : string) : kube (result ()) :=
  exists_ ←? secretHasKey namespace name key;
  Ret (guard_err (negb exists_)
    (Errorf "genesis-sentry %s secret %q is missing required key %q: init.genesisValidators entries are operator-provided and must exist before signer preflight" [AStr kind; AStr name; AStr key])).
Definition requireGenesisSentrySecrets (nodeSet : ChainNodeSet) (s : ResolvedSigner) : kube (result ()) :=
  if (sst_ChainID (cns_Status nodeSet) != "") || (GenesisSentryEstablishmentIdentity nodeSet s == "") then return_result () else
  match genesis_match nodeSet (sg_SoftwareKeySecret s) with
  | None => return_result ()
  | Some v =>
      require_genesis_secret (cns_Namespace nodeSet) "private-key" (gv_PrivKeySecret v) PrivKeyFilename ;?
      require_genesis_secret (cns_Namespace nodeSet) "account-mnemonic" (gv_AccountMnemonicSecret v) mnemonicKey
  end.

(** ** The keys *)

Section keys.
Context `{MetaApi} `{ApplyApi} `{JsonApi} `{YamlApi} `{QuantityApi} `{PrivvalApi}.
Variable opts : SignerOptions.

Definition set_job_runner (nodeSet : ChainNodeSet) (params : SignerParams) : JobRunner := mkJobRunner (cns_meta nodeSet) params.

Definition set_fallbackTmKMSPublicKey (nodeSet : ChainNodeSet) (st : CosmosignerStatus) (h : TmKmsHashicorpProvider)
    (serviceAccountName : string) : kube (result string) :=
  if negb (so_HasClientSet opts) then return_error (no_clientset "fallback public-key preflight") else
  let image := if so_CosmosignerImage opts != "" then so_CosmosignerImage opts else DefaultCosmosignerImage in
  PublicKey (set_job_runner nodeSet
    (mkSignerParams (CosmosignerStatusResourceName (Some st)) (cns_Namespace nodeSet) "" (mkRoot "" "" "" "" "") "" image 0 "" "" "" None
       no_resources None serviceAccountName []
       (vault_backend (mkVaultBackend (hc_Address h) (hc_Key h) 1 DefaultCosmosignerVaultMount "" (hc_TokenSecret h)
          (hc_CertificateSecret h) (hc_SkipCertificateVerify h))) ∅ ∅)).

(** *** The backend *)

Definition software_key_pending (nodeSet : ChainNodeSet) (s : ResolvedSigner) : bool :=
  if sg_ValidatorGroup s == "" then false else
  let v := if sg_ValidatorGroup s == ReservedValidatorGroupName then ss_Validator (cns_Spec nodeSet)
           else last (named_validators nodeSet (sg_ValidatorGroup s)) in
  let groupInitializes := is_some (v ≫= nv_Init) in
  let generates := groupInitializes || is_some (v ≫= nv_CreateValidator) in
  if groupInitializes && (sst_ChainID (cns_Status nodeSet) == "") then true
  else generates && negb (pubkey_recorded nodeSet (sg_ValidatorGroup s)).

Definition set_check_software_secret (nodeSet : ChainNodeSet) (secretName : string) (keyFlowPending : bool) : kube (result Backend) :=
  got ← call (GetSecret Cached (cns_Namespace nodeSet) secretName);
  match got with
  | Err e =>
      if IsNotFound e && keyFlowPending then return_result (software_backend secretName)
      else if IsNotFound e then
        return_error (Errorf "cosmosigner software key secret %q not found: provide the consensus key registered on-chain — refusing to roll out a signer with no key" [AStr secretName])
      else return_error e
  | Ok secret =>
      let keyMaterial := secret_Data secret !! PrivKeyFilename in
      if negb (is_some keyMaterial) && keyFlowPending then return_result (software_backend secretName)
      else if default "" keyMaterial == "" then
        return_error (Errorf "cosmosigner software key secret %q has no %s: provide the registered consensus key" [AStr secretName; AStr PrivKeyFilename])
      else match LoadPrivKey (default "" keyMaterial) with
           | Err e => return_error (Wrapf e "cosmosigner software key secret %q contains an invalid %s: %w" [AStr secretName; AStr PrivKeyFilename])
           | Ok _ => return_result (software_backend secretName)
           end
  end.

(** The version of a lost status is read back from the live configuration. *)
Definition set_recover_key_version (nodeSet : ChainNodeSet) (s : ResolvedSigner) (g : CosmosignerGcpKmsBackend) : set_step string :=
  match GetCosmosignerStatus nodeSet (sg_Name s) with
  | None => return_result (nodeSet, "")
  | Some st =>
      let recorded := st_ImportedKeyVersion st in
      if is_some (gk_Import g) && (recorded == "") && (st_SigningDigest st != "") then
        got ← call (GetObject Cached "ConfigMap" (cns_Namespace nodeSet) (CosmosignerResourceName nodeSet s));
        match got with
        | Ok configMap =>
            if IsControlledBy (ob_meta configMap) (cns_meta nodeSet) then
              match GcpKeyVersionFromConfigYAML (get_label (config_data configMap) "config.yaml") with
              | Err e => return_error e
              | Ok recovered =>
                  if OwnsKeyVersion (gk_Import g) recovered then
                    nodeSet ←? write_entry nodeSet (sg_Name s) (entry_imported_version recovered);
                    return_result (nodeSet, recovered)
                  else return_result (nodeSet, recorded)
              end
            else return_result (nodeSet, recorded)
        | Err _ => return_result (nodeSet, recorded)
        end
      else return_result (nodeSet, recorded)
  end.

Definition set_cosmosignerBackend (nodeSet : ChainNodeSet) (s : ResolvedSigner) : set_step Backend :=
  match sg_Spec s with
  | None => return_error nil_dereference
  | Some c =>
      match be_Software (cs_Backend c), be_Vault (cs_Backend c), be_GcpKMS (cs_Backend c) with
      | Some _, _, _ =>
          if sg_SoftwareKeySecret s == "" then
            return_error (Errorf "cosmosigner software backend has no resolvable private-key secret" [])
          else
            backend ←? set_check_software_secret nodeSet (sg_SoftwareKeySecret s) (software_key_pending nodeSet s);
            return_result (nodeSet, backend)
      | None, Some v, _ =>
          RequireSecretSelector (cns_Namespace nodeSet) "Vault token" (va_TokenSecret v) ;?
          (RequireSecretSelector (cns_Namespace nodeSet) "Vault certificate" (va_CertificateSecret v) ;?
           return_result (nodeSet, vault_backend (mkVaultBackend (va_Address v) (va_KeyName v) (GetKeyVersion v) (GetVaultMount v)
             (default "" (va_Namespace v)) (va_TokenSecret v) (va_CertificateSecret v) false)))
      | None, None, Some g =>
          RequireSecretSelector (cns_Namespace nodeSet) "GCP credentials" (gk_CredentialsSecret g) ;?
          ('(nodeSet, version) ←? set_recover_key_version nodeSet s g;
           return_result (nodeSet, gcp_backend (mkGcpBackend (ResolvedKeyVersion (Some g) version) (gcpImportParams (gk_Import g))
             (gk_CredentialsSecret g))))
      | None, None, None => return_error (Errorf "cosmosigner has no backend configured" [])
      end
  end.

Definition set_cosmosignerParams (nodeSet : ChainNodeSet) (s : ResolvedSigner) : set_step SignerParams :=
  match sg_Spec s with
  | None => return_error nil_dereference
  | Some c =>
      let exclude := CosmosignerReservedSelectorLabels ++ map (λ i, gi_GetName i (cns_meta nodeSet)) (ss_Ingresses (cns_Spec nodeSet)) ++
                     map (λ g, gg_GetName g (cns_meta nodeSet)) (ss_GatewayRoutes (cns_Spec nodeSet)) in
      let labels := ExcludeMapKeys (WithChainNodeSetLabels nodeSet [{[LabelChainNodeSet := cns_Name nodeSet]}]) exclude in
      '(m, backend) ←? set_cosmosignerBackend nodeSet s;
      return_result (m, mkSignerParams (CosmosignerResourceName m s) (cns_Namespace nodeSet) (cns_UID nodeSet)
        (RootOwnerFor (OwnerChainNodeSet nodeSet)) (sst_ChainID (cns_Status m)) (GetImage (Some c) (so_CosmosignerImage opts))
        (GetReplicas (Some c)) (signer_GetLogLevel c) "" (GetStateStorageSize (Some c)) (cs_StorageClassName c) (signer_GetResources c)
        (cs_RaftTLSSecret c) (signer_GetServiceAccountName c) (signerImagePullSecrets m s) backend labels
        (<[LabelChainNodeSet := cns_Name nodeSet]> {[LabelCosmosignerTarget := CosmosignerResourceName m s]}))
  end.

(** *** The public key *)

Definition imports_generated (nodeSet : ChainNodeSet) (s : ResolvedSigner) : bool :=
  ImportsGeneratedKey (sg_Spec s) (signerTargetInitializesGenesis nodeSet s).
Definition record_matches_target (s : ResolvedSigner) (record : string) : bool :=
  match sg_Spec s with
  | Some c => cosmosignerImportRecordMatchesTarget c record (sg_SoftwareKeySecret s)
  | None => false
  end.
Definition set_backend_public_key (nodeSet : ChainNodeSet) (s : ResolvedSigner) (params : SignerParams) : kube (result string) :=
  if negb (so_HasClientSet opts) then
    return_error (Errorf "cosmosigner %q public-key preflight requires a Kubernetes clientset" [AStr (sg_Name s)])
  else PublicKey (set_job_runner nodeSet params).
Definition cosmosignerPublicKeyWithParams (nodeSet : ChainNodeSet) (s : ResolvedSigner) (params : SignerParams) : kube (result string) :=
  match bk_Software (sp_Backend params) with
  | Some b => PublicKeyFromSecret Cached (cns_Namespace nodeSet) (sb_SecretName b)
  | None =>
      if imports_generated nodeSet s && (sg_SoftwareKeySecret s != "") then
        r ← PublicKeyFromSecret Cached (cns_Namespace nodeSet) (sg_SoftwareKeySecret s);
        match r with
        | Ok publicKey => return_result publicKey
        | Err e =>
            match GetCosmosignerStatus nodeSet (sg_Name s) with
            | Some st =>
                if negb (IsNotFound e) || negb (record_matches_target s (st_KeyImported st)) then return_error e
                else set_backend_public_key nodeSet s params
            | None => return_error e
            end
        end
      else set_backend_public_key nodeSet s params
  end.
Definition set_cosmosignerPublicKey (nodeSet : ChainNodeSet) (s : ResolvedSigner) : set_step string :=
  '(nodeSet, params) ←? set_cosmosignerParams nodeSet s;
  publicKey ←? cosmosignerPublicKeyWithParams nodeSet s params;
  return_result (nodeSet, publicKey).

(** *** Imports

    Each reports whether the import is pending; that the status changed is never reported. *)

Definition import_error (format : string) (s : ResolvedSigner) (args : list fmt_arg) : error :=
  Errorf ("cosmosigner %q " +:+ format) (AStr (sg_Name s) :: args).
Definition set_source_missing (label hint : string) (s : ResolvedSigner) : error :=
  import_error (label +:+ " source secret %q is missing %s: " +:+ hint) s [AStr (sg_SoftwareKeySecret s); AStr PrivKeyFilename].
Definition set_source_invalid (e : error) (label : string) (s : ResolvedSigner) : error :=
  Wrapf e ("cosmosigner %q " +:+ label +:+ " source secret %q contains an invalid %s: %w")
    [AStr (sg_Name s); AStr (sg_SoftwareKeySecret s); AStr PrivKeyFilename].
Definition entry_serves (s : ResolvedSigner) (st : CosmosignerStatus) : bool :=
  (st_SigningDigest st != "") && (Digest s == st_SigningDigest st).

(** The import itself, once the signer has stopped. *)
Definition set_quiesced_then (nodeSet : ChainNodeSet) (params : SignerParams) (k : set_step bool) : set_step bool :=
  quiesced ←? ScaleDown (OwnerChainNodeSet nodeSet) (cns_Namespace nodeSet) (sp_Name params);
  if negb quiesced then return_result (nodeSet, true) else k.

Definition set_import_to_vault (nodeSet : ChainNodeSet) (s : ResolvedSigner) (v : CosmosignerVaultBackend) (params : SignerParams)
    (st : CosmosignerStatus) (keyMaterial : string) : set_step bool :=
  let source := sg_SoftwareKeySecret s in
  let want := VaultImportFingerprint v source keyMaterial in
  if st_KeyImported st == want then return_result (nodeSet, false)
  else if VaultImportRecordMatches v (st_KeyImported st) source keyMaterial then
    nodeSet ←? write_entry nodeSet (sg_Name s) (entry_imported want); return_result (nodeSet, false)
  else if VaultImportRecordMatchesTarget v (st_KeyImported st) source then
    return_error (import_error "Vault uploadGenerated source key changed after import; Vault cannot overwrite an existing transit key — migrate to a new Vault keyName" s [])
  else set_quiesced_then nodeSet params
    (if negb (so_HasClientSet opts) then return_error (import_error "Vault uploadGenerated import requires a Kubernetes clientset" s []) else
     ImportKey (set_job_runner nodeSet params) source ;?
     (nodeSet ←? write_entry nodeSet (sg_Name s) (entry_imported want); return_result (nodeSet, false))).

Definition set_maybeImportCosmosignerKeyToVault (nodeSet : ChainNodeSet) (s : ResolvedSigner) (v : CosmosignerVaultBackend)
    (params : SignerParams) : set_step bool :=
  if sg_SoftwareKeySecret s == "" then
    return_error (Errorf "cosmosigner uploadGenerated requires a targeted validator whose key can be imported" [])
  else
    let '(nodeSet, st) := ensured_entry nodeSet (sg_Name s) in
    if entry_serves s st then return_result (nodeSet, false) else
    keyMaterial ←? secretKey (cns_Namespace nodeSet) (sg_SoftwareKeySecret s) PrivKeyFilename;
    if keyMaterial == "" then
      if VaultImportRecordMatchesTarget v (st_KeyImported st) (sg_SoftwareKeySecret s) then return_result (nodeSet, false)
      else if signerImportSourcePending nodeSet s then return_result (nodeSet, true)
      else return_error (set_source_missing "Vault uploadGenerated" "provide the validator key to import" s)
    else match LoadPrivKey keyMaterial with
         | Err e => return_error (set_source_invalid e "Vault uploadGenerated" s)
         | Ok _ => set_import_to_vault nodeSet s v params st keyMaterial
         end.

Definition set_verifyGcpImportedKey (nodeSet : ChainNodeSet) (s : ResolvedSigner) (g : CosmosignerGcpKmsBackend)
    (params : SignerParams) (keyMaterial : string) : set_step bool :=
  if negb (so_HasClientSet opts) then return_error (import_error "GCP KMS import verification requires a Kubernetes clientset" s []) else
  expected ←? PublicKeyFromSecret Cached (cns_Namespace nodeSet) (sg_SoftwareKeySecret s);
  let '(nodeSet, st) := ensured_entry nodeSet (sg_Name s) in
  let keyVersion := st_ImportedKeyVersion st in
  imported ←? PublicKeyAtVersion (set_job_runner nodeSet params) keyVersion;
  if imported != expected then
    return_error (import_error "imported key version %q serves a different consensus key than source secret %q; refusing to retarget the validator" s
      [AStr keyVersion; AStr (sg_SoftwareKeySecret s)])
  else
    nodeSet ←? write_entry nodeSet (sg_Name s) (entry_imported (GcpImportFingerprint (Some g) (sg_SoftwareKeySecret s) keyMaterial));
    CleanupImportPod (set_job_runner nodeSet params) ≫= λ _, return_result (nodeSet, false).

Definition set_run_gcp_import (nodeSet : ChainNodeSet) (s : ResolvedSigner) (g : CosmosignerGcpKmsBackend)
    (params : SignerParams) (keyMaterial : string) : set_step bool :=
  set_quiesced_then nodeSet params
    (if negb (so_HasClientSet opts) then return_error (import_error "GCP KMS import requires a Kubernetes clientset" s []) else
     version ←? ImportKey (set_job_runner nodeSet params) (sg_SoftwareKeySecret s);
     nodeSet ←? write_entry nodeSet (sg_Name s) (entry_imported_version version);
     CleanupImportPod (set_job_runner nodeSet params) ≫= λ _,
     '(nodeSet, _) ←? set_verifyGcpImportedKey nodeSet s g params keyMaterial;
     return_result (nodeSet, true)).

Definition set_gcp_import_step (nodeSet : ChainNodeSet) (s : ResolvedSigner) (g : CosmosignerGcpKmsBackend) (params : SignerParams)
    (st : CosmosignerStatus) (keyMaterial : string) : set_step bool :=
  match NextGcpImportStep (Some g) (st_KeyImported st) (st_ImportedKeyVersion st) (sg_SoftwareKeySecret s) keyMaterial with
  | GcpImportComplete =>
      if so_HasClientSet opts then CleanupImportPod (set_job_runner nodeSet params) ≫= λ _, return_result (nodeSet, false)
      else return_result (nodeSet, false)
  | GcpImportSourceMissing =>
      if signerImportSourcePending nodeSet s then return_result (nodeSet, true)
      else return_error (set_source_missing "GCP KMS import" "retain the validator key until the imported version is verified" s)
  | GcpImportMismatch =>
      ScaleDown (OwnerChainNodeSet nodeSet) (cns_Namespace nodeSet) (sp_Name params) ;?
      return_error (import_error "GCP KMS import source key changed after import: %q already holds a different consensus key and Cosmopilot does not rotate validator consensus keys — migrate to a new gcpKms.import.key" s
        [AStr (CryptoKeyName (gk_Import g))])
  | GcpImportVerify => set_quiesced_then nodeSet params (set_verifyGcpImportedKey nodeSet s g params keyMaterial)
  | GcpImportRun => set_run_gcp_import nodeSet s g params keyMaterial
  end.

Definition set_maybeImportCosmosignerKeyToGcp (nodeSet : ChainNodeSet) (s : ResolvedSigner) (g : CosmosignerGcpKmsBackend)
    (params : SignerParams) : set_step bool :=
  if sg_SoftwareKeySecret s == "" then
    return_error (import_error "GCP KMS import requires a targeted validator whose key can be imported" s [])
  else
    let '(nodeSet, st) := ensured_entry nodeSet (sg_Name s) in
    if (st_ImportedKeyVersion st != "") && entry_serves s st then return_result (nodeSet, false) else
    keyMaterial ←? secretKey (cns_Namespace nodeSet) (sg_SoftwareKeySecret s) PrivKeyFilename;
    match (if keyMaterial != "" then LoadPrivKey keyMaterial ;; Ok () else Ok ()) with
    | Err e => return_error (set_source_invalid e "GCP KMS import" s)
    | Ok _ => set_gcp_import_step nodeSet s g params st keyMaterial
    end.

Definition set_import_to_configured_vault (nodeSet : ChainNodeSet) (s : ResolvedSigner) (c : Cosmosigner) (params : SignerParams) :
    set_step bool :=
  match be_Vault (cs_Backend c) with
  | Some v => if VaultUploadsGenerated (Some c) (signerTargetInitializesGenesis nodeSet s)
              then set_maybeImportCosmosignerKeyToVault nodeSet s v params else return_result (nodeSet, false)
  | None => return_result (nodeSet, false)
  end.
Definition set_maybeImportCosmosignerKey (nodeSet : ChainNodeSet) (s : ResolvedSigner) (params : SignerParams) : set_step bool :=
  match sg_Spec s with
  | None => return_error nil_dereference
  | Some c =>
      match be_GcpKMS (cs_Backend c) with
      | Some g => if GcpImportsKey (Some c) then set_maybeImportCosmosignerKeyToGcp nodeSet s g params
                  else set_import_to_configured_vault nodeSet s c params
      | None => set_import_to_configured_vault nodeSet s c params
      end
  end.

(** Needs no further import. *)
Definition cosmosignerImportComplete (c : Cosmosigner) (record keyVersion sourceSecret keyMaterial : string) : bool :=
  if GcpImportsKey (Some c) then
    bool_decide (NextGcpImportStep (be_GcpKMS (cs_Backend c)) record keyVersion sourceSecret keyMaterial = GcpImportComplete)
  else match be_Vault (cs_Backend c) with
       | Some v => record == VaultImportFingerprint v sourceSecret keyMaterial
       | None => false
       end.

(** *** Adoption of a key that tmKMS uploaded *)

Definition adoptable_child (nodeSet : ChainNodeSet) (s : ResolvedSigner) (child : ChainNode) : option TmKmsHashicorpProvider :=
  if negb (IsControlledBy (cn_meta child) (cns_meta nodeSet)) ||
     (annotation (cn_meta child) AnnotationVaultKeyUploaded != StringValueTrue) ||
     negb (ValidatorResolvesSigningIdentity child (Identity s)) then None
  else match ns_Validator (cn_Spec child) ≫= vc_TmKMS with Some t => tk_Hashicorp t | None => None end.
Definition verify_adoption (nodeSet : ChainNodeSet) (s : ResolvedSigner) (v : CosmosignerVaultBackend) (h : TmKmsHashicorpProvider)
    (serviceAccountName keyMaterial : string) : set_step bool :=
  expected ←? PublicKeyFromSecret Cached (cns_Namespace nodeSet) (sg_SoftwareKeySecret s);
  let '(nodeSet, st) := ensured_entry nodeSet (sg_Name s) in
  got ← set_fallbackTmKMSPublicKey nodeSet st h serviceAccountName;
  match got with
  | Err e => return_error (Wrapf e "cosmosigner %q could not verify the tmKMS-uploaded Vault key before adoption: %w" [AStr (sg_Name s)])
  | Ok actual =>
      if actual != expected then
        return_error (import_error "cannot adopt tmKMS Vault key: backend public key does not match source secret %q" s [AStr (sg_SoftwareKeySecret s)])
      else
        nodeSet ←? write_entry nodeSet (sg_Name s) (entry_imported (VaultImportFingerprint v (sg_SoftwareKeySecret s) keyMaterial));
        return_result (nodeSet, true)
  end.
Definition set_adoptTmKMSVaultImport (nodeSet : ChainNodeSet) (s : ResolvedSigner) (keyMaterial : string) : set_step bool :=
  match sg_Spec s ≫= λ c, (λ v, (c, v)) <$> be_Vault (cs_Backend c) with
  | None => return_result (nodeSet, false)
  | Some (c, v) =>
      if negb (VaultUploadsGenerated (Some c) (signerTargetInitializesGenesis nodeSet s)) || (keyMaterial == "") ||
         (sg_ValidatorGroup s == "") then return_result (nodeSet, false) else
      got ← call (GetChainNode Cached (cns_Namespace nodeSet) (validatorNodeName nodeSet (sg_ValidatorGroup s) 0));
      match got with
      | Err e => if IsNotFound e then return_result (nodeSet, false) else return_error e
      | Ok child =>
          match adoptable_child nodeSet s child with
          | None => return_result (nodeSet, false)
          | Some h => verify_adoption nodeSet s v h (signer_GetServiceAccountName c) keyMaterial
          end
      end
  end.
End keys.
