(* ===== verification/SetSigner.v ===== *)
(** * The signers of a set ([internal/controllers/chainnodeset/cosmosigner.go])

    How a node set checks its managed signers, recovers and reserves their keys
    and falls back when a signer is removed; SetRollout deploys them.
    Each routine that changes the set in memory returns the set the controller
    goes on with; a signer is told the key that was reserved for it. *)

From S2P Require Import Prelude GoLib IO ThirdParty Reference ApiTypes KubeApi KubePods PrivKey CosmosignerSpec SignerResolve Getters UniqueSecrets.
From S2P Require Import SigningNames SigningPaths Labels Migration MigrationControllers ResourceCleanup Deploy Teardown NodeFinalize Reservation ReservationSet.
From S2P Require Import SignerRender SignerJobs TmKms NodeSignerKeys NodeSigner SetSignerKeys.

(** A loop over a list that carries a state and ends at the first error. *)
Fixpoint fold_call {A S} (f : S → A → kube (result S)) (l : list A) (s : S) : kube (result S) :=
  match l with
  | [] => return_result s
  | x :: l => s ←? f s x; fold_call f l s
  end.

(** [client.MatchingLabels] *)
Definition selected (m : ObjectMeta) (selector : gmap string string) : bool := bool_decide (selector ⊆ meta_Labels m).
(** The nodes and the pods of a set that are told to connect to a signer. *)
Definition target_selector (nodeSet : ChainNodeSet) (signerName : string) : gmap string string :=
  {[LabelChainNodeSet := cns_Name nodeSet; LabelCosmosignerTarget := signerName]}.
Definition list_selected_pods (nodeSet : ChainNodeSet) (selector : gmap string string) : kube (result (list Pod)) :=
  pods ←? call (ListPods Cached (cns_Namespace nodeSet));
  return_result (filter (λ p, selected (pod_meta p) selector = true) pods).
Definition list_selected_children (nodeSet : ChainNodeSet) (selector : gmap string string) : kube (result (list ChainNode)) :=
  children ←? call (ListChainNodes Cached (Some (cns_Namespace nodeSet)));
  return_result (filter (λ n, selected (cn_meta n) selector = true) children).

Definition is_desired (desired : list ResolvedSigner) (name : string) : bool := existsb (λ s, sg_Name s == name) desired.

(** ** Signers that take the place of others *)

(** The entry of a signer that goes on with the resources of another. *)
Definition replacement_entry (s : ResolvedSigner) (old : CosmosignerStatus) : CosmosignerStatus :=
  let applied := if st_AppliedDigest old == "" then st_SigningDigest old else st_AppliedDigest old in
  mkCosmosignerStatus (sg_Name s) (CosmosignerStatusResourceName (Some old)) applied (st_PublicKey old) (st_TargetGroups old)
    (if (applied != "") && (st_PublicKey old != "")
     then Some (mkMigration (Digest s) (st_PublicKey old) CosmosignerMigrationQuiescing false None) else None)
    (st_Replicas old) (st_StateStorageSize old) (st_StateStorageClassName old) (st_SigningDigest old) (st_AtEstablishment old)
    (st_ServingIdentity old) (st_ServingGroup old) (st_LocalKeyEverServed old) (st_KeyImported old) (st_ImportedKeyVersion old).

Definition replaced_by (nodeSet : ChainNodeSet) (desired : list ResolvedSigner) (s : ResolvedSigner) (old : CosmosignerStatus) : bool :=
  negb (is_desired desired (st_Name old)) &&
  match DesiredReplacementSigner nodeSet desired (Some old) with Some r => sg_Name r == sg_Name s | None => false end.

Definition replace_name (desired : list ResolvedSigner) (acc : ChainNodeSet * bool) (s : ResolvedSigner) : ChainNodeSet * bool :=
  let '(nodeSet, changed) := acc in
  match GetCosmosignerStatus nodeSet (sg_Name s) with
  | Some _ => (nodeSet, changed)
  | None =>
      match find (replaced_by nodeSet desired s) (statuses nodeSet) with
      | Some old => (set_entry (EnsureCosmosignerStatus nodeSet (sg_Name s)) (sg_Name s) (λ _, replacement_entry s old), true)
      | None => (nodeSet, changed)
      end
  end.

Definition initCosmosignerReplacementNames (nodeSet : ChainNodeSet) : set_step bool :=
  let desired := ResolveCosmosigners nodeSet in
  let '(nodeSet, changed) := foldl (replace_name desired) (nodeSet, false) desired in
  if changed then update_set_status nodeSet ;? return_result (nodeSet, true) else return_result (nodeSet, false).

Definition legacyPerInstanceCosmosignerGroup (nodeSet : ChainNodeSet) : option string :=
  ng_Name <$> find (λ g, is_some (ng_Validator g) && HasLegacyPerInstanceCosmosignerStatus nodeSet (ng_Name g)) (ss_Nodes (cns_Spec nodeSet)).

Definition signerStatusNeedsRecovery (st : option CosmosignerStatus) : bool :=
  match st with Some st => (st_AppliedDigest st == "") && (st_SigningDigest st == "") | None => true end.

(** ** Names a signer was known under *)

Definition validatorNodeNameMatchesGroup (nodeSet : ChainNodeSet) (group name : string) : bool :=
  if group == ReservedValidatorGroupName then name == validatorNodeName nodeSet group 0 else
  let prefix := cns_Name nodeSet +:+ "-" +:+ group +:+ "-" in
  has_prefix name prefix && is_some (canonical_ordinal (TrimPrefix name prefix)).

Definition nodeSetCosmosignerLegacyStatusNames (nodeSet : ChainNodeSet) (desired : list ResolvedSigner) (signer : ResolvedSigner) : list string :=
  sg_Name signer ::
  map st_Name (filter (λ st, st_Name st ≠ sg_Name signer ∧
      (match DesiredReplacementSigner nodeSet desired (Some st) with Some r => sg_Name r == sg_Name signer | None => false end) = true)
    (statuses nodeSet)).

Definition nodeSetCosmosignerConflictResourceNames (nodeSet : ChainNodeSet) (desired : list ResolvedSigner) (publicKey current : string) : list string :=
  current :: map (CosmosignerResourceName nodeSet)
    (filter (λ s, (match GetCosmosignerStatus nodeSet (sg_Name s) with Some st => st_PublicKey st == publicKey | None => false end) = true) desired).

(** The instances of the validator group of a signer. *)
Definition validator_instances (nodeSet : ChainNodeSet) (signer : ResolvedSigner) : Z :=
  if sg_ValidatorGroup signer == ReservedValidatorGroupName then 1
  else match find (λ g, ng_Name g == sg_ValidatorGroup signer) (ss_Nodes (cns_Spec nodeSet)) with
       | Some g => GetInstances g
       | None => 0
       end.

Section signers.
Context `{MetaApi} `{ApplyApi} `{JsonApi} `{YamlApi} `{QuantityApi} `{PrivvalApi} `{RetryApi}.
Variable opts : SignerOptions.
(** The rounds an acquisition may take. *)
Variable fuel : nat.

(** Why a validator's key cannot be the one it is recorded with. *)
Definition recorded_key_refusal (signer : ResolvedSigner) (publicKey recorded what name : string) : result () :=
  let onChain := canonicalSDKPublicKey recorded in
  guard_err (onChain == "") (Errorf ("cosmosigner %q cannot verify the on-chain validator public key recorded " +:+ what) [AStr (sg_Name signer); AStr name]) ;;
  guard_err (publicKey != onChain)
    (Errorf ("cosmosigner %q public key does not match the on-chain validator public key recorded " +:+ what +:+ "; Cosmopilot does not rotate validator consensus keys")
       [AStr (sg_Name signer); AStr name]).
Definition validate_recorded (signer : ResolvedSigner) (publicKey : string) (v : ChainNodeSetValidatorStatus) : result () :=
  if (vst_Group v != sg_ValidatorGroup signer) || (vst_PubKey v == "") then Ok ()
  else recorded_key_refusal signer publicKey (vst_PubKey v) "for group %q" (sg_ValidatorGroup signer).

(** ** The owner *)

Definition set_prepareCosmosignerOwner (nodeSet : ChainNodeSet) : set_step bool :=
  needsFinalizer ←? (if (0 <? length (ResolveCosmosigners nodeSet))%nat || (0 <? length (statuses nodeSet))%nat then return_result true
                     else HasOwnedSignerState (OwnerChainNodeSet nodeSet) (cns_Namespace nodeSet));
  nodeSet ←? (if needsFinalizer && negb (ContainsFinalizer (cns_meta nodeSet) OwnerFinalizer) then
                let nodeSet := with_cns_meta nodeSet (AddFinalizer (cns_meta nodeSet) OwnerFinalizer) in
                call (UpdateChainNodeSet nodeSet) ;? return_result nodeSet
              else return_result nodeSet);
  if negb (ContainsFinalizer (cns_meta nodeSet) OwnerFinalizer) then return_result (nodeSet, false) else
  protected ←? ProtectRetainedStatePVCs (OwnerChainNodeSet nodeSet) (cns_Namespace nodeSet);
  return_result (nodeSet, protected).

(** ** Stopping *)

Fixpoint quiesce_names (nodeSet : ChainNodeSet) (cause : error) (seen : gset string) (names : list string) : kube error :=
  match names with
  | [] => Ret cause
  | name :: names =>
      if (name == "") || bool_decide (name ∈ seen) then quiesce_names nodeSet cause seen names else
      r ← ScaleDown (OwnerChainNodeSet nodeSet) (cns_Namespace nodeSet) name;
      quiesce_names nodeSet
        (match r with Err _ => Wrapf cause "%w; failed to scale down cosmosigner %q: %v" [AStr name] | Ok _ => cause end)
        ({[name]} ∪ seen) names
  end.
(** The cause is what is returned, with what else failed. *)
Definition quiesceCosmosigners {A} (nodeSet : ChainNodeSet) (cause : error) (names : list string) : kube (result A) :=
  e ← quiesce_names nodeSet cause ∅ names; return_error e.

(** ** Preflight *)

Definition validateTrackedSignerStatefulSets (nodeSet : ChainNodeSet) (desired : list ResolvedSigner) : kube (result ()) :=
  let known : gset string := list_to_set (map (CosmosignerResourceName nodeSet) desired ++
                                          map (λ st, CosmosignerStatusResourceName (Some st)) (statuses nodeSet)) in
  sets ←? call (ListStatefulSets Cached (cns_Namespace nodeSet));
  match find (λ sts, IsOwnedSignerStatefulSet sts (OwnerChainNodeSet nodeSet) && negb (bool_decide (sts_Name sts ∈ known))) sets with
  | Some sts => return_error (Errorf "cosmosigner StatefulSet %q is owned by this ChainNodeSet but has no status entry (status lost or restored incomplete): cannot verify the signing identity it serves — restore .status.cosmosigners or delete the signer before reconciling" [AStr (sts_Name sts)])
  | None => return_result ()
  end.

(** What the labels of a live target record must agree with the spec. *)
Definition validate_target (s : ResolvedSigner) (source : string) (labels : gmap string string) : result () :=
  let group := get_label labels LabelChainNodeSetGroup in
  let marker := get_label labels LabelValidator in
  guard_err (negb (existsb (λ g, g == group) (sg_TargetGroups s)))
    (Errorf "cosmosigner %q is still serving nodes of group %q, which the current spec no longer targets, and its recorded status was lost: refusing to adopt the live signer under the new targets — restore .status.cosmosigners or the previous target set" [AStr (sg_Name s); AStr group]) ;;
  guard_err ((marker != StringValueTrue) && (marker != StringValueFalse))
    (Errorf "cosmosigner %q recovered %s for group %q has no trustworthy validator marker: restore .status.cosmosigners before adopting the live signer" [AStr (sg_Name s); AStr source; AStr group]) ;;
  guard_err (negb (Bool.eqb (marker == StringValueTrue) (TargetsValidator s && (group == sg_ValidatorGroup s))))
    (Errorf "cosmosigner %q recovered %s for group %q records validator=%t but the current spec resolves validator=%t: refusing to change the target kind after status loss"
      [AStr (sg_Name s); AStr source; AStr group; AStr (FormatBool (marker == StringValueTrue));
       AStr (FormatBool (TargetsValidator s && (group == sg_ValidatorGroup s)))]).

Definition validateRecoveredSignerTargets (nodeSet : ChainNodeSet) (s : ResolvedSigner) (resourceName : string)
    (requireEvidence : bool) : kube (result ()) :=
  let selector := target_selector nodeSet resourceName in
  pods ←? list_selected_pods nodeSet selector;
  match for_each (λ p, validate_target s "pod" (meta_Labels (pod_meta p))) pods with
  | Err e => return_error e
  | Ok _ =>
      children ←? list_selected_children nodeSet selector;
      let owned := filter (λ n, IsControlledBy (cn_meta n) (cns_meta nodeSet) = true) children in
      match for_each (λ n, validate_target s "owned child" (meta_Labels (cn_meta n))) owned with
      | Err e => return_error e
      | Ok _ =>
          Ret (guard_err (requireEvidence && (length pods + length owned =? 0)%nat)
            (Errorf "cosmosigner %q is live but no prior target with a validator marker remains: restore .status.cosmosigners before adopting the signer" [AStr (sg_Name s)]))
      end
  end.

Definition set_preflight_deployable (nodeSet : ChainNodeSet) (s : ResolvedSigner) (resourceName : string) : kube (result ()) :=
  let st := GetCosmosignerStatus nodeSet (sg_Name s) in
  let initializes := signerTargetInitializesGenesis nodeSet s in
  let required := RetainedStateRequired (lk_established (status_locks st)) (st ≫= st_Migration) in
  PreflightDeployable (cns_meta nodeSet) (cns_Namespace nodeSet) resourceName
    (match st ≫= st_Replicas with Some r => if required then r else GetReplicas (sg_Spec s) | None => GetReplicas (sg_Spec s) end)
    (ImportsGeneratedKey (sg_Spec s) initializes) (UsesPubkeyPod (sg_Spec s) initializes) required.

(** An exact lifecycle digest can precede the first labels; anything older needs targets as evidence. *)
Definition target_evidence_needed (nodeSet : ChainNodeSet) (s : ResolvedSigner) (params : SignerParams) (recovered resourceName : string) :
    kube (result bool) :=
  match LifecycleDigest (with_expected_key params recovered) (Digest s) with
  | Err e => return_error e
  | Ok desiredDigest =>
      found ←? ReadLifecycleDigest (cns_Namespace nodeSet) resourceName;
      return_result (negb (bool_decide (found = Some desiredDigest)))
  end.
Definition set_preflight_recovery (nodeSet : ChainNodeSet) (s : ResolvedSigner) (params : SignerParams) (resourceName : string) :
    kube (result ()) :=
  let st := GetCosmosignerStatus nodeSet (sg_Name s) in
  if negb (signerStatusNeedsRecovery st) then return_result () else
  r ← RecoveredSigningPublicKey (cns_meta nodeSet) params;
  match r with
  | Err e => quiesceCosmosigners nodeSet e [resourceName]
  | Ok (recovered, live) =>
      let recordedRecovery := match st with Some st => is_some (st_Replicas st) && (st_StateStorageSize st != "") | None => false end in
      if live || recordedRecovery then
        evidence ←? (if live : bool then target_evidence_needed nodeSet s params recovered resourceName else return_result false);
        validateRecoveredSignerTargets nodeSet s resourceName evidence
      else return_result ()
  end.

(** The key to import exists unless the backend holds it or a flow will make it. *)
Definition set_preflight_import_source (nodeSet : ChainNodeSet) (s : ResolvedSigner) (c : Cosmosigner) : kube (result ()) :=
  let st := GetCosmosignerStatus nodeSet (sg_Name s) in
  let held := match st with
              | Some st => entry_serves s st || cosmosignerImportRecordMatchesTarget c (st_KeyImported st) (sg_SoftwareKeySecret s)
              | None => false
              end in
  if negb (imports_generated nodeSet s) || held || signerImportSourcePending nodeSet s then return_result () else
  keyMaterial ←? secretKey (cns_Namespace nodeSet) (sg_SoftwareKeySecret s) PrivKeyFilename;
  if keyMaterial == "" then return_error (set_source_missing (cosmosignerImportLabel c) "provide the validator key to import" s)
  else match LoadPrivKey keyMaterial with
       | Err e => return_error (set_source_invalid e (cosmosignerImportLabel c) s)
       | Ok _ => return_result ()
       end.

Definition preflight_signer (acc : ChainNodeSet * gmap string string) (s : ResolvedSigner) : kube (result (ChainNodeSet * gmap string string)) :=
  let '(nodeSet, resourceNames) := acc in
  let resourceName := CosmosignerResourceName nodeSet s in
  match resourceNames !! resourceName with
  | Some previous => return_error (Errorf "cosmosigners %q and %q resolve to the same stable resource name %q; complete or revert the previous placement migration" [AStr previous; AStr (sg_Name s); AStr resourceName])
  | None =>
      requireGenesisSentrySecrets nodeSet s ;?
      ('(nodeSet, params) ←? set_cosmosignerParams opts nodeSet s;
       set_preflight_deployable nodeSet s resourceName ;?
       (set_preflight_recovery nodeSet s params resourceName ;?
        match sg_Spec s with
        | None => return_error nil_dereference
        | Some c =>
            RequireRaftTLSSecret (cns_Namespace nodeSet) (cs_RaftTLSSecret c) ;?
            (RequireServiceAccount (cns_Namespace nodeSet) (signer_GetServiceAccountName c) ;?
             (set_preflight_import_source nodeSet s c ;?
              return_result (nodeSet, <[resourceName := sg_Name s]> resourceNames)))
        end))
  end.

Definition preflightCosmosigners (nodeSet : ChainNodeSet) : kube (result ChainNodeSet) :=
  let desired := ResolveCosmosigners nodeSet in
  validateTrackedSignerStatefulSets nodeSet desired ;?
  ('(nodeSet, _) ←? fold_call preflight_signer desired (nodeSet, ∅); return_result nodeSet).

(** ** Reservation *)

Definition nodeSetCosmosignerLegacyNodeNames (nodeSet : ChainNodeSet) (signer : ResolvedSigner) : kube (result (list string)) :=
  if negb (TargetsValidator signer) then return_result [] else
  let group := sg_ValidatorGroup signer in
  let instances := map (validatorNodeName nodeSet group) (indices (validator_instances nodeSet signer)) in
  let recorded := map vst_Name (filter (λ v, vst_Group v = group) (sst_Validators (cns_Status nodeSet))) in
  children ←? call (ListChainNodes Cached (Some (cns_Namespace nodeSet)));
  let owned := map cn_Name (filter (λ n, IsControlledBy (cn_meta n) (cns_meta nodeSet) && validatorNodeNameMatchesGroup nodeSet group (cn_Name n) = true)
                              children) in
  return_result (sortedUnique (filter (λ name, name ≠ "") (instances ++ recorded ++ owned))).

Definition validate_child (nodeSet : ChainNodeSet) (signer : ResolvedSigner) (publicKey : string) (child : ChainNode) : result () :=
  if negb (IsControlledBy (cn_meta child) (cns_meta nodeSet)) || (nst_PubKey (cn_Status child) == "") then Ok ()
  else recorded_key_refusal signer publicKey (nst_PubKey (cn_Status child)) "by owned child ChainNode %q" (cn_Name child).
(** A child that exists joins those already looked at. *)
Definition validate_named_child (nodeSet : ChainNodeSet) (signer : ResolvedSigner) (publicKey : string) (seen : gset string) (name : string) :
    kube (result (gset string)) :=
  got ← call (GetChainNode Cached (cns_Namespace nodeSet) name);
  match got with
  | Err e => if IsNotFound e then return_result seen else return_error e
  | Ok child => match validate_child nodeSet signer publicKey child with
                | Err e => return_error e
                | Ok _ => return_result ({[cn_Name child]} ∪ seen)
                end
  end.
Definition validateValidatorSignerPublicKey (nodeSet : ChainNodeSet) (signer : ResolvedSigner) (publicKey : string)
    (legacyNodeNames : list string) : kube (result ()) :=
  match for_each (validate_recorded signer publicKey) (sst_Validators (cns_Status nodeSet)) with
  | Err e => return_error e
  | Ok _ =>
      seen ←? fold_call (validate_named_child nodeSet signer publicKey) legacyNodeNames ∅;
      children ←? list_selected_children nodeSet
        {[LabelChainNodeSet := cns_Name nodeSet; LabelChainNodeSetGroup := sg_ValidatorGroup signer]};
      Ret (for_each (λ child, if bool_decide (cn_Name child ∈ seen) then Ok () else validate_child nodeSet signer publicKey child) children)
  end.

(** The key does not exist yet; a flow of the controller will make it. *)
Definition key_not_generated (nodeSet : ChainNodeSet) (s : ResolvedSigner) : kube (result bool) :=
  if signerImportSourcePending nodeSet s && (UsesSoftwareBackend (sg_Spec s) || imports_generated nodeSet s) then
    keyMaterial ←? secretKey (cns_Namespace nodeSet) (sg_SoftwareKeySecret s) PrivKeyFilename;
    return_result (keyMaterial == "")
  else return_result false.

(** The key of the live signer when the status lost it, else the one the backend should sign with. *)
Definition set_signing_key (nodeSet : ChainNodeSet) (s : ResolvedSigner) (params : SignerParams) : kube (result string) :=
  recovered ←? (if signerStatusNeedsRecovery (GetCosmosignerStatus nodeSet (sg_Name s)) then
                  r ← RecoveredSigningPublicKey (cns_meta nodeSet) params;
                  match r with
                  | Err e => quiesceCosmosigners nodeSet e [sp_Name params]
                  | Ok (recovered, live) => return_result (if live : bool then recovered else "")
                  end
                else return_result "");
  if recovered == "" then cosmosignerPublicKeyWithParams opts nodeSet s params else return_result recovered.

(** A validator keeps the key it is recorded with, on chain and in the status of its signer. *)
Definition validate_signer_key (nodeSet : ChainNodeSet) (s : ResolvedSigner) (params : SignerParams) (publicKey : string)
    (legacyNodeNames : list string) : kube (result ()) :=
  if negb (TargetsValidator s) then return_result () else
  r ← validateValidatorSignerPublicKey nodeSet s publicKey legacyNodeNames;
  match r with
  | Err e => quiesceCosmosigners nodeSet e [sp_Name params]
  | Ok _ =>
      match GetCosmosignerStatus nodeSet (sg_Name s) with
      | Some st =>
          if (st_PublicKey st != "") && (publicKey != st_PublicKey st) then
            quiesceCosmosigners nodeSet
              (Errorf "cosmosigner %q cannot change a validator public key after rollout because the replacement would not inherit its slash-protection history" [AStr (sg_Name s)])
              [sp_Name params]
          else return_result ()
      | None => return_result ()
      end
  end.

Definition set_signer_holder (nodeSet : ChainNodeSet) (desired : list ResolvedSigner) (s : ResolvedSigner) (legacyNodeNames : list string) :
    ReservationHolder :=
  mkHolder (cns_UID nodeSet) "ChainNodeSet" (cns_Namespace nodeSet) (cns_Name nodeSet) (nodeSetCosmosignerReservationClaim nodeSet s)
    (nodeSetCosmosignerLegacyStatusNames nodeSet desired s) legacyNodeNames.
Definition reserve_set_key (nodeSet : ChainNodeSet) (desired : list ResolvedSigner) (s : ResolvedSigner) (params : SignerParams)
    (publicKey : string) (legacyNodeNames : list string) : kube (result ()) :=
  r ← ensureConsensusKeyReservation fuel (sst_ChainID (cns_Status nodeSet)) publicKey (set_signer_holder nodeSet desired s legacyNodeNames);
  match r with
  | Ok _ => return_result ()
  | Err e =>
      if errors_is e ErrConsensusKeyReservationConflict
      then quiesceCosmosigners nodeSet e (nodeSetCosmosignerConflictResourceNames nodeSet desired publicKey (sp_Name params))
      else return_error e
  end.

(** What the loop carries: the set, the parameters by name and who uses each key. *)
Record Preparing := mkPreparing {
  pp_Set : ChainNodeSet;
  pp_Params : gmap string SignerParams;
  pp_Owners : gmap string (string * string);
}.
Definition prepared_signer (p : Preparing) (nodeSet : ChainNodeSet) (s : ResolvedSigner) (params : SignerParams) (publicKey : string) : Preparing :=
  mkPreparing nodeSet (<[sg_Name s := with_expected_key params publicKey]> (pp_Params p))
    (<[publicKey := (sg_Name s, sp_Name params)]> (pp_Owners p)).

Definition prepare_signer (desired : list ResolvedSigner) (p : Preparing) (s : ResolvedSigner) : kube (result Preparing) :=
  skip ←? key_not_generated (pp_Set p) s;
  if skip : bool then return_result p else
  '(nodeSet, params) ←? set_cosmosignerParams opts (pp_Set p) s;
  publicKey ←? set_signing_key nodeSet s params;
  match pp_Owners p !! publicKey with
  | Some (previousName, previousResource) =>
      quiesceCosmosigners nodeSet
        (conflict "%w: cosmosigners %q and %q resolve to the same consensus public key on chain %q; one ChainNodeSet cannot run independent double-sign state for the same validator key"
           [AStr previousName; AStr (sg_Name s); AStr (sst_ChainID (cns_Status nodeSet))])
        [previousResource; sp_Name params]
  | None =>
      legacyNodeNames ←? nodeSetCosmosignerLegacyNodeNames nodeSet s;
      validate_signer_key nodeSet s params publicKey legacyNodeNames ;?
      (reserve_set_key nodeSet desired s params publicKey legacyNodeNames ;?
       return_result (prepared_signer p nodeSet s params publicKey))
  end.

Definition prepareCosmosignerParams (nodeSet : ChainNodeSet) : set_step (gmap string SignerParams) :=
  let desired := ResolveCosmosigners nodeSet in
  p ←? fold_call (prepare_signer desired) desired (mkPreparing nodeSet ∅ ∅);
  return_result (pp_Set p, pp_Params p).

(** ** Removed signers *)

Definition independentRemovedSignerFallbackStateError (st : CosmosignerStatus) : error :=
  Errorf "cosmosigner %q cannot be removed: validator group %q has independent local/tmKMS slash-protection state that cannot be proven synchronized with the managed signer; migrate to another managed signer or implement an explicit quiesce-and-state-transfer handoff" [AStr (st_Name st); AStr (st_ServingGroup st)].
Definition requireMatchingRemovedSignerPublicKey (st : CosmosignerStatus) (fallback : string) : result () :=
  if st_PublicKey st == "" then
    Err (Errorf "cosmosigner %q cannot be removed: its applied public key was not recorded; restore the previous signer configuration for one reconcile before removing it" [AStr (st_Name st)])
  else guard_err (fallback != st_PublicKey st)
    (Errorf "cosmosigner %q cannot be removed: fallback signing public key does not match the applied signer public key" [AStr (st_Name st)]).
(** Even a fallback with the same key is refused. *)
Definition set_fallback_verdict (st : CosmosignerStatus) (publicKey : string) : result () :=
  requireMatchingRemovedSignerPublicKey st publicKey ;; Err (independentRemovedSignerFallbackStateError st).

Definition set_requireTmKMSSecret (namespace purpose : string) (selector : option SecretKeySelector) : kube (result ()) :=
  let unset := Errorf "%s secret selector must set both name and key" [AStr purpose] in
  match selector with
  | None => return_error unset
  | Some sel =>
      if (sel_Name sel == "") || (sel_Key sel == "") then return_error unset else
      r ← secretKey namespace (sel_Name sel) (sel_Key sel);
      match r with
      | Err e => return_error (Wrapf e "read %s secret %q: %w" [AStr purpose; AStr (sel_Name sel)])
      | Ok data => Ret (guard_err (data == "") (Errorf "%s secret %q is missing required key %q" [AStr purpose; AStr (sel_Name sel); AStr (sel_Key sel)]))
      end
  end.
Definition cannot_be_removed (st : CosmosignerStatus) (rest : string) (args : list fmt_arg) : error :=
  Errorf ("cosmosigner %q cannot be removed: " +:+ rest) (AStr (st_Name st) :: args).
Definition removal_refused {A} (st : CosmosignerStatus) (m : kube (result A)) : kube (result A) :=
  r ← m;
  match r with
  | Err e => return_error (Wrapf e "cosmosigner %q cannot be removed: %w" [AStr (st_Name st)])
  | Ok a => return_result a
  end.

Definition set_tmkms_fallback (nodeSet : ChainNodeSet) (st : CosmosignerStatus) (h : TmKmsHashicorpProvider) (serviceAccountName : string) :
    kube (result ()) :=
  let group := [AStr (st_ServingGroup st)] in
  if (TrimSpace (hc_Address h) == "") || (TrimSpace (hc_Key h) == "") then
    return_error (cannot_be_removed st "validator group %q tmKMS Hashicorp address and key are required" group)
  else if hc_SkipCertificateVerify h then
    return_error (cannot_be_removed st "validator group %q tmKMS Vault TLS verification must be enabled for authenticated fallback preflight" group)
  else
    removal_refused st (set_requireTmKMSSecret (cns_Namespace nodeSet) "tmKMS Vault token" (hc_TokenSecret h)) ;?
    ((if is_some (hc_CertificateSecret h)
      then removal_refused st (set_requireTmKMSSecret (cns_Namespace nodeSet) "tmKMS Vault certificate" (hc_CertificateSecret h))
      else return_result ()) ;?
     (publicKey ←? removal_refused st (set_fallbackTmKMSPublicKey opts nodeSet st h serviceAccountName);
      Ret (set_fallback_verdict st publicKey))).

Definition set_local_fallback (nodeSet : ChainNodeSet) (st : CosmosignerStatus) (cfg : NodeSetValidatorConfig) : kube (result ()) :=
  let validator := mkMeta (validatorNodeName nodeSet (st_ServingGroup st) 0) (cns_Namespace nodeSet) "" ∅ None [] [] None 0 "" in
  let secretName := nv_GetPrivKeySecretName (Some cfg) validator in
  let names := [AStr secretName; AStr PrivKeyFilename] in
  r ← secretKey (cns_Namespace nodeSet) secretName PrivKeyFilename;
  match r with
  | Err e => return_error (Wrapf e "preflight local signing fallback for cosmosigner %q: %w" [AStr (st_Name st)])
  | Ok keyMaterial =>
      if keyMaterial == "" then return_error (cannot_be_removed st "local signing fallback secret %q is missing required key %q" names) else
      r ← PublicKeyFromSecret Cached (cns_Namespace nodeSet) secretName;
      match r with
      | Err e => return_error (cannot_be_removed st "local signing fallback secret %q contains an invalid %s" names)
      | Ok publicKey => Ret (set_fallback_verdict st publicKey)
      end
  end.

(** The validator the signer served, and its instances. *)
Definition served_group (nodeSet : ChainNodeSet) (group : string) : option NodeSetValidatorConfig * Z :=
  if group == ReservedValidatorGroupName then
    (ss_Validator (cns_Spec nodeSet), if is_some (ss_Validator (cns_Spec nodeSet)) then 1%Z else 0%Z)
  else match find (λ g, ng_Name g == group) (ss_Nodes (cns_Spec nodeSet)) with
       | Some g => (ng_Validator g, GetInstances g)
       | None => (None, 0%Z)
       end.
Definition served_fallback (nodeSet : ChainNodeSet) (st : CosmosignerStatus) : kube (result ()) :=
  let group := [AStr (st_ServingGroup st)] in
  match served_group nodeSet (st_ServingGroup st) with
  | (None, _) => return_error (cannot_be_removed st "validator group %q has no fallback signing path" group)
  | (Some cfg, instances) =>
      if (instances <=? 0)%Z then
        return_error (cannot_be_removed st "validator group %q has zero instances and therefore no live fallback signing path" group)
      else match nv_TmKMS cfg with
           | Some t =>
               match tk_Hashicorp t with
               | None => return_error (cannot_be_removed st "validator group %q has no supported tmKMS provider configured" group)
               | Some h => set_tmkms_fallback nodeSet st h (GetServiceAccountName (nv_Config cfg))
               end
           | None => set_local_fallback nodeSet st cfg
           end
  end.
Definition removed_fallback (nodeSet : ChainNodeSet) (desired : list ResolvedSigner) (st : CosmosignerStatus) : kube (result ()) :=
  if is_desired desired (st_Name st) || is_some (DesiredReplacementSigner nodeSet desired (Some st)) then return_result ()
  else if st_ServingGroup st == "" then
    if default "" (st_AtEstablishment st) != "" then
      return_error (cannot_be_removed st "it protects an on-chain consensus key recorded at establishment and no equivalent replacement signer is configured" [])
    else if (st_SigningDigest st != "") || (st_ServingIdentity st != "") then
      return_error (cannot_be_removed st "its served validator group was not recorded; restore the previous signer configuration for one reconcile before removing it" [])
    else return_result ()
  else
    live ←? (if (st_ServingIdentity st == "") && (st_SigningDigest st == "")
             then ownedSignerStatefulSetExists nodeSet (CosmosignerStatusResourceName (Some st)) else return_result true);
    if live : bool then served_fallback nodeSet st else return_result ().
Definition preflightRemovedSignerFallbacks (nodeSet : ChainNodeSet) : kube (result ()) :=
  for_each_call (removed_fallback nodeSet (ResolveCosmosigners nodeSet)) (statuses nodeSet).
End signers.
