(* ===== verification/SetRollout.v ===== *)
(** * Deploying the signers of a set ([internal/controllers/chainnodeset/cosmosigner.go])

    The locks of the signers, the import of their keys, the deployment with the
    parameters a key was reserved for, the wait for the targets of a migration,
    the removal of signers no longer wanted and the retargeting of nodes. *)

From S2P Require Import Prelude GoLib IO ThirdParty Reference ApiTypes KubeApi KubePods PrivKey CosmosignerSpec SignerResolve Getters UniqueSecrets.
From S2P Require Import SigningNames SigningPaths Labels Migration MigrationControllers ResourceCleanup Deploy Teardown NodeFinalize Reservation ReservationSet.
From S2P Require Import SignerRender SignerJobs TmKms NodeSignerKeys NodeSigner SetSignerKeys SetSigner.

(** ** Times

    A time is its nanoseconds since the Unix epoch, in UTC. *)

Fixpoint trim_zeros (l : list Ascii.ascii) : list Ascii.ascii :=
  match l with
  | [] => []
  | c :: l => match trim_zeros l with [] => if Ascii.eqb c "0"%char then [] else [c] | l' => c :: l' end
  end.
(** The layout [time.RFC3339Nano]. *)
Definition FormatRFC3339Nano (t : Z) : string :=
  let '(year, month, day) := civil_from_days (t / 86400000000000)%Z in
  let secs := (t / 1000000000 mod 86400)%Z in
  let fraction := trim_zeros (String.list_ascii_of_string (zero_padded 9 (t mod 1000000000))) in
  zero_padded 4 year +:+ "-" +:+ zero_padded 2 month +:+ "-" +:+ zero_padded 2 day +:+ "T" +:+ zero_padded 2 (secs / 3600) +:+ ":" +:+
  zero_padded 2 (secs / 60 mod 60) +:+ ":" +:+ zero_padded 2 (secs mod 60) +:+
  (match fraction with [] => "" | _ => "." +:+ String.string_of_list_ascii fraction end) +:+ "Z".
Example FormatRFC3339Nano_leap_day : FormatRFC3339Nano 1709210096120000000 = "2024-02-29T12:34:56.12Z".
Proof. reflexivity. Qed.
Example FormatRFC3339Nano_before_epoch : FormatRFC3339Nano (-1000000000) = "1969-12-31T23:59:59Z".
Proof. reflexivity. Qed.

(** ** Entries *)

Definition with_serving (st : CosmosignerStatus) (digest identity group : string) : CosmosignerStatus :=
  mkCosmosignerStatus (st_Name st) (st_ResourceName st) (st_AppliedDigest st) (st_PublicKey st) (st_TargetGroups st) (st_Migration st)
    (st_Replicas st) (st_StateStorageSize st) (st_StateStorageClassName st) digest (st_AtEstablishment st) identity group
    (st_LocalKeyEverServed st) (st_KeyImported st) (st_ImportedKeyVersion st).
Definition with_establishment (st : CosmosignerStatus) (local : option bool) (establishment : option string) : CosmosignerStatus :=
  mkCosmosignerStatus (st_Name st) (st_ResourceName st) (st_AppliedDigest st) (st_PublicKey st) (st_TargetGroups st) (st_Migration st)
    (st_Replicas st) (st_StateStorageSize st) (st_StateStorageClassName st) (st_SigningDigest st) establishment (st_ServingIdentity st)
    (st_ServingGroup st) local (st_KeyImported st) (st_ImportedKeyVersion st).
Definition with_entry_locks (st : CosmosignerStatus) (replicas : option Z) (storage : string * option string) : CosmosignerStatus :=
  mkCosmosignerStatus (st_Name st) (st_ResourceName st) (st_AppliedDigest st) (st_PublicKey st) (st_TargetGroups st) (st_Migration st)
    replicas storage.1 storage.2 (st_SigningDigest st) (st_AtEstablishment st) (st_ServingIdentity st) (st_ServingGroup st)
    (st_LocalKeyEverServed st) (st_KeyImported st) (st_ImportedKeyVersion st).

(** What an entry records about its signer before anything is deployed. *)
Definition mark_entry (nodeSet : ChainNodeSet) (s : ResolvedSigner) (st : CosmosignerStatus) : CosmosignerStatus :=
  let st := if TargetsValidator s && (st_SigningDigest st == "") && (st_ServingGroup st == "")
            then with_serving st (st_SigningDigest st) (st_ServingIdentity st) (sg_ValidatorGroup s) else st in
  let local := if TargetsValidator s && (negb (is_some (st_LocalKeyEverServed st)) ||
                  (SignerUsesLocalValidatorKey nodeSet s && bool_decide (st_LocalKeyEverServed st = Some false)))
               then Some true else st_LocalKeyEverServed st in
  let establishment := if negb (TargetsValidator s) && negb (is_some (st_AtEstablishment st))
                       then Some (GenesisSentryEstablishmentIdentity nodeSet s) else st_AtEstablishment st in
  with_establishment st local establishment.
Definition entry_marked (s : ResolvedSigner) (st st' : CosmosignerStatus) : bool :=
  (st_ServingGroup st != st_ServingGroup st') || negb (bool_decide (st_LocalKeyEverServed st = st_LocalKeyEverServed st')) ||
  negb (bool_decide (st_AtEstablishment st = st_AtEstablishment st')).

(** The live state is what a lock is taken from, then the spec. *)
Definition lock_entry (s : ResolvedSigner) (lock : SignerLock) (st : CosmosignerStatus) : CosmosignerStatus :=
  with_entry_locks st
    (Some (default (default (GetReplicas (sg_Spec s)) (sl_Replicas lock)) (st_Replicas st)))
    (if st_StateStorageSize st == "" then
       default (GetStateStorageSize (sg_Spec s), sg_Spec s ≫= cs_StorageClassName) (sl_Storage lock)
     else (st_StateStorageSize st, st_StateStorageClassName st)).

(** What a finished rollout records. *)
Definition served_entry (s : ResolvedSigner) (st : CosmosignerStatus) : CosmosignerStatus :=
  with_serving st (Digest s) (ValidatorTargetedIdentity s) (sg_ValidatorGroup s).
Definition applied_entry (s : ResolvedSigner) (lifecycleDigest expected : string) (st : CosmosignerStatus) : CosmosignerStatus :=
  let migrated := match st_Migration st with
                  | Some m => if mg_DesiredDigest m == lifecycleDigest then mg_DesiredPublicKey m else ""
                  | None => ""
                  end in
  let st := with_entry st lifecycleDigest (if migrated == "" then expected else migrated) (sortedTargetGroups s) None in
  if TargetsValidator s then served_entry s st else st.

Section signers.
Context `{MetaApi} `{ApplyApi} `{JsonApi} `{YamlApi} `{QuantityApi} `{PrivvalApi}.
Variable opts : SignerOptions.

(** ** Locks *)

Definition validate_entry_locks (nodeSet : ChainNodeSet) (s : ResolvedSigner) : result () :=
  match GetCosmosignerStatus nodeSet (sg_Name s) with
  | None => Ok ()
  | Some st =>
      guard_err match st_Replicas st with Some r => negb (r =? GetReplicas (sg_Spec s))%Z | None => false end
        (Errorf "cosmosigner %q replicas are immutable after deployment: changing them does not migrate the raft membership and can break quorum" [AStr (sg_Name s)]) ;;
      guard_err ((st_StateStorageSize st != "") &&
                 negb (CosmosignerStateStorageEqual (st_StateStorageSize st) (st_StateStorageClassName st)
                         (GetStateStorageSize (sg_Spec s)) (sg_Spec s ≫= cs_StorageClassName)))
        (Errorf "cosmosigner %q state storage (size/class) is immutable after deployment: its raft state PVCs cannot be resized or moved — remove the signer and re-add it" [AStr (sg_Name s)])
  end.

Definition set_validateRecordedCosmosignerLocks (nodeSet : ChainNodeSet) : result () :=
  for_each (validate_entry_locks nodeSet) (ResolveCosmosigners nodeSet).

Definition init_signer_entry (acc : ChainNodeSet * bool) (s : ResolvedSigner) : kube (result (ChainNodeSet * bool)) :=
  let '(nodeSet, changed) := acc in
  let '(nodeSet, st) := ensured_entry nodeSet (sg_Name s) in
  let marked := mark_entry nodeSet s st in
  if negb (is_some (st_Replicas marked)) || (st_StateStorageSize marked == "") then
    lock ←? ReadSignerLock (cns_meta nodeSet) (cns_Namespace nodeSet) (CosmosignerResourceName nodeSet s);
    return_result (set_entry nodeSet (sg_Name s) (λ _, lock_entry s lock marked), true)
  else return_result (set_entry nodeSet (sg_Name s) (λ _, marked), changed || entry_marked s st marked).
(** Whether the status was written. *)
Definition set_initCosmosignerLocks (nodeSet : ChainNodeSet) : set_step bool :=
  if sst_ChainID (cns_Status nodeSet) == "" then return_result (nodeSet, false) else
  '(nodeSet, changed) ←? fold_call init_signer_entry (ResolveCosmosigners nodeSet) (nodeSet, false);
  if changed : bool then update_set_status nodeSet ;? return_result (nodeSet, true) else return_result (nodeSet, false).

(** ** Imports *)

(** The parameters of a signer: those prepared, or computed when none were passed. *)
Definition params_or_compute (prepared : option (gmap string SignerParams)) (nodeSet : ChainNodeSet) (s : ResolvedSigner) (missing : error) :
    set_step SignerParams :=
  match default ∅ prepared !! sg_Name s with
  | Some params => return_result (nodeSet, params)
  | None =>
      if is_some prepared then return_error missing else
      '(nodeSet, params) ←? set_cosmosignerParams opts nodeSet s;
      publicKey ←? cosmosignerPublicKeyWithParams opts nodeSet s params;
      return_result (nodeSet, with_expected_key params publicKey)
  end.

(** Nothing to wait for, the targets must wait for the key, or the pass waits for an import. *)
Inductive ImportStep := ImportSettled | ImportBlocked | ImportWaiting.
Definition blocked_unless_live (nodeSet : ChainNodeSet) (s : ResolvedSigner) (live_message : string) : set_step ImportStep :=
  live ←? ownedSignerStatefulSetExists nodeSet (CosmosignerResourceName nodeSet s);
  if live : bool then return_error (import_error (live_message +:+ "; refusing to switch child signing paths") s [])
  else return_result (nodeSet, ImportBlocked).
Definition blocked_software (nodeSet : ChainNodeSet) (s : ResolvedSigner) : set_step ImportStep :=
  keyMaterial ←? secretKey (cns_Namespace nodeSet) (sg_SoftwareKeySecret s) PrivKeyFilename;
  match (if keyMaterial == "" then Ok () else LoadPrivKey keyMaterial ;; Ok ()) with
  | Err e => return_error (Wrapf e "cosmosigner %q software key secret %q contains an invalid %s: %w" [AStr (sg_Name s); AStr (sg_SoftwareKeySecret s); AStr PrivKeyFilename])
  | Ok _ => blocked_unless_live nodeSet s "has live state before its software key can be proven"
  end.
Definition import_now (prepared : option (gmap string SignerParams)) (nodeSet : ChainNodeSet) (s : ResolvedSigner) (keyMaterial : string) :
    set_step ImportStep :=
  '(nodeSet, adopted) ←? set_adoptTmKMSVaultImport opts nodeSet s keyMaterial;
  if adopted : bool then return_result (nodeSet, ImportSettled) else
  '(nodeSet, params) ←? params_or_compute prepared nodeSet s
     (import_error "key became available after reservation preflight; retrying before import" s []);
  '(nodeSet, pending) ←? set_maybeImportCosmosignerKey opts nodeSet s params;
  return_result (nodeSet, if pending : bool then ImportWaiting else ImportSettled).
Definition import_generated (prepared : option (gmap string SignerParams)) (nodeSet : ChainNodeSet) (s : ResolvedSigner) (c : Cosmosigner) :
    set_step ImportStep :=
  let st := GetCosmosignerStatus nodeSet (sg_Name s) in
  let recorded (f : CosmosignerStatus → bool) := match st with Some st => f st | None => false end in
  if recorded (entry_serves s) then return_result (nodeSet, ImportSettled) else
  keyMaterial ←? secretKey (cns_Namespace nodeSet) (sg_SoftwareKeySecret s) PrivKeyFilename;
  if keyMaterial == "" then
    if recorded (λ st, cosmosignerImportRecordMatchesTarget c (st_KeyImported st) (sg_SoftwareKeySecret s)) then return_result (nodeSet, ImportSettled)
    else if signerImportSourcePending nodeSet s then
      blocked_unless_live nodeSet s "has live state but its generated key import is unrecorded and the source key is unavailable"
    else import_now prepared nodeSet s keyMaterial
  else if recorded (λ st, cosmosignerImportComplete c (st_KeyImported st) (st_ImportedKeyVersion st) (sg_SoftwareKeySecret s) keyMaterial)
  then return_result (nodeSet, ImportSettled)
  else import_now prepared nodeSet s keyMaterial.

Definition prepare_import (prepared : option (gmap string SignerParams)) (nodeSet : ChainNodeSet) (s : ResolvedSigner) : set_step ImportStep :=
  match sg_Spec s with
  | None => return_result (nodeSet, ImportSettled)
  | Some c =>
      if UsesSoftwareBackend (Some c) && signerImportSourcePending nodeSet s then blocked_software nodeSet s
      else if negb (imports_generated nodeSet s) then return_result (nodeSet, ImportSettled)
      else if sst_ChainID (cns_Status nodeSet) == "" then
        blocked_unless_live nodeSet s "has live state before its generated key import can be proven"
      else import_generated prepared nodeSet s c
  end.
(** The signers whose targets keep their local path; [None] while an import is under way. *)
Fixpoint import_signers (prepared : option (gmap string SignerParams)) (signers : list ResolvedSigner) (nodeSet : ChainNodeSet)
    (blocked : gset string) : set_step (option (gset string)) :=
  match signers with
  | [] => return_result (nodeSet, Some blocked)
  | s :: signers =>
      '(nodeSet, step) ←? prepare_import prepared nodeSet s;
      match step with
      | ImportSettled => import_signers prepared signers nodeSet blocked
      | ImportBlocked => import_signers prepared signers nodeSet ({[sg_Name s]} ∪ blocked)
      | ImportWaiting => return_result (nodeSet, None)
      end
  end.
Definition prepareCosmosignerImports (nodeSet : ChainNodeSet) (prepared : option (gmap string SignerParams)) : set_step (option (gset string)) :=
  import_signers prepared (ResolveCosmosigners nodeSet) nodeSet ∅.

(** ** Deployment *)

(** The time of the clock and the generation of an object, which its metadata carries. *)
Variable now : Z.
Variable GetGeneration : ObjectMeta → Z.

Definition AnnotationChainNodeGeneration : string := "cosmopilot.voluzi.com/chainnode-generation".
Definition AnnotationCosmosignerRollout : string := "cosmopilot.voluzi.com/cosmosigner-rollout".

Definition group_target_names (nodeSet : ChainNodeSet) (signer : ResolvedSigner) (target : string) : result (list string) :=
  let names := [AStr (sg_Name signer); AStr target] in
  if target == ReservedValidatorGroupName then
    if is_some (ss_Validator (cns_Spec nodeSet)) then Ok [validatorNodeName nodeSet target 0]
    else Err (Errorf "cosmosigner %q targets missing validator group %q" names)
  else match find (λ g, ng_Name g == target) (ss_Nodes (cns_Spec nodeSet)) with
       | None => Err (Errorf "cosmosigner %q targets missing node group %q" names)
       | Some g =>
           if (GetInstances g <? 1)%Z then Err (Errorf "cosmosigner %q targets group %q with no desired ChainNodes" names)
           else Ok (map (validatorNodeName nodeSet target) (indices (GetInstances g)))
       end.
Fixpoint target_names (nodeSet : ChainNodeSet) (signer : ResolvedSigner) (targets : list string) : result (list string) :=
  match targets with
  | [] => Ok []
  | target :: targets => names ← group_target_names nodeSet signer target; rest ← target_names nodeSet signer targets; Ok (names ++ rest)
  end.
Definition desiredCosmosignerTargetNodeNames (nodeSet : ChainNodeSet) (signer : ResolvedSigner) : result (list string) :=
  if (length (sg_TargetGroups signer) =? 0)%nat then Err (Errorf "cosmosigner %q has no desired target groups" [AStr (sg_Name signer)])
  else names ← target_names nodeSet signer (sg_TargetGroups signer); Ok (sort_Strings names).

Definition cosmosignerMigrationTargetPodReady (pod : Pod) : bool :=
  (ps_Phase (pod_Status pod) == "Running") &&
  existsb (λ c, (c.1 == "Ready") && (c.2 == "True")) (ps_Conditions (pod_Status pod)).

Definition node_on_signer (nodeSet : ChainNodeSet) (signer : string) (node : ChainNode) : bool :=
  IsControlledBy (cn_meta node) (cns_meta nodeSet) && negb (is_some (meta_DeletionTimestamp (cn_meta node))) &&
  ns_RemoteSignerTarget (cn_Spec node) && (get_label (meta_Labels (cn_meta node)) LabelCosmosignerTarget == signer) && IsReady node.
Definition pod_on_signer (node : ChainNode) (signer token : string) (pod : Pod) : bool :=
  IsControlledBy (pod_meta pod) (cn_meta node) && negb (is_some (meta_DeletionTimestamp (pod_meta pod))) &&
  (annotation (pod_meta pod) AnnotationChainNodeGeneration == FormatInt (GetGeneration (cn_meta node))) &&
  (annotation (pod_meta pod) AnnotationCosmosignerRollout == token) &&
  (pod_label pod LabelCosmosignerTarget == signer) && cosmosignerMigrationTargetPodReady pod.

(** Whether a target still has to recover; one that was not told of the rollout is told. *)
Definition target_pending (nodeSet : ChainNodeSet) (signer token name : string) : kube (result bool) :=
  got ← call (GetChainNode Direct (cns_Namespace nodeSet) name);
  match got with
  | Err e => if IsNotFound e then return_result true else return_error e
  | Ok node =>
      if negb (node_on_signer nodeSet signer node) then return_result true
      else if annotation (cn_meta node) AnnotationCosmosignerRollout != token then
        call (PatchChainNode (with_cn_meta node (with_annotations (cn_meta node) (<[AnnotationCosmosignerRollout := token]> (default ∅ (meta_Annotations (cn_meta node))))))) ;? return_result true
      else
        got ← call (GetPod Direct (cn_Namespace node) (cn_Name node));
        match got with
        | Err e => if IsNotFound e then return_result true else return_error e
        | Ok pod => return_result (negb (pod_on_signer node signer token pod))
        end
  end.
(** The targets that are not yet healthy on the new path. *)
Definition cosmosignerMigrationTargetWait (nodeSet : ChainNodeSet) (signer : ResolvedSigner) (rolloutToken : string) : kube (result (list string)) :=
  match desiredCosmosignerTargetNodeNames nodeSet signer with
  | Err e => return_error e
  | Ok names =>
      fold_call (λ waiting name, pending ←? target_pending nodeSet (CosmosignerResourceName nodeSet signer) rolloutToken name;
                                 return_result (if pending : bool then waiting ++ [name] else waiting)) names []
  end.

Definition observed_at (m : CosmosignerMigrationStatus) : CosmosignerMigrationStatus :=
  mkMigration (mg_DesiredDigest m) (mg_DesiredPublicKey m) (mg_Phase m) (mg_ResetState m) (Some now).
(** During a migration the targets have to recover before the rollout counts; the flag says whether the entry changed. *)
Definition record_rollout (nodeSet : ChainNodeSet) (s : ResolvedSigner) (lifecycleDigest expected : string) (needServing needApplied : bool) :
    set_step bool :=
  let st := default (newCosmosignerStatus (sg_Name s)) (GetCosmosignerStatus nodeSet (sg_Name s)) in
  let applied := if needApplied then applied_entry s lifecycleDigest expected st else st in
  let recorded := set_entry nodeSet (sg_Name s) (λ _, if needServing then served_entry s applied else applied) in
  match st_Migration st with
  | Some m =>
      if mg_Phase m == CosmosignerMigrationRollingOut then
        match mg_RolloutObservedAt m with
        | None => return_result (set_entry nodeSet (sg_Name s) (λ st, migrate_entry st (observed_at m)), true)
        | Some t =>
            waiting ←? cosmosignerMigrationTargetWait nodeSet s (FormatRFC3339Nano t);
            if (length waiting =? 0)%nat then return_result (recorded, true) else return_result (nodeSet, false)
        end
      else return_result (recorded, true)
  | None => return_result (recorded, true)
  end.
Definition observe_rollout (nodeSet : ChainNodeSet) (s : ResolvedSigner) (params : SignerParams) (lifecycleDigest : string) : set_step bool :=
  let st := default (newCosmosignerStatus (sg_Name s)) (GetCosmosignerStatus nodeSet (sg_Name s)) in
  let needServing := TargetsValidator s && ((st_SigningDigest st == "") || (st_ServingIdentity st == "")) in
  let needApplied := (st_AppliedDigest st != lifecycleDigest) || (st_PublicKey st != sp_ExpectedPublicKey params) || is_some (st_Migration st) in
  if negb (needServing || needApplied) then return_result (nodeSet, false) else
  rolledOut ←? IsRolledOut (cns_Namespace nodeSet) (sp_Name params) (sp_Replicas params);
  if negb rolledOut then return_result (nodeSet, false) else
  marked ←? MarkEverRolledOut (cns_Namespace nodeSet) (sp_Name params) (sp_Replicas params);
  if negb marked then return_result (nodeSet, false) else
  record_rollout nodeSet s lifecycleDigest (sp_ExpectedPublicKey params) needServing needApplied.

Definition set_apply_each (nodeSet : ChainNodeSet) : list KubeObject → kube (result ()) :=
  for_each_call (λ o, ApplyOwned (cns_meta nodeSet) (ManagedObj o) []).
Definition apply_rendered (nodeSet : ChainNodeSet) (s : ResolvedSigner) (params : SignerParams) (configYAML : string) : set_step bool :=
  match signer_StatefulSet params configYAML with
  | Err e => return_error e
  | Ok sts =>
      match LifecycleDigest params (Digest s) with
      | Err e => return_error e
      | Ok digest =>
          applyCosmosignerStatefulSet nodeSet (GetCosmosignerStatus nodeSet (sg_Name s)) (SetLifecycleDigest sts digest) ;?
          observe_rollout nodeSet s params digest
      end
  end.
Definition set_deploy_signer (nodeSet : ChainNodeSet) (s : ResolvedSigner) (params : SignerParams) (importPending : bool) : set_step bool :=
  match ConfigYAML params with
  | Err e => return_error e
  | Ok configYAML =>
      match ConfigMap params configYAML with
      | Err e => return_error e
      | Ok configMap =>
          set_apply_each nodeSet [configMap; RaftService params; DiscoveryService params; NetworkPolicy params] ;?
          (if importPending then
             ScaleDown (OwnerChainNodeSet nodeSet) (cns_Namespace nodeSet) (sp_Name params) ;? return_result (nodeSet, false)
           else apply_rendered nodeSet s params configYAML)
      end
  end.
(** Whether the status in memory changed. *)
Definition reconcileSigner (nodeSet : ChainNodeSet) (s : ResolvedSigner) (params : SignerParams) : set_step bool :=
  '(nodeSet, importPending) ←? set_maybeImportCosmosignerKey opts (EnsureCosmosignerStatus nodeSet (sg_Name s)) s params;
  set_deploy_signer nodeSet s params importPending.

Definition ensure_signer (blocked : gset string) (prepared : option (gmap string SignerParams)) (acc : ChainNodeSet * bool) (s : ResolvedSigner) :
    kube (result (ChainNodeSet * bool)) :=
  let '(nodeSet, changed) := acc in
  if bool_decide (sg_Name s ∈ blocked) then return_result acc else
  '(nodeSet, params) ←? params_or_compute prepared nodeSet s (import_error "has no reserved signing identity" s []);
  '(nodeSet, c) ←? reconcileSigner nodeSet s params;
  return_result (nodeSet, changed || c).
Definition ensureCosmosignerWithBlockedTargets (nodeSet : ChainNodeSet) (blocked : gset string) (prepared : option (gmap string SignerParams)) :
    kube (result ChainNodeSet) :=
  let signers := ResolveCosmosigners nodeSet in
  if (length signers =? 0)%nat || (sst_ChainID (cns_Status nodeSet) == "") then return_result nodeSet else
  '(nodeSet, recorded) ←? set_initCosmosignerLocks nodeSet;
  match set_validateRecordedCosmosignerLocks nodeSet with
  | Err e => return_error e
  | Ok _ =>
      if recorded : bool then return_result nodeSet else
      '(nodeSet, changed) ←? fold_call (ensure_signer blocked prepared) signers (nodeSet, false);
      if changed : bool then update_set_status nodeSet ;? return_result nodeSet else return_result nodeSet
  end.

(** A signer whose targets may be published. *)
Definition signer_live (nodeSet : ChainNodeSet) (blocked : gset string) (s : ResolvedSigner) : kube (result bool) :=
  if bool_decide (sg_Name s ∈ blocked) then return_result true else
  rolledOut ←? IsRolledOut (cns_Namespace nodeSet) (CosmosignerResourceName nodeSet s) (GetReplicas (sg_Spec s));
  return_result (rolledOut && negb (match GetCosmosignerStatus nodeSet (sg_Name s) ≫= st_Migration with
                                    | Some m => mg_Phase m == CosmosignerMigrationRollingOut
                                    | None => false
                                    end)).
Definition prepareCosmosignerRollouts (nodeSet : ChainNodeSet) (blocked : gset string) (prepared : option (gmap string SignerParams)) :
    set_step bool :=
  nodeSet ←? ensureCosmosignerWithBlockedTargets nodeSet blocked prepared;
  done ←? all_in_turn (signer_live nodeSet blocked) (ResolveCosmosigners nodeSet);
  return_result (nodeSet, done).

(** ** Teardown *)

(** The signer's place was taken, and its replacement is not past the removal of the old workload. *)
Definition replacement_unsettled (replacement : option CosmosignerStatus) : bool :=
  match replacement ≫= st_Migration with
  | Some m => negb ((mg_Phase m == CosmosignerMigrationRetargeting) || (mg_Phase m == CosmosignerMigrationRecreating))
  | None => true
  end.
(** What the loop carries: the set, whether every signer is gone and whether an entry was dropped. *)
Record Tearing := mkTearing { td_Set : ChainNodeSet; td_AllDone : bool; td_Changed : bool }.
Definition entry_dropped (t : Tearing) (name : string) : Tearing := mkTearing (RemoveCosmosignerStatus (td_Set t) name) (td_AllDone t) true.
Definition not_done (t : Tearing) : Tearing := mkTearing (td_Set t) false (td_Changed t).

(** The entry is dropped once nothing is left and no claim needs it. *)
Definition tear_down_entry (keys : gset string) (t : Tearing) (name : string) : kube (result Tearing) :=
  let nodeSet := td_Set t in
  let st := GetCosmosignerStatus nodeSet name in
  let resourceName := CosmosignerStatusResourceName st in
  Undeploy (OwnerChainNodeSet nodeSet) (cns_Namespace nodeSet) resourceName ;?
  (tornDown ←? IsTornDown (cns_meta nodeSet) (cns_Namespace nodeSet) resourceName;
   return_result (if negb tornDown then not_done t
                  else if cosmosignerStatusHasReservation st keys then t else entry_dropped t name)).
Definition tear_down_signer (desired : list ResolvedSigner) (keys : gset string) (t : Tearing) (name : string) : kube (result Tearing) :=
  let nodeSet := td_Set t in
  let st := GetCosmosignerStatus nodeSet name in
  match DesiredReplacementSigner nodeSet desired st with
  | Some replacement =>
      let replacementStatus := GetCosmosignerStatus nodeSet (sg_Name replacement) in
      if replacement_unsettled replacementStatus then return_result (not_done t)
      else if CosmosignerStatusResourceName replacementStatus == CosmosignerStatusResourceName st then return_result (entry_dropped t name)
      else tear_down_entry keys t name
  | None => tear_down_entry keys t name
  end.
Definition reconcileSignerTeardown (nodeSet : ChainNodeSet) : set_step bool :=
  match legacyPerInstanceCosmosignerGroup nodeSet with
  | Some group => return_error (Errorf "validator group %q still has legacy per-instance cosmosigners recorded in status; refusing to replace or delete those signing identities during an automatic operator upgrade" [AStr group])
  | None =>
      let desired := ResolveCosmosigners nodeSet in
      validateTrackedSignerStatefulSets nodeSet desired ;?
      (let stale := filter (λ name, is_desired desired name = false) (map st_Name (statuses nodeSet)) in
       keys ←? (if (0 <? length stale)%nat then retiringConsensusKeyReservationPublicKeys nodeSet else return_result ∅);
       t ←? fold_call (tear_down_signer desired keys) stale (mkTearing nodeSet true false);
       if negb (td_Changed t) then return_result (td_Set t, td_AllDone t) else
       r ← update_set_status (td_Set t);
       match r with
       | Err e => if IsConflict e then return_result (td_Set t, td_AllDone t) else return_error e
       | Ok _ => return_result (td_Set t, td_AllDone t)
       end)
  end.

Definition signerTargetReferencesRemain (nodeSet : ChainNodeSet) (signerName : string) : kube (result bool) :=
  let selector := target_selector nodeSet signerName in
  children ←? list_selected_children nodeSet selector;
  if (0 <? length children)%nat then return_result true else
  pods ←? list_selected_pods nodeSet selector;
  return_result (0 <? length pods)%nat.
End signers.

(** ** The signers in a pass of [Reconcile] ([controller.go]) *)

Section pass.
Context `{MetaApi} `{ApplyApi} `{JsonApi} `{YamlApi} `{QuantityApi} `{PrivvalApi} `{RetryApi}.
Variable opts : SignerOptions.
Variable fuel : nat.

(** Everything that comes before the nodes: the signers whose targets are blocked and the parameters to
    deploy with, or [None] when the pass ends and is taken up again later. *)
Definition reconcile_set_signers (nodeSet : ChainNodeSet) : set_step (option (gset string * gmap string SignerParams)) :=
  '(nodeSet, recorded) ←? initCosmosignerReplacementNames nodeSet;
  if recorded : bool then return_result (nodeSet, None) else
  nodeSet ←? preflightCosmosigners opts nodeSet;
  preflightRemovedSignerFallbacks opts nodeSet ;?
  ('(nodeSet, prepared) ←? (if sst_ChainID (cns_Status nodeSet) == "" then return_result (nodeSet, ∅)
                            else prepareCosmosignerParams opts fuel nodeSet);
   '(nodeSet, recorded) ←? set_initCosmosignerLocks nodeSet;
   match set_validateRecordedCosmosignerLocks nodeSet with
   | Err e => return_error e
   | Ok _ =>
       if recorded : bool then return_result (nodeSet, None) else
       '(nodeSet, pending) ←? reconcileCosmosignerMigrations nodeSet (Some (migration_params <$> prepared));
       if pending : bool then return_result (nodeSet, None) else
       '(nodeSet, imported) ←? prepareCosmosignerImports opts nodeSet (Some prepared);
       match imported with
       | None => return_result (nodeSet, None)
       | Some blocked =>
           '(nodeSet, tornDown) ←? reconcileSignerTeardown nodeSet;
           return_result (nodeSet, if tornDown : bool then Some (blocked, prepared) else None)
       end
   end).
End pass.

(** ** Retargeting *)

Definition in_phase (phase : CosmosignerMigrationPhase) (st : CosmosignerStatus) : bool :=
  match st_Migration st with Some m => mg_Phase m == phase | None => false end.
Definition hasRetargetingCosmosignerMigration (nodeSet : ChainNodeSet) : bool :=
  existsb (in_phase CosmosignerMigrationRetargeting) (statuses nodeSet).

(** What is blocked while a signer rolls out, and whether one does. *)
Definition block_until_live (nodeSet : ChainNodeSet) (acc : gset string * bool) (signer : ResolvedSigner) : gset string * bool :=
  let '(blocked, rolling) := acc in
  match GetCosmosignerStatus nodeSet (sg_Name signer) with
  | None => ({[sg_Name signer]} ∪ blocked, rolling)
  | Some st => if in_phase CosmosignerMigrationRollingOut st then (blocked, true)
               else if st_AppliedDigest st == "" then ({[sg_Name signer]} ∪ blocked, rolling) else (blocked, rolling)
  end.
Definition rollingOutCosmosignerBlockedTargets (nodeSet : ChainNodeSet) (blocked : gset string) : gset string * bool :=
  foldl (block_until_live nodeSet) (blocked, false) (ResolveCosmosigners nodeSet).

Definition retargetingStepDiscoveryService : string := "DiscoveryServiceRemoval".
Definition retargetingStepDiscoveryEndpoints : string := "DiscoveryEndpointsFlush".
Definition retargetingStepTargetPods : string := "TargetLabelConvergence".
Definition retargetingStepBlockedKey : string := "SignerKeyUnavailable".
Definition retargetingStepPhaseAdvance : string := "PhaseAdvance".
Definition retargetingMaxNamedPods : nat := 10.

Record retargetingWait := mkWait { rw_step : string; rw_signer : string; rw_pods : list string }.
Definition retargeting_done (w : retargetingWait) : bool := rw_step w == "".
Definition namedList (pods : list string) : string :=
  if (retargetingMaxNamedPods <? length pods)%nat then
    strings_Join (take retargetingMaxNamedPods pods) ", " +:+ " and " +:+
    FormatInt (Z.of_nat (length pods) - Z.of_nat retargetingMaxNamedPods) +:+ " more"
  else strings_Join pods ", ".

(** Signers that keep retargeting because their key cannot be proven yet. *)
Definition blockedRetargetingSigners (nodeSet : ChainNodeSet) (blocked : gset string) : list string :=
  sort_Strings (map st_Name (filter (λ st, in_phase CosmosignerMigrationRetargeting st && bool_decide (st_Name st ∈ blocked) = true)
                               (statuses nodeSet))).

Section retargeting.
Context `{MetaApi}.

(** The old endpoints of every stopped signer go before its targets are relabelled. *)
Definition discovery_removed (nodeSet : ChainNodeSet) (blocked : gset string) (s : ResolvedSigner) : kube (result (option retargetingWait)) :=
  let retargets := match GetCosmosignerStatus nodeSet (sg_Name s) with
                   | Some st => in_phase CosmosignerMigrationRetargeting st
                   | None => false
                   end in
  if negb retargets || bool_decide (sg_Name s ∈ blocked) then return_result None else
  let resourceName := CosmosignerResourceName nodeSet s in
  gone ←? DeleteDiscoveryService (cns_meta nodeSet) (cns_Namespace nodeSet) resourceName;
  if negb gone then return_result (Some (mkWait retargetingStepDiscoveryService resourceName [])) else
  flushed ←? DiscoveryEndpointsGone (cns_Namespace nodeSet) resourceName;
  return_result (if negb flushed then Some (mkWait retargetingStepDiscoveryEndpoints resourceName []) else None).
Fixpoint discoveries_removed (nodeSet : ChainNodeSet) (blocked : gset string) (signers : list ResolvedSigner) : kube (result (option retargetingWait)) :=
  match signers with
  | [] => return_result None
  | s :: signers =>
      wait ←? discovery_removed nodeSet blocked s;
      match wait with Some w => return_result (Some w) | None => discoveries_removed nodeSet blocked signers end
  end.

(** A pod that is not labelled for the signer of its group, or for none. *)
Definition pod_lags (nodeSet : ChainNodeSet) (blocked : gset string) (pod : Pod) : bool :=
  pod_label pod LabelCosmosignerTarget !=
  default "" (signerNameForNodeWithBlockedTargets nodeSet (pod_label pod LabelChainNodeSetGroup) blocked).
Definition advance_entry (blocked : gset string) (st : CosmosignerStatus) : CosmosignerStatus :=
  match st_Migration st with
  | Some m => if negb (bool_decide (st_Name st ∈ blocked)) && (mg_Phase m == CosmosignerMigrationRetargeting)
              then migrate_entry st (with_phase m CosmosignerMigrationRecreating) else st
  | None => st
  end.
(** Once every pod has its label the migrations go on. *)
Definition targets_converged (nodeSet : ChainNodeSet) (blocked : gset string) : set_step retargetingWait :=
  pods ←? list_selected_pods nodeSet {[LabelChainNodeSet := cns_Name nodeSet]};
  let pending := sort_Strings (map pod_Name (filter (λ p, pod_lags nodeSet blocked p = true) pods)) in
  if (0 <? length pending)%nat then return_result (nodeSet, mkWait retargetingStepTargetPods "" pending)
  else if existsb (λ st, in_phase CosmosignerMigrationRetargeting st && negb (bool_decide (st_Name st ∈ blocked))) (statuses nodeSet) then
    let nodeSet := set_statuses nodeSet (map (advance_entry blocked) (statuses nodeSet)) in
    update_set_status nodeSet ;? return_result (nodeSet, mkWait retargetingStepPhaseAdvance "" [])
  else
    let names := blockedRetargetingSigners nodeSet blocked in
    return_result (nodeSet, if (0 <? length names)%nat then mkWait retargetingStepBlockedKey "" names else mkWait "" "" []).
End retargeting.
