(* ===== verification/SetSigning.v ===== *)
(** * What a pass over the signers of a set may do

    [reconcile_set_signers] prepares the parameters of the signers of a set only
    with keys it reserved, a different one for each signer, and
    [prepareCosmosignerRollouts] deploys a signer only with such parameters. *)

From S2P Require Import Prelude GoLib IO ThirdParty Reference ApiTypes KubeApi FakeServer KubePods PrivKey CosmosignerSpec SignerResolve Getters UniqueSecrets.
From S2P Require Import SigningNames SigningPaths Labels Migration MigrationControllers ResourceCleanup Deploy Teardown NodeFinalize Reservation ReservationNode ReservationSet.
From S2P Require Import SignerRender SignerJobs TmKms NodeSignerKeys NodeSigner NodeSigning SetSignerKeys SetSigner SetRollout.

(** ** Requests that start no signer *)

(** No workload that signs is made or resumed; a pod only reads a public key. *)
Definition only_reads_keys (r : request) : Prop :=
  match r with
  | CreatePod p => ∃ name, pod_Name p = name +:+ "-" +:+ pubkeyJobSuffix
  | _ => starts_nothing r
  end.
Abbreviation reading := (only only_reads_keys).
(** An import makes pods besides. *)
Definition makes_pods (r : request) : Prop := match r with CreatePod _ => True | _ => starts_nothing r end.
Abbreviation importing := (only makes_pods).

Lemma quiet_reading {A} (m : kube A) : quiet m → reading m.
Proof. apply only_mono. by intros []. Qed.
Lemma quiet_importing {A} (m : kube A) : quiet m → importing m.
Proof. apply only_mono. by intros []. Qed.
Lemma only_fold {A S} G (f : S → A → kube (result S)) l s : (∀ s x, only G (f s x)) → only G (fold_call f l s).
Proof. intros Hf. revert s. induction l as [|x l IH]; intros s; cbn [fold_call]; [done|]. apply only_try; auto. Qed.
Lemma only_for_each {A} G (f : A → kube (result ())) l : (∀ x, only G (f x)) → only G (for_each_call f l).
Proof. intros Hf. induction l as [|x l IH]; cbn [for_each_call]; [done|]. by apply only_try. Qed.
Lemma only_all_in_turn {A} G (f : A → kube (result bool)) l : (∀ x, only G (f x)) → only G (all_in_turn f l).
Proof. intros Hf. induction l as [|x l IH]; cbn [all_in_turn]; [done|]. apply only_try; [done|]. by intros [|]. Qed.

Section reading.
Context `{MetaApi} `{ApplyLaws} `{JsonApi} `{YamlApi} `{QuantityApi} `{PrivvalApi}.
Variable opts : SignerOptions.

Lemma publicKey_reading j keyVersion : reading (publicKey j keyVersion).
Proof.
  unfold publicKey. destruct (buildPubkeyPod j keyVersion) as [pod|e] eqn:Eb; [|exact I].
  apply only_try; [|by intros]. destruct (SetControllerReference (jr_Owner j) (pod_meta pod)) as [m|e] eqn:Em.
  2:{ unfold runJob. by rewrite Em. }
  eapply (spec_only _ _ []); [|by apply runJob_promise]. intros h [] Hr; try done.
  destruct Hr as [-> _]. exists (sp_Name (jr_Params j)). change (meta_Name m = sp_Name (jr_Params j) +:+ "-" +:+ pubkeyJobSuffix).
  apply SetControllerReference_name in Em as [-> _].
  unfold buildPubkeyPod, buildPod in Eb. by destruct (volumes _) as [vols|e]; [injection Eb as <-|].
Qed.
Lemma quiet_secretKey ns name key : quiet (secretKey ns name key).
Proof. unfold secretKey. only_walk. Qed.
Lemma quiet_write_entry s name f : quiet (write_entry s name f).
Proof. unfold write_entry, update_set_status. only_walk. Qed.
#[local] Hint Resolve quiet_secretKey quiet_write_entry quiet_PublicKeyFromSecret quiet_selector quiet_ScaleDown
  quiet_PreflightDeployable quiet_recovered quiet_for_each quiet_all_in_turn : only.
Lemma quiet_owned s name : quiet (ownedSignerStatefulSetExists s name).
Proof. unfold ownedSignerStatefulSetExists. only_walk. Qed.
Lemma quiet_set_params s sg : quiet (set_cosmosignerParams opts s sg).
Proof.
  unfold set_cosmosignerParams, set_cosmosignerBackend, set_recover_key_version, set_check_software_secret. only_walk.
Qed.
Lemma quiet_genesis_secrets s sg : quiet (requireGenesisSentrySecrets s sg).
Proof. unfold requireGenesisSentrySecrets, require_genesis_secret, secretHasKey. only_walk. Qed.
Lemma quiet_quiesce_names s e seen names : quiet (quiesce_names s e seen names).
Proof. revert e seen. induction names as [|x l IH]; intros e seen; cbn [quiesce_names]; only_walk. Qed.
#[local] Hint Resolve quiet_owned quiet_set_params quiet_genesis_secrets quiet_quiesce_names : only.
Lemma quiet_quiesce {A} s e names : quiet (quiesceCosmosigners (A := A) s e names).
Proof. unfold quiesceCosmosigners. only_walk. Qed.
Lemma quiet_selected_pods s sel : quiet (list_selected_pods s sel).
Proof. unfold list_selected_pods. only_walk. Qed.
Lemma quiet_selected_children s sel : quiet (list_selected_children s sel).
Proof. unfold list_selected_children. only_walk. Qed.
#[local] Hint Resolve quiet_quiesce quiet_selected_pods quiet_selected_children : only.
Lemma quiet_tracked s l : quiet (validateTrackedSignerStatefulSets s l).
Proof. unfold validateTrackedSignerStatefulSets. only_walk. Qed.
Lemma quiet_recovered_targets s sg name b : quiet (validateRecoveredSignerTargets s sg name b).
Proof. unfold validateRecoveredSignerTargets. only_walk. Qed.
#[local] Hint Resolve quiet_tracked quiet_recovered_targets : only.
Lemma quiet_set_recovery s sg p name : quiet (set_preflight_recovery s sg p name).
Proof. unfold set_preflight_recovery, target_evidence_needed, ReadLifecycleDigest. only_walk. Qed.
Lemma quiet_import_source_set s sg c : quiet (set_preflight_import_source s sg c).
Proof. unfold set_preflight_import_source. only_walk. Qed.
#[local] Hint Resolve quiet_set_recovery quiet_import_source_set : only.
Lemma quiet_preflight_signer acc sg : quiet (preflight_signer opts acc sg).
Proof.
  unfold preflight_signer, set_preflight_deployable, RequireRaftTLSSecret, RequireServiceAccount. only_walk.
Qed.
Lemma quiet_preflightCosmosigners s : quiet (preflightCosmosigners opts s).
Proof.
  unfold preflightCosmosigners. apply only_try; [apply quiet_tracked|]. intros _. apply only_try; [|by intros []].
  apply only_fold, quiet_preflight_signer.
Qed.

Lemma public_key_reading s sg p : reading (cosmosignerPublicKeyWithParams opts s sg p).
Proof.
  assert (∀ j kv, reading (publicKey j kv)) by apply publicKey_reading.
  unfold cosmosignerPublicKeyWithParams, set_backend_public_key, PublicKey.
  assert (∀ via ns name, reading (PublicKeyFromSecret via ns name)) by (intros; apply quiet_reading, quiet_PublicKeyFromSecret).
  only_walk.
Qed.

Lemma fallback_key_reading s st h name : reading (set_fallbackTmKMSPublicKey opts s st h name).
Proof. unfold set_fallbackTmKMSPublicKey, PublicKey. destruct (negb _); [exact I|]. apply publicKey_reading. Qed.
#[local] Hint Resolve quiet_reading fallback_key_reading public_key_reading : only.
Lemma tmkms_secret_reading ns purpose sel : reading (set_requireTmKMSSecret ns purpose sel).
Proof. unfold set_requireTmKMSSecret. only_walk. Qed.
#[local] Hint Resolve tmkms_secret_reading : only.
Lemma removed_reading s desired st : reading (removed_fallback opts s desired st).
Proof.
  unfold removed_fallback, served_fallback, set_tmkms_fallback, set_local_fallback, removal_refused. only_walk.
Qed.
Lemma fallbacks_reading s : reading (preflightRemovedSignerFallbacks opts s).
Proof. unfold preflightRemovedSignerFallbacks. apply only_for_each, removed_reading. Qed.

Lemma signing_key_reading s sg p : reading (set_signing_key opts s sg p).
Proof. unfold set_signing_key. only_walk. Qed.
Lemma legacy_names_reading s sg : reading (nodeSetCosmosignerLegacyNodeNames s sg).
Proof. unfold nodeSetCosmosignerLegacyNodeNames. only_walk. Qed.
Lemma validator_key_reading s sg key names : reading (validateValidatorSignerPublicKey s sg key names).
Proof.
  unfold validateValidatorSignerPublicKey. only_walk. apply only_fold. intros seen x. unfold validate_named_child. only_walk.
Qed.
#[local] Hint Resolve validator_key_reading : only.
Lemma signer_key_reading s sg p key names : reading (validate_signer_key s sg p key names).
Proof. unfold validate_signer_key. only_walk. Qed.
Lemma reserve_reading fuel s desired sg p key names : reading (reserve_set_key fuel s desired sg p key names).
Proof.
  unfold reserve_set_key. assert (∀ c k holder, reading (ensureConsensusKeyReservation fuel c k holder))
    by (intros; apply quiet_reading, quiet_ensureReservation). only_walk.
Qed.
Lemma not_generated_reading s sg : reading (key_not_generated s sg).
Proof. unfold key_not_generated. only_walk. Qed.

Lemma quiet_lock owner ns name : quiet (ReadSignerLock owner ns name).
Proof. unfold ReadSignerLock. only_walk. Qed.
#[local] Hint Resolve quiet_lock : only.
Lemma quiet_set_locks s : quiet (set_initCosmosignerLocks s).
Proof.
  unfold set_initCosmosignerLocks, update_set_status. destruct (_ == _); [exact I|]. apply only_try.
  - apply only_fold. intros [m c] sg. unfold init_signer_entry. destruct (ensured_entry m (sg_Name sg)). only_walk.
  - intros [m []]; only_walk.
Qed.
Lemma quiet_replacement_names s : quiet (initCosmosignerReplacementNames s).
Proof. unfold initCosmosignerReplacementNames, update_set_status. destruct (foldl _ _ _) as [m []]; only_walk. Qed.
End reading.

(** ** The evidence a deployment needs *)

Section evidence.
Context `{MetaApi} `{JsonApi} `{YamlApi} `{QuantityApi}.
Variable fuel : nat.
Variable n : ChainNodeSet.

(** The set in hand: what the pass changes in memory does not concern the keys. *)
Definition same_set (m : ChainNodeSet) : Prop :=
  cns_meta m = cns_meta n ∧ cns_Spec m = cns_Spec n ∧ sst_ChainID (cns_Status m) = sst_ChainID (cns_Status n) ∧
  sst_Validators (cns_Status m) = sst_Validators (cns_Status n) ∧
  ∀ name, st_PublicKey <$> GetCosmosignerStatus m name = st_PublicKey <$> GetCosmosignerStatus n name.

(** The signer of a validator signs with the keys recorded on chain and never changes its key. *)
Definition signer_may_use (s : ResolvedSigner) (key : string) : Prop :=
  TargetsValidator s = true →
  (∀ v, v ∈ sst_Validators (cns_Status n) → vst_Group v = sg_ValidatorGroup s → vst_PubKey v ≠ "" →
        canonicalSDKPublicKey (vst_PubKey v) = key) ∧
  (∀ st, GetCosmosignerStatus n (sg_Name s) = Some st → st_PublicKey st ≠ "" → st_PublicKey st = key).

(** An acquisition of the key for the claim of the signer ran to its end and reported success. *)
Definition signer_acquired (s : ResolvedSigner) (key : string) (h : list kevent) : Prop :=
  ∃ holder h1 h0 res,
    rh_UID holder = cns_UID n ∧ rh_Kind holder = "ChainNodeSet" ∧ rh_Namespace holder = cns_Namespace n ∧
    rh_Name holder = cns_Name n ∧ rh_Claim holder = nodeSetCosmosignerReservationClaim n s ∧
    h1 ++ h0 `suffix_of` h ∧ er_Result res = Ok () ∧
    observes (EnsureConsensusKeyReservationWithResult fuel (sst_ChainID (cns_Status n)) key holder) h1 (Ret (Some res)).

(** The key and the chain the signer is configured with are reserved for it. *)
Definition reserved_for (s : ResolvedSigner) (p : SignerParams) (h : list kevent) : Prop :=
  s ∈ ResolveCosmosigners n ∧ sp_ChainID p = sst_ChainID (cns_Status n) ∧
  signer_may_use s (sp_ExpectedPublicKey p) ∧ signer_acquired s (sp_ExpectedPublicKey p) h.
(** Each signer has its own key. *)
Definition all_reserved (prepared : gmap string SignerParams) (h : list kevent) : Prop :=
  (∀ name p, prepared !! name = Some p → ∃ s, sg_Name s = name ∧ reserved_for s p h) ∧
  (∀ name1 name2 p1 p2, prepared !! name1 = Some p1 → prepared !! name2 = Some p2 →
     sp_ExpectedPublicKey p1 = sp_ExpectedPublicKey p2 → name1 = name2).

Definition set_deployment_ok (h : list kevent) (r : request) : Prop :=
  match r with
  | CreateStatefulSet sts => ∃ s p, reserved_for s p h ∧ renders p sts
  | UpdateStatefulSet sts => sts_Replicas sts = Some 0%Z ∨ keeps_pods sts h ∨ ∃ s p, reserved_for s p h ∧ renders p sts
  | CreatePod p => only_reads_keys r ∨ ∃ s q, reserved_for s q h
  | _ => True
  end.

(** Short of a rollout: no StatefulSet is made, and one is only scaled to zero or left with its pods and replicas. *)
Definition set_preparation_ok (h : list kevent) (r : request) : Prop :=
  match r with
  | CreateStatefulSet _ => False
  | UpdateStatefulSet sts => sts_Replicas sts = Some 0%Z ∨ keeps_pods sts h
  | CreatePod p => only_reads_keys r ∨ ∃ s q, reserved_for s q h
  | _ => True
  end.
Lemma preparation_deploys h r : set_preparation_ok h r → set_deployment_ok h r.
Proof. destruct r; simpl; try done. intros [?|?]; auto. Qed.
Lemma preparation_spec {A} h (m : kube A) Q : spec set_preparation_ok h m Q → spec set_deployment_ok h m Q.
Proof. intros Hm. eapply spec_mono; [exact Hm|intros h' r _; apply preparation_deploys|done]. Qed.

#[export] Instance signer_acquired_stable s key : Stable (signer_acquired s key).
Proof.
  intros h h' Hs (holder & h1 & h0 & res & ? & ? & ? & ? & ? & Hh & Hr). exists holder, h1, h0, res.
  split_and!; try done; [by etrans|apply Hr..].
Qed.
#[export] Instance reserved_for_stable s p : Stable (reserved_for s p).
Proof. unfold reserved_for. apply _. Qed.
#[export] Instance all_reserved_stable prepared : Stable (all_reserved prepared).
Proof.
  intros h h' Hs [Hr Hd]. split; [|exact Hd]. intros name p Hp. destruct (Hr name p Hp) as (s & En & Hx).
  exists s. split; [done|]. by eapply reserved_for_stable.
Qed.

Lemma reading_ok h r : only_reads_keys r → set_preparation_ok h r.
Proof. destruct r; simpl; try done; by left. Qed.
Lemma reading_spec {A} h (m : kube A) Q : reading m → spec (λ _ _, True) h m Q → spec set_preparation_ok h m Q.
Proof.
  intros Ho Hq. eapply spec_mono; [exact (spec_both _ _ _ _ _ _ (only_spec _ _ h m reading_ok Ho) Hq)|by intros h' r _ []|by intros h' a _ []].
Qed.
Lemma reading_done {A} h (m : kube A) : reading m → spec set_preparation_ok h m (λ _ _, True).
Proof. apply only_spec, reading_ok. Qed.
Lemma follow_reserved s p h r : reserved_for s p h → may_follow p r → set_deployment_ok h r.
Proof.
  intros Hp. destruct r; simpl; try done.
  - intros [?|?]; [by left|]. right; right. by exists s, p.
  - intros ?. by exists s, p.
  - intros _. right. by exists s, p.
Qed.

Lemma same_set_self : same_set n.
Proof. by split_and!. Qed.
Lemma claim_same m s : same_set m → nodeSetCosmosignerReservationClaim m s = nodeSetCosmosignerReservationClaim n s.
Proof.
  intros (Em & Es & _). unfold nodeSetCosmosignerReservationClaim, GeneratedValidatorNodeName, cns_Name. by rewrite Em.
Qed.
Lemma get_update_entry name f l x :
  (∀ st, st_Name (f st) = st_Name st) → (∀ st, st_PublicKey (f st) = st_PublicKey st) →
  st_PublicKey <$> find (λ st, st_Name st == x) (update_entry name f l) = st_PublicKey <$> find (λ st, st_Name st == x) l.
Proof.
  intros Hn Hk. induction l as [|st l IH]; cbn [update_entry]; [done|].
  destruct (bool_decide (st_Name st = name)); cbn [find]; [rewrite Hn|]; (destruct (bool_decide (st_Name st = x)); cbn [fmap option_fmap option_map]; [by rewrite ?Hk|done]).
Qed.
Lemma same_set_entry m name f :
  (∀ st, st_Name (f st) = st_Name st) → (∀ st, st_PublicKey (f st) = st_PublicKey st) →
  same_set m → same_set (set_entry m name f).
Proof.
  intros Hn Hk (Em & Es & Ec & Ev & Ek). split_and!; try done. intros x. rewrite <- Ek. unfold GetCosmosignerStatus, set_entry. cbn.
  by apply get_update_entry.
Qed.
End evidence.

Lemma Resolve_same m n : cns_meta m = cns_meta n → cns_Spec m = cns_Spec n → ResolveCosmosigners m = ResolveCosmosigners n.
Proof. destruct m, n. simpl. by intros -> ->. Qed.

(** ** The preparation *)

Abbreviation anything := (λ _ _, True).

Section preparation.
Context `{MetaApi} `{ApplyLaws} `{JsonApi} `{YamlApi} `{QuantityApi} `{PrivvalApi}.
Variable opts : SignerOptions.
Variable fuel : nat.
Variable n : ChainNodeSet.

Abbreviation ok := (set_preparation_ok fuel n).
Abbreviation same := (same_set n).

Lemma spec_any {A} h (m : kube A) : spec anything h m (λ _ _, True).
Proof. by apply spec_still with (G := λ _, True). Qed.
(** A first step whose result does not matter. *)
Lemma spec_after {A B} h (m : kube (result A)) (f : A → kube (result B)) (Q : list kevent → result B → Prop) :
  (∀ h' e, Q h' (Err e)) → (∀ h' a, spec anything h' (f a) Q) → spec anything h (io_try m f) Q.
Proof.
  intros He Hf. rewrite spec_try. eapply spec_conseq; [apply spec_any|]. intros h' [a|e] _ _; auto.
Qed.
Lemma spec_then {A B} h (m : kube A) (f : A → kube B) (Q : list kevent → B → Prop) :
  (∀ h' a, spec anything h' (f a) Q) → spec anything h (m ≫= f) Q.
Proof. intros Hf. rewrite spec_mbind. eapply spec_conseq; [apply spec_any|]. auto. Qed.

Lemma write_same m name f h :
  (∀ st, st_Name (f st) = st_Name st) → (∀ st, st_PublicKey (f st) = st_PublicKey st) → same m →
  spec anything h (write_entry m name f) (λ _ r, ∀ m', r = Ok m' → same m').
Proof.
  intros Hn Hk Hm. unfold write_entry. apply spec_after; [by intros|]. intros h' _ m' [= <-]. by apply same_set_entry.
Qed.
Lemma recover_version_same m s g h :
  same m → spec anything h (set_recover_key_version m s g) (λ _ r, ∀ m' v, r = Ok (m', v) → same m').
Proof.
  intros Hm. unfold set_recover_key_version. destruct (GetCosmosignerStatus m (sg_Name s)) as [st|]; [|by intros m' v [= <- _]].
  destruct (_ && _ && _); [|by intros m' v [= <- _]]. apply spec_then. intros h1 [cm|e]; [|by intros m' v [= <- _]].
  destruct (IsControlledBy _ _); [|by intros m' v [= <- _]].
  destruct (GcpKeyVersionFromConfigYAML _) as [v|e]; [|by intros]. destruct (OwnsKeyVersion _ _); [|by intros m' v' [= <- _]].
  rewrite spec_try. eapply spec_conseq; [by apply write_same|]. intros h2 [m'|e] _ Hs; [|by intros]. intros m2 v2 [= <- _]. by apply Hs.
Qed.
Lemma backend_same m s h :
  same m → spec anything h (set_cosmosignerBackend m s) (λ _ r, ∀ m' b, r = Ok (m', b) → same m').
Proof.
  intros Hm. unfold set_cosmosignerBackend. destruct (sg_Spec s) as [c|]; [|by intros].
  destruct (be_Software (cs_Backend c)).
  { destruct (_ == _); [by intros|]. apply spec_after; [by intros|]. by intros h' b m' b' [= <- _]. }
  destruct (be_Vault (cs_Backend c)).
  { apply spec_after; [by intros|]. intros h1 _. apply spec_after; [by intros|]. by intros h2 _ m' b' [= <- _]. }
  destruct (be_GcpKMS (cs_Backend c)); [|by intros]. apply spec_after; [by intros|]. intros h1 _.
  rewrite spec_try. eapply spec_conseq; [by apply recover_version_same|]. intros h2 [[m' v]|e] _ Hs; [|by intros].
  intros m2 b [= <- _]. by eapply Hs.
Qed.
Lemma params_same m s h :
  same m → spec anything h (set_cosmosignerParams opts m s)
    (λ _ r, ∀ m' p, r = Ok (m', p) → same m' ∧ sp_ChainID p = sst_ChainID (cns_Status n)).
Proof.
  intros Hm. unfold set_cosmosignerParams. destruct (sg_Spec s) as [c|]; [|by intros]. cbv zeta.
  rewrite spec_try. eapply spec_conseq; [by apply backend_same|]. intros h1 [[m' b]|e] _ Hs; [|by intros].
  intros m2 p [= <- <-]. assert (same m') as Hm' by by eapply Hs. split; [done|]. apply Hm'.
Qed.

Lemma preflight_signer_same acc s h :
  same acc.1 → spec anything h (preflight_signer opts acc s) (λ _ r, ∀ acc', r = Ok acc' → same acc'.1).
Proof.
  destruct acc as [m names]. intros Hm. unfold preflight_signer. destruct (names !! _); [by intros|].
  apply spec_after; [by intros|]. intros h1 _. rewrite spec_try. eapply spec_conseq; [by apply params_same|].
  intros h2 [[m' p]|e] _ Hs; [|by intros]. destruct (Hs m' p eq_refl) as [Hm' _].
  apply spec_after; [by intros|]. intros h3 _. apply spec_after; [by intros|]. intros h4 _.
  destruct (sg_Spec s) as [c|]; [|by intros]. do 3 (apply spec_after; [by intros|]; intros ? _).
  by intros acc' [= <-].
Qed.
(** A loop keeps what each round keeps. *)
Lemma spec_fold {A S} (G : list kevent → request → Prop) (I : list kevent → S → Prop) (f : S → A → kube (result S)) l s h :
  I h s →
  (∀ h' s x, x ∈ l → I h' s → spec G h' (f s x) (λ h2 r, ∀ s', r = Ok s' → I h2 s')) →
  spec G h (fold_call f l s) (λ h' r, ∀ s', r = Ok s' → I h' s').
Proof.
  revert s h. induction l as [|x l IH]; intros s h Hs Hf; cbn [fold_call]; [by intros s' [= <-]|].
  rewrite spec_try. eapply spec_conseq; [apply Hf; [by left|exact Hs]|]. intros h1 [s1|e] _ Hs1; [|by intros].
  apply IH; [by apply Hs1|]. intros h2 s2 y Hy. apply Hf. by right.
Qed.
Lemma preflight_same m h :
  same m → spec anything h (preflightCosmosigners opts m) (λ _ r, ∀ m', r = Ok m' → same m').
Proof.
  intros Hm. unfold preflightCosmosigners. apply spec_after; [by intros|]. intros h1 _. rewrite spec_try.
  eapply spec_conseq; [apply (spec_fold anything (λ _ acc, same acc.1)); [exact Hm|intros; by apply preflight_signer_same]|].
  intros h2 [[m' names]|e] _ Hs; [|by intros]. intros m2 [= <-]. by apply (Hs (m', names)).
Qed.

Lemma quiesce_no_result {A} m e names h : spec anything h (quiesceCosmosigners (A := A) m e names) (λ _ r, ∀ a, r ≠ Ok a).
Proof. unfold quiesceCosmosigners. apply spec_then. by intros h' e'. Qed.
Lemma recorded_key_match s key recorded what name :
  recorded_key_refusal s key recorded what name = Ok () → canonicalSDKPublicKey recorded = key.
Proof.
  unfold recorded_key_refusal. intros (_ & _ & Hr)%bind_Ok. apply guard_err_Ok in Hr. by case_bool_decide.
Qed.
Lemma signer_key_post m s p key names h :
  same m → spec anything h (validate_signer_key m s p key names) (λ _ r, r = Ok () → signer_may_use n s key).
Proof.
  intros (_ & _ & _ & Ev & Ek). unfold validate_signer_key. destruct (TargetsValidator s) eqn:Et; cbn [negb].
  2:{ intros _. unfold signer_may_use. by rewrite Et. }
  rewrite spec_mbind. eapply spec_conseq with (Q := λ _ r, r = Ok () → for_each (validate_recorded s key) (sst_Validators (cns_Status m)) = Ok ()).
  { unfold validateValidatorSignerPublicKey. destruct (for_each _ _) as [[]|e]; [|by intros]. eapply spec_conseq; [apply spec_any|]. done. }
  intros h1 [[]|e] _ Hr.
  2:{ eapply spec_conseq; [apply quiesce_no_result|]. intros h2 r _ Hn Er'. by destruct (Hn () Er'). }
  specialize (Hr eq_refl). rewrite Ev in Hr. rewrite for_each_Ok, Forall_forall in Hr.
  assert (∀ v, v ∈ sst_Validators (cns_Status n) → vst_Group v = sg_ValidatorGroup s → vst_PubKey v ≠ "" →
    canonicalSDKPublicKey (vst_PubKey v) = key) as Hc.
  { intros v Hv Hg Hp. specialize (Hr v Hv). unfold validate_recorded in Hr.
    rewrite bool_decide_eq_true_2, bool_decide_eq_false_2 in Hr by done. cbn [negb orb] in Hr. eapply recorded_key_match. exact Hr. }
  specialize (Ek (sg_Name s)). destruct (GetCosmosignerStatus m (sg_Name s)) as [st|]; simpl in Ek.
  - destruct (_ && _) eqn:Eb.
    { eapply spec_conseq; [apply quiesce_no_result|]. intros h2 r _ Hn Er'. by destruct (Hn () Er'). }
    intros _ _. split; [exact Hc|]. intros st' Hst Hne. rewrite Hst in Ek. injection Ek as Ek. rewrite Ek in Eb.
    rewrite bool_decide_eq_false_2 in Eb by done. cbn [negb andb] in Eb. by case_bool_decide.
  - intros _ _. split; [exact Hc|]. intros st' Hst. by rewrite Hst in Ek.
Qed.

Lemma set_reserve_post m desired s p key names h :
  same m → spec anything h (reserve_set_key fuel m desired s p key names) (λ h' r, r = Ok () → signer_acquired fuel n s key h').
Proof.
  intros Hm. pose proof (claim_same n m s Hm) as Ecl. destruct Hm as (Em & _ & Ech & _).
  unfold reserve_set_key, ensureConsensusKeyReservation. rewrite !spec_mbind.
  eapply spec_conseq; [apply (spec_observed anything), spec_any|].
  intros h1 [res|] _ [_ (k & -> & Ho)]; cbn [spec]; [|done].
  destruct (er_Result res) as [[]|e] eqn:Er; cbn [spec].
  - intros _. rewrite Ech in Ho. exists (set_signer_holder m desired s names), k, h, res.
    split_and!; try done; cbn; [unfold cns_UID; by rewrite Em|unfold cns_Namespace; by rewrite Em|unfold cns_Name; by rewrite Em].
  - destruct (errors_is _ _); [|done]. eapply spec_conseq; [apply quiesce_no_result|]. intros h2 r _ Hn Er'. by destruct (Hn () Er').
Qed.

(** What the loop has prepared so far. *)
Definition prepared_ok (h : list kevent) (p : Preparing) : Prop :=
  same (pp_Set p) ∧
  ∀ name params, pp_Params p !! name = Some params →
    (∃ s, sg_Name s = name ∧ reserved_for fuel n s params h) ∧
    ∃ resource, pp_Owners p !! sp_ExpectedPublicKey params = Some (name, resource).

Lemma prepared_all p h : prepared_ok h p → all_reserved fuel n (pp_Params p) h.
Proof.
  intros [_ Hp]. split.
  - intros name params Hn. by apply Hp.
  - intros name1 name2 p1 p2 Hl1 Hl2 Ek. destruct (Hp _ _ Hl1) as [_ (r1 & Eo1)]. destruct (Hp _ _ Hl2) as [_ (r2 & Eo2)].
    rewrite Ek in Eo1. congruence.
Qed.
Lemma prepared_kept p h h' : h `suffix_of` h' → prepared_ok h p → prepared_ok h' p.
Proof.
  intros Hs [Hm Hp]. split; [done|]. intros name params Hn. destruct (Hp name params Hn) as [(s & En & Hr) Ho].
  split; [|done]. exists s. split; [done|]. by eapply reserved_for_stable.
Qed.
Lemma prepared_next p m s params key h :
  prepared_ok h p → same m → pp_Owners p !! key = None → reserved_for fuel n s (with_expected_key params key) h →
  prepared_ok h (prepared_signer p m s params key).
Proof.
  intros [_ Hp] Hm Hfree Hr. split; [exact Hm|]. intros name q. cbn [pp_Params pp_Owners prepared_signer].
  intros [[<- <-]|[Hne Hq]]%lookup_insert_Some.
  - split; [by exists s|]. exists (sp_Name params). cbn [sp_ExpectedPublicKey with_expected_key]. apply lookup_insert_eq.
  - destruct (Hp name q Hq) as [Hx (r & Ho)]. split; [done|]. exists r. rewrite lookup_insert_ne; [done|]. intros E. by rewrite E, Ho in Hfree.
Qed.

#[local] Hint Resolve quiet_reading quiet_set_params not_generated_reading signing_key_reading legacy_names_reading signer_key_reading
  reserve_reading quiet_quiesce : only.
(** A step that only reads keys, with what it establishes and what it keeps. *)
Lemma reading_then {A B} h (m : kube (result A)) (f : A → kube (result B)) (Q : list kevent → result A → Prop)
    (G : list kevent → Prop) (R : list kevent → result B → Prop) :
  Stable G → G h → reading m → spec anything h m Q → (∀ h' e, R h' (Err e)) →
  (∀ h' a, G h' → Q h' (Ok a) → spec ok h' (f a) R) → spec ok h (io_try m f) R.
Proof.
  intros HS HG Hr HQ He Hf. rewrite spec_try.
  eapply spec_conseq; [apply (spec_keep ok h m Q G HS HG), reading_spec; done|]. intros h' [a|e] _ [? ?]; auto.
Qed.

Lemma prepare_signer_ok desired p s h :
  s ∈ ResolveCosmosigners n → prepared_ok h p →
  spec ok h (prepare_signer opts fuel desired p s) (λ h' r, ∀ p', r = Ok p' → prepared_ok h' p').
Proof.
  intros Hs Hp. assert (Stable (λ h, prepared_ok h p)) as Sp by (intros ? ? ?; by apply prepared_kept).
  unfold prepare_signer.
  eapply reading_then; [exact Sp|exact Hp|apply not_generated_reading|apply spec_any|by intros|].
  intros h1 [] Hp1 _; [by intros p' [= <-]|].
  eapply reading_then; [exact Sp|exact Hp1|apply quiet_reading, quiet_set_params|apply params_same, Hp1|by intros|].
  intros h2 [m params] Hp2 Hm. destruct (Hm m params eq_refl) as [Hm' Ec]. clear Hm.
  eapply reading_then; [exact Sp|exact Hp2|apply signing_key_reading|apply spec_any|by intros|].
  intros h3 key Hp3 _. destruct (pp_Owners p !! key) as [[pn pr]|] eqn:Eo.
  { eapply spec_conseq; [apply reading_spec; [apply quiet_reading, quiet_quiesce|apply quiesce_no_result]|].
    intros h4 r _ Hn p' Er. by destruct (Hn p' Er). }
  eapply reading_then; [exact Sp|exact Hp3|apply legacy_names_reading|apply spec_any|by intros|].
  intros h4 names Hp4 _.
  eapply reading_then; [exact Sp|exact Hp4|apply signer_key_reading|by apply (signer_key_post m s params key names)|by intros|].
  intros h5 [] Hp5 Hk.
  eapply reading_then; [exact Sp|exact Hp5|apply reserve_reading|by apply (set_reserve_post m desired s params key names)|by intros|].
  intros h6 [] Hp6 Ha. cbn [spec]. intros p' [= <-]. apply prepared_next; [exact Hp6|exact Hm'|exact Eo|].
  split_and!; [exact Hs|exact Ec|by apply Hk|by apply Ha].
Qed.

Lemma prepareCosmosignerParams_ok m h :
  same m → spec ok h (prepareCosmosignerParams opts fuel m)
    (λ h' r, ∀ m' prepared, r = Ok (m', prepared) → same m' ∧ all_reserved fuel n prepared h').
Proof.
  intros Hm. assert (ResolveCosmosigners m = ResolveCosmosigners n) as Er.
  { destruct Hm as (Em & Es & _). by apply Resolve_same. }
  unfold prepareCosmosignerParams. rewrite Er. rewrite spec_try.
  eapply spec_conseq; [apply (spec_fold ok prepared_ok)|].
  - split; [exact Hm|]. by intros name params.
  - intros h' p s Hs Hp. by apply prepare_signer_ok.
  - intros h1 [p|e] _ Hp; [|by intros]. intros m' prepared [= <- <-]. split; [by apply (Hp p)|]. by apply prepared_all, Hp.
Qed.
End preparation.

(** ** Migrations, imports and removal *)

Section workloads.
Context `{MetaApi} `{ApplyLaws} `{JsonApi} `{YamlApi} `{QuantityApi} `{PrivvalApi}.
Variable opts : SignerOptions.
Variable fuel : nat.
Variable n : ChainNodeSet.

Abbreviation ok := (set_preparation_ok fuel n).
Abbreviation reserved := (all_reserved fuel n).

Lemma set_permitted_ok owner ns h r : permitted owner ns h r → ok h r.
Proof.
  destruct r; simpl; try done. intros (name & live & Hin & _ & [->| ->]); [by left|]. right. exists live, ns, name. auto.
Qed.
Lemma set_workload_ok owner ns name desired key rc h r : workload_permitted owner ns name desired key rc h r → ok h r.
Proof.
  destruct r; simpl; try done; try by intros (m & _ & _ & [[]|(_ & _ & [])]).
  intros [Hp|(live & replicas & Hin & _ & ->)]; [by apply (set_permitted_ok owner ns h (UpdateStatefulSet s))|].
  right. exists live, ns, name. auto.
Qed.

#[local] Opaque reconcile_entry.
Lemma entries_ok prepared owner ns signers m pending changed h :
  spec ok h (reconcile_entries prepared owner ns signers m pending changed) (λ _ _, True).
Proof.
  revert m pending changed h. induction signers as [|sg signers IH]; intros m pending changed h; [done|]. cbn [reconcile_entries].
  generalize (EnsureCosmosignerStatus m (sg_Name sg)). clear m. intros m.
  destruct (GetCosmosignerStatus m (sg_Name sg)) as [st|]; [|apply IH].
  destruct (desired_state prepared sg st) as [[[digest key]|]|e]; [|apply IH|done].
  rewrite spec_try. eapply spec_mono; [apply (reconcile_entry_spec owner ns)|intros h' r _; apply set_workload_ok|].
  intros h' [[|st'|st' ch ready]|e] _ _; [apply IH..|done].
Qed.
Lemma migrations_ok m prepared h : spec ok h (reconcileCosmosignerMigrations m prepared) (λ _ _, True).
Proof.
  unfold reconcileCosmosignerMigrations. destruct (_ == _); [done|]. rewrite spec_try.
  eapply spec_conseq; [apply entries_ok|]. intros h1 [[[m' p] []]|e] _ _; [|done..]. by split; [|intros [[]|e]].
Qed.

(** *** Imports *)

Lemma quiet_cleanup_set s p : quiet (CleanupImportPod (set_job_runner s p)).
Proof. apply quiet_cleanup. Qed.
Lemma importing_follow p {A} (m : kube A) : importing m → only (may_follow p) m.
Proof. apply only_mono. intros []; simpl; try done. by left. Qed.
Lemma job_importing j pod suffix retain : importing (runJob j pod suffix retain).
Proof.
  destruct (SetControllerReference (jr_Owner j) (pod_meta pod)) as [m|e] eqn:Em.
  - eapply (spec_only _ _ []); [|by apply runJob_promise]. by intros h [].
  - unfold runJob. by rewrite Em.
Qed.
Lemma publicKey_importing j keyVersion : importing (publicKey j keyVersion).
Proof. unfold publicKey. destruct (buildPubkeyPod _ _); [|exact I]. apply only_try; [apply job_importing|by intros]. Qed.
Lemma ImportKey_importing j sourceSecret : importing (ImportKey j sourceSecret).
Proof. unfold ImportKey. destruct (buildImportPod _ _); [|exact I]. apply only_try; [apply job_importing|by intros]. Qed.
#[local] Hint Resolve quiet_importing quiet_cleanup_set quiet_PublicKeyFromSecret quiet_ScaleDown publicKey_importing ImportKey_importing
  quiet_secretKey quiet_write_entry : only.
Lemma set_verify_importing m s g params key : importing (set_verifyGcpImportedKey opts m s g params key).
Proof. unfold set_verifyGcpImportedKey, PublicKeyAtVersion. destruct (ensured_entry m (sg_Name s)). only_walk. Qed.
#[local] Hint Resolve set_verify_importing : only.
Lemma set_vault_importing m s v params : importing (set_maybeImportCosmosignerKeyToVault opts m s v params).
Proof.
  unfold set_maybeImportCosmosignerKeyToVault, set_import_to_vault, set_quiesced_then. destruct (ensured_entry m (sg_Name s)). only_walk.
Qed.
Lemma set_gcp_importing m s g params : importing (set_maybeImportCosmosignerKeyToGcp opts m s g params).
Proof.
  unfold set_maybeImportCosmosignerKeyToGcp, set_gcp_import_step, set_run_gcp_import, set_quiesced_then.
  destruct (ensured_entry m (sg_Name s)). only_walk.
Qed.
#[local] Hint Resolve set_vault_importing set_gcp_importing : only.
Lemma set_import_importing m s params : importing (set_maybeImportCosmosignerKey opts m s params).
Proof. unfold set_maybeImportCosmosignerKey, set_import_to_configured_vault. only_walk. Qed.

Lemma adopt_reading m s key : reading (set_adoptTmKMSVaultImport opts m s key).
Proof.
  unfold set_adoptTmKMSVaultImport, verify_adoption.
  assert (∀ s st h name, reading (set_fallbackTmKMSPublicKey opts s st h name)) by (intros; by apply fallback_key_reading).
  assert (∀ via ns name, reading (PublicKeyFromSecret via ns name)) by (intros; apply quiet_reading, quiet_PublicKeyFromSecret).
  assert (∀ s name f, reading (write_entry s name f)) by (intros; apply quiet_reading, quiet_write_entry).
  only_walk; destruct (ensured_entry _ _); only_walk.
Qed.

Lemma import_spec_set s p prepared h {A} (m : kube A) :
  reserved_for fuel n s p h → reserved prepared h → importing m → spec ok h m (λ h' _, reserved prepared h').
Proof.
  intros Hp Hr Hm. eapply spec_mono; [apply (spec_keep (λ _, makes_pods) h m (λ _ _, True) (λ h, reserved_for fuel n s p h ∧ reserved prepared h))| |by intros h' a _ [[] _]].
  - apply _.
  - done.
  - by apply only_spec with (G := makes_pods).
  - intros h' r Hs Hr'. destruct r; try done; [by left|]. right. exists s, p. by eapply reserved_for_stable.
Qed.
Lemma reading_kept {A} prepared h (m : kube A) : reserved prepared h → reading m → spec ok h m (λ h' _, reserved prepared h').
Proof. intros Hr Hm. apply reading_spec; [done|]. apply (spec_still h m (reserved prepared)); [apply _|done]. Qed.
Lemma prepared_params prepared m s missing h :
  reserved prepared h →
  spec ok h (params_or_compute opts (Some prepared) m s missing)
    (λ h' r, reserved prepared h' ∧ ∀ m' p, r = Ok (m', p) → ∃ sg, reserved_for fuel n sg p h').
Proof.
  intros Hr. unfold params_or_compute. change (default ∅ (Some prepared)) with prepared. destruct (prepared !! sg_Name s) as [p|] eqn:Ep; cbn [is_some spec]; [|split; [done|by intros]].
  split; [done|]. intros m' p' [= _ <-]. destruct Hr as [Hr _]. destruct (Hr _ _ Ep) as (sg & _ & Hx). by exists sg.
Qed.

Lemma import_now_ok prepared m s key h :
  reserved prepared h → spec ok h (import_now opts (Some prepared) m s key) (λ h' _, reserved prepared h').
Proof.
  intros Hr. unfold import_now. rewrite spec_try. eapply spec_conseq; [apply reading_kept; [exact Hr|apply adopt_reading]|].
  intros h1 [[m1 []]|e] _ Hr1; [done| |done]. rewrite spec_try. eapply spec_conseq; [by apply prepared_params|].
  intros h2 [[m2 p]|e] _ [Hr2 Hp]; [|done]. destruct (Hp m2 p eq_refl) as (sg & Hsg).
  rewrite spec_try. eapply spec_conseq; [apply (import_spec_set sg p prepared); [exact Hsg|exact Hr2|apply set_import_importing]|].
  by intros h3 [[m3 b]|e] _ Hr3.
Qed.
Lemma prepare_import_ok prepared m s h :
  reserved prepared h → spec ok h (prepare_import opts (Some prepared) m s) (λ h' _, reserved prepared h').
Proof.
  intros Hr. assert (∀ m s msg, reading (blocked_unless_live m s msg)) as Hb.
  { intros. unfold blocked_unless_live. apply quiet_reading. assert (∀ a b, quiet (ownedSignerStatefulSetExists a b)) by apply quiet_owned. only_walk. }
  assert (∀ ns name key, reading (secretKey ns name key)) as Hk by (intros; apply quiet_reading, quiet_secretKey).
  unfold prepare_import. destruct (sg_Spec s) as [c|]; [|done].
  destruct (_ && _). { apply reading_kept; [done|]. unfold blocked_software. only_walk. }
  destruct (negb _); [done|]. destruct (_ == _). { by apply reading_kept. }
  unfold import_generated. destruct (match GetCosmosignerStatus m (sg_Name s) with Some st => entry_serves s st | None => false end); [done|].
  rewrite spec_try. eapply spec_conseq; [by apply reading_kept|]. intros h1 [key|e] _ Hr1; [|done].
  destruct (key == ""); [|destruct (match GetCosmosignerStatus m (sg_Name s) with Some st => _ | None => false end); [done|by apply import_now_ok]].
  destruct (match GetCosmosignerStatus m (sg_Name s) with Some st => _ | None => false end); [done|].
  destruct (signerImportSourcePending m s); [by apply reading_kept|by apply import_now_ok].
Qed.
Lemma imports_ok prepared m h :
  reserved prepared h → spec ok h (prepareCosmosignerImports opts m (Some prepared)) (λ h' _, reserved prepared h').
Proof.
  unfold prepareCosmosignerImports. generalize (ResolveCosmosigners m) as l. intros l. generalize (∅ : gset string) as blocked.
  revert m h. induction l as [|s l IH]; intros m h blocked Hr; cbn [import_signers]; [done|].
  rewrite spec_try. eapply spec_conseq; [by apply prepare_import_ok|].
  intros h1 [[m1 []]|e] _ Hr1; [by apply IH..|done|done].
Qed.

(** *** Removal *)

Lemma IsTornDown_reading owner ns name : reading (IsTornDown owner ns name).
Proof. apply quiet_reading, quiet_IsTornDown. Qed.
Lemma tear_down_ok desired keys t name h : spec ok h (tear_down_signer desired keys t name) (λ _ _, True).
Proof.
  assert (spec ok h (tear_down_entry keys t name) (λ _ _, True)) as He.
  { unfold tear_down_entry. rewrite spec_try. eapply spec_conseq with (Q := λ _ _, True).
    - eapply spec_mono; [apply Undeploy_permitted| |done]. intros h' r _ [Hr|Hr]; [by eapply set_permitted_ok|by destruct r].
    - intros h1 [[]|e] _ _; [|done]. apply reading_done. apply only_try; [apply IsTornDown_reading|done]. }
  unfold tear_down_signer. destruct (DesiredReplacementSigner _ _ _); [|done].
  destruct (replacement_unsettled _); [done|]. by destruct (_ == _).
Qed.
Lemma teardown_ok m h : spec ok h (reconcileSignerTeardown m) (λ _ _, True).
Proof.
  assert (∀ s l, reading (validateTrackedSignerStatefulSets s l)) as Hv by (intros; apply quiet_reading, quiet_tracked).
  unfold reconcileSignerTeardown. destruct (legacyPerInstanceCosmosignerGroup m); [done|]. cbv zeta.
  rewrite spec_try. eapply spec_conseq; [by apply reading_done|]. intros h1 [[]|e] _ _; [|done].
  rewrite spec_try. eapply spec_conseq with (Q := λ _ _, True).
  { apply reading_done. unfold retiringConsensusKeyReservationPublicKeys. apply quiet_reading. only_walk. }
  intros h2 [keys|e] _ _; [|done]. rewrite spec_try.
  eapply spec_conseq; [apply (spec_fold ok (λ _ _, True)); [done|]|].
  - intros h' t name _ _. eapply spec_conseq; [apply tear_down_ok|done].
  - intros h3 [t|e] _ _; [|done]. destruct (negb _); [done|]. rewrite spec_mbind. split; [done|]. intros [[]|e]; cbn [spec]; [done|].
    by destruct (IsConflict e).
Qed.
End workloads.

(** ** Deployment *)

Section deployment.
Context `{MetaApi} `{ApplyLaws} `{JsonApi} `{YamlApi} `{QuantityApi} `{PrivvalApi}.
Variable opts : SignerOptions.
Variable fuel : nat.
Variable n : ChainNodeSet.
Variable now : Z.
Variable GetGeneration : ObjectMeta → Z.

Abbreviation ok := (set_deployment_ok fuel n).
Abbreviation reserved := (all_reserved fuel n).
(** What is known while a signer is deployed. *)
Abbreviation deploying sg p prepared := (λ h, reserved_for fuel n sg p h ∧ reserved prepared h).

Lemma deploying_follow sg p prepared h {A} (m : kube A) :
  deploying sg p prepared h → only (may_follow p) m → spec ok h m (λ h' _, deploying sg p prepared h').
Proof.
  intros Hd Hm. eapply spec_mono; [apply (spec_keep (λ _, may_follow p) h m (λ _ _, True) (deploying sg p prepared))| |by intros h' a _ [? _]].
  - apply _.
  - exact Hd.
  - by apply only_spec with (G := may_follow p).
  - intros h' r Hs. apply (follow_reserved fuel n sg). destruct Hd as [Hd _]. by eapply reserved_for_stable.
Qed.
Lemma mark_ok {A} owner ns name desired key rc sg p prepared h (m : kube A) :
  deploying sg p prepared h → spec (workload_permitted owner ns name desired key rc) h m (λ _ _, True) →
  spec ok h m (λ h' _, deploying sg p prepared h').
Proof.
  intros Hd Hm. eapply spec_mono; [apply (spec_keep _ h m (λ _ _, True) (deploying sg p prepared)); [apply _|exact Hd|exact Hm]| |by intros h' a _ [? _]].
  intros h' r _ Hr. by eapply preparation_deploys, set_workload_ok.
Qed.

Lemma rolled_out_quiet ns name replicas : quiet (IsRolledOut ns name replicas).
Proof. unfold IsRolledOut. only_walk. Qed.
Lemma record_rollout_quiet m s digest expected b1 b2 : quiet (record_rollout now GetGeneration m s digest expected b1 b2).
Proof.
  unfold record_rollout. cbv zeta. destruct (st_Migration _) as [mg|]; [|exact I]. destruct (_ == _); [|exact I].
  destruct (mg_RolloutObservedAt mg) as [t|]; [|exact I]. apply only_try; [|intros waiting; by destruct (_ =? _)%nat].
  unfold cosmosignerMigrationTargetWait. destruct (desiredCosmosignerTargetNodeNames m s) as [names|e]; [|exact I].
  apply only_fold. intros waiting x. apply only_try; [|done]. unfold target_pending. only_walk.
Qed.
Lemma observe_ok m s p q digest prepared sg h :
  deploying sg p prepared h → spec ok h (observe_rollout now GetGeneration m s q digest) (λ h' _, deploying sg p prepared h').
Proof.
  intros Hd. unfold observe_rollout. cbv zeta. destruct (negb _); [done|]. rewrite spec_try.
  eapply spec_conseq; [apply deploying_follow; [exact Hd|apply quiet_follow, rolled_out_quiet]|].
  intros h1 [[]|e] _ Hd1; cbn [negb]; [|done..]. rewrite spec_try.
  eapply spec_conseq; [eapply (mark_ok (OwnerChainNodeSet m) (cns_Namespace m) (sp_Name q) "" "" (mkRecorded "" "" None)); [exact Hd1|apply MarkEverRolledOut_spec]|].
  intros h2 [[]|e] _ Hd2; cbn [negb]; [|done..]. apply deploying_follow; [exact Hd2|apply quiet_follow, record_rollout_quiet].
Qed.

Lemma rendered_follow m s p sts digest configYAML :
  ConfigYAML p = Ok configYAML → signer_StatefulSet p configYAML = Ok sts →
  only (may_follow p) (applyCosmosignerStatefulSet m (GetCosmosignerStatus m (sg_Name s)) (SetLifecycleDigest sts digest)).
Proof.
  intros Ec Es. unfold applyCosmosignerStatefulSet, apply_signer. destruct (StatefulSetApplyGuard _ _ _ _) as [guard|e]; [|exact I].
  assert (∀ s, pods_of (ManagedSts (SetLifecycleDigest sts digest)) s → renders p s) as Hr.
  { intros s' (s0 & [= <-] & E). by exists configYAML, sts. }
  eapply only_mono; [|apply ApplyOwned_writes]. intros []; simpl; try done; [|by apply Hr]. intros [?|?]; [by left|right; by apply Hr].
Qed.
Lemma reconcile_signer_ok m s p prepared sg h :
  deploying sg p prepared h → spec ok h (reconcileSigner opts now GetGeneration m s p) (λ h' _, deploying sg p prepared h').
Proof.
  intros Hd. unfold reconcileSigner. rewrite spec_try.
  eapply spec_conseq; [apply deploying_follow; [exact Hd|apply importing_follow, set_import_importing]|]. intros h1 [[m1 pending]|e] _ Hd1; [|done].
  unfold set_deploy_signer. destruct (ConfigYAML p) as [configYAML|e] eqn:Ec; [|done]. destruct (ConfigMap p configYAML) as [cm|e]; [|done].
  rewrite spec_try. eapply spec_conseq.
  { apply deploying_follow; [exact Hd1|]. unfold set_apply_each. apply only_for_each. intros o. apply object_follow. }
  intros h2 [[]|e] _ Hd2; [|done]. destruct pending.
  - apply deploying_follow; [exact Hd2|]. apply quiet_follow. apply only_try; [apply quiet_ScaleDown|done].
  - unfold apply_rendered. destruct (signer_StatefulSet p configYAML) as [sts|e] eqn:Es; [|done].
    destruct (LifecycleDigest p _) as [digest|e]; [|done]. rewrite spec_try.
    eapply spec_conseq; [apply deploying_follow; [exact Hd2|by eapply rendered_follow]|]. intros h3 [[]|e] _ Hd3; [|done].
    by apply observe_ok.
Qed.

Lemma ensure_signer_ok blocked prepared acc s h :
  reserved prepared h → spec ok h (ensure_signer opts now GetGeneration blocked (Some prepared) acc s) (λ h' _, reserved prepared h').
Proof.
  intros Hr. destruct acc as [m changed]. unfold ensure_signer. destruct (bool_decide _); [done|].
  rewrite spec_try. eapply spec_conseq; [apply preparation_spec; by apply prepared_params|].
  intros h1 [[m1 p]|e] _ [Hr1 Hp]; [|done]. destruct (Hp m1 p eq_refl) as (sg & Hsg).
  rewrite spec_try. eapply spec_conseq; [by apply (reconcile_signer_ok _ _ p prepared sg)|].
  by intros h2 [[m2 c]|e] _ [_ Hr2].
Qed.
Lemma ensure_ok m blocked prepared h :
  reserved prepared h →
  spec ok h (ensureCosmosignerWithBlockedTargets opts now GetGeneration m blocked (Some prepared)) (λ _ _, True).
Proof.
  intros Hr. unfold ensureCosmosignerWithBlockedTargets. destruct (_ || _); [done|]. rewrite spec_try.
  eapply spec_conseq; [apply preparation_spec, (reading_kept _ _ prepared); [exact Hr|apply quiet_reading, quiet_set_locks]|].
  intros h1 [[m1 recorded]|e] _ Hr1; [|done]. destruct (set_validateRecordedCosmosignerLocks m1); [|done].
  destruct recorded; [done|]. rewrite spec_try.
  eapply spec_conseq; [apply (spec_fold ok (λ h _, reserved prepared h)); [exact Hr1|]|].
  - intros h' acc s _ Hr'. eapply spec_conseq; [by apply ensure_signer_ok|]. by intros h2 r _ Hr2 s' _.
  - intros h2 [[m2 []]|e] _ _; [|done..]. by split; [|intros [[]|e]].
Qed.
Lemma rollouts_ok m blocked prepared h :
  reserved prepared h →
  spec ok h (prepareCosmosignerRollouts opts now GetGeneration m blocked (Some prepared)) (λ _ _, True).
Proof.
  intros Hr. unfold prepareCosmosignerRollouts. rewrite spec_try. eapply spec_conseq; [by apply ensure_ok|].
  intros h1 [m1|e] _ _; [|done]. apply preparation_spec, reading_done, quiet_reading. apply only_try; [|done].
  apply only_all_in_turn. intros s. unfold signer_live. destruct (bool_decide _); [exact I|]. apply only_try; [apply rolled_out_quiet|done].
Qed.
End deployment.

(** ** The pass *)

Section pass.
Context `{MetaApi} `{ApplyLaws} `{JsonApi} `{YamlApi} `{QuantityApi} `{PrivvalApi}.
Variable opts : SignerOptions.
Variable fuel : nat.
Variable n : ChainNodeSet.

Abbreviation ok := (set_preparation_ok fuel n).

Lemma replace_names_unchanged desired l m c m' : foldl (replace_name desired) (m, c) l = (m', false) → m' = m ∧ c = false.
Proof.
  revert m c. induction l as [|s l IH]; intros m c; cbn [foldl]; [by intros [= <- <-]|].
  unfold replace_name at 2. destruct (GetCosmosignerStatus m (sg_Name s)); [apply IH|].
  destruct (find _ _); [|apply IH]. by intros [_ K]%IH.
Qed.
Lemma replacement_names_same h :
  spec anything h (initCosmosignerReplacementNames n) (λ _ r, ∀ m, r = Ok (m, false) → m = n).
Proof.
  unfold initCosmosignerReplacementNames. destruct (foldl _ _ _) as [m []] eqn:Ef.
  - apply spec_after; by intros.
  - apply replace_names_unchanged in Ef as [-> _]. by intros m [= <-].
Qed.

(** From the prepared parameters on. *)
Lemma prepared_rest m prepared h :
  all_reserved fuel n prepared h →
  spec ok h (
    '(m, pending) ←? reconcileCosmosignerMigrations m (Some (migration_params <$> prepared));
    if pending : bool then return_result (m, None) else
    '(m, imported) ←? prepareCosmosignerImports opts m (Some prepared);
    match imported with
    | None => return_result (m, None)
    | Some blocked => '(m, tornDown) ←? reconcileSignerTeardown m;
                      return_result (m, if tornDown : bool then Some (blocked, prepared) else None)
    end)
    (λ h' r, ∀ m' blocked prepared', r = Ok (m', Some (blocked, prepared')) → all_reserved fuel n prepared' h').
Proof.
  intros Hr. rewrite spec_try. eapply spec_conseq; [apply (spec_keep ok h _ (λ _ _, True) (all_reserved fuel n prepared) _ Hr), migrations_ok|].
  intros h1 [[m1 []]|e] _ [Hr1 _]; [by intros| |by intros]. rewrite spec_try. eapply spec_conseq; [by apply imports_ok|].
  intros h2 [[m2 [blocked|]]|e] _ Hr2; [|by intros..]. rewrite spec_try.
  eapply spec_conseq; [apply (spec_keep ok h2 _ (λ _ _, True) (all_reserved fuel n prepared) _ Hr2), teardown_ok|].
  intros h3 [[m3 []]|e] _ [Hr3 _]; [|by intros..]. by intros m' b p [= _ _ <-].
Qed.

Lemma signers_ok h :
  spec ok h (reconcile_set_signers opts fuel n)
    (λ h' r, ∀ m blocked prepared, r = Ok (m, Some (blocked, prepared)) → all_reserved fuel n prepared h').
Proof.
  unfold reconcile_set_signers. rewrite spec_try.
  eapply spec_conseq; [apply reading_spec; [apply quiet_reading, quiet_replacement_names|apply replacement_names_same]|].
  intros h1 [[m1 []]|e] _ Hm1; [by intros| |by intros]. rewrite (Hm1 m1 eq_refl). clear m1 Hm1. rewrite spec_try.
  eapply spec_conseq; [apply reading_spec; [apply quiet_reading, quiet_preflightCosmosigners|apply (preflight_same opts n), same_set_self]|].
  intros h2 [m2|e] _ Hm2; [|by intros]. specialize (Hm2 m2 eq_refl). rewrite spec_try.
  eapply spec_conseq; [apply reading_done, fallbacks_reading|]. intros h3 [[]|e] _ _; [|by intros]. rewrite spec_try.
  eapply spec_conseq with (Q := λ h' r, ∀ m' prepared, r = Ok (m', prepared) → all_reserved fuel n prepared h').
  { destruct (_ == _).
    - cbn [spec]. intros m' prepared [= _ <-]. split; by intros.
    - eapply spec_conseq; [by apply prepareCosmosignerParams_ok|]. intros h4 r _ Hp m' prepared E. by eapply Hp. }
  intros h4 [[m4 prepared]|e] _ Hp; [|by intros]. specialize (Hp m4 prepared eq_refl). rewrite spec_try.
  eapply spec_conseq; [apply (reading_kept fuel n prepared); [exact Hp|apply quiet_reading, quiet_set_locks]|].
  intros h5 [[m5 recorded]|e] _ Hp5; [|by intros]. destruct (set_validateRecordedCosmosignerLocks m5) as [[]|e]; [|by intros].
  destruct recorded; [by intros|]. by apply prepared_rest.
Qed.
End pass.

(** ** Properties *)

(** C4: before the nodes of a set are touched, a pass over its signers makes no StatefulSet and changes one
    only to scale it to zero or to keep its pods and replicas, so that no workload that signs is made or
    resumed; and the parameters it hands on are reserved: for each signer the key it is told to sign with
    was acquired, from the first request to the end with success, for the chain, the set and the claim of that
    signer; no two signers have the same key; and the signer of a validator keeps the key recorded on chain and
    the one it was rolled out with.  A pod that does more than read a public key is made after such a
    reservation. *)
Theorem reconcile_set_signers_reserves `{MetaApi} `{ApplyLaws} `{JsonApi} `{YamlApi} `{QuantityApi} `{PrivvalApi} opts fuel n h :
  spec (set_preparation_ok fuel n) h (reconcile_set_signers opts fuel n)
    (λ h' r, ∀ m blocked prepared, r = Ok (m, Some (blocked, prepared)) → all_reserved fuel n prepared h').
Proof. apply signers_ok. Qed.

(** C5: with parameters so reserved, the rollout of the signers creates a StatefulSet, or gives one other pods or
    other than zero replicas, only for the pods rendered from the parameters of a signer whose key is
    reserved. *)
Theorem prepareCosmosignerRollouts_reserved `{MetaApi} `{ApplyLaws} `{JsonApi} `{YamlApi} `{QuantityApi} `{PrivvalApi}
    opts fuel n now GetGeneration m blocked prepared h (Hr : all_reserved fuel n prepared h) :
  spec (set_deployment_ok fuel n) h (prepareCosmosignerRollouts opts now GetGeneration m blocked (Some prepared)) (λ _ _, True).
Proof. by apply rollouts_ok. Qed.

(** ** An example

    A validator group with a software key, whose signer has its locks recorded. *)

Fixpoint exec_history {A} (w : fake) (m : kube A) (h : list kevent) : list kevent :=
  match m with
  | Ret _ => h
  | Call r k => let '(x, w) := serve w r in exec_history w (k x) (Ev r x :: h)
  end.
Lemma exec_history_spec {A} P h (m : kube A) Q w : spec P h m Q → Q (exec_history w m h) (exec w m).1.
Proof.
  revert w h. induction m as [a|r k IH]; intros w h; cbn [spec exec exec_history]; [done|]. intros [_ Hk].
  destruct (serve w r) as [x w']. apply IH, Hk.
Qed.

Definition signing_set : ChainNodeSet :=
  mkChainNodeSet (mkMeta "net" "default" "uid-2" ∅ None [] [] None 0 "")
    (newChainNodeSetSpec (newAppSpec "img" None "appd" []) (Some newNodeSetValidator) []
       (Some (mkCosmosigner [] (Some 1%Z) None (mkBackend (Some (mkSoftware None)) None None) None None None None false None None)))
    (newChainNodeSetStatus "chain-1" [] 0
       [with_establishment (with_serving (with_entry_locks (newCosmosignerStatus "net-signer") (Some 1%Z) ("1Gi", None)) "" "" ReservedValidatorGroupName)
          (Some true) None]).
Definition set_key_secret : Secret := mkSecret (mkMeta "net-validator-priv-key" "default" "" ∅ None [] [] None 0 "") None {[PrivKeyFile := "key"]}.
Definition set_world : fake := mkFake [] ∅ ["default"] [] [signing_set] [] [] [] [] [set_key_secret] [] [] [].
Definition set_pass : set_step (option (gset string * gmap string SignerParams)) :=
  @reconcile_set_signers reference_meta reference_apply reference_json any_document reference_quantity one_key (mkSignerOptions "" false) 2 signing_set.
Definition set_pass_result := (exec set_world set_pass).1.
Definition set_in_hand : ChainNodeSet := match set_pass_result with Ok (m, _) => m | Err _ => signing_set end.
Definition set_params : gmap string SignerParams := match set_pass_result with Ok (_, Some (_, p)) => p | _ => ∅ end.

Lemma set_params_reserved : @all_reserved reference_meta reference_json 2 signing_set set_params (exec_history set_world set_pass []).
Proof.
  assert (∃ m blocked, (exec set_world set_pass).1 = Ok (m, Some (blocked, set_params))) as (m & blocked & E).
  { exists set_in_hand, ∅. vm_compute. reflexivity. }
  pose proof (exec_history_spec _ [] set_pass _ set_world
    (@signers_ok reference_meta reference_apply reference_apply_laws reference_json any_document reference_quantity one_key
       (mkSignerOptions "" false) 2 signing_set [])) as Hs.
  exact (Hs m blocked set_params E).
Qed.

(** The pass reserves the key for the set and makes nothing. *)
Lemma reconcile_set_signers_witness :
  (let '(_, w) := exec set_world set_pass in
   (sp_ExpectedPublicKey <$> set_params !! "net-signer", map sts_Name (fk_statefulsets w), map (λ p, (rs_PublicKey p.2, rs_OwnerUID p.2)) (fk_log w))) =
  (Some example_pk, [], [(example_pk, "uid-2")]) ∧
  spec (@set_preparation_ok reference_meta reference_json 2 signing_set) [] set_pass
    (λ h' r, ∀ m blocked prepared, r = Ok (m, Some (blocked, prepared)) → @all_reserved reference_meta reference_json 2 signing_set prepared h').
Proof.
  split; [vm_compute; reflexivity|].
  exact (@reconcile_set_signers_reserves reference_meta reference_apply reference_apply_laws reference_json any_document
    reference_quantity one_key (mkSignerOptions "" false) 2 signing_set []).
Defined.

(** The rollout then deploys the signer. *)
Definition set_rollout : set_step bool :=
  @prepareCosmosignerRollouts reference_meta reference_apply reference_json any_document reference_quantity one_key (mkSignerOptions "" false)
    0 (λ _, 0%Z) set_in_hand ∅ (Some set_params).
Lemma prepareCosmosignerRollouts_witness :
  map sts_Name (fk_statefulsets (exec (exec set_world set_pass).2 set_rollout).2) = ["net-signer"] ∧
  spec (@set_deployment_ok reference_meta reference_json any_document reference_quantity 2 signing_set)
    (exec_history set_world set_pass []) set_rollout (λ _ _, True).
Proof.
  split; [vm_compute; reflexivity|].
  apply (@prepareCosmosignerRollouts_reserved reference_meta reference_apply reference_apply_laws reference_json any_document
    reference_quantity one_key (mkSignerOptions "" false) 2 signing_set).
  apply set_params_reserved.
Defined.
