(* ===== verification/SetChildren.v ===== *)
(** * The children of a set ([internal/controllers/chainnodeset/nodes.go], [validator.go], [utils.go])

    The [ChainNode]s a set wants: their labels, specification and owner, for the
    instances of regular groups and for validators; and the entries of the
    status that record them. *)

From S2P Require Import Prelude GoLib ThirdParty ApiTypes KubeApi CosmosignerSpec SignerResolve Getters UniqueSecrets DerivedServices NodeSetWebhook.
From S2P Require Import Reference Labels Upgrades Deploy SetSignerKeys.

(** ** Status entries ([utils.go]) *)

(** The first entry of the name is replaced, or the entry is appended. *)
Fixpoint put_named {A} (name : A → string) (x : A) (l : list A) : list A :=
  match l with
  | [] => [x]
  | y :: l => if name y == name x then x :: l else y :: put_named name x l
  end.
(** The first entry of the name goes. *)
Fixpoint drop_named {A} (name : A → string) (k : string) (l : list A) : list A :=
  match l with
  | [] => []
  | y :: l => if name y == k then l else y :: drop_named name k l
  end.

Definition with_set_status (s : ChainNodeSet) (st : ChainNodeSetStatus) : ChainNodeSet := mkChainNodeSet (cns_meta s) (cns_Spec s) st.
Definition AddOrUpdateNodeStatus (s : ChainNodeSet) (status : ChainNodeSetNodeStatus) : ChainNodeSet :=
  with_set_status s (sst_with_Nodes (cns_Status s) (put_named nn_Name status (sst_Nodes (cns_Status s)))).
Definition DeleteNodeStatus (s : ChainNodeSet) (name : string) : ChainNodeSet :=
  with_set_status s (sst_with_Nodes (cns_Status s) (drop_named nn_Name name (sst_Nodes (cns_Status s)))).
Definition AddOrUpdateValidatorStatus (s : ChainNodeSet) (status : ChainNodeSetValidatorStatus) : ChainNodeSet :=
  with_set_status s (sst_with_Validators (cns_Status s) (put_named vst_Name status (sst_Validators (cns_Status s)))).
Definition DeleteValidatorStatus (s : ChainNodeSet) (name : string) : ChainNodeSet :=
  with_set_status s (sst_with_Validators (cns_Status s) (drop_named vst_Name name (sst_Validators (cns_Status s)))).

(** The host and the port of ["<nodeID>@<host>:<port>"]. *)
Definition parsePublicAddress (publicAddress : string) : option (string * Z) :=
  if publicAddress == "" then None else
  match split_char ":"%char publicAddress with
  | [idHost; port] =>
      match Atoi port with
      | Err _ => None
      | Ok p => match split_char "@"%char idHost with
                | [_; host] => Some (host, p)
                | _ => None
                end
      end
  | _ => None
  end.
Definition AddressWithPortFromFullAddress (fullAddress : string) : string :=
  match split_char "@"%char fullAddress with
  | [_; address] => address
  | _ => fullAddress
  end.
Definition RemoveIdFromFullAddresses (fullAddresses : list string) : list string :=
  map AddressWithPortFromFullAddress fullAddresses.

Definition P2pPort : Z := 26656.
(** The entry of a child, with the public endpoint when it is exposed. *)
Definition child_status (node : ChainNode) (group : string) : ChainNodeSetNodeStatus :=
  let st := cn_Status node in
  let '(public, host, port) := match parsePublicAddress (nst_PublicAddress st) with
                               | Some (host, port) => (true, host, port)
                               | None => (false, "", 0%Z)
                               end in
  mkNodeStatus (cn_Name node) (cn_UID node) public (nst_SeedMode st) (nst_NodeID st) (nst_IP st) host port P2pPort group.

(** ** Parts of a child's specification ([nodes.go]) *)

Definition int32 (z : Z) : Z := wrap 32 z.
Definition exposeForInstance (src : option ExposeConfig) (index : Z) : option ExposeConfig :=
  match src with
  | Some e =>
      match ex_Gateway e with
      | Some g => Some (mkExpose (ex_P2P e) (ex_P2pServiceType e) (ex_Annotations e)
                          (Some (mkExposeGateway (eg_Ref g) (Some (int32 (GetGatewayPort e + int32 index))))))
      | None => src
      end
  | None => None
  end.

Definition with_guard (c : Config) (g : option CosmoGuardConfig) : Config :=
  mkConfig (cf_Override c) (cf_Sidecars c) (cf_ImagePullSecrets c) (cf_BlockThreshold c) (cf_ReconcilePeriod c) (cf_StateSync c)
    (cf_SeedMode c) (cf_Env c) (cf_PodAnnotations c) (cf_SafeToEvict c) g (cf_NodeUtilsLogLevel c) (cf_StartupTime c)
    (cf_IgnoreSyncing c) (cf_NodeUtilsResources c) (cf_CosmosignerDiscoveryResources c) (cf_NodeUtilsEnv c)
    (cf_PersistAddressBook c) (cf_TerminationGracePeriodSeconds c) (cf_EvmEnabled c) (cf_RunFlags c) (cf_DashedConfigToml c)
    (cf_HaltHeight c) (cf_SecurityContext c) (cf_PodSecurityContext c) (cf_ServiceAccountName c).
Definition with_override (c : Config) (override : gmap string string) : Config :=
  mkConfig (Some override) (cf_Sidecars c) (cf_ImagePullSecrets c) (cf_BlockThreshold c) (cf_ReconcilePeriod c) (cf_StateSync c)
    (cf_SeedMode c) (cf_Env c) (cf_PodAnnotations c) (cf_SafeToEvict c) (cf_CosmoGuard c) (cf_NodeUtilsLogLevel c) (cf_StartupTime c)
    (cf_IgnoreSyncing c) (cf_NodeUtilsResources c) (cf_CosmosignerDiscoveryResources c) (cf_NodeUtilsEnv c)
    (cf_PersistAddressBook c) (cf_TerminationGracePeriodSeconds c) (cf_EvmEnabled c) (cf_RunFlags c) (cf_DashedConfigToml c)
    (cf_HaltHeight c) (cf_SecurityContext c) (cf_PodSecurityContext c) (cf_ServiceAccountName c).
(** [&appsv1.Config{}] *)
Definition empty_config : Config :=
  mkConfig None [] [] None None None None [] ∅ None None None None None None None [] None None None [] None None None None None.

Definition without_exposure (d : CosmoGuardDashboardConfig) : CosmoGuardDashboardConfig :=
  mkDashboard (db_Enable d) (db_Port d) (db_BasicAuth d) None None.
(** The exposure of the dashboard stays with the group. *)
Definition configForChild (src : option Config) : option Config :=
  match src with
  | None => None
  | Some c =>
      if negb (CosmoGuardDashboardEnabled src) then src else
      match cf_CosmoGuard c with
      | None => src
      | Some g => Some (with_guard c (Some (mkCosmoGuard (cg_Enable g) (cg_Config g) (cg_Image g) (cg_Replicas g) (cg_Autoscaling g)
                                              (without_exposure <$> cg_Dashboard g) (cg_Resources g) (cg_RestartPodOnFailure g))))
      end
  end.

Definition without_snapshots (p : Persistence) : Persistence :=
  mkPersistence (pe_Size p) (pe_StorageClassName p) (pe_AutoResize p) (pe_AutoResizeThreshold p) (pe_AutoResizeIncrement p)
    (pe_AutoResizeMaxSize p) (pe_AdditionalInitCommands p) None (pe_RestoreFromSnapshot p) (pe_InitTimeout p) (pe_AdditionalVolumes p).
(** Snapshots are taken on one instance of a group. *)
Definition persistence_for (g : NodeGroupSpec) (index : Z) (p : option Persistence) : option Persistence :=
  if index != GetSnapshotNodeIndex g then without_snapshots <$> p else p.

Definition indexed_host (index : Z) (host : string) : string := FormatInt index +:+ "." +:+ host.
Definition ingress_for (index : Z) (i : IngressConfig) : IngressConfig :=
  mkIngress (in_Enable i) (indexed_host index (in_Host i)) (in_Subdomains i) (in_Annotations i) (in_DisableTLS i) (in_TlsSecretName i)
    (in_GrpcAnnotations i) (in_IngressClass i) (in_UseInternalServices i).
Definition gateway_for (index : Z) (g : GatewayConfig) : GatewayConfig :=
  mkGateway (gw_Gateway g) (indexed_host index (gw_Host g)) (gw_Subdomains g) (gw_Enable g) (gw_UseInternalServices g).

Definition child_genesis (s : ChainNodeSet) : option GenesisConfig :=
  let g := ss_Genesis (cns_Spec s) in
  if ShouldDownloadUsingContainer g || HasConfigMapSource g then g
  else Some (mkGenesisConfig None None None (Some (GetConfigMapName g (sst_ChainID (cns_Status s)))) None None).

(** Labels by which the services of the global routes of a group select its pods. *)
Definition ingress_membership (s : ChainNodeSet) (group : string) (labels : gmap string string) : gmap string string :=
  foldl (λ m ing, if gi_HasGroup ing group then <[gi_GetName ing (cns_meta s) := StringValueTrue]> m else m) labels (ss_Ingresses (cns_Spec s)).
Definition gateway_membership (s : ChainNodeSet) (group : string) (labels : gmap string string) : gmap string string :=
  foldl (λ m gw, if gg_HasGroup gw group then <[gg_GetName gw (cns_meta s) := StringValueTrue]> m else m) labels (ss_GatewayRoutes (cns_Spec s)).

(** A target of a signer gets its label and no inherited one of a node. *)
Definition target_labels (signerName : string) (labels : gmap string string) : gmap string string :=
  <[LabelCosmosignerTarget := signerName]> (delete LabelChainNode labels).

(** *** Gas prices *)

Definition AppTomlFile : string := "app.toml".
Definition MinimumGasPricesKey : string := "minimum-gas-prices".
(** A failed type assertion and an assignment to an entry of a nil map panic. *)
Definition type_assertion_panic : error := Sentinel "interface conversion: interface {} is not string".
Definition nil_map_assignment : error := Sentinel "assignment to entry in nil map".

Section children.
Context `{ApplyApi} `{JsonObjectApi}.

Definition GetValidatorMinimumGasPrices (s : ChainNodeSet) : result string :=
  let validator := match ss_Validator (cns_Spec s) with
                   | Some v => Some v
                   | None => find_group (λ g, is_some (ng_Validator g) && (0 <? GetInstances g)%Z) s ≫= ng_Validator
                   end in
  match (validator ≫= nv_Config) ≫= cf_Override with
  | None => Ok ""
  | Some override =>
      match override !! AppTomlFile with
      | None => Ok ""
      | Some raw =>
          match json_Unmarshal_object raw with
          | Err _ => Ok ""
          | Ok cfg => match default ∅ cfg !! MinimumGasPricesKey with
                      | None => Ok ""
                      | Some price => match json_to_string price with Some p => Ok p | None => Err type_assertion_panic end
                      end
          end
      end
  end.

Definition marshal_object (doc : gmap string string) (message : string) : result string :=
  match json_Marshal_object doc with Ok b => Ok b | Err e => Err (Wrapf e message []) end.

(** The override of [app.toml] with the price of the validator. *)
Definition priced_override (override : gmap string string) (price : string) : result (gmap string string) :=
  let raw := default "" (override !! AppTomlFile) in
  doc ← (if raw == "" then Ok (Some ∅)
         else match json_Unmarshal_object raw with Ok d => Ok d | Err e => Err (Wrapf e "unmarshaling app config: %w" []) end);
  match doc with
  | None => Err nil_map_assignment
  | Some doc =>
      data ← marshal_object (<[MinimumGasPricesKey := json_of_string price]> doc) "failed to marshal config data: %w";
      Ok (<[AppTomlFile := data]> override)
  end.

Definition inherit_gas_price (s : ChainNodeSet) (g : NodeGroupSpec) (cfg : option Config) : result (option Config) :=
  if negb (HasValidator s && ShouldInheritValidatorGasPrice g) then Ok cfg else
  price ← GetValidatorMinimumGasPrices s;
  if price == "" then Ok cfg else
  data ← marshal_object {[MinimumGasPricesKey := json_of_string price]} "failed to marshal minimum gas prices: %w";
  match cfg with
  | None => Ok (Some (with_override empty_config {[AppTomlFile := data]}))
  | Some c => match cf_Override c with
              | None => Ok (Some (with_override c {[AppTomlFile := data]}))
              | Some override => override ← priced_override override price; Ok (Some (with_override c override))
              end
  end.

(** ** Regular instances *)

Definition group_labels (s : ChainNodeSet) (group : string) (validator : string) : gmap string string :=
  WithChainNodeSetLabels s
    [<[LabelChainNodeSet := cns_Name s]> (<[LabelChainNodeSetGroup := group]> {[LabelChainNodeSetValidator := validator]})].
Definition child_of (s : ChainNodeSet) (name : string) (labels : gmap string string) (spec : ChainNodeSpec) : result ChainNode :=
  m ← SetControllerReference (cns_meta s) (mkMeta name (cns_Namespace s) "" labels None [] [] None 0 "");
  Ok (mkChainNode m spec (newChainNodeStatus PhaseChainNodeNone "" 0 [] no_signer_status)).

Definition node_name (s : ChainNodeSet) (group : string) (index : Z) : string := cns_Name s +:+ "-" +:+ group +:+ "-" +:+ FormatInt index.

Definition getNodeSpecWithBlockedSignerTargets (s : ChainNodeSet) (g : NodeGroupSpec) (index : Z) (blocked : gset string) : result ChainNode :=
  let signer := signerNameForNodeWithBlockedTargets s (ng_Name g) blocked in
  let labels := group_labels s (ng_Name g) StringValueFalse in
  let labels := match signer with Some name => target_labels name labels | None => labels end in
  let labels := gateway_membership s (ng_Name g) (ingress_membership s (ng_Name g) labels) in
  cfg ← inherit_gas_price s g (configForChild (ng_Config g));
  child_of s (node_name s (ng_Name g) index) labels
    (mkChainNodeSpec (child_genesis s) (GetAppSpecWithUpgrades s) cfg (persistence_for g index (ng_Persistence g))
       (ss_DeletionPolicy (cns_Spec s)) None None (is_some signer) None (ng_StateSyncRestore g) (ng_StateSyncResources g)
       (ng_Peers g) (exposeForInstance (ng_Expose g) index) (ng_Resources g) (ng_NodeSelector g) (ng_Affinity g)
       (ng_IgnoreGroupOnDisruptionChecks g) (ng_VPA g) (ng_OverrideVersion g) (ingress_for index <$> ng_IndividualIngresses g)
       (gateway_for index <$> ng_IndividualGatewayRoutes g)).

(** ** Validators ([validator.go]) *)

(** The signer of an instance: whether it is a remote target, and the label that makes the
    signer dial it. *)
Definition validator_signer (s : ChainNodeSet) (group : string) (index : Z) (blocked : gset string) (secondariesDiscoverable : bool) :
    bool * option string :=
  let zero := signerNameForNodeWithBlockedTargets s group blocked in
  match (if (0 <? index)%Z then signerNameForNode s group else None) with
  | Some name => (true, if secondariesDiscoverable then Some name else None)
  | None => (is_some zero, zero)
  end.

Definition validator_config_of (cfg : NodeSetValidatorConfig) : ValidatorConfig :=
  mkValidatorConfig (nv_PrivateKeySecret cfg) (nv_Info cfg) (nv_Init cfg) (nv_TmKMS cfg) (nv_CreateValidator cfg) (nv_AccountHDPath cfg)
    (nv_AccountPrefix cfg) (nv_ValPrefix cfg).

Definition getValidatorSpecWithBlockedSignerTargets (s : ChainNodeSet) (group : string) (index : Z) (cfg : NodeSetValidatorConfig)
    (blocked : gset string) (secondariesDiscoverable : bool) : result ChainNode :=
  let '(remote, label) := validator_signer s group index blocked secondariesDiscoverable in
  let labels := group_labels s group StringValueTrue in
  let labels := match label with Some name => target_labels name labels | None => labels end in
  let labels := gateway_membership s group (ingress_membership s group labels) in
  child_of s (validatorNodeName s group index) labels
    (mkChainNodeSpec (if is_some (nv_Init cfg) then None else child_genesis s) (GetAppSpecWithUpgrades s) (configForChild (nv_Config cfg))
       (nv_Persistence cfg) (ss_DeletionPolicy (cns_Spec s)) (Some (validator_config_of cfg)) None remote None
       (nv_StateSyncRestore cfg) (nv_StateSyncResources cfg) [] None (nv_Resources cfg) (nv_NodeSelector cfg) (nv_Affinity cfg)
       None (nv_VPA cfg) (nv_OverrideVersion cfg) None None).

(** What [ensureValidator] adds to an instance of a group. *)
Definition with_group_fields (g : NodeGroupSpec) (index : Z) (n : ChainNode) : ChainNode :=
  let sp := cn_Spec n in
  mkChainNode (cn_meta n)
    (mkChainNodeSpec (ns_Genesis sp) (ns_App sp) (ns_Config sp) (persistence_for g index (ns_Persistence sp)) (ns_DeletionPolicy sp)
       (ns_Validator sp) (ns_Cosmosigner sp) (ns_RemoteSignerTarget sp) (ns_AutoDiscoverPeers sp) (ns_StateSyncRestore sp)
       (ns_StateSyncResources sp) (ng_Peers g) (exposeForInstance (ng_Expose g) index) (ns_Resources sp) (ns_NodeSelector sp)
       (ns_Affinity sp) (ns_IgnoreGroupOnDisruptionChecks sp) (ns_VPA sp) (ns_OverrideVersion sp)
       (match ng_IndividualIngresses g with Some i => Some (ingress_for index i) | None => ns_Ingress sp end)
       (match ng_IndividualGatewayRoutes g with Some r => Some (gateway_for index r) | None => ns_Gateway sp end))
    (cn_Status n).
End children.

(** *** One configuration per instance *)

(** The genesis validators of the other instances. *)
Definition groupGenesisValidators (s : ChainNodeSet) (group : string) (instances : Z) (cfg : NodeSetValidatorConfig) : list GenesisValidator :=
  match nv_Init cfg with
  | None => []
  | Some init =>
      if (instances <=? 1)%Z || IsCosmosignerTargetGroup s group then [] else
      map (λ i, let name := validatorNodeName s group i in
                mkGenesisValidator (name +:+ "-priv-key") (name +:+ "-account") name (gn_Assets init) (gn_StakeAmount init))
        (filter (λ i, (0 < i)%Z) (indices instances))
  end.

Definition init_with_validators (i : GenesisInitConfig) (l : list GenesisValidator) : GenesisInitConfig :=
  mkGenesisInit (gn_ChainID i) (gn_AccountMnemonicSecret i) (gn_AccountHDPath i) (gn_AccountPrefix i) (gn_ValPrefix i)
    (gn_CommissionMaxChangeRate i) (gn_CommissionMaxRate i) (gn_CommissionRate i) (gn_MinSelfDelegation i) (gn_Assets i)
    (gn_StakeAmount i) (gn_Accounts i) (gn_ChainNodeAccounts i) (gn_UnbondingTime i) (gn_VotingPeriod i) (gn_ExpeditedVotingPeriod i)
    (gn_AdditionalInitCommands i) l.
(** The configuration of another instance than the first. *)
Definition secondary_config (cfg : NodeSetValidatorConfig) (clear_init clear_create : bool) : NodeSetValidatorConfig :=
  let pin (field : option string) (resolved : string) := if clear_init then Some (default resolved field) else field in
  mkNodeSetValidator (nv_PrivateKeySecret cfg) (nv_Info cfg) (if clear_init then None else nv_Init cfg) (nv_Config cfg) (nv_Persistence cfg)
    (nv_Resources cfg) (nv_NodeSelector cfg) (nv_Affinity cfg) (nv_TmKMS cfg) (nv_StateSyncRestore cfg) (nv_StateSyncResources cfg)
    (if clear_create then None else nv_CreateValidator cfg) (nv_VPA cfg) (nv_PDB cfg) (nv_OverrideVersion cfg)
    (pin (nv_AccountHDPath cfg) (nv_GetAccountHDPath (Some cfg))) (pin (nv_AccountPrefix cfg) (nv_GetAccountPrefix (Some cfg)))
    (pin (nv_ValPrefix cfg) (nv_GetValPrefix (Some cfg))).

Definition deriveGroupValidatorConfig (s : ChainNodeSet) (group : string) (index instances : Z) (cfg : NodeSetValidatorConfig) : NodeSetValidatorConfig :=
  if (instances <=? 1)%Z then cfg else
  let targeted := IsCosmosignerTargetGroup s group in
  if negb (is_some (nv_Init cfg)) && negb (targeted && is_some (nv_CreateValidator cfg)) then cfg
  else if (0 <? index)%Z then secondary_config cfg (is_some (nv_Init cfg)) targeted
  else match nv_Init cfg with
       | None => cfg
       | Some init =>
           if targeted then cfg else
           nv_with_Init cfg (Some (init_with_validators init (gn_GenesisValidators init ++ groupGenesisValidators s group instances cfg)))
       end.

(** What is waited for after a child was made or updated. *)
Inductive chainNodeWait := waitNone | waitRunningOrSyncing | waitGenesisReady.

Definition validatorWaitMode (s : ChainNodeSet) (cfg : NodeSetValidatorConfig) (instances : Z) (group : string) : chainNodeWait :=
  if negb (is_some (nv_Init cfg)) || (sst_ChainID (cns_Status s) != "") then waitNone
  else if (1 <? instances)%Z || IsCosmosignerTargetGroup s group then waitGenesisReady
  else waitRunningOrSyncing.

(** ** Which children a signer finds *)

Lemma signerNameForNode_targeted s group : is_some (signerNameForNode s group) = IsCosmosignerTargetGroup s group.
Proof.
  unfold signerNameForNode, signerNameForNodeWithBlockedTargets, IsCosmosignerTargetGroup.
  induction (ResolveCosmosigners s) as [|x l IH]; simpl; [done|].
  destruct (existsb _ (sg_TargetGroups x)); simpl; [done|exact IH].
Qed.

Lemma group_labels_untargeted s group v : group_labels s group v !! LabelCosmosignerTarget = None.
Proof.
  unfold group_labels, WithChainNodeSetLabels, StripCosmoGuardLabelDomain. apply map_lookup_filter_None. left. simpl.
  rewrite lookup_MergeMaps, decide_False by set_solver. rewrite !lookup_insert_ne by done.
  rewrite lookup_singleton_ne by done. rewrite lookup_ExcludeMapKeys. by rewrite decide_True by set_solver.
Qed.

(** The name of a route is no key of the controllers. *)
Lemma global_name_ne a b : a +:+ "-global-" +:+ b ≠ LabelCosmosignerTarget.
Proof. intros E. repeat (destruct a as [|? a]; simpl in E; [discriminate E|first [discriminate E|injection E as _ E]]). Qed.
Lemma suffixed_ne suffix a c d : String.length suffix = String.length d → a +:+ suffix = c +:+ d → suffix = d.
Proof.
  intros Hl. revert c. induction a as [|x a IH]; intros [|y c] E; [done|..].
  - apply (f_equal String.length) in E. rewrite !string_length_app in E. simpl in E. lia.
  - apply (f_equal String.length) in E. rewrite !string_length_app in E. simpl in E. lia.
  - injection E as _ E. by eapply IH.
Qed.
Lemma route_name_ne a b : a +:+ "-" +:+ b +:+ "-gw" ≠ LabelCosmosignerTarget.
Proof.
  intros E. rewrite <- !string_app_assoc in E. change LabelCosmosignerTarget with ("cosmosigner-tar" +:+ "get") in E.
  by apply suffixed_ne in E.
Qed.

Lemma membership_target s group labels :
  gateway_membership s group (ingress_membership s group labels) !! LabelCosmosignerTarget = labels !! LabelCosmosignerTarget.
Proof.
  transitivity (ingress_membership s group labels !! LabelCosmosignerTarget).
  - unfold gateway_membership. generalize (ingress_membership s group labels). induction (ss_GatewayRoutes _) as [|g l IH]; intros m; simpl; [done|].
    rewrite IH. destruct (gg_HasGroup g group); [|done]. apply lookup_insert_ne, route_name_ne.
  - unfold ingress_membership. revert labels. induction (ss_Ingresses _) as [|g l IH]; intros m; simpl; [done|].
    rewrite IH. destruct (gi_HasGroup g group); [|done]. apply lookup_insert_ne, global_name_ne.
Qed.

Section found.
Context `{ApplyLaws} `{JsonObjectApi}.

Lemma child_of_Ok s name labels spec n :
  child_of s name labels spec = Ok n →
  cn_Name n = name ∧ cn_Namespace n = cns_Namespace s ∧ meta_Labels (cn_meta n) = labels ∧ cn_Spec n = spec.
Proof.
  unfold child_of. intros (m & Hm & [= <-])%bind_Ok. pose proof (SetControllerReference_labels _ _ _ Hm) as Hl.
  apply SetControllerReference_name in Hm as [Hn Hs]. unfold cn_Name, cn_Namespace. simpl. by rewrite Hn, Hs, Hl.
Qed.

(** The label and the signing mode of a validator. *)
Lemma getValidatorSpec_Ok s group i cfg blocked d n :
  getValidatorSpecWithBlockedSignerTargets s group i cfg blocked d = Ok n →
  cn_Name n = validatorNodeName s group i ∧ cn_Namespace n = cns_Namespace s ∧
  meta_Labels (cn_meta n) !! LabelCosmosignerTarget = (validator_signer s group i blocked d).2 ∧
  ns_RemoteSignerTarget (cn_Spec n) = (validator_signer s group i blocked d).1 ∧
  ns_Validator (cn_Spec n) = Some (validator_config_of cfg).
Proof.
  unfold getValidatorSpecWithBlockedSignerTargets. destruct (validator_signer s group i blocked d) as [remote label].
  intros (-> & -> & Hl & ->)%child_of_Ok. rewrite Hl, membership_target. repeat split. simpl. destruct label as [name|].
  - unfold target_labels. apply lookup_insert_eq.
  - apply group_labels_untargeted.
Qed.

Lemma getNodeSpec_Ok s g i blocked n :
  getNodeSpecWithBlockedSignerTargets s g i blocked = Ok n →
  cn_Name n = node_name s (ng_Name g) i ∧ cn_Namespace n = cns_Namespace s ∧
  meta_Labels (cn_meta n) !! LabelCosmosignerTarget = signerNameForNodeWithBlockedTargets s (ng_Name g) blocked.
Proof.
  unfold getNodeSpecWithBlockedSignerTargets. intros (cfg & _ & Hn)%bind_Ok. apply child_of_Ok in Hn as (-> & -> & Hl & _).
  rewrite Hl, membership_target. repeat split. destruct (signerNameForNodeWithBlockedTargets _ _ _).
  - unfold target_labels. apply lookup_insert_eq.
  - apply group_labels_untargeted.
Qed.
End found.

(** C8: a validator a signer can find never mounts a key of its own, a secondary
    instance of a targeted group never does, found or not, and such an instance is
    only found once it may be. *)
Theorem found_validator_signs_remotely `{ApplyLaws} s group i cfg blocked discoverable n :
  getValidatorSpecWithBlockedSignerTargets s group i cfg blocked discoverable = Ok n →
  (is_some (meta_Labels (cn_meta n) !! LabelCosmosignerTarget) = true → ns_RemoteSignerTarget (cn_Spec n) = true) ∧
  ((0 < i)%Z → IsCosmosignerTargetGroup s group = true →
     ns_RemoteSignerTarget (cn_Spec n) = true ∧ is_some (meta_Labels (cn_meta n) !! LabelCosmosignerTarget) = discoverable).
Proof.
  intros (_ & _ & Hl & Hr & _)%getValidatorSpec_Ok. rewrite Hl, Hr. unfold validator_signer.
  rewrite <- signerNameForNode_targeted. split.
  - by destruct (0 <? i)%Z; [destruct (signerNameForNode s group)|].
  - intros Hi Ht. rewrite (proj2 (Z.ltb_lt 0 i) Hi). destruct (signerNameForNode s group); [|done]. by destruct discoverable.
Qed.

(** ** The genesis validators of a group *)

Definition genesis_validators_of (cfg : NodeSetValidatorConfig) : list GenesisValidator :=
  match nv_Init cfg with Some i => gn_GenesisValidators i | None => [] end.

Lemma derived_first s group instances cfg init :
  nv_Init cfg = Some init → IsCosmosignerTargetGroup s group = false → (1 < instances)%Z →
  genesis_validators_of (deriveGroupValidatorConfig s group 0 instances cfg) =
  gn_GenesisValidators init ++ groupGenesisValidators s group instances cfg.
Proof.
  intros Hi Ht Hn. unfold deriveGroupValidatorConfig, genesis_validators_of.
  rewrite (proj2 (Z.leb_gt instances 1)) by lia. by rewrite Hi, Ht.
Qed.

Lemma derived_secondary s group i instances cfg init :
  nv_Init cfg = Some init → IsCosmosignerTargetGroup s group = false → (0 < i < instances)%Z →
  deriveGroupValidatorConfig s group i instances cfg = secondary_config cfg true false.
Proof.
  intros Hi Ht Hn. unfold deriveGroupValidatorConfig. rewrite (proj2 (Z.leb_gt instances 1)) by lia.
  rewrite Hi, Ht. simpl. by rewrite (proj2 (Z.ltb_lt 0 i)) by lia.
Qed.

Lemma groupGenesisValidators_elem s group i instances cfg init :
  nv_Init cfg = Some init → IsCosmosignerTargetGroup s group = false → (0 < i < instances)%Z →
  mkGenesisValidator (validatorNodeName s group i +:+ "-priv-key") (validatorNodeName s group i +:+ "-account")
    (validatorNodeName s group i) (gn_Assets init) (gn_StakeAmount init) ∈ groupGenesisValidators s group instances cfg.
Proof.
  intros Hi Ht Hn. unfold groupGenesisValidators. rewrite Hi, Ht, (proj2 (Z.leb_gt instances 1)) by lia. simpl.
  apply list_elem_of_fmap. exists i. split; [done|]. apply list_elem_of_filter. split; [lia|].
  unfold indices. apply list_elem_of_fmap. exists (Z.to_nat i). split; [lia|]. apply elem_of_seq. lia.
Qed.

(** A pinned setting is the one that was resolved. *)
Lemma pinned (own a b : option string) (d : string) : default (first_set own a b d) own = first_set own a b d.
Proof. by destruct own. Qed.

Lemma validated_group_validator `{QuantityApi} `{UrlApi} `{DatasizeApi} s k g cfg init :
  nv_Init cfg = Some init → (1 < GetInstances g)%Z → groupCosmosigner s (ng_Name g) = None →
  validate_group_validator s k g cfg = Ok () → nv_CreateValidator cfg = None ∧ nv_PrivateKeySecret cfg = None.
Proof.
  unfold validate_group_validator. intros -> Hn -> Hv. rewrite (proj2 (Z.ltb_lt 1 _) Hn) in Hv. simpl in Hv.
  apply bind_Ok in Hv as (? & _ & Hv). apply bind_Ok in Hv as (? & Hc%guard_err_Ok & Hv).
  apply bind_Ok in Hv as (? & Hk%guard_err_Ok & _).
  split; [by destruct (nv_CreateValidator cfg)|by destruct (nv_PrivateKeySecret cfg)].
Qed.

(** In an admitted group that initializes the genesis, every further instance is
    recorded in the genesis under the secrets and the name its own node will use, and
    its node resolves the account settings the genesis was built with. *)
Theorem genesis_validators_match `{ApplyLaws} `{QuantityApi} `{UrlApi} `{DatasizeApi} s k g cfg init i blocked discoverable n :
  validate_group_validator s k g cfg = Ok () → groupCosmosigner s (ng_Name g) = None →
  IsCosmosignerTargetGroup s (ng_Name g) = false → nv_Init cfg = Some init → (0 < i < GetInstances g)%Z →
  getValidatorSpecWithBlockedSignerTargets s (ng_Name g) i
    (deriveGroupValidatorConfig s (ng_Name g) i (GetInstances g) cfg) blocked discoverable = Ok n →
  ∃ v, ns_Validator (cn_Spec n) = Some v ∧ vc_Init v = None ∧
    mkGenesisValidator (GetPrivKeySecretName (Some v) (cn_meta n)) (GetAccountSecretName v (cn_meta n)) (cn_Name n)
      (gn_Assets init) (gn_StakeAmount init)
      ∈ genesis_validators_of (deriveGroupValidatorConfig s (ng_Name g) 0 (GetInstances g) cfg) ∧
    vc_GetAccountPrefix (Some v) = nv_GetAccountPrefix (Some cfg) ∧ vc_GetValPrefix (Some v) = nv_GetValPrefix (Some cfg) ∧
    vc_GetAccountHDPath (Some v) = nv_GetAccountHDPath (Some cfg).
Proof.
  intros Hv Hg Ht Hi Hn (Hname & _ & _ & _ & Hval)%getValidatorSpec_Ok.
  destruct (validated_group_validator s k g cfg init) as [Hc Hk]; [done|lia|done|done|].
  rewrite (derived_secondary _ _ _ _ _ init) in Hval by done. eexists. split; [exact Hval|]. split; [done|].
  split; [|split_and!; apply pinned].
  rewrite (derived_first _ _ _ _ init) by (done || lia). apply elem_of_app. right.
  unfold GetPrivKeySecretName, GetAccountSecretName. simpl. rewrite Hk, Hc. simpl. fold (cn_Name n). rewrite Hname.
  by eapply groupGenesisValidators_elem.
Qed.

(** ** Witnesses *)

Definition plain_documents : JsonObjectApi := {|
  json_Unmarshal_object _ := Ok None; json_Marshal_object _ := Ok "{}"; json_of_string s := s; json_to_string s := Some s |}.
Definition genesis_config : NodeSetValidatorConfig :=
  nv_with_Init newNodeSetValidator
    (Some (mkGenesisInit "chain-1" None None (Some "osmo") None None None None None ["10stake"] "1stake" [] [] None None None [] [])).
Definition genesis_group : NodeGroupSpec := ng_with_Validator (ng_with_Instances (newNodeGroup "val") (Some 3%Z)) (Some genesis_config).
Definition signer_block : Cosmosigner :=
  mkCosmosigner ["val"] None None (mkBackend (Some (mkSoftware (Some "key"))) None None) None None None None false None None.
Definition genesis_set (signer : option Cosmosigner) : ChainNodeSet :=
  mkChainNodeSet (mkMeta "set" "default" "uid-s" ∅ None [] [] None 0 "")
    (newChainNodeSetSpec (newAppSpec "img" None "appd" []) None [genesis_group] signer) (newChainNodeSetStatus "" [] 0 []).
Definition built (signer : option Cosmosigner) (i : Z) (cfg : NodeSetValidatorConfig) (discoverable : bool) : ChainNode :=
  match @getValidatorSpecWithBlockedSignerTargets reference_apply (genesis_set signer) "val" i cfg ∅ discoverable with
  | Ok n => n
  | Err _ => mkChainNode (meta_of_name "" "") (newChainNodeSpec (newAppSpec "" None "" [])) (newChainNodeStatus PhaseChainNodeNone "" 0 [] no_signer_status)
  end.

Lemma found_validator_witness :
  ns_RemoteSignerTarget (cn_Spec (built (Some signer_block) 1 newNodeSetValidator false)) = true ∧
  is_some (meta_Labels (cn_meta (built (Some signer_block) 1 newNodeSetValidator false)) !! LabelCosmosignerTarget) = false.
Proof.
  apply (@found_validator_signs_remotely reference_apply reference_apply_laws (genesis_set (Some signer_block)) "val" 1
    newNodeSetValidator ∅ false _); [vm_compute; reflexivity|lia|vm_compute; reflexivity].
Defined.

Lemma genesis_validators_match_witness :
  ∃ v, ns_Validator (cn_Spec (built None 2 (secondary_config genesis_config true false) true)) = Some v ∧
    vc_GetAccountPrefix (Some v) = "osmo".
Proof.
  destruct (@genesis_validators_match reference_apply reference_apply_laws reference_quantity no_urls no_sizes (genesis_set None) 0 genesis_group genesis_config
    (mkGenesisInit "chain-1" None None (Some "osmo") None None None None None ["10stake"] "1stake" [] [] None None None [] []) 2 ∅ true
    (built None 2 (secondary_config genesis_config true false) true)) as (v & Hv & _ & _ & Hp & _);
    [vm_compute; reflexivity| | | | | |].
  1,2,3: vm_compute; reflexivity.
  1: vm_compute; split; reflexivity.
  1: vm_compute; reflexivity.
  exists v. split; [exact Hv|]. rewrite Hp. vm_compute. reflexivity.
Defined.
