(* ===== verification/SetNodes.v ===== *)
(** * Reconciling the children of a set ([internal/controllers/chainnodeset/nodes.go], [validator.go])

    Creating, updating, waiting for and deleting the [ChainNode]s of a set, the
    handover of a validator from its local key to its signer, the secrets of the
    genesis validators, and the status entries that record what was found. *)

From S2P Require Import Prelude GoLib IO ThirdParty ApiTypes ApiEquality KubeApi CosmosignerSpec SignerResolve Getters UniqueSecrets.
From S2P Require Import GenesisFingerprint SigningNames SigningPaths Labels ResourceCleanup Deploy NodeFinalize SetSignerKeys SetSigner.
From S2P Require Import SetRollout SetChildren.

(** [if err := m; err != nil { return fmt.Errorf(format, args, err) }] *)
Definition wrapping {A} (m : kube (result A)) (format : string) (args : list fmt_arg) : kube (result A) :=
  r ← m; match r with Ok a => return_result a | Err e => return_error (Wrapf e format args) end.
Definition wrapping_result {A} (m : result A) (format : string) (args : list fmt_arg) : kube (result A) :=
  match m with Ok a => return_result a | Err e => return_error (Wrapf e format args) end.

(** ** Waiting for a child *)

(** What the handlers of the informer leave: the node, the error and whether the informer
    was stopped. *)
Record NodeWait := mkNodeWait { nw_Node : ChainNode; nw_Err : option error; nw_Stopped : bool }.
Definition same_child (n m : ChainNode) : bool := (cn_Name m == cn_Name n) && (cn_Namespace m == cn_Namespace n).
Definition handle_node (validate : ChainNode → bool) (w : NodeWait) (e : NodeEvent) : NodeWait :=
  match e with
  | NodeUndecodable => mkNodeWait (nw_Node w) (Some (Errorf "error converting unstructured to chainnode: %w" [])) true
  | NodeObserved n => if same_child (nw_Node w) n then mkNodeWait n (nw_Err w) (nw_Stopped w || validate n) else w
  | NodeRemoved n => if same_child (nw_Node w) n then mkNodeWait (nw_Node w) (Some (Errorf "chainnode was deleted" [])) true else w
  end.
(** Without a reason to stop, the timeout stops the informer. *)
Definition waitChainNode (node : ChainNode) (validate : ChainNode → bool) : kube (result ChainNode) :=
  if validate node then return_result node else
  events ← call WatchChainNodes;
  let w := foldl (handle_node validate) (mkNodeWait node None false) events in
  match nw_Err w with
  | Some e => return_error e
  | None => if nw_Stopped w then return_result (nw_Node w)
            else return_error (Errorf "timeout waiting for chainnode %s running or syncing status" [AStr (cn_Name node)])
  end.
Definition waitForChainNode (node : ChainNode) (wait : chainNodeWait) : kube (result ChainNode) :=
  match wait with
  | waitRunningOrSyncing => waitChainNode node (λ n, IsReady n || (nst_Phase (cn_Status n) == PhaseChainNodeSnapshotting))
  | waitGenesisReady => waitChainNode node (λ n, nst_ChainID (cn_Status n) != "")
  | waitNone => return_result node
  end.

Definition listNodeSetNodes (s : ChainNodeSet) (labels : gmap string string) : kube (result (list ChainNode)) :=
  list_selected_children s (<[LabelChainNodeSet := cns_Name s]> labels).

Definition isRecordedNodeSetChild (s : ChainNodeSet) (child : ChainNode) : bool := (RecordedChildIdentity s child).2.
(** [currentNode.Equal(node)] *)
Definition node_Equal (n m : ChainNode) : bool := (meta_Labels (cn_meta n) == meta_Labels (cn_meta m)) && (cn_Spec n == cn_Spec m).

Definition ns_with_OverrideVersion (r : ChainNodeSpec) (v : option string) : ChainNodeSpec :=
  mkChainNodeSpec (ns_Genesis r) (ns_App r) (ns_Config r) (ns_Persistence r) (ns_DeletionPolicy r) (ns_Validator r)
    (ns_Cosmosigner r) (ns_RemoteSignerTarget r) (ns_AutoDiscoverPeers r) (ns_StateSyncRestore r) (ns_StateSyncResources r)
    (ns_Peers r) (ns_Expose r) (ns_Resources r) (ns_NodeSelector r) (ns_Affinity r) (ns_IgnoreGroupOnDisruptionChecks r)
    (ns_VPA r) v (ns_Ingress r) (ns_Gateway r).
(** An override has to be removed from each node. *)
Definition keep_override (current node : ChainNode) : ChainNode :=
  if is_some (ns_OverrideVersion (cn_Spec current)) && negb (is_some (ns_OverrideVersion (cn_Spec node)))
  then mkChainNode (cn_meta node) (ns_with_OverrideVersion (cn_Spec node) (ns_OverrideVersion (cn_Spec current))) (cn_Status node)
  else node.

Section nodes.
Context `{MetaApi} `{ApplyApi} `{JsonObjectApi} `{GenesisJson}.

(** ** One child *)

Definition owned_child (s : ChainNodeSet) (child : ChainNode) : bool := IsControlledBy (cn_meta child) (cns_meta s).
(** The metadata an update is sent with. *)
Definition update_meta (s : ChainNodeSet) (node current : ObjectMeta) : result ObjectMeta :=
  SetControllerReference (cns_meta s)
    (AddFinalizer (mkMeta (meta_Name node) (meta_Namespace node) (meta_UID node) (meta_Labels node) (meta_Annotations current)
       (meta_OwnerReferences node) (meta_Finalizers current) (meta_DeletionTimestamp node) (meta_CreationTimestamp node)
       (meta_ResourceVersion current)) Finalizer).

Definition update_child (s : ChainNodeSet) (node current : ChainNode) : kube (result ChainNode) :=
  match GetControllerOf (cn_meta current), owned_child s current with
  | Some c, false =>
      return_error (Errorf "refusing to update ChainNode %s/%s controlled by %s UID %s"
        [AStr (cn_Namespace current); AStr (cn_Name current); AStr (or_Name c); AStr (or_UID c)])
  | _, _ => match update_meta s (cn_meta node) (cn_meta current) with
            | Err e => return_error e
            | Ok m => call (UpdateChainNode (mkChainNode m (cn_Spec node) (cn_Status current)))
            end
  end.

Definition ensureNode (s : ChainNodeSet) (node : ChainNode) (wait : chainNodeWait) : kube (result ChainNode) :=
  got ← call (GetChainNode Cached (cn_Namespace node) (cn_Name node));
  match got with
  | Err e =>
      if IsNotFound e then
        node ←? call (CreateChainNode (with_cn_meta node (AddFinalizer (cn_meta node) Finalizer)));
        waitForChainNode node wait
      else return_error e
  | Ok current =>
      let node := keep_override current node in
      if negb (owned_child s current) && negb (isRecordedNodeSetChild s current) then
        return_error (Errorf "refusing to adopt unrecorded ChainNode %s/%s" [AStr (cn_Namespace current); AStr (cn_Name current)])
      else
      node ←? (if negb (node_Equal current node) || negb (owned_child s current) || negb (ContainsFinalizer (cn_meta current) Finalizer)
               then update_child s node current else return_result current);
      waitForChainNode node wait
  end.

Definition unowned_deletion (s : ChainNodeSet) (node : ChainNode) : option error :=
  let name := [AStr (cn_Namespace node); AStr (cn_Name node)] in
  if negb (owned_child s node) && negb (isRecordedNodeSetChild s node) then
    Some (Errorf "refusing to delete ChainNode %s/%s not controlled by ChainNodeSet UID %s" (name ++ [AStr (cns_UID s)]))
  else match GetControllerOf (cn_meta node), owned_child s node with
       | Some c, false => Some (Errorf "refusing to delete ChainNode %s/%s controlled by %s UID %s" (name ++ [AStr (or_Name c); AStr (or_UID c)]))
       | _, _ =>
           if is_some (meta_DeletionTimestamp (cn_meta node)) && negb (ContainsFinalizer (cn_meta node) Finalizer) then
             Some (Errorf "ChainNode %s/%s is terminating without cleanup finalizer %q; retaining ChainNodeSet status because durable-resource cleanup cannot be guaranteed"
                     (name ++ [AStr Finalizer]))
           else None
       end.
Definition with_label (m : ObjectMeta) (k v : string) : ObjectMeta :=
  mkMeta (meta_Name m) (meta_Namespace m) (meta_UID m) (<[k := v]> (meta_Labels m)) (meta_Annotations m) (meta_OwnerReferences m)
    (meta_Finalizers m) (meta_DeletionTimestamp m) (meta_CreationTimestamp m) (meta_ResourceVersion m).
(** The metadata a child is deleted with, and whether it changed. *)
Definition deletion_meta (s : ChainNodeSet) (node : ChainNode) : result (ObjectMeta * bool) :=
  let m := cn_meta node in
  let worker := get_label (meta_Labels (cns_meta s)) LabelWorkerName in
  let relabel := get_label (meta_Labels m) LabelWorkerName != worker in
  let m := if relabel then with_label m LabelWorkerName worker else m in
  let adopt := negb (owned_child s node) in
  m ← (if adopt then SetControllerReference (cns_meta s) m else Ok m);
  let protect := negb (ContainsFinalizer m Finalizer) && negb (is_some (meta_DeletionTimestamp m)) in
  Ok (if protect then AddFinalizer m Finalizer else m, relabel || adopt || protect).

Definition deleteNodeWithCleanupFinalizer (s : ChainNodeSet) (name : string) : kube (result ()) :=
  got ← call (GetChainNode Cached (cns_Namespace s) name);
  match got with
  | Err e => if IsNotFound e then return_result () else return_error e
  | Ok node =>
      match unowned_deletion s node with
      | Some e => return_error e
      | None =>
          match deletion_meta s node with
          | Err e => return_error e
          | Ok (m, changed) =>
              node ←? (if changed : bool then call (UpdateChainNode (with_cn_meta node m)) else return_result node);
              ignoring_not_found (call (DeleteChainNode (cn_Namespace node) (cn_Name node) (cn_UID node))) (return_result ())
          end
      end
  end.
Definition maybeDeleteNode (s : ChainNodeSet) (name : string) : kube (result ChainNodeSet) :=
  deleteNodeWithCleanupFinalizer s name ;? return_result (DeleteNodeStatus s name).
Definition removeNode (s : ChainNodeSet) (group : string) (index : Z) : kube (result ChainNodeSet) :=
  maybeDeleteNode s (node_name s group index).

(** ** Regular groups *)

Definition lifted {A} (r : result A) : kube (result A) := Ret r.
Definition ensure_group_node (g : NodeGroupSpec) (blocked : gset string) (s : ChainNodeSet) (index : Z) : kube (result ChainNodeSet) :=
  node ←? lifted (getNodeSpecWithBlockedSignerTargets s g index blocked);
  node ←? ensureNode s node waitNone;
  return_result (AddOrUpdateNodeStatus s (child_status node (ng_Name g))).
(** The highest instances go first. *)
Definition ensureNodeGroupWithBlockedSignerTargets (blocked : gset string) (s : ChainNodeSet) (g : NodeGroupSpec) : kube (result ChainNodeSet) :=
  children ←? listNodeSetNodes s {[LabelChainNodeSetGroup := ng_Name g]};
  let surplus := filter (λ i, (GetInstances g ≤ i)%Z) (indices (Z.of_nat (length children))) in
  s ←? fold_call (λ s i, removeNode s (ng_Name g) i) (rev surplus) s;
  fold_call (ensure_group_node g blocked) (indices (GetInstances g)) s.

Definition count_groups (children : list ChainNode) : gmap string Z :=
  foldl (λ m n, match meta_Labels (cn_meta n) !! LabelChainNodeSetGroup with
                | Some group => <[group := (default 0%Z (m !! group) + 1)%Z]> m
                | None => m
                end) ∅ children.
(** Go visits the groups in any order. *)
Definition remove_group (s : ChainNodeSet) (g : string * Z) : kube (result ChainNodeSet) :=
  fold_call (λ s i, removeNode s g.1 i) (indices g.2) s.

(** A node of a group whose instances are validators now. *)
Definition stale_regular (groups : list NodeGroupSpec) (n : ChainNode) : bool :=
  match meta_Labels (cn_meta n) !! LabelChainNodeSetGroup with
  | None => false
  | Some group => existsb (λ g, is_some (ng_Validator g) && (ng_Name g == group)) groups &&
                  (get_label (meta_Labels (cn_meta n)) LabelChainNodeSetValidator != StringValueTrue)
  end.

Definition countReadyNodes (s : ChainNodeSet) : kube (result Z) :=
  children ←? call (ListChainNodes Direct (Some (cns_Namespace s)));
  return_result (Z.of_nat (length (filter (λ n,
    selected (cn_meta n) {[LabelChainNodeSet := cns_Name s]} && owned_child s n &&
    negb (is_some (meta_DeletionTimestamp (cn_meta n))) && IsReady n = true) children))).
Definition updateReadyInstances (s : ChainNodeSet) : kube (result ChainNodeSet) :=
  ready ←? countReadyNodes s;
  if sst_ReadyInstances (cns_Status s) == ready then return_result s else
  let s := with_set_status s (sst_with_ReadyInstances (cns_Status s) ready) in
  update_set_status s ;? return_result s.
(** The status is written when it changed. *)
Definition write_status_change (old s : ChainNodeSet) : kube (result ChainNodeSet) :=
  if cns_Status s == cns_Status old then return_result s else update_set_status s ;? return_result s.

Definition totalInstances (s : ChainNodeSet) : Z :=
  foldl (λ n g, (n + GetInstances g)%Z) (if is_some (ss_Validator (cns_Spec s)) then 1 else 0)%Z (ss_Nodes (cns_Spec s)).
Definition deleted_groups (s : ChainNodeSet) (children : list ChainNode) : list (string * Z) :=
  map_to_list (foldl (λ m g, delete (ng_Name g) m) (delete ReservedValidatorGroupName (count_groups children)) (ss_Nodes (cns_Spec s))).
Definition ensureNodesWithBlockedSignerTargets (s0 : ChainNodeSet) (blocked : gset string) : kube (result ChainNodeSet) :=
  if sst_ChainID (cns_Status s0) == "" then return_result s0 else
  let groups := ss_Nodes (cns_Spec s0) in
  children ←? listNodeSetNodes s0 ∅;
  s ←? fold_call (ensureNodeGroupWithBlockedSignerTargets blocked) (filter (λ g, is_some (ng_Validator g) = false) groups) s0;
  s ←? fold_call remove_group (deleted_groups s0 children) s;
  s ←? fold_call (λ s n, maybeDeleteNode s (cn_Name n)) (filter (λ n, stale_regular groups n = true) children) s;
  ready ←? countReadyNodes s;
  write_status_change s0
    (with_set_status s (sst_with_ReadyInstances (sst_with_Instances (cns_Status s) (totalInstances s0)) ready)).
Definition ensureNodes (s : ChainNodeSet) : kube (result ChainNodeSet) := ensureNodesWithBlockedSignerTargets s ∅.
End nodes.
