(* ===== verification/SetValidators.v ===== *)
(** * Reconciling the validators of a set ([internal/controllers/chainnodeset/validator.go])

    [ensureValidator]: the validators of a set are made in the order of its
    specification, the first ones for the genesis the others wait for; a secondary
    instance joins the discovery of its signer only after the first instance has
    handed its key over; and the status goes on recording who initialized the
    genesis.  Also the retargeting of a set's nodes, which runs it. *)

From S2P Require Import Prelude GoLib IO ThirdParty ApiTypes ApiEquality KubeApi PrivKey CosmosignerSpec SignerResolve Getters UniqueSecrets.
From S2P Require Import GenesisFingerprint SigningNames SigningPaths Labels ResourceCleanup Deploy NodeFinalize SignerRender SignerJobs TmKms.
From S2P Require Import Teardown SetSignerKeys SetSigner SetRollout SetChildren SetNodes.

Definition sst_without_validators (r : ChainNodeSetStatus) : ChainNodeSetStatus := sst_with_alias (sst_with_Validators r []) "" "" "".

(** ** Status *)

Definition previous_statuses (l : list ChainNodeSetValidatorStatus) : gmap string ChainNodeSetValidatorStatus :=
  foldl (λ m v, <[vst_Name v := v]> m) ∅ l.
Definition genesis_baseline_recorded (st : ChainNodeSetStatus) : bool :=
  (is_some (sst_GenesisInitGenerated st) &&
   negb (default false (sst_GenesisInitGenerated st) && (length (sst_Validators st) =? 0)%nat)) ||
  existsb (λ v, vst_Init v || (vst_SigningKeyDigest v != "")) (sst_Validators st).

Section status.
Context `{GenesisJson}.

(** What an earlier record of a genesis validator keeps of itself. *)
Definition kept_digest (s : ChainNodeSet) (cfg : NodeSetValidatorConfig) (group : string) (isGenesisInit allowRefresh : bool)
    (previous digest : string) : string :=
  if previous == "" then digest
  else if previous == digest then digest
  else if allowRefresh && isGenesisInit && nodeset_GenesisSigningDigestAllowsRefresh s group (Some cfg) previous then digest
  else previous.
Definition validator_entry (s : ChainNodeSet) (validator : ChainNode) (cfg : NodeSetValidatorConfig) (group : string) (isGenesisInit : bool)
    (previous : gmap string ChainNodeSetValidatorStatus) (recorded allowRefresh : bool) : ChainNodeSetValidatorStatus :=
  let st := cn_Status validator in
  let digest := if isGenesisInit then nv_GenesisSigningFingerprint (Some cfg) (cn_Name validator +:+ "-priv-key") else "" in
  let entry group init digest := mkValidatorStatus (cn_Name validator) (cn_UID validator) group (nst_ValidatorAddress st)
                                   (nst_ValidatorStatus st) (nst_PubKey st) init digest in
  if negb recorded then entry group isGenesisInit digest else
  match previous !! cn_Name validator with
  | None => entry group false ""
  | Some p =>
      entry (if vst_Group p != "" then vst_Group p else group) (vst_Init p)
        (if vst_Init p then kept_digest s cfg group isGenesisInit allowRefresh (vst_SigningKeyDigest p) digest else "")
  end.
Definition updateValidatorStatus (s : ChainNodeSet) (validator : ChainNode) (cfg : NodeSetValidatorConfig) (group : string)
    (isGenesisInit setLegacyAlias : bool) (previous : gmap string ChainNodeSetValidatorStatus) (recorded allowRefresh : bool) : ChainNodeSet :=
  let st := cn_Status validator in
  let s := if sst_ChainID (cns_Status s) == "" then SetEstablishedChainID s (nst_ChainID st) else s in
  let s := AddOrUpdateNodeStatus s (child_status validator group) in
  let s := AddOrUpdateValidatorStatus s (validator_entry s validator cfg group isGenesisInit previous recorded allowRefresh) in
  if setLegacyAlias then with_set_status s (sst_with_alias (cns_Status s) (nst_ValidatorAddress st) (nst_ValidatorStatus st) (nst_PubKey st))
  else s.
End status.

(** ** The handover to a signer *)

Definition validatorZeroHandedOver (s : ChainNodeSet) (group signerName : string) : kube (result bool) :=
  got ← call (GetPod Cached (cns_Namespace s) (validatorNodeName s group 0));
  match got with
  | Err e => if IsNotFound e then return_result false else return_error e
  | Ok pod => return_result (pod_label pod LabelCosmosignerTarget == signerName)
  end.
(** A secondary instance that has joined stays. *)
Fixpoint any_secondary_joined (s : ChainNodeSet) (group signerName : string) (l : list Z) : kube (result bool) :=
  match l with
  | [] => return_result false
  | i :: l =>
      got ← call (GetChainNode Cached (cns_Namespace s) (validatorNodeName s group i));
      match got with
      | Err e => if IsNotFound e then any_secondary_joined s group signerName l else return_error e
      | Ok node => if get_label (meta_Labels (cn_meta node)) LabelCosmosignerTarget == signerName then return_result true
                   else any_secondary_joined s group signerName l
      end
  end.
Definition cosmosignerSecondariesDiscoverable (s : ChainNodeSet) (group signerName : string) (instances : Z) : kube (result bool) :=
  handedOver ←? validatorZeroHandedOver s group signerName;
  if handedOver then return_result true
  else any_secondary_joined s group signerName (filter (λ i, (0 < i)%Z) (indices instances)).

(** ** The secrets of genesis validators *)

Definition missingSecretKeys (data : gmap string string) (keys : list string) : list string := filter (λ k, default "" (data !! k) = "") keys.
Definition filled (data generated : gmap string string) (missing : list string) : gmap string string :=
  foldl (λ m k, <[k := default "" (generated !! k)]> m) data missing.

Section validators.
Context `{MetaApi} `{ApplyApi} `{JsonObjectApi} `{GenesisJson}.
(** What the calls that generate an account and a key for a secret of that name return. *)
Variables new_account new_key : string → result string.

Definition ensureSecret (s : ChainNodeSet) (name : string) (required : list string) (genData : result (gmap string string)) : kube (result ()) :=
  got ← call (GetSecret Cached (cns_Namespace s) name);
  match got with
  | Ok secret =>
      let '(managed, (m, changed)) := PrepareGeneratedResource (secret_meta secret) (OwnerChainNodeSet s) ClassGeneratedKeys false in
      let missing := missingSecretKeys (secret_Data secret) required in
      if (length missing =? 0)%nat then
        if changed : bool then call (UpdateSecret (mkSecret m (secret_Immutable secret) (secret_Data secret))) else return_result ()
      else if negb managed then
        return_error (Errorf "secret %s exists but is not controlled by this ChainNodeSet; refusing to modify potentially user-managed secret data" [AStr name])
      else data ←? lifted genData;
           call (UpdateSecret (mkSecret m (secret_Immutable secret) (filled (secret_Data secret) data missing)))
  | Err e =>
      if negb (IsNotFound e) then return_error e else
      data ←? lifted genData;
      let '(_, (m, _)) := PrepareGeneratedResource (mkMeta name (cns_Namespace s) "" (WithChainNodeSetLabels s []) None [] [] None 0 "")
                            (OwnerChainNodeSet s) ClassGeneratedKeys true in
      created ← call (CreateSecret (mkSecret m None data));
      match created with
      | Err e => if IsAlreadyExists e then return_result () else return_error e
      | Ok _ => return_result ()
      end
  end.

Definition single (key : string) (r : result string) : result (gmap string string) := v ← r; Ok {[key := v]}.
Definition ensure_genesis_validator (s : ChainNodeSet) (gv : GenesisValidator) : kube (result ()) :=
  wrapping (ensureSecret s (gv_AccountMnemonicSecret gv) [mnemonicKey] (single mnemonicKey (new_account (gv_AccountMnemonicSecret gv))))
    "failed to ensure account secret %s: %w" [AStr (gv_AccountMnemonicSecret gv)] ;?
  wrapping (ensureSecret s (gv_PrivKeySecret gv) [PrivKeyFilename] (single PrivKeyFilename (new_key (gv_PrivKeySecret gv))))
    "failed to ensure priv-key secret %s: %w" [AStr (gv_PrivKeySecret gv)].
Definition ensureGenesisValidatorSecrets (s : ChainNodeSet) (validators : list GenesisValidator) : kube (result ()) :=
  for_each_call (ensure_genesis_validator s) validators.

(** ** Validators *)

Definition validator_of_group (s : ChainNodeSet) (g : NodeGroupSpec) (cfg : NodeSetValidatorConfig) (blocked : gset string) (discoverable : bool)
    (index : Z) : result ChainNode :=
  n ← getValidatorSpecWithBlockedSignerTargets s (ng_Name g) index cfg blocked discoverable;
  Ok (with_group_fields g index n).

(** The loop state: the set, and whether a validator has taken the legacy fields. *)
Abbreviation vstate := (ChainNodeSet * bool)%type.

Definition ensure_singleton (previous : gmap string ChainNodeSetValidatorStatus) (recorded : bool) (blocked : gset string)
    (st : vstate) (cfg : NodeSetValidatorConfig) : kube (result vstate) :=
  let '(s, aliased) := st in
  let group := ReservedValidatorGroupName in
  validator ←? wrapping_result (getValidatorSpecWithBlockedSignerTargets s group 0 cfg blocked true)
                 "failed to get validator spec for %s: %w" [AStr (cns_Name s)];
  validator ←? wrapping (ensureNode s validator (validatorWaitMode s cfg 1 group))
                 "failed to ensure validator node for %s: %w" [AStr (cns_Name s)];
  return_result (updateValidatorStatus s validator cfg group (is_some (nv_Init cfg)) (negb aliased) previous recorded true, true).

Definition ensure_instance (previous : gmap string ChainNodeSetValidatorStatus) (recorded : bool) (blocked : gset string) (g : NodeGroupSpec)
    (v : NodeSetValidatorConfig) (discoverable : bool) (st : vstate) (i : Z) : kube (result vstate) :=
  let '(s, aliased) := st in
  let group := ng_Name g in
  let args := [AStr (cns_Name s); AStr group; AInt i] in
  let cfg := deriveGroupValidatorConfig s group i (GetInstances g) v in
  validator ←? wrapping_result (validator_of_group s g cfg blocked discoverable i)
                 "failed to get validator spec for %s group %s index %d: %w" args;
  validator ←? wrapping (ensureNode s validator (validatorWaitMode s cfg (GetInstances g) group))
                 "failed to ensure validator node for %s group %s index %d: %w" args;
  let isInit := if IsCosmosignerTargetGroup s group then is_some (nv_Init cfg) else is_some (nv_Init v) in
  return_result (updateValidatorStatus s validator cfg group isInit (negb aliased) previous recorded true, true).

Definition secondaries_discoverable (s : ChainNodeSet) (g : NodeGroupSpec) : kube (result bool) :=
  if negb (1 <? GetInstances g)%Z then return_result true else
  match signerNameForNode s (ng_Name g) with
  | None => return_result true
  | Some signerName =>
      wrapping (cosmosignerSecondariesDiscoverable s (ng_Name g) signerName (GetInstances g))
        "failed to evaluate cosmosigner handover for %s group %s: %w" [AStr (cns_Name s); AStr (ng_Name g)]
  end.
Definition ensure_genesis_secrets (s : ChainNodeSet) (g : NodeGroupSpec) (v : NodeSetValidatorConfig) : kube (result ()) :=
  let validators := groupGenesisValidators s (ng_Name g) (GetInstances g) v in
  if (sst_ChainID (cns_Status s) != "") || (length validators =? 0)%nat then return_result () else
  wrapping (ensureGenesisValidatorSecrets s validators)
    "failed to ensure genesis validator secrets for %s group %s: %w" [AStr (cns_Name s); AStr (ng_Name g)].

Definition ensure_validator_group (previous : gmap string ChainNodeSetValidatorStatus) (recorded : bool) (blocked : gset string)
    (st : vstate) (g : NodeGroupSpec) : kube (result vstate) :=
  match ng_Validator g with
  | None => return_result st
  | Some v =>
      discoverable ←? secondaries_discoverable st.1 g;
      ensure_genesis_secrets st.1 g v ;?
      fold_call (ensure_instance previous recorded blocked g v discoverable) (indices (GetInstances g)) st
  end.

Definition desired_validators (s : ChainNodeSet) : list string :=
  (if is_some (ss_Validator (cns_Spec s)) then [cns_Name s +:+ "-validator"] else []) ++
  flat_map (λ g, if is_some (ng_Validator g) then map (validatorNodeName s (ng_Name g)) (indices (GetInstances g)) else []) (ss_Nodes (cns_Spec s)).
Definition desired_regular (s : ChainNodeSet) : list string :=
  flat_map (λ g, if is_some (ng_Validator g) then [] else map (node_name s (ng_Name g)) (indices (GetInstances g))) (ss_Nodes (cns_Spec s)).

Definition remove_validator (s : ChainNodeSet) (n : ChainNode) : kube (result ChainNodeSet) :=
  s ←? maybeDeleteNode s (cn_Name n); return_result (DeleteValidatorStatus s (cn_Name n)).
(** Who initialized the genesis stays recorded. *)
Definition retain_genesis_entries (old : ChainNodeSetStatus) (desired : list string) (s : ChainNodeSet) : ChainNodeSet :=
  foldl AddOrUpdateValidatorStatus s (filter (λ v, vst_Init v && negb (bool_decide (vst_Name v ∈ desired)) = true) (sst_Validators old)).

Definition ensureValidatorWithBlockedSignerTargets (s0 : ChainNodeSet) (blocked : gset string) : kube (result ChainNodeSet) :=
  let old := cns_Status s0 in
  let previous := previous_statuses (sst_Validators old) in
  let recorded := genesis_baseline_recorded old in
  let s := with_set_status s0 (sst_without_validators old) in
  st ←? (match ss_Validator (cns_Spec s0) with
         | Some cfg => ensure_singleton previous recorded blocked (s, false) cfg
         | None => return_result (s, false)
         end);
  st ←? fold_call (ensure_validator_group previous recorded blocked) (ss_Nodes (cns_Spec s0)) st;
  children ←? listNodeSetNodes st.1 {[LabelChainNodeSetValidator := StringValueTrue]};
  s ←? fold_call remove_validator
         (filter (λ n, negb (bool_decide (cn_Name n ∈ desired_validators s0 ++ desired_regular s0)) = true) children) st.1;
  write_status_change s0 (retain_genesis_entries old (desired_validators s0) s).
Definition ensureValidator (s : ChainNodeSet) : kube (result ChainNodeSet) := ensureValidatorWithBlockedSignerTargets s ∅.

(** ** Migrations ([cosmosigner.go]) *)

Definition ensureRollingOutCosmosignerTargets (s : ChainNodeSet) (blocked : gset string) : kube (result ChainNodeSet) :=
  let '(rollingBlocked, hasRollingOut) := rollingOutCosmosignerBlockedTargets s blocked in
  if negb hasRollingOut then return_result s else
  s ←? (if sst_ChainID (cns_Status s) != "" then ensureValidatorWithBlockedSignerTargets s rollingBlocked else return_result s);
  ensureNodesWithBlockedSignerTargets s rollingBlocked.

Definition reconcileCosmosignerRetargeting (s : ChainNodeSet) (blocked : gset string) : set_step retargetingWait :=
  waiting ←? discoveries_removed s blocked (ResolveCosmosigners s);
  match waiting with
  | Some w => return_result (s, w)
  | None =>
      s ←? ensureValidatorWithBlockedSignerTargets s blocked;
      s ←? ensureNodesWithBlockedSignerTargets s blocked;
      targets_converged s blocked
  end.
End validators.
