(* ===== verification/SetHandover.v ===== *)
(** * What a pass over the children of a set may do

    [ensureValidator] and [ensureNodes] never touch a node of another controller
    and delete only the object they have seen; a secondary instance of a validator
    is made discoverable to its signer only after the first instance was seen to
    have handed its key over; and an entry that records who initialized the genesis
    is never lost. *)

From S2P Require Import Prelude GoLib IO ThirdParty Reference ApiTypes ApiEquality KubeApi FakeServer CosmosignerSpec SignerResolve Getters.
From S2P Require Import UniqueSecrets GenesisFingerprint SigningNames SigningPaths Labels ResourceCleanup Deploy NodeFinalize SetSignerKeys.
From S2P Require Import SetSigner SetRollout SetSigning SetChildren SetNodes SetValidators.

(** ** Names that a pass does not change *)

Definition resource_of (s : ChainNodeSet) (name : string) : string :=
  match GetCosmosignerStatus s name with
  | Some st => if st_ResourceName st != "" then st_ResourceName st else name
  | None => name
  end.
(** The same object with the same names of signers. *)
Definition same_names (s s' : ChainNodeSet) : Prop :=
  cns_meta s' = cns_meta s ∧ cns_Spec s' = cns_Spec s ∧ ∀ name, resource_of s' name = resource_of s name.
#[export] Instance same_names_preorder : PreOrder same_names.
Proof. split; [by intros s|]. intros a b c (? & ? & Hr) (? & ? & Hr'). split_and!; congruence. Qed.

Lemma resolved_same s s' : cns_meta s' = cns_meta s → cns_Spec s' = cns_Spec s → ResolveCosmosigners s' = ResolveCosmosigners s.
Proof. destruct s, s'. simpl. by intros -> ->. Qed.
Lemma signer_name_same s s' group blocked : same_names s s' →
  signerNameForNodeWithBlockedTargets s' group blocked = signerNameForNodeWithBlockedTargets s group blocked.
Proof.
  intros (Hm & Hs & Hr). unfold signerNameForNodeWithBlockedTargets. rewrite (resolved_same s s' Hm Hs).
  destruct (find _ _) as [r|]; [|done]. f_equal. apply (Hr (sg_Name r)).
Qed.

(** A change of the status that leaves the entries of the signers alone. *)
Lemma same_entries s st : sst_Cosmosigners st = sst_Cosmosigners (cns_Status s) → same_names s (with_set_status s st).
Proof. intros E. split_and!; [done|done|]. intros name. unfold resource_of, GetCosmosignerStatus, statuses. simpl. by rewrite E. Qed.

Lemma find_updated_entry name other f l :
  (∀ st, st_Name (f st) = st_Name st) →
  find (λ st, st_Name st == name) (update_entry other f l) =
  match find (λ st, st_Name st == name) l with Some st => Some (if name == other then f st else st) | None => None end.
Proof.
  intros Hf. induction l as [|st l IH]; simpl; [done|].
  destruct (decide (st_Name st = other)) as [<-|Ho].
  - rewrite (bool_decide_eq_true_2 (st_Name st = _)) by done. simpl. rewrite Hf.
    destruct (bool_decide_reflect (st_Name st = name)) as [<-|Hn].
    + by rewrite bool_decide_eq_true_2.
    + destruct (find _ l) as [x|] eqn:Ex; [|done]. by rewrite bool_decide_eq_false_2.
  - rewrite (bool_decide_eq_false_2 (st_Name st = other)) by done. simpl.
    destruct (bool_decide_reflect (st_Name st = name)) as [<-|Hn]; [by rewrite bool_decide_eq_false_2|exact IH].
Qed.

Lemma ensured_names s name : same_names s (EnsureCosmosignerStatus s name).
Proof.
  unfold EnsureCosmosignerStatus. destruct (GetCosmosignerStatus s name) eqn:E; [reflexivity|].
  split_and!; [done|done|]. intros k. unfold resource_of, GetCosmosignerStatus, statuses, set_statuses in *. simpl.
  rewrite find_app. destruct (find (λ st, st_Name st == k) (sst_Cosmosigners _)); [done|]. simpl. by destruct (bool_decide (name = k)).
Qed.

Lemma establish_names establishing s r : same_names s (establish_signer establishing s r).
Proof.
  unfold establish_signer. etrans; [apply (ensured_names s (sg_Name r))|]. set (s1 := EnsureCosmosignerStatus s (sg_Name r)).
  split_and!; [done|done|]. intros k. unfold resource_of, GetCosmosignerStatus, statuses at 1, set_statuses. simpl.
  rewrite find_updated_entry.
  2:{ intros st. unfold establish_entry. by destruct (st_AtEstablishment st). }
  fold (statuses s1). destruct (find (λ st, st_Name st == k) (statuses s1)) as [st|]; [|done].
  destruct (k == sg_Name r); [|done]. unfold establish_entry. by destruct (st_AtEstablishment st).
Qed.
Lemma established_names s chainID : same_names s (SetEstablishedChainID s chainID).
Proof.
  unfold SetEstablishedChainID. destruct (bool_decide _); [reflexivity|].
  assert (∀ l x e, same_names s x → same_names s (foldl (establish_signer e) x l)) as Hf.
  { induction l as [|r l IH]; intros x e Hx; simpl; [done|]. apply IH. etrans; [exact Hx|apply establish_names]. }
  apply Hf. by apply (same_entries s).
Qed.

Section names.
Context `{GenesisJson}.
Lemma updated_names s validator cfg group isInit alias previous recorded allow :
  same_names s (updateValidatorStatus s validator cfg group isInit alias previous recorded allow).
Proof.
  unfold updateValidatorStatus.
  transitivity (if sst_ChainID (cns_Status s) == "" then SetEstablishedChainID s (nst_ChainID (cn_Status validator)) else s).
  { destruct (bool_decide _); [apply established_names|reflexivity]. }
  set (s1 := if sst_ChainID (cns_Status s) == "" then _ else _). set (entry := validator_entry _ _ _ _ _ _ _ _).
  transitivity (AddOrUpdateValidatorStatus (AddOrUpdateNodeStatus s1 (child_status validator group)) entry).
  { etrans; apply same_entries; done. }
  destruct alias; [by apply same_entries|reflexivity].
Qed.
End names.

(** ** What a pass may do *)

Section pass.
Context `{MetaLaws} `{ApplyLaws} `{JsonObjectApi} `{GenesisJson}.
Variables new_account new_key : string → result string.
(** The set the pass starts with, and the signers its nodes must not be pointed at. *)
Variable s0 : ChainNodeSet.
Variable blocked : gset string.

Definition read_child (h : list kevent) (ns name : string) (cur : ChainNode) : Prop := Ev (GetChainNode Cached ns name) (Ok cur) ∈ h.
(** A child of the set, or of nobody. *)
Definition free_child (cur : ChainNode) : Prop :=
  IsControlledBy (cn_meta cur) (cns_meta s0) = true ∨ GetControllerOf (cn_meta cur) = None.
Definition same_object (n m : ChainNode) : Prop := cn_Namespace n = cn_Namespace m ∧ cn_Name n = cn_Name m.
(** The object [n] is sent for was read: it was asked for by the name of [n], or the answer bore that name. *)
Definition read_object (h : list kevent) (n cur : ChainNode) : Prop :=
  read_child h (cn_Namespace n) (cn_Name n) cur ∨ (∃ key, read_child h (cns_Namespace s0) key cur) ∧ same_object n cur.
(** The pod of the first instance was labelled for the signer, which happens when it is
    recreated without its key; or a secondary instance had joined before. *)
Definition handed_over (h : list kevent) (group signerName : string) : Prop :=
  (∃ pod, Ev (GetPod Cached (cns_Namespace s0) (validatorNodeName s0 group 0)) (Ok pod) ∈ h ∧ pod_label pod LabelCosmosignerTarget = signerName) ∨
  (∃ i cur, (0 < i)%Z ∧ read_child h (cns_Namespace s0) (validatorNodeName s0 group i) cur ∧
     get_label (meta_Labels (cn_meta cur)) LabelCosmosignerTarget = signerName).
(** Why a child may be found by a signer: it is the first instance of a validator group, or a regular node, and the
    signer serves its group and is not blocked; it is another instance of a group that was handed over to the signer
    that serves it; or the very object was read with the label. *)
Definition may_be_found (h : list kevent) (n : ChainNode) (signerName : string) : Prop :=
  (∃ group, cn_Name n = validatorNodeName s0 group 0 ∧ signerNameForNodeWithBlockedTargets s0 group blocked = Some signerName) ∨
  (∃ g i, g ∈ ss_Nodes (cns_Spec s0) ∧ ng_Validator g = None ∧ cn_Name n = node_name s0 (ng_Name g) i ∧
          signerNameForNodeWithBlockedTargets s0 (ng_Name g) blocked = Some signerName) ∨
  (∃ group i, (0 < i)%Z ∧ cn_Name n = validatorNodeName s0 group i ∧ signerNameForNode s0 group = Some signerName ∧
              handed_over h group signerName) ∨
  (∃ key cur, read_child h (cns_Namespace s0) key cur ∧ same_object n cur ∧ meta_Labels (cn_meta cur) !! LabelCosmosignerTarget = Some signerName).
Definition justified (h : list kevent) (n : ChainNode) : Prop :=
  ∀ signerName, meta_Labels (cn_meta n) !! LabelCosmosignerTarget = Some signerName → may_be_found h n signerName.

Definition child_permitted (h : list kevent) (r : request) : Prop :=
  match r with
  | CreateChainNode n => justified h n
  | UpdateChainNode n => justified h n ∧ ∃ cur, read_object h n cur ∧ free_child cur
  | DeleteChainNode ns name uid =>
      ∃ key cur, read_child h (cns_Namespace s0) key cur ∧ free_child cur ∧
        ∃ n, (n = cur ∨ ∃ m, same_object m cur ∧ Ev (UpdateChainNode m) (Ok n) ∈ h) ∧
             ns = cn_Namespace n ∧ name = cn_Name n ∧ uid = cn_UID n
  | UpdateStatusChainNodeSet s => same_names s0 s
  | GetChainNode _ _ _ | ListChainNodes _ _ | GetPod _ _ _ | GetSecret _ _ _ | CreateSecret _ | UpdateSecret _ | WatchChainNodes => True
  | _ => False
  end.

#[local] Instance handed_over_stable group name : Stable (λ h, handed_over h group name).
Proof. unfold handed_over, read_child. apply _. Qed.

Lemma justified_mono h h' n : h `suffix_of` h' → justified h n → justified h' n.
Proof.
  intros Hs Hj name Hl. destruct (Hj name Hl) as [?|[?|[(group & i & Hi & Hn & Hg & Hh)|(k & cur & Hr & Hc)]]].
  - by left.
  - by right; left.
  - right; right; left. exists group, i. split_and!; [done..|by eapply (handed_over_stable group name)].
  - right; right; right. exists k, cur. split; [|done]. destruct Hs as [l ->]. apply elem_of_app. by right.
Qed.

(** Requests the permission of which does not depend on the history. *)
Definition child_reads (r : request) : Prop :=
  match r with
  | GetChainNode _ _ _ | ListChainNodes _ _ | GetPod _ _ _ | GetSecret _ _ _ | CreateSecret _ | UpdateSecret _ | WatchChainNodes => True
  | _ => False
  end.
Lemma child_reads_ok h r : child_reads r → child_permitted h r.
Proof. by destruct r. Qed.
Lemma reads_spec {A} h (m : kube A) : only child_reads m → spec child_permitted h m (λ _ _, True).
Proof. apply only_spec, child_reads_ok. Qed.

Lemma wait_reads node wait : only child_reads (waitForChainNode node wait).
Proof. unfold waitForChainNode, waitChainNode. destruct wait; only_walk. Qed.

Lemma owned_same s cur : same_names s0 s → owned_child s cur = IsControlledBy (cn_meta cur) (cns_meta s0).
Proof. intros (Hm & _). unfold owned_child. by rewrite Hm. Qed.

Lemma free_when_written s cur : same_names s0 s →
  (GetControllerOf (cn_meta cur) = None ∨ owned_child s cur = true) → free_child cur.
Proof. intros Hs [?|?]; [by right|left; by rewrite <- (owned_same s cur Hs)]. Qed.

Lemma update_meta_Ok s node cur m : update_meta s node cur = Ok m →
  meta_Labels m = meta_Labels node ∧ meta_Name m = meta_Name node ∧ meta_Namespace m = meta_Namespace node.
Proof.
  unfold update_meta. intros Hm. pose proof (SetControllerReference_labels _ _ _ Hm) as Hl.
  apply SetControllerReference_name in Hm as [Hn Hns]. rewrite Hl, Hn, Hns, AddFinalizer_labels.
  by rewrite !(proj1 (AddFinalizer_name _ _)), !(proj2 (AddFinalizer_name _ _)).
Qed.

(** A change of the metadata that keeps the name and the label. *)
Lemma may_be_found_same h n n' k : same_object n' n → may_be_found h n k → may_be_found h n' k.
Proof.
  intros [Hns Hn] [(g & E & ?)|[(g & i & ? & ? & E & ?)|[(g & i & ? & E & ? & ?)|(key & cur & ? & [E' E] & ?)]]].
  - left. exists g. split; [by rewrite Hn|done].
  - right; left. exists g, i. split_and!; [done|done|by rewrite Hn|done].
  - right; right; left. exists g, i. split_and!; [done|by rewrite Hn|done|done].
  - right; right; right. exists key, cur. split_and!; [done|split; congruence|done].
Qed.

Lemma update_child_spec h s node cur :
  same_names s0 s → justified h node → read_child h (cn_Namespace node) (cn_Name node) cur →
  spec child_permitted h (update_child s node cur) (λ _ _, True).
Proof.
  intros Hs Hj Hc. unfold update_child.
  assert (GetControllerOf (cn_meta cur) = None ∨ owned_child s cur = true →
    spec child_permitted h (match update_meta s (cn_meta node) (cn_meta cur) with
      | Err e => return_error e
      | Ok m => call (UpdateChainNode (mkChainNode m (cn_Spec node) (cn_Status cur))) end) (λ _ _, True)) as Hw.
  { intros Hf. destruct (update_meta _ _ _) as [m|e] eqn:Em; [|done]. apply update_meta_Ok in Em as (El & En & Ens).
    assert (same_object (mkChainNode m (cn_Spec node) (cn_Status cur)) node) as Ho by (split; [exact Ens|exact En]).
    split; [|done]. split; [|exists cur; split; [|by eapply free_when_written]].
    - intros k Hk. simpl in Hk. rewrite El in Hk. by apply (may_be_found_same _ node), Hj.
    - left. destruct Ho as [-> ->]. exact Hc. }
  destruct (GetControllerOf (cn_meta cur)), (owned_child s cur); try done; apply Hw; auto.
Qed.

Lemma ensureNode_spec h s node wait :
  same_names s0 s → justified h node → spec child_permitted h (ensureNode s node wait) (λ _ _, True).
Proof.
  intros Hs Hj. unfold ensureNode. rewrite spec_mbind. cbn [spec call]. split; [done|]. intros [cur|e].
  - set (h1 := _ :: h). assert (justified h1 (keep_override cur node)) as Hj1.
    { eapply justified_mono; [by eexists [_]|]. unfold keep_override. by destruct (_ && _). }
    destruct (negb _ && _); [done|]. rewrite spec_try.
    assert (spec child_permitted h1 (update_child s (keep_override cur node) cur) (λ _ _, True)) as Hu.
    { apply update_child_spec; [done|done|]. unfold keep_override. destruct (_ && _); by left. }
    eapply spec_conseq; [destruct (_ || _); [exact Hu|exact I]|]. intros h2 [n|e] _ _; [|done]. apply reads_spec, wait_reads.
  - destruct (IsNotFound e); [|done]. rewrite spec_try. split; [|intros [n|e']; [apply reads_spec, wait_reads|done]].
    intros k Hk. simpl in Hk. rewrite AddFinalizer_labels in Hk.
    assert (justified (Ev (GetChainNode Cached (cn_Namespace node) (cn_Name node)) (Err e) :: h) node) as Hj1
      by (eapply justified_mono; [by eexists [_]|done]).
    apply (may_be_found_same _ node), Hj1, Hk. split; [apply (proj2 (AddFinalizer_name _ _))|apply (proj1 (AddFinalizer_name _ _))].
Qed.

Lemma deletion_meta_Ok s node m changed : deletion_meta s node = Ok (m, changed) →
  meta_Labels m !! LabelCosmosignerTarget = meta_Labels (cn_meta node) !! LabelCosmosignerTarget.
Proof.
  unfold deletion_meta. intros (m' & Hm & [= <- _])%bind_Ok.
  assert (meta_Labels m' !! LabelCosmosignerTarget = meta_Labels (cn_meta node) !! LabelCosmosignerTarget) as <-.
  { transitivity (meta_Labels (if get_label (meta_Labels (cn_meta node)) LabelWorkerName !=
      get_label (meta_Labels (cns_meta s)) LabelWorkerName
      then with_label (cn_meta node) LabelWorkerName (get_label (meta_Labels (cns_meta s)) LabelWorkerName) else cn_meta node)
      !! LabelCosmosignerTarget).
    - destruct (negb (owned_child s node)); [by rewrite (SetControllerReference_labels _ _ _ Hm)|by injection Hm as <-].
    - clear Hm. case_match; [simpl; by rewrite lookup_insert_ne|done]. }
  destruct (_ && _); [by rewrite AddFinalizer_labels|done].
Qed.

Lemma deletion_meta_name s node m changed : deletion_meta s node = Ok (m, changed) → same_object (with_cn_meta node m) node.
Proof.
  unfold deletion_meta. intros (m' & Hm & [= <- _])%bind_Ok.
  assert (meta_Namespace m' = cn_Namespace node ∧ meta_Name m' = cn_Name node) as [Hns Hn].
  { destruct (negb (owned_child s node)); [apply SetControllerReference_name in Hm as [-> ->]|injection Hm as <-]; by case_match. }
  unfold same_object, with_cn_meta, cn_Namespace, cn_Name. simpl. destruct (_ && _); [|done].
  by rewrite (proj1 (AddFinalizer_name _ _)), (proj2 (AddFinalizer_name _ _)).
Qed.

Lemma delete_spec h s name :
  same_names s0 s → spec child_permitted h (deleteNodeWithCleanupFinalizer s name) (λ _ _, True).
Proof.
  intros Hs. unfold deleteNodeWithCleanupFinalizer. rewrite spec_mbind. simpl. split; [done|]. pose proof Hs as (Hm & _).
  intros [node|e]; [|by destruct (IsNotFound e)]. set (h1 := _ :: h).
  assert (read_child h1 (cns_Namespace s0) name node) as Hr by (unfold read_child, h1, cns_Namespace; rewrite Hm; by left).
  destruct (unowned_deletion s node) eqn:Eu; [done|].
  assert (free_child node) as Hf.
  { eapply free_when_written; [done|]. unfold unowned_deletion in Eu. destruct (negb _ && _); [done|].
    destruct (GetControllerOf (cn_meta node)) as [c|]; [right|by left]. by destruct (owned_child s node). }
  destruct (deletion_meta s node) as [[m changed]|e] eqn:Em; [|done]. rewrite spec_try.
  assert (∀ h2 n, h1 `suffix_of` h2 → (n = node ∨ ∃ m, same_object m node ∧ Ev (UpdateChainNode m) (Ok n) ∈ h2) →
    spec child_permitted h2 (ignoring_not_found (call (DeleteChainNode (cn_Namespace n) (cn_Name n) (cn_UID n))) (return_result ())) (λ _ _, True)) as Hd.
  { intros h2 n [l ->] Hn. unfold ignoring_not_found. rewrite spec_mbind. split; [|by intros [|e]; [|simpl; destruct (IsNotFound e)]].
    exists name, node. split_and!; [apply elem_of_app; by right|done|]. by exists n. }
  pose proof (deletion_meta_name _ _ _ _ Em) as Ho.
  destruct changed; simpl; [|apply Hd; [done|by left]].
  split; [|intros [n|e]; [|done]; apply Hd; [by eexists [_]|right; eexists; split; [exact Ho|by left]]].
  split; [|exists node; split; [right; split; [by exists name|done]|done]]. intros k Hk. simpl in Hk. rewrite (deletion_meta_Ok _ _ _ _ Em) in Hk.
  right; right; right. by exists name, node.
Qed.

Lemma maybeDelete_spec h s name :
  same_names s0 s → spec child_permitted h (maybeDeleteNode s name) (λ _ r, ∀ s', r = Ok s' → same_names s0 s').
Proof.
  intros Hs. unfold maybeDeleteNode. rewrite spec_try. eapply spec_conseq; [by apply delete_spec|].
  intros h1 [[]|e] _ _; simpl; [|done]. intros s' [= <-]. etrans; [exact Hs|by apply same_entries].
Qed.

(** *** Validators *)

Lemma validator_name_same s group i : same_names s0 s → validatorNodeName s group i = validatorNodeName s0 group i.
Proof. intros (Hm & _). unfold validatorNodeName, GeneratedValidatorNodeName, cns_Name. by rewrite Hm. Qed.

Lemma untargeted_unblocked s group names :
  signerNameForNode s group = None → signerNameForNodeWithBlockedTargets s group names = None.
Proof.
  unfold signerNameForNode, signerNameForNodeWithBlockedTargets. induction (ResolveCosmosigners s) as [|x l IH]; simpl; [done|].
  destruct (existsb _ (sg_TargetGroups x)); simpl; [done|]. rewrite !andb_false_r. exact IH.
Qed.

Lemma joined_spec h s group signerName l :
  same_names s0 s → Forall (λ i, (0 < i)%Z) l →
  spec child_permitted h (any_secondary_joined s group signerName l) (λ h' r, r = Ok true → handed_over h' group signerName).
Proof.
  intros Hs Hl. revert h. induction Hl as [|i l Hi _ IH]; intros h; cbn [any_secondary_joined]; [done|].
  rewrite spec_mbind. cbn [spec call]. split; [done|]. intros [cur|e].
  - destruct (bool_decide_reflect (get_label (meta_Labels (cn_meta cur)) LabelCosmosignerTarget = signerName)) as [E|]; [|apply IH].
    intros _. right. exists i, cur. split_and!; [done| |done]. unfold read_child. rewrite <- (validator_name_same s) by done.
    destruct Hs as (Hm & _). unfold cns_Namespace. rewrite <- Hm. by left.
  - destruct (IsNotFound e); [apply IH|done].
Qed.

Lemma discoverable_spec h s group signerName instances :
  same_names s0 s →
  spec child_permitted h (cosmosignerSecondariesDiscoverable s group signerName instances)
    (λ h' r, r = Ok true → handed_over h' group signerName).
Proof.
  intros Hs. unfold cosmosignerSecondariesDiscoverable, validatorZeroHandedOver. rewrite spec_try, spec_mbind. cbn [spec call].
  split; [done|]. intros [pod|e]; simpl.
  - destruct (bool_decide_reflect (pod_label pod LabelCosmosignerTarget = signerName)) as [E|]; simpl.
    + intros _. left. exists pod. split; [|done]. rewrite <- (validator_name_same s) by done. destruct Hs as (Hm & _).
      unfold cns_Namespace. rewrite <- Hm. by left.
    + apply joined_spec; [done|]. apply Forall_forall. by intros i [? _]%list_elem_of_filter.
  - destruct (IsNotFound e); simpl; [|done]. apply joined_spec; [done|]. apply Forall_forall. by intros i [? _]%list_elem_of_filter.
Qed.

Definition discoverable_ok (h : list kevent) (g : NodeGroupSpec) (d : bool) : Prop :=
  d = true → (1 < GetInstances g)%Z → ∀ signerName, signerNameForNode s0 (ng_Name g) = Some signerName → handed_over h (ng_Name g) signerName.
#[local] Instance discoverable_ok_stable g d : Stable (λ h, discoverable_ok h g d).
Proof. intros h h' Hs Hd E1 E2 k Ek. eapply (handed_over_stable (ng_Name g) k); [exact Hs|]. by apply Hd. Qed.

Lemma secondaries_spec h s g :
  same_names s0 s → spec child_permitted h (secondaries_discoverable s g) (λ h' r, ∀ d, r = Ok d → discoverable_ok h' g d).
Proof.
  intros Hs. unfold secondaries_discoverable. destruct (Z.ltb_spec 1 (GetInstances g)); cbn [negb].
  2:{ intros d [= <-] _ ?. lia. }
  unfold signerNameForNode at 1. rewrite (signer_name_same s0 s) by done. fold (signerNameForNode s0 (ng_Name g)).
  destruct (signerNameForNode s0 (ng_Name g)) as [name|] eqn:En.
  - unfold wrapping. rewrite spec_mbind. eapply spec_conseq; [by apply discoverable_spec|]. intros h1 [d|e] _ Hd; simpl; [|done].
    intros d' [= <-] -> _ k Ek. rewrite En in Ek. injection Ek as <-. by apply Hd.
  - intros d [= <-] _ _ k Ek. by rewrite En in Ek.
Qed.

Lemma instance_justified h s g i cfg d n :
  same_names s0 s → discoverable_ok h g d → (0 ≤ i < GetInstances g)%Z → validator_of_group s g cfg blocked d i = Ok n → justified h n.
Proof.
  intros Hs Hd Hi (n' & Hn & [= <-])%bind_Ok k Hk. apply getValidatorSpec_Ok in Hn as (Hn & _ & Hl & _).
  simpl in Hk. rewrite Hl in Hk. change (cn_Name (with_group_fields g i n')) with (cn_Name n') in *. unfold may_be_found.
  change (cn_Name (with_group_fields g i n')) with (cn_Name n'). rewrite Hn, (validator_name_same s) by done.
  unfold validator_signer in Hk. destruct (decide (i = 0%Z)) as [->|Hi0].
  { left. exists (ng_Name g). split; [done|]. simpl in Hk. by rewrite (signer_name_same s0 s) in Hk. }
  rewrite (proj2 (Z.ltb_lt 0 i)) in Hk by lia. destruct (signerNameForNode s (ng_Name g)) as [name|] eqn:En; simpl in Hk.
  - right; right; left. exists (ng_Name g), i. destruct d; [|done]. injection Hk as <-.
    assert (signerNameForNode s0 (ng_Name g) = Some name) as En0 by (unfold signerNameForNode in *; by rewrite <- En, (signer_name_same s0 s)).
    split_and!; [lia|done|done|]. apply Hd; [done|lia|done].
  - by rewrite untargeted_unblocked in Hk.
Qed.

Abbreviation keeps_names := (λ (_ : list kevent) (r : result ChainNodeSet), ∀ s', r = Ok s' → same_names s0 s').

Lemma instance_spec h previous recorded g v d st i :
  same_names s0 st.1 → discoverable_ok h g d → (0 ≤ i < GetInstances g)%Z →
  spec child_permitted h (ensure_instance previous recorded blocked g v d st i) (λ h' r, ∀ st', r = Ok st' → same_names s0 st'.1).
Proof.
  destruct st as [s aliased]. cbn [fst]. intros Hs Hd Hi. unfold ensure_instance, wrapping_result. rewrite spec_try.
  destruct (validator_of_group s g _ blocked d i) as [n|e] eqn:En; cbn [spec return_result return_error]; [|done].
  unfold wrapping. rewrite spec_try, spec_mbind. eapply spec_conseq.
  { apply ensureNode_spec; [done|]. by eapply instance_justified. }
  intros h1 [n'|e] _ _; simpl; [|done]. intros st' [= <-]. cbn [fst]. etrans; [exact Hs|apply updated_names].
Qed.

Lemma secret_reads s name required data : only child_reads (ensureSecret s name required data).
Proof.
  unfold ensureSecret, lifted. apply only_mbind; [by split|]. intros [secret|e].
  - destruct (PrepareGeneratedResource _ _ _ _) as [managed [m changed]]. only_walk.
  - destruct (negb _); [done|]. apply only_try; [done|]. intros dat.
    destruct (PrepareGeneratedResource _ _ _ _) as [managed [m changed]]. only_walk.
Qed.
Lemma genesis_secrets_reads s g v : only child_reads (ensure_genesis_secrets new_account new_key s g v).
Proof.
  assert (∀ A (m : kube (result A)) f a, only child_reads m → only child_reads (wrapping m f a)) as Hw.
  { intros A m f a Hm. unfold wrapping. apply only_mbind; [done|]. by intros [|]. }
  unfold ensure_genesis_secrets. destruct (_ || _); [done|]. apply Hw. unfold ensureGenesisValidatorSecrets.
  apply only_for_each. intros gv. apply only_try; [apply Hw, secret_reads|]. intros _. apply Hw, secret_reads.
Qed.

Lemma indices_range n i : i ∈ indices n → (0 ≤ i < n)%Z.
Proof. unfold indices. intros (k & -> & Hk)%list_elem_of_fmap. apply elem_of_seq in Hk. lia. Qed.

Lemma group_spec h previous recorded st g :
  same_names s0 st.1 →
  spec child_permitted h (ensure_validator_group new_account new_key previous recorded blocked st g)
    (λ h' r, ∀ st', r = Ok st' → same_names s0 st'.1).
Proof.
  intros Hs. unfold ensure_validator_group. destruct (ng_Validator g) as [v|]; [|by intros st' [= <-]].
  rewrite spec_try. eapply spec_conseq; [by apply secondaries_spec|]. intros h1 [d|e] _ Hd; [|done]. specialize (Hd d eq_refl).
  rewrite spec_try. eapply spec_conseq; [apply spec_suffix, reads_spec, genesis_secrets_reads|]. intros h2 [[]|e] _ [Hs2 _]; [|done].
  eapply spec_conseq; [apply (spec_fold child_permitted (λ h' st, discoverable_ok h' g d ∧ same_names s0 st.1))|].
  - split; [|done]. by eapply discoverable_ok_stable.
  - intros h3 st3 i Hi [Hd3 Hn3]. eapply spec_conseq; [apply spec_keep; [apply (discoverable_ok_stable g d)|exact Hd3|]|].
    + apply instance_spec; [done|done|by apply indices_range].
    + intros h4 r _ [Hd4 Hr] st4 ->. split; [done|by apply Hr].
  - intros h3 r _ Hr st' ->. by apply Hr.
Qed.

Lemma singleton_spec h previous recorded st cfg :
  same_names s0 st.1 →
  spec child_permitted h (ensure_singleton previous recorded blocked st cfg) (λ h' r, ∀ st', r = Ok st' → same_names s0 st'.1).
Proof.
  destruct st as [s aliased]. cbn [fst]. intros Hs. unfold ensure_singleton, wrapping_result. rewrite spec_try.
  destruct (getValidatorSpecWithBlockedSignerTargets s _ 0 cfg blocked true) as [n|e] eqn:En; cbn [spec return_result return_error]; [|done].
  unfold wrapping. rewrite spec_try, spec_mbind. eapply spec_conseq.
  { apply ensureNode_spec; [done|]. intros k Hk. left. exists ReservedValidatorGroupName. apply getValidatorSpec_Ok in En as (-> & _ & Hl & _).
    split; [by apply validator_name_same|]. rewrite Hl in Hk. simpl in Hk. by rewrite (signer_name_same s0 s) in Hk. }
  intros h1 [n'|e] _ _; simpl; [|done]. intros st' [= <-]. cbn [fst]. etrans; [exact Hs|apply updated_names].
Qed.

Lemma write_change_spec h old s : same_names s0 s → spec child_permitted h (write_status_change old s) (λ h' r, ∀ s', r = Ok s' → same_names s0 s').
Proof.
  intros Hs. unfold write_status_change. destruct (bool_decide _); [by intros s' [= <-]|]. split; [done|].
  intros [[]|e]; simpl; [|done]. by intros s' [= <-].
Qed.

Lemma retained_names old desired s : same_names s (retain_genesis_entries old desired s).
Proof.
  unfold retain_genesis_entries. generalize (filter (λ v, vst_Init v && negb (bool_decide (vst_Name v ∈ desired)) = true) (sst_Validators old)).
  intros l. revert s. induction l as [|v l IH]; intros s; simpl; [reflexivity|]. etrans; [|apply IH]. by apply same_entries.
Qed.

Lemma children_reads s labels : only child_reads (listNodeSetNodes s labels).
Proof. unfold listNodeSetNodes, list_selected_children. only_walk. Qed.

Lemma remove_validator_spec h s n :
  same_names s0 s → spec child_permitted h (remove_validator s n) (λ h' r, ∀ s', r = Ok s' → same_names s0 s').
Proof.
  intros Hs. unfold remove_validator. rewrite spec_try. eapply spec_conseq; [by apply maybeDelete_spec|].
  intros h1 [s1|e] _ Hs1; [|done]. intros s' [= <-]. etrans; [by apply Hs1|by apply same_entries].
Qed.

Lemma ensureValidator_names h s :
  same_names s0 s →
  spec child_permitted h (ensureValidatorWithBlockedSignerTargets new_account new_key s blocked) (λ h' r, ∀ s', r = Ok s' → same_names s0 s').
Proof.
  intros Hs. unfold ensureValidatorWithBlockedSignerTargets. cbv zeta.
  assert (same_names s0 (with_set_status s (sst_without_validators (cns_Status s)))) as Hs1 by (etrans; [exact Hs|by apply same_entries]).
  rewrite spec_try. eapply (spec_conseq _ _ _ (λ h' r, ∀ st', r = Ok st' → same_names s0 st'.1)).
  { destruct (ss_Validator (cns_Spec s)); [by apply singleton_spec|by intros st' [= <-]]. }
  intros h1 [st1|e] _ Hst1; [|done]. specialize (Hst1 _ eq_refl). rewrite spec_try.
  eapply spec_conseq; [apply (spec_fold child_permitted (λ _ st, same_names s0 st.1)); [exact Hst1|intros; by apply group_spec]|].
  intros h2 [st2|e] _ Hst2; [|done]. specialize (Hst2 _ eq_refl). rewrite spec_try.
  eapply spec_conseq; [apply reads_spec, children_reads|]. intros h3 [children|e] _ _; [|done]. rewrite spec_try.
  eapply spec_conseq; [apply (spec_fold child_permitted (λ _ s, same_names s0 s)); [exact Hst2|intros; by apply remove_validator_spec]|].
  intros h4 [s4|e] _ Hs4; [|done]. apply write_change_spec. etrans; [by apply Hs4|apply retained_names].
Qed.

(** *** Regular groups *)

Lemma group_node_spec h g s i :
  same_names s0 s → g ∈ ss_Nodes (cns_Spec s0) → ng_Validator g = None →
  spec child_permitted h (ensure_group_node g blocked s i) (λ h' r, ∀ s', r = Ok s' → same_names s0 s').
Proof.
  intros Hs Hg Hv. unfold ensure_group_node, lifted. rewrite spec_try.
  destruct (getNodeSpecWithBlockedSignerTargets s g i blocked) as [n|e] eqn:En; [|done]. cbn [spec]. rewrite spec_try.
  eapply spec_conseq; [apply ensureNode_spec; [done|]|].
  - intros k Hk. right; left. exists g, i. apply getNodeSpec_Ok in En as (-> & _ & Hl). rewrite Hl in Hk.
    rewrite (signer_name_same s0 s) in Hk by done. split_and!; [done|done| |done].
    destruct Hs as (Hm & _). unfold node_name, cns_Name. by rewrite Hm.
  - intros h1 [n'|e] _ _; [|done]. intros s' [= <-]. etrans; [exact Hs|by apply same_entries].
Qed.

Lemma ensureNodeGroup_names h s g :
  same_names s0 s → g ∈ ss_Nodes (cns_Spec s0) → ng_Validator g = None →
  spec child_permitted h (ensureNodeGroupWithBlockedSignerTargets blocked s g) (λ h' r, ∀ s', r = Ok s' → same_names s0 s').
Proof.
  intros Hs Hg Hv. unfold ensureNodeGroupWithBlockedSignerTargets. rewrite spec_try.
  eapply spec_conseq; [apply reads_spec, children_reads|]. intros h1 [children|e] _ _; [|done]. cbv zeta. rewrite spec_try.
  eapply spec_conseq; [apply (spec_fold child_permitted (λ _ s, same_names s0 s)); [exact Hs|intros; by apply maybeDelete_spec]|].
  intros h2 [s2|e] _ Hs2; [|done].
  apply (spec_fold child_permitted (λ _ s, same_names s0 s)); [by apply Hs2|intros; by apply group_node_spec].
Qed.

Lemma ensureNodes_names h s :
  same_names s0 s →
  spec child_permitted h (ensureNodesWithBlockedSignerTargets s blocked) (λ h' r, ∀ s', r = Ok s' → same_names s0 s').
Proof.
  intros Hs. unfold ensureNodesWithBlockedSignerTargets. destruct (bool_decide _); [by intros s' [= <-]|]. cbv zeta. rewrite spec_try.
  eapply spec_conseq; [apply reads_spec, children_reads|]. intros h1 [children|e] _ _; [|done]. rewrite spec_try.
  eapply spec_conseq; [apply (spec_fold child_permitted (λ _ s, same_names s0 s)); [exact Hs|]|].
  { intros h' s' g [Hv Hg]%list_elem_of_filter Hs'. apply ensureNodeGroup_names; [done| |by destruct (ng_Validator g)].
    destruct Hs as (_ & Hsp & _). by rewrite <- Hsp. }
  intros h2 [s2|e] _ Hs2; [|done]. rewrite spec_try.
  eapply spec_conseq; [apply (spec_fold child_permitted (λ _ s, same_names s0 s)); [by apply Hs2|]|].
  { intros h' s' g _ Hs'. apply (spec_fold child_permitted (λ _ s, same_names s0 s)); [exact Hs'|intros; by apply maybeDelete_spec]. }
  intros h3 [s3|e] _ Hs3; [|done]. rewrite spec_try.
  eapply spec_conseq; [apply (spec_fold child_permitted (λ _ s, same_names s0 s)); [by apply Hs3|intros; by apply maybeDelete_spec]|].
  intros h4 [s4|e] _ Hs4; [|done]. rewrite spec_try.
  eapply spec_conseq; [apply reads_spec; unfold countReadyNodes; only_walk|]. intros h5 [ready|e] _ _; [|done].
  apply write_change_spec. etrans; [by apply Hs4|by apply same_entries].
Qed.
End pass.

(** C6: A pass over the validators and the nodes of a set updates and deletes a node only
    after it read that very node and the set controlled it or nobody did, and deletes it by
    the UID it was answered with.  A node it sends carries the label of a signer only when
    it is the first instance of a validator group or a regular node, and the label names
    the unblocked signer that serves its group; when it is another instance of the group
    that signer serves and the pod of the first instance was seen with the label, or another
    instance was; or when that node itself was read with the label, on its way to removal. *)
Theorem children_pass_spec `{MetaLaws} `{ApplyLaws} `{JsonObjectApi} `{GenesisJson} new_account new_key s blocked h :
  spec (child_permitted s blocked) h
    (s ←? ensureValidatorWithBlockedSignerTargets new_account new_key s blocked; ensureNodesWithBlockedSignerTargets s blocked)
    (λ _ r, ∀ s', r = Ok s' → same_names s s').
Proof.
  rewrite spec_try. eapply spec_conseq; [by apply ensureValidator_names|]. intros h1 [s1|e] _ Hs1; [|done].
  apply ensureNodes_names. by apply Hs1.
Qed.

(** ** A run

    A set of three validator instances served by a signer.  Before anything was read no
    node may be deleted; the pass as a whole keeps to the rules. *)

Definition served_set : ChainNodeSet :=
  mkChainNodeSet (cns_meta (genesis_set None)) (cns_Spec (genesis_set (Some signer_block))) (newChainNodeSetStatus "chain-1" [] 0 []).
Definition served_pass : kube (result ChainNodeSet) :=
  s ←? @ensureValidatorWithBlockedSignerTargets reference_meta reference_apply reference_documents (λ _, Ok "words") (λ _, Ok "{}") served_set ∅;
  @ensureNodesWithBlockedSignerTargets reference_meta reference_apply plain_documents s ∅.

Lemma children_pass_witness :
  ¬ @child_permitted reference_meta served_set ∅ [] (DeleteChainNode "default" "set-val-0" "uid-0") ∧
  spec (@child_permitted reference_meta served_set ∅) [] served_pass (λ _ r, ∀ s', r = Ok s' → same_names served_set s').
Proof.
  split; [intros (key & cur & Hr & _); by apply elem_of_nil in Hr|].
  exact (@children_pass_spec reference_meta reference_meta_laws reference_apply reference_apply_laws plain_documents reference_documents
    (λ _, Ok "words") (λ _, Ok "{}") served_set ∅ []).
Defined.
