(* ===== verification/SetGenesis.v ===== *)
(** * The genesis validators a set remembers

    Without a webhook, the status is all that tells whether a validator belongs to
    the immutable genesis of the chain.  A pass over the validators rewrites the
    entries, and neither adds to nor takes from those that initialized the genesis. *)

From S2P Require Import Prelude GoLib IO ThirdParty Reference ApiTypes ApiEquality KubeApi FakeServer CosmosignerSpec SignerResolve Getters.
From S2P Require Import UniqueSecrets GenesisFingerprint SigningNames SigningPaths Labels ResourceCleanup Deploy NodeFinalize SetSignerKeys.
From S2P Require Import SetSigner SetRollout SetSigning SetChildren SetNodes SetValidators SetHandover.

(** ** Lists with named entries *)

Section named.
Context {A : Type} (name : A → string).

Lemma elem_of_put x y l : y ∈ put_named name x l → y = x ∨ y ∈ l.
Proof.
  induction l as [|z l IH]; simpl; [set_solver|]. destruct (bool_decide _); [set_solver|].
  intros [->|Hy]%elem_of_cons; [by right; left|]. destruct (IH Hy); [by left|by right; right].
Qed.
Lemma elem_of_drop k y l : y ∈ drop_named name k l → y ∈ l.
Proof.
  induction l as [|z l IH]; simpl; [done|]. destruct (bool_decide _); [by right|].
  intros [->|Hy]%elem_of_cons; [by left|right; auto].
Qed.
Lemma put_keeps x y l : y ∈ l → name y ≠ name x → y ∈ put_named name x l.
Proof.
  intros Hy Hn. induction Hy as [y l|y z l Hy IH]; simpl.
  - rewrite bool_decide_eq_false_2 by done. by left.
  - destruct (bool_decide _); right; auto.
Qed.
Lemma put_has x l : x ∈ put_named name x l.
Proof. induction l as [|z l IH]; simpl; [by left|]. destruct (bool_decide _); [by left|by right]. Qed.
Lemma drop_keeps k y l : y ∈ l → name y ≠ k → y ∈ drop_named name k l.
Proof.
  intros Hy Hn. induction Hy as [y l|y z l Hy IH]; simpl.
  - rewrite bool_decide_eq_false_2 by done. by left.
  - destruct (bool_decide _); [done|right; auto].
Qed.
Lemma foldl_put_keeps y l m : y ∈ m → name y ∉ map name l → y ∈ foldl (λ m x, put_named name x m) m l.
Proof.
  revert m. induction l as [|x l IH]; intros m Hy Hn; simpl in *; [done|].
  apply not_elem_of_cons in Hn as [Hx Hn]. apply IH; [by apply put_keeps|done].
Qed.
(** Elements of distinct names that are put one after the other are all there. *)
Lemma foldl_put_has y l m : NoDup (map name l) → y ∈ l → y ∈ foldl (λ m x, put_named name x m) m l.
Proof.
  revert m. induction l as [|x l IH]; intros m Hnd; [by intros ?%not_elem_of_nil|]. apply NoDup_cons in Hnd as [Hx Hl].
  intros [->|Hy]%elem_of_cons; simpl; [|by apply IH]. apply foldl_put_keeps; [apply put_has|done].
Qed.
Lemma elem_of_foldl_put y l m : y ∈ foldl (λ m x, put_named name x m) m l → y ∈ l ∨ y ∈ m.
Proof.
  revert m. induction l as [|x l IH]; intros m; simpl; [by right|].
  intros [?|[->|?]%elem_of_put]%IH; [by left; right|by left; left|by right].
Qed.
Lemma names_filter P `{∀ x : A, Decision (P x)} l : NoDup (map name l) → NoDup (map name (filter P l)).
Proof.
  intros Hl. induction l as [|x l IH]; [done|]. apply NoDup_cons in Hl as [Hx Hl]. rewrite filter_cons. case_decide; [|by apply IH].
  apply NoDup_cons. split; [|by apply IH]. intros (y & Ey & [_ Hy]%list_elem_of_filter)%list_elem_of_fmap.
  apply Hx. rewrite Ey. by apply list_elem_of_fmap_2.
Qed.
End named.

(** ** Entries *)

Abbreviation entries s := (sst_Validators (cns_Status s)).

Abbreviation any_request := (λ (_ : list kevent) (_ : request), True).

Section pass.
Context `{MetaLaws} `{ApplyLaws} `{JsonObjectApi} `{GenesisJson}.
Variables new_account new_key : string → result string.
Variable s0 : ChainNodeSet.
Abbreviation old := (sst_Validators (cns_Status s0)).
Abbreviation previous := (previous_statuses old).

(** The validator configurations of the set, each with the group it serves. *)
Definition configured (group : string) (cfg : NodeSetValidatorConfig) : Prop :=
  (group = ReservedValidatorGroupName ∧ ss_Validator (cns_Spec s0) = Some cfg) ∨
  (∃ g v i, g ∈ ss_Nodes (cns_Spec s0) ∧ ng_Validator g = Some v ∧ group = ng_Name g ∧
            cfg = deriveGroupValidatorConfig s0 (ng_Name g) i (GetInstances g) v).
(** The group has a managed signer, or one was rolled out for it and its key is on record. *)
Definition serves_since (st : CosmosignerStatus) (group : string) : Prop :=
  st_ServingGroup st = group ∨
  (st_AtEstablishment st = None ∧ ∃ r, r ∈ ResolveCosmosigners s0 ∧ sg_ValidatorGroup r = group).
Definition managed_in_set (group : string) : Prop :=
  is_some (groupCosmosigner s0 group) = true ∨
  (∃ st, st ∈ statuses s0 ∧ st_AppliedDigest st ≠ "" ∧ st_PublicKey st ≠ "" ∧ serves_since st group).
(** A fingerprint that was replaced: by the one of a configuration of the set, for a group with a managed signer, and
    what it says besides the signing material was the same. *)
Definition refreshed (p v : ChainNodeSetValidatorStatus) : Prop :=
  ∃ group cfg, configured group cfg ∧ managed_in_set group ∧
    has_suffix (vst_SigningKeyDigest p) (nul +:+ nv_configuration cfg) = true ∧
    vst_SigningKeyDigest v = nv_GenesisSigningFingerprint (Some cfg) (vst_Name v +:+ "-priv-key").
(** The entry is what an earlier pass recorded of that name, or no initializer. *)
Definition consistent (v : ChainNodeSetValidatorStatus) : Prop :=
  vst_Init v = true → ∃ p, previous !! vst_Name v = Some p ∧ vst_Init p = true ∧
    (vst_SigningKeyDigest p = "" ∨ vst_SigningKeyDigest v = vst_SigningKeyDigest p ∨ refreshed p v).

(** What the pass knows of the signers that were rolled out is what was recorded before. *)
Definition signer_kept (st0 st : CosmosignerStatus) : Prop :=
  st_AppliedDigest st = st_AppliedDigest st0 ∧ st_PublicKey st = st_PublicKey st0 ∧
  ((st_ServingGroup st = st_ServingGroup st0 ∧ st_AtEstablishment st = st_AtEstablishment st0) ∨
   (is_some (st_AtEstablishment st) = true ∧ serves_since st0 (st_ServingGroup st))).
Definition signers_kept (s : ChainNodeSet) : Prop :=
  ∀ st, st ∈ statuses s → st_AppliedDigest st ≠ "" → ∃ st0, st0 ∈ statuses s0 ∧ signer_kept st0 st.
Lemma signers_kept_same s s' : statuses s' = statuses s → signers_kept s → signers_kept s'.
Proof. unfold signers_kept. by intros ->. Qed.
Lemma signers_kept_self : signers_kept s0.
Proof. intros st Hst _. exists st. split; [done|]. split_and!; [done|done|by left]. Qed.
Lemma elem_of_updated name f l st : st ∈ update_entry name f l → st ∈ l ∨ ∃ st', st' ∈ l ∧ st = f st'.
Proof.
  induction l as [|x l IH]; simpl; [by left|]. destruct (bool_decide _).
  - intros [->|?]%elem_of_cons; [right; exists x; split; [by left|done]|by left; right].
  - intros [->|[?|(st' & ? & ->)]%IH]%elem_of_cons; [by left; left|by left; right|right; exists st'; split; [by right|done]].
Qed.
Lemma established_kept b s r : r ∈ ResolveCosmosigners s0 → signers_kept s → signers_kept (establish_signer b s r).
Proof.
  intros Hr Hs. unfold establish_signer. set (s1 := EnsureCosmosignerStatus s (sg_Name r)).
  assert (signers_kept s1) as Hs1.
  { unfold s1, EnsureCosmosignerStatus. destruct (GetCosmosignerStatus s (sg_Name r)); [done|].
    intros st [Hst|Hst]%elem_of_app; [by apply Hs|]. apply list_elem_of_singleton in Hst as ->. done. }
  intros st [Hst|(st1 & Hst & ->)]%elem_of_updated Ha; [by apply Hs1|].
  assert (st_AppliedDigest (establish_entry s1 b r st1) = st_AppliedDigest st1 ∧ st_PublicKey (establish_entry s1 b r st1) = st_PublicKey st1 ∧
          is_some (st_AtEstablishment (establish_entry s1 b r st1)) = true ∧
          (st_ServingGroup (establish_entry s1 b r st1) = st_ServingGroup st1 ∨
           st_AtEstablishment st1 = None ∧ st_ServingGroup (establish_entry s1 b r st1) = sg_ValidatorGroup r)) as (Ea & Ep & Em & Eg).
  { unfold establish_entry. destruct (st_AtEstablishment st1); simpl; [by auto|]. split_and!; [done..|]. case_match; auto. }
  rewrite Ea in Ha. destruct (Hs1 st1 Hst Ha) as (st0 & Hst0 & Ka & Kp & Kg). exists st0. split; [done|].
  split_and!; [congruence|congruence|]. right. split; [done|]. destruct Eg as [->|[En ->]].
  - destruct Kg as [[-> _]|[_ ?]]; [by left|done].
  - right. destruct Kg as [[_ Ke]|[Ke _]]; [|by rewrite En in Ke]. split; [congruence|by exists r].
Qed.
Lemma SetEstablished_kept s chainID : same_names s0 s → signers_kept s → signers_kept (SetEstablishedChainID s chainID).
Proof.
  intros (Hm & Hsp & _) Hs. unfold SetEstablishedChainID. destruct (bool_decide _); [done|]. cbv zeta. rewrite (resolved_same s0 s Hm Hsp).
  assert (∀ b l x, (∀ r, r ∈ l → r ∈ ResolveCosmosigners s0) → signers_kept x → signers_kept (foldl (establish_signer b) x l)) as Hf.
  { intros b. induction l as [|r l IH]; intros x Hl Hx; simpl; [done|]. apply IH; [intros r' ?; apply Hl; by right|].
    apply established_kept; [apply Hl; by left|done]. }
  apply Hf; [done|]. by apply (signers_kept_same s).
Qed.

Lemma allowed_managed s group cfg digest :
  same_names s0 s → signers_kept s → nodeset_GenesisSigningDigestAllowsRefresh s group (Some cfg) digest = true →
  managed_in_set group ∧ has_suffix digest (nul +:+ nv_configuration cfg) = true.
Proof.
  intros (Hm & Hsp & _) Hs. unfold nodeset_GenesisSigningDigestAllowsRefresh. destruct (_ || _); [done|]. cbv zeta.
  intros [Hg ?]%andb_true_iff. split; [|done]. apply orb_true_iff in Hg as [Hg|Hg].
  - left. assert (groupCosmosigner s group = groupCosmosigner s0 group) as <-; [|done].
    destruct s, s0. simpl in *. by subst.
  - right. apply existsb_exists in Hg as (st & Hin%list_elem_of_In & Hst). to_prop.
    destruct (Hs st Hin) as (st0 & Hst0 & Ka & Kp & Kg); [done|].
    exists st0. split_and!; [done|congruence|congruence|]. destruct Kg as [[Kg _]|[_ Kg]]; [left; congruence|].
    by assert (st_ServingGroup st = group) as <-.
Qed.

Definition all_consistent (s : ChainNodeSet) : Prop := same_names s0 s ∧ signers_kept s ∧ ∀ v, v ∈ entries s → consistent v.
Definition has_entry (name : string) (s : ChainNodeSet) : Prop := ∃ v, v ∈ entries s ∧ vst_Name v = name.

Lemma established_entries s chainID : entries (SetEstablishedChainID s chainID) = entries s.
Proof.
  unfold SetEstablishedChainID. destruct (bool_decide _); [done|].
  assert (∀ e l x, entries (foldl (establish_signer e) x l) = entries x) as Hf; [|by rewrite Hf].
  intros e l. induction l as [|r l IH]; intros x; simpl; [done|]. rewrite IH. unfold establish_signer, EnsureCosmosignerStatus.
  by destruct (GetCosmosignerStatus x (sg_Name r)).
Qed.

Lemma kept_digest_cases s cfg group isInit allow prev digest :
  prev = "" ∨ kept_digest s cfg group isInit allow prev digest = prev ∨
  isInit = true ∧ nodeset_GenesisSigningDigestAllowsRefresh s group (Some cfg) prev = true ∧
    kept_digest s cfg group isInit allow prev digest = digest.
Proof.
  unfold kept_digest. destruct (bool_decide_reflect (prev = "")); [by left|]. right.
  destruct (bool_decide_reflect (prev = digest)) as [->|]; [by left|].
  destruct (nodeset_GenesisSigningDigestAllowsRefresh s group (Some cfg) prev), isInit, allow; auto.
Qed.
Lemma entry_consistent s n cfg group isInit :
  same_names s0 s → signers_kept s → configured group cfg → consistent (validator_entry s n cfg group isInit previous true true).
Proof.
  intros Hs Hk Hg. unfold consistent, validator_entry. cbn [negb].
  destruct (previous !! cn_Name n) as [p|] eqn:Ep; cbn [vst_Init vst_Name vst_SigningKeyDigest]; [|done].
  intros Hi. exists p. rewrite Hi. split_and!; [done|done|].
  match goal with |- context[kept_digest s cfg group isInit true _ ?d] =>
    destruct (kept_digest_cases s cfg group isInit true (vst_SigningKeyDigest p) d) as [?|[?|(-> & Ha & Hd)]] end; [by left|by right; left|].
  right; right. apply (allowed_managed s) in Ha as [? ?]; [|done..]. exists group, cfg. by split_and!.
Qed.

Lemma updated_entries s n cfg group isInit alias :
  all_consistent s → ∃ s', same_names s s' ∧ signers_kept s' ∧ statuses (updateValidatorStatus s n cfg group isInit alias previous true true) = statuses s' ∧
    entries (updateValidatorStatus s n cfg group isInit alias previous true true) =
    put_named vst_Name (validator_entry s' n cfg group isInit previous true true) (entries s).
Proof.
  intros (Hs & Hk & _). unfold updateValidatorStatus. set (s1 := if sst_ChainID (cns_Status s) == "" then _ else _).
  exists (AddOrUpdateNodeStatus s1 (child_status n group)). split.
  { etrans; [|by apply same_entries]. unfold s1. destruct (bool_decide _); [apply established_names|reflexivity]. }
  split. { apply (signers_kept_same s1); [done|]. unfold s1. destruct (bool_decide _); [by apply SetEstablished_kept|done]. }
  split; [by destruct alias|].
  assert (entries s1 = entries s) as E by (unfold s1; destruct (bool_decide _); [apply established_entries|done]).
  rewrite <- E. by destruct alias.
Qed.

Lemma entry_name s n cfg group isInit : vst_Name (validator_entry s n cfg group isInit previous true true) = cn_Name n.
Proof. unfold validator_entry. cbn [negb]. by destruct (previous !! cn_Name n). Qed.

(** One validator is recorded under its name, and no other entry is lost. *)
Lemma updated_consistent s n cfg group isInit alias :
  all_consistent s → configured group cfg → let s' := updateValidatorStatus s n cfg group isInit alias previous true true in
  all_consistent s' ∧ has_entry (cn_Name n) s' ∧ ∀ name, has_entry name s → has_entry name s'.
Proof.
  intros Hcons Hg s'. destruct (updated_entries s n cfg group isInit alias Hcons) as (s1 & Hs1 & Hk1 & Est & E). fold s' in E, Est.
  destruct Hcons as (Hs & Hk & Hc).
  set (v := validator_entry s1 n cfg group isInit previous true true) in *.
  assert (has_entry (cn_Name n) s') as Hn by (exists v; rewrite E; split; [apply put_has|apply entry_name]).
  split_and!; [split_and!|done|].
  - etrans; [exact Hs|apply updated_names].
  - by apply (signers_kept_same s1).
  - intros w Hw. rewrite E in Hw. apply elem_of_put in Hw as [->|Hw]; [apply entry_consistent; [by etrans|done|done]|by apply Hc].
  - intros name (w & Hw & Hwn). destruct (decide (name = cn_Name n)) as [->|Hne]; [done|]. exists w. split; [|done].
    rewrite E. apply put_keeps; [done|]. unfold v. rewrite entry_name. congruence.
Qed.

(** *** The pass *)

Lemma free_spec {A} h (m : kube A) : spec any_request h m (λ _ _, True).
Proof. by induction m in h |- *; simpl. Qed.

Abbreviation keeps := (λ (_ : list kevent) (r : result (ChainNodeSet * bool)), ∀ st, r = Ok st → all_consistent st.1).

Lemma singleton_consistent h blocked st cfg :
  all_consistent st.1 → ss_Validator (cns_Spec s0) = Some cfg → spec any_request h (ensure_singleton previous true blocked st cfg) keeps.
Proof.
  destruct st as [s aliased]. cbn [fst]. intros Hs Hcfg. unfold ensure_singleton. rewrite spec_try.
  eapply spec_conseq; [apply free_spec|]. intros h1 [n|e] _ _; [|done]. rewrite spec_try.
  eapply spec_conseq; [apply free_spec|]. intros h2 [n'|e] _ _; [|done]. intros st [= <-].
  apply updated_consistent; [done|by left].
Qed.
Lemma derived_same s group i instances v :
  same_names s0 s → deriveGroupValidatorConfig s group i instances v = deriveGroupValidatorConfig s0 group i instances v.
Proof. intros (Hm & Hsp & _). destruct s, s0. simpl in *. by subst. Qed.
Lemma instance_consistent h blocked g v d st i :
  all_consistent st.1 → g ∈ ss_Nodes (cns_Spec s0) → ng_Validator g = Some v → spec any_request h (ensure_instance previous true blocked g v d st i) keeps.
Proof.
  destruct st as [s aliased]. cbn [fst]. intros Hs Hg Hv. unfold ensure_instance. cbv zeta. rewrite spec_try.
  eapply spec_conseq; [apply free_spec|]. intros h1 [n|e] _ _; [|done]. rewrite spec_try.
  eapply spec_conseq; [apply free_spec|]. intros h2 [n'|e] _ _; [|done]. intros st [= <-].
  apply updated_consistent; [done|]. right. exists g, v, i. split_and!; [done..|]. apply derived_same. by destruct Hs.
Qed.
Lemma group_consistent h blocked st g :
  all_consistent st.1 → g ∈ ss_Nodes (cns_Spec s0) → spec any_request h (ensure_validator_group new_account new_key previous true blocked st g) keeps.
Proof.
  intros Hs Hg. unfold ensure_validator_group. destruct (ng_Validator g) as [v|] eqn:Hv; [|by intros st' [= <-]].
  rewrite spec_try. eapply spec_conseq; [apply free_spec|]. intros h1 [d|e] _ _; [|done].
  rewrite spec_try. eapply spec_conseq; [apply free_spec|]. intros h2 [[]|e] _ _; [|done].
  apply (spec_fold any_request (λ _ st, all_consistent st.1)); [done|intros; by apply instance_consistent].
Qed.
Lemma remove_consistent h s n :
  all_consistent s → spec any_request h (remove_validator s n) (λ _ r, ∀ s', r = Ok s' → all_consistent s').
Proof.
  intros (Hs & Hk & Hc). unfold remove_validator, maybeDeleteNode. rewrite spec_try, spec_try.
  eapply spec_conseq; [apply free_spec|]. intros h1 [[]|e] _ _; [|done]. intros s' [= <-]. split_and!.
  - etrans; [exact Hs|]. transitivity (DeleteNodeStatus s (cn_Name n)); by apply same_entries.
  - by apply (signers_kept_same s).
  - intros v Hv%elem_of_drop. by apply Hc.
Qed.

Lemma previous_lookup v : NoDup (map vst_Name old) → v ∈ old → previous !! vst_Name v = Some v.
Proof.
  unfold previous_statuses. assert (∀ l (m : gmap string ChainNodeSetValidatorStatus), NoDup (map vst_Name l) →
    (v ∈ l → foldl (λ m v, <[vst_Name v:=v]> m) m l !! vst_Name v = Some v) ∧
    (vst_Name v ∉ map vst_Name l → m !! vst_Name v = Some v → foldl (λ m v, <[vst_Name v:=v]> m) m l !! vst_Name v = Some v)) as Hf.
  - induction l as [|x l IH]; intros m Hnd; simpl in *; [split; [by intros ?%not_elem_of_nil|done]|].
    apply NoDup_cons in Hnd as [Hx Hl]. destruct (IH (<[vst_Name x:=x]> m) Hl) as [IH1 IH2]. split.
    + intros [->|Hv]%elem_of_cons; [|by apply IH1]. apply IH2; [done|apply lookup_insert_eq].
    + intros [? ?]%not_elem_of_cons Hm. apply IH2; [done|by rewrite lookup_insert_ne].
  - intros Hnd Hv. by apply (proj1 (Hf _ ∅ Hnd)).
Qed.

Abbreviation retained desired := (filter (λ v, vst_Init v && negb (bool_decide (vst_Name v ∈ desired)) = true) old).

Lemma retained_entries desired s :
  entries (retain_genesis_entries (cns_Status s0) desired s) = foldl (λ m x, put_named vst_Name x m) (entries s) (retained desired).
Proof. unfold retain_genesis_entries. revert s. induction (retained desired) as [|x l IH]; intros s; simpl; [done|]. by rewrite IH. Qed.

Lemma retained_consistent desired s :
  NoDup (map vst_Name old) → all_consistent s →
  let s' := retain_genesis_entries (cns_Status s0) desired s in
  all_consistent s' ∧ ∀ v, v ∈ old → vst_Init v = true → vst_Name v ∉ desired → v ∈ entries s'.
Proof.
  intros Hnd (Hs & Hk & Hc) s'. split; [split_and!|].
  - etrans; [exact Hs|apply retained_names].
  - apply (signers_kept_same s); [|done]. unfold s', retain_genesis_entries. generalize (retained desired). clear. intros l.
    revert s. induction l as [|x l IH]; intros s; simpl; [done|]. by rewrite IH.
  - intros v. unfold s'. rewrite retained_entries. intros [[_ Hv]%list_elem_of_filter|Hv]%elem_of_foldl_put; [|by apply Hc].
    intros Hi. exists v. split_and!; [by apply previous_lookup|done|by right; left].
  - intros v Hv Hi Hd. unfold s'. rewrite retained_entries. apply foldl_put_has.
    + by apply names_filter.
    + apply list_elem_of_filter. by rewrite Hi, bool_decide_eq_false_2.
Qed.

(** What is left of the entries when a pass ends. *)
Definition genesis_kept (s : ChainNodeSet) : Prop :=
  all_consistent s ∧ ∀ v, v ∈ old → vst_Init v = true → vst_Name v ∉ desired_validators s0 → v ∈ entries s.
End pass.

(** C7: Once the validators of the genesis are on record, a pass over the validators of a
    set adds none to them: an entry that says its validator initialized the genesis was
    there before, with the same fingerprint of its key unless none was recorded, or the
    group it serves has a managed signer (or one was rolled out for it) and the recorded
    fingerprint differs from that of the configured validator by the signing material
    only; and the entry of such a validator that the set no longer has stays as it was. *)
Theorem genesis_entries_kept `{MetaLaws} `{ApplyLaws} `{JsonObjectApi} `{GenesisJson} new_account new_key s blocked h
    (Hbase : genesis_baseline_recorded (cns_Status s) = true) (Hnames : NoDup (map vst_Name (sst_Validators (cns_Status s)))) :
  spec (λ _ _, True) h (ensureValidatorWithBlockedSignerTargets new_account new_key s blocked) (λ _ r, ∀ s', r = Ok s' → genesis_kept s s').
Proof.
  unfold ensureValidatorWithBlockedSignerTargets. rewrite Hbase. cbv zeta. rewrite spec_try.
  assert (all_consistent s (with_set_status s (sst_without_validators (cns_Status s)))) as Hs1.
  { split_and!; [by apply same_entries|by apply (signers_kept_same s s), signers_kept_self|by intros v ?%not_elem_of_nil]. }
  eapply (spec_conseq _ _ _ (λ h' r, ∀ st', r = Ok st' → all_consistent s st'.1)).
  { destruct (ss_Validator (cns_Spec s)) eqn:Hv; [by apply singleton_consistent|by intros st' [= <-]]. }
  intros h1 [st1|e] _ Hst1; [|done]. specialize (Hst1 _ eq_refl). rewrite spec_try.
  eapply spec_conseq; [apply (spec_fold any_request (λ _ st, all_consistent s st.1)); [exact Hst1|intros; by apply group_consistent]|].
  intros h2 [st2|e] _ Hst2; [|done]. specialize (Hst2 _ eq_refl). rewrite spec_try.
  eapply spec_conseq; [apply free_spec|]. intros h3 [children|e] _ _; [|done]. rewrite spec_try.
  eapply spec_conseq; [apply (spec_fold any_request (λ _ s', all_consistent s s')); [exact Hst2|intros; by apply remove_consistent]|].
  intros h4 [s4|e] _ Hs4; [|done]. specialize (Hs4 _ eq_refl).
  unfold write_status_change. case_bool_decide; [|split; [done|intros [[]|e]; simpl; [|done]]]; intros s' [= <-];
    by apply retained_consistent.
Qed.

(** ** A run

    The group of a set has three instances, of which one initialized the genesis
    together with a validator that the set does not have any more. *)

Definition remembered (name digest : string) : ChainNodeSetValidatorStatus := mkValidatorStatus name "uid" "val" "" "" "" true digest.
Definition remembered_set : ChainNodeSet :=
  with_set_status served_set (sst_with_Validators (cns_Status served_set) [remembered "set-val-0" "abc"; remembered "set-old-0" "def"]).
Definition remembered_world : fake := mkFake [] ∅ ["default"] [] [remembered_set] [] [] [] [] [] [] [] [].
Definition remembered_pass : kube (result ChainNodeSet) :=
  @ensureValidatorWithBlockedSignerTargets reference_meta reference_apply reference_documents (λ _, Ok "words") (λ _, Ok "{}") remembered_set ∅.

Lemma genesis_entries_witness :
  (s ← (exec remembered_world remembered_pass).1; Ok (map (λ v, (vst_Name v, vst_Init v, vst_SigningKeyDigest v)) (sst_Validators (cns_Status s)))) =
    Ok [("set-val-0", true, "abc"); ("set-val-1", false, ""); ("set-val-2", false, ""); ("set-old-0", true, "def")] ∧
  spec (λ _ _, True) [] remembered_pass (λ _ r, ∀ s', r = Ok s' → @genesis_kept reference_documents remembered_set s').
Proof.
  split; [vm_compute; reflexivity|].
  refine (@genesis_entries_kept reference_meta reference_meta_laws reference_apply reference_apply_laws plain_documents reference_documents
    (λ _, Ok "words") (λ _, Ok "{}") remembered_set ∅ [] _ _); [reflexivity|].
  apply (bool_decide_unpack _). vm_compute. exact I.
Defined.
