(* ===== verification/SnapshotApi.v ===== *)
(** * What the snapshot code reads and requests

    The volume snapshots of a node, the jobs that move their data to and from an
    object store, and the client calls of [internal/datasnapshot] and of
    [snapshots.go] and [snapshot_exports.go] in [internal/controllers/chainnode].
    A routine is a tree of these calls ([snap A]), as in IO; the answers are not
    constrained. *)

From S2P Require Import Prelude GoLib IO ThirdParty ApiTypes KubeApi.

(** ** Jobs

    Beyond the containers of KubeApi a job has a priority, environments taken from
    secrets, sidecars and volumes whose mode matters when two jobs are compared. *)

(** [jc_AppEnv] is the part of the environment the user configures. *)
Record JobContainer := mkJobContainer {
  jc_Container : Container;
  jc_AppEnv : list opaque;
  jc_WorkingDir : string;
  jc_EnvFrom : list string;
  jc_RestartPolicy : option string;
}.
(** [jv_DefaultMode] is that of a secret. *)
Record JobVolume := mkJobVolume { jv_Volume : Volume; jv_DefaultMode : option Z }.
Record JobPodSpec := mkJobPodSpec {
  jp_RestartPolicy : string;
  jp_PriorityClassName : string;
  jp_ServiceAccountName : string;
  jp_Security : option PodSecurityContext;
  jp_ImagePullSecrets : list string;
  jp_Volumes : list JobVolume;
  jp_InitContainers : list JobContainer;
  jp_Containers : list JobContainer;
  jp_ShareProcessNamespace : option bool;
  jp_NodeSelector : gmap string string;
  jp_Affinity : option opaque;
}.
(** A rule of a pod failure policy: what to do on exit codes, or on conditions of the pod with a status. *)
Record FailureRule := mkFailureRule {
  fr_Action : string;
  fr_ContainerName : option string;
  fr_OnExitCodes : option (string * list Z);
  fr_OnPodConditions : list (string * string);
}.
Record JobCondition := mkJobCondition { jcn_Type : string; jcn_Status : string; jcn_Reason : string; jcn_Message : string }.
(** [bj_Selector] and [bj_ManualSelector] are set by the server. *)
Record BatchJob := mkBatchJob {
  bj_meta : ObjectMeta;
  bj_TTLSecondsAfterFinished : option Z;
  bj_BackoffLimit : option Z;
  bj_FailurePolicy : list FailureRule;
  bj_Completions : option Z;
  bj_Parallelism : option Z;
  bj_Suspend : option bool;
  bj_Selector : option opaque;
  bj_ManualSelector : option bool;
  bj_TemplateLabels : gmap string string;
  bj_Pod : JobPodSpec;
  bj_Conditions : list JobCondition;
  bj_Failed : Z;
  bj_Succeeded : Z;
}.
Definition bj_Name (j : BatchJob) : string := meta_Name (bj_meta j).
Definition bj_Namespace (j : BatchJob) : string := meta_Namespace (bj_meta j).
Definition bj_UID (j : BatchJob) : string := meta_UID (bj_meta j).
Definition bj_terminating (j : BatchJob) : bool := is_some (meta_DeletionTimestamp (bj_meta j)).
(** [job.Labels[key]] *)
Definition bj_label (j : BatchJob) (k : string) : string := get_label (meta_Labels (bj_meta j)) k.

Definition with_job_meta (j : BatchJob) (m : ObjectMeta) : BatchJob :=
  mkBatchJob m (bj_TTLSecondsAfterFinished j) (bj_BackoffLimit j) (bj_FailurePolicy j) (bj_Completions j) (bj_Parallelism j)
    (bj_Suspend j) (bj_Selector j) (bj_ManualSelector j) (bj_TemplateLabels j) (bj_Pod j) (bj_Conditions j) (bj_Failed j) (bj_Succeeded j).
Definition with_meta_labels (m : ObjectMeta) (labels : gmap string string) : ObjectMeta :=
  mkMeta (meta_Name m) (meta_Namespace m) (meta_UID m) labels (meta_Annotations m) (meta_OwnerReferences m) (meta_Finalizers m)
    (meta_DeletionTimestamp m) (meta_CreationTimestamp m) (meta_ResourceVersion m).
Definition with_job_labels (j : BatchJob) (labels : gmap string string) : BatchJob := with_job_meta j (with_meta_labels (bj_meta j) labels).
Definition with_suspend (j : BatchJob) (suspend : bool) : BatchJob :=
  mkBatchJob (bj_meta j) (bj_TTLSecondsAfterFinished j) (bj_BackoffLimit j) (bj_FailurePolicy j) (bj_Completions j) (bj_Parallelism j)
    (Some suspend) (bj_Selector j) (bj_ManualSelector j) (bj_TemplateLabels j) (bj_Pod j) (bj_Conditions j) (bj_Failed j) (bj_Succeeded j).
Definition without_ttl (j : BatchJob) : BatchJob :=
  mkBatchJob (bj_meta j) None (bj_BackoffLimit j) (bj_FailurePolicy j) (bj_Completions j) (bj_Parallelism j)
    (bj_Suspend j) (bj_Selector j) (bj_ManualSelector j) (bj_TemplateLabels j) (bj_Pod j) (bj_Conditions j) (bj_Failed j) (bj_Succeeded j).
(** A job as the program builds it. *)
Definition new_job (m : ObjectMeta) (ttl backoff : option Z) (policy : list FailureRule) (runs : option Z) (pod : JobPodSpec) : BatchJob :=
  mkBatchJob m ttl backoff policy runs runs None None None ∅ pod [] 0 0.

(** A claim filled from a snapshot: the group, kind and name of the data source. *)
Record SnapshotClaim := mkSnapshotClaim {
  scl_meta : ObjectMeta;
  scl_AccessModes : list string;
  scl_Storage : Quantity;
  scl_DataSource : option (string * string * string);
}.

(** ** Volume snapshots *)

Record VolumeSnapshotStatus := mkVolumeSnapshotStatus { vss_ReadyToUse : option bool; vss_RestoreSize : option Quantity }.
Record VolumeSnapshot := mkVolumeSnapshot {
  vsn_APIVersion : string;
  vsn_Kind : string;
  vsn_meta : ObjectMeta;
  vsn_Claim : option string;
  vsn_ClassName : option string;
  vsn_Status : option VolumeSnapshotStatus;
}.
Definition vsn_Name (v : VolumeSnapshot) : string := meta_Name (vsn_meta v).
Definition vsn_Namespace (v : VolumeSnapshot) : string := meta_Namespace (vsn_meta v).
Definition vsn_UID (v : VolumeSnapshot) : string := meta_UID (vsn_meta v).
Definition vsn_created (v : VolumeSnapshot) : Z := meta_CreationTimestamp (vsn_meta v).
(** [snapshot.Annotations[key]] and what changes it. *)
Definition vsn_annotation (v : VolumeSnapshot) (k : string) : string := annotation (vsn_meta v) k.
Definition with_vsn_meta (v : VolumeSnapshot) (m : ObjectMeta) : VolumeSnapshot :=
  mkVolumeSnapshot (vsn_APIVersion v) (vsn_Kind v) m (vsn_Claim v) (vsn_ClassName v) (vsn_Status v).
Definition annotate (v : VolumeSnapshot) (k x : string) : VolumeSnapshot := with_vsn_meta v (set_annotation (vsn_meta v) k x).
Definition with_annotations (m : ObjectMeta) (a : option (gmap string string)) : ObjectMeta :=
  mkMeta (meta_Name m) (meta_Namespace m) (meta_UID m) (meta_Labels m) a (meta_OwnerReferences m) (meta_Finalizers m)
    (meta_DeletionTimestamp m) (meta_CreationTimestamp m) (meta_ResourceVersion m).
(** [delete(snapshot.Annotations, key)] *)
Definition unannotate (v : VolumeSnapshot) (k : string) : VolumeSnapshot :=
  with_vsn_meta v (with_annotations (vsn_meta v) (delete k <$> meta_Annotations (vsn_meta v))).

(** ** The node

    A node together with the fields of its object that only this code touches. *)

Record Condition := mkCondition {
  cond_Type : string;
  cond_Status : string;
  cond_ObservedGeneration : Z;
  cond_LastTransitionTime : Z;
  cond_Reason : string;
  cond_Message : string;
}.
#[export] Instance Condition_eq_dec : EqDecision Condition.
Proof. solve_decision. Defined.
Record SnapNode := mkSnapNode { sn_Node : ChainNode; sn_Generation : Z; sn_Conditions : list Condition }.
Definition exports (n : SnapNode) : list SnapshotExportStatus := nst_SnapshotExports (cn_Status (sn_Node n)).
Definition with_exports (n : SnapNode) (l : list SnapshotExportStatus) : SnapNode :=
  mkSnapNode (mkChainNode (cn_meta (sn_Node n)) (cn_Spec (sn_Node n)) (nst_with_SnapshotExports (cn_Status (sn_Node n)) l)) (sn_Generation n) (sn_Conditions n).
Definition with_conditions (n : SnapNode) (l : list Condition) : SnapNode := mkSnapNode (sn_Node n) (sn_Generation n) l.

(** [k8s.io/apimachinery/pkg/api/meta]: the conditions of an object, one per type. *)
Class ConditionApi := {
  FindStatusCondition : list Condition → string → option Condition;
  (** The time is that of the call. *)
  SetStatusCondition : Z → list Condition → Condition → list Condition;
  RemoveStatusCondition : list Condition → string → list Condition;
}.

(** ** Calls *)

(** Deletes of jobs are foreground deletes; [uid] is the precondition, when there is one. *)
Inductive sreq :=
  | JobGet (namespace name : string)
  | JobList (namespace : string) (selector : gmap string string)
  | JobCreate (j : BatchJob)
  | JobUpdate (j : BatchJob)
  | JobDelete (namespace name : string) (uid : option string)
  | ClaimGet (namespace name : string)
  | ClaimCreate (c : SnapshotClaim)
  | ClaimDelete (namespace name : string) (uid : option string)
  | SecretGet (namespace name : string)
  | AccountGet (namespace name : string)
  | SnapshotList (namespace : string) (selector : gmap string string)
  | SnapshotGet (namespace name : string)
  | SnapshotCreate (v : VolumeSnapshot)
  | SnapshotUpdate (v : VolumeSnapshot)
  | SnapshotDelete (namespace name : string) (uid : option string)
  | NodeGet (namespace name : string)
  | NodeUpdate (n : SnapNode)
  | NodeUpdateStatus (n : SnapNode)
  (** A merge patch of the annotations. *)
  | NodePatch (base n : SnapNode)
  | TimeNow
  (** Parts of the node's reconciler: the pod it would run, deleting that, and the height of the chain. *)
  | PodSpecOf (n : SnapNode)
  | PodDelete (namespace name : string)
  | PodWaitDeleted (namespace name : string)
  | UpdateLatestHeight (n : SnapNode).

Definition sresp (r : sreq) : Type :=
  match r with
  | JobGet _ _ | JobCreate _ | JobUpdate _ => result BatchJob
  | JobList _ _ => result (list BatchJob)
  | JobDelete _ _ _ => result ()
  | ClaimGet _ _ => result SnapshotClaim
  | ClaimCreate _ | ClaimDelete _ _ _ => result ()
  | SecretGet _ _ => result Secret
  | AccountGet _ _ => result ()
  | SnapshotList _ _ => result (list VolumeSnapshot)
  | SnapshotGet _ _ | SnapshotUpdate _ | SnapshotCreate _ => result VolumeSnapshot
  | SnapshotDelete _ _ _ => result ()
  | NodeGet _ _ | NodeUpdate _ | NodeUpdateStatus _ | NodePatch _ _ => result SnapNode
  | TimeNow => Z
  | PodSpecOf _ | PodDelete _ _ | PodWaitDeleted _ _ => result ()
  | UpdateLatestHeight _ => result SnapNode
  end.

Abbreviation snap := (io sresp).
Abbreviation sevent := (event sresp).
Definition ask (r : sreq) : snap (sresp r) := Call r (λ x, Ret x).
Definition ok {A} (a : A) : snap (result A) := Ret (Ok a).
Definition fail {A} (e : error) : snap (result A) := Ret (Err e).
(** [if err := m; err != nil { return fmt.Errorf(format, args, err) }] *)
Definition wrap_error {A} (m : snap (result A)) (format : string) (args : list fmt_arg) : snap (result A) :=
  r ← m; match r with Ok a => ok a | Err e => fail (Wrapf e format args) end.
(** [if err != nil && !apierrors.IsNotFound(err) { return err }] *)
Definition ignore_not_found (m : snap (result ())) : snap (result ()) :=
  r ← m; match r with Err e => if IsNotFound e then ok () else fail e | Ok _ => ok () end.
(** A loop that carries a state and ends at the first error. *)
Fixpoint fold_try {A S} (f : S → A → snap (result S)) (l : list A) (s : S) : snap (result S) :=
  match l with
  | [] => ok s
  | x :: l => s ←? f s x; fold_try f l s
  end.

(** [retry.RetryOnConflict(retry.DefaultRetry, fn)] of client-go.  Documented: the
    function is run, again after a conflict, and the result is that of its last run. *)
Class SnapRetryApi := { snap_retry : ∀ {A}, snap (result A) → snap (result A) }.
Class SnapRetryLaws `{SnapRetryApi} := {
  snap_retry_spec A P h (fn : snap (result A)) Q :
    (∀ h', h `suffix_of` h' → spec P h' fn Q) → spec P h (snap_retry fn) Q;
}.

(** ** Reasoning *)

Lemma spec_wrap {A} P h (m : snap (result A)) format args Q :
  spec P h m (λ h' r, Q h' (match r with Ok a => Ok a | Err e => Err (Wrapf e format args) end)) → spec P h (wrap_error m format args) Q.
Proof. intros Hm. unfold wrap_error. rewrite spec_mbind. eapply spec_conseq; [exact Hm|]. by intros h' [a|e]. Qed.
Lemma spec_ignoring P h (m : snap (result ())) Q :
  spec P h m (λ h' r, Q h' (match r with Ok a => Ok () | Err e => if IsNotFound e then Ok () else Err e end)) →
  spec P h (ignore_not_found m) Q.
Proof. intros Hm. unfold ignore_not_found. rewrite spec_mbind. eapply spec_conseq; [exact Hm|]. intros h' [a|e] _; [done|]. by destruct (IsNotFound e). Qed.
Lemma spec_fold_try {A S} (P : list sevent → sreq → Prop) (I : list sevent → S → Prop) (f : S → A → snap (result S)) l s h :
  I h s →
  (∀ h' s x, x ∈ l → I h' s → spec P h' (f s x) (λ h2 r, ∀ s', r = Ok s' → I h2 s')) →
  spec P h (fold_try f l s) (λ h' r, ∀ s', r = Ok s' → I h' s').
Proof.
  revert s h. induction l as [|x l IH]; intros s h Hs Hf; cbn [fold_try]; [by intros s' [= <-]|].
  rewrite spec_try. eapply spec_conseq; [apply Hf; [by left|exact Hs]|]. intros h1 [s1|e] _ Hs1; [|by intros].
  apply IH; [by apply Hs1|]. intros h2 s2 y Hy. apply Hf. by right.
Qed.

(** ** Instances for the runs of the examples

    The default allows five runs. *)

Fixpoint on_conflict {A} (n : nat) (fn : snap (result A)) : snap (result A) :=
  match n with
  | O => fn
  | S n => r ← fn; match r with
                 | Err e => if IsConflict e then on_conflict n fn else fail e
                 | Ok a => ok a
                 end
  end.
Lemma on_conflict_spec {A} n P h (fn : snap (result A)) Q :
  (∀ h', h `suffix_of` h' → spec P h' fn Q) → spec P h (on_conflict n fn) Q.
Proof.
  intros Hfn. assert (∀ h', h `suffix_of` h' → spec P h' (on_conflict n fn) Q) as Hr; [|by apply Hr].
  induction n as [|n IH]; intros h' Hs; cbn [on_conflict]; [by apply Hfn|]. rewrite spec_mbind.
  eapply spec_conseq; [apply spec_suffix, Hfn; exact Hs|]. intros h2 [a|e] _ [Hs2 HQ]; [exact HQ|].
  destruct (IsConflict e); [apply IH; by etrans|exact HQ].
Qed.
Definition reference_snap_retry : SnapRetryApi := {| snap_retry _ := on_conflict 4 |}.
Lemma reference_snap_retry_laws : @SnapRetryLaws reference_snap_retry.
Proof. split. intros A P h fn Q Hfn. exact (on_conflict_spec 4 P h fn Q Hfn). Qed.

(** The first condition of a type is its condition. *)
Definition reference_conditions : ConditionApi := {|
  FindStatusCondition l t := find (λ c, cond_Type c == t) l;
  SetStatusCondition now l c :=
    if existsb (λ c', cond_Type c' == cond_Type c) l
    then map (λ c', if cond_Type c' == cond_Type c
                    then mkCondition (cond_Type c) (cond_Status c) (cond_ObservedGeneration c)
                           (if cond_Status c' == cond_Status c then cond_LastTransitionTime c' else now) (cond_Reason c) (cond_Message c)
                    else c') l
    else l ++ [mkCondition (cond_Type c) (cond_Status c) (cond_ObservedGeneration c) now (cond_Reason c) (cond_Message c)];
  RemoveStatusCondition l t := filter (λ c, (cond_Type c != t) = true) l;
|}.
