(* ===== verification/SnapshotJobs.v ===== *)
(** * Jobs that move snapshots ([internal/datasnapshot/snapshot.go])

    An export is an upload job with a claim filled from the volume snapshot, and the
    removal of an export is a deletion job.  Jobs are found by name, so each is
    compared with what is wanted of it before it is believed.  Removing the export of
    an upload that may still run is a protocol of its own: the deletion job is
    created suspended, records the upload it waits for, and is activated only when
    that is gone. *)

From S2P Require Import Prelude GoLib IO ThirdParty ApiTypes KubeApi Deploy SnapshotApi.

Inductive SnapshotStatus := SnapshotSucceeded | SnapshotFailed | SnapshotActive | SnapshotNotFound.
#[export] Instance SnapshotStatus_eq_dec : EqDecision SnapshotStatus.
Proof. solve_decision. Defined.

Definition labelExporter : string := "exporter".
Definition labelOwner : string := "owner".
Definition labelType : string := "type".
Definition labelDestination : string := "destination".
Definition labelCleanupExporter : string := "cleanup-exporter".
Definition labelCleanupOwner : string := "cleanup-owner".
Definition labelCleanupType : string := "cleanup-type".
Definition labelCleanupUploadUID : string := "cleanup-upload-uid".
Definition labelCleanupPVCUID : string := "cleanup-pvc-uid".
Definition labelCleanupAfterUpload : string := "cleanup-after-upload".
Definition labelCleanupDeletionUID : string := "cleanup-deletion-uid".
Definition typeUpload : string := "upload".
Definition typeDelete : string := "delete".
Definition typePostUploadDelete : string := "post-upload-delete".
Definition unboundSnapshotDeleteBackoffLimit : Z := 5.

Record SnapshotJobIdentity := mkIdentity { id_UID : string; id_PVCUID : string; id_Terminating : bool }.
(** [sj_Purpose] is the string of the type label. *)
Record SnapshotJob := mkSnapshotJob {
  sj_Name : string;
  sj_UID : string;
  sj_Purpose : string;
  sj_Terminating : bool;
  sj_Upload : option SnapshotJobIdentity;
  sj_Source : option BatchJob;
  sj_Exporter : string;
  sj_Failure : string;
  sj_RequireDestinationIdentity : bool;
}.
Definition no_snapshot_job : SnapshotJob := mkSnapshotJob "" "" "" false None None "" "" false.

Definition nul : string := String (Ascii.ascii_of_nat 0) "".
(** [fmt.Sprintf("%x", digest[:8])] *)
Definition short_digest (values : list string) : string := slice_to 16 (Sha256 (strings_Join values nul)).
Definition snapshotDestinationLabel (values : list string) : string := short_digest values.
Definition SnapshotDestinationLabel (provider bucket region endpoint : string) (forcePathStyle : bool) (authentication : list string) : string :=
  let values := [provider; bucket] in
  if provider == "gcs" then snapshotDestinationLabel (values ++ authentication)
  else snapshotDestinationLabel (values ++ [region; endpoint; if forcePathStyle then "true" else "false"] ++ authentication).

Definition ErrStaleJobReplaced : error := Sentinel "stale snapshot job deleted; it will be recreated".
Definition ErrStaleJobTerminating : error := Sentinel "stale snapshot job is still terminating".
(** A [StaleJobReplacedError], which unwraps to [ErrStaleJobReplaced]. *)
Definition StaleJobReplacedError (purpose : string) (j : BatchJob) (label previous desired : string) : error :=
  Wrapf ErrStaleJobReplaced
    (if label == labelExporter
     then "%s job %s/%s (UID %s) for exporter %q replaced by desired exporter %q: %v"
     else "%s job %s/%s (UID %s) had conflicting label %q: previous value %q, desired value %q: %v")
    ([AStr purpose; AStr (bj_Namespace j); AStr (bj_Name j); AStr (bj_UID j)] ++
     (if label == labelExporter then [] else [AStr label]) ++ [AStr previous; AStr desired]).
Definition stale_terminating (purpose : string) (j : BatchJob) : error :=
  Wrapf ErrStaleJobTerminating "stale %s job %s/%s is terminating: %w" [AStr purpose; AStr (bj_Namespace j); AStr (bj_Name j)].
(** The arguments most messages about a job start with. *)
Definition job_args (j : BatchJob) : list fmt_arg := [AStr (bj_Namespace j); AStr (bj_Name j)].

(** ** Reading a job *)

Fixpoint job_status_from (failed : bool) (l : list JobCondition) : SnapshotStatus :=
  match l with
  | [] => if failed then SnapshotFailed else SnapshotActive
  | c :: l =>
      if jcn_Status c != "True" then job_status_from failed l
      else if jcn_Type c == "Complete" then SnapshotSucceeded
      else job_status_from (failed || (jcn_Type c == "Failed")) l
  end.
Definition snapshotJobStatus (j : BatchJob) : SnapshotStatus := job_status_from false (bj_Conditions j).

Definition snapshotNameFromJob (j : BatchJob) : string :=
  if bj_label j labelType == typeUpload then TrimSuffix (bj_Name j) "-upload"
  else if bj_label j labelType == typeDelete then TrimSuffix (bj_Name j) "-delete"
  else bj_Name j.
Definition snapshotJobFailure (j : BatchJob) : string :=
  match find (λ c, (jcn_Type c == "Failed") && (jcn_Status c == "True")) (bj_Conditions j) with
  | None => ""
  | Some c =>
      let reason := TrimSpace (jcn_Reason c) in
      let message := TrimSpace (jcn_Message c) in
      if (reason != "") && (message != "") then reason +:+ ": " +:+ message
      else if reason != "" then reason
      else if message != "" then message
      else "delete Job failed"
  end.
Definition snapshotJobFromJob (j : BatchJob) : SnapshotJob :=
  let purpose := bj_label j labelType in
  mkSnapshotJob (snapshotNameFromJob j) (bj_UID j) purpose (bj_terminating j)
    (if (purpose == typeDelete) && (bj_label j labelCleanupUploadUID != "")
     then Some (mkIdentity (bj_label j labelCleanupUploadUID) (bj_label j labelCleanupPVCUID) false) else None)
    None "" (snapshotJobFailure j) false.

(** ** Listing *)

Record groupedSnapshotJobs := mkGroup {
  gj_preferred : SnapshotJob;
  gj_preferredExporter : string;
  gj_upload : option SnapshotJobIdentity;
  gj_uploadExporter : string;
  gj_uploadSource : option BatchJob;
}.
Definition no_group : groupedSnapshotJobs := mkGroup no_snapshot_job "" None "" None.
Definition with_upload (s : SnapshotJob) (upload : option SnapshotJobIdentity) : SnapshotJob :=
  mkSnapshotJob (sj_Name s) (sj_UID s) (sj_Purpose s) (sj_Terminating s) upload (sj_Source s) (sj_Exporter s) (sj_Failure s)
    (sj_RequireDestinationIdentity s).
Definition with_source (s : SnapshotJob) (source : option BatchJob) (exporter : string) : SnapshotJob :=
  mkSnapshotJob (sj_Name s) (sj_UID s) (sj_Purpose s) (sj_Terminating s) (sj_Upload s) source exporter (sj_Failure s)
    (sj_RequireDestinationIdentity s).

Definition add_to_group (g : groupedSnapshotJobs) (j : BatchJob) : groupedSnapshotJobs :=
  let s := snapshotJobFromJob j in
  let g := if sj_Purpose s == typeUpload
           then mkGroup (gj_preferred g) (gj_preferredExporter g) (Some (mkIdentity (sj_UID s) "" (sj_Terminating s)))
                  (bj_label j labelExporter) (Some j)
           else g in
  if (sj_Purpose (gj_preferred g) != typeDelete) || (sj_Purpose s == typeDelete)
  then mkGroup s (bj_label j labelExporter) (gj_upload g) (gj_uploadExporter g) (gj_uploadSource g)
  else g.
Definition group_jobs (jobs : list BatchJob) : gmap string groupedSnapshotJobs :=
  foldl (λ m j, let name := sj_Name (snapshotJobFromJob j) in <[name := add_to_group (default no_group (m !! name)) j]> m) ∅ jobs.

Definition snapshotUploadJobHasRecordedExecution (j : option BatchJob) : bool :=
  match j with Some j => (length (jp_Containers (bj_Pod j)) =? 1)%nat | None => false end.

(** [identity] is the exporter in use and, when given, its destination. *)
Definition group_job (identity : list string) (g : groupedSnapshotJobs) : SnapshotJob :=
  let p := gj_preferred g in
  let same := gj_preferredExporter g == gj_uploadExporter g in
  let p := if (sj_Purpose p == typeDelete) && same then
             match sj_Upload p, gj_upload g with
             | None, u => with_upload p u
             | Some i, Some u => if id_UID i == id_UID u
                                 then with_upload p (Some (mkIdentity (id_UID i) (id_PVCUID i) (id_Terminating u))) else p
             | Some _, None => p
             end
           else p in
  let previousExporter := match identity with
                          | exporter :: _ => (gj_preferredExporter g != "") && (gj_preferredExporter g != exporter)
                          | [] => false
                          end in
  let uploadDestination := match gj_uploadSource g with Some j => bj_label j labelDestination | None => "" end in
  let previousDestination := match identity with
                             | _ :: destination :: _ =>
                                 (sj_Purpose p == typeUpload) &&
                                 ((uploadDestination != "") || snapshotUploadJobHasRecordedExecution (gj_uploadSource g)) &&
                                 (uploadDestination != destination)
                             | _ => false
                             end in
  if previousExporter || previousDestination
  then with_source p (if sj_Purpose p == typeUpload then gj_uploadSource g else sj_Source p) (gj_preferredExporter g)
  else p.
(** The names are the keys of the map, so that the order does not depend on the iteration. *)
Definition snapshotJobsFromJobs (jobs : list BatchJob) (identity : list string) : list SnapshotJob :=
  sort_slice (λ a b, String.ltb (sj_Name a) (sj_Name b)) (map (λ kg, group_job identity kg.2) (map_to_list (group_jobs jobs))).

(** ** What makes two jobs the same *)

Record snapshotJobContainerIdentity := mkContainerIdentity {
  ci_Name : string;
  ci_Image : string;
  ci_Command : list string;
  ci_Args : list string;
  ci_WorkingDir : string;
  ci_Env : list EnvVar;
  ci_AppEnv : list opaque;
  ci_EnvFrom : list string;
  ci_VolumeMounts : list VolumeMount;
  ci_ImagePullPolicy : string;
  ci_SecurityContext : option SecurityContext;
}.
Record snapshotJobPodIdentity := mkPodIdentity {
  pi_ServiceAccountName : string;
  pi_PriorityClassName : string;
  pi_RestartPolicy : string;
  pi_SecurityContext : option PodSecurityContext;
  pi_ImagePullSecrets : list string;
  pi_Volumes : list JobVolume;
  pi_InitContainers : list snapshotJobContainerIdentity;
  pi_Containers : list snapshotJobContainerIdentity;
}.
#[local] Instance EnvVar_eq : EqDecision EnvVar.
Proof. assert (EqDecision EnvSource) by solve_decision. solve_decision. Defined.
#[local] Instance VolumeMount_eq : EqDecision VolumeMount.
Proof. solve_decision. Defined.
#[local] Instance SecurityContext_eq : EqDecision SecurityContext.
Proof. solve_decision. Defined.
#[local] Instance PodSecurityContext_eq : EqDecision PodSecurityContext.
Proof. solve_decision. Defined.
#[local] Instance JobVolume_eq : EqDecision JobVolume.
Proof.
  assert (EqDecision KeyToPath) by solve_decision. assert (EqDecision VolumeSource) by solve_decision.
  assert (EqDecision Volume) by solve_decision. solve_decision.
Defined.
#[local] Instance containerIdentity_eq : EqDecision snapshotJobContainerIdentity.
Proof. solve_decision. Defined.
#[local] Instance podIdentity_eq : EqDecision snapshotJobPodIdentity.
Proof. solve_decision. Defined.

(** [corev1.SecretVolumeSourceDefaultMode], 0644. *)
Definition SecretVolumeSourceDefaultMode : Z := 420.
Definition normalizedSnapshotJobVolumes (l : list JobVolume) : list JobVolume :=
  map (λ v, match vol_Source (jv_Volume v) with
            | SecretSource _ _ => mkJobVolume (jv_Volume v)
                                    (if jv_DefaultMode v == Some SecretVolumeSourceDefaultMode then None else jv_DefaultMode v)
            | _ => v
            end) l.
Definition snapshotJobContainerIdentities (l : list JobContainer) : list snapshotJobContainerIdentity :=
  map (λ c, let k := jc_Container c in
            mkContainerIdentity (ct_Name k) (ct_Image k) (ct_Command k) (ct_Args k) (jc_WorkingDir c) (ct_Env k) (jc_AppEnv c) (jc_EnvFrom c)
              (ct_Mounts k) (ct_ImagePullPolicy k) (ct_Security k)) l.
Definition snapshotJobIdentity (j : BatchJob) : snapshotJobPodIdentity :=
  let pod := bj_Pod j in
  mkPodIdentity (if jp_ServiceAccountName pod == "default" then "" else jp_ServiceAccountName pod) (jp_PriorityClassName pod)
    (jp_RestartPolicy pod) (jp_Security pod) (jp_ImagePullSecrets pod) (normalizedSnapshotJobVolumes (jp_Volumes pod))
    (snapshotJobContainerIdentities (jp_InitContainers pod)) (snapshotJobContainerIdentities (jp_Containers pod)).
Definition snapshotJobPodIdentityMatches (actual desired : BatchJob) : bool := snapshotJobIdentity actual == snapshotJobIdentity desired.

(** ** Routines *)

Section jobs.
Context `{MetaApi} `{ApplyApi}.

Definition not_controlled (purpose : string) (j : BatchJob) (owner : ObjectMeta) : error :=
  Errorf "%s job %s/%s is not controlled by snapshot owner %s" (AStr purpose :: job_args j ++ [AStr (meta_Name owner)]).

Definition deleteSnapshotJob (j : BatchJob) : snap (result ()) :=
  ignore_not_found (ask (JobDelete (bj_Namespace j) (bj_Name j) (Some (bj_UID j)))).

(** The labels are compared in a fixed order, those of the identity first. *)
Definition identity_keys (desired : BatchJob) : list string :=
  let labels := meta_Labels (bj_meta desired) in
  let first := filter (λ k, is_some (labels !! k) = true) [labelExporter; labelOwner; labelType; labelDestination] in
  first ++ sort_Strings (filter (λ k, k ∉ first) (map fst (map_to_list labels))).
Fixpoint compare_labels (desired : BatchJob) (purpose : string) (keys : list string) (j : BatchJob) : snap (result BatchJob) :=
  match keys with
  | [] => ok j
  | key :: keys =>
      let value := bj_label desired key in
      if bj_label j key == value then compare_labels desired purpose keys j
      else if bj_terminating j then fail (stale_terminating purpose j)
      else if (key == labelDestination) && (bj_label j key == "") && snapshotJobPodIdentityMatches j desired then
        let updated := with_job_labels j (<[key := value]> (meta_Labels (bj_meta j))) in
        j ←? wrap_error (ask (JobUpdate updated)) "adopt legacy %s job %s/%s: %w" (AStr purpose :: job_args updated);
        compare_labels desired purpose keys j
      else
        wrap_error (deleteSnapshotJob j) "delete stale %s job %s/%s: %w" (AStr purpose :: job_args j) ;?
        fail (StaleJobReplacedError purpose j key (bj_label j key) value)
  end.
Definition reconcileSnapshotJobIdentity (j desired : BatchJob) (purpose : string) : snap (result BatchJob) :=
  compare_labels desired purpose (identity_keys desired) j.

(** The job, and whether it was created. *)
Definition ensureSnapshotJob (owner : ObjectMeta) (desired : BatchJob) (purpose : string) : snap (result (BatchJob * bool)) :=
  r ← ask (JobCreate desired);
  match r with
  | Ok j => ok (j, true)
  | Err e =>
      if negb (IsAlreadyExists e) then fail e else
      j ←? wrap_error (ask (JobGet (bj_Namespace desired) (bj_Name desired))) "get existing %s job: %w" [AStr purpose];
      if negb (IsControlledBy (bj_meta j) owner) then fail (not_controlled purpose j owner)
      else if bj_terminating j then fail (stale_terminating purpose j)
      else
        j ←? reconcileSnapshotJobIdentity j desired purpose;
        ok (j, false)
  end.

(** *** Uploads *)

Definition cleanUpNewUploadJob (j : BatchJob) (created : bool) (cause : error) : snap (result ()) :=
  if negb created then fail cause else
  r ← ignore_not_found (ask (JobDelete (bj_Namespace j) (bj_Name j) None));
  match r with
  | Ok _ => fail cause
  | Err e => fail (Wrapf cause "%w; clean up upload job: %v" [])
  end.
Definition claim_args (c : SnapshotClaim) : list fmt_arg := [AStr (meta_Namespace (scl_meta c)); AStr (meta_Name (scl_meta c))].
Definition ensureUploadPVC (j : BatchJob) (desired : SnapshotClaim) : snap (result ()) :=
  r ← ask (ClaimCreate desired);
  match r with
  | Ok _ => ok ()
  | Err e =>
      if negb (IsAlreadyExists e) then fail (Wrapf e "create upload PVC: %w" []) else
      pvc ←? wrap_error (ask (ClaimGet (meta_Namespace (scl_meta desired)) (meta_Name (scl_meta desired)))) "get existing upload PVC: %w" [];
      if negb (IsControlledBy (scl_meta pvc) (bj_meta j)) then
        fail (Errorf "upload PVC %s/%s is not controlled by upload job %s" (claim_args pvc ++ [AStr (bj_Name j)]))
      else if scl_DataSource pvc != scl_DataSource desired then
        fail (Errorf "upload PVC %s/%s has a conflicting snapshot data source" (claim_args pvc))
      else ok ()
  end.
Definition ensureUploadResources (owner : ObjectMeta) (j : BatchJob) (pvc : SnapshotClaim) : snap (result ()) :=
  r ←? ensureSnapshotJob owner j "upload";
  let '(actual, created) := r in
  match SetControllerReference (bj_meta actual) (scl_meta pvc) with
  | Err e => cleanUpNewUploadJob actual created (Wrapf e "set PVC owner reference: %w" [])
  | Ok m =>
      r ← ensureUploadPVC actual (mkSnapshotClaim m (scl_AccessModes pvc) (scl_Storage pvc) (scl_DataSource pvc));
      match r with
      | Ok _ => ok ()
      | Err e => cleanUpNewUploadJob actual created e
      end
  end.

(** The status of a job known by its name and its exporter only. *)
Definition uploadJobStatus (owner : ObjectMeta) (namespace name exporter : string) : snap (result SnapshotStatus) :=
  r ← ask (JobGet namespace name);
  match r with
  | Err e => if IsNotFound e then ok SnapshotNotFound else fail e
  | Ok j =>
      if negb (IsControlledBy (bj_meta j) owner) then fail (not_controlled "upload" j owner)
      else if bj_label j labelExporter != exporter then
        if bj_terminating j then fail (Wrapf ErrStaleJobTerminating "stale upload job %s/%s is terminating: %w" (job_args j)) else
        wrap_error (deleteSnapshotJob j) "delete stale upload job %s/%s: %w" (job_args j) ;?
        fail (StaleJobReplacedError typeUpload j labelExporter (bj_label j labelExporter) exporter)
      else ok (snapshotJobStatus j)
  end.
Definition uploadJobStatusForDesired (owner : ObjectMeta) (desired : BatchJob) : snap (result SnapshotStatus) :=
  r ← ask (JobGet (bj_Namespace desired) (bj_Name desired));
  match r with
  | Err e => if IsNotFound e then ok SnapshotNotFound else fail e
  | Ok j =>
      if negb (IsControlledBy (bj_meta j) owner) then fail (not_controlled "upload" j owner) else
      j ←? reconcileSnapshotJobIdentity j desired typeUpload;
      ok (snapshotJobStatus j)
  end.

(** The first label of a job that differs from what is expected of it. *)
Definition unexpected_label (j : BatchJob) (expected : list (string * string)) : option (string * string) :=
  find (λ kv, bj_label j kv.1 != kv.2) expected.
Definition purpose_mismatch (s : SnapshotJob) (expected : string) : error :=
  Errorf "snapshot job %q has purpose %q, expected %q" [AStr (sj_Name s); AStr (sj_Purpose s); AStr expected].
Definition uid_mismatch (j : BatchJob) (uid : string) : error :=
  Errorf "snapshot deletion job %s/%s has UID %s, expected listed UID %s" (job_args j ++ [AStr (bj_UID j); AStr uid]).

(** *** Removing a finished deletion job *)

Definition cleanupSnapshotDeletionJob (owner : ObjectMeta) (expected : SnapshotJob) (exporter : string) : snap (result ()) :=
  if sj_Purpose expected != typeDelete then fail (purpose_mismatch expected typeDelete) else
  let name := sj_Name expected +:+ "-delete" in
  r ← ask (JobGet (meta_Namespace owner) name);
  match r with
  | Err e => if IsNotFound e then ok ()
             else fail (Wrapf e "get snapshot deletion job %s/%s: %w" [AStr (meta_Namespace owner); AStr name])
  | Ok j =>
      if (sj_UID expected != "") && (bj_UID j != sj_UID expected) then fail (uid_mismatch j (sj_UID expected))
      else if negb (IsControlledBy (bj_meta j) owner) then fail (not_controlled "snapshot deletion" j owner)
      else if bj_terminating j then fail (Wrapf ErrStaleJobTerminating "snapshot deletion job %s/%s is terminating: %w" (job_args j))
      else match unexpected_label j [(labelExporter, exporter); (labelOwner, meta_Name owner); (labelType, typeDelete)] with
           | Some (label, desired) =>
               wrap_error (deleteSnapshotJob j) "delete stale snapshot deletion job %s/%s: %w" (job_args j) ;?
               fail (StaleJobReplacedError typeDelete j label (bj_label j label) desired)
           | None => wrap_error (deleteSnapshotJob j) "delete snapshot deletion job %s/%s: %w" (job_args j)
           end
  end.

(** *** The upload a deletion waits for *)

Definition orphan_args (name : string) (ns : string) : list fmt_arg := [AStr ns; AStr name].
(** The upload job and its claim, each when it exists and is the expected one. *)
Definition getSnapshotUploadResources (owner : ObjectMeta) (name : string) (expected : SnapshotJobIdentity) (exporter : string)
  : snap (result (option BatchJob * option SnapshotClaim)) :=
  if id_UID expected == "" then fail (Errorf "snapshot upload job %q is missing its listed UID" [AStr name]) else
  let ns := meta_Namespace owner in
  let jobName := name +:+ "-upload" in
  r ← ask (JobGet ns jobName);
  j ←? (match r with
        | Err e => if IsNotFound e then ok None else fail (Wrapf e "get orphan upload job %s/%s: %w" (orphan_args jobName ns))
        | Ok j =>
            if bj_UID j != id_UID expected then
              fail (Errorf "orphan upload job %s/%s has UID %s, expected listed UID %s" (job_args j ++ [AStr (bj_UID j); AStr (id_UID expected)]))
            else if negb (IsControlledBy (bj_meta j) owner) then fail (not_controlled "orphan upload" j owner)
            else match unexpected_label j [(labelExporter, exporter); (labelOwner, meta_Name owner); (labelType, typeUpload)] with
                 | Some (label, value) =>
                     fail (Errorf "orphan upload job %s/%s has %s label %q, expected %q"
                             (job_args j ++ [AStr label; AStr (bj_label j label); AStr value]))
                 | None => ok (Some j)
                 end
        end);
  r ← ask (ClaimGet ns jobName);
  match r with
  | Err e => if IsNotFound e then ok (j, None) else fail (Wrapf e "get orphan upload PVC %s/%s: %w" (orphan_args jobName ns))
  | Ok pvc =>
      let controlled := match GetControllerOf (scl_meta pvc) with
                        | None => false
                        | Some c => (or_APIVersion c == "batch/v1") && (or_Kind c == "Job") && (or_Name c == jobName) &&
                                    (or_UID c == id_UID expected)
                        end in
      if negb controlled then
        fail (Errorf "orphan upload PVC %s/%s is not controlled by upload job UID %s" (claim_args pvc ++ [AStr (id_UID expected)]))
      else if (id_PVCUID expected != "") && (meta_UID (scl_meta pvc) != id_PVCUID expected) then
        fail (Errorf "orphan upload PVC %s/%s has UID %s, expected recorded UID %s"
                (claim_args pvc ++ [AStr (meta_UID (scl_meta pvc)); AStr (id_PVCUID expected)]))
      else ok (j, Some pvc)
  end.

Definition cleanupSnapshotUploadResources (j : option BatchJob) (pvc : option SnapshotClaim) : snap (result ()) :=
  (match j with
   | Some j => if bj_terminating j then ok ()
               else wrap_error (deleteSnapshotJob j) "delete orphan upload job %s/%s: %w" (job_args j)
   | None => ok ()
   end) ;?
  match pvc with
  | Some c => wrap_error (ignore_not_found (ask (ClaimDelete (meta_Namespace (scl_meta c)) (meta_Name (scl_meta c)) (Some (meta_UID (scl_meta c))))))
                "delete orphan upload PVC %s/%s: %w" (claim_args c)
  | None => ok ()
  end.

Definition setSnapshotDeletionUploadIdentityLabels (j : BatchJob) (owner : ObjectMeta) (exporter : string) (upload : SnapshotJobIdentity) : BatchJob :=
  let labels := <[labelCleanupUploadUID := id_UID upload]> (<[labelCleanupType := typeUpload]>
                  (<[labelCleanupOwner := meta_Name owner]> (<[labelCleanupExporter := exporter]> (meta_Labels (bj_meta j))))) in
  with_job_labels j (if id_PVCUID upload != "" then <[labelCleanupPVCUID := id_PVCUID upload]> labels else delete labelCleanupPVCUID labels).
Definition setSnapshotDeletionUploadIdentity (j : BatchJob) (owner : ObjectMeta) (exporter : string) (upload : SnapshotJobIdentity) : BatchJob :=
  with_suspend (setSnapshotDeletionUploadIdentityLabels j owner exporter upload) true.

(** The labels the job controller gives a pod template. *)
Definition controller_labels : list string :=
  ["controller-uid"; "job-name"; "batch.kubernetes.io/controller-uid"; "batch.kubernetes.io/job-name"].
Definition without_labels (keys : list string) (m : gmap string string) : gmap string string := foldl (λ m k, delete k m) m keys.

(** The worker that deletes after an upload that outlived a finished deletion job. *)
Definition postUploadDeletionJob (marker : BatchJob) (owner : ObjectMeta) (exporter : string) (upload : SnapshotJobIdentity) : BatchJob :=
  setSnapshotDeletionUploadIdentity
    (mkBatchJob
       (mkMeta (TrimSuffix (bj_Name marker) "-delete" +:+ "-purge") (bj_Namespace marker) ""
          (list_to_map [(labelExporter, exporter); (labelOwner, meta_Name owner); (labelType, typePostUploadDelete);
                        (labelCleanupDeletionUID, bj_UID marker)])
          None [mkOwnerReference "batch/v1" "Job" (bj_Name marker) (bj_UID marker) (Some true)] [] None 0 "")
       (bj_TTLSecondsAfterFinished marker) (bj_BackoffLimit marker) (bj_FailurePolicy marker) (bj_Completions marker)
       (bj_Parallelism marker) (bj_Suspend marker) None None (without_labels controller_labels (bj_TemplateLabels marker))
       (bj_Pod marker) [] 0 0)
    owner exporter upload.

Definition snapshotDeletionUploadIdentity (j : BatchJob) (owner : ObjectMeta) (exporter : string) : result (option SnapshotJobIdentity) :=
  if negb (existsb (λ k, bj_label j k != "")
             [labelCleanupExporter; labelCleanupOwner; labelCleanupType; labelCleanupUploadUID; labelCleanupPVCUID]) then
    if default false (bj_Suspend j)
    then Err (Errorf "suspended snapshot deletion job %s/%s is missing its upload cleanup identity" (job_args j))
    else Ok None
  else match unexpected_label j [(labelCleanupExporter, exporter); (labelCleanupOwner, meta_Name owner); (labelCleanupType, typeUpload)] with
       | Some (label, value) =>
           Err (Errorf "snapshot deletion job %s/%s has %s label %q, expected %q" (job_args j ++ [AStr label; AStr (bj_label j label); AStr value]))
       | None =>
           if bj_label j labelCleanupUploadUID == ""
           then Err (Errorf "snapshot deletion job %s/%s is missing %s label" (job_args j ++ [AStr labelCleanupUploadUID]))
           else Ok (Some (mkIdentity (bj_label j labelCleanupUploadUID) (bj_label j labelCleanupPVCUID) false))
       end.

(** *** The deletion job *)

(** Guards of a deletion job found under the name of the export. *)
Definition deletion_job_error (owner : ObjectMeta) (expected : SnapshotJob) (exporter : string) (j : BatchJob) : option error :=
  if (sj_UID expected != "") && (bj_UID j != sj_UID expected) then Some (uid_mismatch j (sj_UID expected))
  else if negb (IsControlledBy (bj_meta j) owner) then Some (not_controlled "snapshot deletion" j owner)
  else if bj_terminating j then Some (Wrapf ErrStaleJobTerminating "snapshot deletion job %s/%s is terminating: %w" (job_args j))
  else match unexpected_label j [(labelExporter, exporter); (labelOwner, meta_Name owner); (labelType, typeDelete)] with
       | Some (label, value) =>
           Some (Errorf "snapshot deletion job %s/%s has %s label %q, expected %q" (job_args j ++ [AStr label; AStr (bj_label j label); AStr value]))
       | None => None
       end.

(** A deletion job without the identity of its upload is given it: one that may still run is suspended, a finished one
    becomes the marker of a worker that comes after it. *)
Definition pair_with_upload (owner : ObjectMeta) (expected : SnapshotJob) (exporter : string) (j : BatchJob) (upload : SnapshotJobIdentity)
  : snap (result (BatchJob * SnapshotJobIdentity)) :=
  r ←? getSnapshotUploadResources owner (sj_Name expected) upload exporter;
  let identity := match r.2 with Some pvc => mkIdentity (id_UID upload) (meta_UID (scl_meta pvc)) (id_Terminating upload) | None => upload end in
  let updated := if snapshotJobStatus j == SnapshotActive then setSnapshotDeletionUploadIdentity j owner exporter identity
                 else let j := setSnapshotDeletionUploadIdentityLabels j owner exporter identity in
                      without_ttl (with_job_labels j (<[labelCleanupAfterUpload := "true"]> (meta_Labels (bj_meta j)))) in
  stored ←? wrap_error (ask (JobUpdate updated)) "pair legacy snapshot deletion job %s/%s with upload UID %s: %w"
              (job_args j ++ [AStr (id_UID upload)]);
  if bj_UID stored != bj_UID j then
    fail (Errorf "paired snapshot deletion job %s/%s has UID %s, expected %s" (job_args stored ++ [AStr (bj_UID stored); AStr (bj_UID j)]))
  else ok (stored, identity).

Definition upload_mismatch (j : BatchJob) (expected recorded : option SnapshotJobIdentity) : option error :=
  match expected, recorded with
  | Some e, Some r =>
      if id_UID e != id_UID r then
        Some (Errorf "snapshot deletion job %s/%s records upload UID %s, expected %s" (job_args j ++ [AStr (id_UID r); AStr (id_UID e)]))
      else if (id_PVCUID e != "") && (id_PVCUID r != id_PVCUID e) then
        Some (Errorf "snapshot deletion job %s/%s records upload PVC UID %s, expected %s" (job_args j ++ [AStr (id_PVCUID r); AStr (id_PVCUID e)]))
      else None
  | _, _ => None
  end.

(** The job that does the deletion, if there is one, and the upload it waits for. *)
Definition getSnapshotDeletionJob (owner : ObjectMeta) (expected : SnapshotJob) (exporter : string)
  : snap (result (option BatchJob * option SnapshotJobIdentity)) :=
  if sj_Purpose expected != typeDelete then fail (purpose_mismatch expected typeDelete) else
  let name := sj_Name expected +:+ "-delete" in
  r ← ask (JobGet (meta_Namespace owner) name);
  match r with
  | Err e => if IsNotFound e then ok (None, sj_Upload expected)
             else fail (Wrapf e "get snapshot deletion job %s/%s: %w" [AStr (meta_Namespace owner); AStr name])
  | Ok j =>
      match deletion_job_error owner expected exporter j with
      | Some e => fail e
      | None =>
          match snapshotDeletionUploadIdentity j owner exporter with
          | Err e => fail e
          | Ok upload =>
              r ←? (match upload, sj_Upload expected with
                    | None, Some u => r ←? pair_with_upload owner expected exporter j u; ok (r.1, Some r.2)
                    | _, _ => ok (j, upload)
                    end);
              let '(j, upload) := r in
              match upload_mismatch j (sj_Upload expected) upload with
              | Some e => fail e
              | None =>
                  let after := bj_label j labelCleanupAfterUpload in
                  if after == "" then ok (Some j, upload)
                  else if after != "true" then
                    fail (Errorf "snapshot deletion job %s/%s has %s label %q, expected %q"
                            (job_args j ++ [AStr labelCleanupAfterUpload; AStr after; AStr "true"]))
                  else match upload with
                       | None => fail (Errorf "snapshot deletion job %s/%s is missing its post-upload cleanup identity" (job_args j))
                       | Some u =>
                           worker ←? ensureSnapshotJob (bj_meta j) (postUploadDeletionJob j owner exporter u) typePostUploadDelete;
                           ok (Some worker.1, upload)
                       end
              end
          end
      end
  end.

(** A suspended deletion is activated once its upload is gone. *)
Definition activate_deletion (j : BatchJob) : snap (result SnapshotStatus) :=
  updated ←? wrap_error (ask (JobUpdate (with_suspend j false))) "activate snapshot deletion job %s/%s UID %s: %w" (job_args j ++ [AStr (bj_UID j)]);
  if bj_UID updated != bj_UID j then
    fail (Errorf "activated snapshot deletion job %s/%s has UID %s, expected %s" (job_args updated ++ [AStr (bj_UID updated); AStr (bj_UID j)]))
  else ok (snapshotJobStatus updated).
Definition reconcileSnapshotDeletionJob (owner : ObjectMeta) (expected : SnapshotJob) (exporter : string) : snap (result SnapshotStatus) :=
  r ←? getSnapshotDeletionJob owner expected exporter;
  match r with
  | (None, _) => ok SnapshotNotFound
  | (Some j, None) => ok (snapshotJobStatus j)
  | (Some j, Some upload) =>
      r ←? getSnapshotUploadResources owner (sj_Name expected) upload exporter;
      let '(uploadJob, pvc) := r in
      if negb (default false (bj_Suspend j)) then
        match uploadJob with
        | Some u => fail (Errorf "snapshot deletion job %s/%s is active while upload job %s/%s UID %s still exists"
                            (job_args j ++ job_args u ++ [AStr (bj_UID u)]))
        | None =>
            (match pvc with Some _ => cleanupSnapshotUploadResources None pvc | None => ok () end) ;?
            ok (snapshotJobStatus j)
        end
      else
        cleanupSnapshotUploadResources uploadJob pvc ;?
        r ←? getSnapshotUploadResources owner (sj_Name expected) upload exporter;
        match r.1 with
        | Some _ => ok SnapshotActive
        | None => activate_deletion j
        end
  end.

Definition int32PointerString (v : option Z) : string := match v with None => "<nil>" | Some z => FormatInt z end.
(** A deletion job with another number of retries is replaced. *)
Definition replace_for_backoff (j desired : BatchJob) : snap (result ()) :=
  if bj_terminating j then fail (stale_terminating typeDelete j) else
  wrap_error (deleteSnapshotJob j) "delete stale %s job %s/%s: %w" (AStr typeDelete :: job_args j) ;?
  fail (StaleJobReplacedError typeDelete j "spec.backoffLimit" (int32PointerString (bj_BackoffLimit j)) (int32PointerString (bj_BackoffLimit desired))).
Definition ensureSnapshotDeletionJobForDesired (owner : ObjectMeta) (desired : BatchJob) : snap (result BatchJob) :=
  r ←? ensureSnapshotJob owner desired typeDelete;
  if bj_BackoffLimit r.1 == bj_BackoffLimit desired then ok r.1
  else replace_for_backoff r.1 desired ;? ok r.1.
Definition reconcileSnapshotDeletionJobForDesired (owner : ObjectMeta) (expected : SnapshotJob) (exporter : string) (desired : BatchJob)
  : snap (result SnapshotStatus) :=
  r ← ask (JobGet (bj_Namespace desired) (bj_Name desired));
  match r with
  | Err e => if IsNotFound e then ok SnapshotNotFound else fail e
  | Ok j =>
      if (sj_UID expected != "") && (bj_UID j != sj_UID expected) then fail (uid_mismatch j (sj_UID expected))
      else if negb (IsControlledBy (bj_meta j) owner) then fail (not_controlled "snapshot deletion" j owner)
      else if bj_BackoffLimit j != bj_BackoffLimit desired then replace_for_backoff j desired ;? ok SnapshotNotFound
      else
        reconcileSnapshotJobIdentity j desired typeDelete ;?
        reconcileSnapshotDeletionJob owner expected exporter
  end.

Definition cleanupSnapshotDeletionResources (owner : ObjectMeta) (expected : SnapshotJob) (exporter : string) : snap (result ()) :=
  match sj_Upload expected with
  | None => cleanupSnapshotDeletionJob owner expected exporter
  | Some u =>
      r ←? getSnapshotDeletionJob owner expected exporter;
      let '(j, recorded) := r in
      let upload := default u recorded in
      match j with
      | Some d => if default false (bj_Suspend d)
                  then fail (Errorf "snapshot deletion job %s/%s is still suspended" (job_args d)) else ok ()
      | None => ok ()
      end ;?
      (r ←? getSnapshotUploadResources owner (sj_Name expected) upload exporter;
       cleanupSnapshotUploadResources r.1 r.2 ;?
       (r ←? getSnapshotUploadResources owner (sj_Name expected) upload exporter;
        match r.1, j with
        | Some _, _ | None, None => ok ()
        | None, Some d =>
            if bj_Name d != sj_Name expected +:+ "-delete" then cleanupSnapshotDeletionJob owner expected exporter
            else wrap_error (deleteSnapshotJob d) "delete snapshot deletion job %s/%s: %w" (job_args d)
        end))
  end.

(** *** Deletion of an upload of an earlier exporter *)

Definition data_volume (v : JobVolume) : bool := vol_Name (jv_Volume v) == "data".
Definition deletionJobFromUpload (upload : BatchJob) (owner : ObjectMeta) (exporter : string) (identity : SnapshotJobIdentity) : result BatchJob :=
  let pod := bj_Pod upload in
  match jp_Containers pod with
  | [c] =>
      let provider := TrimSuffix exporter "-exporter" in
      match ct_Args (jc_Container c) with
      | a0 :: a1 :: _ :: a3 :: _ :: _ =>
          if (a0 != provider) || (a1 != typeUpload) then
            Err (Errorf "snapshot upload job %s/%s has unexpected exporter arguments" (job_args upload))
          else
            let name := snapshotNameFromJob upload in
            let k := jc_Container c in
            let container := mkJobContainer
              (mkContainer (ct_Name k) (ct_Image k) (ct_ImagePullPolicy k) (ct_Security k) (ct_Command k) [provider; typeDelete; a3; name]
                 (ct_Env k) (ct_Ports k) (filter (λ m, (vm_Name m != "data") = true) (ct_Mounts k)) (ct_Resources k) (ct_StartupProbe k) (ct_LivenessProbe k))
              (jc_AppEnv c) "/app" (jc_EnvFrom c) (jc_RestartPolicy c) in
            let labels := list_to_map [(labelExporter, exporter); (labelOwner, meta_Name owner); (labelType, typeDelete)] in
            let destination := bj_label upload labelDestination in
            let job := mkBatchJob
              (mkMeta (name +:+ "-delete") (bj_Namespace upload) "" (if destination != "" then <[labelDestination := destination]> labels else labels)
                 None (meta_OwnerReferences (bj_meta upload)) [] None 0 "")
              None (Some unboundSnapshotDeleteBackoffLimit) [] None None None None None
              (without_labels controller_labels (bj_TemplateLabels upload))
              (mkJobPodSpec (jp_RestartPolicy pod) (jp_PriorityClassName pod) (jp_ServiceAccountName pod) (jp_Security pod) (jp_ImagePullSecrets pod)
                 (filter (λ v, negb (data_volume v) = true) (jp_Volumes pod)) (jp_InitContainers pod) [container] (jp_ShareProcessNamespace pod)
                 (jp_NodeSelector pod) (jp_Affinity pod))
              [] 0 0 in
            Ok (setSnapshotDeletionUploadIdentity job owner exporter identity)
      | _ => Err (Errorf "snapshot upload job %s/%s has unexpected exporter arguments" (job_args upload))
      end
  | l => Err (Errorf "snapshot upload job %s/%s has %d containers, expected 1" (job_args upload ++ [AInt (Z.of_nat (length l))]))
  end.

Definition with_exporter (s : SnapshotJob) (exporter : string) : SnapshotJob := with_source s (sj_Source s) exporter.
Definition with_claim (i : SnapshotJobIdentity) (pvc : option SnapshotClaim) : SnapshotJobIdentity :=
  match pvc with Some c => mkIdentity (id_UID i) (meta_UID (scl_meta c)) (id_Terminating i) | None => i end.
Definition DeleteSnapshotForUpload (owner : ObjectMeta) (upload : SnapshotJob) : snap (result (SnapshotJob * SnapshotStatus)) :=
  if (sj_Purpose upload != typeUpload) || (sj_Exporter upload == "") then
    fail (Errorf "snapshot upload job %q is missing its previous exporter identity" [AStr (sj_Name upload)]) else
  let identity := mkIdentity (sj_UID upload) "" (sj_Terminating upload) in
  r ←? getSnapshotUploadResources owner (sj_Name upload) identity (sj_Exporter upload);
  let '(uploadJob, pvc) := r in
  let from_source := match pvc, sj_Source upload with
                     | Some _, Some s => if bj_UID s == sj_UID upload then Some s else None
                     | _, _ => None
                     end in
  match (match uploadJob with Some j => Some j | None => from_source end) with
  | None => ok (no_snapshot_job, SnapshotNotFound)
  | Some j =>
      match deletionJobFromUpload j owner (sj_Exporter upload) (with_claim identity pvc) with
      | Err e => fail e
      | Ok d =>
          r ←? ensureSnapshotJob owner d typeDelete;
          let deletion := with_exporter (snapshotJobFromJob r.1) (sj_Exporter upload) in
          status ←? reconcileSnapshotDeletionJob owner deletion (sj_Exporter upload);
          ok (deletion, status)
      end
  end.
Definition snapshotJobExporter (s : SnapshotJob) (current : string) : string := if sj_Exporter s != "" then sj_Exporter s else current.

(** *** Listing *)

Definition listSnapshotJobs (owner : ObjectMeta) (identity : list string) : snap (result (list SnapshotJob)) :=
  jobs ←? ask (JobList (meta_Namespace owner) {[labelOwner := meta_Name owner]});
  ok (snapshotJobsFromJobs
        (filter (λ j, IsControlledBy (bj_meta j) owner && ((bj_label j labelType == typeUpload) || (bj_label j labelType == typeDelete)) = true) jobs)
        identity).
Definition ListSnapshotDeletionJobs (owner : ObjectMeta) : snap (result (list SnapshotJob)) :=
  jobs ←? listSnapshotJobs owner [""];
  ok (filter (λ s, (sj_Purpose s == typeDelete) = true) jobs).
Definition missing_exporter (s : SnapshotJob) : error := Errorf "snapshot deletion job %q is missing its exporter identity" [AStr (sj_Name s)].
Definition ReconcileSnapshotDeletionJob (owner : ObjectMeta) (s : SnapshotJob) : snap (result SnapshotStatus) :=
  if sj_Exporter s == "" then fail (missing_exporter s) else reconcileSnapshotDeletionJob owner s (sj_Exporter s).
Definition CleanupSnapshotDeletionResources (owner : ObjectMeta) (s : SnapshotJob) : snap (result ()) :=
  if sj_Exporter s == "" then fail (missing_exporter s) else cleanupSnapshotDeletionResources owner s (sj_Exporter s).
End jobs.
