(* ===== verification/SnapshotProviders.v ===== *)
(** * The object stores ([internal/datasnapshot/gcs.go], [s3.go])

    The jobs that upload to and delete from Google Cloud Storage and S3, and the
    operations of the interface [SnapshotProvider] on them.  The two providers differ
    in the jobs they render; their operations are the same code. *)

From S2P Require Import Prelude GoLib IO ThirdParty ApiTypes KubeApi Getters Deploy SignerRender SnapshotApi SnapshotJobs.

Definition s3Exporter : string := "s3-exporter".
Definition gcsExporter : string := "gcs-exporter".

(** What a provider is made with. *)
Record ProviderEnv := mkProviderEnv {
  pe_Owner : ObjectMeta;
  pe_priorityClass : string;
  pe_dataExporterImage : string;
  pe_imagePullSecrets : list string;
}.
(** [&GCS{...}] and [&S3{...}]. *)
Inductive SnapshotProvider :=
  | GCS (env : ProviderEnv) (Config : GcsExportConfig) (ExportConfig : ExportTarballConfig)
  | S3 (env : ProviderEnv) (Config : S3ExportConfig) (ExportConfig : ExportTarballConfig).
Definition provider_env (p : SnapshotProvider) : ProviderEnv := match p with GCS env _ _ | S3 env _ _ => env end.
Definition provider_owner (p : SnapshotProvider) : ObjectMeta := pe_Owner (provider_env p).
Definition provider_exporter (p : SnapshotProvider) : string := match p with GCS _ _ _ => gcsExporter | S3 _ _ _ => s3Exporter end.

Definition env_var (name value : string) : EnvVar := mkEnvVar name (EnvValue value).
Definition exporter_container (image : string) (args : list string) (dir : string) (env : list EnvVar) (from : list string) (mounts : list VolumeMount)
  : JobContainer :=
  mkJobContainer (mkContainer "dataexporter" image "Always" (Some RestrictedSecurityContext) [] args env [] mounts no_resources None None) [] dir from None.
Definition exporter_pod (env : ProviderEnv) (serviceAccount : string) (volumes : list JobVolume) (c : JobContainer) : JobPodSpec :=
  mkJobPodSpec "Never" (pe_priorityClass env) serviceAccount None (pe_imagePullSecrets env) volumes [] [c] None ∅ None.
Definition data_claim (name : string) : JobVolume := mkJobVolume (mkVolume "data" (ClaimSource (name +:+ "-upload"))) None.
Definition data_mount : VolumeMount := mkVolumeMount "data" false "/home/app/data" "" "".

(** ** Google Cloud Storage *)

Definition usesCredentialsSecret (cfg : GcsExportConfig) : bool := is_some (ge_CredentialsSecret cfg).
Definition credentialsVolume (cfg : GcsExportConfig) : list JobVolume :=
  match ge_CredentialsSecret cfg with
  | None => []
  | Some s => [mkJobVolume (mkVolume "credentials" (SecretSource (sel_Name s) [])) None]
  end.
Definition credentialsVolumeMount (cfg : GcsExportConfig) : list VolumeMount :=
  if usesCredentialsSecret cfg then [mkVolumeMount "credentials" false "/creds" "" ""] else [].
Definition credentialsEnv (cfg : GcsExportConfig) : list EnvVar :=
  match ge_CredentialsSecret cfg with
  | None => []
  | Some s => [env_var "GOOGLE_APPLICATION_CREDENTIALS" ("/creds/" +:+ sel_Key s)]
  end.
Definition gcs_serviceAccountName (cfg : GcsExportConfig) : string :=
  if usesCredentialsSecret cfg then "" else default "" (ge_ServiceAccountName cfg).
Definition gcs_destinationLabel (cfg : GcsExportConfig) : string :=
  let '(name, key) := match ge_CredentialsSecret cfg with Some s => (sel_Name s, sel_Key s) | None => ("", "") end in
  SnapshotDestinationLabel "gcs" (ge_Bucket cfg) "" "" false
    ["credentialsSecret"; name; key; "serviceAccount"; gcs_serviceAccountName cfg].
Definition gcs_uploadJob (env : ProviderEnv) (cfg : GcsExportConfig) (export : ExportTarballConfig) (labels : gmap string string) (name : string) : BatchJob :=
  new_job (with_meta_labels (meta_of_name (meta_Namespace (pe_Owner env)) (name +:+ "-upload")) labels) None (Some 0%Z) [] None
    (exporter_pod env (gcs_serviceAccountName cfg) (data_claim name :: credentialsVolume cfg)
       (exporter_container (pe_dataExporterImage env) ["gcs"; "upload"; "data"; ge_Bucket cfg; name] "/home/app"
          (credentialsEnv cfg ++
           [env_var "COMPRESSION" (GetCompression (Some export)); env_var "SIZE_LIMIT" (gcs_GetSizeLimit (Some cfg));
            env_var "PART_SIZE" (gcs_GetPartSize (Some cfg)); env_var "CHUNK_SIZE" (gcs_GetChunkSize (Some cfg));
            env_var "BUFFER_SIZE" (gcs_GetBufferSize (Some cfg)); env_var "CONCURRENT_JOBS" (FormatInt (gcs_GetConcurrentJobs (Some cfg)))])
          [] (credentialsVolumeMount cfg ++ [data_mount]))).
Definition gcs_deletionJob (env : ProviderEnv) (cfg : GcsExportConfig) (labels : gmap string string) (name : string) (backoff : Z) : BatchJob :=
  new_job (with_meta_labels (meta_of_name (meta_Namespace (pe_Owner env)) (name +:+ "-delete")) labels) None (Some backoff) [] None
    (exporter_pod env (gcs_serviceAccountName cfg) (credentialsVolume cfg)
       (exporter_container (pe_dataExporterImage env) ["gcs"; "delete"; ge_Bucket cfg; name] "/app"
          (credentialsEnv cfg ++ [env_var "CONCURRENT_JOBS" (FormatInt (gcs_GetConcurrentJobs (Some cfg)))]) [] (credentialsVolumeMount cfg))).

(** ** S3 *)

Definition s3_serviceAccountName (cfg : S3ExportConfig) : string := default "" (s3_ServiceAccountName cfg).
Definition credentialsEnvFrom (cfg : S3ExportConfig) : list string := match s3_CredentialsSecret cfg with None => [] | Some s => [s] end.
Definition storageEnv (cfg : S3ExportConfig) : list EnvVar :=
  [env_var "AWS_REGION" (s3_Region cfg); env_var "S3_ENDPOINT" (s3_GetEndpoint (Some cfg));
   env_var "S3_FORCE_PATH_STYLE" (if s3_ShouldForcePathStyle (Some cfg) then "true" else "false")].
Definition uploadEnv (cfg : S3ExportConfig) (export : ExportTarballConfig) : list EnvVar :=
  storageEnv cfg ++
  [env_var "COMPRESSION" (GetCompression (Some export)); env_var "SIZE_LIMIT" (s3_GetSizeLimit (Some cfg));
   env_var "PART_SIZE" (s3_GetPartSize (Some cfg)); env_var "CHUNK_SIZE" (s3_GetChunkSize (Some cfg));
   env_var "BUFFER_SIZE" (s3_GetBufferSize (Some cfg)); env_var "CONCURRENT_JOBS" (FormatInt (s3_GetConcurrentJobs (Some cfg)))].
Definition s3_destinationLabel (cfg : S3ExportConfig) : string :=
  SnapshotDestinationLabel "s3" (s3_Bucket cfg) (s3_Region cfg) (s3_GetEndpoint (Some cfg)) (s3_ShouldForcePathStyle (Some cfg))
    ["credentialsSecret"; default "" (s3_CredentialsSecret cfg); "serviceAccount"; s3_serviceAccountName cfg].
Definition s3_uploadJob (env : ProviderEnv) (cfg : S3ExportConfig) (export : ExportTarballConfig) (labels : gmap string string) (name : string) : BatchJob :=
  new_job (with_meta_labels (meta_of_name (meta_Namespace (pe_Owner env)) (name +:+ "-upload")) labels) None (Some 0%Z) [] None
    (exporter_pod env (s3_serviceAccountName cfg) [data_claim name]
       (exporter_container (pe_dataExporterImage env) ["s3"; "upload"; "data"; s3_Bucket cfg; name] "/home/app" (uploadEnv cfg export)
          (credentialsEnvFrom cfg) [data_mount])).
Definition s3_deletionJob (env : ProviderEnv) (cfg : S3ExportConfig) (labels : gmap string string) (name : string) (backoff : Z) : BatchJob :=
  new_job (with_meta_labels (meta_of_name (meta_Namespace (pe_Owner env)) (name +:+ "-delete")) labels) None (Some backoff) [] None
    (exporter_pod env (s3_serviceAccountName cfg) []
       (exporter_container (pe_dataExporterImage env) ["s3"; "delete"; s3_Bucket cfg; name] "/app"
          (storageEnv cfg ++ [env_var "CONCURRENT_JOBS" (FormatInt (s3_GetConcurrentJobs (Some cfg)))]) (credentialsEnvFrom cfg) [])).

(** ** The interface *)

Definition destinationLabel (p : SnapshotProvider) : string :=
  match p with GCS _ cfg _ => gcs_destinationLabel cfg | S3 _ cfg _ => s3_destinationLabel cfg end.
Definition job_labels (p : SnapshotProvider) (purpose : string) : gmap string string :=
  list_to_map [(labelExporter, provider_exporter p); (labelOwner, meta_Name (provider_owner p)); (labelType, purpose);
               (labelDestination, destinationLabel p)].
Definition uploadJob (p : SnapshotProvider) (name : string) : BatchJob :=
  let labels := job_labels p typeUpload in
  match p with GCS env cfg export => gcs_uploadJob env cfg export labels name | S3 env cfg export => s3_uploadJob env cfg export labels name end.

Section provider.
Context `{MetaApi} `{ApplyApi}.
Variable p : SnapshotProvider.
Abbreviation owner := (provider_owner p).

Definition snapshotDeletionJob (name : string) (upload : option SnapshotJobIdentity) (bounded : bool) : result BatchJob :=
  let backoff := if bounded then 0%Z else unboundSnapshotDeleteBackoffLimit in
  let labels := job_labels p typeDelete in
  let j := match p with GCS env cfg _ => gcs_deletionJob env cfg labels name backoff | S3 env cfg _ => s3_deletionJob env cfg labels name backoff end in
  m ← SetControllerReference owner (bj_meta j);
  let j := with_job_meta j m in
  Ok (match upload with Some u => setSnapshotDeletionUploadIdentity j owner (provider_exporter p) u | None => j end).

(** A snapshot without a status panics. *)
Definition CreateSnapshot (name : string) (v : VolumeSnapshot) : snap (result ()) :=
  match vsn_Status v with
  | None => fail nil_dereference
  | Some st =>
      match vss_RestoreSize st with
      | None => fail (Errorf "restore size is not available yet" [])
      | Some size =>
          let j := uploadJob p name in
          match SetControllerReference owner (bj_meta j) with
          | Err e => fail e
          | Ok m =>
              ensureUploadResources owner (with_job_meta j m)
                (mkSnapshotClaim (meta_of_name (meta_Namespace owner) (name +:+ "-upload")) ["ReadWriteOnce"] size
                   (Some (default "" (head (split_char "/" (vsn_APIVersion v))), vsn_Kind v, vsn_Name v)))
          end
      end
  end.
Definition GetSnapshotStatus (name : string) : snap (result SnapshotStatus) := uploadJobStatusForDesired owner (uploadJob p name).
Definition GetSnapshotDeletionStatus (s : SnapshotJob) : snap (result SnapshotStatus) :=
  let exporter := snapshotJobExporter s (provider_exporter p) in
  if negb (sj_RequireDestinationIdentity s) || ((sj_Exporter s != "") && (sj_Exporter s != provider_exporter p))
  then reconcileSnapshotDeletionJob owner s exporter
  else match snapshotDeletionJob (sj_Name s) (sj_Upload s) true with
       | Err e => fail e
       | Ok desired => reconcileSnapshotDeletionJobForDesired owner s exporter desired
       end.
(** [cleanUp]: by name only. *)
Definition CleanupSnapshot (name : string) : snap (result ()) :=
  ignore_not_found (ask (JobDelete (meta_Namespace owner) (name +:+ "-upload") None)) ;?
  ignore_not_found (ask (ClaimDelete (meta_Namespace owner) (name +:+ "-upload") None)).
Definition ensureSnapshotDeletion (name : string) (upload : option SnapshotJobIdentity) (bounded : bool) : snap (result BatchJob) :=
  match snapshotDeletionJob name upload bounded with
  | Err e => fail e
  | Ok desired =>
      if bounded then ensureSnapshotDeletionJobForDesired owner desired
      else r ←? ensureSnapshotJob owner desired typeDelete; ok r.1
  end.
Definition deleteSnapshot (name : string) (bounded : bool) : snap (result SnapshotStatus) :=
  j ←? ensureSnapshotDeletion name None bounded;
  CleanupSnapshot name ;?
  ok (snapshotJobStatus j).
Definition DeleteSnapshot (name : string) : snap (result SnapshotStatus) := deleteSnapshot name false.
Definition DeleteSnapshotBounded (name : string) : snap (result SnapshotStatus) := deleteSnapshot name true.
Definition provider_DeleteSnapshotForUpload (upload : SnapshotJob) : snap (result (SnapshotJob * SnapshotStatus)) :=
  if sj_Purpose upload != typeUpload then fail (purpose_mismatch upload typeUpload) else
  let identity := mkIdentity (sj_UID upload) "" (sj_Terminating upload) in
  r ←? getSnapshotUploadResources owner (sj_Name upload) identity (provider_exporter p);
  j ←? ensureSnapshotDeletion (sj_Name upload) (Some (with_claim identity r.2)) false;
  let deletion := snapshotJobFromJob j in
  status ←? reconcileSnapshotDeletionJob owner deletion (provider_exporter p);
  ok (deletion, status).
Definition CleanupSnapshotDeletion (s : SnapshotJob) : snap (result ()) :=
  cleanupSnapshotDeletionResources owner s (snapshotJobExporter s (provider_exporter p)).
Definition ListSnapshots : snap (result (list SnapshotJob)) := listSnapshotJobs owner [provider_exporter p; destinationLabel p].
End provider.
