(* ===== verification/SnapshotExports.v ===== *)
(** * Exports of snapshots ([internal/controllers/chainnode/snapshot_exports.go])

    The status of a node records each tarball that was uploaded: where it is, what
    phase it is in and how often its removal was tried.  Every change reads the node
    anew, changes one record, and writes the status, again after a conflict. *)

From S2P Require Import Prelude GoLib GoText IO ThirdParty ApiTypes ApiEquality KubeApi Getters NodeFinalize Deploy.
From S2P Require Import SnapshotApi SnapshotJobs SnapshotProviders.

(** ** Constants ([constant.go]) *)

Definition tarballUploaded : string := "uploaded".
Definition tarballFinished : string := "finished".
Definition tarballFailed : string := "failed".
Definition tarballExportMaxAttempts : Z := 3.
Definition tarballDeleteMaxAttempts : Z := 3.
(** A minute in nanoseconds. *)
Definition tarballDeleteRetryBaseDelay : Z := 60000000000.
Definition AnnotationSnapshotExportCleanupAcknowledgement : string := "cosmopilot.voluzi.com/acknowledge-snapshot-export-cleanup".
Definition ConditionSnapshotExportCleanup : string := "SnapshotExportCleanup".
Definition ReasonTarballCleanupRequired : string := "TarballCleanupRequired".
Definition ReasonTarballDeleteAttemptsExhausted : string := "TarballDeleteAttemptsExhausted".

Definition provider_string (p : SnapshotExportProvider) : string :=
  match p with
  | SnapshotExportProviderS3 => "s3" | SnapshotExportProviderGCS => "gcs" | SnapshotExportProviderUnknown => "unknown"
  | SnapshotExportProviderOther s => s
  end.
Definition phase_string (p : SnapshotExportPhase) : string :=
  match p with
  | SnapshotExportPhaseUploading => "Uploading" | SnapshotExportPhaseUploaded => "Uploaded" | SnapshotExportPhaseDeleting => "Deleting"
  | SnapshotExportPhaseCleanupRequired => "CleanupRequired" | SnapshotExportPhaseDeleted => "Deleted"
  | SnapshotExportPhaseAcknowledged => "Acknowledged" | SnapshotExportPhaseOther s => s
  end.

(** ** Records *)

Definition sn_Snapshots (n : SnapNode) : option VolumeSnapshotsConfig := persistence (sn_Node n) ≫= pe_Snapshots.
Definition sn_Export (n : SnapNode) : option ExportTarballConfig := sn_Snapshots n ≫= vs_ExportTarball.
Definition sn_ChainID (n : SnapNode) : string := nst_ChainID (cn_Status (sn_Node n)).
Definition sn_meta (n : SnapNode) : ObjectMeta := cn_meta (sn_Node n).

(** Called with an export configured only; without one the code panics. *)
Definition getTarballName (n : SnapNode) (v : VolumeSnapshot) : string :=
  let name := sn_ChainID n +:+ "-" +:+ FormatCompact (vsn_created v) in
  match sn_Export n ≫= et_Suffix with Some suffix => name +:+ "-" +:+ suffix | None => name end.

Definition s3_destination (s : S3ExportConfig) : SnapshotExportDestination :=
  mkDestination SnapshotExportProviderS3 (s3_Bucket s) (s3_Region s) (s3_GetEndpoint (Some s)) (s3_ShouldForcePathStyle (Some s))
    (name ← s3_CredentialsSecret s; Some (mkSecretKeySelector name "")) (default "" (s3_ServiceAccountName s)).
Definition gcs_destination (g : GcsExportConfig) : SnapshotExportDestination :=
  mkDestination SnapshotExportProviderGCS (ge_Bucket g) "" "" false (ge_CredentialsSecret g) (default "" (ge_ServiceAccountName g)).
Definition export_id (n : SnapNode) (v : VolumeSnapshot) (rest : list string) : string :=
  "export-" +:+ short_digest ([meta_UID (sn_meta n); vsn_Name v; vsn_UID v] ++ rest).
Definition newSnapshotExportStatus (n : SnapNode) (v : VolumeSnapshot) : result SnapshotExportStatus :=
  match sn_Export n with
  | None => Err (Errorf "snapshot tarball export is not configured" [])
  | Some cfg =>
      let name := getTarballName n v in
      let status d size part chunk buffer jobs :=
        mkExportStatus (export_id n v [name; provider_string (sd_Provider d); sd_Bucket d; sd_Endpoint d]) (vsn_Name v) (vsn_UID v) name d
          SnapshotExportPhaseUploading "" (GetCompression (Some cfg)) size part chunk buffer jobs (DeleteWhenExpired (Some cfg)) 0 false "" None in
      match et_S3 cfg, et_GCS cfg with
      | Some s, _ => Ok (status (s3_destination s) (s3_GetSizeLimit (Some s)) (s3_GetPartSize (Some s)) (s3_GetChunkSize (Some s))
                           (s3_GetBufferSize (Some s)) (s3_GetConcurrentJobs (Some s)))
      | None, Some g => Ok (status (gcs_destination g) (gcs_GetSizeLimit (Some g)) (gcs_GetPartSize (Some g)) (gcs_GetChunkSize (Some g))
                              (gcs_GetBufferSize (Some g)) (gcs_GetConcurrentJobs (Some g)))
      | None, None => Err (Errorf "no upload target defined" [])
      end
  end.

Definition export_of (v : VolumeSnapshot) (e : SnapshotExportStatus) : bool :=
  (se_SnapshotName e == vsn_Name v) && ((se_SnapshotUID e == "") || (vsn_UID v == "") || (se_SnapshotUID e == vsn_UID v)).
Definition snapshotExportFor (n : SnapNode) (v : VolumeSnapshot) : option SnapshotExportStatus := find (export_of v) (exports n).
Definition tarballNameForSnapshot (n : SnapNode) (v : VolumeSnapshot) : string :=
  match snapshotExportFor n v with Some e => se_ObjectName e | None => getTarballName n v end.
Definition snapshotExportUploading (n : SnapNode) (v : VolumeSnapshot) : bool :=
  match snapshotExportFor n v with
  | Some e => (se_Phase e == SnapshotExportPhaseUploading) && (sd_Provider (se_Destination e) != SnapshotExportProviderUnknown)
  | None => false
  end.
Definition snapshotExportCleanupAcknowledged (n : SnapNode) (v : VolumeSnapshot) : bool :=
  match snapshotExportFor n v with Some e => se_Phase e == SnapshotExportPhaseAcknowledged | None => false end.
Definition snapshotExportByObjectName (n : SnapNode) (name : string) : option SnapshotExportStatus :=
  find (λ e, se_ObjectName e == name) (exports n).

Definition snapshotExportPhaseTransitionAllowed (from to : SnapshotExportPhase) : bool :=
  match from with
  | SnapshotExportPhaseUploading =>
      (to == SnapshotExportPhaseUploaded) || (to == SnapshotExportPhaseDeleting) || (to == SnapshotExportPhaseCleanupRequired) ||
      (to == SnapshotExportPhaseDeleted)
  | SnapshotExportPhaseUploaded =>
      (to == SnapshotExportPhaseDeleting) || (to == SnapshotExportPhaseCleanupRequired) || (to == SnapshotExportPhaseDeleted)
  | SnapshotExportPhaseDeleting => (to == SnapshotExportPhaseCleanupRequired) || (to == SnapshotExportPhaseDeleted)
  | SnapshotExportPhaseCleanupRequired =>
      (to == SnapshotExportPhaseDeleting) || (to == SnapshotExportPhaseDeleted) || (to == SnapshotExportPhaseAcknowledged)
  | _ => false
  end.
(** The shift counts an [int32], the product is a [time.Duration]. *)
Definition snapshotDeleteRetryDelay (attempt : Z) : Z :=
  if (attempt <=? 1)%Z then tarballDeleteRetryBaseDelay
  else wrap 64 (tarballDeleteRetryBaseDelay * wrap 64 (Z.shiftl 1 (attempt - 1))).
Definition snapshotExportDeleteTerminal (e : SnapshotExportStatus) : bool := se_DeleteExhausted e.
Definition snapshotExportPreAttemptCleanup (e : option SnapshotExportStatus) : bool :=
  match e with
  | Some e => (se_Phase e == SnapshotExportPhaseCleanupRequired) && (se_DeleteAttempts e =? 0)%Z && negb (se_DeleteExhausted e)
  | None => false
  end.

Definition describeSnapshotExport (e : SnapshotExportStatus) : string :=
  let d := se_Destination e in
  let s := Sprintf "%s bucket %q object %q" [AStr (provider_string (sd_Provider d)); AStr (sd_Bucket d); AStr (se_ObjectName e)] in
  if sd_Endpoint d != "" then s +:+ " at " +:+ sd_Endpoint d else s.
Definition terminalSnapshotExportDeleteMessage (e : SnapshotExportStatus) : string :=
  Sprintf "automatic deletion of %s failed after %d attempts: %s; retries are exhausted, or acknowledge cleanup with annotation %q=%q"
    [AStr (describeSnapshotExport e); AInt (se_DeleteAttempts e); AStr (se_LastDeleteError e);
     AStr AnnotationSnapshotExportCleanupAcknowledgement; AStr (se_ID e)].

(** ** Changes of one record

    A change answers whether it changed anything. *)

(** The fields the life of a record changes. *)
Definition with_life (e : SnapshotExportStatus) (phase : SnapshotExportPhase) (message : string) (attempts : Z) (exhausted : bool)
    (lastError : string) (next : option Z) : SnapshotExportStatus :=
  mkExportStatus (se_ID e) (se_SnapshotName e) (se_SnapshotUID e) (se_ObjectName e) (se_Destination e) phase message (se_Compression e)
    (se_SizeLimit e) (se_PartSize e) (se_ChunkSize e) (se_BufferSize e) (se_ConcurrentJobs e) (se_DeleteOnExpire e) attempts exhausted lastError next.
Definition with_phase (e : SnapshotExportStatus) (phase : SnapshotExportPhase) (message : string) : SnapshotExportStatus :=
  with_life e phase message (se_DeleteAttempts e) (se_DeleteExhausted e) (se_LastDeleteError e) (se_NextDeleteRetryAt e).
Abbreviation change := (result (bool * SnapshotExportStatus)).

Definition set_phase (phase : SnapshotExportPhase) (message : string) (e : SnapshotExportStatus) : change :=
  if (se_Phase e == phase) && (se_Message e == message) then Ok (false, e)
  else if (se_Phase e != phase) && negb (snapshotExportPhaseTransitionAllowed (se_Phase e) phase) then
    Err (Errorf "snapshot export %q cannot transition from %q to %q"
           [AStr (se_ID e); AStr (phase_string (se_Phase e)); AStr (phase_string phase)])
  else Ok (true, with_phase e phase message).
(** [export.DeleteAttempts++] on an [int32]. *)
Definition start_attempt (expectedAttempts now : Z) (e : SnapshotExportStatus) : change :=
  if negb (se_DeleteAttempts e =? expectedAttempts)%Z then Ok (false, e)
  else if snapshotExportDeleteTerminal e || (tarballDeleteMaxAttempts <=? se_DeleteAttempts e)%Z then Ok (false, e)
  else if (0 <? se_DeleteAttempts e)%Z && negb (is_some (se_NextDeleteRetryAt e)) then Ok (false, e)
  else if match se_NextDeleteRetryAt e with Some at_ => (now <? at_)%Z | None => false end then Ok (false, e)
  else if (se_Phase e != SnapshotExportPhaseDeleting) && negb (snapshotExportPhaseTransitionAllowed (se_Phase e) SnapshotExportPhaseDeleting) then
    Err (Errorf "snapshot export %q cannot start deletion from phase %q" [AStr (se_ID e); AStr (phase_string (se_Phase e))])
  else Ok (true, with_life e SnapshotExportPhaseDeleting "" (wrap 32 (se_DeleteAttempts e + 1)) (se_DeleteExhausted e) (se_LastDeleteError e) None).
Definition resume_attempt (e : SnapshotExportStatus) : change :=
  if (se_Phase e != SnapshotExportPhaseCleanupRequired) || (se_DeleteAttempts e =? 0)%Z || snapshotExportDeleteTerminal e then Ok (false, e)
  else Ok (true, with_phase e SnapshotExportPhaseDeleting "").
(** Also whether the attempts are exhausted. *)
Definition record_failure (failure : string) (now : Z) (e : SnapshotExportStatus) : bool * bool * SnapshotExportStatus :=
  if snapshotExportDeleteTerminal e then (false, true, e)
  else if is_some (se_NextDeleteRetryAt e) then (false, false, e)
  else
    let attempts := if (se_DeleteAttempts e =? 0)%Z then 1%Z else se_DeleteAttempts e in
    if (tarballDeleteMaxAttempts <=? attempts)%Z then
      let e := with_life e SnapshotExportPhaseCleanupRequired (se_Message e) attempts true failure None in
      (true, true, with_phase e SnapshotExportPhaseCleanupRequired (terminalSnapshotExportDeleteMessage e))
    else
      let retryAt := (now + snapshotDeleteRetryDelay attempts)%Z in
      (true, false,
       with_life e SnapshotExportPhaseDeleting
         (Sprintf "delete attempt %d failed; retry after %s" [AInt attempts; AStr (FormatRFC3339 retryAt)])
         attempts (se_DeleteExhausted e) failure (Some retryAt)).
Definition acknowledge (requested : gset string) (e : SnapshotExportStatus) : SnapshotExportStatus :=
  if bool_decide (se_ID e ∈ requested) && (se_Phase e == SnapshotExportPhaseCleanupRequired)
  then with_phase e SnapshotExportPhaseAcknowledged "cleanup explicitly acknowledged by operator without deletion proof" else e.

(** A change of the first record with an identifier. *)
Fixpoint change_export (id : string) (f : SnapshotExportStatus → change) (l : list SnapshotExportStatus) : result (bool * list SnapshotExportStatus) :=
  match l with
  | [] => Ok (false, [])
  | e :: l => if se_ID e != id then r ← change_export id f l; Ok (r.1, e :: r.2)
              else r ← f e; Ok (r.1, r.2 :: l)
  end.

(** Which records outlive their snapshot. *)
Definition export_retained (snapshots : list VolumeSnapshot) (e : SnapshotExportStatus) : bool :=
  existsb (λ v, (vsn_Name v == se_SnapshotName e) && ((se_SnapshotUID e == "") || (vsn_UID v == se_SnapshotUID e))) snapshots ||
  (se_DeleteOnExpire e && negb ((se_Phase e == SnapshotExportPhaseDeleted) || (se_Phase e == SnapshotExportPhaseAcknowledged))).

(** ** The condition of the node *)

Section condition.
Context `{ConditionApi}.
Definition cleanup_condition (n : SnapNode) (pending : list SnapshotExportStatus) (primary : SnapshotExportStatus) : Condition :=
  mkCondition ConditionSnapshotExportCleanup "True" (sn_Generation n) 0
    (if snapshotExportDeleteTerminal primary then ReasonTarballDeleteAttemptsExhausted else ReasonTarballCleanupRequired)
    (if (1 <? length pending)%nat
     then Sprintf "%d snapshot exports require operator cleanup; first: %s" [AInt (Z.of_nat (length pending)); AStr (se_Message primary)]
     else se_Message primary).
Definition syncSnapshotExportCleanupCondition (now : Z) (n : SnapNode) : SnapNode :=
  match filter (λ e, (se_Phase e == SnapshotExportPhaseCleanupRequired) = true) (exports n) with
  | [] => with_conditions n (RemoveStatusCondition (sn_Conditions n) ConditionSnapshotExportCleanup)
  | e :: l =>
      let primary := default e (find snapshotExportDeleteTerminal (e :: l)) in
      with_conditions n (SetStatusCondition now (sn_Conditions n) (cleanup_condition n (e :: l) primary))
  end.

(** Where the first condition of the type was, or at the end. *)
Fixpoint replace_condition (c : option Condition) (l : list Condition) : list Condition :=
  match l with
  | [] => match c with Some c => [c] | None => [] end
  | x :: l => if cond_Type x != ConditionSnapshotExportCleanup then x :: replace_condition c l
              else match c with
                   | Some c => c :: filter (λ y, (cond_Type y != ConditionSnapshotExportCleanup) = true) l
                   | None => replace_condition None l
                   end
  end.
Definition mergeSnapshotExportOwnedStatus (n latest : SnapNode) : SnapNode :=
  with_conditions (with_exports n (exports latest))
    (replace_condition (FindStatusCondition (sn_Conditions latest) ConditionSnapshotExportCleanup) (sn_Conditions n)).

#[local] Instance OwnerReference_eq : EqDecision OwnerReference.
Proof. solve_decision. Defined.
#[local] Instance ObjectMeta_eq : EqDecision ObjectMeta.
Proof. solve_decision. Defined.
(** Without the resource version; nil and empty maps are the same. *)
Definition comparable_meta (m : ObjectMeta) : ObjectMeta :=
  mkMeta (meta_Name m) (meta_Namespace m) (meta_UID m) (meta_Labels m) (Some (default ∅ (meta_Annotations m))) (meta_OwnerReferences m)
    (meta_Finalizers m) (meta_DeletionTimestamp m) (meta_CreationTimestamp m) "".
Definition with_version (n : SnapNode) (version : string) : SnapNode :=
  let m := sn_meta n in
  mkSnapNode (with_cn_meta (sn_Node n)
    (mkMeta (meta_Name m) (meta_Namespace m) (meta_UID m) (meta_Labels m) (meta_Annotations m) (meta_OwnerReferences m)
       (meta_Finalizers m) (meta_DeletionTimestamp m) (meta_CreationTimestamp m) version)) (sn_Generation n) (sn_Conditions n).
Definition refreshSnapshotExportResourceVersion (n latest : SnapNode) : SnapNode :=
  if (comparable_meta (sn_meta n) == comparable_meta (sn_meta latest)) && (sn_Generation n =? sn_Generation latest)%Z &&
     (cn_Spec (sn_Node n) == cn_Spec (sn_Node latest))
  then with_version n (meta_ResourceVersion (sn_meta latest)) else n.
End condition.

(** ** Changes of the status

    [rc_Client] and [rc_ClientSet] say whether the reconciler was made with these
    clients, which only tests leave out. *)

Record SnapReconciler := mkSnapReconciler {
  rc_Client : bool;
  rc_ClientSet : bool;
  rc_priorityClass : string;
  rc_dataExporterImage : string;
}.
Definition errSnapshotExportStatusUnavailable : string := "snapshot export status client is unavailable".

Section routines.
Context `{MetaApi} `{ApplyApi} `{ConditionApi} `{SnapRetryApi}.
Variable rc : SnapReconciler.
(** The text of the server's refusals. *)
Variable reason_text : api_reason → string.

(** The node the caller goes on with, whether the status was written, and what the change says besides. *)
Definition mutate_once {X} (n : SnapNode) (mutate : SnapNode → result (bool * X * SnapNode)) : snap (result (bool * X * SnapNode)) :=
  fresh ←? ask (NodeGet (meta_Namespace (sn_meta n)) (meta_Name (sn_meta n)));
  match mutate fresh with
  | Err e => fail e
  | Ok (mutated, x, fresh) =>
      now ← ask TimeNow;
      let synced := syncSnapshotExportCleanupCondition now fresh in
      if negb mutated && (sn_Conditions synced == sn_Conditions fresh) then ok (false, x, synced)
      else latest ←? ask (NodeUpdateStatus synced); ok (true, x, latest)
  end.
Definition mutateSnapshotExportStatus {X} (n : SnapNode) (mutate : SnapNode → result (bool * X * SnapNode)) : snap (result (bool * X * SnapNode)) :=
  if negb (rc_Client rc) then fail (Sentinel errSnapshotExportStatusUnavailable) else
  r ←? snap_retry (mutate_once n mutate);
  let '(changed, x, latest) := r in
  ok (changed, x, refreshSnapshotExportResourceVersion (mergeSnapshotExportOwnedStatus n latest) latest).

(** A change of the record with an identifier, on the node read anew. *)
Definition mutate_export (id : string) (f : SnapshotExportStatus → change) (fresh : SnapNode) : result (bool * () * SnapNode) :=
  r ← change_export id f (exports fresh); Ok (r.1, (), with_exports fresh r.2).
Definition changing (n : SnapNode) (id : string) (f : SnapshotExportStatus → change) : snap (result (bool * SnapNode)) :=
  r ←? mutateSnapshotExportStatus n (mutate_export id f); ok (r.1.1, r.2).

Definition setSnapshotExportPhase (n : SnapNode) (id : string) (phase : SnapshotExportPhase) (message : string) : snap (result (bool * SnapNode)) :=
  changing n id (set_phase phase message).
Definition startSnapshotExportDeleteAttempt (n : SnapNode) (id : string) (expectedAttempts now : Z) : snap (result (bool * SnapNode)) :=
  changing n id (start_attempt expectedAttempts now).
Definition resumeSnapshotExportDeleteAttempt (n : SnapNode) (id : string) : snap (result (bool * SnapNode)) := changing n id resume_attempt.
(** The first record with the identifier decides whether the attempts are exhausted. *)
Definition recordSnapshotExportDeleteFailure (n : SnapNode) (id failure : string) (now : Z) : snap (result (bool * bool * SnapNode)) :=
  mutateSnapshotExportStatus n (λ fresh,
    r ← change_export id (λ e, Ok (let '(changed, _, e) := record_failure failure now e in (changed, e))) (exports fresh);
    let terminal := match find (λ e, se_ID e == id) (exports fresh) with Some e => (record_failure failure now e).1.2 | None => false end in
    Ok (r.1, terminal, with_exports fresh r.2)).

Definition add_missing (v : VolumeSnapshot) (new : SnapNode → result SnapshotExportStatus) (fresh : SnapNode) : result (bool * () * SnapNode) :=
  match snapshotExportFor fresh v with
  | Some _ => Ok (false, (), fresh)
  | None => e ← new fresh; Ok (true, (), with_exports fresh (exports fresh ++ [e]))
  end.
Definition ensureSnapshotExportStatus (n : SnapNode) (v : VolumeSnapshot) : snap (result (SnapNode * SnapshotExportStatus)) :=
  match snapshotExportFor n v with
  | Some e => ok (n, e)
  | None =>
      r ←? mutateSnapshotExportStatus n (add_missing v (λ fresh, newSnapshotExportStatus fresh v));
      match snapshotExportFor r.2 v with
      | Some e => ok (r.2, e)
      | None => fail (Errorf "snapshot export status was not persisted" [])
      end
  end.

Definition unknown_destination : SnapshotExportDestination := mkDestination SnapshotExportProviderUnknown "" "" "" false None "".
Definition unknown_export (n : SnapNode) (v : VolumeSnapshot) : SnapshotExportStatus :=
  let deleteOnExpire := match sn_Export n with Some cfg => DeleteWhenExpired (Some cfg) | None => true end in
  let id := export_id n v ["unknown"] in
  mkExportStatus id (vsn_Name v) (vsn_UID v) "" unknown_destination SnapshotExportPhaseCleanupRequired
    (Sprintf "snapshot export %s has no controller-owned object name or upload destination; identify and clean up the original object, then acknowledge with annotation %q=%q"
       [AStr id; AStr AnnotationSnapshotExportCleanupAcknowledgement; AStr id])
    "" "" "" "" "" 0 deleteOnExpire 0 false "" None.
(** What the record is afterwards may still be missing. *)
Definition ensureUnknownSnapshotExportStatus (n : SnapNode) (v : VolumeSnapshot) : snap (result (SnapNode * option SnapshotExportStatus)) :=
  match snapshotExportFor n v with
  | Some e => ok (n, Some e)
  | None => r ←? mutateSnapshotExportStatus n (add_missing v (λ _, Ok (unknown_export n v))); ok (r.2, snapshotExportFor r.2 v)
  end.

(** Keeps the records that satisfy [keep]. *)
Definition keeping (keep : SnapshotExportStatus → bool) (fresh : SnapNode) : result (bool * () * SnapNode) :=
  let kept := filter (λ e, keep e = true) (exports fresh) in
  if (length kept =? length (exports fresh))%nat then Ok (false, (), fresh) else Ok (true, (), with_exports fresh kept).
Definition pruneRetainedSnapshotExports (n : SnapNode) (snapshots : list VolumeSnapshot) : snap (result SnapNode) :=
  r ←? mutateSnapshotExportStatus n (keeping (export_retained snapshots)); ok r.2.
Definition removeSnapshotExport (n : SnapNode) (id : string) : snap (result SnapNode) :=
  r ←? mutateSnapshotExportStatus n (keeping (λ e, se_ID e != id)); ok r.2.
(** A snapshot that a finalizer still holds keeps its record. *)
Definition removeRetainedSnapshotExportIfGone (n : SnapNode) (v : VolumeSnapshot) (id : string) : snap (result SnapNode) :=
  r ← ask (SnapshotGet (vsn_Namespace v) (vsn_Name v));
  match r with
  | Ok current => if vsn_UID current == vsn_UID v then ok n else removeSnapshotExport n id
  | Err e => if IsNotFound e then removeSnapshotExport n id else fail e
  end.

Definition requireSnapshotExportCleanup (n : SnapNode) (id message : string) : snap (result SnapNode) :=
  r ←? setSnapshotExportPhase n id SnapshotExportPhaseCleanupRequired message; ok r.2.

(** *** The provider of a record *)

Definition when_set (s : string) : option string := if s != "" then Some s else None.
Definition exportConfigForStatus (e : SnapshotExportStatus) : result ExportTarballConfig :=
  let d := se_Destination e in
  let jobs := if (0 <? se_ConcurrentJobs e)%Z then Some (se_ConcurrentJobs e) else None in
  match sd_Provider d with
  | SnapshotExportProviderS3 =>
      Ok (mkExportTarball None None (Some (se_Compression e)) None
            (Some (mkS3Export (sd_Bucket d) (sd_Region d) (when_set (sd_Endpoint d)) (Some (sd_ForcePathStyle d))
                     (sel_Name <$> sd_CredentialsSecret d) (when_set (sd_ServiceAccountName d)) (when_set (se_SizeLimit e))
                     (when_set (se_PartSize e)) (when_set (se_ChunkSize e)) (when_set (se_BufferSize e)) jobs)))
  | SnapshotExportProviderGCS =>
      Ok (mkExportTarball None None (Some (se_Compression e))
            (Some (mkGcsExport (sd_Bucket d) (sd_CredentialsSecret d) (when_set (sd_ServiceAccountName d)) (when_set (se_SizeLimit e))
                     (when_set (se_PartSize e)) (when_set (se_ChunkSize e)) (when_set (se_BufferSize e)) jobs)) None)
  | p => Err (Errorf "snapshot export %q has unknown provider %q" [AStr (se_ID e); AStr (provider_string p)])
  end.
Definition tarballProviderForConfig (n : SnapNode) (cfg : ExportTarballConfig) : result SnapshotProvider :=
  let secrets := match ns_Config (cn_Spec (sn_Node n)) with Some c => cf_ImagePullSecrets c | None => [] end in
  let env := mkProviderEnv (sn_meta n) (rc_priorityClass rc) (rc_dataExporterImage rc) secrets in
  match et_GCS cfg, et_S3 cfg with
  | Some g, _ => Ok (GCS env g cfg)
  | None, Some s => Ok (S3 env s cfg)
  | None, None => Err (Errorf "no upload target defined" [])
  end.
Definition tarballProviderForExport (n : SnapNode) (e : SnapshotExportStatus) : result SnapshotProvider :=
  cfg ← exportConfigForStatus e; tarballProviderForConfig n cfg.
Definition getTarballExportProvider (n : SnapNode) : result SnapshotProvider :=
  match sn_Export n with
  | None => Err (Errorf "no upload target defined" [])
  | Some cfg => tarballProviderForConfig n cfg
  end.

(** *** The references of a record *)

Definition missing_reference (e : SnapshotExportStatus) (what : string) (names : list fmt_arg) : string :=
  Sprintf (("snapshot export %s requires cleanup of %s, but " +:+ what) +:+ "; restore it or acknowledge cleanup with annotation %q=%q")
    ([AStr (se_ID e); AStr (describeSnapshotExport e)] ++ names ++ [AStr AnnotationSnapshotExportCleanupAcknowledgement; AStr (se_ID e)]).
Definition required_keys (e : SnapshotExportStatus) (ref : SecretKeySelector) : list string :=
  match sd_Provider (se_Destination e) with
  | SnapshotExportProviderGCS => if sel_Key ref != "" then [sel_Key ref] else []
  | SnapshotExportProviderS3 => ["AWS_ACCESS_KEY_ID"; "AWS_SECRET_ACCESS_KEY"]
  | _ => []
  end.
(** The message of a [snapshotExportReferenceUnavailableError], or nothing when every reference is there. *)
Definition validateSnapshotExportReferences (n : SnapNode) (e : SnapshotExportStatus) : snap (result (option string)) :=
  if negb (rc_ClientSet rc) then fail (Errorf "snapshot export Kubernetes client is unavailable" []) else
  let ns := meta_Namespace (sn_meta n) in
  bad ←? (match sd_CredentialsSecret (se_Destination e) with
          | None => ok None
          | Some ref =>
              r ← ask (SecretGet ns (sel_Name ref));
              match r with
              | Err e2 => if IsNotFound e2 then ok (Some (missing_reference e "credentials Secret %q is unavailable" [AStr (sel_Name ref)]))
                           else fail (Wrapf e2 "get snapshot export credentials Secret %q: %w" [AStr (sel_Name ref)])
              | Ok secret =>
                  match find (λ k, default "" (secret_Data secret !! k) == "") (required_keys e ref) with
                  | Some k => ok (Some (missing_reference e "credentials Secret %q does not contain key %q" [AStr (sel_Name ref); AStr k]))
                  | None => ok None
                  end
              end
          end);
  match bad with
  | Some m => ok (Some m)
  | None =>
      let account := sd_ServiceAccountName (se_Destination e) in
      if account == "" then ok None else
      r ← ask (AccountGet ns account);
      match r with
      | Ok _ => ok None
      | Err e2 => if IsNotFound e2 then ok (Some (missing_reference e "ServiceAccount %q is unavailable" [AStr account]))
                   else fail (Wrapf e2 "get snapshot export ServiceAccount %q: %w" [AStr account])
      end
  end.
Definition snapshotExportReferencesAvailable (n : SnapNode) (e : SnapshotExportStatus) : snap (result (bool * SnapNode)) :=
  bad ←? validateSnapshotExportReferences n e;
  match bad with
  | None => ok (true, n)
  | Some m => n ←? requireSnapshotExportCleanup n (se_ID e) m; ok (false, n)
  end.

(** *** Acknowledgements *)

Definition acknowledged_ids (n : SnapNode) : list string :=
  filter (λ id, id ≠ "") (map TrimSpace (split_char "," (annotation (sn_meta n) AnnotationSnapshotExportCleanupAcknowledgement))).
Definition acknowledgedSnapshotExportIDs (n : SnapNode) : gset string := list_to_set (acknowledged_ids n).
Definition with_node_meta (n : SnapNode) (m : ObjectMeta) : SnapNode := mkSnapNode (with_cn_meta (sn_Node n) m) (sn_Generation n) (sn_Conditions n).
Definition without_acknowledgements (ids : gset string) (n : SnapNode) : SnapNode :=
  let remaining := filter (λ id, id ∉ ids) (acknowledged_ids n) in
  let a := default ∅ (meta_Annotations (sn_meta n)) in
  with_node_meta n (with_annotations (sn_meta n)
    (Some (match remaining with [] => delete AnnotationSnapshotExportCleanupAcknowledgement a
           | _ => <[AnnotationSnapshotExportCleanupAcknowledgement := strings_Join remaining ","]> a end))).
(** The node of the caller keeps its annotations. *)
Definition removeSnapshotExportAcknowledgementIDs (n : SnapNode) (ids : gset string) : snap (result ()) :=
  if decide (ids = ∅) then ok ()
  else if negb (rc_Client rc) then fail (Sentinel errSnapshotExportStatusUnavailable) else
  snap_retry (
    fresh ←? ask (NodeGet (meta_Namespace (sn_meta n)) (meta_Name (sn_meta n)));
    if (length (filter (λ id, id ∉ ids) (acknowledged_ids fresh)) =? size (acknowledgedSnapshotExportIDs fresh))%nat then ok ()
    else ask (NodePatch fresh (without_acknowledgements ids fresh)) ;? ok ()).
Definition acknowledging (fresh : SnapNode) : result (bool * gset string * SnapNode) :=
  let requested := acknowledgedSnapshotExportIDs fresh in
  let acknowledged := map (acknowledge requested) (exports fresh) in
  Ok (existsb (λ e, bool_decide (se_ID e ∈ requested) && (se_Phase e == SnapshotExportPhaseCleanupRequired)) (exports fresh),
      requested, with_exports fresh acknowledged).
Definition reconcileSnapshotExportAcknowledgements (n : SnapNode) : snap (result SnapNode) :=
  if decide (acknowledgedSnapshotExportIDs n = ∅) then ok n else
  r ←? mutateSnapshotExportStatus n acknowledging;
  removeSnapshotExportAcknowledgementIDs r.2 r.1.2 ;?
  ok r.2.

(** The finished deletion of a record, by the name of its object. *)
Definition deletion_of (e : SnapshotExportStatus) (bound : bool) : SnapshotJob :=
  mkSnapshotJob (se_ObjectName e) "" typeDelete false None None "" "" bound.
Definition clean_deletion (n : SnapNode) (e : SnapshotExportStatus) : snap (result ()) :=
  match tarballProviderForExport n e with
  | Err e2 => fail e2
  | Ok p => CleanupSnapshotDeletion p (deletion_of e false)
  end.
(** From the last record to the first of those there at the start.  The code indexes the records anew in every round;
    a record appears at an index only by the removal of one before it. *)
Definition complete_acknowledged (n : SnapNode) (i : nat) : snap (result SnapNode) :=
  match exports n !! i with
  | None => fail (Sentinel "index out of range")
  | Some e =>
      if se_Phase e != SnapshotExportPhaseAcknowledged then ok n else
      (if sd_Provider (se_Destination e) != SnapshotExportProviderUnknown then clean_deletion n e else ok ()) ;?
      removeSnapshotExport n (se_ID e)
  end.
Definition completeAcknowledgedSnapshotExports (n : SnapNode) : snap (result SnapNode) :=
  fold_try complete_acknowledged (rev (seq 0 (length (exports n)))) n.
End routines.
