(* ===== verification/Snapshots.v ===== *)
(** * Snapshots of a node ([internal/controllers/chainnode/snapshots.go])

    One pass over the volume snapshots of a node: what a finished snapshot sets off
    (an integrity check, an export), which snapshots are removed and when the next one
    is taken.  The node and a snapshot are carried along as the objects the last write
    answered with; events are left out. *)

From S2P Require Import Prelude GoLib GoText IO ThirdParty ApiTypes KubeApi Getters Labels Upgrades NodeFinalize Deploy SignerRender.
From S2P Require Import SnapshotApi SnapshotJobs SnapshotProviders SnapshotExports.

Definition AnnotationPvcSnapshotInProgress : string := "cosmopilot.voluzi.com/snapshotting-pvc".
Definition AnnotationLastPvcSnapshot : string := "cosmopilot.voluzi.com/last-pvc-snapshot".
Definition AnnotationSnapshotRetention : string := "cosmopilot.voluzi.com/snapshot-retention".
Definition AnnotationPvcSnapshotReady : string := "cosmopilot.voluzi.com/snapshot-ready".
Definition AnnotationExportingTarball : string := "cosmopilot.voluzi.com/exporting-tarball".
Definition AnnotationTarballExportAttempts : string := "cosmopilot.voluzi.com/tarball-export-attempts".
Definition AnnotationTarballDeletionComplete : string := "cosmopilot.voluzi.com/tarball-deletion-complete".
Definition AnnotationTarballDeletionName : string := "cosmopilot.voluzi.com/tarball-deletion-name".
Definition AnnotationSnapshotIntegrityStatus : string := "cosmopilot.voluzi.com/snapshot-integrity-status".
Definition AnnotationDataHeight : string := "cosmopilot.voluzi.com/data-height".
Definition snapshotIntegrityChecking : string := "checking".
Definition snapshotIntegrityOk : string := "ok".
Definition snapshotIntegrityCorrupted : string := "corrupted".
(** A minute in nanoseconds. *)
Definition minimumTimeBeforeFirstSnapshot : Z := 60000000000.
Definition volumeSnapshot : string := "volume-snapshot".

(** ** The state on the node *)

(** [time.Time{}], the first of January of the year 1. *)
Definition zero_time : Z := (-62135596800 * 1000000000)%Z.
Definition node_annotation (n : SnapNode) (k : string) : string := annotation (sn_meta n) k.
Definition annotate_node (n : SnapNode) (k v : string) : SnapNode := with_node_meta n (set_annotation (sn_meta n) k v).
Definition volumeSnapshotInProgress (n : SnapNode) : bool := node_annotation n AnnotationPvcSnapshotInProgress == "true".
Definition setSnapshotInProgress (n : SnapNode) (snapshotting : bool) : SnapNode :=
  annotate_node n AnnotationPvcSnapshotInProgress (if snapshotting then "true" else "false").
Definition setSnapshotTime (n : SnapNode) (t : Z) : SnapNode := annotate_node n AnnotationLastPvcSnapshot (FormatCompact t).
Definition getLastSnapshotTime (n : SnapNode) : Z :=
  match meta_Annotations (sn_meta n) ≫= λ a, a !! AnnotationLastPvcSnapshot with
  | Some s => default zero_time (ParseCompact s)
  | None => zero_time
  end.
Definition nst_with_Phase (r : ChainNodeStatus) (v : ChainNodePhase) : ChainNodeStatus :=
  mkChainNodeStatus v (nst_NodeID r) (nst_IP r) (nst_PublicAddress r) (nst_ChainID r) (nst_PvcSize r) (nst_DataUsage r) (nst_Validator r)
    (nst_AccountAddress r) (nst_ValidatorAddress r) (nst_Jailed r) (nst_GenesisSigningDigest r) (nst_AppVersion r) (nst_LatestHeight r)
    (nst_SeedMode r) (nst_Upgrades r) (nst_PubKey r) (nst_TmKMSReservationIdentity r) (nst_ValidatorStatus r) (nst_Cosmosigner r)
    (nst_SnapshotExports r).
Definition with_node_phase (n : SnapNode) (phase : ChainNodePhase) : SnapNode :=
  mkSnapNode (mkChainNode (cn_meta (sn_Node n)) (cn_Spec (sn_Node n)) (nst_with_Phase (cn_Status (sn_Node n)) phase)) (sn_Generation n) (sn_Conditions n).
Definition node_phase (n : SnapNode) : ChainNodePhase := nst_Phase (cn_Status (sn_Node n)).

(** ** Snapshots *)

Definition isSnapshotReady (v : VolumeSnapshot) : bool := default false (vsn_Status v ≫= vss_ReadyToUse).
Definition hasActiveVolumeSnapshot (l : list VolumeSnapshot) : bool :=
  existsb (λ v, negb (is_some (meta_DeletionTimestamp (vsn_meta v))) && negb (isSnapshotReady v)) l.
(** [Truncate(time.Second)] *)
Definition truncate_second (t : Z) : Z := (t - t mod 1000000000)%Z.
Definition latestReadySnapshotTime (l : list VolumeSnapshot) : Z :=
  foldl (λ latest v, let t := truncate_second (vsn_created v) in
                     if isSnapshotReady v && (latest <? t)%Z then t else latest) zero_time l.
Definition by_creation (l : list VolumeSnapshot) : list VolumeSnapshot := sort_slice (λ a b, (vsn_created a <? vsn_created b)%Z) l.
(** [snapshot.Annotations[key] = value], which panics on a nil map. *)
Definition assign (v : VolumeSnapshot) (k x : string) : result VolumeSnapshot :=
  match meta_Annotations (vsn_meta v) with
  | None => Err (Sentinel "assignment to entry in nil map")
  | Some _ => Ok (annotate v k x)
  end.
Definition assign_and_update (v : VolumeSnapshot) (k x : string) : snap (result VolumeSnapshot) :=
  match assign v k x with Err e => fail e | Ok v => ask (SnapshotUpdate v) end.

Definition tarballDeletionComplete (v : VolumeSnapshot) (name : string) (allowLegacy : bool) : bool :=
  if vsn_annotation v AnnotationTarballDeletionComplete != "true" then false else
  let deleted := vsn_annotation v AnnotationTarballDeletionName in
  (deleted == name) || (allowLegacy && (deleted == "")).
Definition shouldDeleteSnapshotTarballOnExpire (n : SnapNode) (v : VolumeSnapshot) : bool :=
  match snapshotExportFor n v with
  | Some e => se_DeleteOnExpire e
  | None => match sn_Export n with Some cfg => DeleteWhenExpired (Some cfg) | None => false end
  end.

Section times.
Context `{DurationApi}.
Definition isSnapshotExpired (now : Z) (v : VolumeSnapshot) : result bool :=
  match meta_Annotations (vsn_meta v) ≫= λ a, a !! AnnotationSnapshotRetention with
  | None => Ok false
  | Some retention => d ← ParseDuration retention; Ok (vsn_created v + d <? now)%Z
  end.
(** Snapshots are enabled when this is asked. *)
Definition shouldSnapshot (now : Z) (n : SnapNode) (nodePodReady : bool) : bool :=
  let cfg := sn_Snapshots n in
  if ShouldDisableWhileSyncing cfg && (node_phase n == PhaseChainNodeSyncing) then false
  else if ShouldDisableWhileUnhealthy cfg && negb nodePodReady then false
  else if ShouldDisableWhileUnhealthy cfg && (node_phase n != PhaseChainNodeRunning) then false
  else match ParseDuration (match cfg with Some c => vs_Frequency c | None => "" end) with
       | Err _ => false
       | Ok period =>
           let last := getLastSnapshotTime n in
           if (last =? zero_time)%Z then (meta_CreationTimestamp (sn_meta n) + minimumTimeBeforeFirstSnapshot <? now)%Z
           else (last + period <? now)%Z
       end.
End times.

Definition getSnapshotName (now : Z) (n : SnapNode) : string :=
  let labels := meta_Labels (sn_meta n) in
  let group := get_label labels LabelChainNodeSetGroup in
  let nodeset := get_label labels LabelChainNodeSet in
  (if (group != "") && (nodeset != "") then nodeset +:+ "-" +:+ group else meta_Name (sn_meta n)) +:+ "-" +:+ FormatCompact now.
Definition getVolumeSnapshotSpec (now : Z) (n : SnapNode) : VolumeSnapshot :=
  let annotations := <[AnnotationPvcSnapshotReady := "false"]> {[AnnotationDataHeight := FormatInt (nst_LatestHeight (cn_Status (sn_Node n)))]} in
  mkVolumeSnapshot "" ""
    (mkMeta (getSnapshotName now n) (meta_Namespace (sn_meta n)) ""
       (WithChainNodeLabels (sn_Node n) [{[LabelChainNode := meta_Name (sn_meta n)]}])
       (Some (match sn_Snapshots n ≫= vs_Retention with
              | Some retention => <[AnnotationSnapshotRetention := retention]> annotations
              | None => annotations
              end)) [] [] None 0 "")
    (Some (meta_Name (sn_meta n))) (sn_Snapshots n ≫= vs_SnapshotClassName) None.

(** ** Routines *)

Section routines.
Context `{MetaApi} `{ApplyApi} `{ConditionApi} `{SnapRetryApi}.
Variable rc : SnapReconciler.
Variable reason_text : api_reason → string.

Definition listNodeSnapshots (n : SnapNode) : snap (result (list VolumeSnapshot)) :=
  ask (SnapshotList (meta_Namespace (sn_meta n)) {[LabelChainNode := meta_Name (sn_meta n)]}).
(** A provider that cannot be made ends the routine. *)
Definition with_provider {A} (p : result SnapshotProvider) (k : SnapshotProvider → snap (result A)) : snap (result A) :=
  match p with Err e => fail e | Ok p => k p end.

(** *** Taking a snapshot *)

(** The height is read from the pod, and no snapshot is taken when that fails. *)
Definition createSnapshot (n : SnapNode) : snap (result (SnapNode * option VolumeSnapshot)) :=
  (if ShouldStopNode (sn_Snapshots n) then
     ask (PodSpecOf n) ;?
     (r ← ask (PodDelete (meta_Namespace (sn_meta n)) (meta_Name (sn_meta n)));
      match r with
      | Ok _ => ask (PodWaitDeleted (meta_Namespace (sn_meta n)) (meta_Name (sn_meta n)))
      | Err e => if IsNotFound e then ok () else fail e
      end)
   else ok ()) ;?
  (r ← ask (UpdateLatestHeight n);
   match r with
   | Err _ => ok (n, None)
   | Ok n =>
       now ← ask TimeNow;
       v ←? ask (SnapshotCreate (getVolumeSnapshotSpec now n));
       ok (n, Some v)
   end).
Definition updatePhase (n : SnapNode) (phase : ChainNodePhase) : snap (result SnapNode) :=
  if node_phase n == phase then ok n else ask (NodeUpdateStatus (with_node_phase n phase)).
Definition startNewSnapshot (n : SnapNode) : snap (result SnapNode) :=
  r ←? createSnapshot n;
  match r with
  | (n, None) => ok n
  | (n, Some _) =>
      n ←? ask (NodeUpdate (setSnapshotInProgress n true));
      updatePhase n PhaseChainNodeSnapshotting
  end.

(** *** Exporting *)

Definition exportTarball (n : SnapNode) (v : VolumeSnapshot) : snap (result SnapNode) :=
  r ← ensureSnapshotExportStatus rc n v;
  match r with
  | Ok (n, e) => with_provider (tarballProviderForExport rc n e) (λ p, CreateSnapshot p (se_ObjectName e) v ;? ok n)
  | Err e =>
      if errors_is e errSnapshotExportStatusUnavailable
      then with_provider (getTarballExportProvider rc n) (λ p, CreateSnapshot p (getTarballName n v) v ;? ok n)
      else fail e
  end.
(** The export is started and the snapshot marked. *)
Definition start_export (n : SnapNode) (v : VolumeSnapshot) : snap (result (SnapNode * VolumeSnapshot)) :=
  n ←? exportTarball n v;
  v ←? assign_and_update v AnnotationExportingTarball "true";
  ok (n, v).

Definition recordTarballExportFailure (v : VolumeSnapshot) : snap (result (bool * VolumeSnapshot)) :=
  let attempts := match Atoi (vsn_annotation v AnnotationTarballExportAttempts) with
                  | Ok a => if (a <? 0)%Z then 0%Z else a
                  | Err _ => 0%Z
                  end in
  let attempts := wrap 64 (attempts + 1) in
  let v := annotate v AnnotationTarballExportAttempts (FormatInt attempts) in
  let retry := (attempts <? tarballExportMaxAttempts)%Z in
  v ←? ask (SnapshotUpdate (if retry then unannotate v AnnotationExportingTarball else annotate v AnnotationExportingTarball tarballFailed));
  ok (retry, v).
Definition has_annotation (v : VolumeSnapshot) (k : string) : bool := is_some (meta_Annotations (vsn_meta v) ≫= λ a, a !! k).
Definition resetTarballExport (v : VolumeSnapshot) : snap (result VolumeSnapshot) :=
  if negb (has_annotation v AnnotationExportingTarball) && negb (has_annotation v AnnotationTarballExportAttempts) then ok v
  else ask (SnapshotUpdate (unannotate (unannotate v AnnotationExportingTarball) AnnotationTarballExportAttempts)).
Definition cleanUpTarballExport (n : SnapNode) (v : VolumeSnapshot) : snap (result ()) :=
  match snapshotExportFor n v with
  | None => with_provider (getTarballExportProvider rc n) (λ p, CleanupSnapshot p (getTarballName n v))
  | Some e => with_provider (tarballProviderForExport rc n e) (λ p, CleanupSnapshot p (se_ObjectName e))
  end.
(** What a poll of the upload job leads to. *)
Definition poll_upload (n : SnapNode) (v : VolumeSnapshot) (p : SnapshotProvider) (name cleaning missing : string) : snap (result (bool * SnapNode * VolumeSnapshot)) :=
  r ← GetSnapshotStatus p name;
  match r with
  | Err e =>
      if errors_is e "stale snapshot job deleted; it will be recreated" then resetTarballExport v ;? fail e else fail e
  | Ok status =>
      match status with
      | SnapshotSucceeded => ok (true, n, v)
      | SnapshotActive => ok (false, n, v)
      | SnapshotNotFound | SnapshotFailed =>
          (r ← cleanUpTarballExport n v;
           match r with
           | Ok _ => ok ()
           | Err e => let format := if status == SnapshotNotFound then missing else cleaning in
                      fail (if format == "" then e else Wrapf e format [])
           end) ;?
          (r ←? recordTarballExportFailure v; ok (false, n, r.2))
      end
  end.
Definition isTarballReadyLegacy (n : SnapNode) (v : VolumeSnapshot) : snap (result (bool * SnapNode * VolumeSnapshot)) :=
  with_provider (getTarballExportProvider rc n) (λ p, poll_upload n v p (getTarballName n v) "" "").
(** The upload of a known record. *)
Definition is_export_ready (n : SnapNode) (v : VolumeSnapshot) (e : option SnapshotExportStatus) : snap (result (bool * SnapNode * VolumeSnapshot)) :=
  match e with
  | None => fail nil_dereference
  | Some e =>
      if sd_Provider (se_Destination e) == SnapshotExportProviderUnknown then
        if se_Phase e == SnapshotExportPhaseAcknowledged then
          v ←? ask (SnapshotUpdate (unannotate (annotate v AnnotationExportingTarball tarballFinished) AnnotationTarballExportAttempts));
          ok (false, n, v)
        else ok (false, n, v)
      else with_provider (tarballProviderForExport rc n e) (λ p,
             poll_upload n v p (se_ObjectName e) "clean up failed tarball export job: %w" "clean up missing tarball export job: %w")
  end.
Definition isTarballReady (n : SnapNode) (v : VolumeSnapshot) : snap (result (bool * SnapNode * VolumeSnapshot)) :=
  match snapshotExportFor n v with
  | Some e => is_export_ready n v (Some e)
  | None =>
      if negb (rc_Client rc) then isTarballReadyLegacy n v else
      r ← ensureUnknownSnapshotExportStatus rc n v;
      match r with
      | Ok (n, e) => is_export_ready n v e
      | Err e => if errors_is e errSnapshotExportStatusUnavailable then isTarballReadyLegacy n v else fail e
      end
  end.
Definition finishTarballExport (n : SnapNode) (v : VolumeSnapshot) : snap (result (SnapNode * VolumeSnapshot)) :=
  v ←? (if vsn_annotation v AnnotationExportingTarball != tarballUploaded then
          match assign v AnnotationExportingTarball tarballUploaded with
          | Err e => fail e
          | Ok v => ask (SnapshotUpdate (unannotate v AnnotationTarballExportAttempts))
          end
        else ok v);
  n ←? (match snapshotExportFor n v with
        | Some e => if se_Phase e != SnapshotExportPhaseUploaded
                    then r ←? setSnapshotExportPhase rc n (se_ID e) SnapshotExportPhaseUploaded ""; ok r.2 else ok n
        | None => ok n
        end);
  cleanUpTarballExport n v ;?
  (v ←? assign_and_update v AnnotationExportingTarball tarballFinished; ok (n, v)).

(** *** Deleting an export *)

Definition snapshotDeletionFailure (n : SnapNode) (objectName : string) : snap (result string) :=
  jobs ←? ListSnapshotDeletionJobs (sn_meta n);
  ok (match find (λ j, sj_Name j == objectName) jobs with Some j => sj_Failure j | None => "" end).

(** The record after a change, found by the name of its object; the code dereferences it for its events. *)
Definition changed_export (n : SnapNode) (name : string) (changed : bool) : result () :=
  if changed && negb (is_some (snapshotExportByObjectName n name)) then Err nil_dereference else Ok ().
Definition lift {A} (r : result A) : snap (result A) := Ret r.

(** The deletion job runs: the attempt is on record. *)
Definition deletion_active (n : SnapNode) (e : SnapshotExportStatus) (now : Z) : snap (result SnapNode) :=
  r ←? snapshotExportReferencesAvailable rc n e;
  let '(available, n) := r in
  if negb available then ok n
  else if (se_DeleteAttempts e =? 0)%Z then r ←? startSnapshotExportDeleteAttempt rc n (se_ID e) (se_DeleteAttempts e) now; ok r.2
  else if se_Phase e == SnapshotExportPhaseCleanupRequired then r ←? resumeSnapshotExportDeleteAttempt rc n (se_ID e); ok r.2
  else ok n.
(** The deletion job failed: the failure is on record before the job is removed. *)
Definition deletion_failed (n : SnapNode) (e : SnapshotExportStatus) (now : Z) (p : SnapshotProvider) : snap (result SnapNode) :=
  n ←? (if (se_DeleteAttempts e =? 0)%Z then r ←? startSnapshotExportDeleteAttempt rc n (se_ID e) (se_DeleteAttempts e) now; ok r.2 else ok n);
  failure ←? snapshotDeletionFailure n (se_ObjectName e);
  r ←? recordSnapshotExportDeleteFailure rc n (se_ID e) (if failure == "" then "delete Job failed" else failure) now;
  let n := r.2 in
  lift (changed_export n (se_ObjectName e) r.1.1) ;?
  (CleanupSnapshotDeletion p (deletion_of e true) ;?
   ok n).

(** Rounds end when an attempt was started and its job did not fail at once; [fuel] bounds them. *)
Fixpoint reconcileSnapshotExportDeletion (fuel : nat) (n : SnapNode) (e : SnapshotExportStatus) : snap (result (SnapshotStatus * SnapNode)) :=
  with_provider (tarballProviderForExport rc n e) (λ p,
  if snapshotExportDeleteTerminal e then CleanupSnapshotDeletion p (deletion_of e true) ;? ok (SnapshotFailed, n) else
  status ←? GetSnapshotDeletionStatus p (deletion_of e true);
  now ← ask TimeNow;
  match status with
  | SnapshotActive => n ←? deletion_active n e now; ok (SnapshotActive, n)
  | SnapshotFailed => n ←? deletion_failed n e now p; ok (SnapshotFailed, n)
  | SnapshotSucceeded => ok (SnapshotSucceeded, n)
  | SnapshotNotFound =>
      if (0 <? se_DeleteAttempts e)%Z && negb (is_some (se_NextDeleteRetryAt e)) && negb (se_DeleteExhausted e) then
        r ←? recordSnapshotExportDeleteFailure rc n (se_ID e)
               (Sprintf "delete Job for %s disappeared before completion" [AStr (describeSnapshotExport e)]) now;
        lift (changed_export r.2 (se_ObjectName e) r.1.1) ;?
        ok (SnapshotFailed, r.2)
      else
        r ←? snapshotExportReferencesAvailable rc n e;
        let '(available, n) := r in
        if negb available then ok (SnapshotActive, n)
        else if match se_NextDeleteRetryAt e with Some t => (now <? t)%Z | None => false end then ok (SnapshotActive, n)
        else
          r ←? startSnapshotExportDeleteAttempt rc n (se_ID e) (se_DeleteAttempts e) now;
          let '(started, n) := r in
          if negb started then ok (SnapshotActive, n) else
          r ← DeleteSnapshotBounded p (se_ObjectName e);
          match r with
          | Err err_ => recordSnapshotExportDeleteFailure rc n (se_ID e) (ErrorText reason_text err_) now ;? fail err_
          | Ok SnapshotFailed =>
              match fuel, snapshotExportByObjectName n (se_ObjectName e) with
              | S fuel, Some e => reconcileSnapshotExportDeletion fuel n e
              | O, _ => fail (Sentinel "no rounds left")
              | _, None => fail nil_dereference
              end
          | Ok status => ok (status, n)
          end
  end).

(** Both annotations, or what they were when they cannot be written. *)
Definition persist_deletion (v : VolumeSnapshot) (name : string) (wrapped : option string) : snap (result VolumeSnapshot) :=
  r ← ask (SnapshotUpdate (annotate (annotate v AnnotationTarballDeletionComplete "true") AnnotationTarballDeletionName name));
  match r with
  | Ok v => ok v
  | Err e => fail (match wrapped with Some format => Wrapf e format [] | None => e end)
  end.

Definition isTarballDeletedLegacy (n : SnapNode) (v : VolumeSnapshot) : snap (result (bool * SnapNode * VolumeSnapshot)) :=
  let name := getTarballName n v in
  if tarballDeletionComplete v name true then ok (true, n, v) else
  with_provider (getTarballExportProvider rc n) (λ p,
    status ←? DeleteSnapshot p name;
    if status != SnapshotSucceeded then ok (false, n, v)
    else if negb (rc_Client rc) then
      ok (true, n, annotate (annotate v AnnotationTarballDeletionComplete "true") AnnotationTarballDeletionName name)
    else v ←? persist_deletion v name None; ok (true, n, v)).
Definition is_export_deleted (fuel : nat) (n : SnapNode) (v : VolumeSnapshot) (e : SnapshotExportStatus) : snap (result (bool * SnapNode * VolumeSnapshot)) :=
  if (se_Phase e == SnapshotExportPhaseAcknowledged) || (se_Phase e == SnapshotExportPhaseDeleted) then ok (true, n, v)
  else if snapshotExportDeleteTerminal e then r ←? reconcileSnapshotExportDeletion fuel n e; ok (false, r.2, v)
  else if sd_Provider (se_Destination e) == SnapshotExportProviderUnknown then ok (false, n, v)
  else if tarballDeletionComplete v (se_ObjectName e) false then
    r ←? setSnapshotExportPhase rc n (se_ID e) SnapshotExportPhaseDeleted "remote deletion proven"; ok (true, r.2, v)
  else
    r ←? reconcileSnapshotExportDeletion fuel n e;
    let '(status, n) := r in
    match status with
    | SnapshotFailed | SnapshotNotFound => ok (false, n, v)
    | SnapshotActive => ok (snapshotExportPreAttemptCleanup (snapshotExportByObjectName n (se_ObjectName e)), n, v)
    | SnapshotSucceeded =>
        v ←? persist_deletion v (se_ObjectName e) (Some "persist tarball deletion success: %w");
        r ←? setSnapshotExportPhase rc n (se_ID e) SnapshotExportPhaseDeleted "remote deletion proven";
        ok (true, r.2, v)
    end.
Definition isTarballDeleted (fuel : nat) (n : SnapNode) (v : VolumeSnapshot) : snap (result (bool * SnapNode * VolumeSnapshot)) :=
  match snapshotExportFor n v with
  | Some e => is_export_deleted fuel n v e
  | None =>
      if tarballDeletionComplete v (getTarballName n v) true then ok (true, n, v)
      else if negb (rc_Client rc) then isTarballDeletedLegacy n v else
      r ← ensureUnknownSnapshotExportStatus rc n v;
      match r with
      | Ok (n, Some e) => is_export_deleted fuel n v e
      | Ok (_, None) => fail nil_dereference
      | Err e => if errors_is e errSnapshotExportStatusUnavailable then isTarballDeletedLegacy n v else fail e
      end
  end.
Definition cleanUpTarballDeletion (n : SnapNode) (v : VolumeSnapshot) : snap (result SnapNode) :=
  match snapshotExportFor n v with
  | None =>
      with_provider (getTarballExportProvider rc n) (λ p,
        CleanupSnapshotDeletion p (mkSnapshotJob (getTarballName n v) "" typeDelete false None None "" "" false) ;? ok n)
  | Some e =>
      if snapshotExportPreAttemptCleanup (Some e) then ok n else
      (if (se_Phase e == SnapshotExportPhaseAcknowledged) && (sd_Provider (se_Destination e) == SnapshotExportProviderUnknown)
       then ok () else clean_deletion rc n e) ;?
      removeSnapshotExport rc n (se_ID e)
  end.

(** *** Integrity checks *)

Definition lightContainerCPU : string := "50m".
Definition lightContainerMemory : string := "52Mi".
Definition light_resources `{QuantityApi} : ResourceRequirements :=
  let l := Some (<["cpu" := MustParse lightContainerCPU]> {["memory" := MustParse lightContainerMemory]}) in mkResourceRequirements l l [].
Definition check_name (v : VolumeSnapshot) : string := vsn_Name v +:+ "-ichk".
(** Failures of the checker count, disruptions and kills do not. *)
Definition check_policy : list FailureRule :=
  [mkFailureRule "Count" (Some "start-checker") (Some ("NotIn", [137; 143]%Z)) [];
   mkFailureRule "Ignore" None None [("DisruptionTarget", "True")];
   mkFailureRule "Ignore" None (Some ("In", [137; 143]%Z)) []].
Definition init_config_script (chainID : string) : string :=
  "cp -rL /node-config/* /home/app/config/;" +:+
  "sed -i 's/iavl-lazy-loading =.*/iavl-lazy-loading = false/g' /home/app/config/app.toml;" +:+
  "echo '{" +:+ double_quote +:+ "chain_id" +:+ double_quote +:+ ":" +:+ Quote chainID +:+ "}' > /home/app/config/genesis.json".
Definition start_checker_script (app : string) : string :=
  "if ! pidof " +:+ app +:+ " > /dev/null; then " +:+ "echo '" +:+ app +:+ " not running'; exit 1; " +:+ "fi; " +:+
  "APP_PID=$(pidof " +:+ app +:+ "); " +:+ "echo 'Initial " +:+ app +:+ " PID: '$APP_PID; " +:+ "while true; do " +:+
  "if nc -z localhost 9090; then " +:+ "echo 'Data is ok'; exit 0; " +:+ "fi; " +:+
  "if ! pidof " +:+ app +:+ " > /dev/null || [ $(pidof " +:+ app +:+ ") -ne $APP_PID ]; then " +:+
  "echo '" +:+ app +:+ " failed or restarted'; exit 1; " +:+ "fi; " +:+ "sleep 2; " +:+ "done".
Definition mount (name path : string) : VolumeMount := mkVolumeMount name false path "" "".
Definition check_pod `{QuantityApi} (n : SnapNode) (cfg : VolumeSnapshotsConfig) (v : VolumeSnapshot) : JobPodSpec :=
  let spec := cn_Spec (sn_Node n) in
  let app := app_App (ns_App spec) in
  let container name image policy command args mounts resources env restart :=
    mkJobContainer (mkContainer name image policy (Some RestrictedSecurityContext) command args [] [] mounts resources None None) env "" [] restart in
  let volume name source := mkJobVolume (mkVolume name source) None in
  mkJobPodSpec "Never" (rc_priorityClass rc) "" None []
    [volume "data" (ClaimSource (check_name v)); volume "config-empty-dir" EmptyDirSource; volume "config" (ConfigMapSource (meta_Name (sn_meta n)))]
    [container "init-config" "busybox" "" ["sh"] ["-c"; init_config_script (sn_ChainID n)]
       [mount "config-empty-dir" "/home/app/config"; mount "config" "/node-config"] light_resources [] None;
     container app (GetAppImage (sn_Node n)) (GetImagePullPolicy (ns_App spec)) [app] ["start"; "--grpc-only"; "--home"; "/home/app"]
       [mount "data" "/home/app/data"; mount "config-empty-dir" "/home/app/config"] (vs_Resources cfg) (GetEnv (ns_Config spec)) (Some "Always")]
    [container "start-checker" "busybox" (GetImagePullPolicy (ns_App spec)) ["sh"] ["-c"; start_checker_script app] [] light_resources [] None]
    (Some true) (vs_NodeSelector cfg) (vs_Affinity cfg).
(** A snapshot without a status panics, as does one without annotations. *)
Definition startSnapshotIntegrityCheck `{QuantityApi} (n : SnapNode) (v : VolumeSnapshot) : snap (result VolumeSnapshot) :=
  match vsn_Status v, sn_Snapshots n with
  | None, _ | _, None => fail nil_dereference
  | Some st, Some cfg =>
      match vss_RestoreSize st with
      | None => fail (Errorf "restore size is not available yet" [])
      | Some size =>
          let ns := meta_Namespace (sn_meta n) in
          let j := new_job (with_meta_labels (meta_of_name ns (check_name v)) {[volumeSnapshot := vsn_Name v]}) (Some 60%Z) (Some 1%Z) check_policy
                     (Some 1%Z) (check_pod n cfg v) in
          m ←? lift (SetControllerReference (vsn_meta v) (bj_meta j));
          j ←? ask (JobCreate (with_job_meta j m));
          m ←? lift (SetControllerReference (bj_meta j) (meta_of_name (vsn_Namespace v) (check_name v)));
          ask (ClaimCreate (mkSnapshotClaim m ["ReadWriteOnce"] size
                 (Some (default "" (head (split_char "/" (vsn_APIVersion v))), vsn_Kind v, vsn_Name v)))) ;?
          assign_and_update v AnnotationSnapshotIntegrityStatus snapshotIntegrityChecking
      end
  end.
(** The check is started and the snapshot marked, once by the start and once after it. *)
Definition start_check `{QuantityApi} (n : SnapNode) (v : VolumeSnapshot) : snap (result VolumeSnapshot) :=
  v ←? startSnapshotIntegrityCheck n v; assign_and_update v AnnotationSnapshotIntegrityStatus snapshotIntegrityChecking.
Definition cleanUpSnapshotIntegrityCheck (v : VolumeSnapshot) : snap (result ()) :=
  ignore_not_found (ask (JobDelete (vsn_Namespace v) (check_name v) None)) ;?
  ignore_not_found (ask (ClaimDelete (vsn_Namespace v) (check_name v) None)).
(** The empty status: no check was started. *)
Definition getSnapshotIntegrityCheckStatus (v : VolumeSnapshot) : snap (result string) :=
  jobs ←? ask (JobList (vsn_Namespace v) {[volumeSnapshot := vsn_Name v]});
  ok (match jobs with
      | [] => ""
      | j :: _ => if (0 <? bj_Failed j)%Z then snapshotIntegrityCorrupted
                  else if (0 <? bj_Succeeded j)%Z then snapshotIntegrityOk
                  else snapshotIntegrityChecking
      end).

(** *** Deletions under way, whatever the configuration *)

Fixpoint persist_among (n : SnapNode) (name : string) (l : list VolumeSnapshot) : snap (result SnapNode) :=
  match l with
  | [] => match snapshotExportByObjectName n name with
          | Some e => removeSnapshotExport rc n (se_ID e)
          | None => ok n
          end
  | v :: l =>
      let base := sn_ChainID n +:+ "-" +:+ FormatCompact (vsn_created v) in
      if (name != base) && negb (has_prefix name (base +:+ "-")) then persist_among n name l else
      (if tarballDeletionComplete v name false then ok v
       else persist_deletion v name (Some "persist pending tarball deletion success: %w")) ;?
      match snapshotExportByObjectName n name with
      | Some e =>
          if se_Phase e == SnapshotExportPhaseAcknowledged then removeSnapshotExport rc n (se_ID e)
          else if se_Phase e != SnapshotExportPhaseDeleted
               then r ←? setSnapshotExportPhase rc n (se_ID e) SnapshotExportPhaseDeleted "remote deletion proven"; ok r.2
               else ok n
      | None => ok n
      end
  end.
Definition persistPendingTarballDeletionSuccess (n : SnapNode) (name : string) : snap (result SnapNode) :=
  snapshots ←? listNodeSnapshots n;
  persist_among n name snapshots.

(** A deletion job that is listed. *)
Definition pending_job (fuel : nat) (st : SnapNode * bool) (j : SnapshotJob) : snap (result (SnapNode * bool)) :=
  let '(n, pending) := st in
  r ←? (match snapshotExportByObjectName n (sj_Name j) with
        | Some e =>
            if (se_Phase e != SnapshotExportPhaseDeleted) && (se_Phase e != SnapshotExportPhaseAcknowledged)
            then reconcileSnapshotExportDeletion fuel n e
            else status ←? ReconcileSnapshotDeletionJob (sn_meta n) j; ok (status, n)
        | None => status ←? ReconcileSnapshotDeletionJob (sn_meta n) j; ok (status, n)
        end);
  let '(status, n) := r in
  match status with
  | SnapshotActive | SnapshotFailed => ok (n, true)
  | SnapshotNotFound => ok (n, pending)
  | SnapshotSucceeded =>
      n ←? persistPendingTarballDeletionSuccess n (sj_Name j);
      CleanupSnapshotDeletionResources (sn_meta n) j ;?
      ok (n, pending)
  end.
(** A record that is to be deleted and has no job. *)
Definition export_pending (seen : list string) (e : SnapshotExportStatus) : bool :=
  negb ((se_Phase e != SnapshotExportPhaseDeleting) &&
        ((se_Phase e != SnapshotExportPhaseCleanupRequired) || se_DeleteExhausted e)) &&
  (sd_Provider (se_Destination e) != SnapshotExportProviderUnknown) && negb (bool_decide (se_ObjectName e ∈ seen)).
Definition pending_export (fuel : nat) (st : SnapNode * bool) (e : SnapshotExportStatus) : snap (result (SnapNode * bool)) :=
  let '(n, pending) := st in
  r ←? reconcileSnapshotExportDeletion fuel n e;
  let '(status, n) := r in
  match status with
  | SnapshotActive | SnapshotFailed => ok (n, true)
  | SnapshotNotFound => ok (n, pending)
  | SnapshotSucceeded =>
      n ←? persistPendingTarballDeletionSuccess n (se_ObjectName e);
      clean_deletion rc n e ;?
      ok (n, pending)
  end.
Definition reconcilePendingTarballDeletions (fuel : nat) (n : SnapNode) : snap (result (SnapNode * bool)) :=
  if negb (rc_ClientSet rc) then ok (n, false) else
  jobs ←? ListSnapshotDeletionJobs (sn_meta n);
  st ←? fold_try (pending_job fuel) jobs (n, false);
  fold_try (pending_export fuel) (filter (λ e, export_pending (map sj_Name jobs) e = true) (exports st.1)) st.

(** *** The pass *)

Context `{QuantityApi} `{DurationApi}.

(** A snapshot that expired or exceeds the count: its export first, when that is to go with it. *)
Definition remove_snapshot (fuel : nat) (n : SnapNode) (v : VolumeSnapshot) : snap (result SnapNode) :=
  let deleteTarball := shouldDeleteSnapshotTarballOnExpire n v in
  r ←? (if deleteTarball then isTarballDeleted fuel n v else ok (true, n, v));
  let '(deleted, n, v) := r in
  if negb deleted then ok n else
  let retained := snapshotExportFor n v in
  ask (SnapshotDelete (vsn_Namespace v) (vsn_Name v) (Some (vsn_UID v))) ;?
  if deleteTarball then cleanUpTarballDeletion n v
  else match retained with
       | Some e => removeRetainedSnapshotExportIfGone rc n v (se_ID e)
       | None => ok n
       end.

(** What a round of the loop needs besides the node: what was found before it, and what it collects. *)
Record pass_facts := mkFacts { pf_active : bool; pf_latest : Z; pf_count : nat }.
Record pass_state := mkPassState { st_Node : SnapNode; st_TarballNames : list string; st_UnknownLegacyExport : bool }.
Inductive flow := Continue (st : pass_state) | Return (n : SnapNode).

Definition collect (st : pass_state) (v : VolumeSnapshot) : pass_state :=
  let n := st_Node st in
  let exporting := vsn_annotation v AnnotationExportingTarball == "true" in
  let named name := mkPassState n (st_TarballNames st ++ [name]) (st_UnknownLegacyExport st) in
  let unknown := mkPassState n (st_TarballNames st) true in
  match snapshotExportFor n v with
  | Some e =>
      if se_ObjectName e != "" then named (se_ObjectName e)
      else if (sd_Provider (se_Destination e) == SnapshotExportProviderUnknown) && exporting then unknown
      else st
  | None => if exporting then unknown
            else if ShouldExportTarballs (sn_Snapshots n) then named (getTarballName n v)
            else st
  end.

(** A snapshot that has just become ready. *)
Definition process_finished (f : pass_facts) (n : SnapNode) (v : VolumeSnapshot) : snap (result SnapNode) :=
  v ←? assign_and_update v AnnotationPvcSnapshotReady "true";
  n ←? ask (NodeUpdate (setSnapshotTime (setSnapshotInProgress n (pf_active f)) (pf_latest f)));
  if ShouldVerify (sn_Snapshots n) then start_check n v ;? ok n
  else if ShouldExportTarballs (sn_Snapshots n) then r ←? start_export n v; ok r.1
  else ok n.
(** A snapshot whose integrity is not known yet.  A corrupted one ends the pass with its replacement. *)
Definition process_check (n : SnapNode) (v : VolumeSnapshot) : snap (result (SnapNode * bool)) :=
  status ←? getSnapshotIntegrityCheckStatus v;
  if status == snapshotIntegrityChecking then ok (n, false)
  else if status == snapshotIntegrityOk then
    v ←? assign_and_update v AnnotationSnapshotIntegrityStatus snapshotIntegrityOk;
    (_ ← cleanUpSnapshotIntegrityCheck v;
     if ShouldExportTarballs (sn_Snapshots n) && (vsn_annotation v AnnotationExportingTarball == "")
     then r ←? start_export n v; ok (r.1, false) else ok (n, false))
  else if status == snapshotIntegrityCorrupted then
    v ←? assign_and_update v AnnotationSnapshotIntegrityStatus snapshotIntegrityCorrupted;
    (_ ← cleanUpSnapshotIntegrityCheck v;
     ask (SnapshotDelete (vsn_Namespace v) (vsn_Name v) None) ;?
     (n ←? startNewSnapshot n; ok (n, true)))
  else start_check n v ;? ok (n, false).
(** Retention by time. *)
Definition process_expiry (fuel : nat) (f : pass_facts) (n : SnapNode) (v : VolumeSnapshot) : snap (result SnapNode) :=
  if ShouldPreserveLastSnapshot (sn_Snapshots n) && (pf_count f =? 1)%nat then ok n else
  now ← ask TimeNow;
  match isSnapshotExpired now v with
  | Err e => fail e
  | Ok expired => if expired then remove_snapshot fuel n v else ok n
  end.

Definition process_snapshot (fuel : nat) (f : pass_facts) (st : pass_state) (v : VolumeSnapshot) : snap (result flow) :=
  let st := collect st v in
  let n := st_Node st in
  let go m := n ←? m; ok (Continue (mkPassState n (st_TarballNames st) (st_UnknownLegacyExport st))) in
  let cfg := sn_Snapshots n in
  let ready := vsn_annotation v AnnotationPvcSnapshotReady in
  let integrity := vsn_annotation v AnnotationSnapshotIntegrityStatus in
  let exporting := vsn_annotation v AnnotationExportingTarball in
  if (ready == "false") && isSnapshotReady v then go (process_finished f n v)
  else if ShouldVerify cfg && (integrity != snapshotIntegrityOk) && (integrity != snapshotIntegrityCorrupted) then
    r ←? process_check n v;
    if r.2 : bool then ok (Return r.1) else ok (Continue (mkPassState r.1 (st_TarballNames st) (st_UnknownLegacyExport st)))
  else if (ShouldExportTarballs cfg || snapshotExportUploading n v) && (negb (ShouldVerify cfg) || (integrity == snapshotIntegrityOk)) &&
          (ready == "true") && (exporting == "") then
    go (r ←? start_export n v; ok r.1)
  else if (ready == "true") && (exporting == "true") then
    go (r ←? isTarballReady n v;
        let '(done, n, v) := r in
        if done : bool then r ←? finishTarballExport n v; ok r.1 else ok n)
  else if (ShouldExportTarballs cfg || is_some (snapshotExportFor n v)) && (ready == "true") && (exporting == tarballUploaded) then
    go (r ←? finishTarballExport n v; ok r.1)
  else go (process_expiry fuel f n v).
Fixpoint process_snapshots (fuel : nat) (f : pass_facts) (l : list VolumeSnapshot) (st : pass_state) : snap (result flow) :=
  match l with
  | [] => ok (Continue st)
  | v :: l =>
      r ←? process_snapshot fuel f st v;
      match r with Return n => ok (Return n) | Continue st => process_snapshots fuel f l st end
  end.

(** Retention by count: the number of the oldest snapshots to delete. *)
Definition excess (preserve : bool) (count retain : Z) : Z :=
  let toDelete := (count - retain)%Z in
  if preserve && (count <=? toDelete)%Z then (count - 1)%Z else toDelete.
(** The snapshots that are left, listed anew when there is a count. *)
Definition retain_by_count (fuel : nat) (n : SnapNode) (l : list VolumeSnapshot) : snap (result (SnapNode * list VolumeSnapshot)) :=
  match GetRetainCount (sn_Snapshots n) with
  | None => ok (n, l)
  | Some retain =>
      listed ←? listNodeSnapshots n;
      let l := by_creation listed in
      n ←? fold_try (remove_snapshot fuel)
             (take (Z.to_nat (excess (ShouldPreserveLastSnapshot (sn_Snapshots n)) (Z.of_nat (length l)) retain)) l) n;
      ok (n, l)
  end.

(** The export of a snapshot that is gone. *)
Definition remove_orphan (n : SnapNode) (p : SnapshotProvider) (names : list string) (j : SnapshotJob) : snap (result ()) :=
  if bool_decide (sj_Name j ∈ names) then ok () else
  let finish j status := match status with SnapshotSucceeded => CleanupSnapshotDeletion p j | _ => ok () end in
  if sj_Purpose j == typeDelete then status ←? GetSnapshotDeletionStatus p j; finish j status
  else if sj_Purpose j == typeUpload then
    r ←? (if sj_Exporter j != "" then DeleteSnapshotForUpload (sn_meta n) j else provider_DeleteSnapshotForUpload p j);
    finish r.1 r.2
  else ok ().
Fixpoint each_orphan (n : SnapNode) (p : SnapshotProvider) (names : list string) (l : list SnapshotJob) : snap (result ()) :=
  match l with
  | [] => ok ()
  | j :: l => remove_orphan n p names j ;? each_orphan n p names l
  end.

(** What the annotations and the phase say is brought in line with the snapshots. *)
Definition repair_state (n : SnapNode) (active : bool) (latest : Z) : snap (result SnapNode) :=
  let timestamp := (getLastSnapshotTime n <? latest)%Z in
  let annotation := negb (Bool.eqb (volumeSnapshotInProgress n) active) in
  let phase := active && ((node_phase n == PhaseChainNodeRunning) ||
                          ((node_phase n == PhaseChainNodeSyncing) && ShouldStopNode (sn_Snapshots n))) in
  let n1 := if annotation then setSnapshotInProgress n active else n in
  let n2 := if timestamp then setSnapshotTime n1 latest else n1 in
  n3 ←? (if annotation || timestamp then ask (NodeUpdate n2) else ok n2);
  if phase then ask (NodeUpdateStatus (with_node_phase n3 PhaseChainNodeSnapshotting)) else ok n3.

Definition finish_pass (fuel : nat) (nodePodReady : bool) (l : list VolumeSnapshot) (st : pass_state) : snap (result SnapNode) :=
  r ←? retain_by_count fuel (st_Node st) l;
  n ←? pruneRetainedSnapshotExports rc r.1 r.2;
  (if ShouldExportTarballs (sn_Snapshots n) && negb (st_UnknownLegacyExport st) then
     with_provider (getTarballExportProvider rc n) (λ p, jobs ←? ListSnapshots p; each_orphan n p (st_TarballNames st) jobs)
   else ok ()) ;?
  if volumeSnapshotInProgress n then ok n else
  now ← ask TimeNow;
  if shouldSnapshot now n nodePodReady then startNewSnapshot n else ok n.

Definition ensureVolumeSnapshots (fuel : nat) (n : SnapNode) (nodePodReady : bool) : snap (result SnapNode) :=
  n ←? reconcileSnapshotExportAcknowledgements rc n;
  r ←? reconcilePendingTarballDeletions fuel n;
  let n := r.1 in
  if negb (SnapshotsEnabled (sn_Node n)) then
    n ←? completeAcknowledgedSnapshotExports rc n;
    if volumeSnapshotInProgress n then ask (NodeUpdate (setSnapshotInProgress n false)) else ok n
  else if (nst_PvcSize (cn_Status (sn_Node n)) == "") || (nst_LatestHeight (cn_Status (sn_Node n)) =? 0)%Z then ok n
  else
    listed ←? listNodeSnapshots n;
    let l := by_creation listed in
    let active := hasActiveVolumeSnapshot l in
    let latest := latestReadySnapshotTime l in
    n ←? repair_state n active latest;
    r ←? process_snapshots fuel (mkFacts active latest (length l)) l (mkPassState n [] false);
    match r with
    | Return n => ok n
    | Continue st => finish_pass fuel nodePodReady l st
    end.
End routines.
