(* ===== verification/SnapshotLife.v ===== *)
(** * The life of an export record

    What the status says of the removal of an export is bounded: every record the code
    makes and every change it makes to one keeps the number of attempts, the mark that
    they are exhausted and the time of the next one in agreement, at most three
    attempts are started in any life, and a removal that keeps failing ends with the
    operator asked for help.  A pass over the snapshots writes such records only. *)

From S2P Require Import Prelude GoLib GoText IO ThirdParty ApiTypes KubeApi Getters NodeFinalize Deploy.
From S2P Require Import SnapshotApi SnapshotJobs SnapshotProviders SnapshotExports Snapshots.

(** ** Well-formed records *)

Definition removal_settled (e : SnapshotExportStatus) : bool :=
  (se_Phase e == SnapshotExportPhaseDeleted) || (se_Phase e == SnapshotExportPhaseAcknowledged).
(** Phases of a record whose removal is over or waits for the operator, which is all an exhausted record can be in. *)
Definition export_wf (e : SnapshotExportStatus) : Prop :=
  (0 ≤ se_DeleteAttempts e ≤ tarballDeleteMaxAttempts)%Z ∧
  (se_DeleteExhausted e = true →
     se_DeleteAttempts e = tarballDeleteMaxAttempts ∧ se_NextDeleteRetryAt e = None ∧
     (se_Phase e = SnapshotExportPhaseCleanupRequired ∨ removal_settled e = true)) ∧
  (is_some (se_NextDeleteRetryAt e) = true → 1 ≤ se_DeleteAttempts e < tarballDeleteMaxAttempts)%Z ∧
  (se_DeleteAttempts e ≠ 0%Z → se_Phase e ≠ SnapshotExportPhaseUploading ∧ se_Phase e ≠ SnapshotExportPhaseUploaded).

Lemma new_export_wf n v e : newSnapshotExportStatus n v = Ok e → export_wf e.
Proof.
  unfold newSnapshotExportStatus. destruct (sn_Export n) as [cfg|]; [|done]. cbv zeta.
  destruct (et_S3 cfg); [|destruct (et_GCS cfg); [|done]]; intros [= <-]; by repeat split.
Qed.
Lemma unknown_export_wf n v : export_wf (unknown_export n v).
Proof. by repeat split. Qed.

(** ** Changes *)

(** The phases [setSnapshotExportPhase] is called with. *)
Definition plain_phase (p : SnapshotExportPhase) : Prop :=
  p = SnapshotExportPhaseUploaded ∨ p = SnapshotExportPhaseCleanupRequired ∨ p = SnapshotExportPhaseDeleted.
(** A change of a record, and whether it starts an attempt. *)
Inductive export_change (e : SnapshotExportStatus) : bool → SnapshotExportStatus → Prop :=
  | change_phase p message b e' : plain_phase p → set_phase p message e = Ok (b, e') → export_change e false e'
  | change_start expected now b e' : start_attempt expected now e = Ok (b, e') → export_change e b e'
  | change_resume b e' : resume_attempt e = Ok (b, e') → export_change e false e'
  | change_failure failure now b t e' : record_failure failure now e = (b, t, e') → export_change e false e'
  | change_acknowledge requested : export_change e false (acknowledge requested e).
(** A sequence of changes, with the number of attempts it starts. *)
Inductive export_life : SnapshotExportStatus → nat → SnapshotExportStatus → Prop :=
  | life_here e : export_life e 0 e
  | life_more e b e1 k e2 : export_change e b e1 → export_life e1 k e2 → export_life e ((if b then 1 else 0) + k) e2.

Ltac split_wf := repeat match goal with
  | |- _ → _ => intro
  | H : _ ∧ _ |- _ => destruct H
  | H : _ ∨ _ |- _ => destruct H
  | |- _ ∧ _ => split
  end.
(** By the phase, the marks and the guards of the change. *)
Ltac by_cases e :=
  destruct e as [? ? ? ? ? phase ? ? ? ? ? ? ? ? attempts exhausted ? next]; unfold export_wf, removal_settled in *; simpl in *;
  unfold snapshotExportDeleteTerminal, is_some, tarballDeleteMaxAttempts in *; simpl in *;
  destruct exhausted, next, phase; simpl in *.

(** The outcomes of a change. *)
Ltac outcomes Hc :=
  unfold snapshotExportDeleteTerminal in Hc; cbv zeta in Hc;
  repeat match type of Hc with context [if ?x then _ else _] => destruct x eqn:? end; simplify_eq; to_prop.

Lemma set_phase_wf p message e b e' : plain_phase p → export_wf e → set_phase p message e = Ok (b, e') →
  export_wf e' ∧ se_DeleteAttempts e' = se_DeleteAttempts e.
Proof.
  intros [-> | [-> | ->]]; unfold set_phase; by_cases e; intros Hwf Hc; repeat case_bool_decide; simplify_eq/=; split_wf;
  first [done | lia | tauto | naive_solver lia].
Qed.
Lemma start_attempt_wf expected now e b e' : export_wf e → start_attempt expected now e = Ok (b, e') →
  export_wf e' ∧ se_DeleteAttempts e' = (se_DeleteAttempts e + if b then 1 else 0)%Z.
Proof.
  intros Hwf Hc. unfold start_attempt in Hc. outcomes Hc; try (split; [done|lia]).
  assert (0 ≤ se_DeleteAttempts e < 3)%Z as Ha by (unfold export_wf, tarballDeleteMaxAttempts in *; lia).
  unfold with_life, export_wf in *. cbn. rewrite (wrap_small 32) by lia. unfold tarballDeleteMaxAttempts in *. split_wf; first [done|lia|congruence].
Qed.
Lemma resume_wf e b e' : export_wf e → resume_attempt e = Ok (b, e') → export_wf e' ∧ se_DeleteAttempts e' = se_DeleteAttempts e.
Proof.
  intros Hwf Hc. unfold resume_attempt in Hc. outcomes Hc; [done|].
  split; [|done]. destruct Hwf as (? & ? & ? & ?). unfold export_wf, with_phase, with_life. cbn. split_wf; first [done|lia|congruence|naive_solver].
Qed.
Lemma record_failure_wf failure now e b t e' : export_wf e → record_failure failure now e = (b, t, e') →
  export_wf e' ∧ (se_DeleteAttempts e ≤ se_DeleteAttempts e')%Z.
Proof.
  intros Hwf Hc. unfold record_failure in Hc. outcomes Hc; try (split; [done|lia]);
  destruct Hwf as (? & ? & ? & ?); unfold export_wf, with_phase, with_life, tarballDeleteMaxAttempts in *; cbn -[Sprintf terminalSnapshotExportDeleteMessage];
  (split; [split_wf|]); first [by left|done|lia|congruence].
Qed.
Lemma acknowledge_wf requested e : export_wf e → export_wf (acknowledge requested e) ∧ se_DeleteAttempts (acknowledge requested e) = se_DeleteAttempts e.
Proof.
  intros Hwf. unfold acknowledge. case_match; [|done]. split; [|done]. destruct Hwf as (? & ? & ? & ?).
  unfold export_wf, with_phase, with_life, removal_settled. cbn. split_wf; first [done|lia|naive_solver].
Qed.
Lemma export_change_wf e b e' : export_change e b e' → export_wf e →
  export_wf e' ∧ (se_DeleteAttempts e + (if b then 1 else 0) ≤ se_DeleteAttempts e')%Z.
Proof.
  intros Hc Hwf. destruct Hc as [p m b e' Hp Hc|x now b e' Hc|b e' Hc|f now b t e' Hc|requested].
  - apply set_phase_wf in Hc as [? ->]; [|done..]. split; [done|lia].
  - apply start_attempt_wf in Hc as [? ->]; [|done]. by split.
  - apply resume_wf in Hc as [? ->]; [|done]. split; [done|lia].
  - apply record_failure_wf in Hc as [??]; [|done]. split; [done|lia].
  - destruct (acknowledge_wf requested e Hwf) as [? ->]. split; [done|lia].
Qed.

(** Whatever happens to an export record, in any order, it stays well-formed, and
    no more than three removals of it are ever started, those before included. *)
Theorem removal_attempts_bounded e k e' :
  export_wf e → export_life e k e' →
  export_wf e' ∧ (se_DeleteAttempts e + Z.of_nat k ≤ se_DeleteAttempts e' ≤ tarballDeleteMaxAttempts)%Z.
Proof.
  intros Hwf Hl. induction Hl as [e|e b e1 k e2 Hc _ IH]; [split; [done|]; destruct Hwf; lia|].
  apply export_change_wf in Hc as [Hwf1 Ha]; [|done]. destruct (IH Hwf1) as [? ?]. split; [done|]. destruct b; lia.
Qed.

(** ** A removal that keeps failing *)

Definition in_flight (e : SnapshotExportStatus) : bool :=
  (0 <? se_DeleteAttempts e)%Z && negb (is_some (se_NextDeleteRetryAt e)) && negb (se_DeleteExhausted e).
Definition removal_due (now : Z) (e : SnapshotExportStatus) : bool :=
  match se_NextDeleteRetryAt e with Some at_ => (at_ <=? now)%Z | None => true end.
(** What a pass makes of the record when its deletion job fails or is missing: the attempt under way has failed, or the
    next one is started and fails. *)
Definition failed_round (failure : string) (now : Z) (e : SnapshotExportStatus) : SnapshotExportStatus :=
  if in_flight e then (record_failure failure now e).2
  else match start_attempt (se_DeleteAttempts e) now e with
       | Ok (true, e) => (record_failure failure now e).2
       | _ => e
       end.
(** So many rounds, each when the record is due. *)
Inductive keeps_failing : nat → SnapshotExportStatus → SnapshotExportStatus → Prop :=
  | failing_here e : keeps_failing 0 e e
  | failing_more failure now n e e' : removal_due now e = true → keeps_failing n (failed_round failure now e) e' → keeps_failing (S n) e e'.
(** Phases from which a removal may be started. *)
Definition removable (e : SnapshotExportStatus) : Prop :=
  match se_Phase e with
  | SnapshotExportPhaseUploading | SnapshotExportPhaseUploaded | SnapshotExportPhaseDeleting | SnapshotExportPhaseCleanupRequired => True
  | _ => False
  end.
Definition given_up (e : SnapshotExportStatus) : Prop :=
  se_DeleteExhausted e = true ∧ se_Phase e = SnapshotExportPhaseCleanupRequired.

Lemma given_up_stays failure now e : given_up e → failed_round failure now e = e.
Proof.
  intros [Hx _]. unfold failed_round, in_flight, start_attempt, snapshotExportDeleteTerminal. rewrite Hx, andb_false_r. cbn.
  by destruct (negb _).
Qed.

(** A due attempt that is not under way is started. *)
Lemma due_attempt_starts now e :
  export_wf e → removable e → se_DeleteExhausted e = false → removal_due now e = true → in_flight e = false →
  start_attempt (se_DeleteAttempts e) now e =
  Ok (true, with_life e SnapshotExportPhaseDeleting "" (se_DeleteAttempts e + 1) false (se_LastDeleteError e) None).
Proof.
  intros (Ha & _ & Hn & _) Hr Hx Hd Hf. unfold start_attempt, snapshotExportDeleteTerminal, in_flight, removal_due in *.
  rewrite Hx, Z.eqb_refl in *. rewrite andb_true_r in Hf. cbn [negb orb].
  assert (se_DeleteAttempts e < 3)%Z as Hlt.
  { destruct (se_NextDeleteRetryAt e); cbn in *; [specialize (Hn eq_refl)|]; unfold tarballDeleteMaxAttempts in *; to_prop; lia. }
  assert ((tarballDeleteMaxAttempts <=? se_DeleteAttempts e)%Z = false) as -> by (unfold tarballDeleteMaxAttempts; lia). rewrite Hf.
  assert (match se_NextDeleteRetryAt e with Some at_ => (now <? at_)%Z | None => false end = false) as ->.
  { destruct (se_NextDeleteRetryAt e); [|done]. to_prop. lia. }
  rewrite (wrap_small 32) by lia. unfold removable in Hr. by destruct (se_Phase e).
Qed.
(** The failure of an attempt under way: the last one gives up, another names the time of the next. *)
Lemma failure_recorded failure now e :
  export_wf e → in_flight e = true →
  let e' := (record_failure failure now e).2 in
  se_DeleteAttempts e' = se_DeleteAttempts e ∧ export_wf e' ∧
  (given_up e' ∨ removable e' ∧ se_DeleteExhausted e' = false ∧ is_some (se_NextDeleteRetryAt e') = true).
Proof.
  intros Hwf Hf. cbv zeta. unfold in_flight in Hf. to_prop.
  destruct (record_failure failure now e) as [[b t] e1] eqn:Er. cbn [snd]. destruct (record_failure_wf _ _ _ _ _ _ Hwf Er) as [Hwf1 _].
  unfold record_failure in Er. outcomes Er; try congruence; try lia; (split_and!; [done..|]); [by left|by right].
Qed.

Lemma failed_round_progress failure now e :
  export_wf e → removable e → se_DeleteExhausted e = false → removal_due now e = true →
  let e' := failed_round failure now e in
  export_wf e' ∧ (se_DeleteAttempts e + (if in_flight e then 0 else 1) = se_DeleteAttempts e')%Z ∧
  (given_up e' ∨ removable e' ∧ se_DeleteExhausted e' = false ∧ is_some (se_NextDeleteRetryAt e') = true).
Proof.
  intros Hwf Hr Hx Hd. cbv zeta. unfold failed_round. destruct (in_flight e) eqn:Ef.
  - destruct (failure_recorded failure now e Hwf Ef) as (-> & ? & ?). split_and!; [done|lia|done].
  - pose proof (due_attempt_starts now e Hwf Hr Hx Hd Ef) as Hs. rewrite Hs.
    destruct (start_attempt_wf _ _ _ _ _ Hwf Hs) as [Hwf1 _].
    destruct (failure_recorded failure now _ Hwf1) as (-> & ? & ?); [|by split_and!].
    destruct Hwf as (? & _). unfold in_flight. cbn. rewrite !andb_true_r. lia.
Qed.

(** The rounds a record is good for. *)
Definition rounds_left (e : SnapshotExportStatus) : Z := (tarballDeleteMaxAttempts - se_DeleteAttempts e + if in_flight e then 1 else 0)%Z.

(** The operator is told. *)
Definition cleanup_reported `{ConditionApi} (now : Z) (n : SnapNode) : Prop :=
  ∃ c, syncSnapshotExportCleanupCondition now n = with_conditions n (SetStatusCondition now (sn_Conditions n) c) ∧
       cond_Type c = ConditionSnapshotExportCleanup ∧ cond_Status c = "True" ∧ cond_Reason c = ReasonTarballDeleteAttemptsExhausted.
Lemma given_up_reported `{ConditionApi} now n e : e ∈ exports n → given_up e → cleanup_reported now n.
Proof.
  intros He [Hx Hp]. unfold cleanup_reported, syncSnapshotExportCleanupCondition.
  assert (e ∈ filter (λ e, (se_Phase e == SnapshotExportPhaseCleanupRequired) = true) (exports n)) as Hin.
  { apply list_elem_of_filter. split; [|done]. by apply bool_decide_eq_true. }
  destruct (filter _ _) as [|e0 l]; [by apply elem_of_nil in Hin|].
  assert (snapshotExportDeleteTerminal (default e0 (find snapshotExportDeleteTerminal (e0 :: l))) = true) as Ht.
  { destruct (find snapshotExportDeleteTerminal (e0 :: l)) as [e1|] eqn:Ef; [by apply find_some in Ef as [_ Ht]|].
    exfalso. apply list_elem_of_In in Hin. apply (find_none _ _ Ef e) in Hin. unfold snapshotExportDeleteTerminal in Hin. congruence. }
  eexists. split; [done|]. split_and!; [done..|]. unfold cleanup_condition. cbn [cond_Reason]. by rewrite Ht.
Qed.

(** A removal that fails in every round it is due ends, after at most four
    rounds, with the attempts exhausted and cleanup required: no further round changes
    the record, and every status it is in reports it to the operator. *)
Theorem failing_removal_gives_up `{ConditionApi} n e e' :
  export_wf e → removable e → se_DeleteExhausted e = false → (rounds_left e ≤ Z.of_nat n)%Z → keeps_failing n e e' →
  given_up e' ∧ (∀ failure now, failed_round failure now e' = e') ∧
  (∀ now node, e' ∈ exports node → cleanup_reported now node).
Proof.
  intros Hwf Hr Hx Hn Hk. assert (given_up e') as Hg.
  { induction Hk as [e|failure now n e e' Hd Hk IH].
    - exfalso. destruct Hwf as ([_ Ha] & _ & Hnext & _). unfold rounds_left, in_flight, tarballDeleteMaxAttempts in *.
      rewrite Hx, andb_true_r in Hn. destruct (0 <? se_DeleteAttempts e)%Z eqn:E, (se_NextDeleteRetryAt e); to_prop; cbn in Hn, Hnext;
        try specialize (Hnext eq_refl); lia.
    - destruct (failed_round_progress failure now e Hwf Hr Hx Hd) as (Hwf1 & Ha & [Hg|(Hr1 & Hx1 & Hn1)]).
      + clear -Hk Hg. remember (failed_round failure now e) as e1. clear Heqe1. induction Hk as [|? ? ? ? ? ? Hk IH]; [done|].
        apply IH. by rewrite given_up_stays.
      + apply IH; [done..|]. unfold rounds_left, in_flight in *. rewrite Hn1, andb_false_r. cbn.
        destruct (_ && _ && _) in Ha, Hn; lia. }
  split_and!; [done| |].
  - intros failure now. by apply given_up_stays.
  - intros now node Hin. by eapply given_up_reported.
Qed.
