(* ===== verification/ReservationProtocol.v ===== *)
(** * Concurrent acquisition and release of consensus keys

    Any number of controllers acquire and release reservations against one API
    server, one request at a time and in any interleaving.  As long as the owner
    named by a reservation stays alive and is not releasing it, nobody else can
    take it; so one key never has two holders, and one claim never has two keys. *)

From S2P Require Import Prelude GoLib IO ThirdParty ApiTypes KubeApi CosmosignerSpec.
From S2P Require Import SignerResolve SigningNames SigningPaths Reservation FakeServer Reference.

(** What a controller runs, and what it returns. *)
Inductive routine :=
  | Acquire (fuel : nat) (chainID publicKey : string) (holder : ReservationHolder)
  | Release (owner : Owner).

Definition outcome := (option EnsureResult + ReleaseResult)%type.

Section protocol.
Context `{MetaApi} `{JsonApi} {W : Type} `{ApiServerLaws W}.
(** Users, other controllers and the garbage collector: they may change anything
    but the reservations. *)
Context (env : W → W → Prop).
Hypothesis env_reservations : ∀ w w', env w w' → rsv w' = rsv w ∧ issued w ⊆ issued w'.

Abbreviation state := (sys response W outcome).
Abbreviation step := (option (nat * kevent)).

Definition run_routine (ρ : routine) : kube outcome :=
  match ρ with
  | Acquire fuel chainID publicKey holder =>
      r ← EnsureConsensusKeyReservationWithResult fuel chainID publicKey holder; Ret (inl r)
  | Release owner => r ← ReleaseConsensusKeyReservations owner; Ret (inr r)
  end.

(** The kind, namespace and name each owner UID belongs to. *)
Variable ident : string → string * string * string.

Definition alive (u : string) (w : W) : Prop :=
  let '(kind, ns, name) := ident u in owner_uid w kind ns name = Some u.

(** A run of the controllers [ρ] from the world [w0], with its steps [l]. *)
Variables (ρ : nat → routine) (w0 : W) (l : list (step * state)) (final : state).

Definition start : state := Sys w0 (λ t, run_routine (ρ t)).

Record protocol_run : Prop := {
  run_steps : sys_run server env start l final;
  run_holders t fuel chainID publicKey holder :
    ρ t = Acquire fuel chainID publicKey holder → holder_named ident holder;
  run_initial name r : rsv w0 !! name = Some r → well_named ident (ckr_Spec r);
}.

Definition releasing (u : string) : Prop := ∃ t owner, ρ t = Release owner ∧ owner_UID owner = u.

(** The state [s] of the run, with the steps that led to it and those to come. *)
Definition reached (l1 : list (step * state)) (s : state) (l2 : list (step * state)) : Prop :=
  l = l1 ++ l2 ∧ sys_run server env start l1 s ∧ sys_run server env s l2 final.

Definition alive_throughout (u : string) : Prop := ∀ l1 s l2, reached l1 s l2 → alive u (world s).

Hypothesis Hrun : protocol_run.

(** *** Every thread keeps to the discipline *)

Lemma thread_disciplined t :
  spec (disciplined ident releasing) [] (run_routine (ρ t)) (λ _ _, True).
Proof.
  destruct (ρ t) as [fuel chainID publicKey holder|owner] eqn:E; simpl; rewrite spec_mbind.
  - eapply spec_conseq; [apply Ensure_disciplined; by eapply run_holders|done].
  - eapply spec_conseq; [apply Release_disciplined|done]. by exists t, owner.
Qed.

Lemma call_disciplined l1 s l2 t r k :
  reached l1 s l2 → threads s t = Call r k → disciplined ident releasing (observed_by t l1) r.
Proof.
  intros (_ & Hr & _) Et. pose proof (run_observes server env start l1 s t Hr) as Ho.
  pose proof (spec_observes _ _ _ _ _ (thread_disciplined t) Ho) as Hs. rewrite Et in Hs. apply Hs.
Qed.

(** *** The worlds of the run *)

Lemma step_issued (s s' : state) e : sys_step server env s e s' → issued (world s) ⊆ issued (world s').
Proof.
  intros [w w' ts t r k x _ Hs|w w' ts He]; simpl; [by eapply server_issued|by apply env_reservations].
Qed.

Lemma run_issued (s s' : state) l1 : sys_run server env s l1 s' → issued (world s) ⊆ issued (world s').
Proof. induction 1 as [|s e s' l1 s'' Hs _ IH]; [done|]. etrans; [by eapply step_issued|done]. Qed.

Lemma reached_split l1 s l2 sa la lb o sb :
  reached l1 s l2 → l1 = la ++ (o, sb) :: lb → sys_run server env start la sa → sys_step server env sa o sb →
  sys_run server env sb lb s → reached la sa ((o, sb) :: lb ++ l2) ∧ reached (la ++ [(o, sb)]) sb (lb ++ l2).
Proof.
  intros (Hl & Hr & Hf) -> Ha Hs Hb. pose proof (run_app _ _ _ _ _ _ _ Hb Hf) as Hbf.
  split; (split; [|split]); try done.
  - by rewrite Hl, <- app_assoc.
  - by econstructor.
  - by rewrite Hl, <- !app_assoc.
  - eapply run_app; [done|]. econstructor; [done|constructor].
Qed.

(** An observation was served in some earlier state of the run. *)
Lemma observed_state l1 s l2 t e :
  reached l1 s l2 → e ∈ observed_by t l1 →
  ∃ la sa lb w', reached la sa lb ∧ served server (world sa) e w' ∧ issued (world sa) ⊆ issued (world s).
Proof.
  intros Hre He. pose proof Hre as (_ & Hr & _). apply list_elem_of_split in He as (h1 & h2 & He).
  destruct (run_split server env _ _ _ _ _ _ _ Hr He) as (la & sa & sb & lb & El & Ha & Hst & Hs & Hb & _).
  destruct (reached_split _ _ _ _ _ _ _ _ Hre El Ha Hst Hb) as [Hra _].
  exists la, sa, ((Some (t, e), sb) :: lb ++ l2), (world sb). split_and!; [done..|].
  etrans; [by eapply step_issued|by eapply run_issued].
Qed.

(** A reservation a thread saw is on record under its UID. *)
Lemma saw_reservation_issued l1 s l2 t r :
  reached l1 s l2 → saw_reservation r (observed_by t l1) →
  issued (world s) !! ckr_UID r = Some (ckr_Name r, ckr_Spec r).
Proof.
  intros Hre Hsaw.
  assert (∃ e, e ∈ observed_by t l1 ∧ ∀ w w', served server w e w' → rsv w !! ckr_Name r = Some r) as (e & He & Hsrv).
  { destruct Hsaw as [Hg|(k & Hl & Hk)]; eexists; (split; [eassumption|]); simpl; intros w w' Hs.
    - by eapply server_get.
    - by eapply server_list. }
  destruct (observed_state _ _ _ _ _ Hre He) as (la & sa & lb & w' & _ & Hs & Hi).
  apply Hsrv, stored_issued in Hs as [_ Hs]. by eapply lookup_weaken.
Qed.

(** A stale owner was not alive when it was seen. *)
Lemma saw_stale_dead l1 s l2 t r :
  reached l1 s l2 → in_order [saw_stale r] (observed_by t l1) → well_named ident (ckr_Spec r) →
  ¬ alive_throughout (rs_OwnerUID (ckr_Spec r)).
Proof.
  intros Hre Hst Hwn Hal. apply in_order_one in Hst as (e & He & Hst).
  destruct (observed_state _ _ _ _ _ Hre He) as (la & sa & lb & w' & Hra & Hs & _).
  specialize (Hal _ _ _ Hra). unfold alive in Hal. rewrite Hwn in Hal.
  destruct Hst as [[Ek [->|(n & -> & Hn)]]|[Ek [->|(n & -> & Hn)]]]; rewrite Ek in Hal; simpl in Hs.
  - apply server_get_node_missing in Hs. congruence.
  - apply server_get_node in Hs. congruence.
  - apply server_get_set_missing in Hs. congruence.
  - apply server_get_set in Hs. congruence.
Qed.

Lemma well_named_reached l1 s l2 name r :
  reached l1 s l2 → rsv (world s) !! name = Some r → well_named ident (ckr_Spec r).
Proof.
  revert s l2 name r. induction l1 as [|[o so] l1 IH] using rev_ind; intros s l2 name r Hre.
  { destruct Hre as (_ & Hr & _). inversion Hr; subst. by apply run_initial. }
  pose proof Hre as (Hl & Hr & Hf). apply run_app_inv in Hr as (sm & Hr1 & Hr2).
  inversion Hr2 as [|? ? ? ? ? Hst Hn]; subst. inversion Hn; subst.
  assert (reached l1 sm ((o, s) :: l2)) as Hrm.
  { split; [by rewrite Hl, <- app_assoc|]. split; [done|by econstructor]. }
  destruct Hst as [w w' ts t q k x Ht Hs|w w' ts He]; simpl.
  2:{ destruct (env_reservations _ _ He) as [-> _]. apply (IH _ _ _ _ Hrm). }
  intros Hname.
  assert (rsv w' = rsv w → well_named ident (ckr_Spec r)) as Hsame.
  { intros E. rewrite E in Hname. by apply (IH _ _ name _ Hrm). }
  destruct (is_write q) eqn:Ew; [|by apply Hsame; eapply server_frame].
  destruct q; try done; simpl in *.
  - pose proof (call_disciplined _ _ _ _ _ _ Hrm Ht) as Hd. simpl in Hd.
    assert (rsv w' = rsv w ∨ ∃ s, stored_as r0 s ∧ rsv w' = <[ckr_Name r0 := s]> (rsv w)) as [?|(s' & (Es & _) & E)].
    { destruct x as [[]|e]; [apply server_create in Hs as (_ & s' & ?)|apply server_create_failed in Hs as [?|(_ & s' & ?)]];
        eauto. }
    + by apply Hsame.
    + rewrite E in Hname. apply lookup_insert_Some in Hname as [[_ <-]|[_ Hname]]; [by rewrite Es|].
      by apply (IH _ _ name _ Hrm).
  - apply server_delete in Hs as [?|(r' & _ & _ & E)]; [by apply Hsame|].
    rewrite E in Hname. apply lookup_delete_Some in Hname as [_ Hname]. by apply (IH _ _ name _ Hrm).
Qed.

(** *** A live owner keeps its reservation *)

Lemma kept_step l1 s o l2 s' name r :
  reached l1 s ((o, s') :: l2) → sys_step server env s o s' → rsv (world s) !! name = Some r →
  alive_throughout (rs_OwnerUID (ckr_Spec r)) → ¬ releasing (rs_OwnerUID (ckr_Spec r)) →
  rsv (world s') !! name = Some r.
Proof.
  intros Hre Hst Hname Hal Hrel. pose proof (well_named_reached _ _ _ _ _ Hre Hname) as Hwn.
  destruct Hst as [w w' ts t q k x Ht Hs|w w' ts He]; simpl in *.
  2:{ by destruct (env_reservations _ _ He) as [-> _]. }
  assert (rsv w' = rsv w → rsv w' !! name = Some r) as Hsame by (by intros ->).
  destruct (is_write q) eqn:Ew; [|by apply Hsame; eapply server_frame]. destruct q; try done; simpl in *.
  - assert (rsv w' = rsv w ∨ rsv w !! ckr_Name r0 = None ∧ ∃ s, rsv w' = <[ckr_Name r0 := s]> (rsv w))
      as [?|(Hn & s' & ->)].
    { destruct x as [[]|e]; [apply server_create in Hs as (? & s' & ? & ?)
                            |apply server_create_failed in Hs as [?|(? & s' & ? & ?)]]; eauto. }
    + by apply Hsame.
    + rewrite lookup_insert_ne; [done|]. intros E. congruence.
  - apply server_delete in Hs as [?|(r' & Hn & Hu & E)]; [by apply Hsame|]. rewrite E.
    rewrite lookup_delete_ne; [done|]. intros ->.
    assert (r' = r) as -> by congruence.
    destruct (call_disciplined _ _ _ _ _ _ Hre Ht) as (r2 & -> & E2 & Hsaw & Hwhy).
    pose proof (saw_reservation_issued _ _ _ _ _ Hre Hsaw) as Hi. simpl in Hi.
    apply stored_issued in Hname as [_ Hi']. rewrite <- E2, <- Hu, Hi' in Hi. injection Hi as Espec.
    destruct Hwhy as [[Hst _]|Hr]; [|by rewrite Espec in Hrel].
    eapply saw_stale_dead; [exact Hre|exact Hst|by rewrite <- Espec|by rewrite <- Espec].
Qed.

Lemma kept l1 s l2 s' l3 name r :
  reached l1 s (l2 ++ l3) → reached (l1 ++ l2) s' l3 → rsv (world s) !! name = Some r →
  alive_throughout (rs_OwnerUID (ckr_Spec r)) → ¬ releasing (rs_OwnerUID (ckr_Spec r)) →
  rsv (world s') !! name = Some r.
Proof.
  intros Hre Hre' Hname Hal Hrel. revert l1 s Hre Hre' Hname.
  induction l2 as [|[o so] l2 IH]; intros l1 s Hre (Hl' & Hr' & Hf') Hname.
  { rewrite app_nil_r in Hr'. destruct Hre as (_ & Hr & _). by rewrite (run_det _ _ _ _ _ _ Hr' Hr). }
  pose proof Hre as (Hl & Hr & Hf). inversion Hf as [|? ? ? ? ? Hst Hf1]; subst.
  assert (reached (l1 ++ [(o, so)]) so (l2 ++ l3)) as Hre1.
  { split; [by rewrite Hl, <- app_assoc|]. split; [|done]. eapply run_app; [done|]. econstructor; [done|constructor]. }
  apply (IH (l1 ++ [(o, so)]) so Hre1); [by rewrite <- app_assoc|]. by eapply kept_step.
Qed.

(** *** What a successful acquisition has seen *)

Definition succeeded (t : nat) (chainID publicKey : string) (holder : ReservationHolder) : Prop :=
  ∃ fuel res, ρ t = Acquire fuel chainID publicKey holder ∧
    threads final t = Ret (inl (Some res)) ∧ er_Result res = Ok ().

Definition reserved_by (chainID publicKey : string) (holder : ReservationHolder) (w : W) : Prop :=
  ∃ r, rsv w !! ConsensusKeyReservationName chainID publicKey = Some r ∧
    reservationOwnedBy r chainID publicKey holder = Ok ().

Lemma new_reservation_owned chainID publicKey holder s :
  stored_as (new_reservation chainID publicKey holder) s → reservationOwnedBy s chainID publicKey holder = Ok ().
Proof.
  intros (Es & En & _). apply reservationOwnedBy_Ok. by rewrite Es, En.
Qed.

(** It reached a state in which the key was reserved for it, and a later one in
    which its claim held no other key. *)
Lemma succeeded_states t chainID publicKey holder :
  succeeded t chainID publicKey holder →
  ∃ l1 s1 l2 s2 l3,
    reached l1 s1 (l2 ++ l3) ∧ reached (l1 ++ l2) s2 l3 ∧
    reserved_by chainID publicKey holder (world s1) ∧
    (∀ name r, rsv (world s2) !! name = Some r → conflicting_claim chainID publicKey holder r = false).
Proof.
  intros (fuel & res & Et & Ef & Ho).
  pose proof (run_observes server env start l final t (run_steps Hrun)) as Hobs.
  assert (spec (disciplined ident releasing) [] (threads start t) (λ h o,
    ∀ res, o = inl (Some res) → er_Result res = Ok () → clean_after chainID publicKey holder [acquired chainID publicKey holder] h)) as Hs.
  { change (threads start t) with (run_routine (ρ t)). rewrite Et. unfold run_routine. rewrite spec_mbind.
    eapply spec_conseq; [apply Ensure_disciplined; by eapply run_holders|].
    intros h o _ Hr res' [= ->]. by apply Hr. }
  pose proof (spec_observes _ _ _ _ _ Hs Hobs) as Hfin. rewrite Ef in Hfin. specialize (Hfin res eq_refl Ho).
  destruct Hfin as (ha & e1 & hb & Eh & _ & hc & e2 & hd & -> & _ & he & e3 & hf & -> & H3 & hg & e4 & hh & -> & H4 & _).
  rewrite (app_comm_cons hg), (app_assoc he), (app_comm_cons _ _ e2), (app_assoc hc),
    (app_comm_cons _ _ e1), (app_assoc ha) in Eh.
  destruct (run_split server env _ _ _ _ _ _ _ (run_steps Hrun) Eh)
    as (la & s0 & s1 & lb & El & Ha & Hst & Hsrv & Hb & Eb).
  destruct (run_split server env _ _ _ t (ha ++ e1 :: hc ++ e2 :: he) e3 hg Hb) as (lc & s2 & s3 & ld & -> & Hc & Hst3 & Hsrv3 & Hd & _).
  { rewrite Eb, <- app_assoc. simpl. by rewrite <- app_assoc. }
  exists (la ++ [(Some (t, e4), s1)]), s1, lc, s2, ((Some (t, e3), s3) :: ld).
  assert (sys_run server env start (la ++ [(Some (t, e4), s1)]) s1) as Hr1.
  { eapply run_app; [done|]. econstructor; [done|constructor]. }
  split_and!.
  - split; [by rewrite El, <- app_assoc|]. by split.
  - split; [by rewrite El, <- !app_assoc|]. split; [by eapply run_app|by econstructor].
  - destruct H4 as [(r & -> & Hown)| ->]; simpl in Hsrv.
    + exists r. split; [|done]. rewrite (server_frame _ _ _ _ Hsrv) by done. by eapply server_get.
    + apply server_create in Hsrv as (_ & r & Hr & E). exists r. rewrite E.
      split; [apply lookup_insert_eq|by apply new_reservation_owned].
  - destruct H3 as (k & -> & Hk). simpl in Hsrv3. intros name r Hr.
    pose proof (stored_issued _ _ _ Hr) as [<- _].
    rewrite Forall_forall in Hk. apply Hk. by eapply server_list.
Qed.

Lemma reserved_kept l1 s1 m s2 k chainID publicKey holder :
  reached l1 s1 (m ++ k) → reached (l1 ++ m) s2 k → reserved_by chainID publicKey holder (world s1) →
  alive_throughout (rh_UID holder) → ¬ releasing (rh_UID holder) →
  reserved_by chainID publicKey holder (world s2).
Proof.
  intros H1' H2' (r & Hr & Hown) Hal Hrel. exists r. split; [|done].
  apply reservationOwnedBy_Ok in Hown as (_ & _ & _ & Hu & _).
  eapply kept; [exact H1'|exact H2'|done|by rewrite Hu|by rewrite Hu].
Qed.

(** Two states of a run: one comes first. *)
Lemma reached_order l1 s1 k1 l2 s2 k2 :
  reached l1 s1 k1 → reached l2 s2 k2 →
  (∃ m, l2 = l1 ++ m ∧ k1 = m ++ k2) ∨ (∃ m, l1 = l2 ++ m ∧ k2 = m ++ k1).
Proof.
  intros (E1 & _) (E2 & _). rewrite E1 in E2. apply app_eq_inv in E2 as [(m & -> & ->)|(m & -> & ->)]; eauto.
Qed.

Lemma reserved_same_key chainID publicKey h1 h2 w :
  reserved_by chainID publicKey h1 w → reserved_by chainID publicKey h2 w →
  rh_UID h1 = rh_UID h2 ∧ rh_Claim h1 = rh_Claim h2.
Proof.
  intros (r & Hr & O1) (r' & Hr' & O2). assert (r' = r) as -> by congruence.
  apply reservationOwnedBy_Ok in O1 as (_ & _ & _ & <- & <-). by apply reservationOwnedBy_Ok in O2 as (_ & _ & _ & <- & <-).
Qed.

(** Whether the holder of a successful acquisition keeps its key to the end. *)
Definition lasting (holder : ReservationHolder) : Prop :=
  alive_throughout (rh_UID holder) ∧ ¬ releasing (rh_UID holder).

(** C1: in any interleaving of acquisitions and releases, two acquisitions of
    one key that both succeed are for one owner and one claim, as long as the
    owners stay alive and do not release their reservations. *)
Theorem one_holder_per_key t1 t2 chainID publicKey h1 h2
    (S1 : succeeded t1 chainID publicKey h1) (L1 : lasting h1)
    (S2 : succeeded t2 chainID publicKey h2) (L2 : lasting h2) :
  rh_UID h1 = rh_UID h2 ∧ rh_Claim h1 = rh_Claim h2.
Proof.
  destruct (succeeded_states _ _ _ _ S1) as (l1 & s1 & m1 & s1' & k1 & R1 & _ & V1 & _).
  destruct (succeeded_states _ _ _ _ S2) as (l2 & s2 & m2 & s2' & k2 & R2 & _ & V2 & _).
  destruct L1 as [A1 N1], L2 as [A2 N2].
  destruct (reached_order _ _ _ _ _ _ R1 R2) as [(m & El & Ek)|(m & El & Ek)].
  - rewrite Ek in R1. rewrite El in R2.
    eapply reserved_same_key; [|exact V2]. by eapply (reserved_kept l1 s1 m s2).
  - rewrite Ek in R2. rewrite El in R1.
    eapply reserved_same_key; [exact V1|]. by eapply (reserved_kept l2 s2 m s1).
Qed.

(** A claim that passes its last scan holds no other key by then. *)
Lemma scan_excludes l1 s1 k l2 s2 m2 s2' k2 chainID key1 key2 h1 h2 :
  reached l1 s1 (k ++ m2 ++ k2) → l2 = l1 ++ k → reached l2 s2 (m2 ++ k2) → reached (l2 ++ m2) s2' k2 →
  reserved_by chainID key1 h1 (world s1) → lasting h1 →
  (∀ name r, rsv (world s2') !! name = Some r → conflicting_claim chainID key2 h2 r = false) →
  rh_UID h1 = rh_UID h2 → rh_Claim h1 = rh_Claim h2 → key1 = key2.
Proof.
  intros R1 -> R2 R2' V1 [A1 N1] Hscan Hu Hc.
  assert (reserved_by chainID key1 h1 (world s2')) as (r & Hr & O).
  { eapply (reserved_kept l1 s1 (k ++ m2) s2' k2); [by rewrite <- app_assoc|by rewrite app_assoc|done..]. }
  specialize (Hscan _ _ Hr). apply reservationOwnedBy_Ok in O as (Ec & Ek & _ & Eu & El).
  unfold conflicting_claim in Hscan. rewrite Ec, Ek, Eu, El, Hu, Hc in Hscan.
  rewrite !(bool_decide_eq_true_2 (_ = _)) in Hscan by reflexivity. simpl in Hscan. by to_prop.
Qed.

(** C2: in any interleaving, one claim of one owner never succeeds for two keys
    of a chain: of two concurrent acquisitions the later one to be recorded sees
    the earlier in its closing scan. *)
Theorem one_key_per_claim t1 t2 chainID key1 key2 h1 h2
    (S1 : succeeded t1 chainID key1 h1) (L1 : lasting h1)
    (S2 : succeeded t2 chainID key2 h2) (L2 : lasting h2)
    (Hu : rh_UID h1 = rh_UID h2) (Hc : rh_Claim h1 = rh_Claim h2) :
  key1 = key2.
Proof.
  destruct (succeeded_states _ _ _ _ S1) as (l1 & s1 & m1 & s1' & k1 & R1 & R1' & V1 & C1).
  destruct (succeeded_states _ _ _ _ S2) as (l2 & s2 & m2 & s2' & k2 & R2 & R2' & V2 & C2).
  destruct (reached_order _ _ _ _ _ _ R1 R2) as [(m & El & Ek)|(m & El & Ek)].
  - rewrite Ek in R1. by eapply (scan_excludes l1 s1 m l2 s2 m2 s2' k2 chainID key1 key2 h1 h2).
  - rewrite Ek in R2. symmetry. by eapply (scan_excludes l2 s2 m l1 s1 m1 s1' k1 chainID key2 key1 h2 h1).
Qed.
End protocol.

(** ** An example run *)

Definition example_key : string := "AAAAAAAAAAAAAAAAAAAAAAAAAAAAAAAAAAAAAAAAAAA=".
Definition example_holder : ReservationHolder :=
  mkHolder "uid-1" "ChainNode" "default" "val" "val" [] [].
Definition example_node : ChainNode :=
  mkChainNode (mkMeta "val" "default" "uid-1" ∅ None [] [] None 0 "")
    (newChainNodeSpec (newAppSpec "img" None "appd" []))
    (newChainNodeStatus PhaseChainNodeRunning "chain-1" 0 [] no_signer_status).
Definition example_world : fake := mkFake [] ∅ ["default"] [example_node] [] [] [] [] [] [] [] [] [].
Definition example_routines (t : nat) : routine :=
  Acquire (if decide (t < 2)%nat then 2 else 0) "chain-1" example_key example_holder.
Definition example_ident (_ : string) : string * string * string := ("ChainNode", "default", "val").

Definition example_program (t : nat) : kube outcome :=
  @run_routine reference_meta reference_json (example_routines t).
(** The world after the first controller has run. *)
Definition example_world1 : fake := (exec example_world (example_program 0)).2.
Definition example_ok : outcome := inl (Some (mkEnsureResult "" (Ok ()))).

Lemma example_exec0 : (exec example_world (example_program 0)).1 = example_ok.
Proof. vm_compute. reflexivity. Qed.
Lemma example_exec1 : (exec example_world1 (example_program 1)).1 = example_ok.
Proof. vm_compute. reflexivity. Qed.

Abbreviation example_protocol_run :=
  (@protocol_run reference_meta reference_json fake _ (λ _ _, False) example_ident example_routines example_world).
Abbreviation example_lasting :=
  (@lasting reference_meta reference_json fake _ (λ _ _, False) example_ident example_routines example_world).

Lemma example_run : ∃ l final,
  example_protocol_run l final ∧
  succeeded example_routines final 0 "chain-1" example_key example_holder ∧
  succeeded example_routines final 1 "chain-1" example_key example_holder ∧
  example_lasting l final example_holder.
Proof.
  destruct (exec_run (λ _ _, False) example_world example_program 0 _ _ (surjective_pairing _))
    as (l1 & ts1 & R1 & T1 & O1).
  assert (ts1 1%nat = example_program 1) as E1 by (by apply O1).
  destruct (exec_run (λ _ _, False) example_world1 ts1 1 _ _ (surjective_pairing _)) as (l2 & ts2 & R2 & T2 & O2).
  rewrite E1, example_exec1 in T2. rewrite example_exec0 in T1.
  eexists (l1 ++ l2), (Sys _ ts2). split_and!.
  - split.
    + eapply run_app; [exact R1|exact R2].
    + intros t fuel chainID publicKey holder E. injection E as _ _ _ <-. reflexivity.
    + intros name r (i & s & Hn & _)%rsv_lookup. discriminate Hn.
  - eexists _, _. split; [reflexivity|]. simpl. split; [by rewrite O2, T1|done].
  - eexists _, _. split; [reflexivity|]. simpl. by split.
  - split.
    + intros la s lb (_ & Hr & _). apply run_owner_uid with (kind := "ChainNode") (ns := "default") (name := "val") (u := "uid-1") in Hr;
        [exact Hr|reflexivity].
    + intros (t & owner & E & _). discriminate E.
Qed.

Lemma one_holder_per_key_witness :
  (exec example_world1 (example_program 1)).1 = example_ok ∧ rh_Claim example_holder = rh_Claim example_holder.
Proof.
  split; [apply example_exec1|]. destruct example_run as (l & final & Hr & S0 & S1 & L).
  apply (one_holder_per_key (λ _ _, False) (λ w w' (F : False), match F with end) example_ident example_routines
           example_world l final Hr 0 1 "chain-1" example_key _ _ S0 L S1 L).
Defined.

Lemma one_key_per_claim_witness :
  (exec example_world1 (example_program 1)).1 = example_ok ∧ example_key = example_key.
Proof.
  split; [apply example_exec1|]. destruct example_run as (l & final & Hr & S0 & S1 & L).
  by apply (one_key_per_claim (λ _ _, False) (λ w w' (F : False), match F with end) example_ident example_routines
           example_world l final Hr 0 1 "chain-1" example_key example_key _ _ S0 L S1 L).
Defined.
