(* ===== verification/ReservationSequential.v ===== *)
(** * Acquisition without interference

    On the in-memory server nobody else writes between two requests.  There the
    acquisition loop makes at most two rounds: the second one follows the recovery
    of a stale reservation and finds the name free. *)

From S2P Require Import Prelude GoLib IO ThirdParty ApiTypes KubeApi CosmosignerSpec.
From S2P Require Import SignerResolve SigningNames SigningPaths Reservation FakeServer Reference ReservationProtocol.

(** ** Routines that only read *)

Definition read_only (_ : list kevent) (r : request) : Prop := ∀ w, (serve w r).2 = w.

Lemma exec_read_only {A} (m : kube A) h Q w : spec read_only h m Q → (exec w m).2 = w.
Proof.
  revert h w. induction m as [a|r k IH]; intros h w; simpl; [done|]. intros [Hr Hk].
  specialize (Hr w). destruct (serve w r) as [x w'] eqn:E. simpl in Hr. subst. by eapply IH.
Qed.

Lemma exec_reads {A} (m : kube A) h Q w a w' : spec read_only h m Q → exec w m = (a, w') → w' = w.
Proof. intros Hs E. pose proof (exec_read_only m h Q w Hs) as Hw. by rewrite E in Hw. Qed.

Section sequential.
Context `{MetaApi} `{JsonApi}.
Variables (chainID publicKey : string) (holder : ReservationHolder).

Abbreviation name := (ConsensusKeyReservationName chainID publicKey).

Lemma checks_read_only h : spec read_only h (ensure_checks chainID publicKey holder) (λ _ _, True).
Proof.
  unfold ensure_checks. rewrite spec_try. eapply spec_conseq; [apply (no_conflicting_claim_spec _ _ _ _ _ []); done|].
  intros h' [[]|e] _ _; [|done]. eapply spec_conseq; [apply (no_legacy_owner_spec _ _ _ _ _ []); done|done].
Qed.

Lemma stale_read_only r h : spec read_only h (reservationOwnerIsStale r) (λ _ _, True).
Proof.
  unfold reservationOwnerIsStale.
  destruct (bool_decide (rs_OwnerKind (ckr_Spec r) = "ChainNode")),
    (bool_decide (rs_OwnerKind (ckr_Spec r) = "ChainNodeSet")); simpl; try done;
    (split; [done|]); intros [?|e]; simpl; try done; by destruct (IsNotFound e).
Qed.

Lemma gone_read_only r h : spec read_only h (staleReservationSigningPathsGone r holder) (λ _ _, True).
Proof.
  unfold staleReservationSigningPathsGone. simpl. split; [done|].
  intros [?|e]; simpl; [|by destruct (IsNotFound e)].
  split; [done|]. intros [?|e]; simpl; [|done]. destruct (scan _ _ _); simpl; [done|].
  split; [done|]. intros [?|e]; simpl; [|done]. destruct (scan _ _ _); simpl; [done|].
  split; [done|]. intros [?|e]; simpl; [|done]. destruct (scan _ _ _); simpl; [done|].
  split; [done|]. intros [?|e]; simpl; [|done]. by destruct (scan _ _ _).
Qed.

#[local] Opaque ensure_checks reservationOwnerIsStale staleReservationSigningPathsGone
  ensureNoConflictingReservationClaim ensureNoLegacyConsensusKeyOwner.

(** ** Recovery frees the name *)

Lemma delete_and_confirm_exec w r w' :
  exec w (delete_and_confirm r) = (Ok true, w') → fake_rsv w' !! ckr_Name r = None.
Proof.
  unfold delete_and_confirm, ignoring_not_found, confirm_absent. rewrite exec_bind. simpl.
  assert (∀ w, exec w (call (GetReservation Direct (ckr_Name r)) ≫= λ x,
             match x with Ok _ => return_result false | Err e => if IsNotFound e then return_result true else return_error e end)
             = (Ok true, w') → fake_rsv w' !! ckr_Name r = None) as Hc.
  { intros w1. rewrite exec_bind. simpl. destruct (fake_rsv w1 !! ckr_Name r) eqn:E; simpl; intros [= <-]. done. }
  destruct (fake_rsv w !! ckr_Name r) as [r'|]; simpl; [destruct (decide _)|]; simpl.
  - apply Hc.
  - done.
  - apply Hc.
Qed.

Lemma recover_exec w r w' :
  exec w (recoverStaleConsensusKeyReservation r chainID publicKey holder) = (Ok true, w') →
  fake_rsv w' !! name = None.
Proof.
  unfold recoverStaleConsensusKeyReservation.
  destruct (_ || _ || _ || _) eqn:E1; [done|]. destruct (_ || _ || _) eqn:E2 in |- *; [done|].
  destruct (_ || _ || _ || _ || _) eqn:E3 in |- *; [done|]. destruct (negb _) eqn:E4 in |- *; [done|].
  clear E2 E3 E4. to_prop.
  rewrite exec_try. destruct (exec w _) as [[[|]|] w1]; simpl; try done.
  rewrite exec_try. destruct (exec w1 _) as [[[[??]|]|] w2]; simpl; try done.
  rewrite exec_try. destruct (exec w2 _) as [[?|] w3]; simpl; try done.
  rewrite exec_try. destruct (exec w3 _) as [[?|] w4]; simpl; try done.
  destruct (bool_decide (ckr_UID r = "")); [done|]. intros Hd%delete_and_confirm_exec. congruence.
Qed.
#[local] Opaque recoverStaleConsensusKeyReservation.

(** ** The rounds of the loop *)

Definition finishes (w : fake) (m : kube (option EnsureResult)) : Prop :=
  ∃ res, (exec w m).1 = Some res ∧
    (er_Result res = Ok () → reserved_by chainID publicKey holder (exec w m).2).

Lemma finish_checks w recovered :
  reserved_by chainID publicKey holder w →
  finishes w (r ← ensure_checks chainID publicKey holder; Ret (Some (mkEnsureResult recovered r))).
Proof.
  intros Hr. unfold finishes. rewrite exec_bind.
  destruct (exec w (ensure_checks chainID publicKey holder)) as [r w1] eqn:E.
  apply (exec_reads _ []  _ _ _ _ (checks_read_only [])) in E as ->.
  eexists. split; [reflexivity|]. by intros _.
Qed.

Lemma finish_free fuel w recovered :
  fake_rsv w !! name = None → finishes w (ensure_loop (S fuel) chainID publicKey holder recovered).
Proof.
  intros Hfree. unfold finishes. cbn [ensure_loop]. rewrite exec_bind. simpl. rewrite Hfree. simpl.
  rewrite exec_bind. destruct (exec w (ensure_checks chainID publicKey holder)) as [[[]|e] w1] eqn:E;
    [|eexists; by split].
  apply (exec_reads _ []  _ _ _ _ (checks_read_only [])) in E as ->. simpl.
  change (ckr_Name (new_reservation chainID publicKey holder)) with name. rewrite Hfree.
  apply finish_checks. eexists. split; [by rewrite create_rsv, lookup_insert_eq|].
  apply reservationOwnedBy_Ok. done.
Qed.

(** C15: without interference the acquisition loop terminates within two rounds,
    whatever the server holds, and if it succeeds the key is then reserved for
    the holder. *)
Theorem Ensure_terminates fuel w (Hfuel : 2 ≤ fuel) :
  finishes w (EnsureConsensusKeyReservationWithResult fuel chainID publicKey holder).
Proof.
  unfold EnsureConsensusKeyReservationWithResult.
  destruct (_ || _ || _); [eexists; by split|].
  destruct (validateCanonicalPublicKey publicKey); [|eexists; by split].
  destruct fuel as [|[|fuel]]; [lia..|].
  destruct (fake_rsv w !! name) as [existing|] eqn:En; [|by apply finish_free].
  unfold finishes. remember (S fuel) as n eqn:Hn. cbn [ensure_loop]. rewrite exec_bind. simpl. rewrite En. simpl.
  destruct (reservationOwnedBy existing chainID publicKey holder) as [[]|e] eqn:Eo.
  - apply finish_checks. by exists existing.
  - rewrite exec_bind.
    destruct (exec w (recoverStaleConsensusKeyReservation existing chainID publicKey holder)) as [[[|]|e'] w1] eqn:Er.
    + subst n. apply recover_exec in Er. by apply finish_free.
    + eexists; by split.
    + eexists; by split.
Qed.
End sequential.

(** The example holder reserves the example key on the empty server. *)
Lemma Ensure_terminates_witness :
  2 ≤ 2 ∧
  finishes "chain-1" example_key example_holder example_world
    (EnsureConsensusKeyReservationWithResult (H := reference_meta) (H0 := reference_json)
       2 "chain-1" example_key example_holder).
Proof.
  split; [done|].
  apply (Ensure_terminates (H := reference_meta) (H0 := reference_json)). done.
Defined.
