(* ===== verification/Vpa.v ===== *)
(** * Vertical autoscaling of a node ([internal/controllers/chainnode/vpa.go])

    From usage statistics to the resource requests of the application container.
    Two features of Go matter to the result and are modelled as they are: the
    float64 arithmetic of the usage percentages, with the standard library's
    executable IEEE-754 operations, and the aliasing of resource maps:
    [GetResources] returns a copy of a struct whose maps are those of the spec. *)

From Stdlib Require Import SpecFloat.
From S2P Require Import Prelude GoLib ThirdParty ApiTypes KubeApi Reference.

(** ** [float64] *)

Definition f64 : Set := spec_float.
Definition f64_of_Z (z : Z) : f64 := binary_normalize 53 1024 z 0 false.
Definition f64_mul : f64 → f64 → f64 := SFmul 53 1024.
Definition f64_div : f64 → f64 → f64 := SFdiv 53 1024.

(** [int64(x)]: towards zero; what does not fit gives the smallest int64, as on
    amd64. *)
Definition f64_to_int64 (x : f64) : Z :=
  match x with
  | S754_zero _ => 0
  | S754_finite s m e =>
      let v := if (0 <=? e)%Z then (Z.pos m * 2 ^ e)%Z else (Z.pos m / 2 ^ (- e))%Z in
      let v := if s then (- v)%Z else v in
      if (- 2 ^ 63 <=? v)%Z && (v <? 2 ^ 63)%Z then v else (- 2 ^ 63)%Z
  | _ => (- 2 ^ 63)%Z
  end.

(** ** Defaults ([api/v1/common_helper.go]) *)

Definition OneMiB : Z := 1024 * 1024.
Definition second : Z := 1000000000.
Definition DefaultVpaCooldown : Z := 5 * 60 * second.
Definition DefaultOOMRecoveryWindow : Z := 60 * 60 * second.
Definition DefaultLimitPercentage : Z := 150.
Definition DefaultSafetyMarginPercent : Z := 15.
Definition DefaultHysteresisPercent : Z := 5.
Definition DefaultEmergencyScaleUpPercent : Z := 25.
Definition DefaultMaxOOMRecoveries : Z := 3.

Definition AnnotationVPAResources : string := "cosmopilot.voluzi.com/vpa-resources".
Definition AnnotationVPALastCPUScale : string := "cosmopilot.voluzi.com/last-cpu-scale".
Definition AnnotationVPALastMemoryScale : string := "cosmopilot.voluzi.com/last-memory-scale".
Definition AnnotationVPAOOMRecoveryHistory : string := "cosmopilot.voluzi.com/oom-recovery-history".

Definition ResourceCPU : string := "cpu".
Definition ResourceMemory : string := "memory".

Definition clamp (val min max : Z) : Z :=
  if (val <? min)%Z then min else if (max <? val)%Z then max else val.

(** Rounding up to a whole MiB, in int64. *)
Definition round_MiB (v : Z) : Z := int64 (Z.quot (int64 (v + OneMiB - 1)) OneMiB * OneMiB).

Section config.
Context `{DurationApi}.

Definition duration_or (d : option string) (default_ : Z) : Z :=
  match d with
  | Some s => match ParseDuration s with Ok d => d | Err _ => default_ end
  | None => default_
  end.
Definition vpam_GetCooldownDuration (c : VerticalAutoscalingMetricConfig) : Z := duration_or (vm_Cooldown c) DefaultVpaCooldown.
Definition GetOOMRecoveryWindow (c : VerticalAutoscalingMetricConfig) : Z :=
  duration_or (vm_OOMRecoveryWindow c) DefaultOOMRecoveryWindow.
Definition GetDuration (r : VerticalAutoscalingRule) : Z := duration_or (vr_Duration r) DefaultVpaCooldown.
Definition GetCooldownDuration (r : VerticalAutoscalingRule) (metricCooldown : Z) : Z := duration_or (vr_Cooldown r) metricCooldown.
End config.

Definition GetLimitUpdateStrategy (c : VerticalAutoscalingMetricConfig) : LimitUpdateStrategy := default LimitRetain (vm_LimitStrategy c).
Definition GetLimitPercentage (c : VerticalAutoscalingMetricConfig) : Z := default DefaultLimitPercentage (vm_LimitPercentage c).
Definition GetSafetyMarginPercent (c : VerticalAutoscalingMetricConfig) : Z := default DefaultSafetyMarginPercent (vm_SafetyMarginPercent c).
Definition GetHysteresisPercent (c : VerticalAutoscalingMetricConfig) : Z := default DefaultHysteresisPercent (vm_HysteresisPercent c).
Definition GetEmergencyScaleUpPercent (c : VerticalAutoscalingMetricConfig) : Z :=
  default DefaultEmergencyScaleUpPercent (vm_EmergencyScaleUpPercent c).
Definition GetMaxOOMRecoveries (c : VerticalAutoscalingMetricConfig) : Z := default DefaultMaxOOMRecoveries (vm_MaxOOMRecoveries c).
Definition vpa_IsEnabled (v : option VerticalAutoscalingConfig) : bool := match v with Some v => vpa_Enabled v | None => false end.

(** ** Rules *)

Definition effective_threshold (cfg : VerticalAutoscalingMetricConfig) (rule : VerticalAutoscalingRule) : Z :=
  match vr_Direction rule with
  | ScaleUp => vr_UsagePercent rule
  | ScaleDown => let t := (vr_UsagePercent rule - GetHysteresisPercent cfg)%Z in if (t <? 0)%Z then 0%Z else t
  end.

Definition should_scale (cfg : VerticalAutoscalingMetricConfig) (rule : VerticalAutoscalingRule) (usedPercent : Z) : bool :=
  match vr_Direction rule with
  | ScaleUp => (effective_threshold cfg rule <=? usedPercent)%Z
  | ScaleDown => (usedPercent <=? effective_threshold cfg rule)%Z
  end.

Section rules.
Context `{QuantityApi} `{DurationApi}.

Definition cpu_step (cfg : VerticalAutoscalingMetricConfig) (rule : VerticalAutoscalingRule) (avg : f64)
    (requestMillicores : Z) : Z :=
  let step := Z.quot (int64 (requestMillicores * vr_StepPercent rule)) 100 in
  match vr_Direction rule with
  | ScaleUp => int64 (requestMillicores + step)
  | ScaleDown =>
      let newVal := int64 (requestMillicores - step) in
      let avgMillicores := f64_to_int64 (f64_mul avg (f64_of_Z 1000)) in
      let minSafeVal := Z.quot (int64 (avgMillicores * (100 + GetSafetyMarginPercent cfg))) 100 in
      if (newVal <? minSafeVal)%Z then minSafeVal else newVal
  end.

(** The usage is the answer of node-utils; the new request, when the rule fires. *)
Definition evaluateCpuRule (stats : Z → result f64) (requests : option (gmap string Quantity))
    (cfg : VerticalAutoscalingMetricConfig) (rule : VerticalAutoscalingRule) : result (option Quantity) :=
  avg ← stats (GetDuration rule);
  match avg with
  | S754_zero _ => Ok None
  | _ =>
      match requests ≫= λ m, m !! ResourceCPU with
      | None => Err (Errorf "no CPU request found" [])
      | Some currentRequest =>
          let requestMillicores := MilliValue currentRequest in
          if (requestMillicores =? 0)%Z then Err (Errorf "CPU request is zero, cannot evaluate" []) else
          let usedPercent :=
            f64_to_int64 (f64_mul (f64_div (f64_mul avg (f64_of_Z 1000)) (f64_of_Z requestMillicores)) (f64_of_Z 100)) in
          if should_scale cfg rule usedPercent
          then Ok (Some (NewMilliQuantity (clamp (cpu_step cfg rule avg requestMillicores)
                           (MilliValue (vm_Min cfg)) (MilliValue (vm_Max cfg)))))
          else Ok None
      end
  end.

Definition memory_step (cfg : VerticalAutoscalingMetricConfig) (rule : VerticalAutoscalingRule) (avg requestBytes : Z) : Z :=
  let step := f64_to_int64 (f64_div (f64_mul (f64_of_Z requestBytes) (f64_of_Z (vr_StepPercent rule))) (f64_of_Z 100)) in
  match vr_Direction rule with
  | ScaleUp => int64 (requestBytes + step)
  | ScaleDown =>
      let newVal := int64 (requestBytes - step) in
      let minSafeVal :=
        f64_to_int64 (f64_div (f64_mul (f64_of_Z avg) (f64_of_Z (100 + GetSafetyMarginPercent cfg))) (f64_of_Z 100)) in
      if (newVal <? minSafeVal)%Z then minSafeVal else newVal
  end.

Definition evaluateMemoryRule (stats : Z → result Z) (requests : option (gmap string Quantity))
    (cfg : VerticalAutoscalingMetricConfig) (rule : VerticalAutoscalingRule) : result (option Quantity) :=
  avg ← stats (GetDuration rule);
  if (avg =? 0)%Z then Ok None else
  match requests ≫= λ m, m !! ResourceMemory with
  | None => Err (Errorf "no memory request found" [])
  | Some currentRequest =>
      let requestBytes := Value currentRequest in
      if (requestBytes =? 0)%Z then Err (Errorf "memory request is zero, cannot evaluate" []) else
      let usedPercent := f64_to_int64 (f64_mul (f64_div (f64_of_Z avg) (f64_of_Z requestBytes)) (f64_of_Z 100)) in
      if should_scale cfg rule usedPercent
      then Ok (Some (NewQuantity (round_MiB (clamp (memory_step cfg rule avg requestBytes)
                                               (Value (vm_Min cfg)) (Value (vm_Max cfg))))))
      else Ok None
  end.
End rules.

(** ** The resources of a node and who shares their maps *)

(** A map of the struct being computed is either the map of the spec it was
    copied from, or one of its own. *)
Inductive MapRef := Shared | Own (m : option (gmap string Quantity)).
Record Resources := mkResources { re_Limits : MapRef; re_Requests : MapRef }.

(** Which resources of the spec [GetResources] copies. *)
Inductive Place := AtResources | AtStateSyncResources.

Definition rr_len (m : option (gmap string Quantity)) : nat := match m with Some m => size m | None => 0 end.
Definition ShouldRestoreFromSnapshot (n : ChainNode) : bool :=
  match ns_Persistence (cn_Spec n) with Some p => match pe_RestoreFromSnapshot p with Some _ => true | None => false end | None => false end.

Definition GetResources (n : ChainNode) : Place :=
  let s := ns_StateSyncResources (cn_Spec n) in
  if (rr_len (rr_Limits s) =? 0)%nat && (rr_len (rr_Requests s) =? 0)%nat then AtResources
  else if default false (ns_StateSyncRestore (cn_Spec n)) && negb (ShouldRestoreFromSnapshot n) &&
          ((nst_Phase (cn_Status n) == PhaseChainNodeInitData) || (nst_Phase (cn_Status n) == PhaseChainNodeStarting) ||
           (nst_Phase (cn_Status n) == PhaseChainNodeStateSyncing))
  then AtStateSyncResources else AtResources.

Definition get_place (n : ChainNode) (p : Place) : ResourceRequirements :=
  match p with AtResources => ns_Resources (cn_Spec n) | AtStateSyncResources => ns_StateSyncResources (cn_Spec n) end.

Definition set_place (n : ChainNode) (p : Place) (r : ResourceRequirements) : ChainNode :=
  let s := cn_Spec n in
  mkChainNode (cn_meta n)
    (match p with AtResources => ns_with_Resources s r | AtStateSyncResources => ns_with_StateSyncResources s r end)
    (cn_Status n).

Definition ref_of (m : option (gmap string Quantity)) : MapRef := match m with Some _ => Shared | None => Own None end.
(** [chainNode.GetResources()]: a struct with the maps of the spec. *)
Definition copy_of (n : ChainNode) (p : Place) : Resources :=
  mkResources (ref_of (rr_Limits (get_place n p))) (ref_of (rr_Requests (get_place n p))).

Definition limits_of (n : ChainNode) (p : Place) (r : Resources) : option (gmap string Quantity) :=
  match re_Limits r with Shared => rr_Limits (get_place n p) | Own m => m end.
Definition requests_of (n : ChainNode) (p : Place) (r : Resources) : option (gmap string Quantity) :=
  match re_Requests r with Shared => rr_Requests (get_place n p) | Own m => m end.
Definition value_of (n : ChainNode) (p : Place) (r : Resources) : ResourceRequirements :=
  mkResourceRequirements (limits_of n p r) (requests_of n p r) (rr_Claims (get_place n p)).

(** Writing through the struct: a shared map changes the spec.  [updated] is the
    node and the struct after the write. *)
Abbreviation updated := (ChainNode * Resources)%type.

Definition set_limits (p : Place) (f : option (gmap string Quantity) → option (gmap string Quantity)) (u : updated) : updated :=
  let '(n, r) := u in
  match re_Limits r with
  | Shared => (set_place n p (mkResourceRequirements (f (rr_Limits (get_place n p))) (rr_Requests (get_place n p)) (rr_Claims (get_place n p))), r)
  | Own m => (n, mkResources (Own (f m)) (re_Requests r))
  end.
Definition set_requests (p : Place) (f : option (gmap string Quantity) → option (gmap string Quantity)) (u : updated) : updated :=
  let '(n, r) := u in
  match re_Requests r with
  | Shared => (set_place n p (mkResourceRequirements (rr_Limits (get_place n p)) (f (rr_Requests (get_place n p))) (rr_Claims (get_place n p))), r)
  | Own m => (n, mkResources (re_Limits r) (Own (f m)))
  end.

Definition put (k : string) (q : Quantity) (m : option (gmap string Quantity)) : option (gmap string Quantity) :=
  Some (<[k := q]> (default ∅ m)).
Definition remove (k : string) (m : option (gmap string Quantity)) : option (gmap string Quantity) := delete k <$> m.

(** ** Persisted annotations *)

(** [time.Format] and [time.Parse] with the layout the annotations use, and the
    JSON of the annotations' values. *)
Class VpaCodec := {
  format_time : Z → string;
  parse_time : string → option Z;
  marshal_resources : ResourceRequirements → string;
  unmarshal_resources : string → option ResourceRequirements;
  marshal_strings : list string → string;
  unmarshal_strings : string → option (list string);
}.

(** What the reconciler is told: the time, the pod, the usage and whether the API
    server accepts an update of the node. *)
Record VpaEnv := mkVpaEnv {
  ve_now : Z;
  ve_pod : result (option Pod);
  ve_cpu : Z → result f64;
  ve_memory : Z → result Z;
  ve_update : ChainNode → result ();
}.

Definition annotations (n : ChainNode) : gmap string string := default ∅ (meta_Annotations (cn_meta n)).
Definition with_annotations (n : ChainNode) (a : gmap string string) : ChainNode :=
  let m := cn_meta n in
  mkChainNode (mkMeta (meta_Name m) (meta_Namespace m) (meta_UID m) (meta_Labels m) (Some a) (meta_OwnerReferences m)
                 (meta_Finalizers m) (meta_DeletionTimestamp m) (meta_CreationTimestamp m) (meta_ResourceVersion m)) (cn_Spec n) (cn_Status n).

(** The node in memory and the objects sent to the API server so far. *)
Abbreviation trail := (ChainNode * list ChainNode)%type.
Definition api_update (env : VpaEnv) (n : ChainNode) (us : list ChainNode) : option error * trail :=
  match ve_update env n with Ok _ => (None, (n, us ++ [n])) | Err e => (Some e, (n, us)) end.

Section vpa.
Context `{QuantityApi} `{DurationApi} `{VpaCodec}.

Definition getLastScaleTime (annotation : string) (n : ChainNode) : Z :=
  match annotations n !! annotation ≫= parse_time with
  | Some ts => ts
  | None => meta_CreationTimestamp (cn_meta n)
  end.
Definition withinCooldown (env : VpaEnv) (last cooldown : Z) : bool := (ve_now env - last <? cooldown)%Z.

(** [getVpaLastAppliedResourcesOrFallback] writes the recorded values into the
    struct it starts from. *)
Definition last_applied (n : ChainNode) : updated :=
  let p := GetResources n in
  match annotations n !! AnnotationVPAResources ≫= unmarshal_resources with
  | None => (n, copy_of n p)
  | Some vpa =>
      let maybe (set : Quantity → updated → updated) (m : option (gmap string Quantity)) (k : string) (u : updated) :=
        match m ≫= λ m, m !! k with Some q => set q u | None => u end in
      let u := (n, copy_of n p) in
      let u := maybe (λ q, set_requests p (put ResourceCPU q)) (rr_Requests vpa) ResourceCPU u in
      let u := maybe (λ q, set_requests p (put ResourceMemory q)) (rr_Requests vpa) ResourceMemory u in
      let u := maybe (λ q, set_limits p (put ResourceCPU q)) (rr_Limits vpa) ResourceCPU u in
      maybe (λ q, set_limits p (put ResourceMemory q)) (rr_Limits vpa) ResourceMemory u
  end.

Definition calculateLimitFromRequest (n : ChainNode) (request : Quantity) (cfg : VerticalAutoscalingMetricConfig)
    (resourceName : string) : option Quantity :=
  match GetLimitUpdateStrategy cfg with
  | LimitEqual => Some request
  | LimitVpaMax => Some (vm_Max cfg)
  | LimitPercentageOf =>
      if resourceName == ResourceCPU then
        Some (NewMilliQuantity (Z.quot (int64 (MilliValue request * GetLimitPercentage cfg)) 100))
      else Some (NewQuantity (round_MiB (Z.quot (int64 (Value request * GetLimitPercentage cfg)) 100)))
  | LimitUnset => None
  | LimitRetain => rr_Limits (get_place n (GetResources n)) ≫= λ m, m !! resourceName
  end.

(** Setting a new request and the limit its strategy gives. *)
Definition apply_request (p : Place) (cfg : VerticalAutoscalingMetricConfig) (k : string) (q : Quantity) (u : updated) : updated :=
  let u := set_requests p (put k q) u in
  match calculateLimitFromRequest u.1 q cfg k with
  | Some limit => set_limits p (put k limit) u
  | None => set_limits p (remove k) u
  end.

Definition put_if (k v : string) (a : gmap string string) : gmap string string * bool :=
  if default "" (a !! k) != v then (<[k := v]> a, true) else (a, false).

Definition storeVpaLastAppliedResources (env : VpaEnv) (n : ChainNode) (us : list ChainNode) (resources : ResourceRequirements)
    (cpuScaleTs memScaleTs : option Z) : option error * trail :=
  let stamp (k : string) (ts : option Z) (c : gmap string string * bool) :=
    match ts with
    | Some ts => let '(a, changed) := put_if k (format_time ts) c.1 in (a, c.2 || changed)
    | None => c
    end in
  let c := put_if AnnotationVPAResources (marshal_resources resources) (annotations n) in
  let c := stamp AnnotationVPALastCPUScale cpuScaleTs c in
  let c := stamp AnnotationVPALastMemoryScale memScaleTs c in
  if c.2 then api_update env (with_annotations n c.1) us else (None, (n, us)).

Definition clearVpaLastAppliedResources (env : VpaEnv) (n : ChainNode) : option error * trail :=
  match annotations n !! AnnotationVPAResources with
  | None => (None, (n, []))
  | Some _ => api_update env (with_annotations n (delete AnnotationVPAResources (annotations n))) []
  end.

Definition isOOMKilled (pod : Pod) (containerName : string) : bool :=
  existsb (λ cs, (cst_Name cs == containerName) && (cst_LastTerminated cs == Some "OOMKilled"))
    (ps_ContainerStatuses (pod_Status pod)).

(** ** Recovery from running out of memory *)

Definition getOOMRecoveryHistory (n : ChainNode) : list Z :=
  match annotations n !! AnnotationVPAOOMRecoveryHistory with
  | None | Some "" => []
  | Some data => match unmarshal_strings data with Some l => omap parse_time l | None => [] end
  end.

Definition appendOOMRecoveryHistory (env : VpaEnv) (cfg : VerticalAutoscalingMetricConfig) (n : ChainNode) (us : list ChainNode) :
    option error * trail :=
  let cutoff := (ve_now env - GetOOMRecoveryWindow cfg)%Z in
  let recent := map format_time (filter (λ ts, (cutoff < ts)%Z) (getOOMRecoveryHistory n)) in
  api_update env (with_annotations n (<[AnnotationVPAOOMRecoveryHistory :=
    marshal_strings (recent ++ [format_time (ve_now env)])]> (annotations n))) us.

(** The new request, when the emergency scale-up is allowed. *)
Definition handleOOMRecovery (env : VpaEnv) (cfg : VerticalAutoscalingMetricConfig) (n : ChainNode) (us : list ChainNode)
    (requests : option (gmap string Quantity)) : result (option Quantity) * trail :=
  match requests ≫= λ m, m !! ResourceMemory with
  | None => (Err (Errorf "no memory request found for OOM recovery" []), (n, us))
  | Some currentRequest =>
      let cutoff := (ve_now env - GetOOMRecoveryWindow cfg)%Z in
      let recentRecoveries := length (filter (λ ts, (cutoff < ts)%Z) (getOOMRecoveryHistory n)) in
      if (GetMaxOOMRecoveries cfg <=? Z.of_nat recentRecoveries)%Z then (Ok None, (n, us)) else
      let currentBytes := Value currentRequest in
      let step := f64_to_int64 (f64_div (f64_mul (f64_of_Z currentBytes) (f64_of_Z (GetEmergencyScaleUpPercent cfg))) (f64_of_Z 100)) in
      let newVal := clamp (int64 (currentBytes + step)) (Value (vm_Min cfg)) (Value (vm_Max cfg)) in
      match appendOOMRecoveryHistory env cfg n us with
      | (Some e, t) => (Err e, t)
      | (None, t) => (Ok (Some (NewQuantity (round_MiB newVal))), t)
      end
  end.

(** ** The reconciler *)

(** The first rule outside its cooldown that fires; an error stops the loop. *)
Fixpoint first_scaling (within : VerticalAutoscalingRule → bool) (evaluate : VerticalAutoscalingRule → result (option Quantity))
    (rules : list VerticalAutoscalingRule) : result (option Quantity) :=
  match rules with
  | [] => Ok None
  | rule :: rules =>
      if within rule then first_scaling within evaluate rules else
      match evaluate rule with
      | Err e => Err e
      | Ok (Some q) => Ok (Some q)
      | Ok None => first_scaling within evaluate rules
      end
  end.

(** One resource: whether it was scaled. *)
Definition scale_resource (env : VpaEnv) (p : Place) (k annotation : string) (cfg : option VerticalAutoscalingMetricConfig)
    (evaluate : option (gmap string Quantity) → VerticalAutoscalingMetricConfig → VerticalAutoscalingRule → result (option Quantity))
    (u : updated) : result (updated * bool) :=
  match cfg with
  | None => Ok (u, false)
  | Some cfg =>
      let last := getLastScaleTime annotation u.1 in
      fired ← first_scaling (λ rule, withinCooldown env last (GetCooldownDuration rule (vpam_GetCooldownDuration cfg)))
                (evaluate (requests_of u.1 p u.2) cfg) (vm_Rules cfg);
      match fired with
      | Some q => Ok (apply_request p cfg k q u, true)
      | None => Ok (u, false)
      end
  end.

Definition evaluate_and_store (env : VpaEnv) (p : Place) (vpa : VerticalAutoscalingConfig) (u : updated) (us : list ChainNode) :
    Resources * option error * trail :=
  let stamp (scaled : bool) := if scaled then Some (ve_now env) else None in
  let failed (e : error) (n : ChainNode) := let '(n, r) := last_applied n in (r, Some e, (n, us)) in
  match scale_resource env p ResourceCPU AnnotationVPALastCPUScale (vpa_CPU vpa) (evaluateCpuRule (ve_cpu env)) u with
  | Err e => failed e u.1
  | Ok (u, cpuScaled) =>
      match scale_resource env p ResourceMemory AnnotationVPALastMemoryScale (vpa_Memory vpa)
              (evaluateMemoryRule (ve_memory env)) u with
      | Err e => failed e u.1
      | Ok ((n, r), memScaled) =>
          let '(e, t) := storeVpaLastAppliedResources env n us (value_of n p r) (stamp cpuScaled) (stamp memScaled) in (r, e, t)
      end
  end.

Definition maybeGetVpaResources (env : VpaEnv) (n : ChainNode) : Resources * option error * trail :=
  let p := GetResources n in
  match ns_VPA (cn_Spec n) with
  | Some vpa =>
      if negb (vpa_Enabled vpa) then let '(e, t) := clearVpaLastAppliedResources env n in (copy_of n p, e, t) else
      if nst_Phase (cn_Status n) == PhaseChainNodeStateSyncing then (copy_of n p, None, (n, [])) else
      let u := last_applied n in
      match vpa_Memory vpa, ve_pod env with
      | Some cfg, Ok (Some pod) =>
          if isOOMKilled pod (app_App (ns_App (cn_Spec n))) then
            match handleOOMRecovery env cfg u.1 [] (requests_of u.1 p u.2) with
            | (Ok (Some q), (n', us)) =>
                let '(n'', r) := apply_request p cfg ResourceMemory q (n', u.2) in
                let '(e, t) := storeVpaLastAppliedResources env n'' us (value_of n'' p r) None (Some (ve_now env)) in (r, e, t)
            | (_, (n', us)) => evaluate_and_store env p vpa (n', u.2) us
            end
          else evaluate_and_store env p vpa u []
      | _, _ => evaluate_and_store env p vpa u []
      end
  | None => let '(e, t) := clearVpaLastAppliedResources env n in (copy_of n p, e, t)
  end.
End vpa.

(** ** Bounds *)

Lemma clamp_range v min max : (min ≤ max)%Z → (min ≤ clamp v min max ≤ max)%Z.
Proof. unfold clamp. intros H. destruct (Z.ltb_spec v min), (Z.ltb_spec max v); lia. Qed.

Lemma round_MiB_spec v :
  (0 ≤ v)%Z → (v + OneMiB ≤ 2 ^ 63)%Z →
  (v ≤ round_MiB v < v + OneMiB)%Z ∧ (OneMiB | round_MiB v)%Z.
Proof.
  intros H0 H1. unfold round_MiB. rewrite (wrap_small 64 (v + OneMiB - 1)) by (unfold OneMiB in *; lia).
  rewrite Z.quot_div_nonneg by (unfold OneMiB in *; lia).
  pose proof (Z.div_mod (v + OneMiB - 1) OneMiB ltac:(done)) as E.
  pose proof (Z.mod_pos_bound (v + OneMiB - 1) OneMiB ltac:(done)) as B.
  set (q := ((v + OneMiB - 1) / OneMiB)%Z) in *. rewrite (Z.mul_comm q).
  rewrite wrap_small by (unfold OneMiB in *; lia).
  split; [lia|]. exists q. lia.
Qed.

(** Whether a configuration's bounds are ordered int64 values. *)
Definition bounds_ok (lo hi limit : Z) : Prop := (lo ≤ hi)%Z ∧ (- 2 ^ 63 ≤ lo)%Z ∧ (hi + limit ≤ 2 ^ 63)%Z.

Section bounds.
Context `{QuantityLaws} `{DurationApi}.

(** Whatever usage node-utils reports and however the step overflows, a CPU
    request set by a rule lies within the configured minimum and maximum. *)
Theorem evaluateCpuRule_bounds stats requests cfg rule q
    (Hcfg : bounds_ok (MilliValue (vm_Min cfg)) (MilliValue (vm_Max cfg)) 1)
    (Heval : evaluateCpuRule stats requests cfg rule = Ok (Some q)) :
  (MilliValue (vm_Min cfg) ≤ MilliValue q ≤ MilliValue (vm_Max cfg))%Z.
Proof.
  destruct Hcfg as (B1 & B2 & B3). unfold evaluateCpuRule in Heval.
  destruct (stats _) as [avg|]; [simpl in Heval|done].
  assert (∀ req, (match requests ≫= λ m, m !! ResourceCPU with
      | None => Err (Errorf "no CPU request found" [])
      | Some currentRequest => req currentRequest end) = Ok (Some q) → ∃ c, req c = Ok (Some q)) as Hreq.
  { intros req. destruct (_ ≫= _) as [c|]; [|done]. by exists c. }
  assert (∃ c, (if (MilliValue c =? 0)%Z then Err (Errorf "CPU request is zero, cannot evaluate" [])
     else if should_scale cfg rule (f64_to_int64 (f64_mul (f64_div (f64_mul avg (f64_of_Z 1000)) (f64_of_Z (MilliValue c))) (f64_of_Z 100)))
      then Ok (Some (NewMilliQuantity (clamp (cpu_step cfg rule avg (MilliValue c)) (MilliValue (vm_Min cfg)) (MilliValue (vm_Max cfg)))))
      else Ok None) = Ok (Some q)) as [c Hc].
  { destruct avg; [done| | |]; by apply Hreq in Heval. }
  destruct (_ =? _)%Z; [done|]. destruct (should_scale _ _ _); [|done]. injection Hc as <-.
  pose proof (clamp_range (cpu_step cfg rule avg (MilliValue c)) _ _ B1). rewrite MilliValue_new; lia.
Qed.

(** C40: a memory request set by a rule is a whole number of MiB, at least the
    configured minimum and less than one MiB above the configured maximum: it is
    rounded up after it has been clamped. *)
Theorem evaluateMemoryRule_bounds stats requests cfg rule q
    (Hcfg : bounds_ok (Value (vm_Min cfg)) (Value (vm_Max cfg)) OneMiB) (Hmin : (0 ≤ Value (vm_Min cfg))%Z)
    (Heval : evaluateMemoryRule stats requests cfg rule = Ok (Some q)) :
  (Value (vm_Min cfg) ≤ Value q < Value (vm_Max cfg) + OneMiB)%Z ∧ (OneMiB | Value q)%Z.
Proof.
  destruct Hcfg as (B1 & B2 & B3). unfold evaluateMemoryRule in Heval.
  destruct (stats _) as [avg|]; [simpl in Heval|done]. destruct (avg =? 0)%Z; [done|].
  destruct (_ ≫= _) as [c|]; [|done]. destruct (Value c =? 0)%Z; [done|].
  destruct (should_scale _ _ _); [|done]. injection Heval as <-.
  pose proof (clamp_range (memory_step cfg rule avg (Value c)) _ _ B1) as Hb.
  set (v := clamp _ _ _) in *. destruct (round_MiB_spec v) as [Hr Hd]; [lia..|].
  unfold OneMiB in *. rewrite Value_new; [split; [lia|done]|]. lia.
Qed.
End bounds.

(** ** Sharing *)

Section sharing.
Context `{QuantityApi} `{DurationApi} `{VpaCodec}.

Definition shares (u : updated) : Prop := re_Requests u.2 = Shared.

Lemma set_requests_shares p f u : shares u → shares (set_requests p f u).
Proof. destruct u as [n r]. unfold shares. simpl. intros E. by rewrite E. Qed.
Lemma set_limits_shares p f u : shares u → shares (set_limits p f u).
Proof. destruct u as [n r]. unfold shares. simpl. by destruct (re_Limits r). Qed.

Lemma apply_request_shares p cfg k q u : shares u → shares (apply_request p cfg k q u).
Proof.
  intros Hu. unfold apply_request. destruct (calculateLimitFromRequest _ _ _ _);
    by apply set_limits_shares, set_requests_shares.
Qed.

Lemma last_applied_shares n : is_Some (rr_Requests (get_place n (GetResources n))) → shares (last_applied n).
Proof.
  intros [m Hm]. assert (shares (n, copy_of n (GetResources n))) as Hc.
  { unfold shares. simpl. by rewrite Hm. }
  unfold last_applied. destruct (_ ≫= _) as [vpa|]; [|done].
  repeat (case_match; [first [apply set_limits_shares|apply set_requests_shares]|]); done.
Qed.

Lemma scale_resource_shares env p k a cfg ev u u' b :
  shares u → scale_resource env p k a cfg ev u = Ok (u', b) → shares u'.
Proof.
  unfold scale_resource. intros Hu. destruct cfg as [cfg|]; [|by intros [= <- _]].
  destruct (first_scaling _ _ _) as [[q|]|]; simpl; [|by intros [= <- _]|done].
  intros [= <- _]. by apply apply_request_shares.
Qed.

(** Storing sends nothing, or the node it ends with. *)
Lemma store_sent env n us value c m n' us' :
  storeVpaLastAppliedResources env n us value c m = (None, (n', us')) →
  cn_Spec n' = cn_Spec n ∧ (us' = us ∨ us' = us ++ [n']).
Proof.
  unfold storeVpaLastAppliedResources. destruct (match _ with Some ts => _ | None => _ end).2.
  - unfold api_update. destruct (ve_update _ _); [|done]. intros [= <- <-]. split; [done|by right].
  - intros [= <- <-]. split; [done|by left].
Qed.

Lemma evaluate_and_store_shares env p vpa u us r n' us' :
  shares u → evaluate_and_store env p vpa u us = (r, None, (n', us')) →
  re_Requests r = Shared ∧ (us' = us ∨ us' = us ++ [n']).
Proof.
  unfold evaluate_and_store. intros Hu.
  assert (∀ (e : error) n, (let '(n0, r0) := last_applied n in (r0, Some e, (n0, us))) ≠ (r, None, (n', us'))) as Hf.
  { intros e n. by destruct (last_applied n). }
  destruct (scale_resource _ _ ResourceCPU _ _ _ u) as [[u1 b1]|e] eqn:E1; [|by intros Hx; destruct (Hf e _ Hx)].
  apply scale_resource_shares in E1; [|done].
  destruct (scale_resource _ _ ResourceMemory _ _ _ u1) as [[[n2 r2] b2]|e] eqn:E2; [|by intros Hx; destruct (Hf e _ Hx)].
  apply scale_resource_shares in E2; [|done].
  destruct (storeVpaLastAppliedResources _ _ _ _ _ _) as [e [n3 us3]] eqn:E3. intros [= <- -> <- <-].
  split; [done|]. by apply store_sent in E3 as [_ ?].
Qed.

(** The container of the application was seen killed for want of memory. *)
Definition out_of_memory (env : VpaEnv) (n : ChainNode) : Prop :=
  ∃ pod, ve_pod env = Ok (Some pod) ∧ isOOMKilled pod (app_App (ns_App (cn_Spec n))) = true.

Lemma handleOOMRecovery_sent env cfg n requests x n' us :
  handleOOMRecovery env cfg n [] requests = (x, (n', us)) →
  us = [] ∧ (∀ q, x ≠ Ok (Some q)) ∨ (∃ q, x = Ok (Some q)) ∧ us = [n'] ∧ cn_Spec n' = cn_Spec n.
Proof.
  unfold handleOOMRecovery. destruct (_ ≫= _); [|intros [= <- <- <-]; by left].
  case_match; [intros [= <- <- <-]; by left|].
  unfold appendOOMRecoveryHistory, api_update. destruct (ve_update _ _); intros [= <- <- <-]; [right; split; [by eexists|done]|by left].
Qed.

(** C39: what vertical autoscaling computes is written into the node's own spec when that spec sets
    requests.  In a pass that reports no error, for a node with autoscaling enabled and not in state
    sync: the requests it returns are the spec's, and the object it ends with, which is the last one
    sent to the API server if the annotations changed, carries them as the user's.  Only when the
    application was seen killed for want of memory another object is sent before, to record the
    recovery; that one carries, as the user's, the values that were applied last. *)
Theorem vpa_writes_into_spec env n vpa r n' us
    (Hvpa : ns_VPA (cn_Spec n) = Some vpa) (Hon : vpa_Enabled vpa = true)
    (Hphase : nst_Phase (cn_Status n) ≠ PhaseChainNodeStateSyncing)
    (Hspec : is_Some (rr_Requests (get_place n (GetResources n))))
    (Hrun : maybeGetVpaResources env n = (r, None, (n', us))) :
  requests_of n' (GetResources n) r = rr_Requests (get_place n' (GetResources n)) ∧
  ∃ recorded, (us = recorded ∨ us = recorded ++ [n']) ∧
    (recorded = [] ∨ ∃ n1, recorded = [n1] ∧ out_of_memory env n ∧ cn_Spec n1 = cn_Spec (last_applied n).1).
Proof.
  unfold maybeGetVpaResources in Hrun. rewrite Hvpa, Hon in Hrun. cbn [negb] in Hrun.
  rewrite bool_decide_eq_false_2 in Hrun by done.
  pose proof (last_applied_shares n Hspec) as Hsh.
  assert (∀ u, shares u → evaluate_and_store env (GetResources n) vpa u [] = (r, None, (n', us)) →
    requests_of n' (GetResources n) r = rr_Requests (get_place n' (GetResources n)) ∧
    ∃ recorded, (us = recorded ∨ us = recorded ++ [n']) ∧
      (recorded = [] ∨ ∃ n1, recorded = [n1] ∧ out_of_memory env n ∧ cn_Spec n1 = cn_Spec (last_applied n).1)) as Heval.
  { intros u Hu [Hr Hus]%evaluate_and_store_shares; [|done]. split; [unfold requests_of; by rewrite Hr|]. exists []. auto. }
  destruct (vpa_Memory vpa) as [cfg|]; [|by eapply Heval].
  destruct (ve_pod env) as [[pod|]|] eqn:Hpod; [|by eapply Heval..].
  destruct (isOOMKilled pod _) eqn:Eo; [|by eapply Heval].
  destruct (handleOOMRecovery _ _ _ _ _) as [x [n1 us1]] eqn:Eh.
  apply handleOOMRecovery_sent in Eh as [[-> Hx]|([q ->] & -> & Es)].
  { destruct x as [[q|]|e]; [by destruct (Hx q)|eapply (Heval (n1, _)); [exact Hsh|exact Hrun]..]. }
  destruct (apply_request _ _ _ _ _) as [n2 r2] eqn:Ea.
  assert (shares (n2, r2)) as Hr2 by (rewrite <- Ea; apply apply_request_shares; exact Hsh).
  destruct (storeVpaLastAppliedResources _ _ _ _ _ _) as [e [n3 us3]] eqn:E3. injection Hrun as <- -> <- <-.
  apply store_sent in E3 as [Hs3 Hus]. split.
  - unfold requests_of. unfold shares in Hr2. simpl in Hr2. by rewrite Hr2.
  - exists [n1]. split; [exact Hus|]. right. exists n1. split; [done|]. split; [by exists pod|done].
Qed.
End sharing.

(** ** Examples *)

Definition reference_codec : VpaCodec := {|
  format_time := FormatInt;
  parse_time s := match ParseInt 64 s with Ok z => Some z | Err _ => None end;
  marshal_resources r := "{}";
  unmarshal_resources s := None;
  marshal_strings l := "[]";
  unmarshal_strings s := None;
|}.
Definition quantity (z : Z) : Quantity := quantity_of_milli z.

(** Scaling up by half at 80% of usage, between 100 and 400 millicores. *)
Definition example_cpu : VerticalAutoscalingMetricConfig :=
  mkVpaMetric (quantity 100) (quantity 400) [mkVpaRule ScaleUp 80 None 50 None] None None None None None None None None.
(** The same for memory, between 100 MiB and 10^9 bytes. *)
Definition example_memory : VerticalAutoscalingMetricConfig :=
  mkVpaMetric (quantity (100 * OneMiB * 1000)) (quantity (10 ^ 9 * 1000)) [mkVpaRule ScaleUp 80 None 50 None]
    None None None None None None None None.
Definition example_rule : VerticalAutoscalingRule := mkVpaRule ScaleUp 80 None 50 None.

Lemma evaluateCpuRule_witness :
  let eval := @evaluateCpuRule reference_quantity reference_duration (λ _, Ok (f64_div (f64_of_Z 9) (f64_of_Z 10)))
                (Some {[ ResourceCPU := quantity 200 ]}) example_cpu example_rule in
  eval = Ok (Some (quantity 300)) ∧
  (@MilliValue reference_quantity (vm_Min example_cpu) ≤ @MilliValue reference_quantity (quantity 300)
   ≤ @MilliValue reference_quantity (vm_Max example_cpu))%Z.
Proof.
  assert (@evaluateCpuRule reference_quantity reference_duration (λ _, Ok (f64_div (f64_of_Z 9) (f64_of_Z 10)))
            (Some {[ ResourceCPU := quantity 200 ]}) example_cpu example_rule = Ok (Some (quantity 300))) as E
    by (vm_compute; reflexivity).
  split; [exact E|].
  eapply (@evaluateCpuRule_bounds reference_quantity reference_quantity_laws reference_duration); [|exact E].
  vm_compute. split_and!; discriminate.
Defined.

(** The configured maximum is exceeded. *)
Lemma evaluateMemoryRule_witness :
  let q := quantity (954 * OneMiB * 1000) in
  @evaluateMemoryRule reference_quantity reference_duration (λ _, Ok 900000000%Z)
    (Some {[ ResourceMemory := quantity (900000000 * 1000) ]}) example_memory example_rule = Ok (Some q) ∧
  (@Value reference_quantity (vm_Max example_memory) < @Value reference_quantity q)%Z ∧
  (@Value reference_quantity q < @Value reference_quantity (vm_Max example_memory) + OneMiB)%Z.
Proof.
  assert (@evaluateMemoryRule reference_quantity reference_duration (λ _, Ok 900000000%Z)
    (Some {[ ResourceMemory := quantity (900000000 * 1000) ]}) example_memory example_rule =
    Ok (Some (quantity (954 * OneMiB * 1000)))) as E by (vm_compute; reflexivity).
  split; [exact E|]. split; [vm_compute; reflexivity|].
  eapply (@evaluateMemoryRule_bounds reference_quantity reference_quantity_laws reference_duration); [| |exact E].
  - vm_compute. split_and!; discriminate.
  - vm_compute. discriminate.
Defined.

Definition example_vpa_node : ChainNode :=
  mkChainNode (mkMeta "node" "default" "uid-1" ∅ None [] [] None 0 "")
    (ns_with_VPA
       (ns_with_Resources (newChainNodeSpec (newAppSpec "img" None "appd" []))
          (mkResourceRequirements None (Some {[ ResourceCPU := quantity 200 ]}) []))
       (Some (mkVpa true false (Some example_cpu) None)))
    (newChainNodeStatus PhaseChainNodeRunning "chain-1" 60 [] no_signer_status).
Definition example_env : VpaEnv :=
  mkVpaEnv (600 * second) (Ok None) (λ _, Ok (f64_div (f64_of_Z 9) (f64_of_Z 10))) (λ _, Ok 0%Z) (λ _, Ok ()).
Definition example_vpa_run : Resources * option error * (ChainNode * list ChainNode) :=
  @maybeGetVpaResources reference_quantity reference_duration reference_codec example_env example_vpa_node.

(** The user asked for 200 millicores; the object sent to the API server asks for
    300, as does the spec from then on. *)
Lemma vpa_writes_into_spec_witness :
  map (λ n, rr_Requests (ns_Resources (cn_Spec n))) example_vpa_run.2.2 = [Some {[ ResourceCPU := quantity 300 ]}] ∧
  requests_of example_vpa_run.2.1 AtResources example_vpa_run.1.1 =
    rr_Requests (get_place example_vpa_run.2.1 AtResources).
Proof.
  split; [vm_compute; reflexivity|].
  assert (example_vpa_run = (example_vpa_run.1.1, None, (example_vpa_run.2.1, example_vpa_run.2.2))) as E
    by (vm_compute; reflexivity).
  by eapply (@vpa_writes_into_spec reference_quantity reference_duration reference_codec example_env example_vpa_node
    (mkVpa true false (Some example_cpu) None) _ _ example_vpa_run.2.2).
Defined.
